(* ===== verification/_CoqProject ===== *)
-Q . S2P
Prelude.v
Strings.v
Platform.v
Message.v
Wire.v
Packing.v
Identity.v
Approval.v
Cleanup.v
Localization.v
Registration.v
Offline.v
OfflineSpec.v
ProfileState.v
Store.v
Exec.v
Logic.v
Lifecycle.v
Sessions.v
Expiry.v
Grants.v
Requests.v
Prompts.v
Consent.v
Artifacts.v
Provenance.v
Registry.v
Database.v
Repository.v
Server.v
ServerInv.v
ServerIo.v
Atomicity.v
Scenario.v
ServerScenario.v
Witnesses.v
ServerWitnesses.v
OfflineWitnesses.v
ClientState.v
Client.v
ClientInv.v
ClientIo.v
ClientSpec.v
ClientWitnesses.v
Connect.v
Api.v
ApiSpec.v
ApiWitnesses.v
ProfileConfig.v
Authority.v
AuthoritySpec.v
AuthorityInv.v
AuthorityTheorems.v
AuthorityWitnesses.v
Recovery.v
Storage.v
StorageSpec.v
StoragePhases.v
Bootstrap.v
BootstrapWitnesses.v
Installer.v
InstallerSpec.v
InstallerRefine.v
InstallerRuns.v
InstallerTheorems.v
InstallerWitnesses.v
Startup.v
StartupWitnesses.v
