(* ===== verification/Prelude.v ===== *)
(** * Consent: a verification of the consent daemon

    Consent decides whether an agent may use a feature on behalf of a user.
    Clients ask the daemon [consentd] over a local socket; the daemon keeps
    definitions of features, sessions, approval requests, grants, receipts of
    authorized execution steps and the artifacts retained under them, and an
    approval UI displays the pending requests and answers them.  The image
    builder can leave registrations of definitions for the first start.

    ** Parts and how they interact

    - A client's bytes reach the I/O thread (src/consentd/server.cc), which
      authenticates the peer from the kernel's view (src/consentd/identity.cc),
      cuts the stream into frames and gives them to parser threads
      (src/common/message.hh, src/common/parcel_codec.hh).
    - A decoded request that passes the role table is queued for the one
      database thread, which executes it on the repository
      (src/consentd/repository.cc) and posts the reply back to the I/O thread.
    - The repository validates definitions (src/common/registration.cc),
      templates (src/common/localization.cc) and approval selections
      (src/common/approval.cc), pages clean-up work
      (src/common/cleanup_cursor.cc) and follows the active user profile
      (src/consentd/profile_state.cc).
    - The profile authority (src/consentd/profile_authority.cc) follows the
      session service over D-Bus: it fences the profile state, commits a
      barrier on the database thread and activates the current user of the
      bindings of profiles.conf (src/consentd/profile_config.cc).
    - The image builder's records (src/common/offline_registration.cc) are
      loaded at startup and imported into the repository.
    - Before a start the storage helper (src/tools/storage_prepare.cc) prepares
      the directories and moves the receipt of the first start
      (src/common/recovery_state.cc), which the daemon checks
      (src/consentd/bootstrap.cc).
    - The installer keeps the inventory of packages and applications, which
      the daemon reads to validate an installation, with a tool
      (src/tools/installation_authority.cc).
    - Applications talk to the daemon through the client library: C functions
      over builders and results (src/consent/params.cc, result.cc, request.cc,
      session.cc, ...), a handle with its pending operations and cache
      (src/consent/client.cc) and one I/O thread (src/consent/io_context.cc).

    ** Files

    - Prelude, Strings, Platform: tactics, hint databases, list and map lemmas;
      [std::string] and decimal numbers; GLib as the class [Platform] with a
      reference instance.
    - Message: [Message], [Get], [ParseNumber], [ValidField].  Wire: [Encode],
      [Decode], the bounded reader and writer, the generated records; the
      Parcel library is the class [Parcel] with [ParcelLaws].
    - Packing: [Pack], [Unpack], [Integer], the delegation predicates of the
      repository.  Approval, Localization, Registration, Cleanup,
      ProfileState: the source files of these names.
    - Identity: protected paths, rule file, [Authenticate], [Allows], the
      installation authority.  [Kernel], [FileSystem] and the package manager
      are parameters.
    - Offline: the spool of registrations as programs over a disk in which
      every system call may fail or be where the process dies.  OfflineSpec: a
      weakest-precondition calculus with a crash condition, and the theorems.
    - Store: the tables of [kSchema] and the statement forms.  Exec: the state
      and exception monad [M], transactions, and the environment [Env] (clock,
      random source, file system, SQLite results).  Logic: [evolves], the
      program logic of operations.  Lifecycle: the abstract transition system
      [db_step] and the integrity [wf].
    - Sessions, Expiry, Grants, Requests, Prompts, Consent, Artifacts,
      Provenance, Registry, Database, Repository: the operations of
      [Repository::Impl] by concern, each with its evolution lemma; Repository
      has [Execute], [Tick], [Maintain], [Shutdown] and the theorems over
      sequences of calls.  Atomicity: what a failed operation leaves.
    - Server: connections, queues, threads; [step] is one turn of one thread,
      [IoEnv] is the environment.  ServerInv: the invariant of all
      interleavings.  ServerIo: the socket loops.
    - ClientState, Client: the handle, its operations and the I/O thread;
      [step] is one critical section of one thread.  ClientInv, ClientIo,
      ClientSpec: the invariant of all interleavings, the socket loops, the
      theorems.  Connect: [Client::Connect], the checks of the socket and of
      its peer, and the budget of handles; the kernel's answers are the class
      [Endpoint].  Api: the C functions.  ApiSpec: what builders hold, and
      what the daemon gets of them.
    - ProfileConfig: profiles.conf and [LoadProfiles].  Authority: the profile
      authority as a state monad with one operation per callback; [step]
      handles one event.  AuthoritySpec: the protocol as an automaton on
      observations and the simulation relation.  AuthorityInv: every callback
      keeps the relation.  AuthorityTheorems: the theorems over all runs.
    - Recovery: the receipt and its replacement, over the disk of Offline.
      Storage: the storage helper.  StorageSpec: runs that keep a relation,
      wherever they end.  StoragePhases: the life cycle of the receipt.
      Bootstrap: the gate, and the life of a system of helper runs and starts.
    - Installer: the installation authority tool; GLib's key files are the
      class [KeyFiles].  InstallerSpec: the abstract inventory and its
      contract [perform].  InstallerRefine: [Apply] implements [perform].
      InstallerRuns: runs of the tool over the disk.  InstallerTheorems: the
      theorems, and what the daemon reads.
    - Startup: [Server::Run] before the threads, the startup job, and the
      life of a daemon as the preflight, the job and a run of Server.
    - Scenario, ServerScenario and the files ending in Witnesses: a concrete
      platform, concrete runs, and the theorems applied to them.

    ** What is proved

    - Consent: an authorization rests on grants with exactly the required key
      ([authorize_sound], [GrantKey_exact]); grants come from the response of
      the UI instance that displayed the prompt ([respond_sound]); a validated
      selection is bound by its digest ([selection_digest_binds]).
    - Revocation and expiry: [revoke_effective], [revoke_permanent],
      [Expire_effective], [ReceiptValid_sound]; derived data inherits the
      strictest terms ([data_register_derived_sound]).
    - Refinement and life cycles: every operation is a run of [db_step]
      ([operations_refine]), every reachable database is well formed
      ([reachable_integrity]), and sessions, requests, receipts, artifacts and
      grants only move forward ([lifecycles]).
    - Failures: an operation that throws leaves the database as it was
      ([failed_operations_roll_back]); QUERY changes nothing ([query_pure]);
      a repeated AUTHORIZE returns the earlier receipt
      ([authorize_idempotent]).
    - Daemon: admission, limits, output streams and integrity under every
      interleaving ([server_admission], [server_limits], [server_stream],
      [server_integrity]); a daemon serves only what the gate, the database
      and the registrations allow ([daemon_life]); the socket loops end and
      lose nothing
      ([Write_progress], [Receive_framing], [frame_of_stream]).
    - Client library: callbacks and returns happen exactly once
      ([client_once]), an answer from the cache is one the daemon allowed for
      the same fields and still live ([client_cache]), failures report whether
      the outcome is known ([client_outcome]), deadlines are armed
      ([client_deadlines]) and limits hold ([client_limits]).  A handle opens
      only towards the daemon ([Connect_trusted]) and a process has at most 16
      ([client_budget]); the daemon decodes exactly what the application built
      ([api_request_faithful], [registrations_faithful]) and reads the
      requirements that were added ([requirements_delivered]); results are
      read as they are ([result_enumerates], [decision_exact]).
    - Profiles: the authority refines the protocol automaton
      ([authority_refines]); an active profile was named by the service and a
      barrier committed since ([authority_ready]); it agrees only to what it
      has carried out ([authority_acknowledges]); the profile state is well
      typed ([profiles_typed]).  AuthorityWitnesses also has three runs that
      differ from the guide.
    - First start: a receipt is replaced atomically ([WriteReceipt_atomic]),
      every run of the helper moves it forward ([helper_phases]), and only one
      invocation of the service ever starts without data
      ([first_start_once]).
    - Installations: the runs of the tool perform whole operations of the
      contract and keep the inventory consistent ([installer_refines]); the
      daemon validates an installation exactly when the inventory has it
      active ([installation_agreement]), up to the number of groups, where
      tool and daemon differ ([tool_outgrows_daemon]).
    - Identity: [Authenticate_sound], [OpenProtected_exact],
      [offline_implies_online].
    - Encodings: [Decode_Encode], [Decode_sound], [Unpack_Pack],
      [CursorParse_canonical], [ParseNumber_correct]; the client's sweep visits
      every artifact once ([CleanupSweep_complete]).
    - Image builder: [Register_atomic] and [Open_preserves] hold at every
      crash point; [Register_load], [LoadRegistrations_deterministic].

    ** Conventions and bounds

    Machine integers are [Z]; the code parses 64-bit numbers with checked
    bounds and where it adds two of them the overflow check of the source is
    modelled.  Strings are byte strings and maps iterate in key order.
    Exceptions are values: an operation that throws keeps the members it had
    assigned, and an open transaction restores the database.  Each reading of
    an environment takes the next instant, so no two readings need agree.

    Loops of the source that are not structural have fuel, and the fuel is
    never what ends them: [unpack_loop] has one unit per byte ([Unpack_Pack]
    shows it suffices), [write_loop] one per pending byte and frame
    ([Write_progress]), [receive_loop] one per byte the
    input limit allows ([Receive_framing]), path walks one per byte of the path.
    The reopening of the database follows at most eight replacements
    ([open_fuel], each reopening needs the storage to be replaced once more,
    and running out throws as storage failure), and a sweep is bounded by the
    source's own limit of 128 pages.  The client's [fail_loop], [frames_loop],
    [read_loop] and [write_loop] have lemmas in ClientSpec that their fuel is
    enough; [scan_lines] has one unit per byte of the file.  The theorems on
    the authority assume that fewer than 2^64 fences happen, so that its
    generation counter does not wrap.

    ** Not modelled

    Handles inherited over a fork, and the test build of the client, which
    trusts any socket.  SQLite, GLib, the Parcel library, the package manager,
    systemd and the kernel are parameters.  The UI, logging, mocks and examples
    are not part of the daemon.  The disk of the helpers has no delayed
    writes: a killed process leaves what its calls have done.  Object
    lifetimes, allocation failures and data races inside a critical section
    are outside of the model: the code's mutexes make each critical section
    one step. *)
From stdpp Require Export prelude strings gmap sorting list list_numbers.
From Stdlib Require Export ZArith Lia.

#[global] Open Scope Z_scope.

(** ** Scopes, hint databases and tactics *)

Declare Scope consent_scope.
Delimit Scope consent_scope with consent.

(** [consent] resolves the framing and preservation side conditions of the
    repository operations; [cstr] normalises byte strings. *)
Create HintDb consent discriminated.
#[export] Hint Constants Opaque : consent.
Create Rewrite HintDb cstr.

(** Split every conjunction and existential of the context. *)
Ltac deex :=
  repeat match goal with
  | H : ∃ _, _ |- _ => destruct H
  | H : _ ∧ _ |- _ => destruct H
  end.

(** Turn the boolean connectives of the context into propositions. *)
Ltac bool_hyps :=
  repeat match goal with
  | H : (_ && _)%bool = true |- _ => apply andb_true_iff in H; destruct H
  | H : (_ || _)%bool = false |- _ => apply orb_false_iff in H; destruct H
  | H : negb _ = true |- _ => apply negb_true_iff in H
  | H : negb _ = false |- _ => apply negb_false_iff in H
  | H : bool_decide _ = true |- _ => apply bool_decide_eq_true in H
  | H : bool_decide _ = false |- _ => apply bool_decide_eq_false in H
  end.

(** Case analysis on the discriminee of every [if] or [match] of a
    hypothesis that still computes to a constructor. *)
Ltac case_in H :=
  match type of H with
  | context [if ?b then _ else _] => destruct b eqn:?
  | context [match ?x with _ => _ end] => destruct x eqn:?
  end.

(** ** Machine integers *)

Definition int64_min : Z := -9223372036854775808.
Definition int64_max : Z := 9223372036854775807.
Definition int32_min : Z := -2147483648.
Definition int32_max : Z := 2147483647.

(** Unsigned wrap-around at 64 and 32 bits. *)
Definition u64 (z : Z) : Z := z mod 2 ^ 64.
Definition u32 (z : Z) : Z := z mod 2 ^ 32.

Definition in_int64 (z : Z) : Prop := int64_min ≤ z ≤ int64_max.

Lemma u64_id z : 0 ≤ z < 2 ^ 64 → u64 z = z.
Proof. apply Z.mod_small. Qed.

Lemma u32_id z : 0 ≤ z < 2 ^ 32 → u32 z = z.
Proof. apply Z.mod_small. Qed.

(** ** Lists used as SQL tables

    A table is the list of its rows in [rowid] order.  [UPDATE ... WHERE]
    maps the selected rows in place, [SELECT ... WHERE key] finds the first
    row, [INSERT] appends. *)

Definition update_where {A} (p : A → bool) (f : A → A) (rows : list A) : list A :=
  (λ r, if p r then f r else r) <$> rows.

Definition find_row {A} (p : A → bool) (rows : list A) : option A :=
  head (filter (λ r, p r = true) rows).

Definition exists_row {A} (p : A → bool) (rows : list A) : bool :=
  existsb p rows.

Definition count_rows {A} (p : A → bool) (rows : list A) : Z :=
  Z.of_nat (length (filter (λ r, p r = true) rows)).

Section tables.
Context {A : Type}.
Implicit Types (p : A → bool) (f : A → A) (rows : list A).

Lemma elem_of_update_where p f rows r :
  r ∈ update_where p f rows ↔
  ∃ r0, r0 ∈ rows ∧ r = if p r0 then f r0 else r0.
Proof.
  unfold update_where. rewrite list_elem_of_fmap. naive_solver.
Qed.

Lemma update_where_false p f rows :
  (∀ r, r ∈ rows → p r = false) → update_where p f rows = rows.
Proof.
  intros Hp. unfold update_where.
  rewrite <- (list_fmap_id rows) at 2. apply list_fmap_ext.
  intros i x Hx. rewrite Hp; [done|]. by eapply list_elem_of_lookup_2.
Qed.

Lemma update_where_fmap {B} (g : A → B) p f rows :
  (∀ r, p r = true → g (f r) = g r) → g <$> update_where p f rows = g <$> rows.
Proof.
  intros Hg. unfold update_where. rewrite <- list_fmap_compose.
  apply list_fmap_ext. intros i x _. simpl. destruct (p x) eqn:E; [by apply Hg|done].
Qed.

Lemma find_row_Some p rows r :
  find_row p rows = Some r → r ∈ rows ∧ p r = true.
Proof.
  unfold find_row. intros H. apply head_Some_elem_of in H.
  apply list_elem_of_filter in H. naive_solver.
Qed.

Lemma find_row_None p rows :
  find_row p rows = None ↔ ∀ r, r ∈ rows → p r = false.
Proof.
  unfold find_row. rewrite head_None. split.
  - intros H r Hr. apply not_true_is_false. intros Hp.
    assert (Hin : r ∈ filter (λ r, p r = true) rows) by (apply list_elem_of_filter; done).
    rewrite H in Hin. set_solver.
  - intros H. destruct (filter _ rows) as [|r l] eqn:E; [done|].
    assert (Hin : r ∈ filter (λ r, p r = true) rows) by (rewrite E; set_solver).
    apply list_elem_of_filter in Hin as [Hp Hin]. rewrite H in Hp; done.
Qed.

Lemma exists_row_true p rows :
  exists_row p rows = true ↔ ∃ r, r ∈ rows ∧ p r = true.
Proof.
  unfold exists_row. rewrite existsb_exists. setoid_rewrite list_elem_of_In. done.
Qed.

Lemma exists_row_false p rows :
  exists_row p rows = false ↔ ∀ r, r ∈ rows → p r = false.
Proof.
  rewrite <- not_true_iff_false, exists_row_true. split.
  - intros H r Hr. apply not_true_is_false. naive_solver.
  - intros H (r & Hr & Hp). rewrite H in Hp; done.
Qed.

(** A lookup by a key column that identifies rows finds every row. *)
Lemma find_row_key {K} `{EqDecision K} (key : A → K) rows r :
  NoDup (key <$> rows) → r ∈ rows →
  find_row (λ x, bool_decide (key x = key r)) rows = Some r.
Proof.
  induction rows as [|x rows IH]; [set_solver|].
  intros Hnd Hr. unfold find_row in *. rewrite filter_cons.
  rewrite fmap_cons, NoDup_cons in Hnd. destruct Hnd as [Hx Hnd].
  apply elem_of_cons in Hr as [->|Hr].
  - rewrite decide_True by (by rewrite bool_decide_true). done.
  - rewrite decide_False; [by apply IH|]. rewrite bool_decide_eq_true. intros Hk.
    apply Hx. rewrite Hk. by apply list_elem_of_fmap_2.
Qed.
End tables.

(** A column without duplicates determines the row. *)
Lemma key_inj {A B} (f : A → B) l x y : NoDup (f <$> l) → x ∈ l → y ∈ l → f x = f y → x = y.
Proof.
  induction l as [|a l IH]; [set_solver|]. rewrite fmap_cons, NoDup_cons.
  intros [Ha Hl] [->|Hx]%elem_of_cons [->|Hy]%elem_of_cons Hf; [done| | |by apply IH].
  - destruct Ha. rewrite Hf. by apply list_elem_of_fmap_2.
  - destruct Ha. rewrite <- Hf. by apply list_elem_of_fmap_2.
Qed.
