(* ===== verification/Strings.v ===== *)
(** * std::string as used by the sources

    C++ strings are sequences of 8-bit bytes: [string] (a list of [ascii]).
    This file models the members of [std::string] the sources call and the
    decimal printing of [std::to_string], with the lemmas the components
    share. *)
From S2P Require Import Prelude.
From Stdlib Require Import Ascii.

(** ** Observers *)

(** [value.size()]. *)
Definition size (s : string) : Z := Z.of_nat (String.length s).

(** [value.empty()]. *)
Definition empty (s : string) : bool :=
  match s with EmptyString => true | _ => false end.

(** [value == other]. *)
Definition eqs (a b : string) : bool := bool_decide (a = b).

(** [value < other] and [value <= other]: bytewise unsigned order. *)
Definition lts (a b : string) : bool := String.ltb a b.
Definition les (a b : string) : bool := String.leb a b.

(** A loop over the bytes of a string that stops at the first failure. *)
Fixpoint all_of (p : ascii → bool) (s : string) : bool :=
  match s with
  | EmptyString => true
  | String c s' => p c && all_of p s'
  end.

(** [value.find(c)]: position of the first occurrence. *)
Fixpoint find_char (c : ascii) (s : string) : option nat :=
  match s with
  | EmptyString => None
  | String d s' => if bool_decide (d = c) then Some 0%nat else S <$> find_char c s'
  end.

(** [value.substr(pos)] and [value.substr(0, n)]. *)
Fixpoint drop_str (n : nat) (s : string) : string :=
  match n, s with
  | O, _ => s
  | S n', EmptyString => EmptyString
  | S n', String _ s' => drop_str n' s'
  end.

Fixpoint take_str (n : nat) (s : string) : string :=
  match n, s with
  | O, _ => EmptyString
  | S n', EmptyString => EmptyString
  | S n', String c s' => String c (take_str n' s')
  end.

(** [value.substr(pos, n)]. *)
Definition substr (pos n : nat) (s : string) : string := take_str n (drop_str pos s).

(** [value.find(c, pos)]: absolute position of the first occurrence at or
    after [pos]. *)
Definition find_char_from (c : ascii) (pos : nat) (s : string) : option nat :=
  Nat.add pos <$> find_char c (drop_str pos s).

(** [value.rfind(c)]: position of the last occurrence. *)
Fixpoint rfind_char (c : ascii) (s : string) : option nat :=
  match s with
  | EmptyString => None
  | String d s' =>
      match rfind_char c s' with
      | Some n => Some (S n)
      | None => if bool_decide (d = c) then Some 0%nat else None
      end
  end.

(** [value.compare(0, prefix.size(), prefix) == 0]. *)
Fixpoint starts_with (prefix s : string) : bool :=
  match prefix, s with
  | EmptyString, _ => true
  | String c p', String d s' => bool_decide (c = d) && starts_with p' s'
  | _, _ => false
  end.

(** [value.find(sub) != npos]. *)
Fixpoint contains (sub s : string) : bool :=
  starts_with sub s ||
  match s with EmptyString => false | String _ s' => contains sub s' end.

(** [value.find('\0') != npos] and friends. *)
Definition has_char (c : ascii) (s : string) : bool :=
  negb (all_of (λ d, bool_decide (d ≠ c)) s).

(** [value.front()] and [value.back()] on nonempty strings. *)
Definition front_is (c : ascii) (s : string) : bool :=
  match s with EmptyString => false | String d _ => bool_decide (d = c) end.

Fixpoint back_is (c : ascii) (s : string) : bool :=
  match s with
  | EmptyString => false
  | String d EmptyString => bool_decide (d = c)
  | String _ s' => back_is c s'
  end.

Definition nul : ascii := "000"%char.
Definition newline : ascii := "010"%char.

(** ** std::to_string *)

Definition ascii_Z (c : ascii) : Z := Z.of_N (N_of_ascii c).

(** ['0' <= c && c <= '9']. *)
Definition is_digit (c : ascii) : bool := (48 <=? ascii_Z c) && (ascii_Z c <=? 57).

(** [c - '0']. *)
Definition digit_val (c : ascii) : Z := ascii_Z c - 48.

Definition digit_char (d : Z) : ascii := ascii_of_N (Z.to_N (d + 48)).

Fixpoint digits_from (fuel : nat) (n : Z) (acc : string) : string :=
  match fuel with
  | O => acc
  | S fuel' =>
      let acc' := String (digit_char (n mod 10)) acc in
      if n <? 10 then acc' else digits_from fuel' (n / 10) acc'
  end.

(** Decimal digits of a nonnegative number; [S (log2 n)] iterations always
    suffice ([digits_value]). *)
Definition digits (n : Z) : string := digits_from (S (Z.to_nat (Z.log2 n))) n "".

Definition to_string (n : Z) : string :=
  if n <? 0 then String "-" (digits (- n)) else digits n.

(** The value denoted by a string of decimal digits. *)
Fixpoint dec_value_from (acc : Z) (s : string) : Z :=
  match s with
  | EmptyString => acc
  | String c s' => dec_value_from (acc * 10 + digit_val c) s'
  end.

Definition dec_value (s : string) : Z := dec_value_from 0 s.

(** ** Lemmas on observers *)

Lemma eqs_true a b : eqs a b = true ↔ a = b.
Proof. apply bool_decide_eq_true. Qed.

Lemma eqs_false a b : eqs a b = false ↔ a ≠ b.
Proof. apply bool_decide_eq_false. Qed.

Lemma eqs_refl a : eqs a a = true.
Proof. by apply eqs_true. Qed.

Lemma has_char_false c s : has_char c s = false ↔ all_of (λ d, bool_decide (d ≠ c)) s = true.
Proof. unfold has_char. apply negb_false_iff. Qed.

Lemma empty_true s : empty s = true ↔ s = "".
Proof. destruct s; naive_solver. Qed.

Lemma empty_false s : empty s = false ↔ s ≠ "".
Proof. destruct s; naive_solver. Qed.

#[export] Hint Rewrite eqs_refl : cstr.

(** Boolean string tests of the context as propositions. *)
Ltac str_hyps :=
  cbv beta in *; bool_hyps;
  repeat match goal with
  | H : eqs _ _ = true |- _ => apply eqs_true in H
  | H : eqs _ _ = false |- _ => apply eqs_false in H
  | H : empty _ = true |- _ => apply empty_true in H
  | H : empty _ = false |- _ => apply empty_false in H
  end.

Lemma app_nil_s s : "" +:+ s = s.
Proof. done. Qed.

Lemma app_cons_s c a b : String c a +:+ b = String c (a +:+ b).
Proof. done. Qed.

Lemma app_nil_r_s s : s +:+ "" = s.
Proof. induction s as [|c s IH]; [done|]. by rewrite app_cons_s, IH. Qed.

Lemma app_assoc_s a b c : (a +:+ b) +:+ c = a +:+ (b +:+ c).
Proof. induction a as [|d a IH]; [done|]. by rewrite !app_cons_s, IH. Qed.

Lemma length_app_s a b : String.length (a +:+ b) = (String.length a + String.length b)%nat.
Proof. induction a as [|d a IH]; [done|]. rewrite app_cons_s. simpl. by rewrite IH. Qed.

Lemma size_app a b : size (a +:+ b) = size a + size b.
Proof. unfold size. rewrite length_app_s. lia. Qed.

Lemma size_nonneg s : 0 ≤ size s.
Proof. unfold size. lia. Qed.

Lemma size_0 s : size s = 0 → s = "".
Proof. by destruct s. Qed.

#[export] Hint Rewrite app_nil_s app_cons_s app_nil_r_s app_assoc_s : cstr.

Lemma size_cons c s : size (String c s) = 1 + size s.
Proof. unfold size. simpl. lia. Qed.

Lemma app_inj_l a b c : a +:+ b = a +:+ c → b = c.
Proof.
  induction a as [|d a IH]; [done|]. rewrite !app_cons_s. naive_solver.
Qed.

(** Equal-length prefixes of equal strings are equal. *)
Lemma app_inj_len a1 b1 a2 b2 :
  String.length a1 = String.length a2 → a1 +:+ b1 = a2 +:+ b2 → a1 = a2 ∧ b1 = b2.
Proof.
  revert a2. induction a1 as [|c a1 IH]; intros [|d a2]; try done.
  rewrite !app_cons_s. simpl. intros Hlen [= -> H]. injection Hlen as Hlen.
  by destruct (IH _ Hlen H) as [-> ->].
Qed.

Lemma take_str_app a b : take_str (String.length a) (a +:+ b) = a.
Proof. induction a as [|c a IH]; [by destruct b|]. rewrite app_cons_s. simpl. by rewrite IH. Qed.

Lemma drop_str_app a b : drop_str (String.length a) (a +:+ b) = b.
Proof. induction a as [|c a IH]; [by destruct b|]. rewrite app_cons_s. simpl. by rewrite IH. Qed.

Lemma drop_str_app_S a c b : drop_str (S (String.length a)) (a +:+ String c b) = b.
Proof. induction a as [|d a IH]; [done|]. rewrite app_cons_s. exact IH. Qed.

Lemma take_drop_str n s : take_str n s +:+ drop_str n s = s.
Proof.
  revert s. induction n as [|n IH]; intros [|c s]; try done.
  simpl. by rewrite app_cons_s, IH.
Qed.

Lemma take_str_all s : take_str (String.length s) s = s.
Proof. induction s as [|c s IH]; [done|]. simpl. by rewrite IH. Qed.

Lemma length_take_str n s : String.length (take_str n s) = Nat.min n (String.length s).
Proof. revert s. induction n as [|n IH]; intros [|c s]; try done. simpl. by rewrite IH. Qed.

Lemma length_drop_str n s : String.length (drop_str n s) = (String.length s - n)%nat.
Proof. revert s. induction n as [|n IH]; intros [|c s]; try done. simpl. by rewrite IH. Qed.

Lemma all_of_app p a b : all_of p (a +:+ b) = all_of p a && all_of p b.
Proof.
  induction a as [|c a IH]; [done|]. rewrite app_cons_s. simpl. by rewrite IH, andb_assoc.
Qed.

Lemma all_of_impl (p q : ascii → bool) s :
  (∀ c, p c = true → q c = true) → all_of p s = true → all_of q s = true.
Proof.
  intros Hpq. induction s as [|c s IH]; [done|]. simpl. intros ?. bool_hyps.
  rewrite Hpq, IH; done.
Qed.

Lemma find_char_app c a b :
  all_of (λ d, bool_decide (d ≠ c)) a = true →
  find_char c (a +:+ String c b) = Some (String.length a).
Proof.
  induction a as [|d a IH]; rewrite ?app_nil_s, ?app_cons_s; simpl.
  - by rewrite bool_decide_true.
  - intros ?. bool_hyps. rewrite bool_decide_false by done. by rewrite IH.
Qed.

Lemma find_char_Some c s n :
  find_char c s = Some n →
  s = take_str n s +:+ String c (drop_str (S n) s) ∧
  all_of (λ d, bool_decide (d ≠ c)) (take_str n s) = true ∧
  (n < String.length s)%nat.
Proof.
  revert n. induction s as [|d s IH]; intros n; [done|]. simpl.
  case_bool_decide as Hd.
  - intros [= <-]. subst. split_and!; [by destruct s|done|lia].
  - destruct (find_char c s) as [m|] eqn:E; [|done]. simpl. intros [= <-].
    destruct (IH m eq_refl) as (H1 & H2 & H3). simpl.
    split_and!; [exact (f_equal (String d) H1)| |lia].
    apply andb_true_iff. split; [by rewrite bool_decide_true|done].
Qed.

Lemma find_char_None c s :
  find_char c s = None ↔ all_of (λ d, bool_decide (d ≠ c)) s = true.
Proof.
  induction s as [|d s IH]; [done|]. simpl.
  case_bool_decide as Hd; destruct (find_char c s); simpl; case_bool_decide; simpl; naive_solver.
Qed.

Lemma starts_with_true p s : starts_with p s = true ↔ ∃ t, s = p +:+ t.
Proof.
  revert s. induction p as [|c p IH]; intros s.
  - split; [intros _; by exists s|done].
  - destruct s as [|d s]; simpl.
    + split; [done|]. intros [t Ht]. done.
    + rewrite andb_true_iff, bool_decide_eq_true, IH. split.
      * intros [-> [t ->]]. by exists t.
      * intros [t Ht]. rewrite app_cons_s in Ht. injection Ht as -> ->. eauto.
Qed.

Lemma starts_with_app p s : starts_with p (p +:+ s) = true.
Proof. apply starts_with_true. eauto. Qed.

(** ** Lexicographic order *)

Lemma les_refl s : les s s = true.
Proof. unfold les. destruct (String.leb_total s s); done. Qed.

Lemma les_antisym a b : les a b = true → les b a = true → a = b.
Proof. apply String.leb_antisym. Qed.

Lemma les_total a b : les a b = true ∨ les b a = true.
Proof. apply String.leb_total. Qed.

(** ** Lemmas on decimal printing *)

Lemma digit_char_spec d :
  0 ≤ d ≤ 9 → is_digit (digit_char d) = true ∧ digit_val (digit_char d) = d.
Proof.
  intros Hd. assert (Hz : ascii_Z (digit_char d) = d + 48).
  { unfold ascii_Z, digit_char. rewrite N_ascii_embedding; lia. }
  unfold is_digit, digit_val. rewrite Hz. split; [|lia].
  apply andb_true_iff. split; apply Z.leb_le; lia.
Qed.

Lemma is_digit_val c : is_digit c = true → 0 ≤ digit_val c ≤ 9.
Proof. unfold is_digit, digit_val. intros ?. bool_hyps. lia. Qed.

Lemma dec_value_from_app acc a b :
  dec_value_from acc (a +:+ b) = dec_value_from (dec_value_from acc a) b.
Proof.
  revert acc. induction a as [|c a IH]; intros acc; [done|]. rewrite app_cons_s. simpl. apply IH.
Qed.

Lemma dec_value_from_lower acc s :
  0 ≤ acc → all_of is_digit s = true → acc ≤ dec_value_from acc s.
Proof.
  revert acc. induction s as [|c s IH]; intros acc Hacc; simpl; [lia|]. intros ?.
  bool_hyps. pose proof (is_digit_val c ltac:(done)).
  specialize (IH (acc * 10 + digit_val c) ltac:(lia) ltac:(done)). lia.
Qed.

Lemma digits_from_spec fuel n acc :
  0 ≤ n < 10 ^ Z.of_nat fuel → (0 < fuel)%nat →
  ∃ d, digits_from fuel n acc = d +:+ acc ∧ d ≠ "" ∧
       all_of is_digit d = true ∧ dec_value d = n.
Proof.
  revert n acc. induction fuel as [|fuel IH]; intros n acc Hn Hf; [lia|].
  assert (Hm : 0 ≤ n mod 10 ≤ 9) by (pose proof (Z.mod_pos_bound n 10); lia).
  destruct (digit_char_spec _ Hm) as [Hd Hv]. simpl.
  destruct (Z.ltb_spec n 10) as [Hlt|Hge].
  - exists (String (digit_char (n mod 10)) ""). split_and!; [done|done| |].
    + cbn [all_of]. by rewrite Hd.
    + unfold dec_value. cbn [dec_value_from]. rewrite Hv. rewrite Z.mod_small; lia.
  - rewrite Nat2Z.inj_succ, Z.pow_succ_r in Hn by lia.
    assert (Hq : 0 ≤ n / 10 < 10 ^ Z.of_nat fuel).
    { split; [apply Z.div_pos; lia|]. apply Z.div_lt_upper_bound; lia. }
    assert (0 < fuel)%nat. { destruct fuel; [|lia]. simpl in *. lia. }
    destruct (IH (n / 10) (String (digit_char (n mod 10)) acc) Hq ltac:(lia))
      as (d & -> & Hne & Hdig & Hval).
    exists (d +:+ String (digit_char (n mod 10)) ""). split_and!.
    + by rewrite app_assoc_s.
    + destruct d; done.
    + rewrite all_of_app, Hdig. cbn [all_of]. by rewrite Hd.
    + unfold dec_value in *. rewrite dec_value_from_app, Hval. cbn [dec_value_from].
      rewrite Hv. pose proof (Z.div_mod n 10). lia.
Qed.

Lemma digits_spec n :
  0 ≤ n → digits n ≠ "" ∧ all_of is_digit (digits n) = true ∧ dec_value (digits n) = n.
Proof.
  intros Hn. unfold digits.
  destruct (digits_from_spec (S (Z.to_nat (Z.log2 n))) n "") as (d & -> & ? & ? & ?);
    [|lia|by rewrite app_nil_r_s].
  split; [done|]. destruct (decide (n = 0)) as [->|]; [done|].
  pose proof (Z.log2_spec n ltac:(lia)) as [_ H2]. pose proof (Z.log2_nonneg n).
  rewrite Nat2Z.inj_succ, Z2Nat.id by lia.
  eapply Z.lt_le_trans; [exact H2|]. apply Z.pow_le_mono_l. lia.
Qed.

Lemma to_string_nonneg n : 0 ≤ n → to_string n = digits n.
Proof. intros ?. unfold to_string. destruct (Z.ltb_spec n 0); [lia|done]. Qed.

Lemma digits_inj n m : 0 ≤ n → 0 ≤ m → digits n = digits m → n = m.
Proof.
  intros Hn Hm H. destruct (digits_spec n Hn) as (_ & _ & <-).
  destruct (digits_spec m Hm) as (_ & _ & <-). by rewrite H.
Qed.

Lemma to_string_inj n m : 0 ≤ n → 0 ≤ m → to_string n = to_string m → n = m.
Proof. intros ??. rewrite !to_string_nonneg by done. by apply digits_inj. Qed.

(** A decimal representation contains no byte outside ['0'..'9']. *)
Lemma digits_no_char c n :
  0 ≤ n → is_digit c = false → all_of (λ d, bool_decide (d ≠ c)) (digits n) = true.
Proof.
  intros Hn Hc. destruct (digits_spec n Hn) as (_ & Hd & _).
  eapply all_of_impl; [|exact Hd]. intros d ?. apply bool_decide_eq_true. intros ->. congruence.
Qed.

Lemma digits_from_length fuel n acc k :
  0 ≤ n < 10 ^ Z.of_nat k → (0 < k)%nat →
  (String.length (digits_from fuel n acc) ≤ k + String.length acc)%nat.
Proof.
  revert n acc k. induction fuel as [|fuel IH]; intros n acc k Hn Hk; simpl; [lia|].
  destruct (Z.ltb_spec n 10); [simpl; lia|].
  destruct k as [|k]; [lia|]. rewrite Nat2Z.inj_succ, Z.pow_succ_r in Hn by lia.
  assert (0 < k)%nat. { destruct k; [simpl in *; lia|lia]. }
  assert (0 ≤ n / 10 < 10 ^ Z.of_nat k).
  { split; [apply Z.div_pos; lia|]. apply Z.div_lt_upper_bound; lia. }
  specialize (IH (n / 10) (String (digit_char (n mod 10)) acc) k ltac:(done) ltac:(done)).
  simpl in *. lia.
Qed.

(** A number below [10^k] has at most [k] digits. *)
Lemma digits_length n k :
  0 ≤ n < 10 ^ Z.of_nat k → (0 < k)%nat → (String.length (digits n) ≤ k)%nat.
Proof.
  intros Hn Hk. unfold digits.
  pose proof (digits_from_length (S (Z.to_nat (Z.log2 n))) n "" k Hn Hk). simpl in *. lia.
Qed.
