(* ===== verification/Platform.v ===== *)
(** * The platform interface

    GLib and the Tizen headers are not part of the repository.  What the
    sources use of them is the class [Platform]; every definition that
    depends on it takes an instance as an argument.  [reference_platform] is
    a concrete instance on which closed examples are evaluated. *)
From S2P Require Import Prelude Strings.
From Stdlib Require Import Ascii.

Class Platform := {
  (** Byte classification of GLib. *)
  g_ascii_isalnum : ascii → bool;
  g_ascii_isalpha : ascii → bool;
  g_ascii_isdigit : ascii → bool;
  (** [g_utf8_validate(data, size, nullptr)]. *)
  g_utf8_validate : string → bool;
  (** [g_compute_checksum_for_data(G_CHECKSUM_SHA256, data, size)]. *)
  g_sha256 : string → string;
  (** First error of the module range of [tizen_error.h]. *)
  TIZEN_ERROR_MIN_MODULE_ERROR : Z;
}.

(** Documented behaviour of the byte classifiers: ASCII letters and digits. *)
Definition ascii_letter (c : ascii) : bool :=
  ((65 <=? ascii_Z c) && (ascii_Z c <=? 90)) || ((97 <=? ascii_Z c) && (ascii_Z c <=? 122)).

Class PlatformLaws `{Platform} : Prop := {
  isalnum_spec : ∀ c, g_ascii_isalnum c = ascii_letter c || is_digit c;
  isalpha_spec : ∀ c, g_ascii_isalpha c = ascii_letter c;
  isdigit_spec : ∀ c, g_ascii_isdigit c = is_digit c;
}.

(** ** Error numbers of [errno.h] and [consent_common.h] *)

Definition ENOENT : Z := 2.
Definition E2BIG : Z := 7.
Definition ENOMEM : Z := 12.
Definition EACCES : Z := 13.
Definition EBUSY : Z := 16.
Definition EINVAL : Z := 22.
Definition ENOSPC : Z := 28.
Definition ENOSYS : Z := 38.
Definition EPROTO : Z := 71.
Definition ETIMEDOUT : Z := 110.
Definition EINPROGRESS : Z := 115.
Definition ESTALE : Z := 116.

(** ** Files *)

(** [struct stat] as far as the sources read it. *)
Record file_stat := mk_file_stat {
  st_dev : Z; st_ino : Z; st_mode : Z; st_uid : Z; st_nlink : Z; st_size : Z;
  st_mtim_sec : Z; st_mtim_nsec : Z; st_gid : Z;
}.

#[export] Instance file_stat_eq_dec : EqDecision file_stat.
Proof. solve_decision. Defined.

Inductive stat_result := StatErrno (errno : Z) | StatOk (st : file_stat).

(** [S_ISREG(mode)] and [S_ISDIR(mode)]. *)
Definition S_ISREG (mode : Z) : bool := Z.land mode 61440 =? 32768.
Definition S_ISDIR (mode : Z) : bool := Z.land mode 61440 =? 16384.

(** ** Errors of the consent module *)

Section errors.
Context `{Platform}.
Definition kStorage : Z := TIZEN_ERROR_MIN_MODULE_ERROR + 5.
Definition kConflict : Z := TIZEN_ERROR_MIN_MODULE_ERROR + 4.
Definition kInactive : Z := TIZEN_ERROR_MIN_MODULE_ERROR + 2.
Definition kClosed : Z := TIZEN_ERROR_MIN_MODULE_ERROR + 3.
End errors.

(** ** A concrete instance for closed evaluations

    The checksum is not SHA-256: it is some total function with a
    64-character lowercase hexadecimal result, which is all that the closed
    examples need. *)

Definition hex_char (d : Z) : ascii :=
  if d <? 10 then ascii_of_N (Z.to_N (d + 48)) else ascii_of_N (Z.to_N (d + 87)).

Fixpoint hex_from (n : nat) (z : Z) : string :=
  match n with
  | O => ""
  | S n' => hex_from n' (z / 16) +:+ String (hex_char (z mod 16)) ""
  end.

Fixpoint byte_sum (acc : Z) (s : string) : Z :=
  match s with
  | EmptyString => acc
  | String c s' => byte_sum (acc + ascii_Z c) s'
  end.

Definition reference_platform : Platform := {|
  g_ascii_isalnum c := ascii_letter c || is_digit c;
  g_ascii_isalpha := ascii_letter;
  g_ascii_isdigit := is_digit;
  g_utf8_validate s := all_of (λ c, (0 <? ascii_Z c) && (ascii_Z c <? 128)) s;
  g_sha256 s := hex_from 64 (byte_sum 0 s);
  TIZEN_ERROR_MIN_MODULE_ERROR := -1000;
|}.

Lemma reference_platform_laws : @PlatformLaws reference_platform.
Proof. split; reflexivity. Qed.
