(* ===== verification/Message.v ===== *)
(** * Messages and numbers (src/common/message.hh)

    [Message] is [std::map<std::string, std::string>]; iteration is in key
    order.  This file has the map accessors, the checked decimal parser and
    the field syntax; the wire envelope is in Wire.v. *)
From S2P Require Import Prelude Strings Platform.
From Stdlib Require Import Ascii.

Abbreviation Message := (gmap string string).

Definition kMaxFrameSize : Z := 65536.
Definition kMaxFields : Z := 256.
Definition kMaxValueSize : Z := 8192.
Definition kMaxRequirements : Z := 16.

(** The entries of a map in iteration order. *)
Definition key_le {A} (p q : string * A) : Prop := les p.1 q.1 = true.

#[export] Instance key_le_dec {A} (p q : string * A) : Decision (key_le p q).
Proof. unfold key_le. apply _. Defined.

Definition items {A} (m : gmap string A) : list (string * A) :=
  merge_sort key_le (map_to_list m).

(** [message.size()]. *)
Definition msize {A} (m : gmap string A) : Z := Z.of_nat (base.size m).

(** [Get(message, key, fallback)]. *)
Definition GetOr (message : Message) (key fallback : string) : string :=
  match message !! key with
  | None => fallback
  | Some value => value
  end.

Definition Get (message : Message) (key : string) : string := GetOr message key "".

(** [message.count(key) != 0]. *)
Definition has (message : Message) (key : string) : bool :=
  bool_decide (is_Some (message !! key)).

(** The digit loop of [ParseNumber], on 64-bit unsigned arithmetic. *)
Fixpoint parse_digits (maximum number : Z) (s : string) : option Z :=
  match s with
  | EmptyString => Some number
  | String c s' =>
      if negb (is_digit c) then None
      else
        let digit := digit_val c in
        if number >? u64 (maximum - digit) / 10 then None
        else parse_digits maximum (u64 (u64 (number * 10) + digit)) s'
  end.

(** [ParseNumber(value, &output)]: [None] is [false]. *)
Definition ParseNumber (value : string) : option Z :=
  match value with
  | EmptyString => None
  | String c rest =>
      let negative := bool_decide (c = "-"%char) in
      let text := if negative then rest else value in
      if empty text then None
      else
        let maximum := int64_max + (if negative then 1 else 0) in
        match parse_digits maximum 0 text with
        | None => None
        | Some number =>
            Some (if negative
                  then (if number =? maximum then int64_min else - number)
                  else number)
        end
  end.

(** [Number(message, key, fallback)] of message.hh. *)
Definition MsgNumber (message : Message) (key : string) (fallback : Z) : Z :=
  match ParseNumber (Get message key) with
  | Some value => value
  | None => fallback
  end.

Section fields.
Context `{Platform}.

Definition key_char (c : ascii) : bool :=
  g_ascii_isalnum c || bool_decide (c = "_"%char) || bool_decide (c = "."%char) ||
  bool_decide (c = "-"%char).

Definition ValidField (key value : string) : bool :=
  if empty key || (size key >? 128) || (size value >? kMaxValueSize) ||
     has_char nul value || negb (g_utf8_validate value)
  then false
  else all_of key_char key.
End fields.

(** ** Validators

    [bool f(..., std::string* error)] with outputs: either the outputs or the
    diagnostic it stores. *)
Inductive verdict (A : Type) := Good (a : A) | Bad (reason : string).
Arguments Good {A} _.
Arguments Bad {A} _.

#[export] Instance verdict_ret : MRet verdict := @Good.
#[export] Instance verdict_bind : MBind verdict := λ A B k m,
  match m with Good a => k a | Bad reason => Bad reason end.

(** [if (!condition) return Error(error, reason)]. *)
Definition ensure (condition : bool) (reason : string) : verdict () :=
  if condition then Good () else Bad reason.

Lemma bind_Good {A B} (m : verdict A) (k : A → verdict B) b :
  m ≫= k = Good b ↔ ∃ a, m = Good a ∧ k a = Good b.
Proof. destruct m; simpl; naive_solver. Qed.

Lemma ensure_Good c r u : ensure c r = Good u ↔ c = true.
Proof. unfold ensure. destruct c, u; naive_solver. Qed.

(** Split a successful chain of validations into its steps. *)
Ltac good_steps H :=
  repeat first
    [ apply bind_Good in H; let E := fresh "E" in destruct H as (? & E & H);
      try (apply ensure_Good in E)
    | apply ensure_Good in H ].

(** [FrameSize(header)]: big-endian 32-bit length. *)
Definition FrameSize (h0 h1 h2 h3 : Z) : Z :=
  Z.lor (Z.lor (Z.lor (u32 (Z.shiftl h0 24)) (u32 (Z.shiftl h1 16))) (u32 (Z.shiftl h2 8))) h3.

(** ** Iteration order *)

#[export] Instance key_le_total {A} : Total (@key_le A).
Proof. intros p q. apply les_total. Qed.

Lemma items_perm {A} (m : gmap string A) : items m ≡ₚ map_to_list m.
Proof. apply merge_sort_Permutation. Qed.

Lemma elem_of_items {A} (m : gmap string A) k v : (k, v) ∈ items m ↔ m !! k = Some v.
Proof. rewrite items_perm. apply elem_of_map_to_list. Qed.

Lemma items_NoDup {A} (m : gmap string A) : NoDup (items m).*1.
Proof. rewrite items_perm. apply NoDup_fst_map_to_list. Qed.

Lemma list_to_map_items {A} (m : gmap string A) : list_to_map (items m) = m.
Proof.
  rewrite (list_to_map_proper (items m) (map_to_list m)).
  - apply list_to_map_to_list.
  - apply items_NoDup.
  - apply items_perm.
Qed.

Lemma items_inj {A} (m1 m2 : gmap string A) : items m1 = items m2 → m1 = m2.
Proof. intros H. rewrite <- (list_to_map_items m1), H. apply list_to_map_items. Qed.

(** ** Accessors *)

Lemma Get_lookup m k v : m !! k = Some v → Get m k = v.
Proof. unfold Get, GetOr. by intros ->. Qed.

Lemma Get_nonempty m k : Get m k ≠ "" → m !! k = Some (Get m k).
Proof. unfold Get, GetOr. destruct (m !! k); done. Qed.

Lemma Get_insert m k v : Get (<[k:=v]> m) k = v.
Proof. apply Get_lookup, lookup_insert_eq. Qed.

Lemma Get_insert_ne m k k' v : k ≠ k' → Get (<[k:=v]> m) k' = Get m k'.
Proof. intros. unfold Get, GetOr. by rewrite lookup_insert_ne. Qed.

(** ** ParseNumber

    [parse_digits] never overflows its 64-bit accumulator and computes the
    decimal value exactly when that value is at most [maximum]. *)
Lemma parse_digits_spec maximum number s :
  int64_max ≤ maximum ≤ int64_max + 1 → 0 ≤ number ≤ maximum →
  parse_digits maximum number s =
  if all_of is_digit s && (dec_value_from number s <=? maximum)
  then Some (dec_value_from number s) else None.
Proof.
  unfold int64_max. intros Hmax. revert number.
  induction s as [|c s IH]; intros number Hn; simpl.
  - destruct (Z.leb_spec number maximum); [done|lia].
  - destruct (is_digit c) eqn:Hc; simpl; [|done].
    pose proof (is_digit_val c Hc) as Hd.
    rewrite (u64_id (maximum - _)) by lia.
    pose proof (Z.div_mod (maximum - digit_val c) 10 ltac:(lia)) as Hdm.
    pose proof (Z.mod_pos_bound (maximum - digit_val c) 10 ltac:(lia)) as Hmb.
    destruct (Z.gtb_spec number ((maximum - digit_val c) / 10)) as [Hgt|Hle].
    + destruct (all_of is_digit s) eqn:Hs; [|done]. simpl.
      pose proof (dec_value_from_lower (number * 10 + digit_val c) s ltac:(lia) Hs).
      destruct (Z.leb_spec (dec_value_from (number * 10 + digit_val c) s) maximum); [lia|done].
    + assert (Hb : 0 ≤ number * 10 + digit_val c ≤ maximum) by lia.
      rewrite (u64_id (number * 10)) by lia. rewrite u64_id by lia. by apply IH.
Qed.

(** The decimal syntax [ParseNumber] accepts, with its value. *)
Definition decimal (value : string) (z : Z) : Prop :=
  (value ≠ "" ∧ all_of is_digit value = true ∧ z = dec_value value) ∨
  (∃ rest, value = String "-" rest ∧ rest ≠ "" ∧ all_of is_digit rest = true ∧
           z = - dec_value rest).

Lemma parse_digits_Some (b : bool) text n :
  parse_digits (int64_max + (if b then 1 else 0)) 0 text = Some n ↔
  all_of is_digit text = true ∧ n = dec_value text ∧
  0 ≤ n ≤ int64_max + (if b then 1 else 0).
Proof.
  rewrite parse_digits_spec by (unfold int64_max; destruct b; lia).
  fold (dec_value text). destruct (all_of is_digit text) eqn:Hd; simpl; [|naive_solver].
  pose proof (dec_value_from_lower 0 text ltac:(lia) Hd) as H0. fold (dec_value text) in H0.
  case_match eqn:E; [apply Z.leb_le in E|apply Z.leb_gt in E]; naive_solver lia.
Qed.

Lemma ParseNumber_iff value z :
  ParseNumber value = Some z ↔ decimal value z ∧ in_int64 z.
Proof.
  unfold ParseNumber, decimal, in_int64. destruct value as [|c rest].
  { split; [done|]. intros [[(? & _)|(? & ? & _)] _]; done. }
  case_bool_decide as Hc; [subst c|].
  - destruct (empty rest) eqn:He; str_hyps.
    { subst. split; [done|]. intros [[(_ & Hd & _)|(? & [= <-] & ? & _)] _]; done. }
    pose proof (parse_digits_Some true rest) as Hp.
    destruct (parse_digits _ 0 rest) as [n|].
    + destruct (proj1 (Hp n) eq_refl) as (Hd & -> & Hb). unfold int64_min, int64_max in *.
      case_match eqn:E; [apply Z.eqb_eq in E|apply Z.eqb_neq in E].
      all: split; [intros [= <-]|intros [[(_ & H & _)|(? & [= <-] & _ & _ & ->)] _]];
        [split; [right; exists rest; split_and!; [done..|lia]|lia]|done|f_equal; lia].
    + split; [done|]. intros [[(_ & H & _)|(? & [= <-] & _ & Hd & ->)] Hb]; [done|].
      assert (None = Some (dec_value rest)); [|done]. apply Hp.
      pose proof (dec_value_from_lower 0 rest ltac:(lia) Hd). unfold dec_value in *.
      unfold int64_min, int64_max in *. split_and!; [done..|lia|lia].
  - simpl (empty _). set (s := String c rest) in *.
    pose proof (parse_digits_Some false s) as Hp.
    destruct (parse_digits _ 0 s) as [n|].
    + destruct (proj1 (Hp n) eq_refl) as (Hd & -> & Hb). unfold int64_min, int64_max in *.
      split; [intros [= <-]; split; [by left|lia]|].
      intros [[(_ & _ & ->)|(? & Hs & _)] _]; [done|]. unfold s in Hs. congruence.
    + split; [done|]. intros [[(_ & Hd & ->)|(? & Hs & _)] Hb]; [|unfold s in Hs; congruence].
      assert (None = Some (dec_value s)); [|done]. apply Hp.
      pose proof (dec_value_from_lower 0 s ltac:(lia) Hd). unfold dec_value in *.
      unfold int64_min, int64_max in *. split_and!; [done..|lia|lia].
Qed.

Lemma to_string_decimal z : decimal (to_string z) z.
Proof.
  unfold to_string, decimal. destruct (Z.ltb_spec z 0).
  - right. exists (digits (- z)). destruct (digits_spec (- z)) as (? & ? & ->); [lia|].
    split_and!; [done..|lia].
  - left. destruct (digits_spec z) as (? & ? & ->); done.
Qed.

Lemma ParseNumber_to_string z : in_int64 z → ParseNumber (to_string z) = Some z.
Proof. intros. apply ParseNumber_iff. split; [apply to_string_decimal|done]. Qed.

(** [ParseNumber] accepts exactly the decimal numerals, with an optional
    minus sign, whose value is a 64-bit signed integer, and returns that
    value: no intermediate 64-bit product or sum wraps around, the limits
    [INT64_MIN] and [INT64_MAX] included.  In particular it inverts
    [std::to_string] on the whole 64-bit range. *)
Theorem ParseNumber_correct :
  (∀ value z, ParseNumber value = Some z ↔ decimal value z ∧ in_int64 z) ∧
  (∀ z, in_int64 z → ParseNumber (to_string z) = Some z).
Proof. split; [exact ParseNumber_iff|exact ParseNumber_to_string]. Qed.
