(* ===== verification/Wire.v ===== *)
(** * The wire format (src/common/message.hh: Encode, Decode;
    src/common/parcel_codec.hh; the record classes that
    src/tools/parcel_codegen.py generates from src/protocol/consent.idl.json)

    A message travels as a frame: a four-byte big-endian length and a body,
    which is the native Parcel image of an [Envelope].  The bounded reader and
    writer of parcel_codec.hh guard every access to the Parcel; the generated
    [Valid], [WriteToParcel] and [ReadFromParcel] are written out for the two
    records of the schema.  The Parcel library itself is not part of the
    repository: [Parcel] is what the code uses of it. *)
From S2P Require Import Prelude Strings Platform Message.
From Stdlib Require Import Ascii.

(** ** The Parcel library

    Bytes of the fixed-width integers and of strings in the byte order that
    [SetByteOrder(true)] selects, and the integers read back from as many
    bytes. *)
Class Parcel := {
  put_u32 : Z → string;
  put_i32 : Z → string;
  put_u64 : Z → string;
  put_string : string → string;
  get_u32 : string → Z;
  get_i32 : string → Z;
  get_u64 : string → Z;
}.

(** What the sources rely on: integers have their width and are read back; a
    string is its length with the terminator, its bytes and a NUL. *)
Class ParcelLaws `{Parcel} : Prop := {
  size_u32 : ∀ z, size (put_u32 z) = 4;
  size_i32 : ∀ z, size (put_i32 z) = 4;
  size_u64 : ∀ z, size (put_u64 z) = 8;
  get_put_u32 : ∀ z, 0 ≤ z < 2 ^ 32 → get_u32 (put_u32 z) = z;
  get_put_i32 : ∀ z, int32_min ≤ z ≤ int32_max → get_i32 (put_i32 z) = z;
  get_put_u64 : ∀ z, 0 ≤ z < 2 ^ 64 → get_u64 (put_u64 z) = z;
  get_u64_range : ∀ s, 0 ≤ get_u64 s < 2 ^ 64;
  put_string_bytes : ∀ s, put_string s = put_u32 (size s + 1) +:+ s +:+ String nul "";
}.

(** ** The generated records *)

Record Field := mkField { key : string; value : string }.

Record Envelope := mkEnvelope {
  version : Z; kind : Z; correlation : Z; method : string; status : Z; fields : list Field;
}.

Section codec.
Context `{Platform} `{Parcel}.

(** ** parcel_codec.hh *)

Definition ValidString (value : string) (maximum : Z) : bool :=
  (size value <=? maximum) && negb (has_char nul value) && g_utf8_validate value.

(** The writer appends to the bytes written so far; [None] is [false]. *)
Definition Room (sz : Z) (data : string) : bool :=
  (size data <=? 65536) && (sz <=? 65536 - size data).

Definition Writer_U32 (v : Z) (data : string) : option string :=
  if Room 4 data then Some (data +:+ put_u32 v) else None.

Definition Writer_I32 (v : Z) (data : string) : option string :=
  if Room 4 data then Some (data +:+ put_i32 v) else None.

Definition Writer_U64 (v : Z) (data : string) : option string :=
  if Room 8 data then Some (data +:+ put_u64 v) else None.

Definition Writer_String (v : string) (maximum : Z) (data : string) : option string :=
  if ValidString v maximum && Room (4 + size v + 1) data then Some (data +:+ put_string v) else None.

(** The reader works on the bytes from the read position on. *)
Definition Remaining (sz : Z) (data : string) : bool := sz <=? size data.

Definition Reader_U32 (data : string) : option (Z * string) :=
  if Remaining 4 data then Some (get_u32 (take_str 4 data), drop_str 4 data) else None.

Definition Reader_I32 (data : string) : option (Z * string) :=
  if Remaining 4 data then Some (get_i32 (take_str 4 data), drop_str 4 data) else None.

Definition Reader_U64 (data : string) : option (Z * string) :=
  if Remaining 8 data then Some (get_u64 (take_str 8 data), drop_str 8 data) else None.

Definition Reader_String (maximum : Z) (data : string) : option (string * string) :=
  '(length, data) ← Reader_U32 data;
  if (length =? 0) || (length - 1 >? maximum) || negb (Remaining length data) then None
  else
    let n := Z.to_nat length in
    let bytes := take_str n data in
    let text := take_str (n - 1) bytes in
    if negb (eqs (drop_str (n - 1) bytes) (String nul "")) || has_char nul text ||
       negb (g_utf8_validate text)
    then None
    else Some (text, drop_str n data).

(** ** Field *)

Definition Field_Valid (f : Field) : bool :=
  if negb (ValidString f.(key) 128) || (size f.(key) <? 1) then false
  else if negb (ValidString f.(value) 8192) then false
  else true.

(** [None] is [std::invalid_argument]. *)
Definition Field_WriteToParcel (f : Field) (data : string) : option string :=
  if negb (Field_Valid f) then None
  else data ← Writer_String f.(key) 128 data; Writer_String f.(value) 8192 data.

Definition Field_ReadFromParcel (data : string) : option (Field * string) :=
  '(k, data) ← Reader_String 128 data;
  '(v, data) ← Reader_String 8192 data;
  if negb (Field_Valid (mkField k v)) then None else Some (mkField k v, data).

(** ** Envelope *)

Definition Envelope_Valid (e : Envelope) : bool :=
  if negb (ValidString e.(method) 128) then false
  else if Z.of_nat (length e.(fields)) >? 256 then false
  else forallb Field_Valid e.(fields).

Fixpoint write_fields (l : list Field) (data : string) : option string :=
  match l with
  | [] => Some data
  | f :: l' => data ← Field_WriteToParcel f data; write_fields l' data
  end.

Definition Envelope_WriteToParcel (e : Envelope) (data : string) : option string :=
  if negb (Envelope_Valid e) then None
  else
    data ← Writer_U32 e.(version) data;
    data ← Writer_U32 e.(kind) data;
    data ← Writer_U64 e.(correlation) data;
    data ← Writer_String e.(method) 128 data;
    data ← Writer_I32 e.(status) data;
    data ← Writer_U32 (u32 (Z.of_nat (length e.(fields)))) data;
    write_fields e.(fields) data.

Fixpoint read_fields (count : nat) (data : string) : option (list Field * string) :=
  match count with
  | O => Some ([], data)
  | S count' =>
      '(f, data) ← Field_ReadFromParcel data;
      '(l, data) ← read_fields count' data;
      Some (f :: l, data)
  end.

(** 11 is the smallest image of a [Field]. *)
Definition Envelope_ReadFromParcel (data : string) : option (Envelope * string) :=
  '(version, data) ← Reader_U32 data;
  '(kind, data) ← Reader_U32 data;
  '(correlation, data) ← Reader_U64 data;
  '(method, data) ← Reader_String 128 data;
  '(status, data) ← Reader_I32 data;
  '(count, data) ← Reader_U32 data;
  if count >? 256 then None
  else if count >? size data / 11 then None
  else
    '(fields, data) ← read_fields (Z.to_nat count) data;
    let decoded := mkEnvelope version kind correlation method status fields in
    if negb (Envelope_Valid decoded) then None else Some (decoded, data).

(** ** Encode *)

Definition envelope_key (k : string) : bool :=
  eqs k "v" || eqs k "id" || eqs k "method" || eqs k "status".

(** The field loop of [Encode]: the size of the body and the fields. *)
Fixpoint encode_fields (l : list (string * string)) (sz : Z) (acc : list Field)
  : option (Z * list Field) :=
  match l with
  | [] => Some (sz, acc)
  | (k, v) :: l' =>
      if envelope_key k then encode_fields l' sz acc
      else
        let sz := sz + (10 + size k + size v) in
        if sz >? kMaxFrameSize then None
        else encode_fields l' sz (acc ++ [mkField k v])
  end.

(** The big-endian length of a frame. *)
Definition frame_header (sz : Z) : string :=
  let byte z := ascii_of_N (Z.to_N (Z.land z 255)) in
  String (byte (Z.shiftr sz 24)) (String (byte (Z.shiftr sz 16))
    (String (byte (Z.shiftr sz 8)) (String (byte sz) ""))).

(** [FrameSize(data)] on the first four bytes of a buffer. *)
Definition frame_size (data : string) : Z :=
  match data with
  | String h0 (String h1 (String h2 (String h3 _))) =>
      FrameSize (ascii_Z h0) (ascii_Z h1) (ascii_Z h2) (ascii_Z h3)
  | _ => 0
  end.

Definition method_kind (method : string) : Z :=
  if eqs method "reply" then 2 else if eqs method "event" then 3 else 1.

(** [None] is the empty vector. *)
Definition Encode (message : Message) : option string :=
  if bool_decide (message = ∅) || (msize message >? kMaxFields) ||
     negb (eqs (Get message "v") "1") then None
  else if negb (forallb (λ f, ValidField f.1 f.2) (items message)) then None
  else
    let method := Get message "method" in
    if empty method || (size method >? 128) then None
    else
      let kind := method_kind method in
      match ParseNumber (Get message "id") with
      | None => None
      | Some correlation =>
          if (correlation <? 0) || (negb (kind =? 3) && (correlation =? 0)) ||
             ((kind =? 3) && negb (correlation =? 0)) then None
          else
            status ← (if kind =? 2 then
                        match ParseNumber (Get message "status") with
                        | None => None
                        | Some status =>
                            if (status >? 0) || (status <? int32_min) then None else Some status
                        end
                      else if has message "status" then None else Some 0);
            '(sz, fields) ← encode_fields (items message) (29 + size method) [];
            body ← Envelope_WriteToParcel (mkEnvelope 1 kind correlation method status fields) "";
            if negb (size body =? sz) then None else Some (frame_header sz +:+ body)
      end.

(** ** Decode *)

(** The kind checks of [Decode]. *)
Definition kind_valid (e : Envelope) : bool :=
  if e.(kind) =? 1 then
    negb ((e.(correlation) =? 0) || negb (e.(status) =? 0) || eqs e.(method) "reply" ||
          eqs e.(method) "event")
  else if e.(kind) =? 2 then
    negb ((e.(correlation) =? 0) || negb (eqs e.(method) "reply") || (e.(status) >? 0))
  else if e.(kind) =? 3 then
    negb (negb (e.(correlation) =? 0) || negb (eqs e.(method) "event") || negb (e.(status) =? 0))
  else false.

Fixpoint decode_fields (l : list Field) (message : Message) : option Message :=
  match l with
  | [] => Some message
  | f :: l' =>
      if negb (ValidField f.(key) f.(value)) || eqs f.(key) "status" || has message f.(key)
      then None
      else decode_fields l' (<[f.(key) := f.(value)]> message)
  end.

(** The fields of the envelope itself as a message. *)
Definition envelope_message (e : Envelope) : Message :=
  let m : Message := list_to_map [("v", "1"); ("id", to_string e.(correlation));
                                  ("method", e.(method))] in
  if e.(kind) =? 2 then <["status" := to_string e.(status)]> m else m.

Definition Decode (data : string) : option Message :=
  if (size data <? 29) || (size data >? kMaxFrameSize) then None
  else
    '(e, rest) ← Envelope_ReadFromParcel data;
    if negb (Envelope_Valid e) || negb (empty rest) then None
    else if negb (e.(version) =? 1) || empty e.(method) || (e.(correlation) >? int64_max) ||
            (Z.of_nat (length e.(fields)) >? kMaxFields - (if e.(kind) =? 2 then 4 else 3))
    then None
    else if negb (kind_valid e) then None
    else decode_fields e.(fields) (envelope_message e).
(** A frame has at least its header. *)
Lemma Encode_nonempty m b : Encode m = Some b → b ≠ "".
Proof.
  unfold Encode. repeat (case_match; [done|]). case_match; [|done]. case_match; [done|].
  intros Hb. apply bind_Some in Hb as (st & _ & Hb). apply bind_Some in Hb as ([sz fl] & _ & Hb).
  apply bind_Some in Hb as (body & _ & Hb). case_match; [done|]. by injection Hb as <-.
Qed.

End codec.

(** ** The images of the records *)

Section images.
Context `{Platform} `{ParcelLaws}.

Definition field_image (f : Field) : string := put_string f.(key) +:+ put_string f.(value).

Fixpoint fields_image (l : list Field) : string :=
  match l with [] => "" | f :: l' => field_image f +:+ fields_image l' end.

Definition envelope_image (e : Envelope) : string :=
  put_u32 e.(version) +:+ put_u32 e.(kind) +:+ put_u64 e.(correlation) +:+
  put_string e.(method) +:+ put_i32 e.(status) +:+
  put_u32 (u32 (Z.of_nat (length e.(fields)))) +:+ fields_image e.(fields).

Lemma size_string s : size (put_string s) = 5 + size s.
Proof. rewrite put_string_bytes, !size_app, size_u32. unfold size at 2. simpl. lia. Qed.

(** A successful write appends the image. *)

Lemma Writer_String_Some v maximum data data' :
  Writer_String v maximum data = Some data' → data' = data +:+ put_string v ∧ ValidString v maximum = true.
Proof. unfold Writer_String. destruct (ValidString v maximum); simpl; [|done]. case_match; naive_solver. Qed.

Lemma Writer_U32_Some v data data' : Writer_U32 v data = Some data' → data' = data +:+ put_u32 v.
Proof. unfold Writer_U32. case_match; naive_solver. Qed.

Lemma Writer_I32_Some v data data' : Writer_I32 v data = Some data' → data' = data +:+ put_i32 v.
Proof. unfold Writer_I32. case_match; naive_solver. Qed.

Lemma Writer_U64_Some v data data' : Writer_U64 v data = Some data' → data' = data +:+ put_u64 v.
Proof. unfold Writer_U64. case_match; naive_solver. Qed.

Lemma write_fields_Some l data data' :
  write_fields l data = Some data' → data' = data +:+ fields_image l.
Proof.
  revert data. induction l as [|f l IH]; simpl; intros data Hw.
  { injection Hw as <-. by rewrite app_nil_r_s. }
  apply bind_Some in Hw as (d1 & Hf & Hw). unfold Field_WriteToParcel in Hf.
  destruct (Field_Valid f); [|done]. simpl in Hf. apply bind_Some in Hf as (d2 & Hk & Hv).
  apply Writer_String_Some in Hk as [-> _]. apply Writer_String_Some in Hv as [-> _].
  rewrite (IH _ Hw). unfold field_image. by rewrite !app_assoc_s.
Qed.

Lemma Envelope_WriteToParcel_Some e data :
  Envelope_WriteToParcel e "" = Some data → data = envelope_image e ∧ Envelope_Valid e = true.
Proof.
  unfold Envelope_WriteToParcel. destruct (Envelope_Valid e); [|done]. cbn [negb]. intros Hw.
  apply bind_Some in Hw as (d1 & Hw1%Writer_U32_Some & Hw).
  apply bind_Some in Hw as (d2 & Hw2%Writer_U32_Some & Hw).
  apply bind_Some in Hw as (d3 & Hw3%Writer_U64_Some & Hw).
  apply bind_Some in Hw as (d4 & Hw4%Writer_String_Some & Hw). destruct Hw4 as [Hw4 _].
  apply bind_Some in Hw as (d5 & Hw5%Writer_I32_Some & Hw).
  apply bind_Some in Hw as (d6 & Hw6%Writer_U32_Some & Hw%write_fields_Some).
  subst. split; [|done]. unfold envelope_image. by rewrite app_nil_s, !app_assoc_s.
Qed.

(** Reading an image back. *)

Lemma take_str_size n a b : size a = Z.of_nat n → take_str n (a +:+ b) = a.
Proof. unfold size. intros Hn. replace n with (String.length a) by lia. apply take_str_app. Qed.

Lemma drop_str_size n a b : size a = Z.of_nat n → drop_str n (a +:+ b) = b.
Proof. unfold size. intros Hn. replace n with (String.length a) by lia. apply drop_str_app. Qed.

Lemma Remaining_app n a b : size a = n → Remaining n (a +:+ b) = true.
Proof. intros <-. unfold Remaining. rewrite size_app. pose proof (size_nonneg b). lia. Qed.

Lemma Reader_U32_image z rest :
  0 ≤ z < 2 ^ 32 → Reader_U32 (put_u32 z +:+ rest) = Some (z, rest).
Proof.
  intros Hz. unfold Reader_U32. rewrite (Remaining_app 4) by apply size_u32.
  rewrite (take_str_size 4), (drop_str_size 4) by apply size_u32. by rewrite get_put_u32.
Qed.

Lemma Reader_I32_image z rest :
  int32_min ≤ z ≤ int32_max → Reader_I32 (put_i32 z +:+ rest) = Some (z, rest).
Proof.
  intros Hz. unfold Reader_I32. rewrite (Remaining_app 4) by apply size_i32.
  rewrite (take_str_size 4), (drop_str_size 4) by apply size_i32. by rewrite get_put_i32.
Qed.

Lemma Reader_U64_image z rest :
  0 ≤ z < 2 ^ 64 → Reader_U64 (put_u64 z +:+ rest) = Some (z, rest).
Proof.
  intros Hz. unfold Reader_U64. rewrite (Remaining_app 8) by apply size_u64.
  rewrite (take_str_size 8), (drop_str_size 8) by apply size_u64. by rewrite get_put_u64.
Qed.

Lemma Reader_String_image s maximum rest :
  ValidString s maximum = true → maximum < 2 ^ 31 →
  Reader_String maximum (put_string s +:+ rest) = Some (s, rest).
Proof.
  unfold ValidString. intros Hv Hmax. bool_hyps. pose proof (size_nonneg s) as H0'.
  unfold Reader_String. rewrite put_string_bytes, !app_assoc_s.
  rewrite Reader_U32_image by (simpl in *; lia). simpl mbind. cbv beta iota.
  assert (Hl : size (s +:+ String nul "") = size s + 1) by (rewrite size_app; reflexivity).
  assert (Hn : Z.to_nat (size s + 1) = S (String.length s)) by (unfold size in *; lia).
  replace (s +:+ String nul "" +:+ rest) with ((s +:+ String nul "") +:+ rest) by (by rewrite app_assoc_s).
  rewrite (Remaining_app (size s + 1)) by done.
  assert ((size s + 1 =? 0) = false) as -> by lia.
  assert ((size s + 1 - 1 >? maximum) = false) as -> by lia. simpl orb. cbv iota.
  rewrite Hn. rewrite (take_str_size (S (String.length s))), (drop_str_size (S (String.length s)))
    by (rewrite Hl; unfold size; lia).
  replace (S (String.length s) - 1)%nat with (String.length s) by lia.
  rewrite take_str_app, drop_str_app, eqs_refl. simpl.
  repeat match goal with H : _ = false |- _ => rewrite H | H : _ = true |- _ => rewrite H end. done.
Qed.

Lemma Field_ReadFromParcel_image f rest :
  Field_Valid f = true → Field_ReadFromParcel (field_image f +:+ rest) = Some (f, rest).
Proof.
  intros Hv. pose proof Hv as Hv'. unfold Field_Valid in Hv'.
  destruct (ValidString (key f) 128) eqn:Hk; [|done]. destruct (size (key f) <? 1); [done|].
  destruct (ValidString (value f) 8192) eqn:Hval; [|done].
  unfold Field_ReadFromParcel, field_image. rewrite app_assoc_s.
  rewrite Reader_String_image by done. cbn [mbind option_bind].
  rewrite Reader_String_image by done. cbn [mbind option_bind].
  destruct f as [k v]. cbn [key value] in *. by rewrite Hv.
Qed.

Lemma read_fields_image l rest :
  forallb Field_Valid l = true → read_fields (length l) (fields_image l +:+ rest) = Some (l, rest).
Proof.
  induction l as [|f l IH]; simpl; [done|]. intros [Hf Hl]%andb_true_iff.
  rewrite app_assoc_s, Field_ReadFromParcel_image by done. simpl. by rewrite (IH Hl).
Qed.

(** A field takes 11 bytes at least. *)
Lemma fields_image_size l :
  forallb Field_Valid l = true → 11 * Z.of_nat (length l) ≤ size (fields_image l).
Proof.
  induction l as [|f l IH]; simpl; [done|]. intros [Hf Hl]%andb_true_iff. unfold Field_Valid in Hf.
  destruct (ValidString (key f) 128); [|done]. destruct (Z.ltb_spec (size (key f)) 1); [done|].
  rewrite size_app. unfold field_image. rewrite size_app, !size_string.
  pose proof (size_nonneg (value f)). specialize (IH Hl). lia.
Qed.

(** The integers of an envelope are in the ranges of their types. *)
Definition in_range (e : Envelope) : Prop :=
  0 ≤ e.(version) < 2 ^ 32 ∧ 0 ≤ e.(kind) < 2 ^ 32 ∧ 0 ≤ e.(correlation) < 2 ^ 64 ∧
  int32_min ≤ e.(status) ≤ int32_max.

Lemma Envelope_ReadFromParcel_image e :
  Envelope_Valid e = true → in_range e →
  Envelope_ReadFromParcel (envelope_image e) = Some (e, "").
Proof.
  intros Hv (Hr1 & Hr2 & Hr3 & Hr4). pose proof Hv as Hv'. unfold Envelope_Valid in Hv'.
  destruct (ValidString (method e) 128) eqn:Hm; [|done].
  destruct (Z.gtb_spec (Z.of_nat (length (fields e))) 256) as [|Hc]; [done|].
  unfold Envelope_ReadFromParcel, envelope_image. rewrite <- (app_nil_r_s (fields_image _)).
  rewrite u32_id by lia. rewrite Reader_U32_image by done. simpl.
  rewrite Reader_U32_image by done. simpl. rewrite Reader_U64_image by done. simpl.
  rewrite Reader_String_image by done. simpl. rewrite Reader_I32_image by done. simpl.
  rewrite Reader_U32_image by lia. simpl.
  destruct (Z.gtb_spec (Z.of_nat (length (fields e))) 256); [lia|].
  pose proof (fields_image_size _ Hv') as Hs. rewrite app_nil_r_s.
  destruct (Z.gtb_spec (Z.of_nat (length (fields e))) (size (fields_image (fields e)) / 11)) as [Hlt|_].
  { apply (Z.div_le_lower_bound _ 11) in Hs; lia. }
  rewrite Nat2Z.id. rewrite <- (app_nil_r_s (fields_image _)). rewrite read_fields_image by done.
  simpl. destruct e; simpl in *. by rewrite Hv.
Qed.
End images.

(** ** Encoding and decoding messages *)

(** The message as its envelope represents it: [id] and, in a reply, [status]
    as canonical decimals. *)
Definition canonical (m : Message) : Message :=
  let m' := <["id" := to_string (MsgNumber m "id" 0)]> m in
  if method_kind (Get m "method") =? 2
  then <["status" := to_string (MsgNumber m "status" 0)]> m' else m'.

Definition field_pair (f : Field) : string * string := (f.(key), f.(value)).

Definition body_items (m : Message) : list (string * string) :=
  filter (λ kv, envelope_key kv.1 = false) (items m).

Lemma encode_fields_Some l sz acc sz' fl :
  encode_fields l sz acc = Some (sz', fl) →
  fl = acc ++ ((λ kv, mkField kv.1 kv.2) <$> filter (λ kv, envelope_key kv.1 = false) l) ∧
  (sz ≤ kMaxFrameSize → sz' ≤ kMaxFrameSize).
Proof.
  revert sz acc. induction l as [|[k v] l IH]; simpl; intros sz acc Hl.
  { injection Hl as <- <-. by rewrite app_nil_r. }
  rewrite filter_cons. simpl. destruct (envelope_key k) eqn:Ek.
  - rewrite decide_False by done. by apply IH.
  - rewrite decide_True by done. destruct (Z.gtb_spec (sz + (10 + size k + size v)) kMaxFrameSize); [done|].
    apply IH in Hl as [-> Hs]. rewrite <- app_assoc. split; [done|]. auto.
Qed.

Lemma body_items_lookup m k :
  (list_to_map (body_items m) : Message) !! k = if envelope_key k then None else m !! k.
Proof.
  assert (Hnd : NoDup (body_items m).*1).
  { eapply sublist_NoDup; [apply (items_NoDup m)|]. apply fmap_sublist, sublist_filter. }
  assert (Hel : ∀ v, (list_to_map (body_items m) : Message) !! k = Some v ↔
            envelope_key k = false ∧ m !! k = Some v).
  { intros v. rewrite <- elem_of_list_to_map by done. unfold body_items.
    rewrite list_elem_of_filter, elem_of_items. done. }
  apply option_eq. intros v. rewrite Hel. destruct (envelope_key k); naive_solver.
Qed.

(** The fields of a message that its envelope has places for are not counted
    in the body. *)
Lemma body_items_length m l :
  NoDup l → (∀ k, k ∈ l → envelope_key k = true ∧ is_Some (m !! k)) →
  Z.of_nat (length (body_items m)) + Z.of_nat (length l) ≤ msize m.
Proof.
  intros Hnd Hl. unfold msize. rewrite <- length_map_to_list, <- (items_perm m).
  assert (Hsplit : ∀ l0 : list (string * string), (length (filter (λ kv, envelope_key kv.1 = false) l0) +
    length (filter (λ kv, envelope_key kv.1 = true) l0) = length l0)%nat).
  { induction l0 as [|x l0 IH]; [done|]. rewrite !filter_cons.
    destruct (envelope_key x.1); simpl; lia. }
  specialize (Hsplit (items m)). unfold body_items.
  assert (Hsub : l ⊆+ (filter (λ kv, envelope_key kv.1 = true) (items m)).*1).
  { apply NoDup_submseteq; [done|]. intros k Hk. destruct (Hl k Hk) as [He [v Hv]].
    apply list_elem_of_fmap. exists (k, v). split; [done|].
    apply list_elem_of_filter. by rewrite elem_of_items. }
  apply submseteq_length in Hsub. rewrite length_fmap in Hsub. lia.
Qed.

Lemma ParseNumber_present m k z : ParseNumber (Get m k) = Some z → is_Some (m !! k).
Proof. unfold Get, GetOr. by destruct (m !! k). Qed.

Lemma decode_fields_map `{Platform} l (message : Message) :
  NoDup (key <$> l) →
  (∀ f, f ∈ l → ValidField f.(key) f.(value) = true ∧ f.(key) ≠ "status" ∧ message !! f.(key) = None) →
  decode_fields l message = Some (message ∪ list_to_map (field_pair <$> l)).
Proof.
  revert message. induction l as [|f l IH]; intros message Hnd Hf; simpl.
  { by rewrite (right_id_L ∅ (∪)). }
  apply NoDup_cons in Hnd as [Hn Hnd].
  destruct (Hf f) as (Hv & Hs & Hm); [apply list_elem_of_here|].
  rewrite Hv. apply eqs_false in Hs. rewrite Hs. unfold has.
  rewrite bool_decide_false by (rewrite Hm; apply is_Some_None). simpl.
  rewrite IH; [|done|].
  - f_equal. rewrite <- insert_union_r by done. by rewrite insert_union_l.
  - intros f' Hf'. destruct (Hf f') as (Hv' & Hs' & Hm'); [by right|]. split_and!; [done..|].
    rewrite lookup_insert_ne; [done|]. intros Heq. apply Hn. rewrite Heq. by apply list_elem_of_fmap_2.
Qed.

Section roundtrip.
Context `{Platform} `{ParcelLaws}.

(** The envelope of a message. *)
Record envelope_of (m : Message) (e : Envelope) : Prop := mk_envelope_of {
  eo_valid : Envelope_Valid e = true;
  eo_kind_valid : kind_valid e = true;
  eo_range : in_range e;
  eo_version : e.(version) = 1 ∧ Get m "v" = "1";
  eo_method : e.(method) = Get m "method" ∧ e.(method) ≠ "";
  eo_kind : e.(kind) = method_kind (Get m "method");
  eo_id : ParseNumber (Get m "id") = Some e.(correlation);
  eo_status : if e.(kind) =? 2 then ParseNumber (Get m "status") = Some e.(status)
              else m !! "status" = None;
  eo_fields : e.(fields) = (λ kv, mkField kv.1 kv.2) <$> body_items m;
  eo_syntax : ∀ k v, m !! k = Some v → ValidField k v = true;
}.

Lemma envelope_image_size e : 29 + size e.(method) ≤ size (envelope_image e).
Proof.
  unfold envelope_image. rewrite !size_app, !size_u32, size_u64, size_i32, size_string.
  pose proof (size_nonneg (fields_image e.(fields))). lia.
Qed.

Lemma method_kind_range m : 1 ≤ method_kind m ≤ 3.
Proof. unfold method_kind. repeat case_match; lia. Qed.

(** The checks of [Encode] on the envelope are those of [Decode]. *)
Lemma kind_valid_encoded m c st fl :
  (c <? 0) || (negb (method_kind m =? 3) && (c =? 0)) || ((method_kind m =? 3) && negb (c =? 0)) = false →
  (if method_kind m =? 2 then st ≤ 0 else st = 0) →
  kind_valid (mkEnvelope 1 (method_kind m) c m st fl) = true.
Proof.
  intros Hc Hst. unfold kind_valid, method_kind in *. simpl.
  destruct (eqs m "reply") eqn:Er; simpl in *; [lia|].
  destruct (eqs m "event") eqn:Ee; simpl in *; [lia|].
  lia.
Qed.

(** What [Encode] has checked when it returns a frame. *)
Lemma Encode_Some m frame :
  Encode m = Some frame →
  ∃ e, envelope_of m e ∧ frame = frame_header (size (envelope_image e)) +:+ envelope_image e ∧
    size (envelope_image e) ≤ kMaxFrameSize ∧ msize m ≤ kMaxFields.
Proof.
  unfold Encode. destruct (bool_decide (m = ∅) || _ || _) eqn:Hgate; [done|]. str_hyps.
  destruct (forallb _ (items m)) eqn:Hvalid; [|done]. cbn [negb].
  destruct (empty (Get m "method") || _) eqn:Hmeth; [done|]. str_hyps.
  set (kd := method_kind (Get m "method")).
  destruct (ParseNumber (Get m "id")) as [c|] eqn:Hid; [|done].
  destruct ((c <? 0) || _ || _) eqn:Hc; [done|]. intros Henc.
  apply bind_Some in Henc as (st & Hst & Henc).
  apply bind_Some in Henc as ([sz fl] & Hfl & Henc).
  apply bind_Some in Henc as (body & Hbody & Henc).
  apply encode_fields_Some in Hfl as [Hfl Hsz]. simpl in Hfl.
  apply Envelope_WriteToParcel_Some in Hbody as [Hb Hv].
  destruct (Z.eqb_spec (size body) sz) as [Heq|]; [|done]. injection Henc as <-.
  exists (mkEnvelope 1 kd c (Get m "method") st fl). rewrite <- Heq in *. rewrite <- Hb.
  assert (Hstat : (if kd =? 2 then int32_min ≤ st ≤ 0 else st = 0) ∧
    (if kd =? 2 then ParseNumber (Get m "status") = Some st else m !! "status" = None)).
  { destruct (kd =? 2).
    - destruct (ParseNumber (Get m "status")) as [z|]; [|done].
      destruct ((z >? 0) || _) eqn:Hz; [done|]. injection Hst as <-. split; [lia|done].
    - unfold has in Hst. case_bool_decide as Hn; [done|]. injection Hst as <-.
      split; [done|]. by apply eq_None_not_Some. }
  destruct Hstat as [Hr Hs]. pose proof (method_kind_range (Get m "method")) as Hkd. fold kd in Hkd.
  apply ParseNumber_iff in Hid as Hid'. destruct Hid' as [_ Hc64]. unfold in_int64, int64_max in Hc64.
  split_and!; [split; simpl|done| |lia]; [done| | |done|done|done|done|done|done| |].
  - apply kind_valid_encoded; [done|]. fold kd. destruct (kd =? 2); lia.
  - unfold in_range, int32_max. simpl. split_and!; try lia; destruct (kd =? 2); unfold int32_min in *; lia.
  - intros k v Hkv%elem_of_items. rewrite forallb_forall in Hvalid.
    apply (Hvalid (k, v)). by apply list_elem_of_In.
  - apply Hsz. unfold kMaxFrameSize. lia.
Qed.
(** The bytes of the header are the length. *)
Lemma ascii_Z_byte z : ascii_Z (ascii_of_N (Z.to_N (Z.land z 255))) = z mod 256.
Proof.
  change 255 with (Z.ones 8). rewrite Z.land_ones by lia. change (2 ^ 8) with 256.
  pose proof (Z.mod_pos_bound z 256 ltac:(lia)). unfold ascii_Z.
  rewrite N_ascii_embedding by lia. lia.
Qed.

Lemma lor_disjoint_add a b n : 0 ≤ n → 0 ≤ b < 2 ^ n → Z.lor (a * 2 ^ n) b = a * 2 ^ n + b.
Proof.
  intros Hn Hb. rewrite <- Z.lxor_lor; [symmetry; apply Z.add_nocarry_lxor|].
  all: apply Z.bits_inj'; intros k Hk; rewrite Z.land_spec, Z.bits_0;
    destruct (Z.ltb_spec k n); [by rewrite Z.mul_pow2_bits_low|].
  all: rewrite <- (Z.mod_small b (2 ^ n)), Z.mod_pow2_bits_high by lia; apply andb_false_r.
Qed.

Lemma frame_size_header sz rest :
  0 ≤ sz < 2 ^ 32 → frame_size (frame_header sz +:+ rest) = sz.
Proof.
  intros Hsz. unfold frame_header, frame_size. rewrite !app_cons_s. unfold FrameSize.
  rewrite !ascii_Z_byte, !Z.shiftr_div_pow2, !Z.shiftl_mul_pow2 by lia.
  change (2 ^ 24) with 16777216. change (2 ^ 16) with 65536. change (2 ^ 8) with 256.
  change (2 ^ 32) with 4294967296 in *.
  pose proof (Z.mod_pos_bound sz 256 ltac:(lia)). pose proof (Z.mod_pos_bound (sz / 256) 256 ltac:(lia)).
  pose proof (Z.mod_pos_bound (sz / 65536) 256 ltac:(lia)).
  assert (Hq : sz / 16777216 < 256) by (apply Z.div_lt_upper_bound; lia).
  assert (0 ≤ sz / 16777216) by (apply Z.div_pos; lia).
  rewrite (Z.mod_small (sz / 16777216)) by lia.
  rewrite !u32_id by (change (2 ^ 32) with 4294967296; lia).
  pose proof (lor_disjoint_add (sz / 16777216) ((sz / 65536) mod 256 * 65536) 24 ltac:(lia)) as L1.
  change (2 ^ 24) with 16777216 in L1. rewrite L1 by lia.
  replace (sz / 16777216 * 16777216 + (sz / 65536) mod 256 * 65536)
    with ((sz / 16777216 * 256 + (sz / 65536) mod 256) * 2 ^ 16) by (change (2 ^ 16) with 65536; lia).
  rewrite lor_disjoint_add by (change (2 ^ 16) with 65536; lia). change (2 ^ 16) with 65536.
  match goal with |- Z.lor ?a _ = _ => replace a with
    (((sz / 16777216 * 256 + (sz / 65536) mod 256) * 256 + (sz / 256) mod 256) * 2 ^ 8)
    by (change (2 ^ 8) with 256; lia) end.
  rewrite lor_disjoint_add by (change (2 ^ 8) with 256; lia). change (2 ^ 8) with 256.
  assert (sz / 65536 / 256 = sz / 16777216) by (rewrite Z.div_div by lia; done).
  assert (sz / 256 / 256 = sz / 65536) by (rewrite Z.div_div by lia; done).
  pose proof (Z.div_mod sz 256 ltac:(lia)). pose proof (Z.div_mod (sz / 256) 256 ltac:(lia)).
  pose proof (Z.div_mod (sz / 65536) 256 ltac:(lia)). lia.
Qed.

(** The keys that the envelope of [m] has places for are present. *)
Lemma envelope_keys_present m e :
  envelope_of m e →
  ∀ k, k ∈ (if kind e =? 2 then ["v"; "id"; "method"; "status"] else ["v"; "id"; "method"]) →
  envelope_key k = true ∧ is_Some (m !! k).
Proof.
  intros [_ _ _ [_ Hgv] [Hm Hne] _ Hid Hst _ _].
  assert (Hbase : ∀ k, k ∈ ["v"; "id"; "method"] → envelope_key k = true ∧ is_Some (m !! k)).
  { intros k [->|[->|[->|[]%elem_of_nil]%elem_of_cons]%elem_of_cons]%elem_of_cons; split; try done.
    - rewrite Get_nonempty; [done|]. by rewrite Hgv.
    - by eapply ParseNumber_present.
    - rewrite Get_nonempty; [done|]. by rewrite <- Hm. }
  destruct (kind e =? 2); [|done]. intros k Hin.
  destruct (decide (k = "status")) as [->|]; [split; [done|by eapply ParseNumber_present]|].
  apply Hbase. set_solver.
Qed.

Lemma fields_fit m e :
  envelope_of m e → msize m ≤ kMaxFields →
  (Z.of_nat (length e.(fields)) >? kMaxFields - (if e.(kind) =? 2 then 4 else 3)) = false.
Proof.
  intros He Hn. rewrite (eo_fields _ _ He), length_fmap.
  assert (Hnd : NoDup (if kind e =? 2 then ["v"; "id"; "method"; "status"] else ["v"; "id"; "method"]))
    by (destruct (kind e =? 2); apply (bool_decide_unpack _); reflexivity).
  pose proof (body_items_length m _ Hnd (envelope_keys_present m e He)) as Hlen.
  destruct (kind e =? 2); simpl in Hlen; lia.
Qed.

(** The envelope carries its own fields in canonical form. *)
Lemma envelope_message_canonical m e k :
  envelope_of m e → envelope_key k = true → envelope_message e !! k = canonical m !! k.
Proof.
  intros He Ek. pose proof (envelope_keys_present m e He) as Hpres.
  destruct He as [_ _ _ [_ Hgv] [Hm Hne] Hkind Hid Hst _ _].
  unfold canonical, envelope_message. rewrite <- Hkind. unfold MsgNumber. rewrite Hid.
  assert (Hgv' : m !! "v" = Some "1") by (rewrite <- Hgv; apply Get_nonempty; by rewrite Hgv).
  assert (Hm' : m !! "method" = Some (method e)) by (rewrite Hm; apply Get_nonempty; by rewrite <- Hm).
  unfold envelope_key in Ek. rewrite !orb_true_iff, !eqs_true in Ek.
  destruct (kind e =? 2); [rewrite Hst|]; destruct Ek as [[[->| ->]| ->]| ->]; simpl; by simplify_map_eq.
Qed.

(** The envelope and its fields make up the message again. *)
Lemma decode_fields_canonical m e :
  envelope_of m e → decode_fields e.(fields) (envelope_message e) = Some (canonical m).
Proof.
  intros He. pose proof (eo_fields _ _ He) as Hfl. pose proof (eo_syntax _ _ He) as Hsyn.
  assert (Hmsg : ∀ k, envelope_key k = false → envelope_message e !! k = None).
  { intros k Hk. unfold envelope_key in Hk. str_hyps. unfold envelope_message.
    destruct (kind e =? 2); simpl; rewrite !lookup_insert_ne by done; apply lookup_empty. }
  rewrite decode_fields_map.
  - f_equal. apply map_eq. intros k. rewrite Hfl, <- list_fmap_compose.
    replace (_ <$> body_items m) with (body_items m).
    2: { rewrite <- (list_fmap_id (body_items m)) at 1. apply list_fmap_ext. by intros ? [] ?. }
    destruct (envelope_key k) eqn:Ek.
    + rewrite lookup_union_l by (by rewrite body_items_lookup, Ek).
      by apply envelope_message_canonical.
    + rewrite lookup_union_r by (by apply Hmsg). rewrite body_items_lookup, Ek.
      unfold canonical, envelope_key in *. str_hyps.
      destruct (method_kind (Get m "method") =? 2); by rewrite !lookup_insert_ne.
  - rewrite Hfl, <- list_fmap_compose. eapply sublist_NoDup; [apply (items_NoDup m)|].
    apply fmap_sublist, sublist_filter.
  - rewrite Hfl. intros f ([k v] & -> & Hkv')%list_elem_of_fmap.
    apply list_elem_of_filter in Hkv' as [Hk Hin]. simpl in *. apply elem_of_items in Hin.
    split_and!; [by apply Hsyn| |by apply Hmsg]. intros ->. done.
Qed.

(** What [Encode] produced is a header and a body that [Decode] accepts. *)
Lemma Decode_frame m frame :
  Encode m = Some frame →
  ∃ body, frame = frame_header (size body) +:+ body ∧ frame_size frame = size body ∧
    size body ≤ kMaxFrameSize ∧ Decode body = Some (canonical m).
Proof.
  intros (e & He & -> & Hsz & Hn)%Encode_Some. exists (envelope_image e).
  pose proof (envelope_image_size e) as Hlow. pose proof (size_nonneg e.(method)).
  split_and!; [done|apply frame_size_header; unfold kMaxFrameSize in Hsz; lia|done|].
  pose proof (fields_fit m e He Hn) as Hfit. pose proof (decode_fields_canonical m e He) as Hdec.
  destruct He as [Hv Hkv Hr [Hver Hgv] [Hm Hne] Hkind Hid Hst Hfl Hsyn]. unfold Decode.
  assert ((size (envelope_image e) <? 29) || (size (envelope_image e) >? kMaxFrameSize) = false)
    as -> by lia.
  rewrite Envelope_ReadFromParcel_image by done. cbn [mbind option_bind].
  rewrite Hv, Hver, Hkv, Hfit, Hdec. apply empty_false in Hne. rewrite Hne.
  apply ParseNumber_iff in Hid as [_ [_ Hmax]].
  assert ((correlation e >? int64_max) = false) as -> by lia. done.
Qed.

(** C39: messages survive the wire. Every frame that [Encode] produces is a
    four-byte big-endian length, at most 65536, followed by exactly that many
    bytes, and [Decode] of these bytes returns the message, with its [id] and,
    in a reply, its [status] as canonical decimals; so a message whose numbers
    are canonical is returned as it was. *)
Theorem Decode_Encode m frame :
  Encode m = Some frame →
  ∃ body, frame = frame_header (size body) +:+ body ∧ frame_size frame = size body ∧
    size body ≤ kMaxFrameSize ∧ Decode body = Some (canonical m).
Proof. apply Decode_frame. Qed.

(** ** Accepting a body *)

Lemma decode_fields_Some l (message m : Message) :
  decode_fields l message = Some m →
  message ⊆ m ∧ m !! "status" = message !! "status" ∧
  msize m = msize message + Z.of_nat (length l) ∧
  ∀ k v, m !! k = Some v → message !! k = Some v ∨ ValidField k v = true.
Proof.
  revert message. induction l as [|f l IH]; simpl; intros message Hd.
  { injection Hd as <-. split_and!; [done|done|lia|by left]. }
  destruct (negb _ || _ || _) eqn:Hf; [done|]. str_hyps. unfold has in *. str_hyps.
  match goal with Hn : ¬ is_Some _ |- _ => apply eq_None_not_Some in Hn as Hnone end.
  apply IH in Hd as (Hsub & Hst & Hsz & Hv). split_and!.
  - etransitivity; [|exact Hsub]. by apply insert_subseteq.
  - rewrite Hst, lookup_insert_ne; done.
  - rewrite Hsz. unfold msize. rewrite map_size_insert_None by done. lia.
  - intros k v Hkv. destruct (Hv k v Hkv) as [Hi|]; [|by right].
    apply lookup_insert_Some in Hi as [[<- <-]|[_ Hi]]; [by right|by left].
Qed.

Lemma kind_valid_true e :
  kind_valid e = true →
  (e.(kind) = 1 ∧ e.(correlation) ≠ 0 ∧ e.(method) ≠ "reply" ∧ e.(method) ≠ "event") ∨
  (e.(kind) = 2 ∧ e.(correlation) ≠ 0 ∧ e.(method) = "reply" ∧ e.(status) ≤ 0) ∨
  (e.(kind) = 3 ∧ e.(correlation) = 0 ∧ e.(method) = "event").
Proof.
  unfold kind_valid. repeat case_match; intros Hk; str_hyps; [left|right; left|right; right|done].
  all: split_and!; (done || lia).
Qed.

Lemma Envelope_ReadFromParcel_correlation data e rest :
  Envelope_ReadFromParcel data = Some (e, rest) → 0 ≤ e.(correlation).
Proof.
  unfold Envelope_ReadFromParcel. intros Hr.
  apply bind_Some in Hr as ([ver d1] & _ & Hr). apply bind_Some in Hr as ([knd d2] & _ & Hr).
  apply bind_Some in Hr as ([c d3] & Hc & Hr). apply bind_Some in Hr as ([mt d4] & _ & Hr).
  apply bind_Some in Hr as ([st d5] & _ & Hr). apply bind_Some in Hr as ([n d6] & _ & Hr).
  repeat (case_match; [done|]). apply bind_Some in Hr as ([fl d7] & _ & Hr).
  case_match; [done|]. injection Hr as <- _. simpl.
  unfold Reader_U64 in Hc. case_match; [|done]. injection Hc as <- _.
  apply (get_u64_range (take_str 8 d2)).
Qed.

Lemma envelope_message_size e : msize (envelope_message e) = if e.(kind) =? 2 then 4 else 3.
Proof.
  unfold envelope_message. destruct (kind e =? 2); generalize (to_string (correlation e)) (method e);
    intros id mt; [generalize (to_string (status e)); intros st|]; vm_compute; reflexivity.
Qed.

(** What [Decode] lets in.  A body that [Decode] accepts, whatever bytes
    it is made of, gives a message of protocol version 1 with a method and a
    non-negative 64-bit [id], which is 0 exactly in an event, with a [status]
    exactly in a reply, where it is not positive, with at most 256 fields, and
    in which every field beyond those of the envelope has a well-formed key
    and value. *)
Theorem Decode_sound data m :
  Decode data = Some m →
  Get m "v" = "1" ∧ Get m "method" ≠ "" ∧ msize m ≤ kMaxFields ∧
  (∃ id, Get m "id" = to_string id ∧ 0 ≤ id ≤ int64_max ∧ (id = 0 ↔ Get m "method" = "event")) ∧
  (is_Some (m !! "status") ↔ Get m "method" = "reply") ∧
  (Get m "method" = "reply" → ∃ status, Get m "status" = to_string status ∧ status ≤ 0) ∧
  (∀ k v, m !! k = Some v → envelope_key k = true ∨ ValidField k v = true).
Proof.
  unfold Decode. destruct (_ || _); [done|]. intros Hd.
  apply bind_Some in Hd as ([e rest] & Hread & Hd).
  destruct (negb (Envelope_Valid e) || _); [done|].
  destruct (negb (version e =? 1) || _ || _ || _) eqn:Hhead; [done|]. str_hyps.
  destruct (kind_valid e) eqn:Hkind; [|done]. cbn [negb] in Hd.
  apply Envelope_ReadFromParcel_correlation in Hread as Hcor.
  apply decode_fields_Some in Hd as (Hsub & Hst & Hsz & Hv).
  apply kind_valid_true in Hkind.
  assert (Hkeys : Get m "v" = "1" ∧ Get m "id" = to_string (correlation e) ∧ Get m "method" = method e).
  { unfold envelope_message in Hsub. destruct (kind e =? 2).
    all: split_and!; (apply Get_lookup; eapply lookup_weaken; [|exact Hsub]); simpl; by simplify_map_eq. }
  destruct Hkeys as (-> & -> & Hm). rewrite Hm in *.
  assert (Hother : ∀ k v, envelope_message e !! k = Some v → envelope_key k = true).
  { intros k v. unfold envelope_message, envelope_key. destruct (kind e =? 2); simpl;
      rewrite !lookup_insert_Some, lookup_empty, !orb_true_iff, !eqs_true; naive_solver. }
  split; [done|]. split; [done|]. split; [|split; [exists (correlation e)|split_and!]].
  - rewrite Hsz, envelope_message_size. destruct (kind e =? 2); lia.
  - split; [done|]. split; [lia|].
    destruct Hkind as [(_ & ? & _ & ?)|[(_ & ? & ? & _)|(_ & ? & ?)]]; split; congruence.
  - rewrite Hst. unfold envelope_message.
    destruct Hkind as [(-> & _ & ? & _)|[(-> & _ & ? & _)|(-> & _ & ?)]]; simpl; simplify_map_eq.
    + split; [by intros [? ?]|congruence].
    + done.
    + split; [by intros [? ?]|congruence].
  - intros Hr. exists (status e). unfold envelope_message in Hsub.
    destruct Hkind as [(_ & _ & ? & _)|[(Hk & _ & _ & Hle)|(_ & _ & ?)]]; [congruence| |congruence].
    split; [|done]. apply Get_lookup. eapply lookup_weaken; [|exact Hsub].
    rewrite Hk. simpl. by simplify_map_eq.
  - intros k v Hkv. destruct (Hv k v Hkv); [left; by eapply Hother|by right].
Qed.
End roundtrip.

(** ** A Parcel for closed evaluations: big-endian integers *)

Definition byte_char (z : Z) : ascii := ascii_of_N (Z.to_N (Z.land z 255)).

Fixpoint put_be (n : nat) (z : Z) : string :=
  match n with
  | O => ""
  | S n' => put_be n' (z / 256) +:+ String (byte_char z) ""
  end.

Fixpoint get_be (acc : Z) (s : string) : Z :=
  match s with
  | EmptyString => acc
  | String c s' => get_be (acc * 256 + ascii_Z c) s'
  end.

Definition signed32 (z : Z) : Z := if z <? 2 ^ 31 then z else z - 2 ^ 32.

Definition reference_parcel : Parcel := {|
  put_u32 := put_be 4;
  put_i32 z := put_be 4 (z mod 2 ^ 32);
  put_u64 := put_be 8;
  put_string s := put_be 4 (size s + 1) +:+ s +:+ String nul "";
  get_u32 s := get_be 0 s;
  get_i32 s := signed32 (get_be 0 s);
  get_u64 s := get_be 0 s mod 2 ^ 64;
|}.

Lemma size_put_be n z : size (put_be n z) = Z.of_nat n.
Proof. revert z. induction n as [|n IH]; intros z; simpl; [done|]. rewrite size_app, IH, size_cons. unfold size. simpl. lia. Qed.

Lemma get_be_app acc a b : get_be acc (a +:+ b) = get_be (get_be acc a) b.
Proof. revert acc. induction a as [|c a IH]; intros acc; simpl; [done|]. apply IH. Qed.

Lemma get_put_be n z : 0 ≤ z < 256 ^ Z.of_nat n → get_be 0 (put_be n z) = z.
Proof.
  revert z. induction n as [|n IH]; intros z Hz; [simpl in *; lia|].
  rewrite Nat2Z.inj_succ, Z.pow_succ_r in Hz by lia. cbn [put_be].
  rewrite get_be_app, IH by (split; [apply Z.div_pos; lia|apply Z.div_lt_upper_bound; lia]).
  simpl. unfold byte_char. rewrite ascii_Z_byte. pose proof (Z.div_mod z 256 ltac:(lia)). lia.
Qed.

Lemma reference_parcel_laws : @ParcelLaws reference_parcel.
Proof.
  split; cbn [put_u32 put_i32 put_u64 put_string get_u32 get_i32 get_u64 reference_parcel]; intros.
  - apply (size_put_be 4).
  - apply (size_put_be 4).
  - apply (size_put_be 8).
  - by apply (get_put_be 4).
  - rewrite (get_put_be 4) by (apply Z.mod_pos_bound; lia). unfold signed32, int32_min, int32_max in *.
    destruct (Z.ltb_spec z 0).
    + rewrite <- (Z.mod_unique z (2 ^ 32) (-1) (z + 2 ^ 32)) by lia. case_match; lia.
    + rewrite Z.mod_small by lia. case_match; lia.
  - rewrite (get_put_be 8) by done. by apply Z.mod_small.
  - apply Z.mod_pos_bound. lia.
  - done.
Qed.
