(* ===== verification/Packing.v ===== *)
(** * Repository helpers (src/consentd/repository.cc, anonymous namespace)

    Failures as values, the checked integers, the length-prefixed packing of
    messages stored in the database and the registry, and the delegation
    predicates on peers. *)
From S2P Require Import Prelude Strings Platform Message.
From Stdlib Require Import Ascii.

(** ** Failures

    [Failure] is the exception of the repository; a function that may throw
    returns an [outcome]. *)
Record Failure := mkFailure { f_status : Z; f_reason : string; f_sqlite : Z }.

Inductive outcome (A : Type) := Ret (a : A) | Throw (f : Failure).
Arguments Ret {A} _.
Arguments Throw {A} _.

#[export] Instance outcome_ret : MRet outcome := @Ret.
#[export] Instance outcome_bind : MBind outcome := λ A B k m,
  match m with Ret a => k a | Throw f => Throw f end.

Definition SQLITE_OK : Z := 0.

Definition fail {A} (status : Z) (reason : string) : outcome A :=
  Throw (mkFailure status reason SQLITE_OK).

Definition Require (condition : bool) (status : Z) (reason : string) : outcome () :=
  if condition then Ret () else fail status reason.

Lemma bind_Ret {A B} (m : outcome A) (k : A → outcome B) b :
  m ≫= k = Ret b ↔ ∃ a, m = Ret a ∧ k a = Ret b.
Proof. destruct m; simpl; naive_solver. Qed.

Lemma Require_Ret c s r u : Require c s r = Ret u ↔ c = true.
Proof. unfold Require, fail. destruct c, u; naive_solver. Qed.

(** ** Authenticated peers (identity.hh) *)

Record Peer := mkPeer {
  p_pid : Z;
  p_uid : Z;
  p_gid : Z;
  p_identity : string;
  p_instance : string;
  p_subject : string;
  p_profile : string;
  p_roles : gset string;
  p_subjects : gset string;
  p_profiles : gset string;
  p_enforcers : gset string;
  p_packages : gset string;
}.

Definition kRegistryLimit : Z := 4 * 1024 * 1024.
Definition kMaxDefinitions : Z := 2048.
Definition kDayMs : Z := 24 * 60 * 60 * 1000.
Definition kMaintenanceLimit : Z := 128.
Definition kMaintenanceIntervalMs : Z := 60000.

(** [strtoll(value, &end, 10)] on a string of decimal digits: the value and
    [errno], saturating at [LLONG_MAX]. *)
Definition strtoll (value : string) : Z * Z :=
  if dec_value value >? int64_max then (int64_max, 34) else (dec_value value, 0).

Definition Integer (value : string) (minimum maximum : Z) : outcome Z :=
  Require (negb (empty value) && (size value <=? 20)) (- EINVAL) "invalid integer";;
  Require (all_of is_digit value) (- EINVAL) "invalid integer";;
  let (number, errno) := strtoll value in
  Require ((errno =? 0) && (minimum <=? number) && (number <=? maximum))
    (- EINVAL) "integer outside policy bounds";;
  Ret number.

Definition Number (message : Message) (key : string) (fallback minimum maximum : Z)
  : outcome Z :=
  match message !! key with
  | None => Ret fallback
  | Some value => Integer value minimum maximum
  end.

Section helpers.
Context `{Platform}.

Definition Hash (value : string) : string := g_sha256 value.

(** [Append(&output, value)], as the string appended. *)
Definition Append (value : string) : string := to_string (size value) +:+ ":" +:+ value.

Definition pack_item (item : string * string) : string := Append item.1 +:+ Append item.2.

Fixpoint pack_items (l : list (string * string)) : string :=
  match l with
  | [] => ""
  | item :: l' => pack_item item +:+ pack_items l'
  end.

Definition Pack (message : Message) : string := pack_items (items message).

(** The [next] lambda of [Unpack], on the bytes from [offset] on; it returns
    the part and the bytes after it. *)
Definition unpack_next (rest : string) : outcome (string * string) :=
  match find_char ":" rest with
  | None => fail kStorage "malformed stored metadata"
  | Some n =>
      Require (Z.of_nat n <=? 10) kStorage "malformed stored metadata";;
      sz ← Integer (take_str n rest) 0 kRegistryLimit;
      let rest := drop_str (S n) rest in
      Require (sz <=? size rest) kStorage "truncated stored metadata";;
      Ret (take_str (Z.to_nat sz) rest, drop_str (Z.to_nat sz) rest)
  end.

Fixpoint unpack_loop (fuel : nat) (rest : string) (message : Message) : outcome Message :=
  match fuel with
  | O => Ret message
  | S fuel' =>
      if empty rest then Ret message
      else
        '(key, rest) ← unpack_next rest;
        '(item, rest) ← unpack_next rest;
        Require (negb (has message key)) kStorage "duplicate stored key";;
        unpack_loop fuel' rest (<[key := item]> message)
  end.

(** Every iteration consumes at least one byte, so the length of the value
    bounds the number of iterations ([unpack_loop_fuel]). *)
Definition Unpack (value : string) : outcome Message :=
  unpack_loop (S (String.length value)) value ∅.

Definition identifier_char (c : ascii) : bool :=
  g_ascii_isalnum c || bool_decide (c = "."%char) || bool_decide (c = "_"%char) ||
  bool_decide (c = ":"%char) || bool_decide (c = "-"%char).

Definition Identifier (value : string) : bool :=
  if empty value || (size value >? 256) then false else all_of identifier_char value.

Definition Member (values : gset string) (value : string) : bool :=
  bool_decide (value ∈ values) || bool_decide ("*" ∈ values).

Definition Context (peer : Peer) (request : Message) : outcome () :=
  Require (Identifier (Get request "subject") && Identifier (Get request "profile"))
    (- EINVAL) "subject and profile required";;
  Require (Member peer.(p_subjects) (Get request "subject") &&
           Member peer.(p_profiles) (Get request "profile"))
    (- EACCES) "subject or profile delegation denied".

Definition Role (peer : Peer) (role : string) : bool := bool_decide (role ∈ peer.(p_roles)).

(** ** Integers *)

Lemma Integer_Ret value lo hi n :
  Integer value lo hi = Ret n →
  lo ≤ n ≤ hi ∧ n = dec_value value ∧ 0 ≤ n ≤ int64_max ∧ all_of is_digit value = true.
Proof.
  unfold Integer, strtoll. intros H1.
  repeat (apply bind_Ret in H1 as (? & ?%Require_Ret & H1); bool_hyps).
  destruct (dec_value value >? int64_max) eqn:E.
  { apply bind_Ret in H1 as (? & ?%Require_Ret & H1). bool_hyps. done. }
  apply bind_Ret in H1 as (? & ?%Require_Ret & [= <-]). bool_hyps.
  assert (0 ≤ dec_value value) by (apply dec_value_from_lower; [lia|done]).
  split_and!; done || lia.
Qed.

Lemma Integer_digits n lo hi :
  lo ≤ n ≤ hi → 0 ≤ n ≤ int64_max → Integer (to_string n) lo hi = Ret n.
Proof.
  intros Hb Hn. rewrite to_string_nonneg by lia. unfold Integer, strtoll.
  destruct (digits_spec n ltac:(lia)) as (Hne & Hd & Hv). rewrite Hd, Hv.
  assert (Hlen : (String.length (digits n) ≤ 20)%nat).
  { apply digits_length; [|lia]. unfold int64_max in *. simpl. lia. }
  unfold Require. apply empty_false in Hne. rewrite Hne.
  assert ((size (digits n) <=? 20) = true) as -> by (unfold size; lia). simpl.
  assert ((n >? int64_max) = false) as -> by lia. simpl.
  assert ((lo <=? n) = true) as -> by lia. assert ((n <=? hi) = true) as -> by lia. done.
Qed.

(** ** Packing *)

Lemma unpack_next_Append value rest :
  size value ≤ kRegistryLimit → unpack_next (Append value +:+ rest) = Ret (value, rest).
Proof.
  intros Hs. pose proof (size_nonneg value) as H0. unfold unpack_next, Append.
  rewrite to_string_nonneg by done. rewrite !app_assoc_s. rewrite !app_cons_s, app_nil_s.
  rewrite find_char_app by (by apply digits_no_char).
  assert (Hlen : (String.length (digits (size value)) ≤ 10)%nat).
  { apply digits_length; [|lia]. unfold kRegistryLimit in Hs. simpl. lia. }
  unfold Require at 1.
  assert ((Z.of_nat (String.length (digits (size value))) <=? 10) = true) as -> by lia.
  cbn [mbind outcome_bind]. rewrite take_str_app, drop_str_app_S.
  rewrite <- to_string_nonneg by done.
  rewrite Integer_digits by (unfold kRegistryLimit, int64_max in *; lia).
  cbn [mbind outcome_bind].
  unfold Require. assert ((size value <=? size (value +:+ rest)) = true) as ->
    by (rewrite size_app; pose proof (size_nonneg rest); lia).
  simpl. unfold size. rewrite Nat2Z.id. by rewrite take_str_app, drop_str_app.
Qed.

Lemma Append_nonempty value rest : empty (Append value +:+ rest) = false.
Proof.
  unfold Append. rewrite to_string_nonneg by apply size_nonneg.
  destruct (digits_spec (size value)) as (Hne & _); [apply size_nonneg|].
  by destruct (digits (size value)).
Qed.

Definition packable (message : Message) : Prop :=
  ∀ k v, message !! k = Some v → size k ≤ kRegistryLimit ∧ size v ≤ kRegistryLimit.

Lemma unpack_loop_pack l fuel acc :
  (length l < fuel)%nat → NoDup l.*1 →
  (∀ k v, (k, v) ∈ l → size k ≤ kRegistryLimit ∧ size v ≤ kRegistryLimit) →
  (∀ k, k ∈ l.*1 → acc !! k = None) →
  unpack_loop fuel (pack_items l) acc = Ret (list_to_map l ∪ acc).
Proof.
  revert fuel acc. induction l as [|[k v] l IH]; intros [|fuel] acc Hf Hnd Hb Hacc;
    [simpl in *; lia| |simpl in *; lia|].
  - simpl. by rewrite (left_id_L ∅ (∪)).
  - cbn [pack_items unpack_loop]. unfold pack_item. simpl fst. simpl snd.
    rewrite app_assoc_s. rewrite Append_nonempty.
    destruct (Hb k v) as [Hk Hv]; [set_solver|].
    rewrite unpack_next_Append by done. cbn [mbind outcome_bind].
    rewrite unpack_next_Append by done. cbn [mbind outcome_bind].
    apply NoDup_cons in Hnd as [Hkl Hnd].
    assert (Hnone : acc !! k = None) by (apply Hacc; set_solver).
    unfold has. rewrite Hnone. rewrite bool_decide_false by (intros [? ?]; done).
    simpl. rewrite IH.
    + f_equal. rewrite <- insert_union_r by (by apply not_elem_of_list_to_map_1).
      by rewrite insert_union_l.
    + simpl in Hf. lia.
    + done.
    + set_solver.
    + intros k' Hk'. rewrite lookup_insert_ne; [apply Hacc; set_solver|]. by intros <-.
Qed.

Lemma length_pack_items l : (length l ≤ String.length (pack_items l))%nat.
Proof.
  induction l as [|[k v] l IH]; [done|]. cbn [pack_items]. unfold pack_item.
  rewrite !length_app_s. unfold Append at 1. rewrite !length_app_s. simpl. lia.
Qed.

Lemma Unpack_Pack_eq message : packable message → Unpack (Pack message) = Ret message.
Proof.
  intros Hp. unfold Unpack, Pack. rewrite unpack_loop_pack.
  - by rewrite list_to_map_items, (right_id_L ∅ (∪)).
  - pose proof (length_pack_items (items message)). lia.
  - apply items_NoDup.
  - intros k v. rewrite elem_of_items. apply Hp.
  - intros. apply lookup_empty.
Qed.

(** Length prefixes make [Append] a prefix code. *)
Lemma Append_inj a1 b1 a2 b2 :
  Append a1 +:+ b1 = Append a2 +:+ b2 → a1 = a2 ∧ b1 = b2.
Proof.
  unfold Append. rewrite !to_string_nonneg by apply size_nonneg. rewrite !app_assoc_s.
  rewrite !app_cons_s, !app_nil_s. intros Heq.
  pose proof (find_char_app ":" (digits (size a1)) (a1 +:+ b1)) as H1.
  pose proof (find_char_app ":" (digits (size a2)) (a2 +:+ b2)) as H2.
  rewrite Heq in H1.
  rewrite H2 in H1 by (apply digits_no_char; [apply size_nonneg|done]).
  specialize (H1 ltac:(apply digits_no_char; [apply size_nonneg|done])). injection H1 as Hlen.
  apply app_inj_len in Heq as [Hd Heq]; [|done]. injection Heq as Heq.
  apply digits_inj in Hd; [|apply size_nonneg..]. unfold size in Hd.
  apply app_inj_len in Heq; [done|lia].
Qed.

Lemma pack_items_inj l1 l2 : pack_items l1 = pack_items l2 → l1 = l2.
Proof.
  revert l2. induction l1 as [|[k1 v1] l1 IH]; intros [|[k2 v2] l2]; [done| | |].
  - cbn [pack_items]. unfold pack_item. rewrite app_assoc_s. intros Hx. symmetry in Hx.
    apply (f_equal empty) in Hx. by rewrite Append_nonempty in Hx.
  - cbn [pack_items]. unfold pack_item. rewrite app_assoc_s. intros Hx.
    apply (f_equal empty) in Hx. by rewrite Append_nonempty in Hx.
  - cbn [pack_items]. unfold pack_item. rewrite !app_assoc_s. simpl.
    intros [-> Hx]%Append_inj. apply Append_inj in Hx as [-> Hx]. f_equal. by apply IH.
Qed.

Lemma Pack_inj m1 m2 : Pack m1 = Pack m2 → m1 = m2.
Proof. intros Hx%pack_items_inj. by apply items_inj. Qed.

(** ** Fuel *)

Lemma unpack_next_shorter rest part rest' :
  unpack_next rest = Ret (part, rest') → (String.length rest' < String.length rest)%nat.
Proof.
  unfold unpack_next. destruct (find_char ":" rest) as [n|] eqn:En; [|done]. intros Hu.
  apply bind_Ret in Hu as (? & _ & Hu). apply bind_Ret in Hu as (sz & _ & Hu).
  apply bind_Ret in Hu as (? & _ & Hu). injection Hu as _ <-.
  apply find_char_Some in En as (_ & _ & Hn). change (String.length (drop_str (Z.to_nat sz) (drop_str (S n) rest)) < String.length rest)%nat.
  rewrite !length_drop_str. lia.
Qed.

(** Any fuel above the length of the value gives the same result. *)
Lemma unpack_loop_fuel f1 f2 rest message :
  (String.length rest < f1)%nat → (String.length rest < f2)%nat →
  unpack_loop f1 rest message = unpack_loop f2 rest message.
Proof.
  revert f2 rest message. induction f1 as [|f1 IH]; intros [|f2] rest message H1 H2; [lia..|].
  simpl. destruct (empty rest); [done|].
  destruct (unpack_next rest) as [[key rest1]|] eqn:E1; [|done]. simpl.
  destruct (unpack_next rest1) as [[item rest2]|] eqn:E2; [|done]. simpl.
  apply unpack_next_shorter in E1. apply unpack_next_shorter in E2.
  destruct (Require _ _ _); [|done]. simpl. apply IH; lia.
Qed.

(** Stored metadata survives: a message whose keys and values respect
    the size limit of stored parts is read back exactly as it was packed,
    no other message has the same packed form, and the reader's loop bound
    is no restriction (every larger bound gives the same result, on every
    stored value). *)
Theorem Unpack_Pack message :
  packable message →
  Unpack (Pack message) = Ret message ∧
  (∀ other, Pack other = Pack message → other = message) ∧
  (∀ value fuel, (String.length value < fuel)%nat → unpack_loop fuel value ∅ = Unpack value).
Proof.
  intros Hp. split; [by apply Unpack_Pack_eq|]. split; [by intros other ?%Pack_inj|].
  intros value fuel Hf. apply unpack_loop_fuel; lia.
Qed.
End helpers.
