(* ===== verification/Identity.v ===== *)
(** * Peer identity and the installation authority (src/consentd/identity.cc,
    src/consentd/key_file.cc)

    The daemon trusts no role a client claims: a connection gets the peer of
    the one configured rule that matches the credentials the kernel reports,
    and an installation is active when the installer's protected inventory
    says so.  GLib's key files, the package manager and the kernel's view of
    a process are parameters; path resolution, the rule file, the matching,
    the method table and the classification of the inventory are the code's.
    The product build is modelled, without [CONSENT_TEST_BUILD]. *)
From S2P Require Import Prelude Strings Platform Message Packing.
From Stdlib Require Import Ascii.

(** ** Key files *)

(** A loaded [GKeyFile], by its lookups: the groups in order, a string of a
    group and a string list of a group. *)
Record KeyFile := mkKeyFile {
  kf_groups : list string;
  kf_string : string → string → option string;
  kf_list : string → string → option (list string);
}.

Definition KeyValue (file : KeyFile) (group key : string) : string :=
  default "" (file.(kf_string) group key).

Definition KeyValues (file : KeyFile) (group key : string) : gset string :=
  list_to_set (filter (λ v, empty v = false) (default [] (file.(kf_list) group key))).

(** ** The file system

    An object is named by the components of its path from the root, reached
    without following symbolic links; the root directory itself can always be
    opened. *)
Record FileSystem := mkFileSystem {
  (** [openat]: [None] on success, else [errno]; the flag is [O_DIRECTORY]. *)
  fs_open : bool → list string → option Z;
  fs_stat : list string → stat_result;
  (** The bytes [read] returns, or its [errno]. *)
  fs_read : list string → Z + string;
  (** [close] of the descriptor: [None] on success, else [errno]. *)
  fs_close : list string → option Z;
}.

Class Inventory := {
  inv_fs : FileSystem;
  (** [g_key_file_load_from_data]. *)
  g_key_file_load : string → option KeyFile;
  (** [pkgmgrinfo_appinfo_get_appinfo] and [..._get_pkgid]. *)
  pkgmgr_pkgid : string → option string;
}.

(** ** OpenProtected *)

Definition protected_stat (st : file_stat) : bool :=
  (st.(st_uid) =? 0) && (Z.land st.(st_mode) 18 =? 0).

(** One component below [dir]; [None] is [-1]. *)
Definition open_component (fs : FileSystem) (dir : list string) (part : string)
    (last directory : bool) : option file_stat :=
  if empty part || eqs part "." || eqs part ".." then None
  else
    match fs.(fs_open) (negb last || directory) (dir ++ [part]) with
    | Some _ => None
    | None =>
        match fs.(fs_stat) (dir ++ [part]) with
        | StatErrno _ => None
        | StatOk st =>
            if protected_stat st &&
               (if last && negb directory then S_ISREG st.(st_mode) && (st.(st_nlink) =? 1) else true)
            then Some st else None
        end
    end.

(** The component loop, on the bytes of the path from [offset] on. *)
Fixpoint open_loop (fuel : nat) (fs : FileSystem) (dir : list string) (rest : string)
    (directory : bool) : option (list string * file_stat) :=
  match fuel with
  | O => None
  | S fuel' =>
      if empty rest then None
      else
        match find_char "/" rest with
        | None =>
            st ← open_component fs dir rest true directory;
            Some (dir ++ [rest], st)
        | Some n =>
            let part := take_str n rest in
            _ ← open_component fs dir part false directory;
            open_loop fuel' fs (dir ++ [part]) (drop_str (S n) rest) directory
        end
  end.

(** The components and the inode of the descriptor returned. *)
Definition OpenProtected (fs : FileSystem) (path : string) (directory : bool)
  : option (list string * file_stat) :=
  if empty path || negb (front_is "/" path) || back_is "/" path then None
  else open_loop (String.length path) fs [] (drop_str 1 path) directory.

(** [ReadFd]: empty on an error or beyond the limit. *)
Definition ReadFd (fs : FileSystem) (file : list string) (limit : Z) : string :=
  match fs.(fs_read) file with
  | inl _ => ""
  | inr content => if size content >? limit then "" else content
  end.

Section inventory.
Context `{Inventory}.

Definition ReadKeyFile (path : string) (limit : Z) : option KeyFile :=
  '(file, _) ← OpenProtected inv_fs path false;
  let content := ReadFd inv_fs file limit in
  if empty content then None else g_key_file_load content.

(** ** The offline reading of the inventory *)

Definition CONSENT_INSTALLATIONS : string := "/opt/var/lib/consent-authority/installations.conf".

Definition installation_state (state : string) : bool :=
  eqs state "active" || eqs state "pending" || eqs state "removed".

(** One group of the inventory is well formed. *)
Definition group_valid (file : KeyFile) (group : string) : bool :=
  if eqs group "authority" then true
  else
    let generation := KeyValue file group "generation" in
    let valid := negb (empty generation) && (size generation <=? 128) in
    if starts_with "operation " group then
      valid && (size group >? 10) && negb (empty (KeyValue file group "fingerprint"))
    else
      let valid := valid && installation_state (KeyValue file group "state") in
      if starts_with "package " group then valid && (size group >? 8) && (size group <=? 263)
      else
        let owner := KeyValue file group "package" in
        valid && negb (empty group) && (size group <=? 255) && negb (empty owner) &&
        (size owner <=? 255).

(** The checks on the bytes read. *)
Definition parse_authority (content : string) : Z + KeyFile :=
  if empty content || has_char nul content then inl (- EINVAL)
  else
    match g_key_file_load content with
    | None => inl (- EINVAL)
    | Some file =>
        if negb (eqs (KeyValue file "authority" "schema") "1") then inl (- EINVAL)
        else if (Z.of_nat (length file.(kf_groups)) <=? 4096) &&
                forallb (group_valid file) file.(kf_groups)
        then inr file else inl (- EINVAL)
    end.

(** The inventory, or the status returned. *)
Definition ReadOfflineAuthority : Z + KeyFile :=
  let path := CONSENT_INSTALLATIONS in
  match rfind_char "/" path with
  | None => inl (- EINVAL)
  | Some O => inl (- EINVAL)
  | Some separator =>
      match OpenProtected inv_fs (take_str separator path) true with
      | None => inl (- EACCES)
      | Some (directory, _) =>
          let leaf := directory ++ [drop_str (S separator) path] in
          match inv_fs.(fs_open) false leaf with
          | Some errno => inl (if errno =? ENOENT then - ESTALE else - errno)
          | None =>
              match inv_fs.(fs_stat) leaf with
              | StatErrno errno => inl (- errno)
              | StatOk info =>
                  if negb (S_ISREG info.(st_mode)) || negb (info.(st_nlink) =? 1) ||
                     negb (info.(st_uid) =? 0) || negb (Z.land info.(st_mode) 18 =? 0)
                  then inl (- EACCES)
                  else if (info.(st_size) <=? 0) || (info.(st_size) >? 1048576)
                  then inl (- EINVAL)
                  else
                    match inv_fs.(fs_read) leaf with
                    | inl errno => inl (- errno)
                    | inr content =>
                        if size content >? 1048576 then inl (- E2BIG)
                        else
                          match inv_fs.(fs_close) leaf with
                          | Some errno => inl (- errno)
                          | None => parse_authority content
                          end
                    end
              end
          end
      end
  end.

Definition CheckOfflineAuthority : Z :=
  match ReadOfflineAuthority with inl status => status | inr _ => 0 end.

(** The loop of [ValidateOfflineInstallation] over the two groups. *)
Definition offline_group (file : KeyFile) (name : string) : Z :=
  if negb (bool_decide (name ∈ file.(kf_groups))) then - ESTALE
  else
    let current := KeyValue file name "generation" in
    if negb (installation_state (KeyValue file name "state")) || empty current ||
       (size current >? 128)
    then - EINVAL else 0.

Definition ValidateOfflineInstallation (package app generation : string) : Z :=
  if empty package || empty app || (size package >? 255) || (size app >? 255) ||
     empty generation || (size generation >? 128)
  then - EINVAL
  else
    match ReadOfflineAuthority with
    | inl status => status
    | inr file =>
        let group := "package " +:+ package in
        let first := offline_group file group in
        let second := offline_group file app in
        if negb (first =? 0) then first
        else if negb (second =? 0) then second
        else
          let owner := KeyValue file app "package" in
          if empty owner || (size owner >? 255) then - EINVAL
          else if negb (eqs (KeyValue file group "state") "active") ||
                  negb (eqs (KeyValue file app "state") "active") ||
                  negb (eqs owner package) ||
                  negb (eqs (KeyValue file group "generation") generation) ||
                  negb (eqs (KeyValue file app "generation") generation)
          then - ESTALE
          else
            match pkgmgr_pkgid app with
            | None => - ESTALE
            | Some actual => if eqs package actual then 0 else - ESTALE
            end
    end.

(** ** The online reading of the inventory *)

Definition GetInstallationIdentity (package app : string) : option string :=
  if empty package || empty app || (size package >? 255) || (size app >? 255) then None
  else
    match pkgmgr_pkgid app with
    | None => None
    | Some actual =>
        if negb (eqs package actual) then None
        else
          inventory ← ReadKeyFile CONSENT_INSTALLATIONS 1048576;
          let actual_package := KeyValue inventory app "package" in
          let generation := KeyValue inventory app "generation" in
          let state := KeyValue inventory app "state" in
          let package_group := "package " +:+ package in
          let active := eqs (KeyValue inventory package_group "state") "active" &&
                        eqs (KeyValue inventory package_group "generation") generation &&
                        eqs (KeyValue inventory "authority" "schema") "1" in
          if negb active || negb (eqs state "active") || negb (eqs actual_package package) ||
             empty generation || (size generation >? 128)
          then None else Some generation
    end.

Definition ValidateInstallation (package app identity : string) : bool :=
  match GetInstallationIdentity package app with
  | None => false
  | Some current => eqs current identity
  end.

Definition ValidatePackageGeneration (package generation : string) : bool :=
  match ReadKeyFile CONSENT_INSTALLATIONS 1048576 with
  | None => false
  | Some inventory =>
      let group := "package " +:+ package in
      negb (empty generation) && eqs (KeyValue inventory "authority" "schema") "1" &&
      eqs (KeyValue inventory group "generation") generation &&
      installation_state (KeyValue inventory group "state")
  end.
End inventory.

(** ** Numbers of the C library *)

(** [isspace] of the C locale. *)
Definition isspace (c : ascii) : bool :=
  ((9 <=? ascii_Z c) && (ascii_Z c <=? 13)) || (ascii_Z c =? 32).

Fixpoint skip_space (s : string) : string :=
  match s with
  | EmptyString => ""
  | String c s' => if isspace c then skip_space s' else s
  end.

(** The longest prefix of digits and the rest. *)
Fixpoint span_digits (s : string) : string * string :=
  match s with
  | EmptyString => ("", "")
  | String c s' =>
      if is_digit c then let (d, r) := span_digits s' in (String c d, r) else ("", s)
  end.

(** The longest prefix without white space and the rest. *)
Fixpoint span_word (s : string) : string * string :=
  match s with
  | EmptyString => ("", "")
  | String c s' =>
      if isspace c then ("", s) else let (d, r) := span_word s' in (String c d, r)
  end.

Definition ulong_max : Z := 2 ^ 64 - 1.

(** White space, an optional sign and digits: sign, digits and rest. *)
Definition scan_number (s : string) : bool * string * string :=
  let s := skip_space s in
  let '(negative, s) :=
    if front_is "-" s then (true, drop_str 1 s)
    else if front_is "+" s then (false, drop_str 1 s) else (false, s) in
  let (d, r) := span_digits s in (negative, d, r).

(** [strtoul(value, &end, 10)], 64 bits: the number, [errno] and [end]. *)
Definition strtoul (value : string) : Z * Z * string :=
  let '(negative, d, r) := scan_number value in
  if empty d then (0, 0, value)
  else if dec_value d >? ulong_max then (ulong_max, 34, r)
  else (if negative : bool then u64 (- dec_value d) else dec_value d, 0, r).

(** [stream >> unsigned long]. *)
Definition read_ulong (s : string) : option (Z * string) :=
  let '(negative, d, r) := scan_number s in
  if empty d then None
  else if dec_value d >? ulong_max then None
  else Some (if negative : bool then u64 (- dec_value d) else dec_value d, r).

(** ** Processes *)

(** The [n]-th word of a stream, counted from 1. *)
Fixpoint word (n : nat) (s : string) : option string :=
  match n with
  | O => None
  | S n' =>
      let (w, r) := span_word (skip_space s) in
      if empty w then None else match n' with O => Some w | S _ => word n' r end
  end.

(** [StartTime] on the content of [/proc/<pid>/stat]; [None] is the exception
    of [substr]. *)
Definition StartTime (stat : string) : option Z :=
  match rfind_char ")" stat with
  | None => Some 0
  | Some e =>
      if Nat.ltb (String.length stat) (e + 2) then None
      else
        match word 20 (drop_str (e + 2) stat) with
        | None => Some 0
        | Some value =>
            let '(ticks, errno, tail) := strtoul value in
            Some (if (errno =? 0) && empty tail then ticks else 0)
        end
  end.

(** The first line and the rest, as [std::getline]. *)
Definition getline (s : string) : string * string :=
  match find_char newline s with
  | None => (s, "")
  | Some n => (take_str n s, drop_str (S n) s)
  end.

Fixpoint check_uid_lines (fuel : nat) (status : string) (expected : Z) : bool :=
  match fuel with
  | O => false
  | S fuel' =>
      if empty status then false
      else
        let (line, rest) := getline status in
        if negb (starts_with "Uid:" line) then check_uid_lines fuel' rest expected
        else
          match read_ulong (drop_str 4 line) with
          | None => false
          | Some (real, s) =>
              match read_ulong s with
              | None => false
              | Some (effective, s) =>
                  match read_ulong s with
                  | None => false
                  | Some (saved, s) =>
                      match read_ulong s with
                      | None => false
                      | Some (fs, _) =>
                          (real =? expected) && (effective =? expected) && (saved =? expected) &&
                          (fs =? expected)
                      end
                  end
              end
          end
  end.

(** [CheckUid] on the content of [/proc/<pid>/status]. *)
Definition CheckUid (status : string) (expected : Z) : bool :=
  check_uid_lines (S (String.length status)) status expected.

(** What the kernel reports of the peer of a socket.  Two readings of the same
    file may differ, so they are numbered. *)
Record Kernel := mkKernel {
  (** [SO_PEERCRED]: pid, uid and gid. *)
  k_peercred : option (Z * Z * Z);
  (** [SO_PEERSEC]: the bytes returned. *)
  k_peersec : option string;
  (** [ReadProc]: the content, empty when it cannot be read. *)
  k_proc : nat → Z → string → string;
  (** [pidfd_open] gave a descriptor; the process is readable (has exited). *)
  k_pidfd : bool;
  k_exited : bool;
  (** [readlink("/proc/<pid>/exe")] and the inode behind it. *)
  k_exe : Z → option string;
  k_exe_stat : nat → Z → option file_stat;
}.

Record ProcessIdentity := mkProcess {
  pi_pid_fd : bool;
  pi_start_time : Z;
  pi_device : Z;
  pi_inode : Z;
  pi_executable : string;
  pi_label : string;
}.

Definition executable_protected (st : file_stat) : bool :=
  (st.(st_uid) =? 0) && (Z.land st.(st_mode) 18 =? 0) && S_ISREG st.(st_mode) &&
  (st.(st_nlink) =? 1).

(** [IsAlive]; [None] is an exception. *)
Definition IsAlive (fs : FileSystem) (k : Kernel) (pid uid : Z) (process : ProcessIdentity)
  : option bool :=
  if process.(pi_pid_fd) && k.(k_exited) then Some false
  else if process.(pi_start_time) =? 0 then Some false
  else
    start ← StartTime (k.(k_proc) 0%nat pid "stat");
    if negb (start =? process.(pi_start_time)) ||
       negb (CheckUid (k.(k_proc) 1%nat pid "status") uid) then Some false
    else
      match k.(k_exe_stat) 1%nat pid with
      | None => Some false
      | Some st =>
          if negb (st.(st_dev) =? process.(pi_device)) || negb (st.(st_ino) =? process.(pi_inode)) ||
             negb (st.(st_uid) =? 0) || negb (Z.land st.(st_mode) 18 =? 0) ||
             negb (st.(st_nlink) =? 1)
          then Some false
          else
            match OpenProtected fs process.(pi_executable) false with
            | None => Some false
            | Some (_, st) =>
                if (st.(st_dev) =? process.(pi_device)) && (st.(st_ino) =? process.(pi_inode)) then
                  start ← StartTime (k.(k_proc) 2%nat pid "stat");
                  Some (start =? process.(pi_start_time))
                else Some false
            end
      end.

(** ** The rules *)

Record Rule := mkRule {
  rule_peer : Peer;
  rule_executable : string;
  rule_label : string;
  rule_device : Z;
  rule_inode : Z;
}.

Definition uid_max : Z := 2 ^ 32 - 1.

(** The body of the loop of [Load]: [None] is [valid = false]. *)
Definition load_rule (fs : FileSystem) (file : KeyFile) (names : gset string) (group : string)
  : option Rule :=
  if negb (starts_with "identity " group) || (size group =? 9) then None
  else
    let identity := drop_str 9 group in
    let uid := KeyValue file group "uid" in
    let '(number, errno, tail) := strtoul uid in
    if empty uid || front_is "-" uid || negb (errno =? 0) || negb (empty tail) ||
       (number >? uid_max)
    then None
    else
      let executable := KeyValue file group "executable" in
      let label := KeyValue file group "label" in
      let peer := mkPeer (-1) number uid_max identity "" "" ""
                    (KeyValues file group "roles") (KeyValues file group "subjects")
                    (KeyValues file group "profiles") (KeyValues file group "enforcers")
                    (KeyValues file group "packages") in
      match OpenProtected fs executable false with
      | None => None
      | Some (_, st) =>
          if (Z.land st.(st_mode) 73 =? 0) || empty label || bool_decide (peer.(p_roles) = ∅) ||
             bool_decide (identity ∈ names) || bool_decide ("*" ∈ peer.(p_subjects)) ||
             bool_decide ("*" ∈ peer.(p_profiles))
          then None
          else Some (mkRule peer executable label st.(st_dev) st.(st_ino))
      end.

Fixpoint load_rules (fs : FileSystem) (file : KeyFile) (groups : list string)
    (names : gset string) (rules : list Rule) : option (list Rule) :=
  match groups with
  | [] => Some rules
  | group :: groups' =>
      if eqs group "policy" then load_rules fs file groups' names rules
      else
        match load_rule fs file names group with
        | None => None
        | Some rule =>
            load_rules fs file groups' ({[rule.(rule_peer).(p_identity)]} ∪ names) (rules ++ [rule])
        end
  end.

(** [Load]: the result and the rules left; an invalid file leaves none. *)
Definition Load `{Inventory} (path : string) : bool * list Rule :=
  match ReadKeyFile path 65536 with
  | None => (false, [])
  | Some file =>
      match load_rules inv_fs file file.(kf_groups) ∅ [] with
      | None => (false, [])
      | Some rules => (true, rules)
      end
  end.

Definition rule_matches (uid : Z) (process : ProcessIdentity) (rule : Rule) : bool :=
  (rule.(rule_peer).(p_uid) =? uid) && eqs rule.(rule_executable) process.(pi_executable) &&
  eqs rule.(rule_label) process.(pi_label) && (rule.(rule_device) =? process.(pi_device)) &&
  (rule.(rule_inode) =? process.(pi_inode)).

Definition until_nul (s : string) : string :=
  match find_char nul s with None => s | Some n => take_str n s end.

Definition matched_peer (rule : Rule) (pid gid start : Z) : Peer :=
  let p := rule.(rule_peer) in
  mkPeer pid p.(p_uid) gid p.(p_identity) (to_string pid +:+ ":" +:+ to_string start)
    p.(p_subject) p.(p_profile) p.(p_roles) p.(p_subjects) p.(p_profiles) p.(p_enforcers)
    p.(p_packages).

(** [Authenticate]: the peer and the process, [Some None] when it returns
    [false], [None] when it throws. *)
Definition Authenticate (fs : FileSystem) (rules : list Rule) (k : Kernel)
  : option (option (Peer * ProcessIdentity)) :=
  match k.(k_peercred), k.(k_peersec) with
  | Some (pid, uid, gid), Some label =>
      if pid <=? 0 then Some None
      else if empty label || (size label >=? 4096) then Some None
      else
        start ← StartTime (k.(k_proc) 3%nat pid "stat");
        if (start =? 0) || negb (CheckUid (k.(k_proc) 4%nat pid "status") uid) then Some None
        else
          match k.(k_exe) pid, k.(k_exe_stat) 0%nat pid with
          | Some executable, Some st =>
              if empty executable || (size executable >=? 4095) || negb (executable_protected st)
              then Some None
              else
                let process := mkProcess k.(k_pidfd) start st.(st_dev) st.(st_ino) executable
                                 (until_nul label) in
                match find_row (rule_matches uid process) rules with
                | None => Some None
                | Some rule =>
                    alive ← IsAlive fs k pid rule.(rule_peer).(p_uid) process;
                    Some (if alive : bool then Some (matched_peer rule pid gid start, process)
                          else None)
                end
          | _, _ => Some None
          end
  | _, _ => Some None
  end.

(** ** The method table *)

Definition Allows (peer : Peer) (method : string) : bool :=
  let role value := Role peer value in
  if eqs method "hello" then negb (bool_decide (peer.(p_roles) = ∅))
  else if eqs method "register" || eqs method "update" || eqs method "unregister"
  then role "installer"
  else if eqs method "request" || eqs method "result" || eqs method "cancel" ||
          eqs method "get_request_result" || eqs method "cancel_request"
  then role "argo"
  else if eqs method "check" then role "checker" || role "cm" || role "ce" || role "holder"
  else if eqs method "prompt" || eqs method "get_prompt" || eqs method "respond" then role "ui"
  else if eqs method "revoke" then role "admin"
  else if eqs method "session_get_state" || eqs method "session_state" ||
          eqs method "cleanup_get_state" || eqs method "cleanup"
  then role "session" || role "holder" || role "argo" || role "checker"
  else if starts_with "session_" method then role "session"
  else if starts_with "data_" method || eqs method "cleanup" || eqs method "cleanup_list" ||
          eqs method "cleanup_ack"
  then role "holder" || role "session"
  else false.

(** ** OpenProtected opens exactly the protected paths *)

Fixpoint join_path (parts : list string) : string :=
  match parts with
  | [] => ""
  | [part] => part
  | part :: parts' => part +:+ "/" +:+ join_path parts'
  end.

(** Every component opens; the last one as the object itself. *)
Fixpoint protected_from (fs : FileSystem) (dir parts : list string) (directory : bool)
    (st : file_stat) : Prop :=
  match parts with
  | [] => False
  | [part] => has_char "/" part = false ∧ open_component fs dir part true directory = Some st
  | part :: parts' =>
      has_char "/" part = false ∧ is_Some (open_component fs dir part false directory) ∧
      protected_from fs (dir ++ [part]) parts' directory st
  end.

Lemma open_loop_Some fuel fs dir rest directory all st :
  open_loop fuel fs dir rest directory = Some (all, st) →
  ∃ parts, all = dir ++ parts ∧ rest = join_path parts ∧ protected_from fs dir parts directory st.
Proof.
  revert dir rest. induction fuel as [|fuel IH]; intros dir rest; simpl; [done|].
  destruct (empty rest) eqn:He; [done|]. destruct (find_char "/" rest) as [n|] eqn:Hf.
  - intros (s & Hc & Ho)%bind_Some. apply IH in Ho as (parts & -> & Hrest & Hp).
    exists (take_str n rest :: parts). rewrite <- app_assoc. split; [done|].
    apply find_char_Some in Hf as (Hs & Hno & _).
    destruct parts as [|p parts]; [destruct Hp|].
    split; [|cbn [protected_from]; split_and!; [by apply has_char_false|by exists s|done]].
    change (join_path (take_str n rest :: p :: parts)) with
      (take_str n rest +:+ "/" +:+ join_path (p :: parts)). by rewrite <- Hrest.
  - intros (s & Hc & [= <- <-])%bind_Some. exists [rest]. split_and!; [done|done|].
    split; [by apply has_char_false, find_char_None|done].
Qed.

Lemma open_component_name fs dir part last directory st :
  open_component fs dir part last directory = Some st →
  part ≠ "" ∧ part ≠ "." ∧ part ≠ "..".
Proof. unfold open_component. destruct (_ || _) eqn:E; [done|]. by str_hyps. Qed.

(** The fuel is enough: one iteration per component. *)
Lemma open_loop_complete fuel fs dir parts directory st :
  protected_from fs dir parts directory st → (String.length (join_path parts) ≤ fuel)%nat →
  open_loop fuel fs dir (join_path parts) directory = Some (dir ++ parts, st).
Proof.
  revert fuel dir. induction parts as [|part parts IH]; intros fuel dir Hp Hl; [destruct Hp|].
  destruct parts as [|part' parts].
  - destruct Hp as [Hno Hc]. simpl in *. apply open_component_name in Hc as Hn.
    destruct Hn as (Hne & _). destruct fuel as [|fuel]; [destruct part; simpl in Hl; [done|lia]|]. simpl.
    apply empty_false in Hne. rewrite Hne.
    apply has_char_false, find_char_None in Hno. rewrite Hno, Hc. done.
  - destruct Hp as (Hno & [s Hc] & Hp).
    change (join_path (part :: part' :: parts)) with
      (part +:+ String "/" (join_path (part' :: parts))) in *.
    rewrite length_app_s in Hl. destruct fuel as [|fuel]; [cbn [String.length] in Hl; lia|].
    cbn [open_loop]. apply open_component_name in Hc as Hn. destruct Hn as (Hne & _).
    assert (empty (part +:+ String "/" (join_path (part' :: parts))) = false) as ->.
    { destruct part; done. }
    rewrite find_char_app by (by apply has_char_false).
    rewrite take_str_app, drop_str_app_S, Hc. cbn [mbind option_bind].
    rewrite IH; [by rewrite <- app_assoc|done|]. cbn [String.length] in Hl. lia.
Qed.

Lemma back_is_app c a d b : back_is c (a +:+ String d b) = back_is c (String d b).
Proof.
  induction a as [|x a IH]; [done|]. rewrite app_cons_s. simpl.
  destruct (a +:+ String d b) eqn:E; [by destruct a|]. by rewrite IH.
Qed.

Lemma join_path_back fs dir parts directory st :
  protected_from fs dir parts directory st → back_is "/" (join_path parts) = false.
Proof.
  revert dir. induction parts as [|part parts IH]; intros dir Hp; [destruct Hp|].
  destruct parts as [|part' parts].
  - destruct Hp as [Hno _]. simpl. apply has_char_false in Hno. clear IH.
    induction part as [|c part IHp]; [done|]. simpl in *. bool_hyps.
    destruct part; [by case_bool_decide|by apply IHp].
  - destruct Hp as (_ & _ & Hp).
    change (join_path (part :: part' :: parts)) with
      (part +:+ String "/" (join_path (part' :: parts))).
    rewrite back_is_app. pose proof (IH _ Hp) as Hb.
    destruct (join_path (part' :: parts)) as [|c s] eqn:E; [|exact Hb].
    assert (Hne : part' ≠ "").
    { destruct parts; [destruct Hp as [_ Hc]|destruct Hp as (_ & [s' Hc] & _)];
        by apply open_component_name in Hc as (? & _). }
    destruct parts; simpl in E; [done|]. by destruct part'.
Qed.

Lemma OpenProtected_iff fs path directory parts st :
  OpenProtected fs path directory = Some (parts, st) ↔
  path = "/" +:+ join_path parts ∧ protected_from fs [] parts directory st.
Proof.
  unfold OpenProtected. split.
  - destruct (_ || _) eqn:E; [done|]. str_hyps. intros (p & -> & Hr & Hp)%open_loop_Some.
    split; [|done]. destruct path as [|c path]; [done|]. simpl in *.
    rewrite <- Hr. by case_bool_decide; subst.
  - intros [-> Hp]. assert (back_is "/" ("/" +:+ join_path parts) = false) as ->.
    { rewrite app_cons_s, app_nil_s. simpl. destruct (join_path parts) eqn:E; [|rewrite <- E; by eapply join_path_back].
      destruct parts as [|p [|]]; [destruct Hp| |]; simpl in E.
      - destruct Hp as [_ (Hn & _)%open_component_name]. done.
      - by destruct p. }
    rewrite app_cons_s, app_nil_s. simpl (empty _). simpl (front_is _ _). cbn [negb orb].
    apply (open_loop_complete _ _ [] parts); [done|]. simpl. lia.
Qed.

Definition real_name (part : string) : Prop :=
  part ≠ "" ∧ part ≠ "." ∧ part ≠ ".." ∧ has_char "/" part = false.

(** The object at [path] can be opened, belongs to root and is writable by
    no one else. *)
Definition protected_object (fs : FileSystem) (directory : bool) (path : list string)
    (st : file_stat) : Prop :=
  fs.(fs_open) directory path = None ∧ fs.(fs_stat) path = StatOk st ∧
  st.(st_uid) = 0 ∧ Z.land st.(st_mode) 18 = 0.

Lemma open_component_iff fs dir part last directory st :
  open_component fs dir part last directory = Some st ↔
  (part ≠ "" ∧ part ≠ "." ∧ part ≠ "..") ∧
  protected_object fs (negb last || directory) (dir ++ [part]) st ∧
  (last = true → directory = false → S_ISREG st.(st_mode) = true ∧ st.(st_nlink) = 1).
Proof.
  unfold open_component, protected_object, protected_stat.
  destruct (empty part || _ || _) eqn:En; [split; [done|intros ((? & ? & ?) & _)]|].
  { rewrite !orb_true_iff, empty_true, !eqs_true in En. naive_solver. }
  str_hyps. destruct (fs_open _ _ _); [naive_solver|].
  destruct (fs_stat _ _) as [e|s]; [naive_solver|].
  destruct ((st_uid s =? 0) && _ && _) eqn:Ep.
  - str_hyps. destruct last, directory; simpl in *; str_hyps; naive_solver lia.
  - split; [done|]. intros (_ & (_ & [= <-] & Hu & Hm) & Hr). rewrite Hu, Hm in Ep. simpl in Ep.
    destruct last, directory; simpl in *; try done. destruct Hr as [Hr1 Hr2]; [done..|].
    by rewrite Hr1, Hr2 in Ep.
Qed.

Lemma protected_from_iff fs dir parts directory st :
  protected_from fs dir parts directory st ↔
  ∃ init last, parts = init ++ [last] ∧ has_char "/" last = false ∧
    open_component fs (dir ++ init) last true directory = Some st ∧
    ∀ i part, init !! i = Some part → has_char "/" part = false ∧
      is_Some (open_component fs (dir ++ take i init) part false directory).
Proof.
  revert dir. induction parts as [|part parts IH]; intros dir.
  { split; [done|]. intros (init & last & Hp & _). by destruct init. }
  destruct parts as [|part' parts].
  - split.
    + intros [Hno Hc]. exists [], part. rewrite app_nil_r. by split_and!.
    + intros ([|p init] & last & Hp & Hno & Hc & _); [|by destruct init].
      injection Hp as ->. by rewrite app_nil_r in Hc.
  - change (protected_from fs dir (part :: part' :: parts) directory st) with
      (has_char "/" part = false ∧ is_Some (open_component fs dir part false directory) ∧
       protected_from fs (dir ++ [part]) (part' :: parts) directory st).
    rewrite IH. split.
    + intros (Hno & Hc & init & last & Hp & Hl & Hcl & Hall). exists (part :: init), last.
      rewrite Hp. rewrite <- app_assoc in Hcl. split_and!; [done..|].
      intros [|i] q Hq; simpl in *; [simplify_eq; by rewrite app_nil_r|].
      destruct (Hall i q Hq) as [? Hi]. split; [done|]. by rewrite <- app_assoc in Hi.
    + intros ([|p init] & last & Hp & Hl & Hcl & Hall); [done|]. injection Hp as <- Hp.
      destruct (Hall 0%nat part eq_refl) as [Hno Hc]. simpl in Hc. rewrite app_nil_r in Hc.
      split_and!; [done..|]. exists init, last. rewrite <- app_assoc. split_and!; [done..|].
      intros i q Hq. destruct (Hall (S i) q Hq) as [? Hi]. split; [done|].
      simpl in Hi. by rewrite <- app_assoc.
Qed.

Lemma OpenProtected_spec fs path directory parts st :
  OpenProtected fs path directory = Some (parts, st) ↔
  ∃ init last, parts = init ++ [last] ∧ path = "/" +:+ join_path parts ∧
    Forall real_name parts ∧ protected_object fs directory parts st ∧
    (directory = false → S_ISREG st.(st_mode) = true ∧ st.(st_nlink) = 1) ∧
    ∀ i, (0 < i < length parts)%nat → ∃ s, protected_object fs true (take i parts) s.
Proof.
  rewrite OpenProtected_iff, protected_from_iff. split.
  - intros (-> & init & last & -> & Hl & Hc & Hall). exists init, last.
    apply open_component_iff in Hc as (Hn & Ho & Hr). simpl in Ho.
    split_and!; [done|done| |done|by auto|].
    + apply Forall_app. split; [|constructor; [|constructor]; unfold real_name; naive_solver].
      apply Forall_lookup. intros i part Hi. destruct (Hall i part Hi) as [Hno [s Hs]].
      apply open_component_iff in Hs as (Hn' & _). unfold real_name. naive_solver.
    + intros [|i] Hi; [lia|]. rewrite length_app in Hi. simpl in Hi.
      destruct (lookup_lt_is_Some_2 init i) as [part Hp]; [lia|].
      destruct (Hall i part Hp) as [_ [s Hs]]. exists s. apply open_component_iff in Hs as (_ & Hs & _).
      simpl in Hs. rewrite take_app_le by lia. by rewrite (take_S_r _ _ part).
  - intros (init & last & -> & Hpath & Hn & Ho & Hr & Hall). split; [done|]. exists init, last.
    apply Forall_app in Hn as [Hinit Hlast]. rewrite Forall_singleton in Hlast.
    split_and!; [done|by destruct Hlast as (_ & _ & _ & ?)| |].
    + apply open_component_iff. unfold real_name in Hlast. naive_solver.
    + intros i part Hi. pose proof (Forall_lookup_1 _ _ _ _ Hinit Hi) as Hname.
      split; [by destruct Hname as (_ & _ & _ & ?)|]. apply lookup_lt_Some in Hi as Hlt.
      destruct (Hall (S i)) as [s Hs]; [rewrite length_app; simpl; lia|].
      rewrite take_app_le in Hs by lia. rewrite (take_S_r _ _ part) in Hs by done.
      exists s. apply open_component_iff. unfold real_name in Hname. naive_solver.
Qed.

(** [OpenProtected] opens exactly the protected paths.  It returns an
    object for a path exactly when the path is absolute, each of its
    components is a real name (not empty, not dot or dot-dot), every
    directory on the way and the object itself open without following a link,
    belong to root and are not writable by group or others, and, unless a
    directory is asked for, the object is a regular file with one link. *)
Theorem OpenProtected_exact fs path directory parts st :
  OpenProtected fs path directory = Some (parts, st) ↔
  ∃ init last, parts = init ++ [last] ∧ path = "/" +:+ join_path parts ∧
    Forall real_name parts ∧ protected_object fs directory parts st ∧
    (directory = false → S_ISREG st.(st_mode) = true ∧ st.(st_nlink) = 1) ∧
    ∀ i, (0 < i < length parts)%nat → ∃ s, protected_object fs true (take i parts) s.
Proof. apply OpenProtected_spec. Qed.

Lemma join_path_snoc dir leaf :
  dir ≠ [] → join_path (dir ++ [leaf]) = join_path dir +:+ "/" +:+ leaf.
Proof.
  induction dir as [|part dir IH]; [done|]. intros _. destruct dir as [|part' dir]; [done|].
  change (join_path ((part :: part' :: dir) ++ [leaf])) with
    (part +:+ "/" +:+ join_path ((part' :: dir) ++ [leaf])).
  rewrite IH by done. change (join_path (part :: part' :: dir)) with
    (part +:+ "/" +:+ join_path (part' :: dir)). by rewrite !app_assoc_s.
Qed.

(** A protected file in a protected directory. *)
Lemma OpenProtected_leaf fs parent dir dst leaf st :
  OpenProtected fs parent true = Some (dir, dst) → real_name leaf →
  protected_object fs false (dir ++ [leaf]) st → S_ISREG st.(st_mode) = true → st.(st_nlink) = 1 →
  OpenProtected fs (parent +:+ "/" +:+ leaf) false = Some (dir ++ [leaf], st).
Proof.
  intros (init & last & -> & -> & Hn & Ho & _ & Hall)%OpenProtected_spec Hl Hleaf Hreg Hlink.
  apply OpenProtected_spec. exists (init ++ [last]), leaf.
  split; [done|]. split; [|split; [|split; [done|split; [done|]]]].
  - rewrite (join_path_snoc (init ++ [last])) by (by destruct init). by rewrite !app_assoc_s.
  - by apply Forall_app_2; [|apply Forall_singleton].
  - intros i Hi. rewrite length_app in Hi. simpl in Hi. rewrite take_app_le by lia.
    destruct (decide (i = length (init ++ [last]))) as [->|]; [|apply Hall; lia].
    exists dst. by rewrite firstn_all.
Qed.

(** ** Authenticated peers *)

(** What every loaded rule grants. *)
Definition good_rule (rule : Rule) : Prop :=
  rule.(rule_peer).(p_roles) ≠ ∅ ∧ ("*" ∉ rule.(rule_peer).(p_subjects)) ∧
  ("*" ∉ rule.(rule_peer).(p_profiles)) ∧ rule.(rule_label) ≠ "" ∧
  0 ≤ rule.(rule_peer).(p_uid) ≤ uid_max.

Definition rule_name (rule : Rule) : string := rule.(rule_peer).(p_identity).

Lemma span_digits_digits s : all_of is_digit (span_digits s).1 = true.
Proof.
  induction s as [|c s IH]; simpl; [done|]. destruct (is_digit c) eqn:Hc; [|done].
  destruct (span_digits s). simpl in *. by rewrite Hc.
Qed.

Lemma scan_number_digits s negative d r :
  scan_number s = (negative, d, r) → all_of is_digit d = true.
Proof.
  unfold scan_number. repeat case_match; intros; simplify_eq;
    match goal with E : span_digits ?x = _ |- _ => pose proof (span_digits_digits x) as Hd; by rewrite E in Hd end.
Qed.

Lemma strtoul_range value : 0 ≤ (strtoul value).1.1.
Proof.
  unfold strtoul. destruct (scan_number value) as [[negative d] r] eqn:E.
  apply scan_number_digits in E. destruct (empty d); [done|]. destruct (_ >? _); [done|]. simpl.
  destruct negative; [apply Z.mod_pos_bound; lia|]. by apply dec_value_from_lower.
Qed.

Lemma load_rule_good fs file names group rule :
  load_rule fs file names group = Some rule → good_rule rule ∧ rule_name rule ∉ names.
Proof.
  unfold load_rule. destruct (_ || _); [done|].
  pose proof (strtoul_range (KeyValue file group "uid")) as Hr.
  destruct (strtoul _) as [[number errno] tail]. simpl in Hr.
  destruct (empty _ || _ || _ || _ || _) eqn:Hu; [done|].
  destruct (OpenProtected _ _ _) as [[parts st]|]; [|done].
  destruct ((_ =? _) || _ || _ || _ || _ || _) eqn:Hg; [done|]. intros [= <-].
  str_hyps. unfold good_rule, rule_name. simpl. split_and!; try done; lia.
Qed.

Lemma load_rules_good fs file groups names rules rules' :
  load_rules fs file groups names rules = Some rules' →
  Forall good_rule rules → NoDup (rule_name <$> rules) →
  (∀ rule, rule ∈ rules → rule_name rule ∈ names) →
  Forall good_rule rules' ∧ NoDup (rule_name <$> rules').
Proof.
  revert names rules. induction groups as [|group groups IH]; simpl; intros names rules Hl Hg Hnd Hn.
  { by injection Hl as <-. }
  destruct (eqs group "policy"); [by eapply IH|].
  destruct (load_rule _ _ _ _) as [rule|] eqn:Er; [|done]. apply load_rule_good in Er as [Hr Hnew].
  eapply IH; [exact Hl| | |].
  - by apply Forall_app_2; [|apply Forall_singleton].
  - rewrite fmap_app. apply NoDup_app. split_and!; [done| |apply NoDup_singleton].
    intros x (r & -> & Hin)%list_elem_of_fmap. intros Hx%list_elem_of_singleton.
    apply Hnew. simpl in Hx. rewrite <- Hx. by apply Hn.
  - intros r [Hin|Heq%list_elem_of_singleton]%elem_of_app; [|subst; set_solver].
    apply elem_of_union_r. by apply Hn.
Qed.

Section authentication.
Context `{Inventory}.

(** C38: no role without a rule.  When the rule file was loaded, a connection
    is authenticated only as the peer of the one rule whose user id, security
    label and executable, with its device and inode, are those the kernel
    reports for the process at the other end, whose executable is a protected
    file, and which is alive as that process after the match; the peer has at
    least one role, no wildcard subject or profile, and the instance is the
    process and its start time. *)
Theorem Authenticate_sound path rules k peer process :
  Load path = (true, rules) → Authenticate inv_fs rules k = Some (Some (peer, process)) →
  ∃ rule pid uid gid st, rule ∈ rules ∧ k.(k_peercred) = Some (pid, uid, gid) ∧ 0 < pid ∧
    k.(k_exe) pid = Some rule.(rule_executable) ∧ k.(k_exe_stat) 0%nat pid = Some st ∧
    executable_protected st = true ∧ rule.(rule_peer).(p_uid) = uid ∧
    rule.(rule_device) = st.(st_dev) ∧ rule.(rule_inode) = st.(st_ino) ∧
    option_map until_nul k.(k_peersec) = Some rule.(rule_label) ∧
    IsAlive inv_fs k pid uid process = Some true ∧
    peer = matched_peer rule pid gid process.(pi_start_time) ∧ process.(pi_start_time) ≠ 0 ∧
    peer.(p_roles) ≠ ∅ ∧ ("*" ∉ peer.(p_subjects)) ∧ ("*" ∉ peer.(p_profiles)) ∧
    (∀ rule', rule' ∈ rules → rule_name rule' = peer.(p_identity) → rule' = rule).
Proof.
  unfold Load. destruct (ReadKeyFile path 65536) as [file|]; [|done].
  destruct (load_rules _ _ _ _ _) as [rules'|] eqn:Hload; [|done]. intros [= ->].
  apply load_rules_good in Hload as [Hgood Hnd]; [|constructor|constructor|by intros ? ?%elem_of_nil].
  unfold Authenticate. intros Ha.
  destruct (k_peercred k) as [[[pid uid] gid]|] eqn:Hcred; [|done].
  destruct (k_peersec k) as [label|] eqn:Hlabel; [|done].
  destruct (Z.leb_spec pid 0); [done|]. destruct (empty label || _); [done|].
  apply bind_Some in Ha as (start & Hstart & Ha).
  destruct (Z.eqb_spec start 0); [done|]. destruct (CheckUid _ _); [|done]. simpl in Ha.
  destruct (k_exe k pid) as [exe|] eqn:Hexe; [|done].
  destruct (k_exe_stat k 0 pid) as [st|] eqn:Hst; [|done].
  destruct (executable_protected st) eqn:Hprot; [|by rewrite orb_true_r in Ha].
  destruct (empty exe || _ || _); [done|].
  destruct (find_row _ rules) as [rule|] eqn:Hrule; [|done].
  apply bind_Some in Ha as (alive & Halive & Ha). destruct alive; [|done].
  injection Ha as <- <-. apply find_row_Some in Hrule as [Hin Hm].
  unfold rule_matches in Hm. simpl in Hm. str_hyps.
  rewrite Forall_forall in Hgood. destruct (Hgood rule Hin) as (Hroles & Hsub & Hprof & _).
  exists rule, pid, uid, gid, st. simpl.
  assert (p_uid (rule_peer rule) = uid) as Huid by lia. rewrite Huid in Halive.
  split_and!; try done; try lia; try congruence.
  intros rule' Hr' Hname. by eapply (key_inj rule_name).
Qed.
End authentication.

(** ** The readings of the inventory agree *)

(** A system call that fails sets [errno] to a positive value. *)
Class InventoryLaws `{Inventory} : Prop := {
  open_errno : ∀ flag path e, inv_fs.(fs_open) flag path = Some e → 0 < e;
  stat_errno : ∀ path e, inv_fs.(fs_stat) path = StatErrno e → 0 < e;
  read_errno : ∀ path e, inv_fs.(fs_read) path = inl e → 0 < e;
  close_errno : ∀ path e, inv_fs.(fs_close) path = Some e → 0 < e;
}.

Section agreement.
Context `{InventoryLaws}.

Lemma parse_authority_inl content status : parse_authority content = inl status → status ≠ 0.
Proof. unfold parse_authority. repeat case_match; intros [= <-]; done. Qed.

Lemma ReadOfflineAuthority_inl status : ReadOfflineAuthority = inl status → status ≠ 0.
Proof.
  unfold ReadOfflineAuthority. cbv zeta. set (path := CONSENT_INSTALLATIONS).
  destruct (rfind_char "/" path) as [[|n]|]; [intros [= <-]; done| |intros [= <-]; done].
  destruct (OpenProtected _ _ _) as [[dir ?]|]; [|intros [= <-]; done].
  destruct (fs_open _ _ _) as [e|] eqn:Eo.
  { apply open_errno in Eo. case_match; intros [= <-]; [done|lia]. }
  destruct (fs_stat _ _) as [e|info] eqn:Es; [apply stat_errno in Es; intros [= <-]; lia|].
  destruct (_ || _); [intros [= <-]; done|]. destruct (_ || _); [intros [= <-]; done|].
  destruct (fs_read _ _) as [e|content] eqn:Er; [apply read_errno in Er; intros [= <-]; lia|].
  destruct (_ >? _); [intros [= <-]; done|].
  destruct (fs_close _ _) as [e|] eqn:Ec; [apply close_errno in Ec; intros [= <-]; lia|].
  apply parse_authority_inl.
Qed.

(** What the strict reading has read, the other reading reads too. *)
Lemma ReadOfflineAuthority_inr file :
  ReadOfflineAuthority = inr file →
  ReadKeyFile CONSENT_INSTALLATIONS 1048576 = Some file ∧
  KeyValue file "authority" "schema" = "1" ∧ Forall (λ g, group_valid file g = true) file.(kf_groups).
Proof.
  unfold ReadOfflineAuthority. cbv zeta.
  assert (Hsep : rfind_char "/" CONSENT_INSTALLATIONS = Some 30%nat) by (vm_compute; reflexivity).
  rewrite Hsep. set (parent := take_str 30 CONSENT_INSTALLATIONS).
  destruct (OpenProtected inv_fs parent true) as [[dir dst]|] eqn:Ed; [|done].
  set (leaf := drop_str 31 CONSENT_INSTALLATIONS).
  destruct (fs_open _ _ _) as [e|] eqn:Eo; [done|].
  destruct (fs_stat _ _) as [e|info] eqn:Es; [done|].
  destruct (_ || _ || _ || _) eqn:Hinfo; [done|]. str_hyps.
  destruct (_ || _); [done|]. destruct (fs_read _ _) as [e|content] eqn:Er; [done|].
  destruct (size content >? 1048576) eqn:Hsz; [done|].
  destruct (fs_close _ _) as [e|]; [done|]. intros Hp.
  assert (Hopen : OpenProtected inv_fs CONSENT_INSTALLATIONS false = Some (dir ++ [leaf], info)).
  { change CONSENT_INSTALLATIONS with (parent +:+ "/" +:+ leaf).
    eapply OpenProtected_leaf; [exact Ed|by apply (bool_decide_unpack _)| |done|lia].
    split_and!; [done|done|lia|lia]. }
  unfold ReadKeyFile. rewrite Hopen. cbn [mbind option_bind]. unfold ReadFd. rewrite Er, Hsz.
  unfold parse_authority in Hp. destruct (empty content) eqn:Ee; [done|].
  destruct (has_char nul content); [done|]. simpl in Hp.
  destruct (g_key_file_load content) as [f|]; [|done].
  destruct (eqs _ "1") eqn:Hsch; [|done]. simpl in Hp. destruct (_ && _) eqn:Hg; [|done].
  injection Hp as <-. str_hyps. split_and!; [done|done|].
  apply Forall_forall. intros g Hin.
  match goal with Hf : forallb _ _ = true |- _ => rewrite forallb_forall in Hf; apply Hf end.
  by apply list_elem_of_In.
Qed.

(** An installation accepted at startup is one the running daemon
    accepts.  When the strict classification of the installation inventory
    that startup reconciliation uses accepts a package, application and
    generation, then, on the same inventory, the validators used for client
    requests accept them: the application and the package are active, with
    this generation, and belong together. *)
Theorem offline_implies_online package app generation :
  ValidateOfflineInstallation package app generation = 0 →
  GetInstallationIdentity package app = Some generation ∧
  ValidateInstallation package app generation = true ∧
  ValidatePackageGeneration package generation = true.
Proof.
  unfold ValidateOfflineInstallation. destruct (empty package || _ || _ || _ || _ || _) eqn:Hin; [done|].
  str_hyps. destruct ReadOfflineAuthority as [status|file] eqn:Hread.
  { intros ->. by apply ReadOfflineAuthority_inl in Hread. }
  apply ReadOfflineAuthority_inr in Hread as (Hkf & Hschema & _). cbv zeta.
  destruct (offline_group file _ =? 0) eqn:Hg1; [|simpl; lia].
  destruct (offline_group file app =? 0) eqn:Hg2; [|simpl; lia]. simpl.
  destruct (_ || _) eqn:Howner; [done|].
  destruct (negb _ || _ || _ || _ || _) eqn:Hact; [done|].
  destruct (pkgmgr_pkgid app) as [actual|] eqn:Hpkg; [|done].
  destruct (eqs package actual) eqn:Hactual; [|done]. intros _. str_hyps.
  assert (Hget : GetInstallationIdentity package app = Some generation).
  { unfold GetInstallationIdentity.
    assert (empty package || empty app || (size package >? 255) || (size app >? 255) = false) as ->.
    { by rewrite !orb_false_iff, !empty_false. }
    rewrite Hpkg, <- Hactual, eqs_refl. cbn [negb]. rewrite Hkf. cbn [mbind option_bind].
    rewrite Hschema. repeat match goal with Hk : KeyValue file _ _ = _ |- _ => rewrite Hk end.
    rewrite !eqs_refl. assert (empty generation = false) as -> by (by apply empty_false).
    by match goal with Hs : (size generation >? 128) = false |- _ => rewrite Hs end. }
  split_and!; [done| |].
  - unfold ValidateInstallation. by rewrite Hget, eqs_refl.
  - unfold ValidatePackageGeneration. rewrite Hkf, Hschema.
    repeat match goal with Hk : KeyValue file _ _ = _ |- _ => rewrite Hk end.
    rewrite !eqs_refl. assert (empty generation = false) as -> by (by apply empty_false). done.
Qed.
End agreement.
