(* ===== verification/Approval.v ===== *)
(** * Approval selections (src/common/approval.cc)

    The opt-in selection context of a request, its canonical digest, its
    validation and the coverage of a selected period by a stored grant. *)
From S2P Require Import Prelude Strings Platform Message Packing.
From Stdlib Require Import Ascii.

Module approval.
Section approval.
Context `{Platform}.

Definition kContext : list string :=
  ["approval_version"; "request_kind"; "selection_id"; "selection_revision";
   "selection_digest"; "grant_mode"; "duration_ms"; "period_choices"].

Definition kRow : list string :=
  ["definition"; "policy_version"; "scope"; "operation"; "purpose"; "recipient";
   "holder"; "feature_id"; "feature_revision"].

Definition Identifier (value : string) : bool :=
  if empty value || (size value >? 128) then false
  else all_of (λ byte, g_ascii_isalnum byte || bool_decide (byte = "_"%char) ||
                       bool_decide (byte = "-"%char) || bool_decide (byte = "."%char)) value.

Definition Integer (value : string) (minimum maximum : Z) : bool :=
  match ParseNumber value with
  | Some number =>
      (minimum <=? number) && (number <=? maximum) && eqs value (to_string number)
  | None => false
  end.

Definition Versioned (request : Message) : bool :=
  eqs (Get request "approval_version") "1" || eqs (Get request "approval_version") "2".

Definition CopyContext (source destination : Message) : Message :=
  foldl (λ d key, match source !! key with Some v => <[key := v]> d | None => d end)
    destination kContext.

Definition SameContext (left right : Message) : bool :=
  forallb (λ key, Bool.eqb (has left key) (has right key) &&
                  eqs (Get left key) (Get right key)) kContext.

(** The row prefix ["r" + std::to_string(i) + "."]. *)
Definition row (i : Z) : string := "r" +:+ to_string i +:+ ".".

Definition SelectionFields (request : Message) : Message :=
  let result := delete "selection_digest" (CopyContext request ∅) in
  let result := foldl (λ d key, <[key := Get request key]> d) result
                  ["subject"; "profile"; "session"; "generation"; "count"] in
  let count := MsgNumber request "count" 0 in
  if (count <? 1) || (count >? 16) then ∅
  else foldl (λ d i, foldl (λ d key, <[row i +:+ key := Get request (row i +:+ key)]> d) d kRow)
         result (seqZ 0 count).

Definition SelectionDigest (request : Message) : string :=
  let fields := SelectionFields request in
  if bool_decide (fields = ∅) then ""
  else if forallb (λ field, ValidField field.1 field.2) (items fields)
  then g_sha256 ("consent-selection-v1" +:+ String newline "" +:+ pack_items (items fields))
  else "".

(** The unversioned branch of [Validate]. *)
Definition ValidateUnversioned (request : Message) : verdict () :=
  ensure (forallb (λ field, negb (has request field)) kContext)
    "approval context requires version 1";;
  ensure (forallb (λ i, negb (has request (row i +:+ "feature_id") ||
                              has request (row i +:+ "feature_revision") ||
                              has request (row i +:+ "grant_mode") ||
                              has request (row i +:+ "duration_ms"))) (seqZ 0 16))
    "feature context requires version 1".

Definition Validate (request : Message) : verdict () :=
  if negb (has request "approval_version") then ValidateUnversioned request
  else
    let version := Get request "approval_version" in
    ensure (negb ((negb (eqs version "1") && negb (eqs version "2")) ||
                  (negb (eqs (Get request "request_kind") "PREAPPROVAL") &&
                   negb (eqs (Get request "request_kind") "TASK")) ||
                  negb (Identifier (Get request "selection_id")) ||
                  negb (Integer (Get request "selection_revision") 1 int64_max) ||
                  negb (Integer (Get request "count") 1 16)))
      "invalid approval selection context";;
    ensure (forallb (λ field, negb ((size field.1 >? 2) && front_is "r" field.1 &&
                                    (contains ".grant_mode" field.1 ||
                                     contains ".duration_ms" field.1))) (items request))
      "version 1 selects one common period for the batch";;
    let mode := Get request "grant_mode" in
    ensure (eqs mode "ONCE" || eqs mode "SESSION" || eqs mode "TIMED")
      "invalid selected approval period";;
    ensure (negb (if eqs mode "TIMED"
                  then negb (Integer (Get request "duration_ms") 100 3600000)
                  else has request "duration_ms"))
      "invalid selected approval duration";;
    ensure (negb (eqs mode "SESSION" &&
                  (empty (Get request "session") ||
                   negb (Integer (Get request "generation") 1 int64_max))))
      "session approval requires active session context";;
    ensure (forallb (λ i, Identifier (Get request (row i +:+ "feature_id")) &&
                          Integer (Get request (row i +:+ "feature_revision")) 1 int64_max &&
                          Integer (Get request (row i +:+ "policy_version")) 1 int64_max)
              (seqZ 0 (MsgNumber request "count" 0)))
      "feature selection requires explicit policy and feature revisions";;
    ensure (negb (if eqs version "2"
                  then negb (eqs (Get request "period_choices") (mode +:+ ",PERSISTENT"))
                  else has request "period_choices"))
      "invalid opt-in approval period choices";;
    let digest := Get request "selection_digest" in
    ensure ((size digest =? 64) && eqs digest (SelectionDigest request))
      "selection digest mismatch".

Definition Covers (request : Message) (mode : string) (expires now : Z) : bool :=
  if negb (expires =? 0) && (expires <=? now) then false
  else if eqs (Get request "_approval_mode") "PERSISTENT" then eqs mode "PERSISTENT"
  else if negb (Versioned request) || eqs (Get request "request_kind") "TASK" then true
  else
    let selected := Get request "grant_mode" in
    if eqs selected "ONCE" || eqs mode "PERSISTENT" then true
    else if eqs selected "SESSION" then eqs mode "SESSION"
    else
      let target := MsgNumber request "_approval_deadline" int64_max in
      eqs selected "TIMED" && eqs mode "TIMED" && (expires >=? target).

(** ** Properties *)

(** Copying the context touches the context fields only. *)
Lemma CopyContext_Get source destination k :
  k ∉ kContext → Get (CopyContext source destination) k = Get destination k.
Proof.
  unfold CopyContext. generalize kContext as l. intros l. revert destination.
  induction l as [|x l IH]; intros destination Hk; [done|]. simpl.
  rewrite IH by set_solver. destruct (source !! x); [|done]. apply Get_insert_ne. set_solver.
Qed.

(** The bytes that are hashed. *)
Definition selection_bytes (request : Message) : string :=
  "consent-selection-v1" +:+ String newline "" +:+ pack_items (items (SelectionFields request)).

(** A digest is only issued for well-formed, nonempty selections. *)
Lemma SelectionDigest_nonempty request :
  SelectionDigest request ≠ "" → SelectionDigest request = g_sha256 (selection_bytes request).
Proof.
  unfold SelectionDigest. case_bool_decide; [done|]. by destruct (forallb _ _).
Qed.

Lemma selection_bytes_inj r1 r2 :
  selection_bytes r1 = selection_bytes r2 → SelectionFields r1 = SelectionFields r2.
Proof. intros Heq%app_inj_l%app_inj_l%pack_items_inj. by apply items_inj. Qed.

Lemma Validate_digest request :
  has request "approval_version" = true → Validate request = Good () →
  size (Get request "selection_digest") = 64 ∧
  Get request "selection_digest" = SelectionDigest request.
Proof.
  unfold Validate. intros ->. simpl. intros Hv. good_steps Hv.
  apply andb_true_iff in Hv as [Hs Hd]. apply Z.eqb_eq in Hs. by apply eqs_true in Hd.
Qed.

(** C34: a validated selection is bound by its digest: two validated
    versioned requests that carry the same [selection_digest] agree on every
    selected field (period, subject, profile, session, count and every
    requirement row), unless their canonical encodings differ and are a
    collision of SHA-256.  The encoding itself loses nothing. *)
Theorem selection_digest_binds r1 r2 :
  has r1 "approval_version" = true → Validate r1 = Good () →
  has r2 "approval_version" = true → Validate r2 = Good () →
  Get r1 "selection_digest" = Get r2 "selection_digest" →
  SelectionFields r1 = SelectionFields r2 ∨
  (selection_bytes r1 ≠ selection_bytes r2 ∧
   g_sha256 (selection_bytes r1) = g_sha256 (selection_bytes r2)).
Proof.
  intros Hv1 H1 Hv2 H2 Heq.
  destruct (Validate_digest r1 Hv1 H1) as [Hs1 Hd1], (Validate_digest r2 Hv2 H2) as [Hs2 Hd2].
  destruct (decide (selection_bytes r1 = selection_bytes r2)) as [Hb|Hb];
    [left; by apply selection_bytes_inj|right]. split; [done|].
  rewrite <- !SelectionDigest_nonempty; [congruence| |].
  - intros He. rewrite Hd2, He in Hs2. done.
  - intros He. rewrite Hd1, He in Hs1. done.
Qed.

(** A grant covers a versioned PREAPPROVAL selection only if its period
    is at least the selected one: it has not expired, an explicit
    PERSISTENT choice is covered by PERSISTENT grants only, SESSION by
    SESSION or PERSISTENT, and TIMED by PERSISTENT or by a TIMED grant that
    lasts at least until the admission deadline. *)
Theorem Covers_sound request mode expires now :
  Covers request mode expires now = true → Versioned request = true →
  Get request "request_kind" = "PREAPPROVAL" →
  (expires = 0 ∨ now < expires) ∧
  (Get request "_approval_mode" = "PERSISTENT" → mode = "PERSISTENT") ∧
  (Get request "grant_mode" = "SESSION" → mode = "SESSION" ∨ mode = "PERSISTENT") ∧
  (Get request "grant_mode" = "TIMED" →
   mode = "PERSISTENT" ∨
   (mode = "TIMED" ∧ MsgNumber request "_approval_deadline" int64_max ≤ expires)).
Proof.
  unfold Covers. intros Hc Hv Hk. rewrite Hv, Hk in Hc. simpl in Hc.
  destruct (negb (expires =? 0) && (expires <=? now)) eqn:E; [done|].
  assert (expires = 0 ∨ now < expires) by lia. split; [done|].
  destruct (eqs (Get request "_approval_mode") "PERSISTENT") eqn:Ep; str_hyps.
  { split_and!; intros; auto. }
  split; [done|].
  destruct (eqs (Get request "grant_mode") "ONCE" || eqs mode "PERSISTENT") eqn:Eo.
  { apply orb_true_iff in Eo as [Eo|Eo]; str_hyps; rewrite ?Eo; split; intros; auto; done. }
  destruct (eqs (Get request "grant_mode") "SESSION") eqn:Es; str_hyps.
  { split; intros Hg; [auto|congruence]. }
  split; intros; [done|]. right. split; [done|lia].
Qed.
End approval.
End approval.
