(* ===== verification/Cleanup.v ===== *)
(** * Cleanup cursors and sweeps (src/common/cleanup_cursor.cc,
    src/common/cleanup_sweep.cc)

    The daemon pages the artifacts a holder must delete; a cursor is the
    reading position carried by the client between pages, and [CleanupSweep]
    is the client loop over the pages. *)
From S2P Require Import Prelude Strings Platform Message.
From Stdlib Require Import Ascii.

(** ** Cursors *)

Record CleanupCursor := mkCleanupCursor {
  cu_incarnation : string;
  cu_scope : string;
  cu_last : string;
  cu_upper : string;
}.

Definition kIdentitySize : Z := 48.
Definition kScopeSize : Z := 64.
Definition kTokenSize : Z := 2 + 3 * kIdentitySize + kScopeSize + 3.

Definition hex_byte (c : ascii) : bool :=
  ((48 <=? ascii_Z c) && (ascii_Z c <=? 57)) || ((97 <=? ascii_Z c) && (ascii_Z c <=? 102)).

Definition Hex (value : string) (sz : Z) : bool :=
  if negb (size value =? sz) then false else all_of hex_byte value.

(** The loop over the four fields: [lengths] are those still to read. *)
Fixpoint cursor_fields (token : string) (offset : Z) (lengths : list Z)
  : option (list string * Z) :=
  match lengths with
  | [] => Some ([], offset)
  | length :: lengths' =>
      let field := substr (Z.to_nat offset) (Z.to_nat length) token in
      if negb (Hex field length) then None
      else
        let offset := offset + length in
        match lengths' with
        | [] => Some ([field], offset)
        | _ =>
            if negb (bool_decide (String.get (Z.to_nat offset) token = Some ":"%char)) then None
            else
              '(fields, offset) ← cursor_fields token (offset + 1) lengths';
              Some (field :: fields, offset)
        end
  end.

Definition CursorParse (token : string) : option CleanupCursor :=
  if negb (size token =? kTokenSize) || negb (starts_with "1:" token) then None
  else
    '(fields, offset) ← cursor_fields token 2
                          [kIdentitySize; kScopeSize; kIdentitySize; kIdentitySize];
    match fields with
    | [incarnation; scope; last; upper] =>
        if negb (offset =? size token) || les upper last then None
        else Some (mkCleanupCursor incarnation scope last upper)
    | _ => None
    end.

Definition CursorEncode (c : CleanupCursor) : string :=
  "1:" +:+ c.(cu_incarnation) +:+ ":" +:+ c.(cu_scope) +:+ ":" +:+ c.(cu_last) +:+ ":" +:+
  c.(cu_upper).

Section scope.
Context `{Platform}.

Definition CleanupScope (holder instance subject profile : string) (reconcile : bool) : string :=
  g_sha256 (foldl (λ input field, input +:+ (to_string (size field) +:+ ":" +:+ field)) ""
              [holder; instance; subject; profile] +:+ (if reconcile then "1" else "0")).
End scope.

(** ** Sweeps *)

Record CleanupProgress := mkCleanupProgress {
  sw_scope : Message;
  sw_cursor : string;
  sw_failure : Z;
  sw_finished : bool;
}.

Section sweep.
(** The callbacks act on an outside state. *)
Context {St : Type}.
Context (fetch : St → Message → St * (Z * Message)).
Context (cleanup : St → string → St * Z).

(** The loop over the entries of one page: [false] is [-EPROTO]. *)
Fixpoint sweep_entries (result : Message) (indices : list Z) (st : St) (failure : Z)
  : St * Z * bool :=
  match indices with
  | [] => (st, failure, true)
  | index :: indices' =>
      let artifact := Get result ("a" +:+ to_string index +:+ ".artifact") in
      if empty artifact then (st, failure, false)
      else
        let (st, status) := cleanup st artifact in
        sweep_entries result indices' st
          (if negb (status =? 0) && (failure =? 0) then status else failure)
  end.

(** The page checks of one reply. *)
Definition sweep_page_valid (count : Z) (more cursor : string) : bool :=
  negb ((negb (eqs more "0") && negb (eqs more "1")) ||
        (eqs more "1" && ((count =? 0) || empty cursor)) ||
        (eqs more "0" && negb (empty cursor))).

Fixpoint sweep_pages (pages : nat) (input : Message) (progress : CleanupProgress)
  (positions : gset string) (st : St) : St * CleanupProgress * Z :=
  match pages with
  | O => (st, progress, - EINPROGRESS)
  | S pages' =>
      let '(st, (status, result)) := fetch st input in
      if negb (status =? 0) then (st, progress, status)
      else
        match ParseNumber (Get result "count") with
        | None => (st, progress, - EPROTO)
        | Some count =>
            if (count <? 0) || (count >? 48) then (st, progress, - EPROTO)
            else
              let more := Get result "more" in
              let cursor := Get result "next_cursor" in
              if negb (sweep_page_valid count more cursor) then (st, progress, - EPROTO)
              else
                let '(st, failure, complete) :=
                  sweep_entries result (seqZ 0 count) st progress.(sw_failure) in
                let progress := mkCleanupProgress progress.(sw_scope) progress.(sw_cursor)
                                  failure progress.(sw_finished) in
                if negb complete then (st, progress, - EPROTO)
                else if eqs more "0" then
                  (st, mkCleanupProgress progress.(sw_scope) "" failure true, failure)
                else if bool_decide (cursor ∈ positions) then (st, progress, - EPROTO)
                else
                  sweep_pages pages' (<["cursor" := cursor]> input)
                    (mkCleanupProgress progress.(sw_scope) cursor failure progress.(sw_finished))
                    ({[cursor]} ∪ positions) st
        end
  end.

(** [progress] is not null. *)
Definition CleanupSweep (input : Message) (progress : CleanupProgress) (st : St)
  : St * CleanupProgress * Z :=
  let input := delete "cursor" input in
  if negb progress.(sw_finished) && negb (bool_decide (progress.(sw_scope) = input))
  then (st, progress, - EINVAL)
  else
    let progress := if progress.(sw_finished) then mkCleanupProgress input "" 0 false
                    else progress in
    sweep_pages 128 (<["cursor" := progress.(sw_cursor)]> input) progress
      {[progress.(sw_cursor)]} st.
End sweep.

(** ** Cursors are canonical *)

(** The cursors that the daemon issues. *)
Definition cursor_valid (c : CleanupCursor) : Prop :=
  Hex c.(cu_incarnation) kIdentitySize = true ∧ Hex c.(cu_scope) kScopeSize = true ∧
  Hex c.(cu_last) kIdentitySize = true ∧ Hex c.(cu_upper) kIdentitySize = true ∧
  les c.(cu_upper) c.(cu_last) = false.

Lemma Hex_size value sz : Hex value sz = true → size value = sz.
Proof. unfold Hex. destruct (size value =? sz) eqn:E; [|done]. intros _. lia. Qed.

Lemma substr_app pre rest n : substr (Z.to_nat (size pre)) n (pre +:+ rest) = take_str n rest.
Proof. unfold substr, size. by rewrite Nat2Z.id, drop_str_app. Qed.

Lemma get_app pre rest : String.get (Z.to_nat (size pre)) (pre +:+ rest) = String.get 0 rest.
Proof.
  unfold size. rewrite Nat2Z.id. induction pre as [|c pre IH]; [by destruct rest|].
  rewrite app_cons_s. simpl. exact IH.
Qed.

Lemma concat_cons f g fs :
  String.concat ":" (f :: g :: fs) = f +:+ String ":" (String.concat ":" (g :: fs)).
Proof. done. Qed.

Lemma cursor_fields_cons token offset n n' lengths :
  cursor_fields token offset (n :: n' :: lengths) =
    let field := substr (Z.to_nat offset) (Z.to_nat n) token in
    if negb (Hex field n) then None
    else if negb (bool_decide (String.get (Z.to_nat (offset + n)) token = Some ":"%char)) then None
    else '(fields, offset) ← cursor_fields token (offset + n + 1) (n' :: lengths);
         Some (field :: fields, offset).
Proof. done. Qed.

Lemma app_cons_split a c b : a +:+ String c b = (a +:+ String c "") +:+ b.
Proof. by rewrite app_assoc_s, app_cons_s, app_nil_s. Qed.

(** The fields that are read are the bytes at the offset. *)
Lemma cursor_fields_sound lengths pre rest fields off :
  lengths ≠ [] → cursor_fields (pre +:+ rest) (size pre) lengths = Some (fields, off) →
  Forall2 (λ f n, Hex f n = true) fields lengths ∧
  off = size pre + size (String.concat ":" fields) ∧
  ∃ tail, rest = String.concat ":" fields +:+ tail.
Proof.
  revert pre rest fields off. induction lengths as [|n lengths IH]; intros pre rest fields off Hne;
    [done|]. cbn [cursor_fields]. rewrite substr_app. set (f := take_str _ rest).
  destruct (Hex f n) eqn:Hf; [|done]. pose proof (Hex_size _ _ Hf) as Hsz.
  assert (∃ rest1, rest = f +:+ rest1) as [rest1 Hr]
    by (exists (drop_str (Z.to_nat n) rest); symmetry; apply take_drop_str).
  clearbody f. subst rest.
  destruct lengths as [|n' lengths]; simpl negb; cbv iota.
  { intros [= <- <-]. split_and!; [by constructor|simpl; lia|]. by eexists. }
  rewrite <- app_assoc_s. replace (size pre + n) with (size (pre +:+ f)) by (by rewrite size_app, Hsz).
  rewrite get_app. destruct rest1 as [|c rest1]; [done|]. simpl String.get.
  case_bool_decide as Hc; [|done]. injection Hc as ->. simpl negb. cbv iota.
  rewrite (app_cons_split (pre +:+ f)).
  replace (size (pre +:+ f) + 1) with (size ((pre +:+ f) +:+ ":")) by (rewrite !size_app; done).
  destruct (cursor_fields _ _ (n' :: lengths)) as [[fs off']|] eqn:Ec; [|done].
  apply IH in Ec as (Hfs & -> & tail & Htail); [|done]. intros [= <- <-].
  split; [by constructor|]. inversion Hfs as [|g ? fs' ? ? ? ]; subst fs; subst.
  rewrite concat_cons. split.
  - rewrite !size_app, !size_cons. change (size "") with 0. lia.
  - exists tail. by rewrite app_assoc_s, app_cons_s.
Qed.

Lemma cursor_fields_complete lengths pre fields :
  lengths ≠ [] → Forall2 (λ f n, Hex f n = true) fields lengths →
  cursor_fields (pre +:+ String.concat ":" fields) (size pre) lengths =
    Some (fields, size pre + size (String.concat ":" fields)).
Proof.
  intros Hne Hfs. revert pre Hne. induction Hfs as [|f n fs lengths Hf Hfs IH]; intros pre Hne;
    [done|]. pose proof (Hex_size _ _ Hf) as Hsz.
  assert (Htake : ∀ rest, take_str (Z.to_nat n) (f +:+ rest) = f).
  { intros rest. rewrite <- Hsz. unfold size. by rewrite Nat2Z.id, take_str_app. }
  destruct Hfs as [|g n' fs lengths Hg Hfs].
  { simpl. rewrite substr_app, <- (app_nil_r_s f), Htake, app_nil_r_s, Hf. simpl.
    by rewrite Hsz. }
  rewrite cursor_fields_cons. cbv zeta.
  rewrite substr_app, concat_cons, Htake, Hf. simpl negb. cbv iota.
  rewrite <- app_assoc_s. replace (size pre + n) with (size (pre +:+ f)) by (by rewrite size_app, Hsz).
  rewrite get_app. simpl String.get. rewrite bool_decide_true by done. simpl negb. cbv iota.
  rewrite <- ?(app_assoc_s pre f), (app_cons_split (pre +:+ f)).
  replace (size (pre +:+ f) + 1) with (size ((pre +:+ f) +:+ ":")) by (rewrite !size_app; done).
  specialize (IH ((pre +:+ f) +:+ ":") ltac:(done)). rewrite IH.
  simpl. f_equal. f_equal. rewrite !size_app, !size_cons, ?size_app. change (size "") with 0. lia.
Qed.

(** Cursors are canonical: a token is accepted exactly when it is the
    encoding of a well-formed cursor (fixed-width lowercase hexadecimal
    fields, the reading position strictly below the upper bound), and it is
    accepted as that cursor; so tokens and cursors correspond one to one. *)
Theorem CursorParse_canonical token c :
  CursorParse token = Some c ↔ token = CursorEncode c ∧ cursor_valid c.
Proof.
  unfold CursorParse. split.
  - destruct (size token =? kTokenSize) eqn:Es; [|done].
    destruct (starts_with "1:" token) eqn:Ep; [|done]. cbn [negb orb].
    apply starts_with_true in Ep as [rest ->].
    destruct (cursor_fields ("1:" +:+ rest) 2 _) as [[fields off]|] eqn:Ec; [|done].
    apply (cursor_fields_sound _ "1:") in Ec as (Hfs & -> & tail & ->); [|done].
    do 4 (apply Forall2_cons_inv_r in Hfs as (? & ? & ? & Hfs & ->)).
    apply Forall2_nil_inv_r in Hfs as ->. cbn [mbind option_bind].
    destruct (_ || _) eqn:Eb; [done|]. intros [= <-]. apply orb_false_iff in Eb as [Et Hle].
    assert (Htail : size tail = 0). { rewrite size_app in Et. rewrite size_app in Et. lia. }
    destruct tail; [|rewrite size_cons in Htail; pose proof (size_nonneg tail); lia].
    split; [|done]. rewrite app_nil_r_s. done.
  - intros (-> & H1 & H2 & H3 & H4 & H5). destruct c as [f1 f2 f3 f4]. simpl in H1, H2, H3, H4, H5.
    assert (He : CursorEncode (mkCleanupCursor f1 f2 f3 f4) =
                 "1:" +:+ String.concat ":" [f1; f2; f3; f4]) by done.
    rewrite He, starts_with_app. 
    rewrite (cursor_fields_complete _ "1:") by (repeat constructor; done).
    cbn [mbind option_bind]. rewrite H5. replace (size _ =? kTokenSize) with true.
    { rewrite <- size_app, Z.eqb_refl. done. }
    apply Hex_size in H1, H2, H3, H4. rewrite !concat_cons.
    repeat rewrite ?size_app, ?size_cons. simpl String.concat. rewrite H1, H2, H3, H4. done.
Qed.

(** ** Sweeps clean every page *)

Section sweeping.
Context {St : Type}.
Context (fetch : St → Message → St * (Z * Message)).
Context (cleanup : St → string → St * Z).

(** The deletion callback on a list of artifacts, with the first error. *)
Fixpoint cleanup_all (artifacts : list string) (st : St) (failure : Z) : St * Z :=
  match artifacts with
  | [] => (st, failure)
  | artifact :: artifacts' =>
      let (st, status) := cleanup st artifact in
      cleanup_all artifacts' st
        (if negb (status =? 0) && (failure =? 0) then status else failure)
  end.

(** [result] is a reply that lists [artifacts] and continues at [next]
    (nowhere when it is empty). *)
Definition page_of (result : Message) (artifacts : list string) (next : string) : Prop :=
  Get result "count" = to_string (Z.of_nat (length artifacts)) ∧ (length artifacts ≤ 48)%nat ∧
  Get result "more" = (if empty next then "0" else "1") ∧ Get result "next_cursor" = next ∧
  (next ≠ "" → artifacts ≠ []) ∧
  (∀ i a, artifacts !! i = Some a →
    a ≠ "" ∧ Get result ("a" +:+ to_string (Z.of_nat i) +:+ ".artifact") = a).

(** The daemon serves [pages] from [cursor] on; [cursors] are the positions
    of the pages after the first. *)
Inductive serves (input : Message) : string → list (list string) → list string → Prop :=
| serves_last cursor artifacts result :
    (∀ st, fetch st (<["cursor" := cursor]> input) = (st, (0, result))) →
    page_of result artifacts "" → serves input cursor [artifacts] []
| serves_more cursor next artifacts result pages cursors :
    (∀ st, fetch st (<["cursor" := cursor]> input) = (st, (0, result))) →
    next ≠ "" → page_of result artifacts next →
    serves input next pages cursors →
    serves input cursor (artifacts :: pages) (next :: cursors).

Lemma cleanup_all_app l1 l2 st failure :
  cleanup_all (l1 ++ l2) st failure =
    (let (st, failure) := cleanup_all l1 st failure in cleanup_all l2 st failure).
Proof.
  revert st failure. induction l1 as [|a l1 IH]; intros st failure; simpl; [done|].
  destruct (cleanup st a). apply IH.
Qed.

Lemma sweep_entries_all result artifacts k st failure :
  (∀ i a, artifacts !! i = Some a → a ≠ "" ∧
    Get result ("a" +:+ to_string (Z.of_nat (k + i)) +:+ ".artifact") = a) →
  sweep_entries cleanup result (seqZ (Z.of_nat k) (Z.of_nat (length artifacts))) st failure =
    (cleanup_all artifacts st failure, true).
Proof.
  revert k st failure. induction artifacts as [|a artifacts IH]; intros k st failure Hget; [done|].
  destruct (Hget 0%nat a) as [Ha Hg]; [done|]. rewrite Nat.add_0_r in Hg.
  rewrite seqZ_cons by (simpl; lia). cbn [sweep_entries cleanup_all]. rewrite Hg.
  rewrite (proj2 (empty_false a)) by done. destruct (cleanup st a) as [st1 status].
  replace (Z.succ (Z.of_nat k)) with (Z.of_nat (S k)) by lia.
  replace (Z.pred (Z.of_nat (length (a :: artifacts)))) with (Z.of_nat (length artifacts))
    by (simpl; lia).
  apply IH. intros i b Hi. specialize (Hget (S i) b Hi). by rewrite Nat.add_succ_r in Hget.
Qed.

(** The position after [n] pages. *)
Definition position (n : nat) (cursor : string) (cursors : list string) : string :=
  default "" ((cursor :: cursors) !! n).

(** One page. *)
Lemma sweep_pages_S n input cursor artifacts next result positions scope failure st :
  (∀ st, fetch st (<["cursor" := cursor]> input) = (st, (0, result))) →
  page_of result artifacts next → (next ≠ "" → next ∉ positions) →
  sweep_pages fetch cleanup (S n) (<["cursor" := cursor]> input)
    (mkCleanupProgress scope cursor failure false) positions st =
  let (st', failure') := cleanup_all artifacts st failure in
  if empty next then (st', mkCleanupProgress scope "" failure' true, failure')
  else sweep_pages fetch cleanup n (<["cursor" := next]> input)
         (mkCleanupProgress scope next failure' false) ({[next]} ∪ positions) st'.
Proof.
  intros Hf (Hc & Hle & Hm & Hn & Hne & Hget) Hpos. cbn [sweep_pages]. rewrite Hf. simpl.
  rewrite Hc, Hm, Hn, ParseNumber_to_string by (unfold in_int64, int64_min, int64_max; lia).
  replace ((Z.of_nat (length artifacts) <? 0) || (Z.of_nat (length artifacts) >? 48)) with false
    by lia.
  assert (Hv : sweep_page_valid (Z.of_nat (length artifacts))
                 (if empty next then "0" else "1") next = true).
  { destruct next as [|c next]; [done|]. unfold sweep_page_valid. simpl.
    destruct artifacts; [by destruct Hne|]. done. }
  rewrite Hv. simpl. rewrite (sweep_entries_all result artifacts 0) by exact Hget.
  destruct (cleanup_all artifacts st failure) as [st' failure']. simpl.
  destruct next as [|c next]; [done|]. simpl. rewrite bool_decide_false by auto.
  by rewrite insert_insert_eq.
Qed.

(** [n] pages of a served listing. *)
Lemma sweep_pages_serves n input cursor pages cursors positions scope failure st :
  serves input cursor pages cursors → NoDup cursors → (∀ c, c ∈ cursors → c ∉ positions) →
  sweep_pages fetch cleanup n (<["cursor" := cursor]> input)
    (mkCleanupProgress scope cursor failure false) positions st =
  let (st', failure') := cleanup_all (concat (take n pages)) st failure in
  if (length pages <=? n)%nat then (st', mkCleanupProgress scope "" failure' true, failure')
  else (st', mkCleanupProgress scope (position n cursor cursors) failure' false, - EINPROGRESS).
Proof.
  intros Hs. revert n positions failure st.
  induction Hs as [cursor artifacts result Hf Hp|cursor next artifacts result pages cursors Hf Hne Hp Hs IH];
    intros [|n] positions failure st Hnd Hpos; [done| |done|].
  - rewrite (sweep_pages_S n _ _ artifacts "" result) by done. simpl. rewrite take_nil, app_nil_r.
    by destruct (cleanup_all artifacts st failure).
  - apply NoDup_cons in Hnd as [Hni Hnd].
    rewrite (sweep_pages_S n _ _ artifacts next result); [|done..|set_solver].
    simpl. rewrite cleanup_all_app. destruct (cleanup_all artifacts st failure) as [st1 f1].
    rewrite (proj2 (empty_false next)) by done. rewrite IH; [done|done|set_solver].
Qed.

Lemma serves_length input cursor pages cursors :
  serves input cursor pages cursors → length pages = S (length cursors).
Proof. induction 1; simpl; lia. Qed.

Lemma serves_drop n input cursor pages cursors :
  serves input cursor pages cursors → (n < length pages)%nat →
  serves input (position n cursor cursors) (drop n pages) (drop n cursors).
Proof.
  intros Hs. revert n. induction Hs as [|cursor next artifacts result pages cursors Hf Hne Hp Hs IH];
    intros [|n] Hn; simpl in Hn; try lia; [by econstructor|by econstructor|].
  apply (IH n). lia.
Qed.

Lemma NoDup_position n cursor cursors :
  (n ≤ length cursors)%nat → NoDup (cursor :: cursors) →
  NoDup (position n cursor cursors :: drop n cursors).
Proof.
  intros Hn Hnd. unfold position.
  assert (Hd : default "" ((cursor :: cursors) !! n) :: drop n cursors = drop n (cursor :: cursors)).
  { destruct (lookup_lt_is_Some_2 (cursor :: cursors) n) as [c Hc]; [simpl; lia|].
    rewrite Hc, (drop_S _ c n Hc). done. }
  rewrite Hd. rewrite <- (take_drop n (cursor :: cursors)) in Hnd.
  apply NoDup_app in Hnd as (_ & _ & Hnd). done.
Qed.

Lemma CleanupSweep_serves input cursor pages cursors failure st :
  input !! "cursor" = None → serves input cursor pages cursors → NoDup (cursor :: cursors) →
  CleanupSweep fetch cleanup input (mkCleanupProgress input cursor failure false) st =
  let (st', failure') := cleanup_all (concat (take 128 pages)) st failure in
  if (length pages <=? 128)%nat then (st', mkCleanupProgress input "" failure' true, failure')
  else (st', mkCleanupProgress input (position 128 cursor cursors) failure' false,
        - EINPROGRESS).
Proof.
  intros Hi Hs [Hc Hnd]%NoDup_cons. unfold CleanupSweep. rewrite delete_id by done. simpl sw_scope.
  rewrite bool_decide_true by done. cbn [sw_finished negb andb sw_cursor].
  apply sweep_pages_serves; [done|done|]. intros c Hin ->%elem_of_singleton. done.
Qed.

(** The client calls again until a sweep is finished. *)
Fixpoint sweep_calls (n : nat) (input : Message) (progress : CleanupProgress) (st : St)
  : St * CleanupProgress * Z :=
  match n with
  | O => (st, progress, - EINPROGRESS)
  | S n' =>
      let '(st, progress, status) := CleanupSweep fetch cleanup input progress st in
      if progress.(sw_finished) then (st, progress, status)
      else sweep_calls n' input progress st
  end.

(** C35: sweeps are complete, resumable and exact.  When the daemon serves a
    listing of pages at distinct positions, a client that keeps calling
    [CleanupSweep] with its progress finishes after one call per started
    128 pages; each artifact of each page is then handed to the deletion
    callback exactly once, in order, also after failed entries, and the
    status is the first error of the whole sweep. *)
Theorem CleanupSweep_complete n input cursor pages cursors failure st :
  input !! "cursor" = None → serves input cursor pages cursors → NoDup (cursor :: cursors) →
  (length pages ≤ 128 * n)%nat →
  sweep_calls n input (mkCleanupProgress input cursor failure false) st =
  let (st', failure') := cleanup_all (concat pages) st failure in
  (st', mkCleanupProgress input "" failure' true, failure').
Proof.
  revert cursor pages cursors failure st.
  induction n as [|n IH]; intros cursor pages cursors failure st Hi Hs Hnd Hlen.
  { apply serves_length in Hs. lia. }
  cbn [sweep_calls]. rewrite (CleanupSweep_serves _ _ pages cursors) by done.
  assert (concat pages = concat (take 128 pages) ++ concat (drop 128 pages)) as ->
    by (by rewrite <- concat_app, take_drop).
  rewrite cleanup_all_app.
  destruct (cleanup_all (concat (take 128 pages)) st failure) as [st1 f1].
  destruct (length pages <=? 128)%nat eqn:El.
  - simpl. rewrite drop_ge by (apply Nat.leb_le in El; lia). done.
  - apply Nat.leb_gt in El. cbn [sw_finished]. apply (IH _ _ (drop 128 cursors)); [done| | |].
    + by apply serves_drop.
    + apply serves_length in Hs. apply NoDup_position; [lia|done].
    + rewrite length_drop. lia.
Qed.
End sweeping.
