(* ===== verification/Localization.v ===== *)
(** * Localized templates (src/common/localization.cc)

    Parameter schemas of typed definitions, placeholder syntax, locale
    registration and fallback, the binding of request fields to template
    arguments and the bounded plain-text rendering of prompts. *)
From S2P Require Import Prelude Strings Platform Message.
From Stdlib Require Import Ascii.

Module localization.
Section localization.
Context `{Platform}.

Definition kMaxParameters : Z := 8.
Definition kMaxTemplate : Z := 4096.
Definition kMaxString : Z := 512.
Definition kMaxRendered : Z := 8192.

Record Param := mkParameter {
  source : string;
  type : string;
  minimum : Z;
  maximum : Z;
  max_bytes : Z;
}.

Abbreviation Schema := (gmap string Param).

Definition Name (value : string) : bool :=
  match value with
  | EmptyString => false
  | String c _ =>
      if (size value >? 32) || (negb (g_ascii_isalpha c) && negb (bool_decide (c = "_"%char)))
      then false
      else all_of (λ character, g_ascii_isalnum character ||
                                bool_decide (character = "_"%char)) value
  end.

Definition Locale (value : string) : bool :=
  if empty value || (size value >? 256) then false
  else all_of (λ character, g_ascii_isalnum character || bool_decide (character = "-"%char) ||
                            bool_decide (character = "_"%char) ||
                            bool_decide (character = "."%char) ||
                            bool_decide (character = ":"%char)) value.

Definition Text (value : string) (maximum : Z) : bool :=
  (size value <=? maximum) && negb (has_char nul value) && g_utf8_validate value.

(** [Integer(value, &number)]: canonical decimal notation only. *)
Definition Integer (value : string) : option Z :=
  match ParseNumber value with
  | Some number => if eqs (to_string number) value then Some number else None
  | None => None
  end.

(** The scan of [Placeholders], on the bytes from [position] on.  Every
    iteration consumes a byte, so the length of the text is enough fuel. *)
Fixpoint placeholders_loop (fuel : nat) (text : string) (names : gset string)
  : verdict (gset string) :=
  match fuel, text with
  | O, _ | _, EmptyString => Good names
  | S fuel', String c rest =>
      if bool_decide (c = "}"%char) then Bad "unmatched template brace"
      else if negb (bool_decide (c = "{"%char)) then placeholders_loop fuel' rest names
      else
        match find_char "}" rest with
        | None => Bad "unmatched template brace"
        | Some n =>
            let name := take_str n rest in
            ensure (Name name) "invalid template parameter name";;
            let names := {[name]} ∪ names in
            ensure (negb (Z.of_nat (base.size names) >? kMaxParameters))
              "too many template parameters";;
            placeholders_loop fuel' (drop_str (S n) rest) names
        end
  end.

Definition Placeholders (text : string) (names : gset string) : verdict (gset string) :=
  ensure (negb (empty text || negb (Text text kMaxTemplate))) "invalid localized template";;
  placeholders_loop (String.length text) text names.

(** First loop of [ParseSchema]: group the [parameter.] fields by name. *)
Fixpoint schema_fields (typed : bool) (l : list (string * string)) (fields : gmap string Message)
  : verdict (gmap string Message) :=
  match l with
  | [] => Good fields
  | (key, value) :: l' =>
      if negb (starts_with "parameter." key) then schema_fields typed l' fields
      else
        ensure typed "parameter schema requires template version";;
        let remainder := drop_str 10 key in
        match find_char "." remainder with
        | None => Bad "invalid parameter schema key"
        | Some separator =>
            let name := take_str separator remainder in
            ensure (Name name) "invalid parameter schema key";;
            let property := drop_str (S separator) remainder in
            ensure (eqs property "source" || eqs property "type" || eqs property "min" ||
                    eqs property "max" || eqs property "max_bytes")
              "unknown parameter schema property";;
            let fields := <[name := <[property := value]> (default ∅ (fields !! name))]> fields in
            ensure (negb (msize fields >? kMaxParameters)) "parameter schema limit exceeded";;
            schema_fields typed l' fields
        end
  end.

(** Body of the second loop of [ParseSchema]: one parameter. *)
Definition parse_parameter (fields : Message) : verdict Param :=
  let source := Get fields "source" in
  let type := Get fields "type" in
  ensure (eqs source "scope" || eqs source "purpose" || eqs source "recipient" ||
          eqs source "operation" || eqs source "retention_ms")
    "unsupported parameter source";;
  if eqs type "integer" then
    match Integer (Get fields "min"), Integer (Get fields "max") with
    | Some minimum, Some maximum =>
        ensure (negb ((negb (eqs source "scope") && negb (eqs source "retention_ms")) ||
                      negb (msize fields =? 4) || (minimum >? maximum)))
          "invalid integer parameter schema";;
        Good (mkParameter source type minimum maximum 0)
    | _, _ => Bad "invalid integer parameter schema"
    end
  else if eqs type "string" then
    match Integer (Get fields "max_bytes") with
    | Some maximum =>
        ensure (negb (eqs source "retention_ms" || negb (msize fields =? 3) ||
                      (maximum <? 1) || (maximum >? kMaxString)))
          "invalid string parameter schema";;
        Good (mkParameter source type 0 0 maximum)
    | None => Bad "invalid string parameter schema"
    end
  else Bad "unsupported parameter type".

Fixpoint schema_parameters (l : list (string * Message)) (schema : Schema) : verdict Schema :=
  match l with
  | [] => Good schema
  | (name, fields) :: l' =>
      parameter ← parse_parameter fields;
      schema_parameters l' (<[name := parameter]> schema)
  end.

Definition ParseSchema (definition : Message) : verdict Schema :=
  ensure (negb (msize definition >? kMaxFields)) "definition field limit exceeded";;
  let typed := has definition "template_version" in
  ensure (negb (typed && negb (eqs (Get definition "template_version") "1")))
    "unsupported template version";;
  fields ← schema_fields typed (items definition) ∅;
  schema_parameters (items fields) ∅.

Definition Value (parameter : Param) (value : string) : verdict () :=
  if eqs parameter.(type) "string" then
    ensure (Text value parameter.(max_bytes))
      "string argument exceeds schema or is not UTF-8"
  else
    match Integer value with
    | Some number =>
        ensure (negb ((number <? parameter.(minimum)) || (number >? parameter.(maximum))))
          "integer argument is not canonical or outside schema"
    | None => Bad "integer argument is not canonical or outside schema"
    end.

(** First loop of [MessageLocales]: group the [message.] fields by locale. *)
Fixpoint message_fields (l : list (string * string)) (locales : gmap string Message) (count : Z)
  : verdict (gmap string Message) :=
  match l with
  | [] => Good locales
  | (key, value) :: l' =>
      if negb (starts_with "message." key) then message_fields l' locales count
      else
        let remainder := drop_str 8 key in
        match rfind_char "." remainder with
        | None => Bad "invalid message locale"
        | Some separator =>
            let locale := take_str separator remainder in
            ensure (Locale locale) "invalid message locale";;
            let name := drop_str (S separator) remainder in
            ensure (eqs name "title" || eqs name "body") "unknown localized message field";;
            let locales := <[locale := <[name := value]> (default ∅ (locales !! locale))]> locales in
            ensure (negb (count + 1 >? 32)) "localized message limit exceeded";;
            message_fields l' locales (count + 1)
        end
  end.

Fixpoint locale_placeholders (l : list (string * string)) (names : gset string)
  : verdict (gset string) :=
  match l with
  | [] => Good names
  | (_, text) :: l' => names ← Placeholders text names; locale_placeholders l' names
  end.

(** Second loop: the placeholders of each locale are the declared ones. *)
Fixpoint check_locales (typed : bool) (declared : gset string)
    (l : list (string * Message)) (registered : gset string) : verdict (gset string) :=
  match l with
  | [] => Good registered
  | (locale, fields) :: l' =>
      names ← locale_placeholders (items fields) ∅;
      ensure (negb (typed && negb (msize fields =? 2)))
        "typed locale requires both title and body";;
      ensure (bool_decide (names = declared))
        "locale placeholders do not match declared schema";;
      check_locales typed declared l'
        (if msize fields =? 2 then {[locale]} ∪ registered else registered)
  end.

(** Third loop: aliases name registered locales. *)
Fixpoint check_aliases (registered : gset string) (l : list (string * string))
    (aliases : gset string) : verdict (gset string) :=
  match l with
  | [] => Good aliases
  | (key, value) :: l' =>
      if negb (starts_with "locale_fallback." key) then check_aliases registered l' aliases
      else
        let alias := drop_str 16 key in
        ensure (negb (negb (Locale alias) || bool_decide (alias ∈ registered) ||
                      negb (bool_decide (value ∈ registered))))
          "locale fallback must name a registered locale";;
        check_aliases registered l' ({[alias]} ∪ aliases)
  end.

Definition MessageLocales (definition : Message) (schema : Schema) : verdict (gset string) :=
  locales ← message_fields (items definition) ∅ 0;
  let declared := dom schema in
  registered ← check_locales (has definition "template_version") declared (items locales) ∅;
  ensure (bool_decide (Get definition "default_locale" ∈ registered))
    "default locale requires title and body";;
  aliases ← check_aliases registered (items definition) ∅;
  ensure (forallb (λ alias, negb (bool_decide
            (Get definition ("locale_fallback." +:+ alias) ∈ aliases))) (elements aliases))
    "locale fallback chains and cycles are forbidden";;
  Good registered.

(** The test of [CallerArguments] on one field name: does a caller try to
    supply a display argument? *)
Definition display_argument (key : string) : bool :=
  let separator := find_char "." key in
  let row := (size key >? 1) && front_is "r" key &&
             match separator with
             | None => false
             | Some n => (1 <? Z.of_nat n) && all_of g_ascii_isdigit (substr 1 (n - 1) key)
             end in
  let property := if row then match separator with
                              | Some n => drop_str (S n) key
                              | None => key
                              end else key in
  eqs key "display_args" || starts_with "display_args." key ||
  (row && (eqs property "display_args" || starts_with "display_args." property ||
           starts_with "arg" property)).

Definition CallerArguments (request : Message) : verdict () :=
  ensure (forallb (λ field, negb (display_argument field.1)) (items request))
    "caller-supplied display arguments are forbidden".

(** The loop of [Arguments] over the schema. *)
Fixpoint bind_arguments (definition request : Message) (row : string)
    (l : list (string * Param)) (values : Message) : verdict Message :=
  match l with
  | [] => Good values
  | (name, parameter) :: l' =>
      ensure (negb (negb (eqs parameter.(source) "retention_ms") &&
                    negb (has request (row +:+ parameter.(source)))))
        "required template source field is missing";;
      let value := if eqs parameter.(source) "retention_ms"
                   then GetOr definition "retention_ms" "0"
                   else Get request (row +:+ parameter.(source)) in
      Value parameter value;;
      bind_arguments definition request row l' (<[name := value]> values)
  end.

Definition row_prefix (requirement : Z) : string := "r" +:+ to_string requirement +:+ ".".

Definition Arguments (definition request : Message) (requirement : Z)
  : verdict (Schema * Message) :=
  if (requirement >=? kMaxRequirements) || (msize request >? kMaxFields)
  then Bad "invalid template argument context"
  else
    match CallerArguments request, ParseSchema definition with
    | Good _, Good schema =>
        values ← bind_arguments definition request (row_prefix requirement) (items schema) ∅;
        Good (schema, values)
    | _, _ => Bad "invalid template argument context"
    end.

(** The loop of [Render] on the bytes from [position] on.  [full] is the
    whole template: when a brace has no match, [close + 1] wraps around to
    position 0. *)
Fixpoint render_loop (fuel : nat) (full text : string) (values : Message) (rendered : string)
  : verdict string :=
  match fuel with
  | O => Bad "rendering does not terminate"
  | S fuel' =>
      if empty text then Good rendered
      else
        let begin := find_char "{" text in
        let literal := match begin with None => text | Some n => take_str n text end in
        if size literal >? kMaxRendered - size rendered
        then Bad "rendered message limit exceeded"
        else
          let rendered := rendered +:+ literal in
          match begin with
          | None => Good rendered
          | Some n =>
              let after := drop_str (S n) text in
              let close := find_char "}" after in
              let name := match close with None => after | Some m => take_str m after end in
              match values !! name with
              | None => Bad "rendered argument missing or output too large"
              | Some value =>
                  if size value >? kMaxRendered - size rendered
                  then Bad "rendered argument missing or output too large"
                  else render_loop fuel' full
                         (match close with None => full | Some m => drop_str (S m) after end)
                         values (rendered +:+ value)
              end
          end
  end.

Definition Render (text : string) (values : Message) : verdict string :=
  render_loop (S (String.length text)) text text values "".

Definition IsPolicyField (key : string) : bool :=
  eqs key "template_version" || starts_with "parameter." key.

Definition IsDefinitionField (key : string) : bool :=
  IsPolicyField key || starts_with "locale_fallback." key.

Fixpoint check_retention (definition : Message) (l : list (string * Param)) : verdict () :=
  match l with
  | [] => Good ()
  | (_, parameter) :: l' =>
      (if eqs parameter.(source) "retention_ms"
       then Value parameter (GetOr definition "retention_ms" "0") else Good ());;
      check_retention definition l'
  end.

Definition ValidateDefinition (definition : Message) : verdict () :=
  schema ← ParseSchema definition;
  MessageLocales definition schema;;
  check_retention definition (items schema).

Definition ValidateArguments (definition request : Message) (requirement : Z) : verdict () :=
  Arguments definition request requirement;; Good ().

(** The loop of [AppendArguments] writing the argument rows. *)
Fixpoint append_rows (row : string) (values : Message) (index : Z)
    (l : list (string * Param)) (updated : Message) : Message :=
  match l with
  | [] => updated
  | (name, parameter) :: l' =>
      let prefix := row +:+ "arg" +:+ to_string index +:+ "." in
      let updated := <[prefix +:+ "name" := name]> updated in
      let updated := <[prefix +:+ "type" := parameter.(type)]> updated in
      let updated := <[prefix +:+ "value" := Get values name]> updated in
      append_rows row values (index + 1) l' updated
  end.

Definition AppendArguments (definition request : Message) (requirement : Z) (prompt : Message)
  : verdict Message :=
  '(schema, values) ← Arguments definition request requirement;
  if negb (has definition "template_version") then Good prompt
  else
    let row := row_prefix requirement in
    let updated := <[row +:+ "template_version" := "1"]> prompt in
    let updated := <[row +:+ "arg_count" := to_string (msize schema)]> updated in
    Good (append_rows row values 0 (items schema) updated).

Definition SelectLocale (definition : Message) (requested : string) : verdict string :=
  ensure (Locale requested) "invalid requested locale";;
  schema ← ParseSchema definition;
  registered ← MessageLocales definition schema;
  if bool_decide (requested ∈ registered) then Good requested
  else
    let locale := match definition !! ("locale_fallback." +:+ requested) with
                  | Some alias => alias
                  | None => if eqs requested "ko-KR" then "ko"
                            else if eqs requested "en-US" || eqs requested "en-GB" then "en"
                            else requested
                  end in
    Good (if bool_decide (locale ∈ registered) then locale
          else Get definition "default_locale").

(** The argument loop of [FormatPrompt]. *)
Fixpoint prompt_values (prompt : Message) (row : string) (indices : list Z) (values : Message)
  : verdict Message :=
  match indices with
  | [] => Good values
  | index :: indices' =>
      let prefix := row +:+ "arg" +:+ to_string index +:+ "." in
      let name := Get prompt (prefix +:+ "name") in
      let type := Get prompt (prefix +:+ "type") in
      let value := Get prompt (prefix +:+ "value") in
      ensure (negb (negb (Name name) || negb (has prompt (prefix +:+ "value")) ||
                    (negb (eqs type "integer") && negb (eqs type "string")) ||
                    (eqs type "integer" && bool_decide (Integer value = None)) ||
                    (eqs type "string" && negb (Text value kMaxString)) ||
                    has values name))
        "invalid prompt argument";;
      prompt_values prompt row indices' (<[name := value]> values)
  end.

(** The check of [FormatPrompt] on one field of the prompt. *)
Definition prompt_field (prompt : Message) (row : string) (arguments : Z) (key : string)
  : verdict () :=
  let prefix := row +:+ "arg" in
  if negb (starts_with prefix key) then Good ()
  else if eqs key (row +:+ "arg_count") && has prompt (row +:+ "template_version") then Good ()
  else
    let rest := drop_str (String.length prefix) key in
    match find_char "." rest with
    | None => Bad "unexpected prompt argument field"
    | Some n =>
        match Integer (take_str n rest) with
        | None => Bad "unexpected prompt argument field"
        | Some index =>
            ensure (negb ((index <? 0) || (index >=? arguments)))
              "unexpected prompt argument field";;
            let property := drop_str (S n) rest in
            ensure (eqs property "name" || eqs property "type" || eqs property "value")
              "unknown prompt argument property"
        end
    end.

Fixpoint prompt_fields (prompt : Message) (row : string) (arguments : Z)
    (l : list (string * string)) : verdict () :=
  match l with
  | [] => Good ()
  | (key, _) :: l' =>
      prompt_field prompt row arguments key;; prompt_fields prompt row arguments l'
  end.

Definition FormatPrompt (prompt : Message) (requirement : Z) (field : string) : verdict string :=
  match Integer (Get prompt "count") with
  | None => Bad "invalid prompt or field index"
  | Some count =>
      ensure (negb ((negb (eqs field "title") && negb (eqs field "body")) ||
                    (msize prompt >? kMaxFields) || (count <? 1) ||
                    (count >? kMaxRequirements) || (requirement >=? count)))
        "invalid prompt or field index";;
      let row := row_prefix requirement in
      placeholders ← Placeholders (Get prompt (row +:+ "title")) ∅;
      placeholders ← Placeholders (Get prompt (row +:+ "body")) placeholders;
      '(arguments, values) ←
        (if has prompt (row +:+ "template_version") then
           match Integer (Get prompt (row +:+ "arg_count")) with
           | None => Bad "unsupported prompt template schema"
           | Some arguments =>
               ensure (negb (negb (eqs (Get prompt (row +:+ "template_version")) "1") ||
                             (arguments <? 0) || (arguments >? kMaxParameters)))
                 "unsupported prompt template schema";;
               values ← prompt_values prompt row (seqZ 0 arguments) ∅;
               Good (arguments, values)
           end
         else Good (0, ∅));
      prompt_fields prompt row arguments (items prompt);;
      ensure (bool_decide (placeholders = dom values))
        "prompt placeholders and arguments differ";;
      Render (Get prompt (row +:+ field)) values
  end.
End localization.
End localization.
