(* ===== verification/Registration.v ===== *)
(** * Definition syntax (src/common/registration.cc)

    Shape and policy validation of a definition before the repository decides
    ownership, revision ordering and publication. *)
From S2P Require Import Prelude Strings Platform Message Packing Localization.
From Stdlib Require Import Ascii.

Module registration.
Section registration.
Context `{Platform}.

Definition Identifier (value : string) : bool :=
  if empty value || (size value >? 256) then false
  else all_of (λ character, g_ascii_isalnum character || bool_decide (character = "."%char) ||
                            bool_decide (character = "_"%char) ||
                            bool_decide (character = ":"%char) ||
                            bool_decide (character = "-"%char)) value.

(** [Integer(value, minimum, maximum, &output)]. *)
Definition Integer (value : string) (minimum maximum : Z) : option Z :=
  if empty value || (size value >? 20) then None
  else if negb (all_of is_digit value) then None
  else
    let (result, errno) := strtoll value in
    if negb (errno =? 0) || (result <? minimum) || (result >? maximum) then None
    else Some result.

Definition in_range (value : string) (minimum maximum : Z) : bool :=
  bool_decide (is_Some (Integer value minimum maximum)).

Definition IsDefinitionField (key : string) : bool :=
  eqs key "definition" || eqs key "package" || eqs key "app" || eqs key "enforcer" ||
  eqs key "policy_version" || eqs key "text_revision" || eqs key "level" || eqs key "modes" ||
  eqs key "default_locale" || eqs key "retention_ms" || starts_with "message." key ||
  localization.IsDefinitionField key.

(** The [do ... while] over the comma separated modes, on the bytes from
    [start] on; each iteration consumes at least one byte or stops. *)
Fixpoint modes_loop (fuel : nat) (level : Z) (rest : string) (seen : gset string)
  : verdict (gset string) :=
  match fuel with
  | O => Bad "mode scan does not terminate"
  | S fuel' =>
      let end_ := find_char "," rest in
      let mode := match end_ with None => rest | Some n => take_str n rest end in
      ensure (negb ((negb (eqs mode "ONCE") && negb (eqs mode "SESSION") &&
                     negb (eqs mode "TIMED") && negb (eqs mode "PERSISTENT")) ||
                    bool_decide (mode ∈ seen)))
        "invalid allowed grant mode";;
      let seen := {[mode]} ∪ seen in
      ensure (negb ((level =? 3) && negb (eqs mode "ONCE")))
        "level 3 permits ONCE only in initial policy";;
      match end_ with
      | None => Good seen
      | Some n => modes_loop fuel' level (drop_str (S n) rest) seen
      end
  end.

Fixpoint count_messages (l : list (string * string)) (messages : Z) : verdict Z :=
  match l with
  | [] => Good messages
  | (key, value) :: l' =>
      if negb (starts_with "message." key) then count_messages l' messages
      else
        ensure (negb ((size value >? 4096) || empty value || negb (g_utf8_validate value)))
          "invalid localized message";;
        count_messages l' (messages + 1)
  end.

Definition ValidateDefinition (definition : Message) : verdict () :=
  ensure (forallb (λ key, Identifier (Get definition key))
            ["definition"; "package"; "app"; "enforcer"; "default_locale"])
    "invalid definition identity";;
  ensure (in_range (Get definition "policy_version") 1 int32_max &&
          in_range (Get definition "text_revision") 1 int32_max)
    "invalid definition revision";;
  match Integer (Get definition "level") 0 3 with
  | None => Bad "invalid consent level"
  | Some level =>
      let modes := Get definition "modes" in
      ensure (negb (empty modes)) "allowed grant modes required";;
      modes_loop (S (String.length modes)) level modes ∅;;
      ensure (match definition !! "retention_ms" with
              | None => true
              | Some retention => in_range retention 0 86400000
              end) "retention outside policy bounds";;
      messages ← count_messages (items definition) 0;
      let prefix := "message." +:+ Get definition "default_locale" in
      ensure (negb ((messages <? 2) || (messages >? 32) ||
                    empty (Get definition (prefix +:+ ".title")) ||
                    empty (Get definition (prefix +:+ ".body"))))
        "default locale title and body required";;
      localization.ValidateDefinition definition
  end.
End registration.
End registration.
