(* ===== verification/Offline.v ===== *)
(** * Offline registrations (src/common/offline_registration.cc,
    src/common/offline_layout.hh)

    The image builder writes registration records into a spool below the
    authority directory, one file per operation, and the daemon reads them at
    startup.  A run is a function of the disk; each system call asks the
    environment [Os] whether it succeeds, fails with an [errno], or the
    process is killed there, so a run covers every error and every crash.
    A descriptor is the path it was opened with: the lifecycle lock excludes
    other writers.  Calls interrupted by a signal are retried by the code and
    are not represented. *)
From S2P Require Import Prelude Strings Platform Message Wire Packing Localization Registration.
From Stdlib Require Import Ascii.

Module offline.

(** ** offline_layout.hh *)

Definition kMaxRegistrations : Z := 128.
Definition kMaxRegistrationEntries : Z := 256.
Definition kMaxRegistrationBytes : Z := 4 * 1024 * 1024.
Definition kMaxRegistrationFileBytes : Z := 65536.
Definition kRegistrationDirectory : string := "registrations".

Definition hex_lower (c : ascii) : bool :=
  is_digit c || ((97 <=? ascii_Z c) && (ascii_Z c <=? 102)).
Definition hex_any (c : ascii) : bool :=
  hex_lower c || ((65 <=? ascii_Z c) && (ascii_Z c <=? 70)).

Definition RegistrationName (name : string) : bool :=
  if negb (size name =? 71) || negb (eqs (substr 64 7 name) ".parcel") then false
  else all_of hex_lower (take_str 64 name).

(** The loop of [PendingRegistrationName] from index [i] on. *)
Fixpoint pending_chars (i : nat) (s : string) : bool :=
  match s with
  | EmptyString => true
  | String ch s' =>
      (if bool_decide (i ∈ [8; 13; 18; 23]%nat) then bool_decide (ch = "-"%char) else hex_any ch) &&
      pending_chars (S i) s'
  end.

Definition PendingRegistrationName (name : string) : bool :=
  if negb (size name =? 45) || negb (eqs (take_str 9 name) ".pending-") then false
  else pending_chars 0 (drop_str 9 name).

(** ** The disk and the system calls *)

Inductive node :=
| NDir (st : file_stat)
| NFile (st : file_stat) (bytes : string)
| NLink.

Abbreviation path := (list string).

Abbreviation disk_tree := (@gmap path list_eq_dec list_countable node).

Record Disk := mkDisk { tree : disk_tree; clock : nat }.

Definition set_tree (t : disk_tree) (d : Disk) : Disk := mkDisk t d.(clock).

Inductive sys_result := SysOk | SysErr (errno : Z) | SysKill.

Class Os := {
  (** How the system call at an instant ends. *)
  os_next : nat → sys_result;
  (** How many bytes [write] takes. *)
  os_written : nat → nat;
  (** The order in which [readdir] lists the entries. *)
  os_order : nat → list string → list string;
  (** [g_uuid_string_random()]. *)
  os_uuid : nat → string;
  os_getuid : Z;
  os_geteuid : Z;
  os_getpid : Z;
  os_thread : Z;
  os_umask : Z;
}.

(** [readdir] lists the entries of the directory, and a call that fails for a
    reason of its own does not claim that an object is absent or present. *)
Class OsLaws `{Os} : Prop := {
  order_perm : ∀ n l, os_order n l ≡ₚ l;
  errno_real : ∀ n e, os_next n = SysErr e → e ≠ 2 ∧ e ≠ 17;
}.

Inductive fate (A : Type) := Done (a : A) | Failed (status : Z) | Killed.
Arguments Done {A} _.
Arguments Failed {A} _.
Arguments Killed {A}.

(** A run that returns, throws [Failure(status)], or is killed. *)
Definition F (A : Type) : Type := Disk → Disk * fate A.

#[export] Instance F_ret : MRet F := λ A a d, (d, Done a).
#[export] Instance F_bind : MBind F := λ A B k m d,
  match m d with
  | (d', Done a) => k a d'
  | (d', Failed s) => (d', Failed s)
  | (d', Killed) => (d', Killed)
  end.

Definition fail {A} (status : Z) : F A := λ d, (d, Failed status).

(** [try m catch (Failure status) handler]. *)
Definition try {A} (m : F A) (handler : Z → F A) : F A := λ d,
  match m d with
  | (d', Failed s) => handler s d'
  | r => r
  end.

Definition Require (condition : bool) (status : Z) : F () :=
  if condition then mret () else fail status.

Definition EPERM : Z := 1.
Definition EIO : Z := 5.
Definition EEXIST : Z := 17.
Definition ENOTDIR : Z := 20.
Definition EISDIR : Z := 21.
Definition ENAMETOOLONG : Z := 36.
Definition ELOOP : Z := 40.
Definition EDQUOT : Z := 122.

(** [SystemError] of an [errno]. *)
Definition SystemError (errno : Z) : Z :=
  if errno =? ENOENT then - ENOENT
  else if (errno =? EACCES) || (errno =? EPERM) || (errno =? ELOOP) then - EACCES
  else if (errno =? ENOSPC) || (errno =? EDQUOT) then - ENOSPC
  else if errno =? ENOMEM then - ENOMEM
  else if (errno =? EINVAL) || (errno =? ENAMETOOLONG) || (errno =? ENOTDIR) then - EINVAL
  else - EIO.

(** [RequireSystem] of a call whose [errno], if it failed, is given. *)
Definition RequireSystem (errno : option Z) : F () :=
  match errno with None => mret () | Some e => fail (SystemError e) end.

Section offline.
Context `{Os}.

(** The next system call: [None] when it succeeds. *)
Definition sys : F (option Z) := λ d,
  let d' := mkDisk d.(tree) (S d.(clock)) in
  match os_next d.(clock) with
  | SysOk => (d', Done None)
  | SysErr e => (d', Done (Some e))
  | SysKill => (d', Killed)
  end.

Definition modify (f : disk_tree → disk_tree) : F () := λ d,
  (set_tree (f d.(tree)) d, Done ()).

(** A system call that changes the disk when it succeeds. *)
Definition sys_do (f : disk_tree → disk_tree) : F (option Z) :=
  r ← sys;
  match r with
  | Some e => mret (Some e)
  | None => modify f;; mret None
  end.

Definition look (p : path) : F (option node) := λ d, (d, Done (d.(tree) !! p)).

(** [openat] without [O_CREAT]; the flag is [O_DIRECTORY]. *)
Definition openat (dir : path) (name : string) (directory : bool) : F (option Z) :=
  r ← sys;
  match r with
  | Some e => mret (Some e)
  | None =>
      n ← look (dir ++ [name]);
      mret match n with
           | None => Some ENOENT
           | Some NLink => Some ELOOP
           | Some (NFile _ _) => if directory then Some ENOTDIR else None
           | Some (NDir _) => None
           end
  end.

Definition node_stat (n : node) : option file_stat :=
  match n with NDir st => Some st | NFile st _ => Some st | NLink => None end.

(** [fstat] of an open object. *)
Definition fstat (p : path) : F (option file_stat) :=
  r ← sys;
  match r with
  | Some _ => mret None
  | None => n ← look p; mret (n ≫= node_stat)
  end.

Definition on_stat (f : file_stat → file_stat) (n : node) : node :=
  match n with NDir st => NDir (f st) | NFile st b => NFile (f st) b | NLink => NLink end.

Definition set_owner (st : file_stat) : file_stat :=
  mk_file_stat st.(st_dev) st.(st_ino) st.(st_mode) 0 st.(st_nlink) st.(st_size) st.(st_mtim_sec)
    st.(st_mtim_nsec) 0.
Definition set_mode (mode : Z) (st : file_stat) : file_stat :=
  mk_file_stat st.(st_dev) st.(st_ino) (Z.lor (Z.land st.(st_mode) 61440) mode) st.(st_uid)
    st.(st_nlink) st.(st_size) st.(st_mtim_sec) st.(st_mtim_nsec) st.(st_gid).
Definition set_size (n : Z) (st : file_stat) : file_stat :=
  mk_file_stat st.(st_dev) st.(st_ino) st.(st_mode) st.(st_uid) st.(st_nlink) n st.(st_mtim_sec)
    st.(st_mtim_nsec) st.(st_gid).

(** [fchown(fd, 0, 0) == 0 && fchmod(fd, mode) == 0]: the [errno] of the one
    that failed. *)
Definition set_metadata (p : path) (mode : Z) : F (option Z) :=
  r ← sys_do (alter (on_stat set_owner) p);
  match r with
  | Some e => mret (Some e)
  | None => sys_do (alter (on_stat (set_mode mode)) p)
  end.

Definition new_stat (type mode : Z) : file_stat :=
  mk_file_stat 0 0 (Z.lor type (Z.land mode (Z.lnot os_umask))) os_geteuid 1 0 0 0 0.

(** [mkdirat(dir, name, 0700)]. *)
Definition mkdirat (dir : path) (name : string) : F (option Z) :=
  n ← look (dir ++ [name]);
  match n with
  | Some _ => r ← sys; mret (Some (default EEXIST r))
  | None => sys_do (<[dir ++ [name] := NDir (new_stat 16384 448)]>)
  end.

(** [openat] with [O_CREAT | O_EXCL] and mode 0600. *)
Definition create_at (dir : path) (name : string) : F (option Z) :=
  n ← look (dir ++ [name]);
  match n with
  | Some _ => r ← sys; mret (Some (default EEXIST r))
  | None => sys_do (<[dir ++ [name] := NFile (new_stat 32768 384) ""]>)
  end.

Definition unlinkat (dir : path) (name : string) : F (option Z) := sys_do (delete (dir ++ [name])).

Definition rename_node (from to : path) (t : disk_tree) : disk_tree :=
  match t !! from with None => t | Some n => <[to := n]> (delete from t) end.

Definition renameat (dir : path) (from to : string) : F (option Z) :=
  sys_do (rename_node (dir ++ [from]) (dir ++ [to])).

(** ** Helpers of the source *)

Definition Sync (p : path) : F () := r ← sys; Require (bool_decide (r = None)) (- EIO).

Definition ProtectedDirectory (p : path) (private_leaf : bool) : F () :=
  st ← fstat p;
  Require match st with
          | None => false
          | Some st => S_ISDIR st.(st_mode) && (st.(st_uid) =? 0) &&
                       (Z.land st.(st_mode) (if private_leaf then 23 else 18) =? 0)
          end (- EACCES).

Definition protected_file (st : file_stat) : bool :=
  S_ISREG st.(st_mode) && (st.(st_uid) =? 0) && (st.(st_nlink) =? 1) &&
  (Z.land st.(st_mode) 3679 =? 0).

Definition ProtectedFile (p : path) : F file_stat :=
  st ← fstat p;
  match st with
  | None => fail (- EACCES)
  | Some st => Require (protected_file st) (- EACCES);; mret st
  end.

(** The loop of [Components] on the bytes from [offset] on; [None] is a
    failure with [-EINVAL]. *)
Fixpoint components_loop (fuel : nat) (rest : string) (result : list string) : option (list string) :=
  match fuel with
  | O => None
  | S fuel' =>
      if empty rest then Some result
      else
        let end_ := find_char "/" rest in
        let part := match end_ with None => rest | Some n => take_str n rest end in
        if empty part || eqs part "." || eqs part ".." || (size part >? 255) then None
        else
          let result := result ++ [part] in
          if Z.of_nat (length result) >? 128 then None
          else
            match end_ with
            | None => Some result
            | Some n =>
                let rest := drop_str (S n) rest in
                if empty rest then None else components_loop fuel' rest result
            end
  end.

Definition Components (p : string) : option (list string) :=
  if empty p || negb (front_is "/" p) || (size p >? 4096) || has_char nul p then None
  else components_loop (S (String.length p)) (drop_str 1 p) [].

Definition components (p : string) : F (list string) :=
  match Components p with None => fail (- EINVAL) | Some l => mret l end.

(** One component of [Descend]: whether the directory was created. *)
Definition enter (current : path) (component : string) (create : bool) : F bool :=
  r ← openat current component true;
  match r with
  | None => mret false
  | Some e =>
      if (e =? ENOENT) && create then
        made ← mkdirat current component;
        Require (match made with None => true | Some e => e =? EEXIST end)
          (SystemError (default 0 made));;
        r ← openat current component true;
        RequireSystem r;;
        mret (bool_decide (made = None))
      else fail (SystemError e)
  end.

Fixpoint descend_loop (current : path) (l : list string) (create : bool) : F path :=
  match l with
  | [] => mret current
  | component :: l' =>
      let last := bool_decide (l' = []) in
      let child := current ++ [component] in
      created ← enter current component create;
      ProtectedDirectory child false;;
      (if created : bool then
         r ← set_metadata child (if last then 448 else 493);
         RequireSystem r;;
         Sync child
       else mret ());;
      (if create && negb last then
         st ← fstat child;
         Require (match st with None => false | Some st => Z.land st.(st_mode) 5 =? 5 end) (- EACCES)
       else mret ());;
      (if create then Sync current else mret ());;
      descend_loop child l' create
  end.

Definition Descend (parent : path) (l : list string) (create : bool) : F path :=
  r ← sys;
  RequireSystem r;;
  ProtectedDirectory parent false;;
  descend_loop parent l create.
End offline.

(** ** Records *)

Section records.
Context `{Platform} `{Parcel}.

Definition Identifier (value : string) : bool :=
  if empty value || (size value >? 255) then false
  else all_of (λ ch, g_ascii_isalnum ch || bool_decide (ch = "."%char) ||
                     bool_decide (ch = "_"%char) || bool_decide (ch = "-"%char)) value.

Definition public_field (key : string) : bool :=
  registration.IsDefinitionField key || eqs key "operation_id" || eqs key "expected_generation".

(** The field loop of [PublicRegistration]. *)
Fixpoint public_fields (l : list (string * string)) (result : Message) : option Message :=
  match l with
  | [] => Some result
  | (key, value) :: l' =>
      if eqs key "method" then if eqs value "register" then public_fields l' result else None
      else if public_field key && ValidField key value then public_fields l' (<[key := value]> result)
      else None
  end.

(** [None] is a failure with [-EINVAL]. *)
Definition PublicRegistration (input : Message) : option Message :=
  result ← public_fields (items input) ∅;
  if Identifier (Get result "operation_id") && Identifier (Get result "expected_generation")
  then match registration.ValidateDefinition result with Good _ => Some result | Bad _ => None end
  else None.

Definition RecordName (value : Message) : string :=
  g_sha256 (Get value "operation_id") +:+ ".parcel".

Definition PayloadDigest (frame : string) : option string :=
  if size frame >? 4 then Some (g_sha256 (drop_str 4 frame)) else None.

Definition envelope_fields (value : Message) : Message :=
  <["method" := "register"]> (<["id" := "1"]> (<["v" := "1"]> value)).

(** The frame, or the status of the failure. *)
Definition RecordPayload (value : Message) : Z + string :=
  let value := envelope_fields value in
  match Encode value with
  | None => inl (- E2BIG)
  | Some canonical =>
      match PayloadDigest canonical with
      | None => inl (- EINVAL)
      | Some digest =>
          match Encode (<["offline_format" := "1"]> (<["payload_sha256" := digest]> value)) with
          | None => inl (- E2BIG)
          | Some payload => if size payload <=? kMaxRegistrationFileBytes then inr payload
                            else inl (- E2BIG)
          end
      end
  end.

(** [None] is a failure with [-EINVAL]. *)
Definition DecodeRecord (payload name : string) : option Message :=
  if (size payload <? 4) || (size payload >? kMaxRegistrationFileBytes) ||
     negb (frame_size payload =? size payload - 4) then None
  else
    value ← Decode (drop_str 4 payload);
    if negb (eqs (Get value "method") "register") || negb (eqs (Get value "id") "1") then None
    else if negb (eqs (Get value "offline_format") "1") then None
    else
      let digest := Get value "payload_sha256" in
      if negb ((size digest =? 64) && RegistrationName (digest +:+ ".parcel")) then None
      else
        let canonical := delete "payload_sha256" (delete "offline_format" value) in
        canonical_payload ← Encode canonical;
        actual ← PayloadDigest canonical_payload;
        if negb (eqs actual digest) then None
        else
          registration ← PublicRegistration (delete "method" (delete "id" (delete "v" canonical)));
          if eqs (RecordName registration) name then Some registration else None.
End records.

(** ** The spool *)

Section spool.
Context `{Platform} `{Parcel} `{Os}.

Definition content (n : option node) : string :=
  match n with Some (NFile _ bytes) => bytes | _ => "" end.

(** [ReadFile]: the bytes announced by [fstat], and nothing behind them. *)
Definition ReadFile (dir : path) (name : string) : F string :=
  r ← openat dir name false;
  RequireSystem r;;
  st ← ProtectedFile (dir ++ [name]);
  Require ((0 <=? st.(st_size)) && (st.(st_size) <=? kMaxRegistrationFileBytes)) (- E2BIG);;
  r ← (if st.(st_size) =? 0 then mret None else sys);
  n ← look (dir ++ [name]);
  let bytes := content n in
  Require (bool_decide (r = None) && (st.(st_size) <=? size bytes)) (- EIO);;
  r ← sys;
  Require (bool_decide (r = None) && (size bytes =? st.(st_size))) (- EIO);;
  mret bytes.

Record Record_ := mkRecord { rec_name : string; rec_bytes : string; rec_registration : Message }.

(** The name of an entry of a directory. *)
Definition child_name (dir p : path) : option string :=
  match last p with
  | Some name => if bool_decide (p = dir ++ [name]) then Some name else None
  | None => None
  end.

Definition children (dir : path) (t : disk_tree) : list string :=
  omap (child_name dir) (map_to_list t).*1.

Definition readdir_names (dir : path) : F (list string) := λ d,
  (d, Done (os_order d.(clock) (children dir d.(tree)))).

(** The loop of [Scan] on the names that are left. *)
Fixpoint scan_loop (dir : path) (remove_temporary : bool) (names : list string)
    (entry_count bytes : Z) (records : list Record_) (removed : bool)
  : F (list Record_ * bool) :=
  r ← sys;
  Require (bool_decide (r = None)) (- EIO);;
  match names with
  | [] => mret (records, removed)
  | name :: names' =>
      Require (entry_count + 1 <=? kMaxRegistrationEntries) (- ENOSPC);;
      let temporary := PendingRegistrationName name in
      Require (temporary || RegistrationName name) (- EINVAL);;
      payload ← ReadFile dir name;
      let bytes := bytes + size payload in
      Require (bytes <=? kMaxRegistrationBytes) (- ENOSPC);;
      if temporary then
        if remove_temporary then
          r ← unlinkat dir name;
          RequireSystem r;;
          scan_loop dir remove_temporary names' (entry_count + 1) bytes records true
        else scan_loop dir remove_temporary names' (entry_count + 1) bytes records removed
      else
        Require (Z.of_nat (length records) <? kMaxRegistrations) (- ENOSPC);;
        match DecodeRecord payload name with
        | None => fail (- EINVAL)
        | Some value =>
            scan_loop dir remove_temporary names' (entry_count + 1) bytes
              (records ++ [mkRecord name payload value]) removed
        end
  end.

Definition Scan (dir : path) (remove_temporary : bool) : F (list Record_) :=
  r ← sys;
  RequireSystem r;;
  r ← sys;
  Require (bool_decide (r = None)) (- EIO);;
  names ← readdir_names dir;
  '(records, removed) ← scan_loop dir remove_temporary names 0 0 [] false;
  (if removed : bool then Sync dir else mret ());;
  mret records.

Definition RegistrationDirectory (authority : path) (create : bool) : F (option path) :=
  let directory := authority ++ [kRegistrationDirectory] in
  created ← (if create then
               made ← mkdirat authority kRegistrationDirectory;
               Require (match made with None => true | Some e => e =? EEXIST end)
                 (SystemError (default 0 made));;
               mret (bool_decide (made = None))
             else mret false);
  r ← openat authority kRegistrationDirectory true;
  match r with
  | Some e => if (e =? ENOENT) && negb create then mret None else fail (SystemError e)
  | None =>
      ProtectedDirectory directory true;;
      (if created : bool then
         r ← set_metadata directory 448;
         RequireSystem r;;
         Sync directory
       else mret ());;
      (if create then Sync authority else mret ());;
      mret (Some directory)
  end.

(** ** The image root *)

Record ImageRoot := mkImageRoot {
  ir_directory : option path; ir_lifecycle : bool; ir_pid : Z; ir_owner : Z;
}.

(** [openat(..., O_RDWR | O_NONBLOCK | O_NOFOLLOW)]. *)
Definition open_rw (dir : path) (name : string) : F (option Z) :=
  r ← openat dir name false;
  match r with
  | Some e => mret (Some e)
  | None => n ← look (dir ++ [name]); mret match n with Some (NDir _) => Some EISDIR | _ => None end
  end.

Definition lifecycle_name : string := "lifecycle.lock".

(** The body of [ImageRoot::Open]: the authority directory, locked. *)
Definition open_root (root : ImageRoot) (image_root authority_path : string) : F path :=
  Require (bool_decide (root.(ir_directory) = None) && negb root.(ir_lifecycle)) (- EINVAL);;
  Require ((os_getuid =? 0) && (os_geteuid =? 0)) (- EACCES);;
  image_components ← components image_root;
  authority_components ← components authority_path;
  Require (negb (bool_decide (authority_components = []))) (- EINVAL);;
  r ← sys;
  RequireSystem r;;
  image ← Descend [] image_components false;
  directory ← Descend image authority_components true;
  ProtectedDirectory directory true;;
  made ← create_at directory lifecycle_name;
  r ← match made with
      | Some e => if e =? EEXIST then open_rw directory lifecycle_name else mret (Some e)
      | None => mret None
      end;
  RequireSystem r;;
  ProtectedFile (directory ++ [lifecycle_name]);;
  r ← sys;
  Require (bool_decide (r = None)) (- EBUSY);;
  (if bool_decide (made = None) then
     r ← set_metadata (directory ++ [lifecycle_name]) 384;
     RequireSystem r
   else mret ());;
  Sync (directory ++ [lifecycle_name]);;
  Sync directory;;
  mret directory.

(** [ImageRoot::Open]: the root and the status. *)
Definition Open (root : ImageRoot) (image_root authority_path : string) : F (ImageRoot * Z) :=
  try (directory ← open_root root image_root authority_path;
       mret (mkImageRoot (Some directory) true os_getpid os_thread, 0))
      (λ status, mret (root, status)).

(** ** RegistrationWriter *)

Definition append_bytes (chunk : string) (n : node) : node :=
  match n with
  | NFile st bytes => NFile (set_size (size (bytes +:+ chunk)) st) (bytes +:+ chunk)
  | n => n
  end.

(** The write loop; [write] takes at least one byte when it does not fail. *)
Fixpoint write_loop (fuel : nat) (p : path) (rest : string) : F () :=
  match fuel with
  | O => mret ()
  | S fuel' =>
      if empty rest then mret ()
      else
        n ← (λ d, (d, Done (Nat.max 1 (os_written d.(clock)))) : Disk * fate nat);
        r ← sys_do (alter (append_bytes (take_str n rest)) p);
        RequireSystem r;;
        write_loop fuel' p (drop_str n rest)
  end.

Definition spool_bytes (records : list Record_) : Z :=
  foldr (λ r acc, size r.(rec_bytes) + acc) 0 records.

(** Behind the publication a failure leaves the durability uncertain. *)
Definition published (m : F Z) : F Z := try m (λ _, mret (- EINPROGRESS)).

(** The record is already there. *)
Definition register_again (authority dir : path) (name : string) : F Z :=
  published (
    r ← openat dir name false;
    RequireSystem r;;
    ProtectedFile (dir ++ [name]);;
    Sync (dir ++ [name]);;
    Sync dir;;
    Sync authority;;
    mret 0).

(** A new record, written under a temporary name. *)
Definition register_new (authority dir : path) (name payload temporary : string) : F Z :=
  try (
    r ← create_at dir temporary;
    RequireSystem r;;
    r ← set_metadata (dir ++ [temporary]) 384;
    RequireSystem r;;
    write_loop (String.length payload) (dir ++ [temporary]) payload;;
    Sync (dir ++ [temporary]);;
    r ← sys;
    RequireSystem r;;
    r ← renameat dir temporary name;
    RequireSystem r;;
    published (Sync dir;; Sync authority;; mret 0))
  (λ status, unlinkat dir temporary;; mret status).

Definition temporary_name : F string := λ d, (d, Done (".pending-" +:+ os_uuid d.(clock))).

Definition Register (root : ImageRoot) (registration : Message) : F Z :=
  try (
    Require ((root.(ir_pid) =? os_getpid) && (root.(ir_owner) =? os_thread)) (- EINVAL);;
    Require ((os_getuid =? 0) && (os_geteuid =? 0)) (- EACCES);;
    match PublicRegistration registration, root.(ir_directory) with
    | None, _ => fail (- EINVAL)
    | Some value, None => fail (- EIO)
    | Some value, Some authority =>
        let name := RecordName value in
        match RecordPayload value with
        | inl status => fail status
        | inr payload =>
            directory ← RegistrationDirectory authority true;
            match directory with
            | None => fail (- EIO)
            | Some dir =>
                records ← Scan dir true;
                match find_row (λ r, eqs r.(rec_name) name) records with
                | Some r =>
                    Require (eqs r.(rec_bytes) payload) (- EEXIST);;
                    register_again authority dir name
                | None =>
                    Require ((Z.of_nat (length records) <? kMaxRegistrations) &&
                             (spool_bytes records + size payload <=? kMaxRegistrationBytes)) (- ENOSPC);;
                    temporary ← temporary_name;
                    register_new authority dir name payload temporary
                end
            end
        end
    end)
  (λ status, mret status).

(** ** LoadRegistrations *)

(** Lexicographic comparison by a list of comparisons. *)
Fixpoint lex_compare {A} (l : list (A → A → comparison)) (a b : A) : comparison :=
  match l with
  | [] => Eq
  | c :: l' => match c a b with Eq => lex_compare l' a b | r => r end
  end.

Definition by_field (k : string) (a b : Message) : comparison := String.compare (Get a k) (Get b k).
Definition by_number (k : string) (a b : Message) : comparison :=
  (MsgNumber a k 0 ?= MsgNumber b k 0).

Definition registration_order : list (Message → Message → comparison) :=
  [by_field "package"; by_field "app"; by_field "definition"; by_field "expected_generation";
   by_number "policy_version"; by_number "text_revision"; by_field "operation_id"].

Definition registration_le (a b : Message) : Prop := lex_compare registration_order a b ≠ Gt.

#[export] Instance registration_le_dec : RelDecision registration_le.
Proof. intros a b. unfold registration_le. solve_decision. Defined.

Definition LoadRegistrations (authority_dir : string) : F (list Message) :=
  r ← sys;
  RequireSystem r;;
  l ← components authority_dir;
  authority ← Descend [] l false;
  ProtectedDirectory authority true;;
  directory ← RegistrationDirectory authority false;
  match directory with
  | None => mret []
  | Some dir =>
      records ← Scan dir false;
      mret (merge_sort registration_le (rec_registration <$> records))
  end.
End spool.
End offline.
