(* ===== verification/OfflineSpec.v ===== *)
(** * Atomicity and order of offline registrations

    A weakest-precondition calculus for the runs of [Offline]: a run that is
    started on a disk ends with a result, with a failure or killed, and each
    of the three ends has its own condition on the disk, so what is proved of
    the third holds after a crash at any system call. *)
From S2P Require Import Prelude Strings Platform Message Wire Packing Localization Registration.
From S2P Require Import Offline.
From Stdlib Require Import Ascii.
Import offline.

Definition wp {A} (m : F A) (Q : A → disk_tree → Prop) (E : Z → disk_tree → Prop)
    (K : disk_tree → Prop) (t : disk_tree) : Prop :=
  ∀ n, match m (mkDisk t n) with
       | (d, Done a) => Q a d.(tree)
       | (d, Failed s) => E s d.(tree)
       | (d, Killed) => K d.(tree)
       end.

Section rules.
Context {A : Type}.
Implicit Types (K : disk_tree → Prop) (E : Z → disk_tree → Prop) (t : disk_tree) (s : Z) (p : path)
  (f : disk_tree → disk_tree).

Lemma wp_ret (a : A) (Q : A → disk_tree → Prop) E K t : Q a t → wp (mret a) Q E K t.
Proof. intros HQ n. exact HQ. Qed.

Lemma wp_fail s (Q : A → disk_tree → Prop) E K t : E s t → wp (fail s) Q E K t.
Proof. intros HE n. exact HE. Qed.

Lemma wp_bind {B} (m : F B) (k : B → F A) Q E K t :
  wp m (λ b, wp (k b) Q E K) E K t → wp (m ≫= k) Q E K t.
Proof.
  intros Hm n. specialize (Hm n). unfold mbind, F_bind. destruct (m _) as [[t' n'] [b|s|]]; [|done..].
  apply (Hm n').
Qed.

Lemma wp_try (m : F A) h Q E K t :
  wp m Q (λ s, wp (h s) Q E K) K t → wp (try m h) Q E K t.
Proof.
  intros Hm n. specialize (Hm n). unfold try. destruct (m _) as [[t' n'] [a|s|]]; [done| |done].
  apply (Hm n').
Qed.

Lemma wp_mono (m : F A) (Q Q' : A → disk_tree → Prop) E E' K K' t :
  wp m Q E K t → (∀ a t', Q a t' → Q' a t') → (∀ s t', E s t' → E' s t') → (∀ t', K t' → K' t') →
  wp m Q' E' K' t.
Proof. intros Hm HQ HE HK n. specialize (Hm n). destruct (m _) as [d [a|s|]]; auto. Qed.
End rules.

(** The statuses a failure may carry: neither success nor the status that
    reports a publication. *)
Definition error (s : Z) : Prop := s ≠ 0 ∧ s ≠ - EINPROGRESS.

Lemma SystemError_error e : error (SystemError e).
Proof. unfold SystemError. repeat case_match; done. Qed.

Lemma wp_Require (c : bool) (s : Z) (Q : () → disk_tree → Prop) (E : Z → disk_tree → Prop) (K : disk_tree → Prop) (t : disk_tree) :
  (c = false → E s t) → (c = true → Q () t) → wp (Require c s) Q E K t.
Proof. intros HE HQ. unfold Require. destruct c; [by apply wp_ret, HQ|by apply wp_fail, HE]. Qed.

Lemma wp_RequireSystem (e : option Z) (Q : () → disk_tree → Prop) (E : Z → disk_tree → Prop) (K : disk_tree → Prop) (t : disk_tree) :
  (∀ s, error s → E s t) → (e = None → Q () t) → wp (RequireSystem e) Q E K t.
Proof.
  intros HE HQ. unfold RequireSystem. destruct e; [apply wp_fail, HE, SystemError_error|by apply wp_ret, HQ].
Qed.

Section calls.
Context `{Os}.
Implicit Types (K : disk_tree → Prop) (E : Z → disk_tree → Prop) (t : disk_tree) (s : Z) (p : path)
  (f : disk_tree → disk_tree).

Lemma wp_sys (Q : option Z → disk_tree → Prop) E K t : K t → (∀ r, Q r t) → wp sys Q E K t.
Proof. intros HK HQ n. unfold sys. simpl. destruct (os_next n); simpl; auto. Qed.

Lemma wp_modify f (Q : () → disk_tree → Prop) E K t : Q () (f t) → wp (modify f) Q E K t.
Proof. intros HQ n. exact HQ. Qed.

Lemma wp_look p (Q : option node → disk_tree → Prop) E K t : Q (t !! p) t → wp (look p) Q E K t.
Proof. intros HQ n. exact HQ. Qed.

Lemma wp_sys_do f (Q : option Z → disk_tree → Prop) E K t :
  K t → (∀ e, Q (Some e) t) → Q None (f t) → wp (sys_do f) Q E K t.
Proof.
  intros HK HQ HN. unfold sys_do. apply wp_bind, wp_sys; [done|]. intros [e|]; [by apply wp_ret|].
  by apply wp_bind, wp_modify, wp_ret.
Qed.

(** A run that only reads the disk: its result satisfies [I]. *)
Definition reader {A} (m : F A) (I : A → disk_tree → Prop) : Prop :=
  ∀ t Q E K, K t → (∀ s, error s → E s t) → (∀ a, I a t → Q a t) → wp m Q E K t.

Lemma reader_ret {A} (a : A) : reader (mret a) (λ b _, b = a).
Proof. intros t Q E K HK HE HQ. by apply wp_ret, HQ. Qed.

Lemma reader_sys : reader sys (λ _ _, True).
Proof. intros t Q E K HK HE HQ. apply wp_sys; auto. Qed.

Lemma reader_look p : reader (look p) (λ n t, n = t !! p).
Proof. intros t Q E K HK HE HQ. by apply wp_look, HQ. Qed.

Lemma reader_Require c s : error s → reader (Require c s) (λ _ _, c = true).
Proof. intros Hs t Q E K HK HE HQ. apply wp_Require; auto. Qed.

Lemma reader_RequireSystem e : reader (RequireSystem e) (λ _ _, e = None).
Proof. intros t Q E K HK HE HQ. apply wp_RequireSystem; auto. Qed.

Lemma reader_fail {A} s : error s → reader (fail s : F A) (λ _ _, False).
Proof. intros Hs t Q E K HK HE HQ. apply wp_fail; auto. Qed.

Lemma reader_bind {A B} (m : F A) (k : A → F B) I J :
  reader m I → (∀ a, reader (k a) (λ b t, I a t → J b t)) → reader (m ≫= k) J.
Proof.
  intros Hm Hk t Q E K HK HE HQ. apply wp_bind, Hm; [done|done|]. intros a Ha.
  apply Hk; [done|done|]. auto.
Qed.

Lemma reader_weaken {A} (m : F A) I J : reader m I → (∀ a t, I a t → J a t) → reader m J.
Proof. intros Hm Hi t Q E K HK HE HQ. apply Hm; auto. Qed.

(** ** What the reading helpers establish *)

Lemma reader_openat dir name directory :
  reader (openat dir name directory) (λ r t, r = None → is_Some (t !! (dir ++ [name]))).
Proof.
  unfold openat. eapply reader_bind; [apply reader_sys|]. intros [e|]; simpl.
  - eapply reader_weaken; [apply reader_ret|]. by intros a t ->.
  - eapply reader_bind; [apply reader_look|]. intros n.
    eapply reader_weaken; [apply reader_ret|]. intros a t -> -> _ Hn. by destruct (t !! _).
Qed.

Lemma reader_fstat p :
  reader (fstat p) (λ r t, ∀ st, r = Some st → ∃ n, t !! p = Some n ∧ node_stat n = Some st).
Proof.
  unfold fstat. eapply reader_bind; [apply reader_sys|]. intros [e|]; simpl.
  - eapply reader_weaken; [apply reader_ret|]. by intros a t ->.
  - eapply reader_bind; [apply reader_look|]. intros n.
    eapply reader_weaken; [apply reader_ret|]. intros a t -> -> _ st Hst.
    apply bind_Some in Hst as (n' & Hn & Hs). eauto.
Qed.

Lemma reader_Sync p : reader (Sync p) (λ _ _, True).
Proof.
  unfold Sync. eapply reader_bind; [apply reader_sys|]. intros r.
  eapply reader_weaken; [by apply reader_Require|done].
Qed.

Lemma reader_ProtectedDirectory p b : reader (ProtectedDirectory p b) (λ _ _, True).
Proof.
  unfold ProtectedDirectory. eapply reader_bind; [apply reader_fstat|]. intros r.
  eapply reader_weaken; [by apply reader_Require|done].
Qed.

Lemma reader_ProtectedFile p :
  reader (ProtectedFile p)
    (λ st t, protected_file st = true ∧ ∃ n, t !! p = Some n ∧ node_stat n = Some st).
Proof.
  unfold ProtectedFile. eapply reader_bind; [apply reader_fstat|]. intros [st|].
  - eapply reader_bind; [by apply reader_Require|]. intros [].
    eapply reader_weaken; [apply reader_ret|]. intros a t -> Hp Hst. auto.
  - eapply reader_weaken; [by apply reader_fail|done].
Qed.

Lemma reader_ReadFile dir name :
  reader (ReadFile dir name)
    (λ b t, b = content (t !! (dir ++ [name])) ∧ is_Some (t !! (dir ++ [name])) ∧
            size b ≤ kMaxRegistrationFileBytes).
Proof.
  unfold ReadFile. eapply reader_bind; [apply reader_openat|]. intros r.
  eapply reader_bind; [apply reader_RequireSystem|]. intros [].
  eapply reader_bind; [apply reader_ProtectedFile|]. intros st.
  eapply reader_bind; [by apply reader_Require|]. intros [].
  eapply (reader_bind _ _ (λ _ _, True)).
  { destruct (_ =? 0); [eapply reader_weaken; [apply reader_ret|done]|apply reader_sys]. }
  intros r'. eapply reader_bind; [apply reader_look|]. intros n.
  eapply reader_bind; [by apply reader_Require|]. intros [].
  eapply reader_bind; [apply reader_sys|]. intros r2.
  eapply reader_bind; [by apply reader_Require|]. intros [].
  eapply reader_weaken; [apply reader_ret|].
  intros b t -> Hsz _ _ -> _ Hmax (_ & n' & Hn & _) _ Hr. bool_hyps. split_and!; [done|eauto|lia].
Qed.
End calls.

(** ** Names *)

Lemma pending_not_registration name :
  PendingRegistrationName name = true → RegistrationName name = false.
Proof.
  unfold PendingRegistrationName, RegistrationName. destruct (size name =? 45) eqn:Hs; [|done].
  apply Z.eqb_eq in Hs. by rewrite Hs.
Qed.

Lemma child_name_Some dir p name : child_name dir p = Some name ↔ p = dir ++ [name].
Proof.
  unfold child_name. split.
  - destruct (last p) as [n|]; [|done]. case_bool_decide as Hp; [|done]. intros [= ->]. done.
  - intros ->. rewrite last_snoc. by rewrite bool_decide_eq_true_2.
Qed.

Lemma elem_of_children dir (t : disk_tree) name : name ∈ children dir t ↔ is_Some (t !! (dir ++ [name])).
Proof.
  unfold children. rewrite list_elem_of_omap. split.
  - intros (p & Hp & ->%child_name_Some). apply list_elem_of_fmap in Hp as ([q n] & -> & Hq).
    apply elem_of_map_to_list in Hq. simpl. eauto.
  - intros [n Hn]. exists (dir ++ [name]). split; [|by apply child_name_Some].
    apply list_elem_of_fmap. exists (dir ++ [name], n). split; [done|]. by apply elem_of_map_to_list.
Qed.

Lemma NoDup_omap_inj {A B} (f : A → option B) (l : list A) :
  (∀ x y b, f x = Some b → f y = Some b → x = y) → NoDup l → NoDup (omap f l).
Proof.
  intros Hf. induction 1 as [|x l Hx Hl IH]; [constructor|]. simpl. destruct (f x) as [b|] eqn:Hb; [|done].
  constructor; [|done]. intros (y & Hy & Hyb)%list_elem_of_omap. by rewrite (Hf x y b) in Hx.
Qed.

Lemma NoDup_children dir (t : disk_tree) : NoDup (children dir t).
Proof.
  apply NoDup_omap_inj; [|apply NoDup_fst_map_to_list].
  intros x y b ->%child_name_Some ->%child_name_Some. done.
Qed.

(** ** Scan *)

Section scan.
Context `{Platform} `{Parcel} `{Os} `{!OsLaws}.
Implicit Types (K : disk_tree → Prop) (E : Z → disk_tree → Prop) (t : disk_tree) (dir : path).

(** Nothing but interrupted writes was removed. *)
Definition scanned dir (t0 t : disk_tree) : Prop :=
  ∀ p, (∀ n, PendingRegistrationName n = true → p ≠ dir ++ [n]) → t !! p = t0 !! p.

(** The record that an entry holds. *)
Definition decoded dir (t0 : disk_tree) (name : string) (r : Record_) : Prop :=
  r.(rec_name) = name ∧ r.(rec_bytes) = content (t0 !! (dir ++ [name])) ∧
  DecodeRecord r.(rec_bytes) name = Some r.(rec_registration).

Definition entry_name (name : string) : Prop :=
  PendingRegistrationName name = true ∨ RegistrationName name = true.

Definition settled_names (names : list string) : list string :=
  filter (λ n, PendingRegistrationName n = false) names.

Lemma scanned_delete dir t0 t name :
  PendingRegistrationName name = true → scanned dir t0 t → scanned dir t0 (delete (dir ++ [name]) t).
Proof. intros Hp Hs p Hn. rewrite lookup_delete_ne; [by apply Hs|]. intros Heq. by apply (Hn name). Qed.

Lemma scanned_at dir t0 t name :
  PendingRegistrationName name = false → scanned dir t0 t → t !! (dir ++ [name]) = t0 !! (dir ++ [name]).
Proof. intros Hp Hs. apply Hs. intros n Hn Heq. apply app_inj_tail in Heq as [_ ->]. congruence. Qed.

(** The disk during a scan. *)
Definition scans (rm : bool) dir (t0 t : disk_tree) : Prop := scanned dir t0 t ∧ (rm = false → t = t0).

Lemma wp_scan_loop dir rm t0 names count bytes records removed t Q E K :
  (∀ t', scans rm dir t0 t' → K t') → (∀ s t', error s → scans rm dir t0 t' → E s t') →
  (∀ new rem t', scans rm dir t0 t' → Forall2 (decoded dir t0) (settled_names names) new →
     Forall entry_name names → Q (records ++ new, rem) t') →
  scans rm dir t0 t →
  wp (scan_loop dir rm names count bytes records removed) Q E K t.
Proof.
  intros HK HE. revert count bytes records removed t Q. induction names as [|name names IH];
    intros count bytes records removed t Q HQ Hs; cbn [scan_loop];
    apply wp_bind, reader_sys; auto; intros r _; apply wp_bind, reader_Require; auto; try done; intros [] _.
  - apply wp_ret. replace records with (records ++ []) by apply app_nil_r. by apply HQ.
  - apply wp_bind, reader_Require; auto; [done|]. intros [] _.
    apply wp_bind, reader_Require; auto; [done|]. intros [] Hname.
    apply wp_bind, reader_ReadFile; auto. intros b (-> & Hsome & _).
    apply wp_bind, reader_Require; auto; [done|]. intros [] _.
    assert (Hentry : entry_name name) by (unfold entry_name; by apply orb_true_iff).
    destruct (PendingRegistrationName name) eqn:Hp.
    + assert (Hset : settled_names (name :: names) = settled_names names).
      { unfold settled_names. rewrite filter_cons_False; [done|congruence]. }
      rewrite Hset in HQ. destruct rm; [|by apply IH; auto].
      assert (Hs' : scans true dir t0 (delete (dir ++ [name]) t)) by (split; [by apply scanned_delete, Hs|done]).
      apply wp_bind, wp_sys_do; [by apply HK| |].
      * intros e. apply wp_bind, wp_RequireSystem; [|done]. auto.
      * apply wp_bind, wp_RequireSystem; [auto|]. intros _. apply IH; auto.
    + apply wp_bind, reader_Require; auto; [done|]. intros [] _.
      destruct (DecodeRecord _ name) as [v|] eqn:Hd; [|apply wp_fail; by apply HE].
      rewrite (scanned_at dir t0 t) in * by (done || apply Hs).
      apply IH; [|done]. intros new rem t' Hs' Hnew Hall. rewrite <- app_assoc. apply HQ; auto.
      unfold settled_names. rewrite filter_cons_True by done. constructor; [|done]. done.
Qed.

(** What a scan has found. *)
Definition found dir (t : disk_tree) (records : list Record_) : Prop :=
  ∃ names, names ≡ₚ children dir t ∧ Forall entry_name names ∧
    Forall2 (decoded dir t) (settled_names names) records.

Lemma wp_Scan dir rm t Q E K :
  (∀ t', scans rm dir t t' → K t') → (∀ s t', error s → scans rm dir t t' → E s t') →
  (∀ records t', scans rm dir t t' → found dir t records → Q records t') →
  wp (Scan dir rm) Q E K t.
Proof.
  intros HK HE HQ. assert (Hr : scans rm dir t t) by done. unfold Scan.
  apply wp_bind, reader_sys; auto. intros r _. apply wp_bind, reader_RequireSystem; auto. intros [] _.
  apply wp_bind, reader_sys; auto. intros r' _. apply wp_bind, reader_Require; auto; [done|]. intros [] _.
  apply wp_bind. intros n. unfold readdir_names. simpl. intros n'.
  apply (wp_bind (scan_loop dir rm (os_order n (children dir t)) 0 0 [] false)).
  apply (wp_scan_loop dir rm t); [done|done| |done]. intros new rem t' Hs Hnew Hall. simpl.
  assert (HQ' : Q new t').
  { apply HQ; [done|]. exists (os_order n (children dir t)). split_and!; [apply order_perm|done|done]. }
  apply wp_bind. destruct rem; [apply reader_Sync; auto; intros [] _|apply wp_ret]; by apply wp_ret.
Qed.

Lemma reader_Scan dir : reader (Scan dir false) (λ records t, found dir t records).
Proof.
  intros t Q E K HK HE HQ. apply wp_Scan.
  - intros t' [_ ->]; done.
  - intros s t' Hs [_ ->]; auto.
  - intros records t' [_ ->]; auto.
Qed.
End scan.

(** ** Publishing a record *)

Section publish.
Context `{Os}.
Implicit Types (K : disk_tree → Prop) (E : Z → disk_tree → Prop) (t : disk_tree) (dir : path).

(** Only one path has changed. *)
Definition only_at (p : path) (t0 t : disk_tree) : Prop := ∀ q, q ≠ p → t !! q = t0 !! q.

Lemma only_at_alter p f t0 t : only_at p t0 t → only_at p t0 (alter f p t).
Proof. intros Ht q Hq. rewrite lookup_alter_ne by done. by apply Ht. Qed.

Lemma only_at_insert p n t0 t : only_at p t0 t → only_at p t0 (<[p := n]> t).
Proof. intros Ht q Hq. rewrite lookup_insert_ne by done. by apply Ht. Qed.

Lemma only_at_delete p t0 t : only_at p t0 t → only_at p t0 (delete p t).
Proof. intros Ht q Hq. rewrite lookup_delete_ne by done. by apply Ht. Qed.

(** A file under construction. *)
Definition holds (p : path) (bytes : string) (t0 t : disk_tree) : Prop :=
  only_at p t0 t ∧ ∃ st, t !! p = Some (NFile st bytes).

Lemma holds_stat p bytes f t0 t : holds p bytes t0 t → holds p bytes t0 (alter (on_stat f) p t).
Proof.
  intros [Ho [st Hst]]. split; [by apply only_at_alter|]. rewrite lookup_alter_eq, Hst. simpl. eauto.
Qed.

Lemma holds_append p bytes chunk t0 t :
  holds p bytes t0 t → holds p (bytes +:+ chunk) t0 (alter (append_bytes chunk) p t).
Proof.
  intros [Ho [st Hst]]. split; [by apply only_at_alter|]. rewrite lookup_alter_eq, Hst. simpl. eauto.
Qed.

Lemma wp_set_metadata (J : disk_tree → Prop) p mode t (Q : option Z → disk_tree → Prop) E K :
  (∀ f t', J t' → J (alter (on_stat f) p t')) → (∀ t', J t' → K t') → (∀ r t', J t' → Q r t') →
  J t → wp (set_metadata p mode) Q E K t.
Proof.
  intros HJ HK HQ Ht. unfold set_metadata. apply wp_bind, wp_sys_do; [by apply HK|intros e; by apply wp_ret, HQ|].
  apply wp_sys_do; [by apply HK, HJ|intros e; by apply HQ, HJ|]. by apply HQ, HJ, HJ.
Qed.

Lemma wp_write_loop (J : string → disk_tree → Prop) fuel p rest bytes t (Q : () → disk_tree → Prop) E K :
  (∀ b chunk t', J b t' → J (b +:+ chunk) (alter (append_bytes chunk) p t')) →
  (∀ b t', J b t' → K t') → (∀ s b t', error s → J b t' → E s t') →
  (∀ t', J (bytes +:+ rest) t' → Q () t') →
  (String.length rest ≤ fuel)%nat → J bytes t → wp (write_loop fuel p rest) Q E K t.
Proof.
  intros HJ HK HE. revert rest bytes t. induction fuel as [|fuel IH]; intros rest bytes t HQ Hf Ht; cbn [write_loop].
  { destruct rest; [|simpl in Hf; lia]. apply wp_ret, HQ. by rewrite app_nil_r_s. }
  destruct (empty rest) eqn:He.
  { apply empty_true in He as ->. apply wp_ret, HQ. by rewrite app_nil_r_s. }
  apply wp_bind. intros n. simpl. set (k := Nat.max 1 _). apply (wp_bind (sys_do _)).
  apply wp_sys_do; [by eapply HK| |].
  - intros e. apply wp_bind, wp_RequireSystem; [|done]. intros s Hs. by eapply HE.
  - apply wp_bind, wp_RequireSystem; [intros s Hs; eapply HE; [done|by apply HJ]|]. intros _.
    apply IH with (bytes := bytes +:+ take_str k rest); [| |by apply HJ].
    + intros t' Ht'. apply HQ. by rewrite app_assoc_s, take_drop_str in Ht'.
    + rewrite length_drop_str. unfold k. apply empty_false in He. destruct rest; [done|]. simpl in *. lia.
Qed.

Lemma wp_RequireSystem_ok (Q : () → disk_tree → Prop) E K t : Q () t → wp (RequireSystem None) Q E K t.
Proof. intros HQ. by apply wp_ret. Qed.

(** The record is in place; nothing else but the temporary file changed. *)
Definition placed (tmp dst : path) (payload : string) (t0 t : disk_tree) : Prop :=
  (∀ q, q ≠ tmp → q ≠ dst → t !! q = t0 !! q) ∧ ∃ st, t !! dst = Some (NFile st payload).

Lemma holds_rename tmp dst payload t0 t :
  tmp ≠ dst → holds tmp payload t0 t → placed tmp dst payload t0 (rename_node tmp dst t).
Proof.
  intros Hne [Ho [st Hst]]. unfold rename_node. rewrite Hst. split.
  - intros q Hq Hd. rewrite lookup_insert_ne, lookup_delete_ne by done. by apply Ho.
  - exists st. by rewrite lookup_insert_eq.
Qed.

Lemma wp_published m (Q : Z → disk_tree → Prop) E K t :
  reader m (λ s _, s = 0) → K t → Q 0 t → Q (- EINPROGRESS) t → wp (published m) Q E K t.
Proof.
  intros Hm HK H0 H1. apply wp_try, Hm; [done| |].
  - intros s _. by apply wp_ret.
  - by intros a ->.
Qed.

Lemma reader_syncs (p q : path) : reader (Sync p;; Sync q;; mret 0) (λ s _, s = 0).
Proof.
  eapply reader_bind; [apply reader_Sync|]. intros []. eapply reader_bind; [apply reader_Sync|]. intros [].
  eapply reader_weaken; [apply reader_ret|done].
Qed.

Lemma wp_register_again authority dir name t (Q : Z → disk_tree → Prop) E K :
  K t → Q 0 t → Q (- EINPROGRESS) t → wp (register_again authority dir name) Q E K t.
Proof.
  apply wp_published. eapply reader_bind; [apply reader_openat|]. intros r.
  eapply reader_bind; [apply reader_RequireSystem|]. intros [].
  eapply reader_bind; [apply reader_ProtectedFile|]. intros st.
  eapply reader_bind; [apply reader_Sync|]. intros []. eapply reader_weaken; [apply reader_syncs|done].
Qed.

Lemma wp_register_new authority dir name payload temporary t Q E K :
  let tmp : path := dir ++ [temporary] in
  let dst : path := dir ++ [name] in
  tmp ≠ dst →
  (∀ t', only_at tmp t t' → K t') → (∀ t', placed tmp dst payload t t' → K t') →
  (∀ s t', error s → only_at tmp t t' → Q s t') →
  (∀ t', placed tmp dst payload t t' → Q 0 t' ∧ Q (- EINPROGRESS) t') →
  wp (register_new authority dir name payload temporary) Q E K t.
Proof.
  intros tmp dst Hne HK HK' HE HQ. unfold register_new. fold tmp dst.
  assert (Hho : ∀ b t', holds tmp b t t' → only_at tmp t t') by (by intros b t' [? _]).
  assert (Hstop : ∀ s t', error s → only_at tmp t t' →
    wp (unlinkat dir temporary;; mret s) Q E K t').
  { intros s t' Hs Ht. apply wp_bind, wp_sys_do; [by apply HK|intros e; apply wp_ret; by apply HE|].
    apply wp_ret, HE; [done|by apply only_at_delete]. }
  apply wp_try, wp_bind. unfold create_at. apply wp_bind, wp_look. fold tmp.
  assert (Hsame : only_at tmp t t) by done.
  destruct (t !! tmp) as [n|] eqn:Hn.
  { cbv beta iota. apply wp_bind, wp_sys; [by apply HK|]. intros r. apply wp_ret.
    apply wp_bind, wp_RequireSystem; [|done]. intros s Hs. by apply Hstop. }
  cbv beta iota.
  apply wp_sys_do; [by apply HK| |].
  { intros e. apply wp_bind, wp_RequireSystem; [|done]. intros s Hs. by apply Hstop. }
  assert (Hnew : holds tmp "" t (<[tmp := NFile (new_stat 32768 384) ""]> t)).
  { split; [by apply only_at_insert|]. rewrite lookup_insert_eq. eauto. }
  apply wp_bind, wp_RequireSystem_ok, wp_bind. eapply (wp_set_metadata (holds tmp "" t));
    [intros f t' Ht'; by apply holds_stat|by eauto| |exact Hnew]. intros r t1 Ht1.
  apply wp_bind, wp_RequireSystem; [intros s Hs; apply Hstop; [done|by eapply Hho]|]. intros _.
  apply wp_bind. eapply (wp_write_loop (λ b t', holds tmp b t t') _ tmp payload "");
    [intros; by apply holds_append|by eauto| | |done|exact Ht1].
  { intros s b t' Hs Ht'. apply Hstop; [done|by eapply Hho]. }
  intros t2 Ht2. rewrite app_nil_s in Ht2. pose proof (Hho _ _ Ht2) as Ho2.
  apply wp_bind, reader_Sync; [by apply HK|intros s Hs; by apply Hstop|]. intros [] _.
  apply wp_bind, reader_sys; [by apply HK|intros s Hs; by apply Hstop|]. intros r' _.
  apply wp_bind, reader_RequireSystem; [by apply HK|intros s Hs; by apply Hstop|]. intros [] _.
  apply wp_bind, wp_sys_do; [by apply HK| |].
  { intros e. apply wp_bind, wp_RequireSystem; [|done]. intros s Hs. by apply Hstop. }
  pose proof (holds_rename tmp dst payload t t2 Hne Ht2) as Hp.
  apply wp_bind, wp_RequireSystem_ok, wp_published; [apply reader_syncs|by apply HK'|by apply HQ..].
Qed.

(** The spool directory exists; only it may be new. *)
Definition made (dir : path) (t0 t : disk_tree) : Prop :=
  only_at dir t0 t ∧ (is_Some (t0 !! dir) → t = t0).

Lemma wp_RegistrationDirectory authority t (Q : option path → disk_tree → Prop) E K :
  let dir : path := authority ++ [kRegistrationDirectory] in
  (∀ t', made dir t t' → K t') → (∀ s t', error s → made dir t t' → E s t') →
  (∀ t', made dir t t' → is_Some (t' !! dir) → Q (Some dir) t') →
  wp (RegistrationDirectory authority true) Q E K t.
Proof.
  intros dir HK HE HQ. assert (Hsame : made dir t t) by done. unfold RegistrationDirectory. fold dir.
  assert (Hrest : ∀ (created : bool) t', made dir t t' → (created = true → t !! dir = None) →
    wp (r ← openat authority kRegistrationDirectory true;
        match r with
        | Some e => if (e =? ENOENT) && negb true then mret None else fail (SystemError e)
        | None =>
            ProtectedDirectory dir true;;
            (if created then
               r ← set_metadata dir 448;
               RequireSystem r;;
               Sync dir
             else mret ());;
            Sync authority;;
            mret (Some dir)
        end) Q E K t').
  { intros created t' Hm Hc. apply wp_bind, reader_openat; auto. intros [e|] Hdir.
    { rewrite andb_false_r. apply wp_fail, HE; [apply SystemError_error|done]. }
    specialize (Hdir eq_refl). fold dir in Hdir.
    apply wp_bind, reader_ProtectedDirectory; auto. intros [] _. apply wp_bind.
    assert (Hend : ∀ t'', made dir t t'' ∧ is_Some (t'' !! dir) → wp (Sync authority;; mret (Some dir)) Q E K t'').
    { intros t'' [Hm'' Hd'']. apply wp_bind, reader_Sync; auto. intros [] _. apply wp_ret. auto. }
    destruct created; [|apply wp_ret; by apply Hend].
    assert (HJ : ∀ f t'', made dir t t'' ∧ is_Some (t'' !! dir) →
      made dir t (alter (on_stat f) dir t'') ∧ is_Some (alter (on_stat f) dir t'' !! dir)).
    { intros f t'' [[Ho _] [n Hn]]. split; [split; [by apply only_at_alter|]|].
      - rewrite Hc by done. by intros [].
      - rewrite lookup_alter_eq, Hn. simpl. eauto. }
    apply wp_bind. eapply (wp_set_metadata (λ t'', made dir t t'' ∧ is_Some (t'' !! dir)));
      [exact HJ|by intros t'' [? _]; apply HK| |done]. intros r t2 Hm2.
    apply wp_bind, wp_RequireSystem; [intros; by apply HE, Hm2|]. intros _.
    apply reader_Sync; [by apply HK, Hm2|intros; by apply HE, Hm2|]. intros [] _. by apply Hend. }
  apply wp_bind, wp_bind. unfold mkdirat. apply wp_bind, wp_look. fold dir.
  destruct (t !! dir) as [n|] eqn:Hn; cbv beta iota.
  - apply wp_bind, wp_sys; [by apply HK|]. intros r. apply wp_ret.
    apply wp_bind, wp_Require; [intros _; apply HE; [apply SystemError_error|done]|]. intros _.
    apply wp_ret. cbv beta. by apply Hrest.
  - assert (Hm1 : made dir t (<[dir := NDir (new_stat 16384 448)]> t)).
    { split; [by apply only_at_insert|]. rewrite Hn. by intros []. }
    apply wp_sys_do; [by apply HK| |].
    + intros e. apply wp_bind, wp_Require; [intros _; apply HE; [apply SystemError_error|done]|]. intros _.
      apply wp_ret. cbv beta. by apply Hrest.
    + apply wp_bind, wp_Require; [done|]. intros _. apply wp_ret. cbv beta. by apply Hrest.
Qed.
End publish.

(** ** Records *)

(** Documented behaviour of the checksum: 64 lowercase hexadecimal digits. *)
Class ChecksumLaws `{Platform} : Prop := {
  sha256_size : ∀ s, size (g_sha256 s) = 64;
  sha256_hex : ∀ s, all_of hex_lower (g_sha256 s) = true;
}.

Section records.
Context `{Platform} `{!ChecksumLaws} `{!Parcel} `{!ParcelLaws}.

Lemma digest_name s : RegistrationName (g_sha256 s +:+ ".parcel") = true.
Proof.
  pose proof (sha256_size s) as Hs. unfold RegistrationName, substr. rewrite size_app, Hs.
  rewrite (drop_str_size 64), (take_str_size 64) by done. by rewrite sha256_hex.
Qed.

Lemma RecordName_name v : RegistrationName (RecordName v) = true.
Proof. apply digest_name. Qed.

Lemma temporary_not_name uuid : RegistrationName (".pending-" +:+ uuid) = false.
Proof. unfold RegistrationName. by destruct (_ || _). Qed.

(** [PublicRegistration] keeps the public fields and drops the method. *)
Definition public (m : Message) : Prop :=
  ∀ k v, m !! k = Some v → public_field k = true ∧ ValidField k v = true ∧ k ≠ "method".

Lemma public_fields_Some l (result r : Message) :
  public_fields l result = Some r → public result → public r.
Proof.
  revert result. induction l as [|[k v] l IH]; intros result; simpl; [by intros [= ->]|].
  destruct (eqs k "method") eqn:Hk; [destruct (eqs v "register"); [apply IH|done]|].
  destruct (_ && _) eqn:Hv; [|done]. intros Hr Hp. eapply IH; [exact Hr|]. bool_hyps. apply eqs_false in Hk.
  intros k' v' [[<- <-]|[_ Hl]]%lookup_insert_Some; [done|by apply Hp].
Qed.

Lemma public_fields_all l (result : Message) :
  NoDup l.*1 → (∀ k v, (k, v) ∈ l → public_field k = true ∧ ValidField k v = true ∧ k ≠ "method") →
  (∀ k, k ∈ l.*1 → result !! k = None) →
  public_fields l result = Some (list_to_map l ∪ result).
Proof.
  revert result. induction l as [|[k v] l IH]; intros result Hnd Hp Hr; simpl.
  { by rewrite (left_id_L ∅ (∪)). }
  destruct (Hp k v) as (Hk & Hv & Hm); [apply list_elem_of_here|]. apply eqs_false in Hm.
  rewrite Hm, Hk, Hv. cbn [andb]. apply NoDup_cons in Hnd as [Hnk Hnd].
  rewrite IH; [|done| |].
  - f_equal. rewrite <- insert_union_l, <- insert_union_r; [done|]. by apply not_elem_of_list_to_map_1.
  - intros k' v' Hin. apply Hp. by apply list_elem_of_further.
  - intros k' Hk'. rewrite lookup_insert_ne; [|by intros ->]. apply Hr. by apply list_elem_of_further.
Qed.

Lemma public_fields_items m : public m → public_fields (items m) ∅ = Some m.
Proof.
  intros Hp. rewrite public_fields_all; [by rewrite (right_id_L ∅ (∪)), list_to_map_items|apply items_NoDup| |done].
  intros k v Hin%elem_of_items. by apply Hp.
Qed.

Lemma PublicRegistration_public m v : PublicRegistration m = Some v → public v.
Proof.
  unfold PublicRegistration. intros Hv. apply bind_Some in Hv as (r & Hr & Hv).
  destruct (_ && _); [|done]. destruct (registration.ValidateDefinition r); [|done]. injection Hv as <-.
  eapply public_fields_Some; [exact Hr|]. by intros k' v' Hl%lookup_empty_Some.
Qed.

Lemma PublicRegistration_idem m v : PublicRegistration m = Some v → PublicRegistration v = Some v.
Proof.
  intros Hv. pose proof (PublicRegistration_public m v Hv) as Hp. unfold PublicRegistration in *.
  apply bind_Some in Hv as (r & Hr & Hv). destruct (_ && _) eqn:Hi; [|done].
  destruct (registration.ValidateDefinition r) eqn:Hd; [|done]. injection Hv as ->.
  rewrite public_fields_items by done. simpl. by rewrite Hi, Hd.
Qed.

Lemma not_public k : public_field k = false → ∀ m, public m → m !! k = None.
Proof. intros Hk m Hm. destruct (m !! k) as [v|] eqn:Hv; [|done]. apply Hm in Hv as [Hv _]. congruence. Qed.

Lemma canonical_envelope (x : Message) :
  x !! "id" = Some "1" → Get x "method" = "register" → canonical x = x.
Proof.
  intros Hid Hm. unfold canonical. rewrite Hm. unfold MsgNumber. rewrite (Get_lookup x "id" "1" Hid).
  change (method_kind "register" =? 2) with false. cbv iota. by apply insert_id.
Qed.

(** The body of an encoded message with a canonical [id]. *)
Lemma record_body (x : Message) payload :
  x !! "id" = Some "1" → Get x "method" = "register" → Encode x = Some payload →
  4 < size payload ∧ frame_size payload = size payload - 4 ∧ Decode (drop_str 4 payload) = Some x.
Proof.
  intros Hid Hm He. destruct (Decode_frame x payload He) as (body & Hf & Hfs & _ & Hd).
  rewrite (canonical_envelope x Hid Hm) in Hd.
  assert (0 < size body).
  { unfold Decode in Hd. destruct ((size body <? 29) || _) eqn:Hlow in Hd; [done|lia]. }
  rewrite Hfs, Hf, size_app. change (size (frame_header (size body))) with 4.
  split_and!; [lia|lia|]. by rewrite (drop_str_size 4).
Qed.

Definition record_fields (v : Message) (digest : string) : Message :=
  <["offline_format" := "1"]> (<["payload_sha256" := digest]> (envelope_fields v)).

Lemma RecordPayload_inr v payload :
  RecordPayload v = inr payload →
  ∃ c, Encode (envelope_fields v) = Some c ∧
    Encode (record_fields v (g_sha256 (drop_str 4 c))) = Some payload ∧
    4 < size c ∧ size payload ≤ kMaxRegistrationFileBytes.
Proof.
  unfold RecordPayload. destruct (Encode (envelope_fields v)) as [c|]; [|done]. unfold PayloadDigest.
  destruct (size c >? 4) eqn:Hc; [|done]. destruct (Encode _) as [p|] eqn:Hp; [|done].
  destruct (size p <=? _) eqn:Hs; [|done]. intros [= <-]. exists c. split_and!; [done|done|lia|lia].
Qed.

Lemma record_fields_keys v digest :
  record_fields v digest !! "id" = Some "1" ∧ record_fields v digest !! "method" = Some "register" ∧
  record_fields v digest !! "offline_format" = Some "1" ∧
  record_fields v digest !! "payload_sha256" = Some digest.
Proof. unfold record_fields, envelope_fields. by simplify_map_eq. Qed.

Lemma record_fields_canonical v digest :
  public v → delete "payload_sha256" (delete "offline_format" (record_fields v digest)) = envelope_fields v.
Proof.
  intros Hpub. unfold record_fields. rewrite delete_insert_id, delete_insert_id; [done|..];
    unfold envelope_fields; simplify_map_eq; by apply not_public.
Qed.

Lemma envelope_fields_value v :
  public v → delete "method" (delete "id" (delete "v" (envelope_fields v))) = v.
Proof.
  intros Hpub. apply map_eq. intros k. unfold envelope_fields.
  destruct (decide (k ∈ ["method"; "id"; "v"])) as [Hk|Hk].
  - rewrite !elem_of_cons in Hk. destruct Hk as [->|[->|[->|Hk]]]; [..|by apply elem_of_nil in Hk];
      simplify_map_eq; by rewrite not_public.
  - rewrite !not_elem_of_cons in Hk. destruct Hk as (? & ? & ? & _). by simplify_map_eq.
Qed.

Lemma record_decodes m v payload :
  PublicRegistration m = Some v → RecordPayload v = inr payload →
  DecodeRecord payload (RecordName v) = Some v.
Proof.
  intros Hv (c & Hc & Hp & Hsc & Hsp)%RecordPayload_inr. pose proof (PublicRegistration_public m v Hv) as Hpub.
  set (digest := g_sha256 (drop_str 4 c)) in *.
  destruct (record_fields_keys v digest) as (Hid & Hm & Hof & Hpd).
  apply Get_lookup in Hm as Hm'. apply Get_lookup in Hof, Hpd. apply Get_lookup in Hid as Hid'.
  destruct (record_body _ payload Hid Hm' Hp) as (Hs & Hf & Hd).
  unfold DecodeRecord. rewrite Hf, Hd.
  assert ((size payload <? 4) || (size payload >? kMaxRegistrationFileBytes) ||
    negb (size payload - 4 =? size payload - 4) = false) as -> by lia.
  cbn [mbind option_bind]. rewrite Hm', Hid', Hof, Hpd, record_fields_canonical, Hc by done.
  cbn [mbind option_bind]. unfold PayloadDigest, digest. rewrite digest_name, sha256_size.
  assert ((size c >? 4) = true) as -> by lia. cbn [mbind option_bind]. rewrite !eqs_refl.
  cbn [negb andb orb Z.eqb Pos.eqb].
  rewrite envelope_fields_value, (PublicRegistration_idem m v Hv) by done.
  cbn [mbind option_bind]. by rewrite eqs_refl.
Qed.
End records.

(** ** Register *)

(** The paths that a registration leaves alone: all but the spool directory
    itself and its entries that are not records. *)
Definition untouched (dir p : path) : Prop :=
  p ≠ dir ∧ ∀ n, RegistrationName n = false → p ≠ dir ++ [n].

(** Every record, and everything outside of the spool, is as it was. *)
Definition kept (dir : path) (t0 t : disk_tree) : Prop := ∀ p, untouched dir p → t !! p = t0 !! p.

(** One record is complete, all other records and everything outside of the
    spool are as they were; the record was not there before, or was the same. *)
Definition stored (dir : path) (name payload : string) (t0 t : disk_tree) : Prop :=
  (∀ p, untouched dir p → p ≠ dir ++ [name] → t !! p = t0 !! p) ∧
  is_Some (t !! dir) ∧ (∃ st, t !! (dir ++ [name]) = Some (NFile st payload)) ∧
  (t0 !! (dir ++ [name]) = None ∨ t0 !! (dir ++ [name]) = t !! (dir ++ [name])).

Lemma dir_entry dir (name : string) : dir ≠ dir ++ [name].
Proof. intros Heq. apply (f_equal length) in Heq. rewrite length_app in Heq. simpl in Heq. lia. Qed.

Lemma untouched_record dir name : RegistrationName name = true → untouched dir (dir ++ [name]).
Proof.
  intros Hn. split.
  - intros Heq. by apply (dir_entry dir name).
  - intros n Hf Heq. apply app_inj_tail in Heq as [_ ->]. congruence.
Qed.

Lemma made_kept dir t0 t : made dir t0 t → kept dir t0 t.
Proof. intros [Ho _] p [Hp _]. by apply Ho. Qed.

Lemma kept_scanned dir t0 t t' : kept dir t0 t → scanned dir t t' → kept dir t0 t'.
Proof.
  intros Hk Hs p Hp. rewrite Hs; [by apply Hk|]. intros n Hn. apply Hp. by apply pending_not_registration.
Qed.

Lemma kept_only_at dir name t0 t t' :
  RegistrationName name = false → kept dir t0 t → only_at (dir ++ [name]) t t' → kept dir t0 t'.
Proof. intros Hn Hk Ho p Hp. rewrite Ho; [by apply Hk|]. by apply Hp. Qed.

Lemma placed_stored dir tmp name payload t0 t t' :
  RegistrationName tmp = false → RegistrationName name = true →
  kept dir t0 t → is_Some (t !! dir) → t !! (dir ++ [name]) = None →
  placed (dir ++ [tmp]) (dir ++ [name]) payload t t' → stored dir name payload t0 t'.
Proof.
  intros Htmp Hname Hk Hdir Hnone [Hp Hst]. split_and!; [| |done|left].
  - intros p Hu Hne. rewrite Hp; [by apply Hk|by apply Hu|done].
  - rewrite Hp; [done|apply dir_entry..].
  - rewrite <- (Hk (dir ++ [name])); [done|by apply untouched_record].
Qed.

Lemma RecordPayload_nonempty `{Platform} `{!Parcel} v payload : RecordPayload v = inr payload → payload ≠ "".
Proof.
  unfold RecordPayload. destruct (Encode _) as [c|]; [|done]. destruct (PayloadDigest c); [|done].
  destruct (Encode _) as [p|] eqn:Hp; [|done]. destruct (_ <=? _); [|done]. intros [= <-].
  unfold Encode in Hp. repeat (case_match; [done|]). case_match; [|done]. case_match; [done|].
  apply bind_Some in Hp as (? & _ & Hp). apply bind_Some in Hp as ([sz fl] & _ & Hp).
  apply bind_Some in Hp as (body & _ & Hp). case_match; [done|]. by injection Hp as <-.
Qed.

Section register.
Context `{Platform} `{!ChecksumLaws} `{!Parcel} {os : Os} `{!OsLaws}.

(** The record with a name that [Scan] has found, or none. *)
Lemma scan_lookup dir (t : disk_tree) records name :
  RegistrationName name = true → found dir t records →
  match find_row (λ r, eqs r.(rec_name) name) records with
  | Some r => r.(rec_bytes) = content (t !! (dir ++ [name])) ∧
              DecodeRecord r.(rec_bytes) name = Some r.(rec_registration)
  | None => t !! (dir ++ [name]) = None
  end.
Proof.
  intros Hname (names & Hperm & _ & Hall). destruct (find_row _ records) as [r|] eqn:Hf.
  - apply find_row_Some in Hf as [Hin Hn]. apply eqs_true in Hn.
    apply list_elem_of_lookup in Hin as [i Hi]. destruct (Forall2_lookup_r _ _ _ _ _ Hall Hi) as (n & _ & Hd).
    destruct Hd as (Hrn & Hb & Hdec). rewrite Hn in Hrn. subst n. done.
  - apply eq_None_not_Some. intros Hsome. apply elem_of_children in Hsome. rewrite <- Hperm in Hsome.
    assert (Hset : name ∈ settled_names names).
    { apply list_elem_of_filter. split; [|done]. apply not_true_iff_false. intros Hp.
      apply pending_not_registration in Hp. congruence. }
    apply list_elem_of_lookup in Hset as [i Hi]. destruct (Forall2_lookup_l _ _ _ _ _ Hall Hi) as (r & Hr & Hd).
    apply (proj1 (find_row_None _ _)) with (r := r) in Hf; [|by eapply list_elem_of_lookup_2].
    destruct Hd as [Hd _]. rewrite Hd, eqs_refl in Hf. done.
Qed.

Lemma content_file n bytes : content n = bytes → bytes ≠ "" → ∃ st, n = Some (NFile st bytes).
Proof. destruct n as [[]|]; simpl; intros <-; [done|eauto|done|done]. Qed.

Lemma wp_Register_rejected root m v e (t : disk_tree) :
  PublicRegistration m = Some v → RecordPayload v = inl e →
  wp (Register root m) (λ s _, error s) (λ _ _, False) (λ _, True) t.
Proof.
  intros Hv He. assert (Herr : error e).
  { unfold RecordPayload in He. repeat case_match; congruence || (injection He as <-; done). }
  unfold Register. rewrite Hv, He. apply wp_try.
  apply wp_bind, wp_Require; [intros _; by apply wp_ret|]. intros _.
  apply wp_bind, wp_Require; [intros _; by apply wp_ret|]. intros _.
  destruct (ir_directory root); by apply wp_fail, wp_ret.
Qed.

Lemma wp_Register root m v payload authority (t : disk_tree) :
  PublicRegistration m = Some v → RecordPayload v = inr payload → root.(ir_directory) = Some authority →
  let dir : path := authority ++ [kRegistrationDirectory] in
  let name := RecordName v in
  wp (Register root m)
    (λ s t', (s = 0 ∨ s = - EINPROGRESS) ∧ stored dir name payload t t' ∨ error s ∧ kept dir t t')
    (λ _ _, False) (λ t', kept dir t t' ∨ stored dir name payload t t') t.
Proof.
  intros Hv Hp Hroot dir name. assert (Hname : RegistrationName name = true) by apply RecordName_name.
  assert (Hkk : kept dir t t) by done. unfold Register. rewrite Hv, Hroot, Hp. fold name.
  apply wp_try. assert (Hfail : ∀ s t', error s → kept dir t t' →
    wp (mret s : F Z) (λ s t', (s = 0 ∨ s = - EINPROGRESS) ∧ stored dir name payload t t' ∨ error s ∧ kept dir t t')
      (λ _ _, False) (λ t', kept dir t t' ∨ stored dir name payload t t') t').
  { intros s t' Hs Hk. apply wp_ret. right. done. }
  apply wp_bind, wp_Require; [intros _; by apply Hfail|]. intros _.
  apply wp_bind, wp_Require; [intros _; by apply Hfail|]. intros _.
  apply wp_bind, wp_RegistrationDirectory; fold dir.
  { intros t' Hm. left. by apply made_kept. }
  { intros s t' Hs Hm. apply Hfail; [done|by apply made_kept]. }
  intros t1 Hm Hd1. apply made_kept in Hm. apply wp_bind, wp_Scan.
  { intros t' [Hs _]. left. by eapply kept_scanned. }
  { intros s t' He [Hs _]. apply Hfail; [done|by eapply kept_scanned]. }
  intros records t2 [Hs _] Hfound. pose proof (kept_scanned _ _ _ _ Hm Hs) as Hk2.
  pose proof (scan_lookup dir t1 records name Hname Hfound) as Hfind.
  assert (Hat : t2 !! (dir ++ [name]) = t1 !! (dir ++ [name])).
  { apply Hs. intros n Hn Heq. apply app_inj_tail in Heq as [_ <-].
    apply pending_not_registration in Hn. congruence. }
  assert (Hd2 : is_Some (t2 !! dir)) by (rewrite Hs; [done|intros; apply dir_entry]).
  destruct (find_row _ records) as [r|].
  - destruct Hfind as [Hb _]. apply wp_bind, wp_Require; [intros _; by apply Hfail|]. intros Heq.
    apply eqs_true in Heq. rewrite Heq in Hb. symmetry in Hb. apply content_file in Hb as [st Hst];
      [|by eapply RecordPayload_nonempty].
    assert (Hstored : stored dir name payload t t2).
    { split_and!; [intros p Hu _; by apply Hk2|done|rewrite Hat; eauto|right].
      symmetry. by apply Hk2, untouched_record. }
    apply wp_register_again; auto.
  - apply wp_bind, wp_Require; [intros _; by apply Hfail|]. intros _.
    apply wp_bind. intros n. simpl. set (tmp := ".pending-" +:+ os_uuid n).
    assert (Htmp : RegistrationName tmp = false) by apply temporary_not_name.
    eapply (wp_register_new authority dir name payload tmp t2).
    + intros Heq. apply app_inj_tail in Heq as [_ Heq]. congruence.
    + intros t' Ho. left. by eapply kept_only_at.
    + intros t' Hpl. right. eapply placed_stored; try done. by rewrite Hat.
    + intros s t' He Ho. right. split; [done|by eapply kept_only_at].
    + intros t' Hpl. assert (stored dir name payload t t') by (eapply placed_stored; try done; by rewrite Hat).
      auto.
Qed.
End register.

(** ** The order of registrations *)

(** A comparison by a key. *)
Record key_order {A} (c : A → A → comparison) : Prop := {
  ko_opp : ∀ a b, c b a = CompOpp (c a b);
  ko_eq : ∀ a b x, c a b = Eq → c a x = c b x;
  ko_trans : ∀ a b x, c a b = Lt → c b x = Lt → c a x = Lt;
}.

Lemma key_order_by {A B} (cmp : B → B → comparison) (f : A → B) :
  (∀ x y, cmp y x = CompOpp (cmp x y)) → (∀ x y, cmp x y = Eq → x = y) →
  (∀ x y z, cmp x y = Lt → cmp y z = Lt → cmp x z = Lt) →
  key_order (λ a b, cmp (f a) (f b)).
Proof. intros Ho He Ht. split; [auto| |eauto]. intros a b x Hab. by rewrite (He _ _ Hab). Qed.

Lemma ascii_compare_trans a b c : Ascii.compare a b = Lt → Ascii.compare b c = Lt → Ascii.compare a c = Lt.
Proof. unfold Ascii.compare. rewrite !N.compare_lt_iff. apply N.lt_trans. Qed.

Lemma string_compare_trans x y z :
  String.compare x y = Lt → String.compare y z = Lt → String.compare x z = Lt.
Proof.
  revert y z. induction x as [|a x IH]; intros [|b y] [|c z]; simpl; try done.
  destruct (Ascii.compare a b) eqn:Hab; destruct (Ascii.compare b c) eqn:Hbc; try done; intros Hxy Hyz.
  - apply Ascii.compare_eq_iff in Hab as ->. rewrite Hbc. by eapply IH.
  - apply Ascii.compare_eq_iff in Hab as ->. by rewrite Hbc.
  - apply Ascii.compare_eq_iff in Hbc as ->. by rewrite Hab.
  - by rewrite (ascii_compare_trans a b c).
Qed.

Lemma key_order_field k : key_order (by_field k).
Proof.
  apply (key_order_by String.compare (λ m, Get m k)).
  - intros x y. apply String.compare_antisym.
  - intros x y. apply String.compare_eq_iff.
  - apply string_compare_trans.
Qed.

Lemma key_order_number k : key_order (by_number k).
Proof.
  apply (key_order_by Z.compare (λ m, MsgNumber m k 0)).
  - intros x y. apply Z.compare_antisym.
  - intros x y. apply Z.compare_eq.
  - intros x y z. rewrite !Z.compare_lt_iff. lia.
Qed.

Lemma lex_compare_order {A} (l : list (A → A → comparison)) :
  Forall key_order l → key_order (lex_compare l).
Proof.
  induction 1 as [|c l Hc Hl IH]; [by split|]. destruct Hc as [Ho He Ht], IH as [IHo IHe IHt]. split; simpl.
  - intros a b. rewrite Ho. destruct (c a b); simpl; auto.
  - intros a b x. destruct (c a b) eqn:Hab; [|done|done]. rewrite (He a b x Hab).
    destruct (c b x); [apply IHe|done|done].
  - intros a b x. destruct (c a b) eqn:Hab; [|intros _|done].
    + rewrite (He a b x Hab). destruct (c b x); [apply IHt|done|done].
    + destruct (c b x) eqn:Hbx; [|by rewrite (Ht a b x)|done].
      assert (c a x = Lt) as ->; [|done]. rewrite <- (CompOpp_involutive (c a x)), <- Ho.
      rewrite <- (He b x a Hbx), Ho, Hab. done.
Qed.

Lemma registration_key_order : key_order (lex_compare registration_order).
Proof.
  apply lex_compare_order. unfold registration_order.
  repeat (constructor; [apply key_order_field || apply key_order_number|]). constructor.
Qed.

#[export] Instance registration_le_total : Total registration_le.
Proof.
  intros a b. unfold registration_le. rewrite (ko_opp _ registration_key_order a b).
  destruct (lex_compare _ a b); auto.
Qed.

#[export] Instance registration_le_trans : Transitive registration_le.
Proof.
  intros a b x Hab Hbx. unfold registration_le in *. destruct registration_key_order as [Ho He Ht].
  destruct (lex_compare registration_order a b) eqn:E1; [|destruct (lex_compare registration_order b x) eqn:E2|done].
  - by rewrite (He a b x).
  - assert (lex_compare registration_order a x = Lt) as ->; [|done].
    rewrite <- (CompOpp_involutive (lex_compare _ a x)), <- Ho, <- (He b x a E2), Ho, E1. done.
  - by rewrite (Ht a b x).
  - done.
Qed.

(** Registrations that compare equal are of the same operation. *)
Lemma registration_le_operation a b :
  registration_le a b → registration_le b a → Get a "operation_id" = Get b "operation_id".
Proof.
  unfold registration_le. rewrite (ko_opp _ registration_key_order a b). intros H1 H2.
  assert (Heq : lex_compare registration_order a b = Eq) by (by destruct (lex_compare _ a b)).
  unfold registration_order in Heq. simpl in Heq.
  repeat match type of Heq with match ?c with _ => _ end = _ => destruct c eqn:?; try done end.
  by apply String.compare_eq_iff.
Qed.

(** ** LoadRegistrations *)

Section load.
Context `{Platform} `{!Parcel} {os : Os} `{!OsLaws}.

Lemma reader_openat_absent dir name directory :
  reader (openat dir name directory)
    (λ r t, (r = Some ENOENT → t !! (dir ++ [name]) = None) ∧
            (r = None → is_Some (t !! (dir ++ [name])))).
Proof.
  unfold openat. eapply (reader_bind _ _ (λ r _, r ≠ Some ENOENT)).
  - intros t Q E K HK HE HQ n. unfold sys. simpl. destruct (os_next n) as [|e|] eqn:Hn; simpl; [by apply HQ| |done].
    apply HQ. intros [= ->]. by apply errno_real in Hn as [].
  - intros [e|]; simpl.
    + eapply reader_weaken; [apply reader_ret|]. intros a t -> Hne. by split.
    + eapply reader_bind; [apply reader_look|]. intros n.
      eapply reader_weaken; [apply reader_ret|]. intros a t -> -> _. split; by destruct (t !! _) as [[]|], directory.
Qed.

Lemma reader_enter current component : reader (enter current component false) (λ b _, b = false).
Proof.
  unfold enter. eapply reader_bind; [apply reader_openat|]. intros [e|].
  - rewrite andb_false_r. eapply reader_weaken; [apply reader_fail, SystemError_error|done].
  - eapply reader_weaken; [apply reader_ret|done].
Qed.

Lemma reader_descend current l : reader (descend_loop current l false) (λ p _, p = current ++ l).
Proof.
  revert current. induction l as [|c l IH]; intros current t Q E K HK HE HQ; simpl.
  { apply wp_ret, HQ. by rewrite app_nil_r. }
  apply wp_bind, reader_enter; auto. intros b ->.
  apply wp_bind, reader_ProtectedDirectory; auto. intros [] _.
  apply wp_bind, wp_ret, wp_bind, wp_ret, wp_bind, wp_ret.
  apply IH; auto. intros p ->. apply HQ. by rewrite <- app_assoc.
Qed.

Lemma reader_Descend parent l : reader (Descend parent l false) (λ p _, p = parent ++ l).
Proof.
  unfold Descend. eapply reader_bind; [apply reader_sys|]. intros r.
  eapply reader_bind; [apply reader_RequireSystem|]. intros [].
  eapply reader_bind; [apply reader_ProtectedDirectory|]. intros [].
  eapply reader_weaken; [apply reader_descend|done].
Qed.

Lemma reader_RegistrationDirectory authority :
  reader (RegistrationDirectory authority false)
    (λ r t, match r with
            | Some dir => dir = authority ++ [kRegistrationDirectory] ∧ is_Some (t !! dir)
            | None => t !! (authority ++ [kRegistrationDirectory]) = None
            end).
Proof.
  intros t Q E K HK HE HQ. unfold RegistrationDirectory.
  apply wp_bind, wp_ret, wp_bind, reader_openat_absent; auto. intros [e|] He.
  - rewrite andb_true_r. destruct (Z.eqb_spec e ENOENT) as [->|].
    + by apply wp_ret, HQ, He.
    + apply wp_fail, HE, SystemError_error.
  - apply wp_bind, reader_ProtectedDirectory; auto. intros [] _.
    apply wp_bind, wp_ret, wp_bind, wp_ret, wp_ret, HQ. split; [done|by apply He].
Qed.

(** The registrations of a spool, in order. *)
Definition loaded (dir : path) (t : disk_tree) (l : list Message) : Prop :=
  (t !! dir = None ∧ l = []) ∨
  ∃ records, is_Some (t !! dir) ∧ found dir t records ∧ l = merge_sort registration_le (rec_registration <$> records).

Lemma reader_LoadRegistrations authority_dir :
  reader (LoadRegistrations authority_dir)
    (λ l t, ∃ authority, Components authority_dir = Some authority ∧
       loaded (authority ++ [kRegistrationDirectory]) t l).
Proof.
  intros t Q E K HK HE HQ. unfold LoadRegistrations, components.
  apply wp_bind, reader_sys; auto. intros r _. apply wp_bind, reader_RequireSystem; auto. intros [] _.
  apply wp_bind. destruct (Components authority_dir) as [authority|]; [|by apply wp_fail, HE].
  apply wp_ret, wp_bind, reader_Descend; auto. intros p ->.
  apply wp_bind, reader_ProtectedDirectory; auto. intros [] _.
  apply wp_bind, reader_RegistrationDirectory; auto. rewrite app_nil_l. intros [dir|] Hdir.
  - destruct Hdir as [-> Hdir]. apply wp_bind, reader_Scan; auto. intros records Hf. apply wp_ret, HQ.
    exists authority. split; [done|]. right. eauto.
  - apply wp_ret, HQ. exists authority. split; [done|]. by left.
Qed.
End load.

(** Runs of readers leave the disk as it was. *)
Lemma reader_run {A} (m : F A) I d d' a :
  reader m I → m d = (d', Done a) → d'.(tree) = d.(tree) ∧ I a d.(tree).
Proof.
  intros Hm Hr. destruct d as [t n].
  assert (Hwp : wp m (λ a t', t' = t ∧ I a t) (λ _ _, True) (λ _, True) t) by (apply Hm; auto).
  specialize (Hwp n). rewrite Hr in Hwp. done.
Qed.

Section determinism.
Context `{Platform} `{!Parcel}.

(** Two records of the same disk with the same operation are the same. *)
Lemma found_operation dir (t : disk_tree) rs1 rs2 r1 r2 :
  found dir t rs1 → found dir t rs2 → r1 ∈ rs1 → r2 ∈ rs2 →
  Get r1.(rec_registration) "operation_id" = Get r2.(rec_registration) "operation_id" → r1 = r2.
Proof.
  intros (n1 & _ & _ & H1) (n2 & _ & _ & H2) Hr1 Hr2 Hop.
  apply list_elem_of_lookup in Hr1 as [i Hi], Hr2 as [j Hj].
  destruct (Forall2_lookup_r _ _ _ _ _ H1 Hi) as (a & _ & Ha1 & Ha2 & Ha3).
  destruct (Forall2_lookup_r _ _ _ _ _ H2 Hj) as (b & _ & Hb1 & Hb2 & Hb3).
  assert (Hname : ∀ payload name v, DecodeRecord payload name = Some v → name = RecordName v).
  { intros payload name v. unfold DecodeRecord. destruct (_ || _ || _); [done|]. intros Hd.
    repeat (apply bind_Some in Hd as (? & _ & Hd) || (case_match; [done|])).
    destruct (eqs _ name) eqn:Hn; [|done]. injection Hd as <-. by apply eqs_true in Hn. }
  assert (a = b).
  { rewrite (Hname _ _ _ Ha3), (Hname _ _ _ Hb3). unfold RecordName. by rewrite Hop. }
  subst b. destruct r1, r2. simpl in *. subst. rewrite Ha3 in Hb3. by injection Hb3 as ->.
Qed.

Definition record_of dir (t : disk_tree) (name : string) : option Record_ :=
  let bytes := content (t !! (dir ++ [name])) in mkRecord name bytes <$> DecodeRecord bytes name.

Lemma decoded_omap dir (t : disk_tree) names records :
  Forall2 (decoded dir t) names records → records = omap (record_of dir t) names.
Proof.
  induction 1 as [|name r names records (Hn & Hb & Hd) _ IH]; [done|]. simpl. unfold record_of.
  destruct r as [n b v]. simpl in *. subst. by rewrite Hd.
Qed.

Lemma found_perm dir (t : disk_tree) rs1 rs2 : found dir t rs1 → found dir t rs2 → rs1 ≡ₚ rs2.
Proof.
  intros (n1 & Hp1 & _ & ->%decoded_omap) (n2 & Hp2 & _ & ->%decoded_omap).
  unfold settled_names. by rewrite Hp1, Hp2.
Qed.

Lemma loaded_unique dir (t : disk_tree) l1 l2 rs1 rs2 :
  found dir t rs1 → found dir t rs2 →
  l1 = merge_sort registration_le (rec_registration <$> rs1) →
  l2 = merge_sort registration_le (rec_registration <$> rs2) → l1 = l2.
Proof.
  intros Hf1 Hf2 -> ->. eapply (Sorted_unique_strong registration_le).
  - intros x y Hx Hy Hxy Hyx. rewrite !merge_sort_Permutation in Hx, Hy.
    apply list_elem_of_fmap in Hx as (r1 & -> & Hr1), Hy as (r2 & -> & Hr2).
    by rewrite (found_operation dir t rs1 rs2 r1 r2) by (done || by apply registration_le_operation).
  - apply Sorted_merge_sort, _.
  - apply Sorted_merge_sort, _.
  - rewrite !merge_sort_Permutation. by rewrite (found_perm dir t rs1 rs2).
Qed.
End determinism.

(** ** ImageRoot *)

Section image.
Context `{Os}.
Implicit Types (t : disk_tree) (dir : path).

(** Every object that was there is there as it was. *)
Definition extends (t0 t : disk_tree) : Prop := ∀ p n, t0 !! p = Some n → t !! p = Some n.

Lemma extends_absent t0 t p : extends t0 t → t !! p = None → t0 !! p = None.
Proof. intros He Hn. destruct (t0 !! p) as [n|] eqn:Hp; [|done]. apply He in Hp. congruence. Qed.

Lemma extends_only_at t0 t t' p : extends t0 t → t0 !! p = None → only_at p t t' → extends t0 t'.
Proof. intros He Hn Ho q n Hq. rewrite Ho; [by apply He|]. intros ->. congruence. Qed.

(** An object is made where there was none. *)
Lemma wp_make t0 t dir name new (Q : option Z → disk_tree → Prop) E K :
  (∀ t', extends t0 t' → K t') →
  (∀ r t', extends t0 t' → (r = None → t0 !! (dir ++ [name]) = None) → Q r t') → extends t0 t →
  wp (n ← look (dir ++ [name]);
      match n with
      | Some _ => r ← sys; mret (Some (default EEXIST r))
      | None => sys_do (<[dir ++ [name] := new]>)
      end) Q E K t.
Proof.
  intros HK HQ He. apply wp_bind, wp_look. destruct (t !! (dir ++ [name])) as [n|] eqn:Hn; cbv beta iota.
  - apply wp_bind, wp_sys; [auto|]. intros r. by apply wp_ret, HQ.
  - pose proof (extends_absent _ _ _ He Hn). apply wp_sys_do; [auto|intros e; by apply HQ|].
    apply HQ; [|done]. eapply extends_only_at; [exact He|done|]. by apply only_at_insert.
Qed.

Lemma wp_set_new t0 t p mode (Q : option Z → disk_tree → Prop) E K :
  (∀ t', extends t0 t' → K t') → (∀ r t', extends t0 t' → Q r t') → t0 !! p = None → extends t0 t →
  wp (set_metadata p mode) Q E K t.
Proof.
  intros HK HQ Hn He. apply (wp_set_metadata (extends t0)); auto. intros f t' Ht.
  eapply extends_only_at; [exact Ht|done|]. by apply only_at_alter.
Qed.

Lemma wp_enter t0 t dir name create (Q : bool → disk_tree → Prop) E K :
  (∀ t', extends t0 t' → K t') → (∀ s t', error s → extends t0 t' → E s t') →
  (∀ b t', extends t0 t' → (b = true → t0 !! (dir ++ [name]) = None) → Q b t') → extends t0 t →
  wp (enter dir name create) Q E K t.
Proof.
  intros HK HE HQ He. unfold enter. apply wp_bind, reader_openat; auto. intros [e|] _; [|by apply wp_ret, HQ].
  destruct (_ && _); [|apply wp_fail, HE; [apply SystemError_error|done]].
  apply wp_bind, (wp_make t0); [done| |done]. intros made t' He' Hmade.
  apply wp_bind, wp_Require; [intros _; apply HE; [apply SystemError_error|done]|]. intros _.
  apply wp_bind, reader_openat; auto. intros r _. apply wp_bind, reader_RequireSystem; auto. intros [] _.
  apply wp_ret, HQ; [done|]. intros Hb. apply Hmade. by apply bool_decide_eq_true in Hb.
Qed.

Lemma wp_descend t0 t current l create (Q : path → disk_tree → Prop) E K :
  (∀ t', extends t0 t' → K t') → (∀ s t', error s → extends t0 t' → E s t') →
  (∀ p t', extends t0 t' → Q p t') → extends t0 t → wp (descend_loop current l create) Q E K t.
Proof.
  intros HK HE HQ. revert current t. induction l as [|c l IH]; intros current t He; simpl; [by apply wp_ret, HQ|].
  apply wp_bind, (wp_enter t0); [done|done| |done]. intros created t1 He1 Hnew.
  apply wp_bind, reader_ProtectedDirectory; auto. intros [] _.
  assert (Hend : ∀ t2, extends t0 t2 →
    wp ((if create && negb (bool_decide (l = [])) then
           st ← fstat (current ++ [c]);
           Require (match st with None => false | Some st => Z.land st.(st_mode) 5 =? 5 end) (- EACCES)
         else mret ());;
        (if create then Sync current else mret ());;
        descend_loop (current ++ [c]) l create) Q E K t2).
  { intros t2 He2.
    assert (Hrest : wp ((if create then Sync current else mret ());; descend_loop (current ++ [c]) l create) Q E K t2).
    { apply wp_bind. destruct create; [apply reader_Sync; auto; intros [] _|apply wp_ret]; by apply IH. }
    apply wp_bind. destruct (_ && _); [|by apply wp_ret].
    apply wp_bind, reader_fstat; auto. intros st _. by apply reader_Require; auto. }
  apply wp_bind. destruct created; [|by apply wp_ret, Hend].
  apply wp_bind, (wp_set_new t0); [done| |by apply Hnew|done]. intros r t2 He2.
  apply wp_bind, reader_RequireSystem; auto. intros [] _. apply reader_Sync; auto.
Qed.

Lemma wp_Descend t0 t parent l create (Q : path → disk_tree → Prop) E K :
  (∀ t', extends t0 t' → K t') → (∀ s t', error s → extends t0 t' → E s t') →
  (∀ p t', extends t0 t' → Q p t') → extends t0 t → wp (Descend parent l create) Q E K t.
Proof.
  intros HK HE HQ He. unfold Descend. apply wp_bind, reader_sys; auto. intros r _.
  apply wp_bind, reader_RequireSystem; auto. intros [] _.
  apply wp_bind, reader_ProtectedDirectory; auto. intros [] _. by apply (wp_descend t0).
Qed.

Lemma reader_components p : reader (components p) (λ l _, Components p = Some l).
Proof.
  unfold components. destruct (Components p).
  - eapply reader_weaken; [apply reader_ret|]. by intros a t ->.
  - eapply reader_weaken; [by apply reader_fail|done].
Qed.

Lemma reader_open_rw dir name : reader (open_rw dir name) (λ _ _, True).
Proof.
  unfold open_rw. eapply reader_bind; [apply reader_openat|]. intros [e|].
  - eapply reader_weaken; [apply reader_ret|done].
  - eapply reader_bind; [apply reader_look|]. intros n. eapply reader_weaken; [apply reader_ret|done].
Qed.

Lemma wp_open_root root image_root authority_path t0 t (Q : path → disk_tree → Prop) E K :
  (∀ t', extends t0 t' → K t') → (∀ s t', error s → extends t0 t' → E s t') →
  (∀ p t', extends t0 t' → Q p t') → extends t0 t →
  wp (open_root root image_root authority_path) Q E K t.
Proof.
  intros HK HE HQ He. unfold open_root.
  apply wp_bind, reader_Require; auto; [done|]. intros [] _.
  apply wp_bind, reader_Require; auto; [done|]. intros [] _.
  apply wp_bind, reader_components; auto. intros l1 _. apply wp_bind, reader_components; auto. intros l2 _.
  apply wp_bind, reader_Require; auto; [done|]. intros [] _.
  apply wp_bind, reader_sys; auto. intros r _. apply wp_bind, reader_RequireSystem; auto. intros [] _.
  apply wp_bind, (wp_Descend t0); [done|done| |done]. intros image t1 He1.
  apply wp_bind, (wp_Descend t0); [done|done| |done]. intros dir t2 He2.
  apply wp_bind, reader_ProtectedDirectory; auto. intros [] _.
  apply wp_bind, (wp_make t0); [done| |done]. intros created t3 He3 Hnew.
  apply wp_bind. eapply (wp_mono _ (λ _ t', t' = t3) _ (λ s t', error s ∧ t' = t3) _ (λ t', t' = t3)).
  { destruct created as [e|]; [destruct (e =? EEXIST)|].
    - apply reader_open_rw; auto.
    - by apply wp_ret.
    - by apply wp_ret. }
  2: by intros s t' [Hs ->]; auto.
  2: by intros t' ->; auto.
  intros r2 t' ->. apply wp_bind, reader_RequireSystem; auto. intros [] _.
  apply wp_bind, reader_ProtectedFile; auto. intros st _. apply wp_bind, reader_sys; auto. intros r3 _.
  apply wp_bind, reader_Require; auto; [done|]. intros [] _.
  assert (Hend : ∀ t4, extends t0 t4 →
    wp (Sync (dir ++ [lifecycle_name]);; Sync dir;; mret dir) Q E K t4).
  { intros t4 He4. apply wp_bind, reader_Sync; auto. intros [] _. apply wp_bind, reader_Sync; auto.
    intros [] _. by apply wp_ret, HQ. }
  apply wp_bind. case_bool_decide as Hmade; [|by apply wp_ret, Hend].
  apply wp_bind, (wp_set_new t0); [done| |by apply Hnew|done]. intros r4 t4 He4.
  apply reader_RequireSystem; auto.
Qed.
End image.

(** ** Theorems *)

Section theorems.
Context `{Platform} `{!ChecksumLaws} `{!Parcel}.

(** C27: registering offline is atomic, whatever fails and wherever the
    process is killed.  Every record of the spool and everything outside of it
    keeps its bytes and its metadata; at most the one record of this operation
    appears, under its final name only with its complete bytes; success and
    [-EINPROGRESS] are reported only when it is there, and every other status
    only when no record has changed.  [Register] does not throw. *)
Theorem Register_atomic `{!Os} `{!OsLaws} root m v payload authority d d' r :
  PublicRegistration m = Some v → RecordPayload v = inr payload →
  root.(ir_directory) = Some authority → Register root m d = (d', r) →
  let dir := authority ++ [kRegistrationDirectory] in
  match r with
  | Done s =>
      ((s = 0 ∨ s = - EINPROGRESS) ∧ stored dir (RecordName v) payload d.(tree) d'.(tree)) ∨
      (s ≠ 0 ∧ s ≠ - EINPROGRESS ∧ kept dir d.(tree) d'.(tree))
  | Failed _ => False
  | Killed => kept dir d.(tree) d'.(tree) ∨ stored dir (RecordName v) payload d.(tree) d'.(tree)
  end.
Proof.
  intros Hv Hp Hroot Hr dir. destruct d as [t n].
  pose proof (wp_Register root m v payload authority t Hv Hp Hroot n) as Hwp. rewrite Hr in Hwp.
  destruct r; [|done|done]. unfold error in Hwp. simpl. tauto.
Qed.

(** Opening an image changes nothing that is there.  Whatever [Open]
    returns, and wherever it is killed, every directory and file that existed
    before still exists with the same owner, mode and content; only missing
    directories and the lock file are added. *)
Theorem Open_preserves `{!Os} root image_root authority_path d d' r :
  Open root image_root authority_path d = (d', r) →
  ∀ p n, d.(tree) !! p = Some n → d'.(tree) !! p = Some n.
Proof.
  intros Hr. destruct d as [t n0]. assert (Hwp : wp (Open root image_root authority_path)
    (λ _ t', extends t t') (λ _ t', extends t t') (extends t) t).
  { unfold Open. apply wp_try, wp_bind, (wp_open_root root image_root authority_path t).
    - done.
    - intros s t' _ He. by apply wp_ret.
    - intros p t' He. by apply wp_ret.
    - by intros p n. }
  specialize (Hwp n0). rewrite Hr in Hwp. by destruct r.
Qed.

(** C28: what was registered is what the daemon loads.  When [Register] has
    returned success or [-EINPROGRESS], every later [LoadRegistrations] of
    that spool that returns includes the registration exactly as its public
    fields were given, whatever the state the writes left the disk in and in
    whatever order its entries are listed. *)
Theorem Register_load `{!ParcelLaws} (o1 o2 : Os) `{!@OsLaws o1} `{!@OsLaws o2}
    root m v authority_dir authority d d' s d1 d2 l :
  PublicRegistration m = Some v → root.(ir_directory) = Some authority →
  Components authority_dir = Some authority →
  @Register _ _ o1 root m d = (d', Done s) → s = 0 ∨ s = - EINPROGRESS →
  d1.(tree) = d'.(tree) → @LoadRegistrations _ _ o2 authority_dir d1 = (d2, Done l) →
  v ∈ l ∧ d2.(tree) = d'.(tree).
Proof.
  intros Hv Hroot Hcomp Hreg Hs Htree Hload. destruct d as [t n].
  destruct (RecordPayload v) as [e|payload] eqn:Hp.
  { pose proof (wp_Register_rejected (os := o1) root m v e t Hv Hp n) as Hwp. rewrite Hreg in Hwp.
    destruct Hwp. naive_solver. }
  pose proof (wp_Register (os := o1) root m v payload authority t Hv Hp Hroot n) as Hwp. rewrite Hreg in Hwp.
  destruct Hwp as [[_ (_ & Hdir & [st Hst] & _)]|[[] _]]; [|naive_solver].
  apply (reader_run _ _ _ _ _ (reader_LoadRegistrations (os := o2) authority_dir)) in Hload as (-> & a & Ha & Hl).
  rewrite Hcomp in Ha. injection Ha as <-. rewrite Htree in Hl |- *. split; [|done].
  destruct Hl as [[Hnone _]|(records & _ & Hf & ->)]; [rewrite Hnone in Hdir; by destruct Hdir|].
  rewrite merge_sort_Permutation.
  pose proof (scan_lookup _ _ records (RecordName v) (RecordName_name v) Hf) as Hfind.
  destruct (find_row _ records) as [rec|] eqn:Hrow; [|congruence].
  destruct Hfind as [Hb Hd]. rewrite Hb, Hst in Hd. simpl in Hd.
  rewrite (record_decodes m v payload Hv Hp) in Hd. injection Hd as Hd.
  apply find_row_Some in Hrow as [Hin _]. apply list_elem_of_fmap. eauto.
Qed.

(** The daemon's import order does not depend on the disk's order.  Two
    loads of the same spool that return, with any listing order and timing,
    return the same list, sorted by package, application, definition,
    generation, policy version, text revision and operation. *)
Theorem LoadRegistrations_deterministic (o1 o2 : Os) `{!@OsLaws o1} `{!@OsLaws o2}
    authority_dir d1 d2 d1' d2' l1 l2 :
  d1.(tree) = d2.(tree) →
  @LoadRegistrations _ _ o1 authority_dir d1 = (d1', Done l1) →
  @LoadRegistrations _ _ o2 authority_dir d2 = (d2', Done l2) →
  l1 = l2 ∧ Sorted registration_le l1 ∧ d1'.(tree) = d1.(tree).
Proof.
  intros Htree Hl1 Hl2.
  apply (reader_run _ _ _ _ _ (reader_LoadRegistrations (os := o1) authority_dir)) in Hl1 as (Ht1 & a1 & Ha1 & Hl1).
  apply (reader_run _ _ _ _ _ (reader_LoadRegistrations (os := o2) authority_dir)) in Hl2 as (_ & a2 & Ha2 & Hl2).
  rewrite Ha1 in Ha2. injection Ha2 as <-. rewrite <- Htree in Hl2.
  destruct Hl1 as [[Hn1 ->]|(rs1 & [n1 Hd1] & Hf1 & ->)], Hl2 as [[Hn2 ->]|(rs2 & [n2 Hd2] & Hf2 & ->)];
    [split_and!; [done|constructor|done]|congruence..|].
  split_and!; [by apply (loaded_unique _ _ _ _ _ _ Hf1 Hf2)|apply Sorted_merge_sort, _|done].
Qed.
End theorems.
