(* ===== verification/ProfileState.v ===== *)
(** * Active profile state (src/consentd/profile_state.cc)

    The authority over which user profile is active.  The main context
    configures, fences and activates it; the database executor reads the
    generation and checks subject/profile pairs. *)
From S2P Require Import Prelude Strings Platform Message Packing.

Record ProfileBinding := mkBinding {
  b_subject : string;
  b_user : string;
  b_profile : string;
}.

Record ProfileState := mkProfileState {
  ps_bindings : list ProfileBinding;
  ps_active_user : string;
  ps_ready : bool;
  ps_enabled : bool;
  ps_generation : Z;
}.

Definition profile_initial : ProfileState := mkProfileState [] "" false false 0.

Section profile_state.
Context `{Platform}.

(** The validation loop of [Configure]. *)
Fixpoint configure_loop (l : list ProfileBinding) (profiles users : gset (string * string))
  : bool :=
  match l with
  | [] => true
  | binding :: l' =>
      if negb (Identifier binding.(b_subject)) || negb (Identifier binding.(b_profile)) ||
         (size binding.(b_user) >=? 20) ||
         (negb (empty binding.(b_user)) && negb (Identifier binding.(b_user))) ||
         bool_decide ((binding.(b_subject), binding.(b_profile)) ∈ profiles) ||
         bool_decide ((binding.(b_subject), binding.(b_user)) ∈ users)
      then false
      else configure_loop l' ({[(binding.(b_subject), binding.(b_profile))]} ∪ profiles)
             ({[(binding.(b_subject), binding.(b_user))]} ∪ users)
  end.

Definition Configure (bindings : list ProfileBinding) (s : ProfileState) : bool * ProfileState :=
  if s.(ps_enabled) || bool_decide (bindings = []) || (Z.of_nat (length bindings) >? 64)
  then (false, s)
  else if negb (configure_loop bindings ∅ ∅) then (false, s)
  else (true, mkProfileState bindings s.(ps_active_user) s.(ps_ready) true
                (u64 (s.(ps_generation) + 1))).

Definition Fence (s : ProfileState) : Z * ProfileState :=
  let generation := u64 (s.(ps_generation) + 1) in
  (generation, mkProfileState s.(ps_bindings) s.(ps_active_user) false s.(ps_enabled) generation).

Definition Activate (generation : Z) (user : string) (s : ProfileState) : bool * ProfileState :=
  if negb s.(ps_enabled) || negb (generation =? s.(ps_generation)) then (false, s)
  else if negb (existsb (λ binding, eqs binding.(b_user) user) s.(ps_bindings)) then (false, s)
  else (true, mkProfileState s.(ps_bindings) user true s.(ps_enabled) s.(ps_generation)).

Fixpoint check_loop (l : list ProfileBinding) (s : ProfileState) (subject profile : string) : Z :=
  match l with
  | [] => - EACCES
  | binding :: l' =>
      if eqs binding.(b_subject) subject && eqs binding.(b_profile) profile
      then (if negb s.(ps_ready) then - EBUSY
            else if eqs binding.(b_user) s.(ps_active_user) then 0 else - EACCES)
      else check_loop l' s subject profile
  end.

Definition Check (s : ProfileState) (subject profile : string) : Z :=
  if negb s.(ps_enabled) then 0 else check_loop s.(ps_bindings) s subject profile.
End profile_state.
