(* ===== verification/Store.v ===== *)
(** * The consent database (kSchema and the SQL of src/consentd/repository.cc)

    One record per table row with the columns of [kSchema], the database as a
    record of tables, the statement forms the repository uses ([UPDATE ...
    WHERE], [INSERT] with its PRIMARY KEY, UNIQUE and FOREIGN KEY checks,
    upserts). *)
From S2P Require Import Prelude Strings Platform Message Packing.

(** ** Rows and tables *)

(** One row of [definitions]. *)
Record def_row := mk_def_row {
  d_id : string;
  d_package : string;
  d_app : string;
  d_active : Z;
  d_config : string;
}.

(** One row of [sessions]. *)
Record session_row := mk_session_row {
  s_id : string;
  s_subject : string;
  s_profile : string;
  s_owner : string;
  s_instance : string;
  s_state : string;
  s_generation : Z;
  s_policy : string;
  s_created : Z;
  s_idle_deadline : Z;
  s_absolute_deadline : Z;
  s_lease_deadline : Z;
  s_grace : Z;
  s_resume_deadline : Z;
  s_resume_hash : string;
}.

Definition set_s_state (v : string) (r : session_row) : session_row :=
  mk_session_row r.(s_id) r.(s_subject) r.(s_profile) r.(s_owner) r.(s_instance) v
    r.(s_generation) r.(s_policy) r.(s_created) r.(s_idle_deadline) r.(s_absolute_deadline)
    r.(s_lease_deadline) r.(s_grace) r.(s_resume_deadline) r.(s_resume_hash).

Definition set_s_generation (v : Z) (r : session_row) : session_row :=
  mk_session_row r.(s_id) r.(s_subject) r.(s_profile) r.(s_owner) r.(s_instance) r.(s_state) v
    r.(s_policy) r.(s_created) r.(s_idle_deadline) r.(s_absolute_deadline)
    r.(s_lease_deadline) r.(s_grace) r.(s_resume_deadline) r.(s_resume_hash).

Definition set_s_lease_deadline (v : Z) (r : session_row) : session_row :=
  mk_session_row r.(s_id) r.(s_subject) r.(s_profile) r.(s_owner) r.(s_instance) r.(s_state)
    r.(s_generation) r.(s_policy) r.(s_created) r.(s_idle_deadline) r.(s_absolute_deadline) v
    r.(s_grace) r.(s_resume_deadline) r.(s_resume_hash).

Definition set_s_resume_deadline (v : Z) (r : session_row) : session_row :=
  mk_session_row r.(s_id) r.(s_subject) r.(s_profile) r.(s_owner) r.(s_instance) r.(s_state)
    r.(s_generation) r.(s_policy) r.(s_created) r.(s_idle_deadline) r.(s_absolute_deadline)
    r.(s_lease_deadline) r.(s_grace) v r.(s_resume_hash).

Definition set_s_resume_hash (v : string) (r : session_row) : session_row :=
  mk_session_row r.(s_id) r.(s_subject) r.(s_profile) r.(s_owner) r.(s_instance) r.(s_state)
    r.(s_generation) r.(s_policy) r.(s_created) r.(s_idle_deadline) r.(s_absolute_deadline)
    r.(s_lease_deadline) r.(s_grace) r.(s_resume_deadline) v.

(** One row of [requests]. *)
Record request_row := mk_request_row {
  r_id : string;
  r_owner : string;
  r_subject : string;
  r_profile : string;
  r_client_id : string;
  r_fingerprint : string;
  r_payload : string;
  r_state : string;
  r_deadline : Z;
  r_token : string;
  r_ui_owner : string;
  r_ui_instance : string;
}.

Definition set_r_state (v : string) (r : request_row) : request_row :=
  mk_request_row r.(r_id) r.(r_owner) r.(r_subject) r.(r_profile) r.(r_client_id)
    r.(r_fingerprint) r.(r_payload) v r.(r_deadline) r.(r_token) r.(r_ui_owner)
    r.(r_ui_instance).

Definition set_r_token (v : string) (r : request_row) : request_row :=
  mk_request_row r.(r_id) r.(r_owner) r.(r_subject) r.(r_profile) r.(r_client_id)
    r.(r_fingerprint) r.(r_payload) r.(r_state) r.(r_deadline) v r.(r_ui_owner)
    r.(r_ui_instance).

Definition set_r_payload (v : string) (r : request_row) : request_row :=
  mk_request_row r.(r_id) r.(r_owner) r.(r_subject) r.(r_profile) r.(r_client_id)
    r.(r_fingerprint) v r.(r_state) r.(r_deadline) r.(r_token) r.(r_ui_owner)
    r.(r_ui_instance).

Definition set_r_ui_owner (v : string) (r : request_row) : request_row :=
  mk_request_row r.(r_id) r.(r_owner) r.(r_subject) r.(r_profile) r.(r_client_id)
    r.(r_fingerprint) r.(r_payload) r.(r_state) r.(r_deadline) r.(r_token) v
    r.(r_ui_instance).

Definition set_r_ui_instance (v : string) (r : request_row) : request_row :=
  mk_request_row r.(r_id) r.(r_owner) r.(r_subject) r.(r_profile) r.(r_client_id)
    r.(r_fingerprint) r.(r_payload) r.(r_state) r.(r_deadline) r.(r_token) r.(r_ui_owner) v.

(** One row of [grants]. *)
Record grant_row := mk_grant_row {
  g_id : string;
  g_key : string;
  g_definition : string;
  g_version : string;
  g_subject : string;
  g_profile : string;
  g_session : string;
  g_mode : string;
  g_expires : Z;
  g_remaining : Z;
  g_revoked : Z;
}.

Definition set_g_revoked (v : Z) (r : grant_row) : grant_row :=
  mk_grant_row r.(g_id) r.(g_key) r.(g_definition) r.(g_version) r.(g_subject) r.(g_profile)
    r.(g_session) r.(g_mode) r.(g_expires) r.(g_remaining) v.

Definition set_g_remaining (v : Z) (r : grant_row) : grant_row :=
  mk_grant_row r.(g_id) r.(g_key) r.(g_definition) r.(g_version) r.(g_subject) r.(g_profile)
    r.(g_session) r.(g_mode) r.(g_expires) v r.(g_revoked).

(** One row of [authorizations]. *)
Record auth_row := mk_auth_row {
  a_id : string;
  a_enforcer : string;
  a_operation : string;
  a_step : string;
  a_fingerprint : string;
  a_payload : string;
  a_created : Z;
  a_valid : Z;
}.

Definition set_a_valid (v : Z) (r : auth_row) : auth_row :=
  mk_auth_row r.(a_id) r.(a_enforcer) r.(a_operation) r.(a_step) r.(a_fingerprint)
    r.(a_payload) r.(a_created) v.

Definition set_a_payload (v : string) (r : auth_row) : auth_row :=
  mk_auth_row r.(a_id) r.(a_enforcer) r.(a_operation) r.(a_step) r.(a_fingerprint) v
    r.(a_created) r.(a_valid).

(** One row of [artifacts]. *)
Record artifact_row := mk_artifact_row {
  t_id : string;
  t_receipt : string;
  t_session : string;
  t_holder : string;
  t_instance : string;
  t_purpose : string;
  t_recipient : string;
  t_scope : string;
  t_expires : Z;
  t_state : string;
  t_level : Z;
  t_cleanup_error : string;
}.

Definition set_t_state (v : string) (r : artifact_row) : artifact_row :=
  mk_artifact_row r.(t_id) r.(t_receipt) r.(t_session) r.(t_holder) r.(t_instance)
    r.(t_purpose) r.(t_recipient) r.(t_scope) r.(t_expires) v r.(t_level) r.(t_cleanup_error).

Definition set_t_cleanup_error (v : string) (r : artifact_row) : artifact_row :=
  mk_artifact_row r.(t_id) r.(t_receipt) r.(t_session) r.(t_holder) r.(t_instance)
    r.(t_purpose) r.(t_recipient) r.(t_scope) r.(t_expires) r.(t_state) r.(t_level) v.

(** One row of [cleanup_acknowledgements]. *)
Record ack_row := mk_ack_row {
  k_artifact : string;
  k_holder : string;
  k_instance : string;
  k_success : Z;
  k_acknowledged : Z;
}.

(** The database: the [meta] values and the tables. *)
Record DB := mk_DB {
  db_revision : Z;
  db_registry_revision : Z;
  db_cleanup_unknown : Z;
  db_incarnation : option string;
  db_definitions : list def_row;
  db_sessions : list session_row;
  db_requests : list request_row;
  db_grants : list grant_row;
  db_authorizations : list auth_row;
  db_authorization_grants : list (string * string);
  db_artifacts : list artifact_row;
  db_artifact_grants : list (string * string);
  db_artifact_parents : list (string * string);
  db_acknowledgements : list ack_row;
}.

Definition set_db_revision (v : Z) (r : DB) : DB :=
  mk_DB v r.(db_registry_revision) r.(db_cleanup_unknown) r.(db_incarnation)
    r.(db_definitions) r.(db_sessions) r.(db_requests) r.(db_grants) r.(db_authorizations)
    r.(db_authorization_grants) r.(db_artifacts) r.(db_artifact_grants)
    r.(db_artifact_parents) r.(db_acknowledgements).

Definition set_db_registry_revision (v : Z) (r : DB) : DB :=
  mk_DB r.(db_revision) v r.(db_cleanup_unknown) r.(db_incarnation) r.(db_definitions)
    r.(db_sessions) r.(db_requests) r.(db_grants) r.(db_authorizations)
    r.(db_authorization_grants) r.(db_artifacts) r.(db_artifact_grants)
    r.(db_artifact_parents) r.(db_acknowledgements).

Definition set_db_cleanup_unknown (v : Z) (r : DB) : DB :=
  mk_DB r.(db_revision) r.(db_registry_revision) v r.(db_incarnation) r.(db_definitions)
    r.(db_sessions) r.(db_requests) r.(db_grants) r.(db_authorizations)
    r.(db_authorization_grants) r.(db_artifacts) r.(db_artifact_grants)
    r.(db_artifact_parents) r.(db_acknowledgements).

Definition set_db_incarnation (v : option string) (r : DB) : DB :=
  mk_DB r.(db_revision) r.(db_registry_revision) r.(db_cleanup_unknown) v r.(db_definitions)
    r.(db_sessions) r.(db_requests) r.(db_grants) r.(db_authorizations)
    r.(db_authorization_grants) r.(db_artifacts) r.(db_artifact_grants)
    r.(db_artifact_parents) r.(db_acknowledgements).

Definition set_db_definitions (v : list def_row) (r : DB) : DB :=
  mk_DB r.(db_revision) r.(db_registry_revision) r.(db_cleanup_unknown) r.(db_incarnation) v
    r.(db_sessions) r.(db_requests) r.(db_grants) r.(db_authorizations)
    r.(db_authorization_grants) r.(db_artifacts) r.(db_artifact_grants)
    r.(db_artifact_parents) r.(db_acknowledgements).

Definition set_db_sessions (v : list session_row) (r : DB) : DB :=
  mk_DB r.(db_revision) r.(db_registry_revision) r.(db_cleanup_unknown) r.(db_incarnation)
    r.(db_definitions) v r.(db_requests) r.(db_grants) r.(db_authorizations)
    r.(db_authorization_grants) r.(db_artifacts) r.(db_artifact_grants)
    r.(db_artifact_parents) r.(db_acknowledgements).

Definition set_db_requests (v : list request_row) (r : DB) : DB :=
  mk_DB r.(db_revision) r.(db_registry_revision) r.(db_cleanup_unknown) r.(db_incarnation)
    r.(db_definitions) r.(db_sessions) v r.(db_grants) r.(db_authorizations)
    r.(db_authorization_grants) r.(db_artifacts) r.(db_artifact_grants)
    r.(db_artifact_parents) r.(db_acknowledgements).

Definition set_db_grants (v : list grant_row) (r : DB) : DB :=
  mk_DB r.(db_revision) r.(db_registry_revision) r.(db_cleanup_unknown) r.(db_incarnation)
    r.(db_definitions) r.(db_sessions) r.(db_requests) v r.(db_authorizations)
    r.(db_authorization_grants) r.(db_artifacts) r.(db_artifact_grants)
    r.(db_artifact_parents) r.(db_acknowledgements).

Definition set_db_authorizations (v : list auth_row) (r : DB) : DB :=
  mk_DB r.(db_revision) r.(db_registry_revision) r.(db_cleanup_unknown) r.(db_incarnation)
    r.(db_definitions) r.(db_sessions) r.(db_requests) r.(db_grants) v
    r.(db_authorization_grants) r.(db_artifacts) r.(db_artifact_grants)
    r.(db_artifact_parents) r.(db_acknowledgements).

Definition set_db_authorization_grants (v : list (string * string)) (r : DB) : DB :=
  mk_DB r.(db_revision) r.(db_registry_revision) r.(db_cleanup_unknown) r.(db_incarnation)
    r.(db_definitions) r.(db_sessions) r.(db_requests) r.(db_grants) r.(db_authorizations) v
    r.(db_artifacts) r.(db_artifact_grants) r.(db_artifact_parents) r.(db_acknowledgements).

Definition set_db_artifacts (v : list artifact_row) (r : DB) : DB :=
  mk_DB r.(db_revision) r.(db_registry_revision) r.(db_cleanup_unknown) r.(db_incarnation)
    r.(db_definitions) r.(db_sessions) r.(db_requests) r.(db_grants) r.(db_authorizations)
    r.(db_authorization_grants) v r.(db_artifact_grants) r.(db_artifact_parents)
    r.(db_acknowledgements).

Definition set_db_artifact_grants (v : list (string * string)) (r : DB) : DB :=
  mk_DB r.(db_revision) r.(db_registry_revision) r.(db_cleanup_unknown) r.(db_incarnation)
    r.(db_definitions) r.(db_sessions) r.(db_requests) r.(db_grants) r.(db_authorizations)
    r.(db_authorization_grants) r.(db_artifacts) v r.(db_artifact_parents)
    r.(db_acknowledgements).

Definition set_db_artifact_parents (v : list (string * string)) (r : DB) : DB :=
  mk_DB r.(db_revision) r.(db_registry_revision) r.(db_cleanup_unknown) r.(db_incarnation)
    r.(db_definitions) r.(db_sessions) r.(db_requests) r.(db_grants) r.(db_authorizations)
    r.(db_authorization_grants) r.(db_artifacts) r.(db_artifact_grants) v
    r.(db_acknowledgements).

Definition set_db_acknowledgements (v : list ack_row) (r : DB) : DB :=
  mk_DB r.(db_revision) r.(db_registry_revision) r.(db_cleanup_unknown) r.(db_incarnation)
    r.(db_definitions) r.(db_sessions) r.(db_requests) r.(db_grants) r.(db_authorizations)
    r.(db_authorization_grants) r.(db_artifacts) r.(db_artifact_grants)
    r.(db_artifact_parents) v.

(** ** Statements *)

(** Extended result codes of constraint violations. *)
Definition SQLITE_CONSTRAINT_PRIMARYKEY : Z := 1555.
Definition SQLITE_CONSTRAINT_UNIQUE : Z := 2067.
Definition SQLITE_CONSTRAINT_FOREIGNKEY : Z := 787.

Definition upd_sessions p f (d : DB) : DB := set_db_sessions (update_where p f d.(db_sessions)) d.
Definition upd_requests p f (d : DB) : DB := set_db_requests (update_where p f d.(db_requests)) d.
Definition upd_grants p f (d : DB) : DB := set_db_grants (update_where p f d.(db_grants)) d.
Definition upd_authorizations p f (d : DB) : DB :=
  set_db_authorizations (update_where p f d.(db_authorizations)) d.
Definition upd_artifacts p f (d : DB) : DB :=
  set_db_artifacts (update_where p f d.(db_artifacts)) d.

(** [x IN (SELECT column FROM table)] on key columns. *)
Definition among {A} (key : A → string) (x : string) (rows : list A) : bool :=
  exists_row (λ r, eqs (key r) x) rows.

Definition ins_session (r : session_row) (d : DB) : Z + DB :=
  if among s_id r.(s_id) d.(db_sessions) then inl SQLITE_CONSTRAINT_PRIMARYKEY
  else inr (set_db_sessions (d.(db_sessions) ++ [r]) d).

Definition request_unique (a b : request_row) : bool :=
  eqs a.(r_owner) b.(r_owner) && eqs a.(r_subject) b.(r_subject) &&
  eqs a.(r_profile) b.(r_profile) && eqs a.(r_client_id) b.(r_client_id).

Definition ins_request (r : request_row) (d : DB) : Z + DB :=
  if among r_id r.(r_id) d.(db_requests) then inl SQLITE_CONSTRAINT_PRIMARYKEY
  else if exists_row (request_unique r) d.(db_requests) then inl SQLITE_CONSTRAINT_UNIQUE
  else inr (set_db_requests (d.(db_requests) ++ [r]) d).

Definition ins_grant (r : grant_row) (d : DB) : Z + DB :=
  if among g_id r.(g_id) d.(db_grants) then inl SQLITE_CONSTRAINT_PRIMARYKEY
  else if negb (among d_id r.(g_definition) d.(db_definitions))
  then inl SQLITE_CONSTRAINT_FOREIGNKEY
  else inr (set_db_grants (d.(db_grants) ++ [r]) d).

Definition auth_unique (a b : auth_row) : bool :=
  eqs a.(a_enforcer) b.(a_enforcer) && eqs a.(a_operation) b.(a_operation) &&
  eqs a.(a_step) b.(a_step).

Definition ins_authorization (r : auth_row) (d : DB) : Z + DB :=
  if among a_id r.(a_id) d.(db_authorizations) then inl SQLITE_CONSTRAINT_PRIMARYKEY
  else if exists_row (auth_unique r) d.(db_authorizations) then inl SQLITE_CONSTRAINT_UNIQUE
  else inr (set_db_authorizations (d.(db_authorizations) ++ [r]) d).

Definition ins_authorization_grant (e : string * string) (d : DB) : Z + DB :=
  if bool_decide (e ∈ d.(db_authorization_grants)) then inl SQLITE_CONSTRAINT_PRIMARYKEY
  else if negb (among a_id e.1 d.(db_authorizations) && among g_id e.2 d.(db_grants))
  then inl SQLITE_CONSTRAINT_FOREIGNKEY
  else inr (set_db_authorization_grants (d.(db_authorization_grants) ++ [e]) d).

Definition artifact_unique (a b : artifact_row) : bool :=
  eqs a.(t_receipt) b.(t_receipt) && eqs a.(t_holder) b.(t_holder) &&
  eqs a.(t_instance) b.(t_instance).

Definition ins_artifact (r : artifact_row) (d : DB) : Z + DB :=
  if among t_id r.(t_id) d.(db_artifacts) then inl SQLITE_CONSTRAINT_PRIMARYKEY
  else if exists_row (artifact_unique r) d.(db_artifacts) then inl SQLITE_CONSTRAINT_UNIQUE
  else if negb (among s_id r.(t_session) d.(db_sessions)) then inl SQLITE_CONSTRAINT_FOREIGNKEY
  else inr (set_db_artifacts (d.(db_artifacts) ++ [r]) d).

Definition ins_artifact_grant (e : string * string) (d : DB) : Z + DB :=
  if bool_decide (e ∈ d.(db_artifact_grants)) then inl SQLITE_CONSTRAINT_PRIMARYKEY
  else if negb (among t_id e.1 d.(db_artifacts) && among g_id e.2 d.(db_grants))
  then inl SQLITE_CONSTRAINT_FOREIGNKEY
  else inr (set_db_artifact_grants (d.(db_artifact_grants) ++ [e]) d).

Definition ins_artifact_parent (e : string * string) (d : DB) : Z + DB :=
  if bool_decide (e ∈ d.(db_artifact_parents)) then inl SQLITE_CONSTRAINT_PRIMARYKEY
  else if negb (among t_id e.1 d.(db_artifacts) && among t_id e.2 d.(db_artifacts))
  then inl SQLITE_CONSTRAINT_FOREIGNKEY
  else inr (set_db_artifact_parents (d.(db_artifact_parents) ++ [e]) d).

(** [INSERT ... ON CONFLICT(id) DO UPDATE]. *)
Definition upsert_definition (r : def_row) (d : DB) : DB :=
  set_db_definitions
    (if among d_id r.(d_id) d.(db_definitions)
     then update_where (λ x, eqs x.(d_id) r.(d_id)) (λ _, r) d.(db_definitions)
     else d.(db_definitions) ++ [r]) d.

Definition upsert_acknowledgement (r : ack_row) (d : DB) : Z + DB :=
  if negb (among t_id r.(k_artifact) d.(db_artifacts)) then inl SQLITE_CONSTRAINT_FOREIGNKEY
  else inr (set_db_acknowledgements
    (if among k_artifact r.(k_artifact) d.(db_acknowledgements)
     then update_where (λ x, eqs x.(k_artifact) r.(k_artifact)) (λ _, r) d.(db_acknowledgements)
     else d.(db_acknowledgements) ++ [r]) d).

(** The schema right after [kSchema] runs on an empty file. *)
Definition empty_db : DB := mk_DB 0 0 0 None [] [] [] [] [] [] [] [] [] [].
