(* ===== verification/Exec.v ===== *)
(** * Executing repository operations

    The members of [Repository::Impl] and the database are the state
    [World].  Operations run in the state and exception monad [M]: as in the
    C++ code an exception keeps the members already assigned, while an open
    [Transaction] that is not committed restores the database when its scope
    ends.

    Everything outside the executor is the environment [Env]: the monotonic
    clock, the random source, the profile authority (written by another
    thread), the installation validators, the file system and the results of
    SQLite: every statement, [BEGIN] and [COMMIT] may fail.  Each reading
    takes the next instant [w_tick], so two readings inside one operation may
    differ. *)
From S2P Require Import Prelude Strings Platform Message Packing Store ProfileState.
From Stdlib Require Import Ascii.

(** A statement that cannot be prepared, bound or stepped. *)
Inductive sql_error := PrepareError (rc : Z) | BindError | StepError (rc : Z).

Class Env := {
  (** [g_get_monotonic_time() / 1000]. *)
  env_now : nat → Z;
  (** 24 bytes of [/dev/urandom]; [None] when it cannot be read. *)
  env_urandom : nat → option (nat → Z);
  (** [profiles_]: absent, or the state seen by each reading. *)
  env_profiles : option (nat → ProfileState);
  (** [validator_], [offline_validator_] and [package_validator_]. *)
  env_validator : option (nat → string → string → string → bool);
  env_offline_validator : option (nat → string → string → string → Z);
  env_package_validator : option (nat → string → string → bool);
  (** Result codes of [BEGIN IMMEDIATE] and [COMMIT]; [None] is success. *)
  env_begin : nat → option Z;
  env_commit : nat → option Z;
  (** The fate of every other statement; [None] is success. *)
  env_sql : nat → option sql_error;
  (** [sqlite3_errmsg]. *)
  env_errmsg : Z → string;
  (** [path_] and [recovery_dir_]. *)
  env_path : string;
  env_recovery_dir : string;
  (** The file system: [geteuid], [lstat] of a directory, of the database and
      of the registry, the bytes read from the registry, and whether a sequence
      of system calls (opening, writing, syncing or renaming) succeeds. *)
  env_euid : Z;
  env_lstat_directory : nat → string → stat_result;
  env_lstat_db : nat → stat_result;
  env_lstat_registry : nat → stat_result;
  env_registry_content : nat → option string;
  env_io : nat → bool;
  (** Opening the database file: [sqlite3_open_v2] with the pragmas, the
      verdict of [quick_check] and the tables found in an existing file. *)
  env_open : nat → option Z;
  env_quick_check : nat → bool;
  env_content : nat → DB;
}.

(** ** State *)

Record World := mk_World {
  (** the database as the current statement sees it *)
  w_db : DB;
  (** the image an open transaction rolls back to *)
  w_saved : option DB;
  (** number of readings of the environment so far *)
  w_tick : nat;
  (** content of the registry file as last renamed into place *)
  w_registry : string;
  (** [db_ != nullptr] *)
  db_open_ : bool;
  db_identity_ : file_stat;
  registry_identity_ : file_stat;
  epoch_ : string;
  revision_ : Z;
  registry_revision_ : Z;
  fenced_ : bool;
  cleanup_unknown_ : bool;
  offline_import_ : bool;
  corrupt_ : bool;
  maintenance_due_ : Z;
  maintenance_class_ : Z;
  expected_device_ : Z;
  expected_inode_ : Z;
  expected_incarnation_ : string;
  definitions_ : gmap string Message;
  operations_ : Message;
  operation_profile_generation_ : Z;
  new_profile_grants_ : list string;
  new_profile_request_ : string;
  profile_compensation_failed_ : bool;
}.

Definition set_w_db (v : DB) (w : World) : World :=
  mk_World v w.(w_saved) w.(w_tick) w.(w_registry) w.(db_open_) w.(db_identity_)
    w.(registry_identity_) w.(epoch_) w.(revision_) w.(registry_revision_) w.(fenced_)
    w.(cleanup_unknown_) w.(offline_import_) w.(corrupt_) w.(maintenance_due_)
    w.(maintenance_class_) w.(expected_device_) w.(expected_inode_) w.(expected_incarnation_)
    w.(definitions_) w.(operations_) w.(operation_profile_generation_) w.(new_profile_grants_)
    w.(new_profile_request_) w.(profile_compensation_failed_).

Definition set_w_saved (v : option DB) (w : World) : World :=
  mk_World w.(w_db) v w.(w_tick) w.(w_registry) w.(db_open_) w.(db_identity_)
    w.(registry_identity_) w.(epoch_) w.(revision_) w.(registry_revision_) w.(fenced_)
    w.(cleanup_unknown_) w.(offline_import_) w.(corrupt_) w.(maintenance_due_)
    w.(maintenance_class_) w.(expected_device_) w.(expected_inode_) w.(expected_incarnation_)
    w.(definitions_) w.(operations_) w.(operation_profile_generation_) w.(new_profile_grants_)
    w.(new_profile_request_) w.(profile_compensation_failed_).

Definition set_w_tick (v : nat) (w : World) : World :=
  mk_World w.(w_db) w.(w_saved) v w.(w_registry) w.(db_open_) w.(db_identity_)
    w.(registry_identity_) w.(epoch_) w.(revision_) w.(registry_revision_) w.(fenced_)
    w.(cleanup_unknown_) w.(offline_import_) w.(corrupt_) w.(maintenance_due_)
    w.(maintenance_class_) w.(expected_device_) w.(expected_inode_) w.(expected_incarnation_)
    w.(definitions_) w.(operations_) w.(operation_profile_generation_) w.(new_profile_grants_)
    w.(new_profile_request_) w.(profile_compensation_failed_).

Definition set_w_registry (v : string) (w : World) : World :=
  mk_World w.(w_db) w.(w_saved) w.(w_tick) v w.(db_open_) w.(db_identity_)
    w.(registry_identity_) w.(epoch_) w.(revision_) w.(registry_revision_) w.(fenced_)
    w.(cleanup_unknown_) w.(offline_import_) w.(corrupt_) w.(maintenance_due_)
    w.(maintenance_class_) w.(expected_device_) w.(expected_inode_) w.(expected_incarnation_)
    w.(definitions_) w.(operations_) w.(operation_profile_generation_) w.(new_profile_grants_)
    w.(new_profile_request_) w.(profile_compensation_failed_).

Definition set_db_open_ (v : bool) (w : World) : World :=
  mk_World w.(w_db) w.(w_saved) w.(w_tick) w.(w_registry) v w.(db_identity_)
    w.(registry_identity_) w.(epoch_) w.(revision_) w.(registry_revision_) w.(fenced_)
    w.(cleanup_unknown_) w.(offline_import_) w.(corrupt_) w.(maintenance_due_)
    w.(maintenance_class_) w.(expected_device_) w.(expected_inode_) w.(expected_incarnation_)
    w.(definitions_) w.(operations_) w.(operation_profile_generation_) w.(new_profile_grants_)
    w.(new_profile_request_) w.(profile_compensation_failed_).

Definition set_db_identity_ (v : file_stat) (w : World) : World :=
  mk_World w.(w_db) w.(w_saved) w.(w_tick) w.(w_registry) w.(db_open_) v
    w.(registry_identity_) w.(epoch_) w.(revision_) w.(registry_revision_) w.(fenced_)
    w.(cleanup_unknown_) w.(offline_import_) w.(corrupt_) w.(maintenance_due_)
    w.(maintenance_class_) w.(expected_device_) w.(expected_inode_) w.(expected_incarnation_)
    w.(definitions_) w.(operations_) w.(operation_profile_generation_) w.(new_profile_grants_)
    w.(new_profile_request_) w.(profile_compensation_failed_).

Definition set_registry_identity_ (v : file_stat) (w : World) : World :=
  mk_World w.(w_db) w.(w_saved) w.(w_tick) w.(w_registry) w.(db_open_) w.(db_identity_) v
    w.(epoch_) w.(revision_) w.(registry_revision_) w.(fenced_) w.(cleanup_unknown_)
    w.(offline_import_) w.(corrupt_) w.(maintenance_due_) w.(maintenance_class_)
    w.(expected_device_) w.(expected_inode_) w.(expected_incarnation_) w.(definitions_)
    w.(operations_) w.(operation_profile_generation_) w.(new_profile_grants_)
    w.(new_profile_request_) w.(profile_compensation_failed_).

Definition set_epoch_ (v : string) (w : World) : World :=
  mk_World w.(w_db) w.(w_saved) w.(w_tick) w.(w_registry) w.(db_open_) w.(db_identity_)
    w.(registry_identity_) v w.(revision_) w.(registry_revision_) w.(fenced_)
    w.(cleanup_unknown_) w.(offline_import_) w.(corrupt_) w.(maintenance_due_)
    w.(maintenance_class_) w.(expected_device_) w.(expected_inode_) w.(expected_incarnation_)
    w.(definitions_) w.(operations_) w.(operation_profile_generation_) w.(new_profile_grants_)
    w.(new_profile_request_) w.(profile_compensation_failed_).

Definition set_revision_ (v : Z) (w : World) : World :=
  mk_World w.(w_db) w.(w_saved) w.(w_tick) w.(w_registry) w.(db_open_) w.(db_identity_)
    w.(registry_identity_) w.(epoch_) v w.(registry_revision_) w.(fenced_)
    w.(cleanup_unknown_) w.(offline_import_) w.(corrupt_) w.(maintenance_due_)
    w.(maintenance_class_) w.(expected_device_) w.(expected_inode_) w.(expected_incarnation_)
    w.(definitions_) w.(operations_) w.(operation_profile_generation_) w.(new_profile_grants_)
    w.(new_profile_request_) w.(profile_compensation_failed_).

Definition set_registry_revision_ (v : Z) (w : World) : World :=
  mk_World w.(w_db) w.(w_saved) w.(w_tick) w.(w_registry) w.(db_open_) w.(db_identity_)
    w.(registry_identity_) w.(epoch_) w.(revision_) v w.(fenced_) w.(cleanup_unknown_)
    w.(offline_import_) w.(corrupt_) w.(maintenance_due_) w.(maintenance_class_)
    w.(expected_device_) w.(expected_inode_) w.(expected_incarnation_) w.(definitions_)
    w.(operations_) w.(operation_profile_generation_) w.(new_profile_grants_)
    w.(new_profile_request_) w.(profile_compensation_failed_).

Definition set_fenced_ (v : bool) (w : World) : World :=
  mk_World w.(w_db) w.(w_saved) w.(w_tick) w.(w_registry) w.(db_open_) w.(db_identity_)
    w.(registry_identity_) w.(epoch_) w.(revision_) w.(registry_revision_) v
    w.(cleanup_unknown_) w.(offline_import_) w.(corrupt_) w.(maintenance_due_)
    w.(maintenance_class_) w.(expected_device_) w.(expected_inode_) w.(expected_incarnation_)
    w.(definitions_) w.(operations_) w.(operation_profile_generation_) w.(new_profile_grants_)
    w.(new_profile_request_) w.(profile_compensation_failed_).

Definition set_cleanup_unknown_ (v : bool) (w : World) : World :=
  mk_World w.(w_db) w.(w_saved) w.(w_tick) w.(w_registry) w.(db_open_) w.(db_identity_)
    w.(registry_identity_) w.(epoch_) w.(revision_) w.(registry_revision_) w.(fenced_) v
    w.(offline_import_) w.(corrupt_) w.(maintenance_due_) w.(maintenance_class_)
    w.(expected_device_) w.(expected_inode_) w.(expected_incarnation_) w.(definitions_)
    w.(operations_) w.(operation_profile_generation_) w.(new_profile_grants_)
    w.(new_profile_request_) w.(profile_compensation_failed_).

Definition set_offline_import_ (v : bool) (w : World) : World :=
  mk_World w.(w_db) w.(w_saved) w.(w_tick) w.(w_registry) w.(db_open_) w.(db_identity_)
    w.(registry_identity_) w.(epoch_) w.(revision_) w.(registry_revision_) w.(fenced_)
    w.(cleanup_unknown_) v w.(corrupt_) w.(maintenance_due_) w.(maintenance_class_)
    w.(expected_device_) w.(expected_inode_) w.(expected_incarnation_) w.(definitions_)
    w.(operations_) w.(operation_profile_generation_) w.(new_profile_grants_)
    w.(new_profile_request_) w.(profile_compensation_failed_).

Definition set_corrupt_ (v : bool) (w : World) : World :=
  mk_World w.(w_db) w.(w_saved) w.(w_tick) w.(w_registry) w.(db_open_) w.(db_identity_)
    w.(registry_identity_) w.(epoch_) w.(revision_) w.(registry_revision_) w.(fenced_)
    w.(cleanup_unknown_) w.(offline_import_) v w.(maintenance_due_) w.(maintenance_class_)
    w.(expected_device_) w.(expected_inode_) w.(expected_incarnation_) w.(definitions_)
    w.(operations_) w.(operation_profile_generation_) w.(new_profile_grants_)
    w.(new_profile_request_) w.(profile_compensation_failed_).

Definition set_maintenance_due_ (v : Z) (w : World) : World :=
  mk_World w.(w_db) w.(w_saved) w.(w_tick) w.(w_registry) w.(db_open_) w.(db_identity_)
    w.(registry_identity_) w.(epoch_) w.(revision_) w.(registry_revision_) w.(fenced_)
    w.(cleanup_unknown_) w.(offline_import_) w.(corrupt_) v w.(maintenance_class_)
    w.(expected_device_) w.(expected_inode_) w.(expected_incarnation_) w.(definitions_)
    w.(operations_) w.(operation_profile_generation_) w.(new_profile_grants_)
    w.(new_profile_request_) w.(profile_compensation_failed_).

Definition set_maintenance_class_ (v : Z) (w : World) : World :=
  mk_World w.(w_db) w.(w_saved) w.(w_tick) w.(w_registry) w.(db_open_) w.(db_identity_)
    w.(registry_identity_) w.(epoch_) w.(revision_) w.(registry_revision_) w.(fenced_)
    w.(cleanup_unknown_) w.(offline_import_) w.(corrupt_) w.(maintenance_due_) v
    w.(expected_device_) w.(expected_inode_) w.(expected_incarnation_) w.(definitions_)
    w.(operations_) w.(operation_profile_generation_) w.(new_profile_grants_)
    w.(new_profile_request_) w.(profile_compensation_failed_).

Definition set_expected_device_ (v : Z) (w : World) : World :=
  mk_World w.(w_db) w.(w_saved) w.(w_tick) w.(w_registry) w.(db_open_) w.(db_identity_)
    w.(registry_identity_) w.(epoch_) w.(revision_) w.(registry_revision_) w.(fenced_)
    w.(cleanup_unknown_) w.(offline_import_) w.(corrupt_) w.(maintenance_due_)
    w.(maintenance_class_) v w.(expected_inode_) w.(expected_incarnation_) w.(definitions_)
    w.(operations_) w.(operation_profile_generation_) w.(new_profile_grants_)
    w.(new_profile_request_) w.(profile_compensation_failed_).

Definition set_expected_inode_ (v : Z) (w : World) : World :=
  mk_World w.(w_db) w.(w_saved) w.(w_tick) w.(w_registry) w.(db_open_) w.(db_identity_)
    w.(registry_identity_) w.(epoch_) w.(revision_) w.(registry_revision_) w.(fenced_)
    w.(cleanup_unknown_) w.(offline_import_) w.(corrupt_) w.(maintenance_due_)
    w.(maintenance_class_) w.(expected_device_) v w.(expected_incarnation_) w.(definitions_)
    w.(operations_) w.(operation_profile_generation_) w.(new_profile_grants_)
    w.(new_profile_request_) w.(profile_compensation_failed_).

Definition set_expected_incarnation_ (v : string) (w : World) : World :=
  mk_World w.(w_db) w.(w_saved) w.(w_tick) w.(w_registry) w.(db_open_) w.(db_identity_)
    w.(registry_identity_) w.(epoch_) w.(revision_) w.(registry_revision_) w.(fenced_)
    w.(cleanup_unknown_) w.(offline_import_) w.(corrupt_) w.(maintenance_due_)
    w.(maintenance_class_) w.(expected_device_) w.(expected_inode_) v w.(definitions_)
    w.(operations_) w.(operation_profile_generation_) w.(new_profile_grants_)
    w.(new_profile_request_) w.(profile_compensation_failed_).

Definition set_definitions_ (v : gmap string Message) (w : World) : World :=
  mk_World w.(w_db) w.(w_saved) w.(w_tick) w.(w_registry) w.(db_open_) w.(db_identity_)
    w.(registry_identity_) w.(epoch_) w.(revision_) w.(registry_revision_) w.(fenced_)
    w.(cleanup_unknown_) w.(offline_import_) w.(corrupt_) w.(maintenance_due_)
    w.(maintenance_class_) w.(expected_device_) w.(expected_inode_) w.(expected_incarnation_)
    v w.(operations_) w.(operation_profile_generation_) w.(new_profile_grants_)
    w.(new_profile_request_) w.(profile_compensation_failed_).

Definition set_operations_ (v : Message) (w : World) : World :=
  mk_World w.(w_db) w.(w_saved) w.(w_tick) w.(w_registry) w.(db_open_) w.(db_identity_)
    w.(registry_identity_) w.(epoch_) w.(revision_) w.(registry_revision_) w.(fenced_)
    w.(cleanup_unknown_) w.(offline_import_) w.(corrupt_) w.(maintenance_due_)
    w.(maintenance_class_) w.(expected_device_) w.(expected_inode_) w.(expected_incarnation_)
    w.(definitions_) v w.(operation_profile_generation_) w.(new_profile_grants_)
    w.(new_profile_request_) w.(profile_compensation_failed_).

Definition set_operation_profile_generation_ (v : Z) (w : World) : World :=
  mk_World w.(w_db) w.(w_saved) w.(w_tick) w.(w_registry) w.(db_open_) w.(db_identity_)
    w.(registry_identity_) w.(epoch_) w.(revision_) w.(registry_revision_) w.(fenced_)
    w.(cleanup_unknown_) w.(offline_import_) w.(corrupt_) w.(maintenance_due_)
    w.(maintenance_class_) w.(expected_device_) w.(expected_inode_) w.(expected_incarnation_)
    w.(definitions_) w.(operations_) v w.(new_profile_grants_) w.(new_profile_request_)
    w.(profile_compensation_failed_).

Definition set_new_profile_grants_ (v : list string) (w : World) : World :=
  mk_World w.(w_db) w.(w_saved) w.(w_tick) w.(w_registry) w.(db_open_) w.(db_identity_)
    w.(registry_identity_) w.(epoch_) w.(revision_) w.(registry_revision_) w.(fenced_)
    w.(cleanup_unknown_) w.(offline_import_) w.(corrupt_) w.(maintenance_due_)
    w.(maintenance_class_) w.(expected_device_) w.(expected_inode_) w.(expected_incarnation_)
    w.(definitions_) w.(operations_) w.(operation_profile_generation_) v
    w.(new_profile_request_) w.(profile_compensation_failed_).

Definition set_new_profile_request_ (v : string) (w : World) : World :=
  mk_World w.(w_db) w.(w_saved) w.(w_tick) w.(w_registry) w.(db_open_) w.(db_identity_)
    w.(registry_identity_) w.(epoch_) w.(revision_) w.(registry_revision_) w.(fenced_)
    w.(cleanup_unknown_) w.(offline_import_) w.(corrupt_) w.(maintenance_due_)
    w.(maintenance_class_) w.(expected_device_) w.(expected_inode_) w.(expected_incarnation_)
    w.(definitions_) w.(operations_) w.(operation_profile_generation_) w.(new_profile_grants_)
    v w.(profile_compensation_failed_).

Definition set_profile_compensation_failed_ (v : bool) (w : World) : World :=
  mk_World w.(w_db) w.(w_saved) w.(w_tick) w.(w_registry) w.(db_open_) w.(db_identity_)
    w.(registry_identity_) w.(epoch_) w.(revision_) w.(registry_revision_) w.(fenced_)
    w.(cleanup_unknown_) w.(offline_import_) w.(corrupt_) w.(maintenance_due_)
    w.(maintenance_class_) w.(expected_device_) w.(expected_inode_) w.(expected_incarnation_)
    w.(definitions_) w.(operations_) w.(operation_profile_generation_) w.(new_profile_grants_)
    w.(new_profile_request_) v.

(** ** The monad *)

Definition M (A : Type) : Type := World → World * outcome A.

#[export] Instance M_ret : MRet M := λ A a w, (w, Ret a).
#[export] Instance M_bind : MBind M := λ A B k m w,
  match m w with
  | (w', Ret a) => k a w'
  | (w', Throw f) => (w', Throw f)
  end.

Definition lift {A} (o : outcome A) : M A := λ w, (w, o).
Definition throw {A} (status : Z) (reason : string) : M A := lift (fail status reason).
Definition require (condition : bool) (status : Z) (reason : string) : M () :=
  lift (Require condition status reason).

Definition gets {A} (f : World → A) : M A := λ w, (w, Ret (f w)).
Definition modify (f : World → World) : M () := λ w, (f w, Ret ()).

(** [try { m } catch (const Failure& failure) { handler }]. *)
Definition catch {A} (m : M A) (handler : Failure → M A) : M A := λ w,
  match m w with
  | (w', Ret a) => (w', Ret a)
  | (w', Throw f) => handler f w'
  end.

(** A loop over a range or a list, in order. *)
Fixpoint for_each {A} (l : list A) (body : A → M ()) : M () :=
  match l with
  | [] => mret ()
  | x :: l' => body x;; for_each l' body
  end.

(** A loop that carries local variables. *)
Fixpoint fold_m {A S} (l : list A) (body : S → A → M S) (s : S) : M S :=
  match l with
  | [] => mret s
  | x :: l' => s ← body s x; fold_m l' body s
  end.

(** Short-circuit [&&] and [||] on conditions with effects. *)
Definition andM (a b : M bool) : M bool := x ← a; if (x : bool) then b else mret false.
Definition orM (a b : M bool) : M bool := x ← a; if (x : bool) then mret true else b.

Section exec.
Context `{Platform} `{Env}.

(** Read the environment at the next instant. *)
Definition observe {A} (f : nat → A) : M A := λ w,
  (set_w_tick (S w.(w_tick)) w, Ret (f w.(w_tick))).

Definition Now : M Z := observe env_now.

(** [deadline > Now()]. *)
Definition after_now (deadline : Z) : M bool := n ← Now; mret (deadline >? n).

Definition Id : M string :=
  r ← observe env_urandom;
  match r with
  | None => throw kStorage "random source unavailable"
  | Some bytes =>
      mret (foldr (λ i acc, String (hex_char (Z.shiftr (bytes i mod 256) 4))
                              (String (hex_char (Z.land (bytes i mod 256) 15)) acc))
              "" (seq 0 24))
  end.

(** [validator_ && validator_(package, app, identity)]. *)
Definition validator (package app identity : string) : M bool :=
  match env_validator with
  | None => mret false
  | Some f => observe (λ n, f n package app identity)
  end.

(** [Failure] for a SQLite result code. *)
Definition sql_failure (rc : Z) : Failure :=
  mkFailure (if (Z.land rc 255 =? 5) || (Z.land rc 255 =? 6) then - EBUSY else kStorage)
    (env_errmsg rc) rc.

(** What the storage may make of a [Statement] that is run. *)
Definition statement_failure (e : sql_error) : Failure :=
  match e with
  | PrepareError rc => mkFailure kStorage (env_errmsg rc) rc
  | BindError => mkFailure kStorage "SQL bind failed" SQLITE_OK
  | StepError rc => sql_failure rc
  end.

Definition sql {A} (m : M A) : M A :=
  e ← observe env_sql;
  match e with
  | Some e => lift (Throw (statement_failure e))
  | None => m
  end.

(** A [SELECT], an [UPDATE] or a [DELETE]. *)
Definition query {A} (f : DB → A) : M A := sql (gets (λ w, f w.(w_db))).
Definition statement (f : DB → DB) : M () := sql (modify (λ w, set_w_db (f w.(w_db)) w)).

(** An [INSERT] that may violate a constraint. *)
Definition insert_stmt (f : DB → Z + DB) : M () :=
  sql (λ w, match f w.(w_db) with
            | inl rc => (w, Throw (sql_failure rc))
            | inr d => (set_w_db d w, Ret ())
            end).

(** The scope of a [Transaction]: [BEGIN IMMEDIATE], the body, and
    [ROLLBACK] at the end of the scope unless it was committed. *)
Definition transaction {A} (body : M A) : M A := λ w,
  match env_begin w.(w_tick) with
  | Some rc => (set_w_tick (S w.(w_tick)) w, Throw (sql_failure rc))
  | None =>
      let (w', r) := body (set_w_saved (Some w.(w_db)) (set_w_tick (S w.(w_tick)) w)) in
      match w'.(w_saved) with
      | Some saved => (set_w_saved None (set_w_db saved w'), r)
      | None => (w', r)
      end
  end.

(** [transaction.Commit()]. *)
Definition Commit : M () :=
  rc ← observe env_commit;
  match rc with
  | Some rc => lift (Throw (sql_failure rc))
  | None => modify (set_w_saved None)
  end.

Definition Bump : M () := statement (λ d, set_db_revision (d.(db_revision) + 1) d).

(** [profiles_ && profiles_->Enabled()] and [profiles_->Generation()]. *)
Definition profiles_enabled : M bool :=
  match env_profiles with
  | None => mret false
  | Some f => observe (λ n, (f n).(ps_enabled))
  end.

Definition profiles_generation : M Z :=
  match env_profiles with
  | None => mret 0
  | Some f => observe (λ n, (f n).(ps_generation))
  end.

Definition ActiveContext (request : Message) : M () :=
  match env_profiles with
  | None => mret ()
  | Some f =>
      status ← observe (λ n, Check (f n) (Get request "subject") (Get request "profile"));
      require (status =? 0) status "active profile authority denied"
  end.

(** Body of the compensating transaction of [ProfileCommit]. *)
Definition profile_retire : M () :=
  transaction (
    grants ← gets new_profile_grants_;
    for_each grants (λ id,
      statement (upd_grants (λ g, eqs g.(g_id) id) (set_g_revoked 1)));;
    request ← gets new_profile_request_;
    (if negb (empty request)
     then statement (upd_requests (λ r, eqs r.(r_id) request)
            (λ r, set_r_token "" (set_r_state "INVALIDATED" r)))
     else mret ());;
    Bump;;
    Commit).

Definition ProfileCommit : M () :=
  enabled ← profiles_enabled;
  if negb enabled then Commit
  else
    generation ← profiles_generation;
    operation ← gets operation_profile_generation_;
    require (operation =? generation) (- ESTALE) "profile changed before transaction commit";;
    Commit;;
    generation ← profiles_generation;
    if operation =? generation then mret ()
    else
      catch profile_retire (λ _,
        modify (set_profile_compensation_failed_ true);;
        modify (set_fenced_ true);;
        throw kStorage "profile approval retirement failed");;
      throw (- ESTALE) "profile changed during transaction commit".
End exec.
