(* ===== verification/Logic.v ===== *)
(** * A program logic for repository operations

    [evolves R m] says that running [m] from any state relates the database
    before and after by the preorder [R], whether [m] returns or throws, that
    [m] leaves an enclosing transaction either untouched or committed, and
    that time does not run backwards.
    The rules are syntax directed; [solve_evolves] applies them and the
    [consent] hints.  An invariant [I] is preserved when the operation
    evolves along [keeps I].

    [run_steps] inverts a successful run into the runs of its parts. *)
From S2P Require Import Prelude Strings Platform Message Packing Store ProfileState Exec.

(** ** Evolution *)

Definition evolves_at (R : DB → DB → Prop) {A} (m : M A) (w : World) : Prop :=
  R w.(w_db) (m w).1.(w_db) ∧
  ((m w).1.(w_saved) = w.(w_saved) ∨ (m w).1.(w_saved) = None) ∧
  (w.(w_tick) ≤ (m w).1.(w_tick))%nat.

Definition evolves (R : DB → DB → Prop) {A} (m : M A) : Prop := ∀ w, evolves_at R m w.

Definition keeps (I : DB → Prop) (d d' : DB) : Prop := I d → I d'.

#[export] Instance keeps_preorder I : PreOrder (keeps I).
Proof. unfold keeps. split; [intros d Hd; done|intros x y z H1 H2 Hx; auto]. Qed.

(** Two preorders at once. *)
Definition both (R S : DB → DB → Prop) (d d' : DB) : Prop := R d d' ∧ S d d'.

#[export] Instance both_preorder R S `{!PreOrder R, !PreOrder S} : PreOrder (both R S).
Proof.
  split; [split; reflexivity|]. intros x y z [] []. split; etransitivity; eassumption.
Qed.

Section rules.
Context `{Platform} `{Env} (R : DB → DB → Prop) `{!PreOrder R}.

Lemma evolves_ret {A} (a : A) : evolves R (mret a : M A).
Proof. intros w. split_and!; [reflexivity|by left|done]. Qed.

Lemma evolves_lift {A} (o : outcome A) : evolves R (lift o).
Proof. intros w. split_and!; [reflexivity|by left|done]. Qed.

Lemma evolves_throw {A} s r : evolves R (throw s r : M A).
Proof. apply evolves_lift. Qed.

Lemma evolves_require c s r : evolves R (require c s r).
Proof. apply evolves_lift. Qed.

Lemma evolves_gets {A} (f : World → A) : evolves R (gets f).
Proof. intros w. split_and!; [reflexivity|by left|done]. Qed.

Lemma evolves_observe {A} (f : nat → A) : evolves R (observe f).
Proof. intros w. split_and!; simpl; [reflexivity|by left|lia]. Qed.

(** Members other than the database may be assigned freely. *)
Lemma evolves_modify (f : World → World) :
  (∀ w, w_db (f w) = w_db w) → (∀ w, w_saved (f w) = w_saved w) →
  (∀ w, w_tick (f w) = w_tick w) → evolves R (modify f).
Proof.
  intros Hd Hs Ht w.
  split_and!; simpl; [rewrite Hd; reflexivity|left; apply Hs|rewrite Ht; done].
Qed.

Lemma evolves_sql_at {A} (m : M A) w :
  evolves_at R m (set_w_tick (S w.(w_tick)) w) → evolves_at R (sql m) w.
Proof.
  unfold evolves_at, sql, mbind, M_bind, observe. simpl. intros (Hd & Hs & Ht).
  destruct (env_sql (w_tick w)); simpl.
  - split_and!; [reflexivity|by left|lia].
  - split_and!; [done|done|lia].
Qed.

Lemma evolves_query {A} (f : DB → A) : evolves R (query f).
Proof. intros w. apply evolves_sql_at, evolves_gets. Qed.

Lemma evolves_statement_at f w : R w.(w_db) (f w.(w_db)) → evolves_at R (statement f) w.
Proof. intros Hf. apply evolves_sql_at. split_and!; simpl; [apply Hf|by left|done]. Qed.

Lemma evolves_statement f : (∀ d, R d (f d)) → evolves R (statement f).
Proof. intros Hf w. apply evolves_statement_at, Hf. Qed.

Lemma evolves_insert_at f w :
  (∀ d', f w.(w_db) = inr d' → R w.(w_db) d') → evolves_at R (insert_stmt f) w.
Proof.
  intros Hf. apply evolves_sql_at. unfold evolves_at. simpl.
  destruct (f (w_db w)) eqn:E; simpl.
  - split_and!; [reflexivity|by left|done].
  - split_and!; [by apply Hf|by left|done].
Qed.

Lemma evolves_insert f : (∀ d d', f d = inr d' → R d d') → evolves R (insert_stmt f).
Proof. intros Hf w. apply evolves_insert_at. intros d'. apply Hf. Qed.

Lemma evolves_bind_at {A B} (m : M A) (k : A → M B) w :
  evolves_at R m w → (∀ a w', m w = (w', Ret a) → evolves_at R (k a) w') →
  evolves_at R (m ≫= k) w.
Proof.
  unfold evolves_at. intros (Hd & Hs & Ht) Hk. unfold mbind, M_bind.
  destruct (m w) as [w' [a|f]] eqn:E; simpl in *; [|done].
  destruct (Hk a w' eq_refl) as (Hd' & Hs' & Ht'). split_and!; [by etransitivity| |lia].
  destruct Hs' as [-> | ->]; auto.
Qed.

Lemma evolves_bind {A B} (m : M A) (k : A → M B) :
  evolves R m → (∀ a, evolves R (k a)) → evolves R (m ≫= k).
Proof. intros Hm Hk w. apply evolves_bind_at; [apply Hm|intros; apply Hk]. Qed.

Lemma evolves_catch {A} (m : M A) h :
  evolves R m → (∀ f, evolves R (h f)) → evolves R (catch m h).
Proof.
  intros Hm Hh w. destruct (Hm w) as (Hd & Hs & Ht). unfold evolves_at, catch.
  destruct (m w) as [w' [a|f]]; simpl in *; [done|].
  destruct (Hh f w') as (Hd' & Hs' & Ht'). split_and!; [by etransitivity| |lia].
  destruct Hs' as [-> | ->]; auto.
Qed.

Lemma evolves_for_each {A} (l : list A) body :
  (∀ a, evolves R (body a)) → evolves R (for_each l body).
Proof.
  intros Hb. induction l as [|x l IH]; simpl; [apply evolves_ret|].
  apply evolves_bind; [apply Hb|done].
Qed.

Lemma evolves_fold_m {A S} (l : list A) (body : S → A → M S) s :
  (∀ s a, evolves R (body s a)) → evolves R (fold_m l body s).
Proof.
  intros Hb. revert s. induction l as [|x l IH]; intros s; simpl; [apply evolves_ret|].
  apply evolves_bind; [apply Hb|done].
Qed.

Lemma evolves_andM a b : evolves R a → evolves R b → evolves R (andM a b).
Proof. intros. apply evolves_bind; [done|]. intros []; [done|apply evolves_ret]. Qed.

Lemma evolves_Commit : evolves R Commit.
Proof.
  intros w. unfold evolves_at, Commit, mbind, M_bind, observe. simpl.
  destruct (env_commit (w_tick w)); simpl; (split_and!; [reflexivity|auto|lia]).
Qed.

(** Inside a transaction the body starts from the saved image; if it is not
    committed the image is restored. *)
Lemma evolves_transaction_at {A} (body : M A) w :
  evolves_at R body (set_w_saved (Some w.(w_db)) (set_w_tick (S w.(w_tick)) w)) →
  evolves_at R (transaction body) w.
Proof.
  unfold evolves_at, transaction. intros Hb.
  destruct (env_begin (w_tick w)); simpl; [split_and!; [reflexivity|by left|lia]|].
  destruct (body _) as [w' r] eqn:E. simpl in Hb. destruct Hb as (Hd & Hs & Ht).
  destruct (w_saved w') as [s|] eqn:Es; simpl.
  - destruct Hs as [Hs|Hs]; simplify_eq. split_and!; [reflexivity|by right|lia].
  - rewrite Es. split_and!; [done|by right|lia].
Qed.

Lemma evolves_transaction {A} (body : M A) : evolves R body → evolves R (transaction body).
Proof. intros Hb w. apply evolves_transaction_at, Hb. Qed.
End rules.

Lemma evolves_mono (R S : DB → DB → Prop) {A} (m : M A) :
  (∀ d d', R d d' → S d d') → evolves R m → evolves S m.
Proof. intros HRS Hm w. destruct (Hm w) as (? & ? & ?). split_and!; auto. Qed.

Lemma evolves_both (R S : DB → DB → Prop) {A} (m : M A) :
  evolves R m → evolves S m → evolves (both R S) m.
Proof.
  intros HR HS w. destruct (HR w) as (? & ? & ?), (HS w) as (? & ? & ?). by split_and!.
Qed.

(** A computation that reads only. *)
Definition reads {A} (m : M A) : Prop := evolves eq m.

#[export] Instance eq_preorder_db : PreOrder (@eq DB).
Proof. split; congruence. Qed.

Lemma evolves_reads R `{!PreOrder R} {A} (m : M A) : reads m → evolves R m.
Proof. apply evolves_mono. intros ?? ->. reflexivity. Qed.

(** Apply the rules, splitting on every branch of the program. *)
Ltac evolves_step :=
  lazymatch goal with
  | |- evolves _ (mret _) => apply evolves_ret; apply _
  | |- evolves _ (require _ _ _) => apply evolves_require; apply _
  | |- evolves _ (throw _ _) => apply evolves_throw; apply _
  | |- evolves _ (lift _) => apply evolves_lift; apply _
  | |- evolves _ (query _) => apply evolves_query; apply _
  | |- evolves _ (gets _) => apply evolves_gets; apply _
  | |- evolves _ (observe _) => apply evolves_observe; apply _
  | |- evolves _ Commit => apply evolves_Commit; apply _
  | |- evolves _ (andM _ _) => apply evolves_andM; [apply _| |]
  | |- evolves _ (_ ≫= _) => apply evolves_bind; [apply _| |intros ?]
  | |- evolves _ (catch _ _) => apply evolves_catch; [apply _| |intros ?]
  | |- evolves _ (for_each _ _) => apply evolves_for_each; [apply _|intros ?]
  | |- evolves _ (fold_m _ _ _) => apply evolves_fold_m; [apply _|intros ? ?]
  | |- evolves _ (transaction _) => apply evolves_transaction; [apply _|]
  | |- evolves _ (modify _) => apply evolves_modify; [apply _|intros; reflexivity..]
  | |- evolves _ (statement _) =>
      apply evolves_statement; [apply _|]; intros ?; try solve [auto with consent nocore]
  | |- evolves _ (insert_stmt _) => apply evolves_insert; [apply _|intros ? ? ?]
  | |- evolves _ (if ?b then _ else _) => destruct b
  | |- evolves _ (match ?x with _ => _ end) => destruct x
  | |- evolves _ (let _ := _ in _) => cbv zeta
  | |- evolves _ _ =>
      first [ solve [eauto with consent nocore]
            | apply evolves_reads; [apply _|solve [eauto with consent nocore]] ]
  end; cbv beta.

Ltac solve_evolves := repeat evolves_step.

Section basic_reads.
Context `{Platform} `{Env}.

Lemma reads_Now : reads Now.
Proof. unfold reads, Now. apply evolves_observe. apply _. Qed.

Lemma reads_after_now t : reads (after_now t).
Proof. unfold reads, after_now, Now. solve_evolves. Qed.

Lemma reads_Id : reads Id.
Proof. unfold reads, Id. solve_evolves. Qed.

Lemma reads_validator p a i : reads (validator p a i).
Proof. unfold reads, validator. solve_evolves. Qed.

Lemma reads_ActiveContext q : reads (ActiveContext q).
Proof. unfold reads, ActiveContext. solve_evolves. Qed.

Lemma reads_profiles_enabled : reads profiles_enabled.
Proof. unfold reads, profiles_enabled. solve_evolves. Qed.

Lemma reads_profiles_generation : reads profiles_generation.
Proof. unfold reads, profiles_generation. solve_evolves. Qed.
End basic_reads.

#[export] Hint Resolve reads_Now reads_after_now reads_Id reads_validator
  reads_ActiveContext reads_profiles_enabled reads_profiles_generation : consent.

(** Sequencing after a read, keeping what it returned. *)
Lemma evolves_bind_reads R `{!PreOrder R} {A B} (m : M A) (k : A → M B) w :
  reads m →
  (∀ a w', m w = (w', Ret a) → w_db w' = w_db w → evolves_at R (k a) w') →
  evolves_at R (m ≫= k) w.
Proof.
  intros Hm Hk. apply evolves_bind_at; [done|by apply evolves_reads|].
  intros a w' Hrun. apply Hk; [done|]. destruct (Hm w) as [Hd _]. by rewrite Hrun in Hd.
Qed.

Lemma reads_run {A} (m : M A) w w' r :
  reads m → m w = (w', r) → w_db w' = w_db w ∧ (w_tick w ≤ w_tick w')%nat.
Proof. intros Hm Hrun. destruct (Hm w) as (Hd & _ & Ht). by rewrite Hrun in Hd, Ht. Qed.

(** Step over a read at a given state, naming its run and the equality of
    the databases. *)
Tactic Notation "at_read" "as" ident(Hrun) ident(Hdb) :=
  apply evolves_bind_reads;
  [apply _|solve [eauto with consent nocore|unfold reads; solve_evolves]|intros ? ? Hrun Hdb];
  cbn [w_db set_w_tick] in Hdb.

(** Step over reads of which nothing is needed but the database. *)
Ltac at_reads :=
  repeat (apply evolves_bind_reads;
    [apply _|solve [eauto with consent nocore|unfold reads; solve_evolves]|];
    let Hdb := fresh "Hdb" in intros ? ? _ Hdb; cbn [w_db set_w_tick] in Hdb;
    rewrite <- ?Hdb in *).

Lemma evolves_then R `{!PreOrder R} {A B} (m : M A) (k : A → M B) w :
  evolves_at R m w → (∀ a, evolves R (k a)) → evolves_at R (m ≫= k) w.
Proof. intros Hm Hk. apply evolves_bind_at; [done|done|]. intros. apply Hk. Qed.

Lemma evolves_tick R {A} (m : M A) w w' r :
  evolves R m → m w = (w', r) → (w_tick w ≤ w_tick w')%nat.
Proof. intros Hm Hrun. destruct (Hm w) as (_ & _ & Ht). by rewrite Hrun in Ht. Qed.

Lemma evolves_here R {A} (m : M A) w : evolves R m → evolves_at R m w.
Proof. intros Hm. apply Hm. Qed.

(** A loop whose body needs, and keeps, a property of the state. *)
Lemma evolves_for_each_at R `{!PreOrder R} {A} (P : World → Prop) (l : list A) body w :
  P w →
  (∀ a w, a ∈ l → P w →
    evolves_at R (body a) w ∧ ∀ w' u, body a w = (w', Ret u) → P w') →
  evolves_at R (for_each l body) w.
Proof.
  intros HP Hb. revert w HP. induction l as [|a l IH]; intros w HP; simpl.
  { by apply evolves_ret. }
  destruct (Hb a w ltac:(by left) HP) as [He Hk]. apply evolves_bind_at; [done|done|].
  intros u w1 Hrun. apply IH; [|by eapply Hk]. intros x w2 Hx. apply Hb. by right.
Qed.

(** ** Inverting successful runs *)

Lemma run_bind {A B} (m : M A) (k : A → M B) w w' b :
  (m ≫= k) w = (w', Ret b) ↔ ∃ a w1, m w = (w1, Ret a) ∧ k a w1 = (w', Ret b).
Proof.
  unfold mbind, M_bind. destruct (m w) as [w1 [a|f]]; split.
  - intros Hk. eauto.
  - intros (a' & w1' & [= -> ->] & Hk). done.
  - done.
  - intros (a' & w1' & ? & Hk). done.
Qed.

Lemma run_ret {A} (a b : A) w w' : (mret a : M A) w = (w', Ret b) ↔ w' = w ∧ b = a.
Proof. unfold mret, M_ret. naive_solver. Qed.

Lemma run_lift {A} (o : outcome A) w w' b : lift o w = (w', Ret b) ↔ w' = w ∧ o = Ret b.
Proof. unfold lift. naive_solver. Qed.

Lemma run_require c s r w w' u : require c s r w = (w', Ret u) ↔ w' = w ∧ c = true.
Proof. unfold require. rewrite run_lift, Require_Ret. done. Qed.

Lemma run_throw {A} s r w w' (b : A) : throw s r w = (w', Ret b) ↔ False.
Proof. unfold throw, fail. rewrite run_lift. naive_solver. Qed.

Lemma run_gets {A} (f : World → A) w w' b : gets f w = (w', Ret b) ↔ w' = w ∧ b = f w.
Proof. unfold gets. naive_solver. Qed.

Lemma run_modify f w w' u : modify f w = (w', Ret u) ↔ w' = f w.
Proof. unfold modify. destruct u. naive_solver. Qed.

Lemma run_observe {A} (f : nat → A) w w' b :
  observe f w = (w', Ret b) ↔ w' = set_w_tick (S w.(w_tick)) w ∧ b = f w.(w_tick).
Proof. unfold observe. naive_solver. Qed.

Section run_sql.
Context `{Platform} `{Env}.

Lemma run_sql {A} (m : M A) w w' b :
  sql m w = (w', Ret b) → m (set_w_tick (S w.(w_tick)) w) = (w', Ret b).
Proof. unfold sql, mbind, M_bind, observe. by destruct (env_sql _). Qed.

Lemma run_query {A} (f : DB → A) w w' b :
  query f w = (w', Ret b) → w' = set_w_tick (S w.(w_tick)) w ∧ b = f w.(w_db).
Proof. by intros Hr%run_sql%run_gets. Qed.

Lemma run_statement f w w' u :
  statement f w = (w', Ret u) → w' = set_w_db (f w.(w_db)) (set_w_tick (S w.(w_tick)) w).
Proof. by intros Hr%run_sql%run_modify. Qed.

Lemma run_insert f w w' u :
  insert_stmt f w = (w', Ret u) →
  ∃ d, f w.(w_db) = inr d ∧ w' = set_w_db d (set_w_tick (S w.(w_tick)) w).
Proof. intros Hr%run_sql. simpl in Hr. destruct u, (f (w_db w)); naive_solver. Qed.
End run_sql.

(** From here on a statement is used through the lemmas above. *)
#[global] Opaque sql.

(** Decompose [H : (x ← m; k) w = (w', Ret b)] as far as the program is a
    sequence of primitive steps. *)
Ltac run_step_one H :=
  lazymatch type of H with
  | mret _ _ = (_, Ret _) => apply run_ret in H; destruct H; subst
  | lift _ _ = (_, Ret _) => apply run_lift in H; destruct H as [? H]; subst
  | require _ _ _ _ = (_, Ret _) => apply run_require in H; destruct H as [? H]; subst
  | throw _ _ _ = (_, Ret _) => apply run_throw in H; destruct H
  | gets _ _ = (_, Ret _) => apply run_gets in H; destruct H; subst
  | query _ _ = (_, Ret _) => apply run_query in H; destruct H; subst
  | modify _ _ = (_, Ret _) => apply run_modify in H; subst
  | statement _ _ = (_, Ret _) => apply run_statement in H; subst
  | observe _ _ = (_, Ret _) => apply run_observe in H; destruct H; subst
  | insert_stmt _ _ = (_, Ret _) =>
      apply run_insert in H; let d := fresh "d" in destruct H as (d & H & ?); subst
  | _ => idtac
  end.

Ltac run_step H :=
  lazymatch type of H with
  | (_ ≫= _) _ = (_, Ret _) =>
      apply run_bind in H;
      let a := fresh "a" in let w := fresh "w" in let H1 := fresh "Hrun" in
      destruct H as (a & w & H1 & H); run_step_one H1
  | _ => run_step_one H
  end.

Ltac run_steps H := repeat (progress run_step H).

(** Decompose one bind, naming the run of its first part. *)
Tactic Notation "run" hyp(H) "as" ident(H1) :=
  apply run_bind in H;
  let a := fresh "a" in let w := fresh "w" in
  destruct H as (a & w & H1 & H); run_step_one H1.

(** The state in which the body of a transaction starts. *)
Definition begun (w : World) : World := set_w_saved (Some w.(w_db)) (set_w_tick (S w.(w_tick)) w).

(** A transaction that returns with a commit ends in the state of its body. *)
Lemma transaction_run `{Platform} `{Env} {A} (body : M A) w w' a :
  transaction body w = (w', Ret a) →
  ∃ w1, body (begun w) = (w1, Ret a) ∧ (w_saved w1 = None → w' = w1).
Proof.
  unfold transaction, begun. destruct (env_begin (w_tick w)); [done|].
  destruct (body _) as [w1 r]. destruct (w_saved w1) eqn:Es; intros [= <- ->]; eexists; (split; [done|congruence]).
Qed.

Lemma Commit_run `{Platform} `{Env} w w' u :
  Commit w = (w', Ret u) → w_db w' = w_db w ∧ w_saved w' = None.
Proof.
  unfold Commit. intros Hrun. run Hrun as Ho. destruct (env_commit _); by run_steps Hrun.
Qed.

(** [ProfileCommit] returns only when nothing had to be compensated. *)
Lemma ProfileCommit_run `{Platform} `{Env} w w' u :
  ProfileCommit w = (w', Ret u) → w_db w' = w_db w ∧ w_saved w' = None.
Proof.
  unfold ProfileCommit. intros Hrun. run Hrun as He.
  apply reads_run in He as [He _]; [|auto with consent]. destruct a; simpl in Hrun.
  - run Hrun as Hg. apply reads_run in Hg as [Hg _]; [|auto with consent].
    run Hrun as Hq. run Hrun as Hr. run Hrun as Hc. apply Commit_run in Hc as [Hc Hs].
    run Hrun as Hg2. pose proof Hg2 as Hg3. apply reads_run in Hg2 as [Hg2 _]; [|auto with consent].
    destruct (operation_profile_generation_ w1 =? a2);
      [|run Hrun as Hcatch; by run_steps Hrun].
    run_steps Hrun. split; [congruence|]. unfold profiles_generation in Hg3.
    destruct env_profiles; by run_steps Hg3.
  - apply Commit_run in Hrun as [? ?]. split; congruence.
Qed.

(** A change of the database of which nothing is said. *)
Definition free (d d' : DB) : Prop := True.

#[export] Instance free_preorder : PreOrder free.
Proof. by split. Qed.

#[export] Hint Extern 0 (free _ _) => exact I : consent.

(** Invariants of successful loops. *)
Section loops.
Context {A : Type} (all : list A).

Lemma fold_m_run_from {S} (Inv : list A → S → World → Prop) (body : S → A → M S) l pre s w w' s' :
  (∀ pre x s w w' s', x ∈ all → Inv pre s w → body s x w = (w', Ret s') →
    Inv (pre ++ [x]) s' w') →
  (∀ x, x ∈ l → x ∈ all) → Inv pre s w →
  fold_m l body s w = (w', Ret s') → Inv (pre ++ l) s' w'.
Proof.
  intros Hstep. revert pre s w. induction l as [|x l IH]; intros pre s w Hsub H0 Hrun; simpl in Hrun.
  - apply run_ret in Hrun as [-> ->]. by rewrite app_nil_r.
  - run Hrun as Hb. rewrite (cons_middle x pre l), app_assoc.
    eapply IH; [intros y Hy; apply Hsub; by right| |exact Hrun].
    eapply Hstep; [apply Hsub; by left|exact H0|exact Hb].
Qed.

Lemma for_each_run_from (Inv : list A → World → Prop) (body : A → M ()) l pre w w' u :
  (∀ pre x w w' u, x ∈ all → Inv pre w → body x w = (w', Ret u) → Inv (pre ++ [x]) w') →
  (∀ x, x ∈ l → x ∈ all) → Inv pre w →
  for_each l body w = (w', Ret u) → Inv (pre ++ l) w'.
Proof.
  intros Hstep. revert pre w. induction l as [|x l IH]; intros pre w Hsub H0 Hrun; simpl in Hrun.
  - apply run_ret in Hrun as [-> _]. by rewrite app_nil_r.
  - run Hrun as Hb. rewrite (cons_middle x pre l), app_assoc.
    eapply IH; [intros y Hy; apply Hsub; by right| |exact Hrun].
    eapply Hstep; [apply Hsub; by left|exact H0|exact Hb].
Qed.

Lemma fold_m_run {S} (Inv : list A → S → World → Prop) (body : S → A → M S) s w w' s' :
  Inv [] s w →
  (∀ pre x s w w' s', x ∈ all → Inv pre s w → body s x w = (w', Ret s') →
    Inv (pre ++ [x]) s' w') →
  fold_m all body s w = (w', Ret s') → Inv all s' w'.
Proof. intros H0 Hstep. by apply (fold_m_run_from Inv body all []). Qed.

Lemma for_each_run (Inv : list A → World → Prop) (body : A → M ()) w w' u :
  Inv [] w →
  (∀ pre x w w' u, x ∈ all → Inv pre w → body x w = (w', Ret u) → Inv (pre ++ [x]) w') →
  for_each all body w = (w', Ret u) → Inv all w'.
Proof. intros H0 Hstep. by apply (for_each_run_from Inv body all []). Qed.
End loops.

(** The same, naming also the value returned and the state after it. *)
Tactic Notation "run" hyp(H) "as" ident(H1) "gives" ident(a) ident(w) :=
  apply run_bind in H; destruct H as (a & w & H1 & H); run_step_one H1.

(** Skip a part that only reads: its database is that before it. *)
Tactic Notation "run_read" hyp(H) "as" ident(H1) ident(Hd) :=
  apply run_bind in H;
  let a := fresh "a" in let w := fresh "w" in
  destruct H as (a & w & H1 & H);
  pose proof H1 as Hd;
  apply reads_run in Hd;
  [destruct Hd as [Hd _]|solve [eauto with consent nocore|unfold reads; solve_evolves]].
