(* ===== verification/Lifecycle.v ===== *)
(** * The life cycle of the consent database

    An abstract transition system for the database: [db_step] lists every
    change a repository operation may make, with its guard, as row
    transitions ([session_next], [request_next], ...), insertions and
    deletions.  [wf] is the integrity of a database; every step preserves it
    ([step_wf]).  The operations of the repository refine this system: they
    evolve along [runs]. *)
From S2P Require Import Prelude Strings Platform Message Packing Store ProfileState Exec Logic.

(** ** Row transitions *)

Definition live (s : session_row) : Prop := s.(s_state) = "ACTIVE" ∨ s.(s_state) = "SUSPENDED".

(** Nothing usable is left in a session. *)
Record quiet (d : DB) (session : string) : Prop := mk_quiet {
  quiet_grants : ∀ g, g ∈ d.(db_grants) → g.(g_session) = session → g.(g_mode) = "SESSION" →
    g.(g_revoked) ≠ 0;
  quiet_artifacts : ∀ t, t ∈ d.(db_artifacts) → t.(t_session) = session → t.(t_state) ≠ "ACTIVE";
}.

Inductive session_next (d : DB) (s : session_row) : session_row → Prop :=
| sn_same : session_next d s s
| sn_heartbeat v : s.(s_state) = "ACTIVE" → session_next d s (set_s_lease_deadline v s)
| sn_suspend v : s.(s_state) = "ACTIVE" →
    session_next d s (set_s_resume_deadline v
      (set_s_generation (s.(s_generation) + 1) (set_s_state "SUSPENDED" s)))
| sn_resume v h : s.(s_state) = "SUSPENDED" →
    session_next d s (set_s_lease_deadline v (set_s_resume_hash h
      (set_s_generation (s.(s_generation) + 1) (set_s_state "ACTIVE" s))))
| sn_close : live s → quiet d s.(s_id) →
    session_next d s (set_s_generation (s.(s_generation) + 1) (set_s_state "CLOSING" s))
| sn_finish : s.(s_state) = "CLOSING" →
    (∀ t, t ∈ d.(db_artifacts) → t.(t_session) = s.(s_id) → t.(t_state) = "DELETED") →
    session_next d s (set_s_state "CLOSED" s)
| sn_forget : s.(s_state) = "CLOSED" → session_next d s (set_s_resume_hash "" s).

Definition decided : list string := ["ALLOWED"; "DENIED"; "CANCELLED"; "EXPIRED"; "INVALIDATED"].

Inductive request_next (r : request_row) : request_row → Prop :=
| rn_same : request_next r r
| rn_present token owner instance payload : r.(r_state) = "PENDING" →
    request_next r (set_r_payload payload (set_r_ui_instance instance (set_r_ui_owner owner
      (set_r_token token r))))
| rn_decide state payload : r.(r_state) = "PENDING" → state ∈ decided →
    request_next r (set_r_payload payload (set_r_token "" (set_r_state state r)))
| rn_invalidate : request_next r (set_r_token "" (set_r_state "INVALIDATED" r))
| rn_compact payload : r.(r_state) ∈ decided →
    request_next r (set_r_payload payload (set_r_ui_instance "" (set_r_ui_owner ""
      (set_r_token "" r)))).

Inductive grant_next (g : grant_row) : grant_row → Prop :=
| gn_same : grant_next g g
| gn_revoke : grant_next g (set_g_revoked 1 g)
| gn_consume : g.(g_mode) = "ONCE" → 0 < g.(g_remaining) →
    grant_next g (set_g_remaining (g.(g_remaining) - 1) g).

Inductive auth_next (a : auth_row) : auth_row → Prop :=
| an_same : auth_next a a
| an_invalidate : auth_next a (set_a_valid 0 a)
| an_forget : a.(a_valid) = 0 → auth_next a (set_a_payload "" a).

Inductive artifact_next (t : artifact_row) : artifact_row → Prop :=
| tn_same : artifact_next t t
| tn_block : t.(t_state) = "ACTIVE" → artifact_next t (set_t_state "CLEANUP_PENDING" t)
| tn_delete : artifact_next t (set_t_cleanup_error "" (set_t_state "DELETED" t))
| tn_fail e : t.(t_state) ≠ "DELETED" →
    artifact_next t (set_t_cleanup_error e (set_t_state "CLEANUP_FAILED" t)).

(** ** Database steps *)

(** Number of receipts linked to a grant. *)
Definition links (g : string) (edges : list (string * string)) : Z :=
  count_rows (λ e, eqs e.2 g) edges.

(** Nothing usable depends on a definition. *)
Record unbound (d : DB) (definition : string) : Prop := mk_unbound {
  unbound_grants : ∀ g, g ∈ d.(db_grants) → g.(g_definition) = definition → g.(g_revoked) ≠ 0;
  unbound_receipts : ∀ g a, g ∈ d.(db_grants) → g.(g_definition) = definition →
    a ∈ d.(db_authorizations) → (a.(a_id), g.(g_id)) ∈ d.(db_authorization_grants) →
    a.(a_valid) = 0;
  unbound_artifacts : ∀ g t, g ∈ d.(db_grants) → g.(g_definition) = definition →
    t ∈ d.(db_artifacts) → (t.(t_id), g.(g_id)) ∈ d.(db_artifact_grants) →
    t.(t_state) ≠ "ACTIVE";
}.

Definition active_session (d : DB) (id : string) : Prop :=
  ∃ s, s ∈ d.(db_sessions) ∧ s.(s_id) = id ∧ s.(s_state) = "ACTIVE".

(** The shape of a freshly inserted grant. *)
Record fresh_grant (d : DB) (g : grant_row) : Prop := mk_fresh_grant {
  fg_revoked : g.(g_revoked) = 0;
  fg_remaining : g.(g_remaining) = if eqs g.(g_mode) "ONCE" then 1 else -1;
  fg_session : g.(g_mode) = "SESSION" → active_session d g.(g_session);
}.

Inductive db_step (d : DB) : DB → Prop :=
| step_bump : db_step d (set_db_revision (d.(db_revision) + 1) d)
| step_project v : db_step d (set_db_registry_revision v d)
| step_define r : unbound d r.(d_id) → db_step d (upsert_definition r d)
| step_sessions l : Forall2 (session_next d) d.(db_sessions) l → db_step d (set_db_sessions l d)
| step_requests l : Forall2 request_next d.(db_requests) l → db_step d (set_db_requests l d)
| step_grants l : Forall2 grant_next d.(db_grants) l → db_step d (set_db_grants l d)
| step_auths l : Forall2 auth_next d.(db_authorizations) l →
    db_step d (set_db_authorizations l d)
| step_artifacts l : Forall2 artifact_next d.(db_artifacts) l → db_step d (set_db_artifacts l d)
| step_open r d' : ins_session r d = inr d' → r.(s_state) = "ACTIVE" → r.(s_generation) = 1 →
    db_step d d'
| step_request r d' : ins_request r d = inr d' → r.(r_token) = "" →
    r.(r_state) ∈ ["PENDING"; "ALLOWED"; "DENIED"] → db_step d d'
| step_grant r d' : ins_grant r d = inr d' → fresh_grant d r → db_step d d'
| step_receipt r d' : ins_authorization r d = inr d' → r.(a_valid) = 1 → db_step d d'
| step_link e d' : ins_authorization_grant e d = inr d' →
    (∀ g, g ∈ d.(db_grants) → g.(g_id) = e.2 → g.(g_mode) = "ONCE" →
      g.(g_remaining) + links g.(g_id) d.(db_authorization_grants) = 0) → db_step d d'
| step_artifact r d' : ins_artifact r d = inr d' → r.(t_state) = "ACTIVE" →
    active_session d r.(t_session) → db_step d d'
| step_source e d' : ins_artifact_grant e d = inr d' → db_step d d'
| step_parent e d' : ins_artifact_parent e d = inr d' → db_step d d'
| step_acknowledge r d' : upsert_acknowledgement r d = inr d' → db_step d d'
| step_unlink id : (∀ a, a ∈ d.(db_authorizations) → a.(a_id) = id → a.(a_valid) = 0) →
    db_step d (set_db_authorization_grants
      (filter (λ e, negb (eqs e.1 id) = true) d.(db_authorization_grants)) d)
| step_reclaim id :
    (∀ g, g ∈ d.(db_grants) → g.(g_id) = id → g.(g_revoked) ≠ 0) →
    id ∉ d.(db_authorization_grants).*2 → id ∉ d.(db_artifact_grants).*2 →
    db_step d (set_db_grants (filter (λ g, negb (eqs g.(g_id) id) = true) d.(db_grants)) d).

(** ** Integrity *)

Definition request_key (r : request_row) : string * string * string * string :=
  (r.(r_owner), r.(r_subject), r.(r_profile), r.(r_client_id)).
Definition auth_key (a : auth_row) : string * string * string :=
  (a.(a_enforcer), a.(a_operation), a.(a_step)).
Definition artifact_key (t : artifact_row) : string * string * string :=
  (t.(t_receipt), t.(t_holder), t.(t_instance)).

(** PRIMARY KEY and UNIQUE constraints. *)
Record wf_keys (d : DB) : Prop := mk_wf_keys {
  key_definitions : NoDup (d_id <$> d.(db_definitions));
  key_sessions : NoDup (s_id <$> d.(db_sessions));
  key_requests : NoDup (r_id <$> d.(db_requests));
  key_clients : NoDup (request_key <$> d.(db_requests));
  key_grants : NoDup (g_id <$> d.(db_grants));
  key_auths : NoDup (a_id <$> d.(db_authorizations));
  key_operations : NoDup (auth_key <$> d.(db_authorizations));
  key_artifacts : NoDup (t_id <$> d.(db_artifacts));
  key_receipts : NoDup (artifact_key <$> d.(db_artifacts));
  key_links : NoDup d.(db_authorization_grants);
  key_sources : NoDup d.(db_artifact_grants);
  key_parents : NoDup d.(db_artifact_parents);
  key_acks : NoDup (k_artifact <$> d.(db_acknowledgements));
}.

(** FOREIGN KEY constraints. *)
Record wf_refs (d : DB) : Prop := mk_wf_refs {
  ref_definition : g_definition <$> d.(db_grants) ⊆ d_id <$> d.(db_definitions);
  ref_link_receipt : d.(db_authorization_grants).*1 ⊆ a_id <$> d.(db_authorizations);
  ref_link_grant : d.(db_authorization_grants).*2 ⊆ g_id <$> d.(db_grants);
  ref_session : t_session <$> d.(db_artifacts) ⊆ s_id <$> d.(db_sessions);
  ref_source_artifact : d.(db_artifact_grants).*1 ⊆ t_id <$> d.(db_artifacts);
  ref_source_grant : d.(db_artifact_grants).*2 ⊆ g_id <$> d.(db_grants);
  ref_child : d.(db_artifact_parents).*1 ⊆ t_id <$> d.(db_artifacts);
  ref_parent : d.(db_artifact_parents).*2 ⊆ t_id <$> d.(db_artifacts);
  ref_ack : k_artifact <$> d.(db_acknowledgements) ⊆ t_id <$> d.(db_artifacts);
}.

Definition session_ok (s : session_row) : Prop :=
  s.(s_state) ∈ ["ACTIVE"; "SUSPENDED"; "CLOSING"; "CLOSED"] ∧ 1 ≤ s.(s_generation).

(** A prompt token exists only while the request is pending. *)
Definition request_ok (r : request_row) : Prop :=
  (r.(r_state) = "PENDING" ∨ r.(r_state) ∈ decided) ∧
  (r.(r_token) ≠ "" → r.(r_state) = "PENDING").

Definition grant_ok (g : grant_row) : Prop :=
  if eqs g.(g_mode) "ONCE" then 0 ≤ g.(g_remaining) ≤ 1 else g.(g_remaining) = -1.

Definition artifact_ok (t : artifact_row) : Prop :=
  t.(t_state) ∈ ["ACTIVE"; "CLEANUP_PENDING"; "CLEANUP_FAILED"; "DELETED"].

Record wf_rows (d : DB) : Prop := mk_wf_rows {
  row_sessions : Forall session_ok d.(db_sessions);
  row_requests : Forall request_ok d.(db_requests);
  row_grants : Forall grant_ok d.(db_grants);
  row_artifacts : Forall artifact_ok d.(db_artifacts);
}.

(** Constraints across tables: a ONCE grant is spent at most once; what is
    usable belongs to a live session; a session is CLOSED only when all its
    artifacts are deleted. *)
Record wf_cross (d : DB) : Prop := mk_wf_cross {
  once_budget : ∀ g, g ∈ d.(db_grants) → g.(g_mode) = "ONCE" →
    g.(g_remaining) + links g.(g_id) d.(db_authorization_grants) ≤ 1;
  session_grants : ∀ g, g ∈ d.(db_grants) → g.(g_mode) = "SESSION" → g.(g_revoked) = 0 →
    ∃ s, s ∈ d.(db_sessions) ∧ s.(s_id) = g.(g_session) ∧ live s;
  session_artifacts : ∀ t s, t ∈ d.(db_artifacts) → s ∈ d.(db_sessions) →
    s.(s_id) = t.(t_session) →
    (t.(t_state) = "ACTIVE" → live s) ∧ (s.(s_state) = "CLOSED" → t.(t_state) = "DELETED");
}.

Record wf (d : DB) : Prop := mk_wf {
  wf_k :> wf_keys d; wf_f :> wf_refs d; wf_r :> wf_rows d; wf_c :> wf_cross d }.

(** Runs of the transition system from a well-formed database. *)
Definition runs (d d' : DB) : Prop := wf d → rtc db_step d d'.

(** ** Helpers *)

Section elements.
Context {A B : Type} (R : A → B → Prop).

Lemma Forall2_new l l' y : Forall2 R l l' → y ∈ l' → ∃ x, x ∈ l ∧ R x y.
Proof.
  induction 1 as [|a b l l' Hab Hl IH]; [set_solver|].
  intros [->|Hy]%elem_of_cons; [exists a; set_solver|].
  destruct (IH Hy) as (x & Hx & Hxy). exists x. set_solver.
Qed.

Lemma Forall2_old l l' x : Forall2 R l l' → x ∈ l → ∃ y, y ∈ l' ∧ R x y.
Proof.
  induction 1 as [|a b l l' Hab Hl IH]; [set_solver|].
  intros [->|Hx]%elem_of_cons; [exists b; set_solver|].
  destruct (IH Hx) as (y & Hy & Hxy). exists y. set_solver.
Qed.
End elements.

Section pointwise.
Context {A : Type} (R : A → A → Prop).

Lemma Forall2_keys {B} (f : A → B) l l' :
  (∀ x y, R x y → f y = f x) → Forall2 R l l' → f <$> l' = f <$> l.
Proof. intros Hf. induction 1; [done|]. rewrite !fmap_cons. f_equal; auto. Qed.

Lemma Forall2_ok (P : A → Prop) l l' :
  (∀ x y, R x y → P x → P y) → Forall2 R l l' → Forall P l → Forall P l'.
Proof. intros HP. induction 1; rewrite ?Forall_cons; naive_solver. Qed.
End pointwise.

Lemma among_true {A} (key : A → string) x rows : among key x rows = true ↔ x ∈ key <$> rows.
Proof.
  unfold among. rewrite exists_row_true, list_elem_of_fmap.
  setoid_rewrite eqs_true. naive_solver.
Qed.

Lemma among_false {A} (key : A → string) x rows : among key x rows = false ↔ x ∉ key <$> rows.
Proof. rewrite <- among_true. by destruct (among key x rows). Qed.

Lemma unique_false {A B} (key : A → B) (u : A → A → bool) r rows :
  (∀ x, u r x = true ↔ key r = key x) → exists_row (u r) rows = false →
  key r ∉ key <$> rows.
Proof.
  intros Hu Hx (x & Hk & Hin)%list_elem_of_fmap. rewrite exists_row_false in Hx.
  specialize (Hx x Hin). apply Hu in Hk. congruence.
Qed.

Lemma request_unique_key a b : request_unique a b = true ↔ request_key a = request_key b.
Proof.
  unfold request_unique, request_key. rewrite !andb_true_iff, !eqs_true.
  split; [intros; deex; congruence|by intros [= -> -> -> ->]].
Qed.

Lemma auth_unique_key a b : auth_unique a b = true ↔ auth_key a = auth_key b.
Proof.
  unfold auth_unique, auth_key. rewrite !andb_true_iff, !eqs_true.
  split; [intros; deex; congruence|by intros [= -> -> ->]].
Qed.

Lemma artifact_unique_key a b : artifact_unique a b = true ↔ artifact_key a = artifact_key b.
Proof.
  unfold artifact_unique, artifact_key. rewrite !andb_true_iff, !eqs_true.
  split; [intros; deex; congruence|by intros [= -> -> ->]].
Qed.

Lemma NoDup_snoc {A} (l : list A) x : NoDup l → x ∉ l → NoDup (l ++ [x]).
Proof. intros Hl Hx. apply NoDup_app. split_and!; [done|set_solver|apply NoDup_singleton]. Qed.

Lemma NoDup_snoc_key {A B} (f : A → B) l x :
  NoDup (f <$> l) → f x ∉ f <$> l → NoDup (f <$> l ++ [x]).
Proof. rewrite fmap_app. apply NoDup_snoc. Qed.

Lemma NoDup_filter_key {A B} (f : A → B) (p : A → bool) l :
  NoDup (f <$> l) → NoDup (f <$> filter (λ x, p x = true) l).
Proof.
  intros Hl. eapply sublist_NoDup; [done|]. apply fmap_sublist, sublist_filter.
Qed.

(** A reference stays valid when its target table grows, and a table of
    references grows by a valid one. *)
Lemma refs_target {A} (f : A → string) (ks : list string) l x : ks ⊆ f <$> l → ks ⊆ f <$> l ++ [x].
Proof. intros Hl k Hk. rewrite fmap_app. apply elem_of_app. left. by apply Hl. Qed.

Lemma refs_source {A} (f : A → string) (ks : list string) l x :
  f <$> l ⊆ ks → f x ∈ ks → f <$> l ++ [x] ⊆ ks.
Proof.
  intros Hl Hx k. rewrite fmap_app. intros [Hk|Hk]%elem_of_app; [by apply Hl|].
  apply list_elem_of_singleton in Hk. by subst.
Qed.

Lemma links_app g es e : links g (es ++ [e]) = links g es + (if eqs e.2 g then 1 else 0).
Proof.
  unfold links, count_rows. rewrite filter_app, length_app, Nat2Z.inj_add. f_equal.
  rewrite filter_cons, filter_nil.
  case_decide as Hd; [by rewrite Hd|]. apply not_true_is_false in Hd. by rewrite Hd.
Qed.

Lemma links_filter g (p : string * string → bool) es : links g (filter (λ e, p e = true) es) ≤ links g es.
Proof.
  unfold links, count_rows. apply inj_le, sublist_length. induction es as [|e es IH]; [done|].
  rewrite !filter_cons. repeat case_decide; rewrite ?filter_cons; repeat case_decide;
    try done; try constructor; done.
Qed.

Lemma links_nonneg g es : 0 ≤ links g es.
Proof. unfold links, count_rows. lia. Qed.

Lemma links_zero g es : g ∉ es.*2 → links g es = 0.
Proof.
  unfold links, count_rows. intros Hg. destruct (filter _ es) as [|e l] eqn:E; [done|].
  assert (He : e ∈ filter (λ e, eqs e.2 g = true) es) by (rewrite E; set_solver).
  apply list_elem_of_filter in He as [Hx%eqs_true He]. subst. destruct Hg.
  by apply list_elem_of_fmap_2.
Qed.

(** ** Steps preserve integrity *)

Ltac next_cases :=
  repeat match goal with
  | H : session_next _ _ _ |- _ => destruct H
  | H : request_next _ _ |- _ => destruct H
  | H : grant_next _ _ |- _ => destruct H
  | H : auth_next _ _ |- _ => destruct H
  | H : artifact_next _ _ |- _ => destruct H
  end.

Lemma session_next_id d s s' : session_next d s s' → s_id s' = s_id s.
Proof. by intros []. Qed.
Lemma request_next_id r r' : request_next r r' → r_id r' = r_id r.
Proof. by intros []. Qed.
Lemma request_next_key r r' : request_next r r' → request_key r' = request_key r.
Proof. by intros []. Qed.
Lemma grant_next_id g g' : grant_next g g' → g_id g' = g_id g.
Proof. by intros []. Qed.
Lemma grant_next_definition g g' : grant_next g g' → g_definition g' = g_definition g.
Proof. by intros []. Qed.
Lemma auth_next_id a a' : auth_next a a' → a_id a' = a_id a.
Proof. by intros []. Qed.
Lemma auth_next_key a a' : auth_next a a' → auth_key a' = auth_key a.
Proof. by intros []. Qed.
Lemma artifact_next_id t t' : artifact_next t t' → t_id t' = t_id t.
Proof. by intros []. Qed.
Lemma artifact_next_key t t' : artifact_next t t' → artifact_key t' = artifact_key t.
Proof. by intros []. Qed.
Lemma artifact_next_session t t' : artifact_next t t' → t_session t' = t_session t.
Proof. by intros []. Qed.

(** Reduce the projections of an updated database and close the components
    of the invariant that the update does not touch. *)
Ltac wf_split :=
  match goal with Hw : wf _ |- _ => destruct Hw as [[] [] [] []] end;
  split; split; simpl; try assumption.

Lemma wf_sessions d l :
  wf d → Forall2 (session_next d) d.(db_sessions) l → wf (set_db_sessions l d).
Proof.
  intros Hw Hl. assert (Hid : s_id <$> l = s_id <$> d.(db_sessions))
    by (eapply Forall2_keys, Hl; apply session_next_id).
  wf_split; rewrite ?Hid; try assumption.
  - eapply Forall2_ok, row_sessions0; [|exact Hl]. unfold session_ok.
    intros s s' []; simpl; intros [? ?]; split; (done || lia || set_solver).
  - intros g Hg Hm Hr. destruct (session_grants0 g Hg Hm Hr) as (s & Hs & Heq & Hlive).
    destruct (Forall2_old _ _ _ s Hl Hs) as (s' & Hs' & Hn). exists s'. split; [done|].
    rewrite (session_next_id _ _ _ Hn). split; [done|].
    destruct Hn as [|v E|v E|v h E|_ Hq|E _|E]; simpl; try done; try (by left); try (by right).
    + by destruct (quiet_grants _ _ Hq g Hg).
    + destruct Hlive; congruence.
  - intros t s' Ht Hs' Heq. destruct (Forall2_new _ _ _ s' Hl Hs') as (s & Hs & Hn).
    rewrite (session_next_id _ _ _ Hn) in Heq.
    destruct (session_artifacts0 t s Ht Hs Heq) as [Ha Hc].
    destruct Hn as [|v E|v E|v h E|_ Hq|E Hdel|E]; simpl; try done.
    + split; [by right|done].
    + split; [by left|done].
    + split; [|done]. intros Hact. by destruct (quiet_artifacts _ _ Hq t Ht).
    + split; [|intros _; by apply Hdel]. intros Hact. rewrite (Hdel t) in Hact; done.
Qed.

Lemma wf_requests d l :
  wf d → Forall2 request_next d.(db_requests) l → wf (set_db_requests l d).
Proof.
  intros Hw Hl. wf_split.
  - by rewrite (Forall2_keys _ _ _ _ request_next_id Hl).
  - by rewrite (Forall2_keys _ _ _ _ request_next_key Hl).
  - eapply Forall2_ok, row_requests0; [|exact Hl]. unfold request_ok.
    intros r r' []; simpl; intros [? ?]; split; try done; try (by right); try (by left).
    right. unfold decided. set_solver.
Qed.

Lemma wf_grants d l : wf d → Forall2 grant_next d.(db_grants) l → wf (set_db_grants l d).
Proof.
  intros Hw Hl. assert (Hid : g_id <$> l = g_id <$> d.(db_grants))
    by (eapply Forall2_keys, Hl; apply grant_next_id).
  wf_split; rewrite ?Hid; try assumption.
  - by rewrite (Forall2_keys _ _ _ _ grant_next_definition Hl).
  - eapply Forall2_ok, row_grants0; [|exact Hl]. unfold grant_ok.
    intros g g' [| |Ho Hr]; simpl; try done. rewrite Ho. simpl. lia.
  - intros g' Hg' Hm. destruct (Forall2_new _ _ _ g' Hl Hg') as (g & Hg & Hn).
    destruct Hn as [| |Ho Hr]; simpl in *; [by apply once_budget0..|].
    specialize (once_budget0 g Hg Ho). lia.
  - intros g' Hg' Hm Hr. destruct (Forall2_new _ _ _ g' Hl Hg') as (g & Hg & Hn).
    destruct Hn; simpl in *; [by apply session_grants0|done|congruence].
Qed.

Lemma wf_auths d l :
  wf d → Forall2 auth_next d.(db_authorizations) l → wf (set_db_authorizations l d).
Proof.
  intros Hw Hl. wf_split.
  - by rewrite (Forall2_keys _ _ _ _ auth_next_id Hl).
  - by rewrite (Forall2_keys _ _ _ _ auth_next_key Hl).
  - by rewrite (Forall2_keys _ _ _ _ auth_next_id Hl).
Qed.

Lemma wf_artifacts d l :
  wf d → Forall2 artifact_next d.(db_artifacts) l → wf (set_db_artifacts l d).
Proof.
  intros Hw Hl. assert (Hid : t_id <$> l = t_id <$> d.(db_artifacts))
    by (eapply Forall2_keys, Hl; apply artifact_next_id).
  wf_split; rewrite ?Hid; try assumption.
  - by rewrite (Forall2_keys _ _ _ _ artifact_next_key Hl).
  - by rewrite (Forall2_keys _ _ _ _ artifact_next_session Hl).
  - eapply Forall2_ok, row_artifacts0; [|exact Hl]. unfold artifact_ok.
    intros t t' []; simpl; set_solver.
  - intros t' s Ht' Hs Heq. destruct (Forall2_new _ _ _ t' Hl Ht') as (t & Ht & Hn).
    rewrite (artifact_next_session _ _ Hn) in Heq.
    destruct (session_artifacts0 t s Ht Hs Heq) as [Ha Hc].
    destruct Hn; simpl; try done; (split; [done|]); intros Hcl; rewrite Hc in *; done.
Qed.

(** Invert a successful insertion into its checks. *)
Ltac insert_inv H :=
  repeat match type of H with
  | (if ?b then _ else _) = inr _ => let E := fresh "E" in destruct b eqn:E; [discriminate H|]
  end; injection H as <-; bool_hyps.

Lemma wf_open d d' r :
  wf d → ins_session r d = inr d' → r.(s_state) = "ACTIVE" → r.(s_generation) = 1 → wf d'.
Proof.
  unfold ins_session. intros Hw Hi Ha Hg. insert_inv Hi. apply among_false in E.
  wf_split.
  - by apply NoDup_snoc_key.
  - by apply refs_target.
  - apply Forall_app. split; [done|]. apply Forall_singleton. split; [set_solver|lia].
  - intros g Hgr Hm Hr. destruct (session_grants0 g Hgr Hm Hr) as (s & ? & ?). exists s. set_solver.
  - intros t s Ht [Hs| ->%list_elem_of_singleton]%elem_of_app Heq; [by apply session_artifacts0|].
    destruct E. rewrite Heq. apply ref_session0. by apply list_elem_of_fmap_2.
Qed.

Lemma wf_request d d' r :
  wf d → ins_request r d = inr d' → r.(r_token) = "" →
  r.(r_state) ∈ ["PENDING"; "ALLOWED"; "DENIED"] → wf d'.
Proof.
  unfold ins_request. intros Hw Hi Ht Hs. insert_inv Hi. apply among_false in E.
  apply (unique_false request_key) in E0; [|apply request_unique_key].
  wf_split; [by apply NoDup_snoc_key..|].
  apply Forall_app. split; [done|]. apply Forall_singleton. split; [|done].
  unfold decided. set_solver.
Qed.

Lemma wf_grant d d' r : wf d → ins_grant r d = inr d' → fresh_grant d r → wf d'.
Proof.
  unfold ins_grant. intros Hw Hi [Hrev Hrem Hses]. insert_inv Hi.
  apply among_false in E. apply among_true in E0.
  wf_split.
  - by apply NoDup_snoc_key.
  - by apply refs_source.
  - by apply refs_target.
  - by apply refs_target.
  - apply Forall_app. split; [done|]. apply Forall_singleton. unfold grant_ok.
    rewrite Hrem. destruct (eqs (g_mode r) "ONCE"); lia.
  - intros g [Hg| ->%list_elem_of_singleton]%elem_of_app Hm; [by apply once_budget0|].
    rewrite Hrem, Hm. rewrite links_zero by set_solver. simpl. lia.
  - intros g [Hg| ->%list_elem_of_singleton]%elem_of_app Hm Hr; [by apply session_grants0|].
    destruct (Hses Hm) as (s & ? & ? & ?). exists s. split_and!; [done..|by left].
Qed.

Lemma wf_receipt d d' r : wf d → ins_authorization r d = inr d' → wf d'.
Proof.
  unfold ins_authorization. intros Hw Hi. insert_inv Hi. apply among_false in E.
  apply (unique_false auth_key) in E0; [|apply auth_unique_key].
  wf_split; [by apply NoDup_snoc_key..|by apply refs_target].
Qed.

Lemma wf_link d d' e :
  wf d → ins_authorization_grant e d = inr d' →
  (∀ g, g ∈ d.(db_grants) → g.(g_id) = e.2 → g.(g_mode) = "ONCE" →
    g.(g_remaining) + links g.(g_id) d.(db_authorization_grants) = 0) → wf d'.
Proof.
  unfold ins_authorization_grant. intros Hw Hi Ho. insert_inv Hi.
  apply among_true in H, H0.
  wf_split.
  - by apply NoDup_snoc.
  - by apply refs_source.
  - by apply refs_source.
  - intros g Hg Hm. rewrite links_app. destruct (eqs e.2 (g_id g)) eqn:Eg.
    + apply eqs_true in Eg. specialize (Ho g Hg (eq_sym Eg) Hm). lia.
    + specialize (once_budget0 g Hg Hm). lia.
Qed.

Lemma wf_artifact d d' r :
  wf d → ins_artifact r d = inr d' → r.(t_state) = "ACTIVE" →
  active_session d r.(t_session) → wf d'.
Proof.
  unfold ins_artifact. intros Hw Hi Ha (s & Hs & Hid & Hact). insert_inv Hi.
  apply among_false in E. apply among_true in E1.
  apply (unique_false artifact_key) in E0; [|apply artifact_unique_key].
  wf_split; try (by apply NoDup_snoc_key); try (by apply refs_target); try (by apply refs_source).
  - apply Forall_app. split; [done|]. apply Forall_singleton. unfold artifact_ok. set_solver.
  - intros t s' [Ht| ->%list_elem_of_singleton]%elem_of_app Hs' Heq; [by apply session_artifacts0|].
    assert (s' = s) as -> by (eapply (key_inj s_id); [apply key_sessions0|done..|congruence]).
    split; [intros; by left|congruence].
Qed.

Lemma wf_source d d' e : wf d → ins_artifact_grant e d = inr d' → wf d'.
Proof.
  unfold ins_artifact_grant. intros Hw Hi. insert_inv Hi. apply among_true in H, H0.
  wf_split; [by apply NoDup_snoc|by apply refs_source..].
Qed.

Lemma wf_parent d d' e : wf d → ins_artifact_parent e d = inr d' → wf d'.
Proof.
  unfold ins_artifact_parent. intros Hw Hi. insert_inv Hi. apply among_true in H, H0.
  wf_split; [by apply NoDup_snoc|by apply refs_source..].
Qed.

(** An upsert keeps keys unique and adds at most the inserted one. *)
Lemma upsert_keys {A} (key : A → string) (r : A) rows :
  let rows' := if among key (key r) rows
               then update_where (λ x, eqs (key x) (key r)) (λ _, r) rows else rows ++ [r] in
  NoDup (key <$> rows) →
  NoDup (key <$> rows') ∧ key <$> rows ⊆ key <$> rows' ∧
  (∀ k, k ∈ key <$> rows' → k ∈ key <$> rows ∨ k = key r).
Proof.
  intros rows' Hnd. unfold rows'. destruct (among key (key r) rows) eqn:E.
  - rewrite update_where_fmap by (intros x Hx%eqs_true; done). set_solver.
  - apply among_false in E. split; [by apply NoDup_snoc_key|]. set_solver.
Qed.

Lemma wf_acknowledge d d' r : wf d → upsert_acknowledgement r d = inr d' → wf d'.
Proof.
  unfold upsert_acknowledgement. intros Hw Hi. insert_inv Hi. apply among_true in E.
  pose proof (upsert_keys k_artifact r (db_acknowledgements d) (key_acks _ Hw)) as (? & ? & Hk).
  wf_split. intros k Hin. destruct (Hk k Hin) as [?| ->]; [by apply ref_ack0|done].
Qed.

Lemma wf_define d r : wf d → wf (upsert_definition r d).
Proof.
  intros Hw. pose proof (upsert_keys d_id r (db_definitions d) (key_definitions _ Hw)) as (? & ? & ?).
  wf_split. by etransitivity.
Qed.

Lemma wf_unlink d id :
  wf d → wf (set_db_authorization_grants
    (filter (λ e, negb (eqs e.1 id) = true) d.(db_authorization_grants)) d).
Proof.
  intros Hw. wf_split.
  - by apply NoDup_filter.
  - intros x (e & -> & He)%list_elem_of_fmap. apply list_elem_of_filter in He as [_ He].
    apply ref_link_receipt0. by apply list_elem_of_fmap_2.
  - intros x (e & -> & He)%list_elem_of_fmap. apply list_elem_of_filter in He as [_ He].
    apply ref_link_grant0. by apply list_elem_of_fmap_2.
  - intros g Hg Hm. etransitivity; [|exact (once_budget0 g Hg Hm)].
    apply Zplus_le_compat_l. apply (links_filter _ (λ e, negb (eqs e.1 id))).
Qed.

Lemma wf_reclaim d id :
  wf d → id ∉ d.(db_authorization_grants).*2 → id ∉ d.(db_artifact_grants).*2 →
  wf (set_db_grants (filter (λ g, negb (eqs g.(g_id) id) = true) d.(db_grants)) d).
Proof.
  intros Hw Hl Hs.
  assert (Hkeep : ∀ k, k ≠ id → k ∈ g_id <$> d.(db_grants) →
    k ∈ g_id <$> filter (λ g, negb (eqs g.(g_id) id) = true) d.(db_grants)).
  { intros k Hk (g & -> & Hg)%list_elem_of_fmap. apply list_elem_of_fmap_2, list_elem_of_filter.
    split; [|done]. apply negb_true_iff. by apply eqs_false. }
  wf_split.
  - by apply (NoDup_filter_key g_id (λ g, negb (eqs (g_id g) id))).
  - intros x (g & -> & Hg)%list_elem_of_fmap. apply list_elem_of_filter in Hg as [_ Hg].
    apply ref_definition0. by apply list_elem_of_fmap_2.
  - intros k Hk. apply Hkeep; [by intros ->|auto].
  - intros k Hk. apply Hkeep; [by intros ->|auto].
  - rewrite !Forall_forall in *. intros g [_ Hg]%list_elem_of_filter. auto.
  - intros g [_ Hg]%list_elem_of_filter. by apply once_budget0.
  - intros g [_ Hg]%list_elem_of_filter. by apply session_grants0.
Qed.

Lemma step_wf d d' : db_step d d' → wf d → wf d'.
Proof.
  intros Hs Hw. destruct Hs.
  - by wf_split.
  - by wf_split.
  - by apply wf_define.
  - by apply wf_sessions.
  - by apply wf_requests.
  - by apply wf_grants.
  - by apply wf_auths.
  - by apply wf_artifacts.
  - by eapply wf_open.
  - by eapply wf_request.
  - by eapply wf_grant.
  - by eapply wf_receipt.
  - by eapply wf_link.
  - by eapply wf_artifact.
  - by eapply wf_source.
  - by eapply wf_parent.
  - by eapply wf_acknowledge.
  - by apply wf_unlink.
  - by apply wf_reclaim.
Qed.

Lemma rtc_wf d d' : rtc db_step d d' → wf d → wf d'.
Proof. induction 1; eauto using step_wf. Qed.

#[export] Instance runs_preorder : PreOrder runs.
Proof.
  split; [intros d _; reflexivity|]. intros x y z Hxy Hyz Hx.
  pose proof (Hxy Hx) as H1. etransitivity; [exact H1|]. apply Hyz. by eapply rtc_wf.
Qed.

Lemma runs_wf d d' : runs d d' → wf d → wf d'.
Proof. intros Hr Hw. eapply rtc_wf; [by apply Hr|done]. Qed.

Lemma wf_empty : wf empty_db.
Proof.
  repeat match goal with |- wf _ => split | |- wf_keys _ => split | |- wf_refs _ => split
    | |- wf_rows _ => split | |- wf_cross _ => split end; simpl;
    first [apply NoDup_nil_2|apply Forall_nil_2|set_solver].
Qed.

(** ** Statements as steps *)

Lemma Forall2_update_where {A} (R : A → A → Prop) p f l :
  (∀ x, R x x) → (∀ x, x ∈ l → p x = true → R x (f x)) → Forall2 R l (update_where p f l).
Proof.
  intros Hr Hp. unfold update_where. induction l as [|x l IH]; [constructor|].
  rewrite fmap_cons. constructor; [|apply IH; set_solver].
  destruct (p x) eqn:E; [apply Hp; [set_solver|done]|apply Hr].
Qed.

Lemma runs_step d d' : db_step d d' → runs d d'.
Proof. intros Hs _. by apply rtc_once. Qed.

(** The guard of a step may use the integrity of the database. *)
Lemma runs_guarded d d' : (wf d → runs d d') → runs d d'.
Proof. intros Hr Hw. by apply Hr. Qed.

Lemma runs_upd_sessions d p f :
  (∀ s, s ∈ d.(db_sessions) → p s = true → session_next d s (f s)) → runs d (upd_sessions p f d).
Proof. intros Hp. apply runs_step, step_sessions, Forall2_update_where; [constructor|done]. Qed.

Lemma runs_upd_requests d p f :
  (∀ r, r ∈ d.(db_requests) → p r = true → request_next r (f r)) → runs d (upd_requests p f d).
Proof. intros Hp. apply runs_step, step_requests, Forall2_update_where; [constructor|done]. Qed.

Lemma runs_upd_grants d p f :
  (∀ g, g ∈ d.(db_grants) → p g = true → grant_next g (f g)) → runs d (upd_grants p f d).
Proof. intros Hp. apply runs_step, step_grants, Forall2_update_where; [constructor|done]. Qed.

Lemma runs_upd_authorizations d p f :
  (∀ a, a ∈ d.(db_authorizations) → p a = true → auth_next a (f a)) →
  runs d (upd_authorizations p f d).
Proof. intros Hp. apply runs_step, step_auths, Forall2_update_where; [constructor|done]. Qed.

Lemma runs_upd_artifacts d p f :
  (∀ t, t ∈ d.(db_artifacts) → p t = true → artifact_next t (f t)) → runs d (upd_artifacts p f d).
Proof. intros Hp. apply runs_step, step_artifacts, Forall2_update_where; [constructor|done]. Qed.

(** Revocation, invalidation and blocking need no guard. *)
Lemma runs_revoke d p : runs d (upd_grants p (set_g_revoked 1) d).
Proof. apply runs_upd_grants. constructor. Qed.

Lemma runs_invalidate d p :
  runs d (upd_requests p (λ r, set_r_token "" (set_r_state "INVALIDATED" r)) d).
Proof. apply runs_upd_requests. intros. apply rn_invalidate. Qed.

Lemma runs_invalid d p : runs d (upd_authorizations p (set_a_valid 0) d).
Proof. apply runs_upd_authorizations. constructor. Qed.

Lemma runs_block d p :
  (∀ t, p t = true → t.(t_state) = "ACTIVE") →
  runs d (upd_artifacts p (set_t_state "CLEANUP_PENDING") d).
Proof. intros Hp. apply runs_upd_artifacts. intros. apply tn_block. auto. Qed.

(** Deciding a pending request without a new payload. *)
Lemma runs_decide d p state :
  state ∈ decided → (∀ r, p r = true → r.(r_state) = "PENDING") →
  runs d (upd_requests p (λ r, set_r_token "" (set_r_state state r)) d).
Proof.
  intros Hs Hp. apply runs_upd_requests. intros r _ Hr.
  apply (rn_decide r state r.(r_payload)); auto.
Qed.

#[export] Hint Resolve runs_revoke runs_invalidate runs_invalid : consent.

(** The integrity of the starting database may be assumed. *)
Lemma evolves_at_guarded {A} (m : M A) w :
  evolves free m → (wf w.(w_db) → evolves_at runs m w) → evolves_at runs m w.
Proof.
  intros Hf Hm. destruct (Hf w) as (_ & Hs & Ht). split_and!; [|done..].
  intros Hw. by destruct (Hm Hw) as [Hr _]; auto.
Qed.

Lemma evolves_free {A} (m : M A) : evolves runs m → evolves free m.
Proof. apply evolves_mono. done. Qed.

#[export] Hint Resolve evolves_free : consent.

Section commits.
Context `{Platform} `{Env}.

Lemma evolves_Bump : evolves runs Bump.
Proof. apply evolves_statement; [apply _|]. intros d. apply runs_step, step_bump. Qed.

Hint Resolve evolves_Bump : consent.

Lemma evolves_profile_retire : evolves runs profile_retire.
Proof.
  unfold profile_retire. solve_evolves.
Qed.

Hint Resolve evolves_profile_retire : consent.

Lemma evolves_ProfileCommit : evolves runs ProfileCommit.
Proof. unfold ProfileCommit. solve_evolves. Qed.
End commits.

#[export] Hint Resolve evolves_Bump evolves_ProfileCommit : consent.

(** Runs keep the integrity of the database. *)
Lemma evolves_keeps {A} (m : M A) : evolves runs m → evolves (keeps wf) m.
Proof. apply evolves_mono. intros d d' Hr Hw. by eapply runs_wf. Qed.

Lemma keeps_runs d d' : runs d d' → keeps wf d d'.
Proof. intros Hr Hw. by eapply runs_wf. Qed.

#[export] Hint Resolve evolves_keeps keeps_runs : consent.

(** ** One-way life cycles *)

(** The stage of a session: usable, closing, closed. *)
Definition stage (s : session_row) : Z :=
  if eqs s.(s_state) "CLOSED" then 2 else if eqs s.(s_state) "CLOSING" then 1 else 0.

Record session_le (s s' : session_row) : Prop := mk_session_le {
  sle_identity : (s'.(s_id), s'.(s_subject), s'.(s_profile), s'.(s_owner), s'.(s_instance)) =
                 (s.(s_id), s.(s_subject), s.(s_profile), s.(s_owner), s.(s_instance));
  sle_terms : (s'.(s_policy), s'.(s_created), s'.(s_idle_deadline), s'.(s_absolute_deadline),
               s'.(s_grace)) =
              (s.(s_policy), s.(s_created), s.(s_idle_deadline), s.(s_absolute_deadline), s.(s_grace));
  sle_generation : s.(s_generation) ≤ s'.(s_generation);
  sle_stage : stage s ≤ stage s';
  sle_fenced : s'.(s_generation) = s.(s_generation) →
    s'.(s_state) = s.(s_state) ∨ (s.(s_state) = "CLOSING" ∧ s'.(s_state) = "CLOSED");
}.

Record request_le (r r' : request_row) : Prop := mk_request_le {
  rle_identity : (r'.(r_id), request_key r', r'.(r_fingerprint), r'.(r_deadline)) =
                 (r.(r_id), request_key r, r.(r_fingerprint), r.(r_deadline));
  rle_final : r.(r_state) ≠ "PENDING" → r'.(r_state) = r.(r_state) ∨ r'.(r_state) = "INVALIDATED";
}.

Record auth_le (a a' : auth_row) : Prop := mk_auth_le {
  ale_identity : (a'.(a_id), auth_key a', a'.(a_fingerprint), a'.(a_created)) =
                 (a.(a_id), auth_key a, a.(a_fingerprint), a.(a_created));
  ale_valid : a.(a_valid) = 0 → a'.(a_valid) = 0;
  ale_payload : a'.(a_payload) = a.(a_payload) ∨ (a'.(a_payload) = "" ∧ a'.(a_valid) = 0);
}.

Record artifact_le (t t' : artifact_row) : Prop := mk_artifact_le {
  tle_identity : (t'.(t_id), artifact_key t', t'.(t_session), t'.(t_purpose), t'.(t_recipient),
                  t'.(t_scope)) =
                 (t.(t_id), artifact_key t, t.(t_session), t.(t_purpose), t.(t_recipient), t.(t_scope));
  tle_terms : (t'.(t_expires), t'.(t_level)) = (t.(t_expires), t.(t_level));
  tle_blocked : t.(t_state) ≠ "ACTIVE" → t'.(t_state) ≠ "ACTIVE";
  tle_deleted : t.(t_state) = "DELETED" → t'.(t_state) = "DELETED";
}.

Record grant_le (g g' : grant_row) : Prop := mk_grant_le {
  gle_identity : (g'.(g_id), g'.(g_key), g'.(g_definition), g'.(g_version), g'.(g_subject),
                  g'.(g_profile)) =
                 (g.(g_id), g.(g_key), g.(g_definition), g.(g_version), g.(g_subject), g.(g_profile));
  gle_terms : (g'.(g_session), g'.(g_mode), g'.(g_expires)) = (g.(g_session), g.(g_mode), g.(g_expires));
  gle_revoked : g.(g_revoked) ≠ 0 → g'.(g_revoked) ≠ 0;
  gle_remaining : g'.(g_remaining) ≤ g.(g_remaining);
}.

Lemma stage_state s s' : s_state s = s_state s' → stage s = stage s'.
Proof. unfold stage. by intros ->. Qed.

Lemma session_next_le d s s' : session_next d s s' → session_le s s'.
Proof.
  intros Hn.
  destruct Hn as [|v E|v E|v h E|[E|E] _|E _|E]; (split; [reflexivity|reflexivity|simpl; lia| |]);
    simpl; unfold stage; simpl; rewrite ?E; simpl; try lia; auto.
Qed.

Lemma request_next_le r r' : request_next r r' → request_le r r'.
Proof. intros []; split; simpl; auto; congruence. Qed.

Lemma auth_next_le a a' : auth_next a a' → auth_le a a'.
Proof. intros []; split; simpl; auto. Qed.

Lemma artifact_next_le t t' : artifact_next t t' → artifact_le t t'.
Proof. intros []; split; simpl; auto; congruence. Qed.

Lemma grant_next_le g g' : grant_next g g' → grant_le g g'.
Proof. intros []; split; simpl; auto; lia. Qed.

#[export] Instance session_le_preorder : PreOrder session_le.
Proof.
  split; [intros s; split; auto; lia|]. intros x y z [H1 H2 H3 H4 H5] [K1 K2 K3 K4 K5].
  split; [congruence|congruence|lia|lia|]. intros Hg.
  destruct (H5 ltac:(lia)) as [Hs|[Hs Hs']], (K5 ltac:(lia)) as [Ks|[Ks Ks']]; [| | |].
  - left. congruence.
  - right. split; congruence.
  - right. split; congruence.
  - congruence.
Qed.

#[export] Instance request_le_preorder : PreOrder request_le.
Proof.
  split; [intros r; split; auto|]. intros x y z [H1 H2] [K1 K2]. split; [congruence|].
  intros Hp. destruct (H2 Hp) as [Hs|Hs].
  - rewrite <- Hs in *. by apply K2.
  - right. destruct K2 as [->| ->]; [by rewrite Hs|done|done].
Qed.

#[export] Instance auth_le_preorder : PreOrder auth_le.
Proof.
  split; [intros a; split; auto|]. intros x y z [H1 H2 H3] [K1 K2 K3].
  split; [congruence|auto|]. destruct K3 as [->|K3]; [|by right].
  destruct H3 as [->|[-> Hv]]; auto.
Qed.

#[export] Instance artifact_le_preorder : PreOrder artifact_le.
Proof.
  split; [intros t; split; auto|]. intros x y z [H1 H2 H3 H4] [K1 K2 K3 K4].
  split; [congruence|congruence|auto|auto].
Qed.

#[export] Instance grant_le_preorder : PreOrder grant_le.
Proof.
  split; [intros g; split; auto; lia|]. intros x y z [H1 H2 H3 H4] [K1 K2 K3 K4].
  split; [congruence|congruence|auto|lia].
Qed.

(** Every step keeps the rows of a table up to its order. *)
Section tables_evolve.
Context {A : Type} (table : DB → list A) (le : A → A → Prop) `{!PreOrder le}.
Context (step_le : ∀ d d' x, db_step d d' → x ∈ table d → ∃ x', x' ∈ table d' ∧ le x x').

Lemma rows_evolve d d' x : rtc db_step d d' → x ∈ table d → ∃ x', x' ∈ table d' ∧ le x x'.
Proof using All.
  intros Hr. revert x. induction Hr as [d|d d1 d' Hs _ IH]; intros x Hx.
  - exists x. split; [done|reflexivity].
  - destruct (step_le _ _ _ Hs Hx) as (x1 & Hx1 & Hle1).
    destruct (IH x1 Hx1) as (x2 & Hx2 & Hle2). exists x2. split; [done|by etransitivity].
Qed.
End tables_evolve.

(** Rows that a step does not touch, or that it only appends to. *)
Ltac same_rows :=
  match goal with
  | H : _ = inr _ |- _ =>
      unfold ins_session, ins_request, ins_grant, ins_authorization, ins_authorization_grant,
        ins_artifact, ins_artifact_grant, ins_artifact_parent, upsert_acknowledgement in H;
      insert_inv H
  | _ => idtac
  end; simpl;
  eexists; split; [first [eassumption|apply elem_of_app; left; eassumption]|reflexivity].

Lemma session_step_le d d' s :
  db_step d d' → s ∈ d.(db_sessions) → ∃ s', s' ∈ d'.(db_sessions) ∧ session_le s s'.
Proof.
  intros Hs Hin. destruct Hs; try same_rows.
  destruct (Forall2_old _ _ _ s H Hin) as (s' & ? & ?). eauto using session_next_le.
Qed.

Lemma request_step_le d d' r :
  db_step d d' → r ∈ d.(db_requests) → ∃ r', r' ∈ d'.(db_requests) ∧ request_le r r'.
Proof.
  intros Hs Hin. destruct Hs; try same_rows.
  destruct (Forall2_old _ _ _ r H Hin) as (r' & ? & ?). eauto using request_next_le.
Qed.

Lemma auth_step_le d d' a :
  db_step d d' → a ∈ d.(db_authorizations) → ∃ a', a' ∈ d'.(db_authorizations) ∧ auth_le a a'.
Proof.
  intros Hs Hin. destruct Hs; try same_rows.
  destruct (Forall2_old _ _ _ a H Hin) as (a' & ? & ?). eauto using auth_next_le.
Qed.

Lemma artifact_step_le d d' t :
  db_step d d' → t ∈ d.(db_artifacts) → ∃ t', t' ∈ d'.(db_artifacts) ∧ artifact_le t t'.
Proof.
  intros Hs Hin. destruct Hs; try same_rows.
  destruct (Forall2_old _ _ _ t H Hin) as (t' & ? & ?). eauto using artifact_next_le.
Qed.

(** The life cycle of sessions, along every run: a session keeps its
    identity, owner, policy and deadlines for idle and total lifetime, never
    leaves CLOSING except to CLOSED, never leaves CLOSED, and its generation
    never decreases and strictly increases with every other change of state,
    so a request that presents a current generation refers to the current
    state. *)
Lemma session_run_le d d' s :
  rtc db_step d d' → s ∈ d.(db_sessions) →
  ∃ s', s' ∈ d'.(db_sessions) ∧ session_le s s'.
Proof. apply rows_evolve; [apply _|apply session_step_le]. Qed.

(** The life cycle of approval requests: the request keeps its owner,
    client key, fingerprint and deadline, and once decided its decision never
    changes again except to INVALIDATED; in particular a denied, cancelled or
    expired request never becomes allowed. *)
Lemma request_run_le d d' r :
  rtc db_step d d' → r ∈ d.(db_requests) →
  ∃ r', r' ∈ d'.(db_requests) ∧ request_le r r'.
Proof. apply rows_evolve; [apply _|apply request_step_le]. Qed.

(** The life cycle of receipts: the tombstone of an authorization (its
    enforcer, operation, step and fingerprint) is never removed, an
    invalidated receipt never becomes valid again, and the payload is only
    ever dropped, when the receipt is invalid. *)
Lemma receipt_run_le d d' a :
  rtc db_step d d' → a ∈ d.(db_authorizations) →
  ∃ a', a' ∈ d'.(db_authorizations) ∧ auth_le a a'.
Proof. apply rows_evolve; [apply _|apply auth_step_le]. Qed.

(** The life cycle of artifacts: an artifact keeps its owner, use,
    expiry and level; once blocked it is never usable again and a completed
    deletion is final. *)
Lemma artifact_run_le d d' t :
  rtc db_step d d' → t ∈ d.(db_artifacts) →
  ∃ t', t' ∈ d'.(db_artifacts) ∧ artifact_le t t'.
Proof. apply rows_evolve; [apply _|apply artifact_step_le]. Qed.

(** Grants may be reclaimed, so their history reads backwards. *)
Lemma grant_step_back d d' g' :
  db_step d d' → g' ∈ d'.(db_grants) →
  (∃ g, g ∈ d.(db_grants) ∧ grant_le g g') ∨
  (fresh_grant d g' ∧ g'.(g_id) ∉ (g_id <$> d.(db_grants))).
Proof.
  intros Hs Hin. destruct Hs as [| | | | |l Hl| | | | |r d' Hi Hf| | | | | | | |id Hrev Hl Hsrc];
    try (match goal with
         | H : _ = inr _ |- _ =>
             unfold ins_session, ins_request, ins_authorization, ins_authorization_grant,
               ins_artifact, ins_artifact_grant, ins_artifact_parent, upsert_acknowledgement in H;
             insert_inv H
         | _ => idtac
         end; simpl in Hin; left; exists g'; split; [done|reflexivity]).
  - left. destruct (Forall2_new _ _ _ g' Hl Hin) as (g & ? & ?). eauto using grant_next_le.
  - unfold ins_grant in Hi. insert_inv Hi. simpl in Hin. apply among_false in E.
    apply elem_of_app in Hin as [Hin| ->%list_elem_of_singleton]; [left|by right].
    exists g'. split; [done|reflexivity].
  - left. simpl in Hin. apply list_elem_of_filter in Hin as [_ Hin].
    exists g'. split; [done|reflexivity].
Qed.

(** No approval is resurrected: every grant of a later database is either
    a grant of the earlier one, with the same key and terms, no more uses than
    before and revoked if it was revoked, or descends from one that a step in
    between inserted under an unused id. *)
Lemma grant_run_history d d' g' :
  rtc db_step d d' → g' ∈ d'.(db_grants) →
  (∃ g, g ∈ d.(db_grants) ∧ grant_le g g') ∨
  (∃ d1 g1, rtc db_step d d1 ∧ fresh_grant d1 g1 ∧ (g1.(g_id) ∉ (g_id <$> d1.(db_grants))) ∧
    grant_le g1 g').
Proof.
  intros Hr. revert g'. induction Hr as [d|d d1 d' Hs Hr IH]; intros g' Hg'.
  - left. exists g'. split; [done|reflexivity].
  - destruct (IH g' Hg') as [(g1 & Hg1 & Hle)|(d2 & g2 & H1 & H2 & H3 & H4)]; cycle 1.
    { right. exists d2, g2. split_and!; [by eapply rtc_l|done..]. }
    destruct (grant_step_back _ _ _ Hs Hg1) as [(g & Hg & Hle')|[Hf Hid]].
    + left. exists g. split; [done|by etransitivity].
    + right. exists d, g1. split_and!; [reflexivity|done..].
Qed.
