(* ===== verification/Sessions.v ===== *)
(** * Sessions (src/consentd/repository.cc: SessionState, CloseSession,
    SuspendSession, FinishCleanup, Expire, Session)

    The life cycle of sessions: opening, heartbeat, suspension and resumption
    with a proof token, closing with the invalidation of everything bound to
    the session, and the expiry pass that runs before every operation. *)
From S2P Require Import Prelude Strings Platform Message Packing Store ProfileState Exec Logic.
From S2P Require Import Lifecycle.

Section sessions.
Context `{Platform} `{Env}.

(** The map returned by [SessionState]. *)
Definition session_message (row : session_row) : Message :=
  list_to_map [("session", row.(s_id)); ("state", row.(s_state));
    ("generation", to_string row.(s_generation)); ("policy", row.(s_policy));
    ("idle_deadline", to_string row.(s_idle_deadline));
    ("absolute_deadline", to_string row.(s_absolute_deadline));
    ("lease_deadline", to_string row.(s_lease_deadline));
    ("resume_deadline", to_string row.(s_resume_deadline));
    ("resume_hash", row.(s_resume_hash))].

Definition session_by_id (id : string) (d : DB) : option session_row :=
  find_row (λ s, eqs s.(s_id) id) d.(db_sessions).

(** The [active] checks of [SessionState] on the selected row. *)
Definition session_active (row : session_row) (request : Message) : M () :=
  require (negb (eqs row.(s_state) "CLOSING") && negb (eqs row.(s_state) "CLOSED"))
    kClosed "session closed";;
  require (eqs row.(s_state) "ACTIVE") kInactive "session suspended";;
  generation ← lift (Number request "generation" 0 1 int64_max);
  require (row.(s_generation) =? generation) (- ESTALE) "session generation mismatch";;
  live ← andM (after_now row.(s_idle_deadline))
           (andM (after_now row.(s_absolute_deadline)) (after_now row.(s_lease_deadline)));
  require live kInactive "session deadline expired".

Definition SessionState (peer : Peer) (request : Message) (active owner : bool) : M Message :=
  lift (Context peer request);;
  let id := Get request "session" in
  if empty id then
    require (negb owner) (- EINVAL) "session required";; mret ∅
  else
    found ← query (session_by_id id);
    match found with
    | None => throw (- ENOENT) "session not found"
    | Some row =>
        require (eqs row.(s_subject) (Get request "subject") &&
                 eqs row.(s_profile) (Get request "profile"))
          (- EACCES) "session context mismatch";;
        (if owner then
           require (eqs row.(s_owner) peer.(p_identity) && eqs row.(s_instance) peer.(p_instance))
             (- EACCES) "session owner instance mismatch"
         else mret ());;
        (if active then session_active row request else mret ());;
        mret (session_message row)
    end.

Definition session_live (s : session_row) : bool :=
  eqs s.(s_state) "ACTIVE" || eqs s.(s_state) "SUSPENDED".

(** [UPDATE requests SET state='INVALIDATED',token='' WHERE id=?]. *)
Definition invalidate_request (id : string) : M () :=
  statement (upd_requests (λ r, eqs r.(r_id) id)
    (λ r, set_r_token "" (set_r_state "INVALIDATED" r))).

(** Invalidate the pending requests whose payload names [session]. *)
Definition invalidate_session_requests (session : string) : M () :=
  pending ← query (λ d, filter (λ r, eqs r.(r_state) "PENDING" = true) d.(db_requests));
  ids ← fold_m pending (λ ids r,
    payload ← lift (Unpack r.(r_payload));
    mret (if eqs (Get payload "session") session then ids ++ [r.(r_id)] else ids)) [];
  for_each ids invalidate_request.

(** The three [UPDATE]s of [CloseSession] in order. *)
Definition close_session_db (session : string) (d : DB) : DB :=
  let d := upd_sessions (λ s, eqs s.(s_id) session && session_live s)
             (λ s, set_s_generation (s.(s_generation) + 1) (set_s_state "CLOSING" s)) d in
  let d := upd_grants (λ g, eqs g.(g_session) session && eqs g.(g_mode) "SESSION")
             (set_g_revoked 1) d in
  upd_artifacts (λ t, eqs t.(t_session) session && eqs t.(t_state) "ACTIVE")
    (set_t_state "CLEANUP_PENDING") d.

Definition CloseSession (session : string) : M () :=
  statement (close_session_db session);;
  invalidate_session_requests session.

Definition suspend_session_db (session : string) (now : Z) (d : DB) : DB :=
  upd_sessions (λ s, eqs s.(s_id) session && eqs s.(s_state) "ACTIVE")
    (λ s, set_s_resume_deadline (now + s.(s_grace))
            (set_s_generation (s.(s_generation) + 1) (set_s_state "SUSPENDED" s))) d.

Definition SuspendSession (session : string) : M () :=
  now ← Now;
  statement (suspend_session_db session now);;
  invalidate_session_requests session.

Definition undeleted (session : string) (t : artifact_row) : bool :=
  eqs t.(t_session) session && negb (eqs t.(t_state) "DELETED").

Definition finish_cleanup_db (d : DB) : DB :=
  upd_sessions (λ s, eqs s.(s_state) "CLOSING" &&
                     negb (exists_row (undeleted s.(s_id)) d.(db_artifacts)))
    (set_s_state "CLOSED") d.

Definition FinishCleanup : M () := statement finish_cleanup_db.

(** The [WHERE] of the session query of [Expire] with its six bindings. *)
Definition session_expired (n1 n2 n3 n4 n5 n6 : Z) (s : session_row) : bool :=
  (eqs s.(s_state) "ACTIVE" &&
   ((s.(s_idle_deadline) <=? n1) || (s.(s_absolute_deadline) <=? n2) ||
    (s.(s_lease_deadline) <=? n3))) ||
  (eqs s.(s_state) "SUSPENDED" &&
   ((s.(s_resume_deadline) <=? n4) || (s.(s_absolute_deadline) <=? n5) ||
    (s.(s_idle_deadline) <=? n6))).

(** Sort one expired row into the suspend or the close list. *)
Definition expire_classify (acc : list string * list string) (s : session_row)
  : M (list string * list string) :=
  suspend ← (if eqs s.(s_policy) "RESUMABLE_CONVERSATION" && eqs s.(s_state) "ACTIVE"
             then andM (after_now s.(s_idle_deadline)) (after_now s.(s_absolute_deadline))
             else mret false);
  let (close, susp) := acc in
  mret (if suspend : bool then (close, susp ++ [s.(s_id)]) else (close ++ [s.(s_id)], susp)).

(** The session part of [Expire]: the sessions closed and suspended. *)
Definition expire_sessions : M (list string * list string) :=
  n1 ← Now; n2 ← Now; n3 ← Now; n4 ← Now; n5 ← Now; n6 ← Now;
  rows ← query (λ d, filter (λ s, session_expired n1 n2 n3 n4 n5 n6 s = true) d.(db_sessions));
  '(close, suspend) ← fold_m rows expire_classify ([], []);
  for_each close CloseSession;;
  for_each suspend SuspendSession;;
  mret (close, suspend).

Definition Expire : M () :=
  transaction (
    now ← Now;
    let late r := eqs r.(r_state) "PENDING" && (r.(r_deadline) <=? now) in
    changed ← query (λ d, exists_row late d.(db_requests));
    statement (upd_requests late (λ r, set_r_token "" (set_r_state "EXPIRED" r)));;
    '(close, suspend) ← expire_sessions;
    let changed := changed || negb (bool_decide (close = [])) ||
                   negb (bool_decide (suspend = [])) in
    now ← Now;
    let old t := eqs t.(t_state) "ACTIVE" && (t.(t_expires) <=? now) in
    aged ← query (λ d, exists_row old d.(db_artifacts));
    statement (upd_artifacts old (set_t_state "CLEANUP_PENDING"));;
    FinishCleanup;;
    (if changed || aged then Bump else mret ());;
    Commit).

(** [session_open]: the branch of [Session] that creates a session. *)
Definition session_open (peer : Peer) (request : Message) : M Message :=
  count ← query (λ d, count_rows session_live d.(db_sessions));
  require (count <? 128) (- EBUSY) "active session capacity exceeded";;
  let policy := GetOr request "lifecycle" "CONNECTION_BOUND" in
  require (eqs policy "CONNECTION_BOUND" || eqs policy "RESUMABLE_CONVERSATION")
    (- EINVAL) "invalid session lifecycle";;
  idle ← lift (Number request "idle_timeout_ms" 600000 100 kDayMs);
  maximum ← lift (Number request "max_lifetime_ms" 3600000 100 kDayMs);
  lease ← lift (Number request "lease_ms" 30000 100 60000);
  grace ← lift (Number request "reconnect_grace_ms" 30000 100 300000);
  id ← Id;
  token ← Id;
  n7 ← Now; n8 ← Now; n9 ← Now; n10 ← Now;
  insert_stmt (ins_session (mk_session_row id (Get request "subject") (Get request "profile")
    peer.(p_identity) peer.(p_instance) "ACTIVE" 1 policy n7 (n8 + idle) (n9 + maximum)
    (n10 + lease) grace 0 (Hash token)));;
  mret (list_to_map [("session", id); ("generation", "1"); ("state", "ACTIVE");
                     ("resume_token", token)]).

Definition session_resume (id : string) (state request : Message) : M Message :=
  window ← (if eqs (Get state "state") "SUSPENDED"
            then d ← lift (Integer (Get state "resume_deadline") 0 int64_max); after_now d
            else mret false);
  require window kInactive "session resume window closed";;
  require (negb (empty (Get request "resume_token")) &&
           eqs (Hash (Get request "resume_token")) (Get state "resume_hash"))
    (- EACCES) "resume proof mismatch";;
  token ← Id;
  now ← Now;
  statement (upd_sessions (λ s, eqs s.(s_id) id)
    (λ s, set_s_lease_deadline (now + 30000) (set_s_resume_hash (Hash token)
            (set_s_generation (s.(s_generation) + 1) (set_s_state "ACTIVE" s)))));;
  mret {["resume_token" := token]}.

(** The branch of [Session] for an existing session. *)
Definition session_transition (peer : Peer) (request : Message) (method : string) : M Message :=
  state ← SessionState peer request false true;
  generation ← lift (Integer (Get state "generation") 1 int64_max);
  expected ← lift (Number request "generation" 0 1 int64_max);
  require (generation =? expected) (- ESTALE) "session generation mismatch";;
  let id := Get state "session" in
  result ←
    (if eqs method "session_close" then
       CloseSession id;; FinishCleanup;; mret ∅
     else if eqs method "session_suspend" then
       require (eqs (Get state "state") "ACTIVE") kInactive "session is not active";;
       (if eqs (Get state "policy") "CONNECTION_BOUND"
        then CloseSession id;; FinishCleanup
        else SuspendSession id);;
       mret ∅
     else if eqs method "session_resume" then session_resume id state request
     else if eqs method "session_heartbeat" then
       require (eqs (Get state "state") "ACTIVE") kInactive "session is not active";;
       now ← Now;
       statement (upd_sessions (λ s, eqs s.(s_id) id) (set_s_lease_deadline (now + 30000)));;
       mret ∅
     else throw (- ENOSYS) "session method unsupported");
  current ← SessionState peer request false true;
  mret (result ∪ delete "resume_hash" current).

Definition Session (peer : Peer) (request : Message) : M Message :=
  let method := Get request "method" in
  lift (Context peer request);;
  if eqs method "session_get_state" || eqs method "cleanup_get_state" then
    state ← SessionState peer request false false;
    count ← query (λ d, count_rows (undeleted (Get request "session")) d.(db_artifacts));
    mret (<["cleanup_pending" := to_string count]> (delete "resume_hash" state))
  else
    require (Role peer "session") (- EACCES) "session controller role required";;
    let sensitive := eqs method "session_open" || eqs method "session_resume" ||
                     eqs method "session_heartbeat" in
    (if sensitive then ActiveContext request else mret ());;
    transaction (
      result ← (if eqs method "session_open" then session_open peer request
                else session_transition peer request method);
      Bump;;
      (if sensitive then ProfileCommit else Commit);;
      mret result).
End sessions.

(** ** Reading a session *)

Section session_reads.
Context `{Platform} `{Env}.

Lemma reads_session_active row request : reads (session_active row request).
Proof. unfold reads, session_active. solve_evolves. Qed.

Hint Resolve reads_session_active : consent.

Lemma reads_SessionState peer request active owner :
  reads (SessionState peer request active owner).
Proof. unfold reads, SessionState. solve_evolves. Qed.

Lemma session_by_id_Some id d s :
  session_by_id id d = Some s → s ∈ d.(db_sessions) ∧ s.(s_id) = id.
Proof. intros [Hs Hid%eqs_true]%find_row_Some. done. Qed.

(** What a successful [SessionState] has checked. *)
Lemma SessionState_run peer request active owner w w' m :
  SessionState peer request active owner w = (w', Ret m) →
  (Get request "session" = "" ∧ owner = false ∧ m = ∅) ∨
  ∃ s, s ∈ (w_db w).(db_sessions) ∧ s.(s_id) = Get request "session" ∧
    Get request "session" ≠ "" ∧ m = session_message s ∧
    s.(s_subject) = Get request "subject" ∧ s.(s_profile) = Get request "profile" ∧
    (owner = true → s.(s_owner) = peer.(p_identity) ∧ s.(s_instance) = peer.(p_instance)) ∧
    (active = true → s.(s_state) = "ACTIVE" ∧
      Number request "generation" 0 1 int64_max = Ret s.(s_generation)).
Proof.
  unfold SessionState. intros Hrun. run_step Hrun.
  destruct (empty (Get request "session")) eqn:Ee.
  { run_steps Hrun. left. apply empty_true in Ee. bool_hyps. auto. }
  apply empty_false in Ee. run_step Hrun.
  destruct (session_by_id _ _) as [s|] eqn:Es; [|by run_steps Hrun].
  apply session_by_id_Some in Es as [Hs Hid].
  run Hrun as Hctx. run Hrun as Hown. run Hrun as Hact. run_steps Hrun. str_hyps.
  right. exists s. split_and!; try done.
  - intros ->. run_steps Hown. by str_hyps.
  - intros ->. unfold session_active in Hact. run Hact as Hopen. run Hact as Hstate.
    run Hact as Hnum. run Hact as Hgen. str_hyps. apply Z.eqb_eq in Hgen. by subst.
Qed.
End session_reads.

(** ** Session operations are runs of the life cycle *)

Lemma session_message_state s : Get (session_message s) "state" = s.(s_state).
Proof. reflexivity. Qed.
Lemma session_message_id s : Get (session_message s) "session" = s.(s_id).
Proof. reflexivity. Qed.
Lemma session_message_generation s : Get (session_message s) "generation" = to_string s.(s_generation).
Proof. reflexivity. Qed.
Lemma session_message_policy s : Get (session_message s) "policy" = s.(s_policy).
Proof. reflexivity. Qed.

Lemma session_live_true s : session_live s = true ↔ live s.
Proof. unfold session_live, live. by rewrite orb_true_iff, !eqs_true. Qed.

(** Closing is: revoke the SESSION grants, block the artifacts, close. *)
Lemma close_session_order session d :
  close_session_db session d =
  upd_sessions (λ s, eqs s.(s_id) session && session_live s)
    (λ s, set_s_generation (s.(s_generation) + 1) (set_s_state "CLOSING" s))
    (upd_artifacts (λ t, eqs t.(t_session) session && eqs t.(t_state) "ACTIVE")
      (set_t_state "CLEANUP_PENDING")
      (upd_grants (λ g, eqs g.(g_session) session && eqs g.(g_mode) "SESSION")
        (set_g_revoked 1) d)).
Proof. reflexivity. Qed.

(** After revoking and blocking, the session is quiet. *)
Lemma quiet_after session d :
  quiet (upd_artifacts (λ t, eqs t.(t_session) session && eqs t.(t_state) "ACTIVE")
      (set_t_state "CLEANUP_PENDING")
      (upd_grants (λ g, eqs g.(g_session) session && eqs g.(g_mode) "SESSION")
        (set_g_revoked 1) d)) session.
Proof.
  split; simpl.
  - intros g (g0 & _ & ->)%elem_of_update_where Hs Hm. destruct (_ && _) eqn:E; [done|].
    rewrite Hs, Hm, !eqs_refl in E. done.
  - intros t (t0 & _ & ->)%elem_of_update_where Hs Ha. destruct (_ && _) eqn:E; [done|].
    rewrite Hs, Ha, !eqs_refl in E. done.
Qed.

Lemma runs_close_session session d : runs d (close_session_db session d).
Proof.
  rewrite close_session_order. etransitivity; [apply runs_revoke|].
  etransitivity; [apply runs_block|apply runs_upd_sessions].
  - intros t Ht. by str_hyps.
  - intros s _ Hs. str_hyps. apply sn_close; [by apply session_live_true|].
    subst. apply quiet_after.
Qed.

Lemma runs_suspend session now d : runs d (suspend_session_db session now d).
Proof. apply runs_upd_sessions. intros s _ Hs. str_hyps. by apply sn_suspend. Qed.

Lemma runs_finish d : runs d (finish_cleanup_db d).
Proof.
  apply runs_upd_sessions. intros s _ Hs. str_hyps. apply sn_finish; [done|].
  intros t Ht Hts. rewrite exists_row_false in H0. specialize (H0 t Ht). unfold undeleted in H0.
  rewrite Hts, eqs_refl in H0. simpl in H0. by str_hyps.
Qed.

Section session_runs.
Context `{Platform} `{Env}.

Lemma evolves_invalidate_request id : evolves runs (invalidate_request id).
Proof. apply evolves_statement; [apply _|]. auto with consent. Qed.

Hint Resolve evolves_invalidate_request : consent.

Lemma evolves_invalidate_session_requests session :
  evolves runs (invalidate_session_requests session).
Proof. unfold invalidate_session_requests. solve_evolves. Qed.

Lemma evolves_FinishCleanup : evolves runs FinishCleanup.
Proof. apply evolves_statement; [apply _|]; apply runs_finish. Qed.

Hint Resolve evolves_invalidate_session_requests evolves_FinishCleanup reads_SessionState : consent.

Lemma evolves_CloseSession session : evolves runs (CloseSession session).
Proof. unfold CloseSession. solve_evolves. apply runs_close_session. Qed.

Lemma evolves_SuspendSession session : evolves runs (SuspendSession session).
Proof.
  unfold SuspendSession. solve_evolves. apply runs_suspend.
Qed.

Hint Resolve evolves_CloseSession evolves_SuspendSession : consent.

Lemma reads_expire_classify acc s : reads (expire_classify acc s).
Proof. unfold reads, expire_classify. solve_evolves. Qed.

Hint Resolve reads_expire_classify : consent.

Lemma evolves_expire_sessions : evolves runs expire_sessions.
Proof. unfold expire_sessions. solve_evolves. Qed.

Hint Resolve evolves_expire_sessions : consent.

Lemma evolves_Expire : evolves runs Expire.
Proof.
  unfold Expire. solve_evolves.
  - apply runs_decide; [unfold decided; set_solver|]. intros r Hr. by str_hyps.
  - apply runs_block. intros t Ht. by str_hyps.
Qed.

Lemma evolves_session_open peer request : evolves runs (session_open peer request).
Proof.
  unfold session_open. solve_evolves.
  apply runs_step. by eapply step_open.
Qed.

(** The row that [SessionState] returned is the only one with its id. *)
Lemma runs_upd_session s f d :
  s ∈ d.(db_sessions) → session_next d s (f s) →
  runs d (upd_sessions (λ x, eqs x.(s_id) s.(s_id)) f d).
Proof.
  intros Hs Hn. apply runs_guarded. intros Hw. apply runs_upd_sessions. intros x Hx Hid.
  apply eqs_true in Hid.
  assert (x = s) as -> by (eapply (key_inj s_id); [apply (key_sessions _ Hw)|done..]). done.
Qed.

Lemma evolves_session_resume s request w :
  s ∈ (w_db w).(db_sessions) →
  evolves_at runs (session_resume s.(s_id) (session_message s) request) w.
Proof.
  intros Hs. unfold session_resume. rewrite session_message_state.
  at_read as Hwin Hdb. destruct (eqs (s_state s) "SUSPENDED") eqn:Es; cycle 1.
  { run_steps Hwin. at_read as Hreq Hdb2. run_steps Hreq. done. }
  apply eqs_true in Es. rewrite <- Hdb in Hs. clear Hdb Hwin. at_reads.
  apply evolves_then; [apply _| |intros ?; solve_evolves].
  apply evolves_statement_at; [apply _|]; apply runs_upd_session; [done|]. by apply sn_resume.
Qed.

Lemma evolves_session_transition peer request method :
  evolves runs (session_transition peer request method).
Proof.
  intros w. unfold session_transition. at_read as Hst Hdb.
  apply SessionState_run in Hst as [(_ & [=] & _)|(s & Hs & Hid & _ & -> & _)].
  rewrite session_message_id, session_message_state, session_message_policy.
  rewrite <- Hdb in Hs. clear Hdb. at_reads.
  apply evolves_then; [apply _| |intros ?; solve_evolves].
  destruct (eqs method "session_close"); [apply evolves_here; solve_evolves|].
  destruct (eqs method "session_suspend"); [apply evolves_here; solve_evolves|].
  destruct (eqs method "session_resume"); [by apply evolves_session_resume|].
  destruct (eqs method "session_heartbeat"); [|apply evolves_here; solve_evolves].
  at_read as Hact Hdb2. run_steps Hact. str_hyps. at_reads.
  apply evolves_then; [apply _| |intros ?; solve_evolves].
  apply evolves_statement_at; [apply _|]; apply runs_upd_session; [done|]. by apply sn_heartbeat.
Qed.

Hint Resolve evolves_session_open evolves_session_transition evolves_Expire : consent.

Lemma evolves_Session peer request : evolves runs (Session peer request).
Proof. unfold Session. solve_evolves. Qed.
End session_runs.

#[export] Hint Resolve reads_SessionState evolves_invalidate_request evolves_FinishCleanup
  evolves_CloseSession evolves_SuspendSession evolves_Expire evolves_Session : consent.
