(* ===== verification/Expiry.v ===== *)
(** * The expiry pass is effective (src/consentd/repository.cc: Expire)

    [Expire] runs before every client request and on every tick.  It queries
    the expired sessions, sorts them into two lists and then closes or
    suspends them one by one, reading the clock again at each step.  The file
    shows that under a clock that does not run backwards nothing that was
    past its deadline when the pass began is still in use when it returns. *)
From S2P Require Import Prelude Strings Platform Message Packing Store ProfileState Exec Logic.
From S2P Require Import Lifecycle Sessions.

(** [calmer d d'] : from [d] to [d'] nothing becomes usable.  Pending
    requests, usable artifacts and active sessions of [d'] are rows of [d]; a
    suspended session was suspended in [d] or active with the same identity
    and the same two deadlines. *)
Record calmer (d d' : DB) : Prop := mk_calmer {
  calm_requests : ∀ r, r ∈ d'.(db_requests) → r.(r_state) = "PENDING" → r ∈ d.(db_requests);
  calm_artifacts : ∀ t, t ∈ d'.(db_artifacts) → t.(t_state) = "ACTIVE" → t ∈ d.(db_artifacts);
  calm_active : ∀ s, s ∈ d'.(db_sessions) → s.(s_state) = "ACTIVE" → s ∈ d.(db_sessions);
  calm_suspended : ∀ s, s ∈ d'.(db_sessions) → s.(s_state) = "SUSPENDED" →
    s ∈ d.(db_sessions) ∨
    ∃ s0, s0 ∈ d.(db_sessions) ∧ s0.(s_state) = "ACTIVE" ∧ s0.(s_id) = s.(s_id) ∧
      s0.(s_idle_deadline) = s.(s_idle_deadline) ∧
      s0.(s_absolute_deadline) = s.(s_absolute_deadline);
}.

#[export] Instance calmer_preorder : PreOrder calmer.
Proof.
  split; [by split; auto|]. intros d1 d2 d3 [R1 A1 S1 U1] [R2 A2 S2 U2]. split; auto.
  intros s Hs Hst. destruct (U2 s Hs Hst) as [Hin|(s0 & Hs0 & Ha & Hrest)]; [by apply U1|].
  right. exists s0. split; [by apply S1|done].
Qed.

Lemma calmer_requests p f d :
  (∀ r, p r = true → (f r).(r_state) ≠ "PENDING") → calmer d (upd_requests p f d).
Proof.
  intros Hf. split; simpl; auto.
  intros r (r0 & Hr0 & ->)%elem_of_update_where Hst. destruct (p r0) eqn:E; [|done].
  by destruct (Hf r0 E).
Qed.

Lemma calmer_artifacts p d : calmer d (upd_artifacts p (set_t_state "CLEANUP_PENDING") d).
Proof.
  split; simpl; auto.
  intros t (t0 & Ht0 & ->)%elem_of_update_where Hst. by destruct (p t0).
Qed.

Lemma calmer_grants p f d : calmer d (upd_grants p f d).
Proof. split; simpl; auto. Qed.

(** A transition of sessions to a state in which they are not live. *)
Lemma calmer_sessions p f d :
  (∀ s, p s = true → (f s).(s_state) ≠ "ACTIVE" ∧ (f s).(s_state) ≠ "SUSPENDED") →
  calmer d (upd_sessions p f d).
Proof.
  intros Hf. split; simpl; auto.
  - intros s (s0 & Hs0 & ->)%elem_of_update_where Hst. destruct (p s0) eqn:E; [|done].
    by destruct (Hf s0 E).
  - intros s (s0 & Hs0 & ->)%elem_of_update_where Hst. destruct (p s0) eqn:E; [|by left].
    by destruct (Hf s0 E).
Qed.

Lemma calmer_close session d : calmer d (close_session_db session d).
Proof.
  rewrite close_session_order. etransitivity; [apply calmer_grants|].
  etransitivity; [apply calmer_artifacts|]. by apply calmer_sessions.
Qed.

Lemma calmer_suspend session now d : calmer d (suspend_session_db session now d).
Proof.
  split; simpl; auto.
  - intros s (s0 & Hs0 & ->)%elem_of_update_where Hst. by destruct (_ && _).
  - intros s (s0 & Hs0 & ->)%elem_of_update_where Hst. destruct (_ && _) eqn:E; [|by left].
    right. exists s0. by str_hyps.
Qed.

Lemma calmer_finish d : calmer d (finish_cleanup_db d).
Proof. by apply calmer_sessions. Qed.

Lemma calmer_revision f d :
  (f d).(db_sessions) = d.(db_sessions) → (f d).(db_requests) = d.(db_requests) →
  (f d).(db_artifacts) = d.(db_artifacts) → calmer d (f d).
Proof. intros Hs Hr Ha. split; rewrite ?Hs, ?Hr, ?Ha; auto. Qed.

#[export] Hint Resolve calmer_close calmer_suspend calmer_finish calmer_artifacts : consent.

(** What closing and suspending a session establishes; both properties
    survive whatever is calmer. *)
Definition not_live (id : string) (d : DB) : Prop :=
  ∀ s, s ∈ d.(db_sessions) → s.(s_id) = id → ¬ live s.

Definition not_active (id : string) (d : DB) : Prop :=
  ∀ s, s ∈ d.(db_sessions) → s.(s_id) = id → s.(s_state) ≠ "ACTIVE".

Lemma not_live_calmer id d d' : calmer d d' → not_live id d → not_live id d'.
Proof.
  intros Hc Hn s Hs Hid [Hst|Hst].
  - apply (Hn s); [by apply (calm_active _ _ Hc)|done|by left].
  - destruct (calm_suspended _ _ Hc s Hs Hst) as [Hin|(s0 & Hs0 & Ha & Hi & _)].
    + apply (Hn s); [done..|by right].
    + apply (Hn s0); [done|congruence|by left].
Qed.

Lemma not_active_calmer id d d' : calmer d d' → not_active id d → not_active id d'.
Proof. intros Hc Hn s Hs Hid Hst. apply (Hn s); [by apply (calm_active _ _ Hc)|done..]. Qed.

Lemma not_live_close session d : not_live session (close_session_db session d).
Proof.
  intros s (s0 & Hs0 & ->)%elem_of_update_where Hid Hl. destruct (_ && _) eqn:E.
  - by destruct Hl.
  - apply session_live_true in Hl. by rewrite Hid, eqs_refl, Hl in E.
Qed.

Lemma not_active_suspend session now d : not_active session (suspend_session_db session now d).
Proof.
  intros s (s0 & Hs0 & ->)%elem_of_update_where Hid Ha. destruct (_ && _) eqn:E; [done|].
  by rewrite Hid, Ha, !eqs_refl in E.
Qed.

Section expiry.
Context `{Platform} `{Env}.

(** CLOCK_BOOTTIME does not run backwards. *)
Context (clock : ∀ n m, (n ≤ m)%nat → env_now n ≤ env_now m).

Lemma calmer_invalidate id : evolves calmer (invalidate_request id).
Proof. apply evolves_statement; [apply _|]. intros d. by apply calmer_requests. Qed.

Hint Resolve calmer_invalidate : consent.

Lemma calmer_invalidate_session session : evolves calmer (invalidate_session_requests session).
Proof. unfold invalidate_session_requests. solve_evolves. Qed.

Hint Resolve calmer_invalidate_session : consent.

Lemma calmer_CloseSession session : evolves calmer (CloseSession session).
Proof. unfold CloseSession. solve_evolves. Qed.

Lemma calmer_SuspendSession session : evolves calmer (SuspendSession session).
Proof. unfold SuspendSession. solve_evolves. Qed.

Lemma calmer_FinishCleanup : evolves calmer FinishCleanup.
Proof. unfold FinishCleanup. solve_evolves. Qed.

Lemma calmer_Bump : evolves calmer Bump.
Proof. unfold Bump. solve_evolves. by apply calmer_revision. Qed.

Hint Resolve calmer_CloseSession calmer_SuspendSession calmer_FinishCleanup calmer_Bump : consent.

(** What a run that evolves does to the database. *)
Lemma evolves_run R {A} (m : M A) w w' r :
  evolves R m → m w = (w', r) → R (w_db w) (w_db w') ∧ (w_tick w ≤ w_tick w')%nat.
Proof. intros Hm Hrun. destruct (Hm w) as (Hd & _ & Ht). by rewrite Hrun in Hd, Ht. Qed.

Lemma CloseSession_run id w w' u : CloseSession id w = (w', Ret u) → not_live id (w_db w').
Proof.
  unfold CloseSession. intros Hrun. run Hrun as Hst.
  apply (evolves_run calmer) in Hrun as [Hc _]; [|auto with consent].
  eapply not_live_calmer; [exact Hc|]. apply not_live_close.
Qed.

Lemma SuspendSession_run id w w' u : SuspendSession id w = (w', Ret u) → not_active id (w_db w').
Proof.
  unfold SuspendSession. intros Hrun. run Hrun as Hnow. run Hrun as Hst.
  apply (evolves_run calmer) in Hrun as [Hc _]; [|auto with consent].
  eapply not_active_calmer; [exact Hc|]. apply not_active_suspend.
Qed.

(** A loop establishes for each of its elements what its body does, if all
    iterations keep it. *)
Lemma for_each_establishes {A} (P : A → DB → Prop) (body : A → M ()) (l : list A) w w' u :
  (∀ x d d', calmer d d' → P x d → P x d') → (∀ x, evolves calmer (body x)) →
  (∀ x w w' u, body x w = (w', Ret u) → P x (w_db w')) →
  for_each l body w = (w', Ret u) → ∀ x, x ∈ l → P x (w_db w').
Proof.
  intros Hkeep Hev Hbody Hrun.
  apply (for_each_run l (λ pre w, ∀ x, x ∈ pre → P x (w_db w)) body w w' u); [by intros ? ?%elem_of_nil| |done].
  intros pre x w1 w2 u2 _ Hpre Hb y [Hy|Hy%list_elem_of_singleton]%elem_of_app.
  - apply (evolves_run calmer) in Hb as [Hc _]; [|done]. eapply Hkeep; [exact Hc|by apply Hpre].
  - subst. eapply Hbody, Hb.
Qed.

(** The row [s] is settled by the two lists: it will be closed, or it is
    active, will be suspended, and its own deadlines are still ahead. *)
Definition classified (now : Z) (lists : list string * list string) (s : session_row) : Prop :=
  s.(s_id) ∈ lists.1 ∨
  (s.(s_id) ∈ lists.2 ∧ s.(s_state) = "ACTIVE" ∧ now < s.(s_idle_deadline) ∧
   now < s.(s_absolute_deadline)).

Lemma after_now_true now t w w' :
  after_now t w = (w', Ret true) → now ≤ env_now (w_tick w) → now < t ∧ (w_tick w ≤ w_tick w')%nat.
Proof.
  unfold after_now, Now. intros Hrun Hn. run Hrun as Ho. run_steps Hrun. simpl. lia.
Qed.

Lemma expire_classify_run now acc s w w' acc' :
  expire_classify acc s w = (w', Ret acc') → now ≤ env_now (w_tick w) →
  classified now acc' s ∧ ∀ s1, classified now acc s1 → classified now acc' s1.
Proof.
  unfold expire_classify. intros Hrun Hn. run Hrun as Hsus gives sus w1.
  destruct acc as [close susp]. run_steps Hrun. unfold classified.
  destruct sus; simpl; [|set_solver].
  destruct (_ && _) eqn:E; [|by run_steps Hsus]. str_hyps.
  unfold andM in Hsus. run Hsus as Hi gives b w2. destruct b; [|by run_steps Hsus].
  pose proof (after_now_true now _ _ _ Hi Hn) as [Hidle Ht].
  apply (after_now_true now) in Hsus as [Habs _]; [|pose proof (clock _ _ Ht); lia].
  split; [right; set_solver|]. intros s1 [?|?]; [by left|right; set_solver].
Qed.

Lemma expire_lists_run now rows w w' lists :
  fold_m rows expire_classify ([], []) w = (w', Ret lists) → now ≤ env_now (w_tick w) →
  ∀ s, s ∈ rows → classified now lists s.
Proof.
  intros Hrun Hn.
  apply (fold_m_run rows (λ pre acc w, now ≤ env_now (w_tick w) ∧
           ∀ s, s ∈ pre → classified now acc s)) in Hrun as [_ Hall]; [done| |].
  { split; [done|]. by intros ? ?%elem_of_nil. }
  intros pre x acc w1 w2 acc2 _ [Hn1 Hpre] Hb. pose proof Hb as Ht.
  apply (evolves_tick eq) in Ht; [|unfold expire_classify; solve_evolves].
  apply (expire_classify_run now) in Hb as [Hx Hold]; [|done].
  split; [pose proof (clock _ _ Ht); lia|]. set_solver.
Qed.
(** The rows the query of [Expire] selects, with every binding at or after
    [now]. *)
Lemma session_expired_mono now n1 n2 n3 n4 n5 n6 s :
  now ≤ n1 → now ≤ n2 → now ≤ n3 → now ≤ n4 → now ≤ n5 → now ≤ n6 →
  session_expired now now now now now now s = true → session_expired n1 n2 n3 n4 n5 n6 s = true.
Proof.
  intros ??????. unfold session_expired. destruct (eqs _ _), (eqs _ _); simpl; lia.
Qed.

(** The outcome of the session part: [d1] is the database of the query, [d2]
    any later one. *)
Definition settled (now : Z) (lists : list string * list string) (d1 d2 : DB) : Prop :=
  calmer d1 d2 ∧ (∀ id, id ∈ lists.1 → not_live id d2) ∧ (∀ id, id ∈ lists.2 → not_active id d2) ∧
  (∀ s, s ∈ d1.(db_sessions) → session_expired now now now now now now s = true →
     classified now lists s).

Lemma settled_calmer now lists d1 d2 d3 :
  settled now lists d1 d2 → calmer d2 d3 → settled now lists d1 d3.
Proof.
  intros (Hc & Hl & Ha & Hs) H23. split_and!; [by etransitivity| | |done].
  - intros id Hid. eapply not_live_calmer; eauto.
  - intros id Hid. eapply not_active_calmer; eauto.
Qed.

(** The deadlines that are ahead once the sessions are settled. *)
Lemma settled_deadlines now lists d1 d2 s :
  settled now lists d1 d2 → s ∈ d2.(db_sessions) →
  (s.(s_state) = "ACTIVE" → now < s.(s_idle_deadline) ∧ now < s.(s_absolute_deadline) ∧
     now < s.(s_lease_deadline)) ∧
  (s.(s_state) = "SUSPENDED" → now < s.(s_idle_deadline) ∧ now < s.(s_absolute_deadline) ∧
     (s ∈ d1.(db_sessions) → now < s.(s_resume_deadline))).
Proof.
  intros (Hc & Hlive & Hact & Hcl) Hs.
  assert (Hexp : ∀ s0, session_expired now now now now now now s0 = false →
    (s0.(s_state) = "ACTIVE" → now < s0.(s_idle_deadline) ∧ now < s0.(s_absolute_deadline) ∧
       now < s0.(s_lease_deadline)) ∧
    (s0.(s_state) = "SUSPENDED" → now < s0.(s_idle_deadline) ∧ now < s0.(s_absolute_deadline) ∧
       now < s0.(s_resume_deadline))).
  { intros s0. unfold session_expired. intros He. split; intros Hst; rewrite Hst in He; simpl in He; lia. }
  split; intros Hst.
  - pose proof (calm_active _ _ Hc s Hs Hst) as Hin.
    destruct (session_expired now now now now now now s) eqn:E; [|by apply Hexp].
    destruct (Hcl s Hin E) as [Hid|[Hid _]].
    + destruct (Hlive _ Hid s Hs eq_refl). by left.
    + by destruct (Hact _ Hid s Hs eq_refl).
  - assert (Hclosed : ∀ s0, s0.(s_id) = s.(s_id) → s0.(s_id) ∈ lists.1 → False).
    { intros s0 Hi Hid. rewrite Hi in Hid. destruct (Hlive _ Hid s Hs eq_refl). by right. }
    assert (Hold : s ∈ d1.(db_sessions) →
      now < s.(s_idle_deadline) ∧ now < s.(s_absolute_deadline) ∧ now < s.(s_resume_deadline)).
    { intros Hin. destruct (session_expired now now now now now now s) eqn:E; [|by apply Hexp].
      destruct (Hcl s Hin E) as [Hid|(_ & Ha & _)]; [by destruct (Hclosed s)|congruence]. }
    destruct (calm_suspended _ _ Hc s Hs Hst) as [Hin|(s0 & Hs0 & Ha & Hi & Hidle & Habs)];
      [naive_solver|].
    assert (now < s.(s_idle_deadline) ∧ now < s.(s_absolute_deadline)); [|naive_solver].
    rewrite <- Hidle, <- Habs. destruct (session_expired now now now now now now s0) eqn:E.
    + destruct (Hcl s0 Hs0 E) as [Hid|(_ & _ & Hd)]; [by destruct (Hclosed s0)|done].
    + by destruct (proj1 (Hexp s0 E) Ha) as (? & ? & _).
Qed.
(** The clock of [w] shows [now] or later. *)
Definition since (now : Z) (w : World) : Prop := now ≤ env_now (w_tick w).

Lemma since_run now R {A} (m : M A) w w' r :
  evolves R m → m w = (w', r) → since now w → since now w'.
Proof.
  intros Hm Hrun. apply (evolves_run R) in Hrun as [_ Ht]; [|done].
  unfold since. pose proof (clock _ _ Ht). lia.
Qed.

(** Reading the clock later. *)
Lemma run_now {A} now (k : Z → M A) w w' a :
  (Now ≫= k) w = (w', Ret a) → since now w →
  ∃ n w1, k n w1 = (w', Ret a) ∧ now ≤ n ∧ since now w1 ∧ w_db w1 = w_db w.
Proof.
  intros Hrun Hs. run Hrun as Hn gives n w1.
  pose proof (since_run now eq _ _ _ _ reads_Now Hn Hs). unfold Now in Hn.
  apply run_observe in Hn as [-> ->]. eexists _, _. split; [exact Hrun|]. done.
Qed.

(** The session part of the pass. *)
Lemma expire_sessions_run now w w' lists :
  expire_sessions w = (w', Ret lists) → since now w →
  since now w' ∧ settled now lists (w_db w) (w_db w').
Proof.
  unfold expire_sessions. intros Hrun Hs.
  do 6 (let Hn := fresh "Hn" in let Hd := fresh "Hd" in
    apply (run_now now) in Hrun as (? & ? & Hrun & Hn & Hs' & Hd); [|exact Hs]; clear Hs;
    rename Hs' into Hs).
  run Hrun as Hq. run Hrun as Hfold gives found w7.
  assert (Hrows : w_db x10 = w_db w) by congruence.
  assert (Hcl : ∀ s, s ∈ (w_db w).(db_sessions) →
            session_expired now now now now now now s = true → classified now found s).
  { intros s Hin He. eapply expire_lists_run; [exact Hfold| |].
    - unfold since in Hs. pose proof (clock (w_tick x10) (S (w_tick x10))). simpl. lia.
    - rewrite Hrows. apply list_elem_of_filter. split; [|done].
      eapply session_expired_mono; [..|exact He]; done. }
  pose proof Hfold as Hf. apply reads_run in Hf as [Hdb Htk]; [|unfold reads, expire_classify; solve_evolves].
  simpl in Hdb, Htk. destruct found as [close suspend].
  run Hrun as Hclose gives u1 w8. run Hrun as Hsuspend gives u2 w9.
  run_steps Hrun.
  pose proof Hclose as He1. pose proof Hsuspend as He2.
  apply (evolves_run calmer) in He1 as [Hc1 Ht1]; [|solve_evolves].
  apply (evolves_run calmer) in He2 as [Hc2 Ht2]; [|solve_evolves].
  split; [unfold since in *; pose proof (clock (w_tick x10) (w_tick w9)); lia|].
  rewrite Hdb, Hrows in Hc1. split_and!; [by etransitivity| | |done].
  - intros id0 Hid. eapply not_live_calmer; [exact Hc2|].
    apply (for_each_establishes not_live CloseSession close w7 w8 u1); auto with consent.
    + intros id d d'. apply not_live_calmer.
    + intros id ? ? ?. apply CloseSession_run.
  - apply (for_each_establishes not_active SuspendSession suspend w8 w9 u2); auto with consent.
    + intros id d d'. apply not_active_calmer.
    + intros id ? ? ?. apply SuspendSession_run.
Qed.

(** C9: what has expired is out of use.  Under a clock that does not run
    backwards, when the expiry pass returns, no request that was past its
    deadline when the pass began is pending, no artifact past its retention
    is usable, every active session has its idle, absolute and lease
    deadlines ahead, and every suspended session has its idle and absolute
    deadlines ahead and, unless this pass suspended it, its resume window
    open; and the pass makes nothing usable that was not usable before. *)
Theorem Expire_effective w w' u :
  Expire w = (w', Ret u) →
  ∃ now, env_now (S (w_tick w)) = now ∧ calmer (w_db w) (w_db w') ∧
    (∀ r, r ∈ (w_db w').(db_requests) → r.(r_state) = "PENDING" → now < r.(r_deadline)) ∧
    (∀ t, t ∈ (w_db w').(db_artifacts) → t.(t_state) = "ACTIVE" → now < t.(t_expires)) ∧
    (∀ s, s ∈ (w_db w').(db_sessions) →
      (s.(s_state) = "ACTIVE" → now < s.(s_idle_deadline) ∧ now < s.(s_absolute_deadline) ∧
         now < s.(s_lease_deadline)) ∧
      (s.(s_state) = "SUSPENDED" → now < s.(s_idle_deadline) ∧ now < s.(s_absolute_deadline) ∧
         (s ∈ (w_db w).(db_sessions) → now < s.(s_resume_deadline)))).
Proof.
  unfold Expire. intros Hrun. apply transaction_run in Hrun as (w1 & Hrun & Hend).
  run Hrun as Hnow gives now w2. unfold Now in Hnow. apply run_observe in Hnow as [-> ->].
  run Hrun as Hq. run Hrun as Hlate. cbn [w_tick begun set_w_saved set_w_tick] in Hrun.
  set (now := env_now (S (w_tick w))) in *. set (late := λ r, _ && _) in Hrun.
  exists now. split; [done|]. run Hrun as Hsess gives lists w3.
  apply (expire_sessions_run now) in Hsess as [Hs Hset]; [|apply clock; simpl; lia].
  cbn [w_db set_w_db set_w_tick begun set_w_saved] in Hset. set (d0 := upd_requests _ _ _) in Hset.
  assert (Hc0 : calmer (w_db w) d0) by (by apply calmer_requests).
  destruct lists as [close suspend].
  apply (run_now now) in Hrun as (n & w4 & Hrun & Hn & _ & Hd4); [|done].
  run Hrun as Hq2. run Hrun as Hold gives u5 w5. cbn [w_db set_w_tick] in Hrun. rewrite Hd4 in Hrun.
  set (old := λ t, eqs t.(t_state) _ && _) in Hrun. set (d5 := upd_artifacts _ _ _) in Hrun.
  run Hrun as Hfin. run Hrun as Hbump gives u6 w6.
  apply (evolves_run calmer) in Hfin as [Hc5 _]; [|auto with consent].
  apply (evolves_run calmer) in Hbump as [Hc6 _]; [|solve_evolves].
  apply Commit_run in Hrun as [Hdb Hsv]. rewrite (Hend Hsv), Hdb.
  assert (Hc : calmer d5 (w_db w6)) by (by etransitivity).
  assert (Hc3 : calmer (w_db w3) (w_db w6)) by (etransitivity; [apply calmer_artifacts|exact Hc]).
  pose proof (settled_calmer _ _ _ _ _ Hset Hc3) as Hset'. destruct Hset' as [Hc1 Hrest] eqn:E. clear E.
  split_and!.
  - by etransitivity.
  - intros r Hr Hst. pose proof (calm_requests _ _ Hc1 r Hr Hst) as Hin.
    apply elem_of_update_where in Hin as (r0 & _ & Er). destruct (late r0) eqn:El; [by subst r|].
    subst r. unfold late in El. rewrite Hst, eqs_refl in El. simpl in El. lia.
  - intros t Ht Hst. pose proof (calm_artifacts _ _ Hc t Ht Hst) as Hin.
    apply elem_of_update_where in Hin as (t0 & _ & Et). destruct (old t0) eqn:El; [by subst t|].
    subst t. unfold old in El. rewrite Hst, eqs_refl in El. simpl in El. lia.
  - intros s Hin. exact (settled_deadlines now (close, suspend) d0 (w_db w6) s (conj Hc1 Hrest) Hin).
Qed.
End expiry.
