(* ===== verification/Grants.v ===== *)
(** * Evaluating requirements against grants (src/consentd/repository.cc:
    Definition, ValidateBoundArguments, GrantKey, CheckConditions,
    ReceiptValid)

    A request lists up to sixteen requirements; each is checked against the
    registered definition and the stored grants with exactly its key. *)
From S2P Require Import Prelude Strings Platform Message Packing Approval Localization ProfileState.
From S2P Require Import Store Exec Logic Lifecycle Sessions.

Section grants.
Context `{Platform} `{Env}.

(** [if (!check(..., &error)) throw Failure(status, error)]. *)
Definition verify {A} (v : verdict A) (status : Z) : M A :=
  match v with Good a => mret a | Bad error => throw status error end.

Definition Definition_ (id : string) : M Message :=
  found ← query (λ d, find_row (λ r, eqs r.(d_id) id && (r.(d_active) =? 1)) d.(db_definitions));
  match found with
  | None => throw (- ENOENT) "definition unavailable"
  | Some r => lift (Unpack r.(d_config))
  end.

(** ["r" + std::to_string(i) + "." + field] of a message. *)
Definition row_key (i : Z) (field : string) : string := "r" +:+ to_string i +:+ "." +:+ field.
Definition row_get (m : Message) (i : Z) (field : string) : string := Get m (row_key i field).

Definition ValidateBoundArguments (definition request : Message) (index : Z) : M () :=
  (if eqs (Get definition "template_version") "1" then
     require (eqs (row_get request index "policy_version") (Get definition "policy_version"))
       (- ESTALE) "typed definition requires an explicit matching policy version"
   else mret ());;
  verify (localization.ValidateArguments definition request index) (- EINVAL).

(** [validator_ && validator_(package, app, _install_identity)]. *)
Definition installed (definition : Message) : M bool :=
  validator (Get definition "package") (Get definition "app") (Get definition "_install_identity").

Definition grant_fields (request : Message) (index : Z) (definition : Message) : Message :=
  foldl (λ m field, <[field := row_get request index field]> m)
    (list_to_map [("subject", Get request "subject"); ("profile", Get request "profile");
                  ("definition", Get definition "definition");
                  ("version", Get definition "policy_version")])
    ["scope"; "operation"; "purpose"; "recipient"; "holder"].

Definition GrantKey (request : Message) (index : Z) (definition : Message) : string :=
  Pack (grant_fields request index definition).

(** The [WHERE] of the grant query with its three bindings. *)
Definition grant_candidate (key : string) (now : Z) (session : string) (g : grant_row) : bool :=
  eqs g.(g_key) key && (g.(g_revoked) =? 0) &&
  ((g.(g_expires) =? 0) || (g.(g_expires) >? now)) && negb (g.(g_remaining) =? 0) &&
  (negb (eqs g.(g_mode) "SESSION") || eqs g.(g_session) session).

(** [while (grant.Row()) if (Covers(...)) break]. *)
Fixpoint first_covering (request : Message) (rows : list grant_row) : M (option grant_row) :=
  match rows with
  | [] => mret None
  | g :: rows' =>
      now ← Now;
      if approval.Covers request g.(g_mode) g.(g_expires) now
      then mret (Some g) else first_covering request rows'
  end.

(** The local variables of [CheckConditions]. *)
Record conditions := mk_conditions {
  c_result : Message;
  c_unique : gset string;
  c_required : bool;
  c_denied : bool;
  c_cacheable : bool;
  c_grants : list string;
}.

(** [Definition] inside the [try] block: [None] is the [-ENOENT] branch. *)
Definition definition_or_denied (id : string) : M (option Message) :=
  catch (m ← Definition_ id; mret (Some m))
    (λ f, if f.(f_status) =? - ENOENT then mret None else lift (Throw f)).

(** The checks on one requirement with its definition, up to its key. *)
Definition requirement_key (peer : Peer) (request : Message) (enforce : bool) (i : Z)
  (definition : Message) (unique : gset string) : M string :=
  ok ← installed definition;
  require ok (- ESTALE) "installation generation changed";;
  ValidateBoundArguments definition request i;;
  (if negb (empty (row_get request i "policy_version")) then
     require (eqs (row_get request i "policy_version") (Get definition "policy_version"))
       (- ESTALE) "policy version mismatch"
   else mret ());;
  (if enforce || eqs (Get request "method") "check" then
     require (eqs peer.(p_identity) (Get definition "enforcer") ||
              Member peer.(p_enforcers) (Get definition "enforcer"))
       (- EACCES) "enforcement owner mismatch"
   else mret ());;
  let key := GrantKey request i definition in
  require (bool_decide (key ∉ unique)) (- EINVAL) "duplicate requirement";;
  mret key.

Definition find_grant (request : Message) (key : string) : M (option grant_row) :=
  now ← Now;
  rows ← query (λ d, filter (λ g, grant_candidate key now (Get request "session") g = true)
                       (reverse d.(db_grants)));
  first_covering request rows.

(** One iteration of the loop of [CheckConditions]. *)
Definition check_requirement (peer : Peer) (request : Message) (enforce : bool)
  (s : conditions) (i : Z) : M conditions :=
  for_each ["definition"; "operation"; "purpose"] (λ field,
    require (Identifier (row_get request i field)) (- EINVAL) "invalid requirement field");;
  require (size (row_get request i "scope") <=? 4096) (- EINVAL) "scope too large";;
  found ← definition_or_denied (row_get request i "definition");
  match found with
  | None =>
      mret (mk_conditions (<[row_key i "decision" := "DENIED"]> s.(c_result)) s.(c_unique)
              s.(c_required) true s.(c_cacheable) s.(c_grants))
  | Some definition =>
      key ← requirement_key peer request enforce i definition s.(c_unique);
      grant ← find_grant request key;
      let finish result :=
        <[row_key i "text_revision" := Get definition "text_revision"]>
          (<[row_key i "policy_version" := Get definition "policy_version"]> result) in
      match grant with
      | Some g =>
          mret (mk_conditions
            (finish (<[row_key i "decision" := "ALLOWED"]> s.(c_result)))
            ({[key]} ∪ s.(c_unique)) s.(c_required) s.(c_denied)
            (s.(c_cacheable) && (eqs g.(g_mode) "PERSISTENT" || eqs g.(g_mode) "SESSION") &&
             negb (eqs (Get definition "level") "3"))
            (s.(c_grants) ++ [g.(g_id)]))
      | None =>
          mret (mk_conditions
            (finish (<[row_key i "decision" := "CONSENT_REQUIRED"]> s.(c_result)))
            ({[key]} ∪ s.(c_unique)) true s.(c_denied) false s.(c_grants))
      end
  end.

(** [cache_ttl] and the session fields of the result. *)
Definition cache_lifetime (peer : Peer) (request result : Message) : M (Z * Message) :=
  if empty (Get request "session") then mret (500, result)
  else
    state ← SessionState peer request true false;
    ttl ← fold_m ["idle_deadline"; "absolute_deadline"; "lease_deadline"] (λ ttl key,
      deadline ← lift (Integer (Get state key) 0 int64_max);
      now ← Now;
      mret (Z.min ttl (deadline - now))) 500;
    mret (ttl, <["generation" := Get request "generation"]>
                 (<["session" := Get request "session"]> result)).

Definition conditions_initial (count : Z) : conditions :=
  mk_conditions (list_to_map [("decision", "ALLOWED"); ("count", to_string count)])
    ∅ false false true [].

Definition conditions_decision (s : conditions) : string :=
  if s.(c_denied) then "DENIED" else if s.(c_required) then "CONSENT_REQUIRED" else "ALLOWED".

(** Returns the result and the vector [grants]. *)
Definition CheckConditions (peer : Peer) (request : Message) (enforce : bool)
  : M (Message * list string) :=
  count ← lift (Number request "count" 0 1 16);
  require (count >=? 1) (- EINVAL) "requirements required";;
  s ← fold_m (seqZ 0 count) (check_requirement peer request enforce) (conditions_initial count);
  let result := <["decision" := conditions_decision s]> s.(c_result) in
  '(ttl, result) ← cache_lifetime peer request result;
  let cacheable := negb (has request "approval_version") && s.(c_cacheable) && negb enforce &&
                   negb s.(c_required) && negb s.(c_denied) && (ttl >? 0) in
  mret (<["cache_ttl_ms" := to_string (Z.max ttl 0)]>
          (<["cacheable" := if cacheable then "1" else "0"]> result), s.(c_grants)).

(** [profiles_ && profiles_->Check(subject, profile) != 0]. *)
Definition profile_denies (subject profile : string) : M bool :=
  match env_profiles with
  | None => mret false
  | Some f => observe (λ n, negb (Check (f n) subject profile =? 0))
  end.

(** The loop of [ReceiptValid] over the requirements of the payload. *)
Fixpoint receipt_definitions (payload : Message) (indices : list Z) : M bool :=
  match indices with
  | [] => mret true
  | i :: indices' =>
      definition ← Definition_ (row_get payload i "definition");
      if negb (empty (row_get payload i "policy_version")) &&
         negb (eqs (row_get payload i "policy_version") (Get definition "policy_version"))
      then mret false
      else
        ValidateBoundArguments definition payload i;;
        ok ← installed definition;
        if (ok : bool) then receipt_definitions payload indices' else mret false
  end.

(** A source grant of [receipt] that is revoked or expired at [now]. *)
Definition receipt_revoked (receipt : string) (now : Z) (d : DB) : bool :=
  exists_row (λ e, eqs e.1 receipt &&
    exists_row (λ g, eqs g.(g_id) e.2 &&
      (negb (g.(g_revoked) =? 0) || (negb (g.(g_expires) =? 0) && (g.(g_expires) <=? now))))
      d.(db_grants)) d.(db_authorization_grants).

Definition authorization_by_id (id : string) (d : DB) : option auth_row :=
  find_row (λ a, eqs a.(a_id) id) d.(db_authorizations).

Definition ReceiptValid (receipt : string) : M bool :=
  found ← query (authorization_by_id receipt);
  match found with
  | None => mret false
  | Some a =>
      if a.(a_valid) =? 0 then mret false
      else
        payload ← lift (Unpack a.(a_payload));
        denied ← profile_denies (Get payload "subject") (Get payload "profile");
        if (denied : bool) then mret false
        else
          now ← Now;
          revoked ← query (receipt_revoked receipt now);
          if (revoked : bool) then mret false
          else
            count ← lift (Number payload "count" 0 1 16);
            receipt_definitions payload (seqZ 0 count)
  end.
End grants.

(** ** Evaluation only reads *)

Section grants_reads.
Context `{Platform} `{Env}.

Lemma reads_verify {A} (v : verdict A) status : reads (verify v status).
Proof. unfold reads, verify. solve_evolves. Qed.

Lemma reads_Definition_ id : reads (Definition_ id).
Proof. unfold reads, Definition_. solve_evolves. Qed.

Lemma reads_installed m : reads (installed m).
Proof. unfold reads, installed. solve_evolves. Qed.

Hint Resolve reads_verify reads_Definition_ reads_installed : consent.

Lemma reads_ValidateBoundArguments definition request i :
  reads (ValidateBoundArguments definition request i).
Proof. unfold reads, ValidateBoundArguments. solve_evolves. Qed.

Lemma reads_first_covering request rows : reads (first_covering request rows).
Proof. unfold reads. induction rows as [|g rows IH]; simpl; solve_evolves. Qed.

Lemma reads_definition_or_denied id : reads (definition_or_denied id).
Proof. unfold reads, definition_or_denied. solve_evolves. Qed.

Hint Resolve reads_ValidateBoundArguments reads_first_covering reads_definition_or_denied
  : consent.

Lemma reads_requirement_key peer request enforce i definition unique :
  reads (requirement_key peer request enforce i definition unique).
Proof. unfold reads, requirement_key. solve_evolves. Qed.

Lemma reads_find_grant request key : reads (find_grant request key).
Proof. unfold reads, find_grant. solve_evolves. Qed.

Hint Resolve reads_requirement_key reads_find_grant : consent.

Lemma reads_check_requirement peer request enforce s i :
  reads (check_requirement peer request enforce s i).
Proof. unfold reads, check_requirement. solve_evolves. Qed.

Lemma reads_cache_lifetime peer request result : reads (cache_lifetime peer request result).
Proof. unfold reads, cache_lifetime. solve_evolves. Qed.

Hint Resolve reads_check_requirement reads_cache_lifetime : consent.

Lemma reads_CheckConditions peer request enforce : reads (CheckConditions peer request enforce).
Proof. unfold reads, CheckConditions. solve_evolves. Qed.

Lemma reads_profile_denies subject profile : reads (profile_denies subject profile).
Proof. unfold reads, profile_denies. solve_evolves. Qed.

Lemma reads_receipt_definitions payload l : reads (receipt_definitions payload l).
Proof. unfold reads. induction l as [|i l IH]; simpl; solve_evolves. Qed.

Hint Resolve reads_profile_denies reads_receipt_definitions : consent.

Lemma reads_ReceiptValid receipt : reads (ReceiptValid receipt).
Proof. unfold reads, ReceiptValid. solve_evolves. Qed.
End grants_reads.

#[export] Hint Resolve reads_verify reads_Definition_ reads_installed
  reads_ValidateBoundArguments reads_CheckConditions reads_ReceiptValid : consent.

(** ** What an ALLOWED evaluation has established *)

(** [definition] is the registered, active definition [id]. *)
Definition registered_definition `{Platform} (d : DB) (id : string) (definition : Message) : Prop :=
  ∃ r, r ∈ d.(db_definitions) ∧ r.(d_id) = id ∧ r.(d_active) = 1 ∧
       Unpack r.(d_config) = Ret definition.

(** Grant [g] satisfies requirement [i] of [request] in database [d]: it has
    exactly the key of the requirement under the registered definition, is
    neither revoked nor spent, belongs to the session of the request, and at
    an instant of the evaluation [t0, t1) it was not expired and covered the
    selected period. *)
Record granted `{Platform} `{Env} (d : DB) (request : Message) (t0 t1 : nat) (i : Z) (g : grant_row)
  : Prop := mk_granted {
  gr_row : g ∈ d.(db_grants);
  gr_key : ∃ definition,
    registered_definition d (row_get request i "definition") definition ∧
    g.(g_key) = GrantKey request i definition;
  gr_revoked : g.(g_revoked) = 0;
  gr_remaining : g.(g_remaining) ≠ 0;
  gr_session : g.(g_mode) = "SESSION" → g.(g_session) = Get request "session";
  gr_covers : ∃ n, (t0 ≤ n < t1)%nat ∧ (g.(g_expires) = 0 ∨ env_now n < g.(g_expires)) ∧
    approval.Covers request g.(g_mode) g.(g_expires) (env_now n) = true;
}.

Section grants_spec.
Context `{Platform} `{Env}.
#[local] Opaque GrantKey.

Lemma granted_weaken d request t0 t1 t0' t1' i g :
  (t0' ≤ t0)%nat → (t1 ≤ t1')%nat → granted d request t0 t1 i g → granted d request t0' t1' i g.
Proof.
  intros Ht0 Ht1 [? ? ? ? ? (n & Hn & ?)]. split; try done. exists n. split; [lia|done].
Qed.

Lemma Definition_run id w w' definition :
  Definition_ id w = (w', Ret definition) → registered_definition (w_db w) id definition.
Proof.
  unfold Definition_. intros Hrun. run Hrun as Hq. destruct (find_row _ _) as [r|] eqn:E.
  - apply find_row_Some in E as [Hr Hp]. str_hyps. apply run_lift in Hrun as [-> Hu].
    exists r. split_and!; try done. by apply Z.eqb_eq.
  - by apply run_throw in Hrun.
Qed.

Lemma definition_or_denied_run id w w' definition :
  definition_or_denied id w = (w', Ret (Some definition)) →
  registered_definition (w_db w) id definition.
Proof.
  unfold definition_or_denied, catch. destruct ((Definition_ id ≫= _) w) as [w1 [o|f]] eqn:E.
  - intros [= -> ->]. run E as Hd. run_steps E. simplify_eq. by eapply Definition_run.
  - destruct (f_status f =? - ENOENT); intros Hr; [by apply run_ret in Hr as [_ ?]|].
    by apply run_lift in Hr as [_ ?].
Qed.

Lemma first_covering_run request rows w w' g :
  first_covering request rows w = (w', Ret (Some g)) →
  g ∈ rows ∧ ∃ n, (w_tick w ≤ n < w_tick w')%nat ∧
    approval.Covers request g.(g_mode) g.(g_expires) (env_now n) = true.
Proof.
  revert w. induction rows as [|x rows IH]; intros w; simpl; intros Hrun.
  { by apply run_ret in Hrun as [_ ?]. }
  unfold Now in Hrun. run Hrun as Hn. destruct (approval.Covers _ _ _ _) eqn:Ec.
  - apply run_ret in Hrun as [-> [= ->]]. split; [set_solver|]. exists (w_tick w). simpl.
    split; [lia|done].
  - destruct (IH _ Hrun) as (Hg & n & Hn & ?). split; [set_solver|]. exists n. simpl in *.
    split; [lia|done].
Qed.

Lemma find_grant_run request key w w' g :
  find_grant request key w = (w', Ret (Some g)) →
  g ∈ (w_db w).(db_grants) ∧ g.(g_key) = key ∧ g.(g_revoked) = 0 ∧ g.(g_remaining) ≠ 0 ∧
  (g.(g_mode) = "SESSION" → g.(g_session) = Get request "session") ∧
  ∃ n, (w_tick w ≤ n < w_tick w')%nat ∧ (g.(g_expires) = 0 ∨ env_now n < g.(g_expires)) ∧
    approval.Covers request g.(g_mode) g.(g_expires) (env_now n) = true.
Proof.
  unfold find_grant, Now. intros Hrun. run Hrun as Hn. run Hrun as Hq.
  apply first_covering_run in Hrun as (Hg & n & Hn & Hc). simpl in *.
  apply list_elem_of_filter in Hg as [Hp Hg]. rewrite elem_of_reverse in Hg.
  unfold grant_candidate in Hp. str_hyps.
  split_and!; try done.
  - by apply Z.eqb_eq.
  - by apply Z.eqb_neq.
  - intros Hs. rewrite Hs, eqs_refl in *. simpl in *. by str_hyps.
  - exists n. split; [lia|]. split; [|done].
    unfold approval.Covers in Hc. destruct (_ && _) eqn:E in Hc; [done|]. lia.
Qed.

Lemma requirement_key_run peer request enforce i definition unique w w' key :
  requirement_key peer request enforce i definition unique w = (w', Ret key) →
  key = GrantKey request i definition ∧ key ∉ unique.
Proof.
  unfold requirement_key. intros Hrun. run Hrun as H1. run Hrun as H2. run Hrun as H3.
  run Hrun as H4. run Hrun as H5. run Hrun as H6. run_steps Hrun. str_hyps. auto.
Qed.

(** Every requirement of [ixs] is granted by the grant of [gs] beside it,
    with pairwise distinct keys. *)
Definition all_granted (d : DB) (request : Message) (t0 t1 : nat) (ixs : list Z)
  (gs : list grant_row) : Prop :=
  Forall2 (granted d request t0 t1) ixs gs ∧ NoDup (g_key <$> gs).

(** Invariant of the loop of [CheckConditions]. *)
Definition conditions_inv (request : Message) (w0 : World) (ixs : list Z) (s : conditions)
  (w : World) : Prop :=
  w_db w = w_db w0 ∧ (w_tick w0 ≤ w_tick w)%nat ∧
  (s.(c_required) = false → s.(c_denied) = false →
   ∃ gs, s.(c_grants) = g_id <$> gs ∧
     all_granted (w_db w0) request (w_tick w0) (w_tick w) ixs gs ∧
     (∀ g, g ∈ gs → g.(g_key) ∈ s.(c_unique))).

Lemma all_granted_weaken d request t0 t1 t1' ixs gs :
  (t1 ≤ t1')%nat → all_granted d request t0 t1 ixs gs → all_granted d request t0 t1' ixs gs.
Proof.
  intros Ht [Hg Hk]. split; [|done]. eapply Forall2_impl; [exact Hg|].
  intros i g. by apply granted_weaken.
Qed.

(** A requirement that finds a grant extends the invariant. *)
Lemma conditions_inv_grant request w0 ixs s s' w w1 w2 i definition g :
  conditions_inv request w0 ixs s w →
  w_db w1 = w_db w0 → (w_tick w ≤ w_tick w1)%nat →
  registered_definition (w_db w0) (row_get request i "definition") definition →
  GrantKey request i definition ∉ s.(c_unique) →
  find_grant request (GrantKey request i definition) w1 = (w2, Ret (Some g)) →
  s'.(c_required) = s.(c_required) → s'.(c_denied) = s.(c_denied) →
  s'.(c_grants) = s.(c_grants) ++ [g.(g_id)] →
  s'.(c_unique) = {[GrantKey request i definition]} ∪ s.(c_unique) →
  conditions_inv request w0 (ixs ++ [i]) s' w2.
Proof.
  intros (Hdb & Ht & Hinv) Hdb1 Ht1 Hdef Hfresh Hfind Hr Hd Hg Hu.
  destruct (reads_run _ _ _ _ (reads_find_grant _ _) Hfind) as [Hdb2 Ht2].
  apply find_grant_run in Hfind as (Hrow & Hkey & Hrev & Hrem & Hses & n & Hn & Hcov).
  split_and!; [congruence|lia|]. rewrite Hr, Hd, Hg, Hu. intros Hrq Hdn.
  destruct (Hinv Hrq Hdn) as (gs & -> & Hall & Hin).
  apply (all_granted_weaken _ _ _ _ (w_tick w2)) in Hall as [Hall Hnd]; [|lia].
  exists (gs ++ [g]). rewrite fmap_app. split; [done|]. split; [split|].
  - apply Forall2_app; [assumption|]. constructor; [|constructor]. rewrite Hdb1 in Hrow.
    apply mk_granted; [exact Hrow|exists definition; exact (conj Hdef Hkey)|exact Hrev|exact Hrem|
      exact Hses|exists n; split; [lia|exact Hcov]].
  - apply NoDup_snoc_key; [done|]. rewrite Hkey. intros (x & Hx & Hxs)%list_elem_of_fmap.
    apply Hfresh. rewrite Hx. by apply Hin.
  - intros x [Hx| ->%list_elem_of_singleton]%elem_of_app.
    + apply elem_of_union_r. by apply Hin.
    + rewrite Hkey. by apply elem_of_union_l, elem_of_singleton.
Qed.

Lemma check_requirement_inv peer request enforce w0 ixs s i w w' s' :
  conditions_inv request w0 ixs s w →
  check_requirement peer request enforce s i w = (w', Ret s') →
  conditions_inv request w0 (ixs ++ [i]) s' w'.
Proof.
  intros Hinv Hrun. pose proof (reads_run _ _ _ _ (reads_check_requirement _ _ _ _ _) Hrun) as [Hdb Ht].
  pose proof Hinv as (Hdb0 & Ht0 & _).
  unfold check_requirement in Hrun. run Hrun as H1. run Hrun as H2. run Hrun as Hdef.
  apply reads_run in H1 as [Hdb1 Ht1]; [|unfold reads; solve_evolves].
  destruct a1 as [definition|]; cycle 1.
  { run_steps Hrun. split_and!; [congruence|lia|done]. }
  pose proof (reads_run _ _ _ _ (reads_definition_or_denied _) Hdef) as [Hdb2 Ht2].
  apply definition_or_denied_run in Hdef. rewrite Hdb1, Hdb0 in Hdef.
  run Hrun as Hkey. pose proof (reads_run _ _ _ _ (reads_requirement_key _ _ _ _ _ _) Hkey) as [Hdb3 Ht3].
  apply requirement_key_run in Hkey as [-> Hfresh].
  run Hrun as Hfind. destruct a1 as [g|]; run_steps Hrun.
  - eapply conditions_inv_grant; [exact Hinv| | |exact Hdef|exact Hfresh|exact Hfind|..];
      (congruence || lia || reflexivity).
  - split_and!; [congruence|lia|done].
Qed.

Lemma Get_insert_decision k v m : k ≠ "decision" → Get (<[k:=v]> m) "decision" = Get m "decision".
Proof. apply Get_insert_ne. Qed.

Lemma cache_lifetime_decision peer request result w w' ttl result' :
  cache_lifetime peer request result w = (w', Ret (ttl, result')) →
  Get result' "decision" = Get result "decision".
Proof.
  unfold cache_lifetime. destruct (empty _); intros Hrun; [by run_steps Hrun; simplify_eq|].
  run Hrun as H1. run Hrun as H2. run_steps Hrun. simplify_eq. by rewrite !Get_insert_decision.
Qed.

(** What a successful [CheckConditions] returns; when its decision is
    ALLOWED every requirement is granted and the vector [grants] lists the
    grants in order. *)
Lemma CheckConditions_run peer request enforce w w' result grants :
  CheckConditions peer request enforce w = (w', Ret (result, grants)) →
  ∃ count, Number request "count" 0 1 16 = Ret count ∧ 1 ≤ count ∧
    Get result "decision" ∈ ["ALLOWED"; "CONSENT_REQUIRED"; "DENIED"] ∧
    (Get result "decision" = "ALLOWED" →
     ∃ gs, grants = g_id <$> gs ∧
       all_granted (w_db w) request (w_tick w) (w_tick w') (seqZ 0 count) gs).
Proof.
  unfold CheckConditions. intros Hrun. run Hrun as Hcount. run Hrun as Hge. run Hrun as Hfold.
  apply (fold_m_run (seqZ 0 a) (conditions_inv request w)) in Hfold; cycle 1.
  { split_and!; [done..|]. intros _ _. exists []. split_and!; [done| |set_solver].
    split; constructor. }
  { intros pre i s w2 w3 s' _ Hinv Hb. by eapply check_requirement_inv. }
  run Hrun as Hcache. destruct a2 as [ttl result2].
  destruct (reads_run _ _ _ _ (reads_cache_lifetime _ _ _) Hcache) as [_ Ht].
  apply cache_lifetime_decision in Hcache. run_steps Hrun. simplify_eq.
  rewrite !Get_insert_decision, Hcache, Get_insert by done.
  exists a. split; [done|]. split; [lia|]. unfold conditions_decision.
  destruct Hfold as (Hdb & Ht0 & Hinv).
  destruct (c_denied a1); [split; [set_solver|done]|].
  destruct (c_required a1); [split; [set_solver|done]|]. split; [set_solver|]. intros _.
  destruct (Hinv eq_refl eq_refl) as (gs & -> & Hall & _). exists gs. split; [done|].
  by eapply all_granted_weaken.
Qed.
End grants_spec.

(** ** Grant keys are exact *)

Section grant_keys.
Context `{Platform}.

Lemma grant_fields_Get request i definition :
  let m := grant_fields request i definition in
  Get m "subject" = Get request "subject" ∧ Get m "profile" = Get request "profile" ∧
  Get m "definition" = Get definition "definition" ∧
  Get m "version" = Get definition "policy_version" ∧
  Get m "scope" = row_get request i "scope" ∧ Get m "operation" = row_get request i "operation" ∧
  Get m "purpose" = row_get request i "purpose" ∧
  Get m "recipient" = row_get request i "recipient" ∧ Get m "holder" = row_get request i "holder".
Proof. split_and!; reflexivity. Qed.

(** C33: a grant key determines, and is determined by, the subject, the
    profile, the definition with its policy version and the exact scope,
    operation, purpose, recipient and holder of the requirement: an
    approval never applies to a requirement that differs in any of them. *)
Theorem GrantKey_exact r1 i1 d1 r2 i2 d2 :
  GrantKey r1 i1 d1 = GrantKey r2 i2 d2 ↔
  Get r1 "subject" = Get r2 "subject" ∧ Get r1 "profile" = Get r2 "profile" ∧
  Get d1 "definition" = Get d2 "definition" ∧
  Get d1 "policy_version" = Get d2 "policy_version" ∧
  (∀ field, field ∈ ["scope"; "operation"; "purpose"; "recipient"; "holder"] →
    row_get r1 i1 field = row_get r2 i2 field).
Proof.
  split.
  - intros Heq%Pack_inj.
    pose proof (grant_fields_Get r1 i1 d1) as G1. pose proof (grant_fields_Get r2 i2 d2) as G2.
    cbv zeta in G1, G2. rewrite Heq in G1.
    destruct G1 as (? & ? & ? & ? & ? & ? & ? & ? & ?), G2 as (? & ? & ? & ? & ? & ? & ? & ? & ?).
    split_and!; [congruence..|]. intros field Hf.
    rewrite !elem_of_cons, elem_of_nil in Hf. destruct_or! Hf; try done; subst; congruence.
  - intros (Hs & Hp & Hd & Hv & Hf). unfold GrantKey, grant_fields. simpl.
    rewrite Hs, Hp, Hd, Hv. rewrite !Hf by (rewrite !elem_of_cons; tauto). done.
Qed.
End grant_keys.

(** ** Receipts *)

Section receipts.
Context `{Platform} `{Env}.

Lemma receipt_definitions_run payload indices w w' :
  receipt_definitions payload indices w = (w', Ret true) →
  Forall (λ i, ∃ definition,
    registered_definition (w_db w) (row_get payload i "definition") definition ∧
    (row_get payload i "policy_version" = "" ∨
     row_get payload i "policy_version" = Get definition "policy_version")) indices.
Proof.
  revert w. induction indices as [|i indices IH]; intros w Hrun; [constructor|]. simpl in Hrun.
  run Hrun as Hdef. pose proof (Definition_run _ _ _ _ Hdef) as Hreg.
  apply reads_run in Hdef as [Hd1 _]; [|auto with consent].
  destruct (_ && _) eqn:Ev; [by run_steps Hrun|]. run Hrun as Hargs.
  apply reads_run in Hargs as [Hd2 _]; [|auto with consent].
  run Hrun as Hok. apply reads_run in Hok as [Hd3 _]; [|auto with consent].
  destruct a1; [|by run_steps Hrun]. apply IH in Hrun. rewrite Hd3, Hd2, Hd1 in Hrun.
  constructor; [|done]. exists a. split; [done|].
  apply andb_false_iff in Ev as [Ev|Ev]; apply negb_false_iff in Ev;
    [left; by apply empty_true|right; by apply eqs_true].
Qed.

(** C29: a receipt passes as valid only if it is a stored authorization that
    was not invalidated, none of the grants it was issued under is revoked,
    each of them was unexpired at an instant of the check, and every
    requirement it covers still has its definition registered and active
    under the policy version of the receipt. *)
Theorem ReceiptValid_sound receipt w w' :
  ReceiptValid receipt w = (w', Ret true) →
  ∃ a payload count, a ∈ (w_db w).(db_authorizations) ∧ a.(a_id) = receipt ∧
    a.(a_valid) ≠ 0 ∧ Unpack a.(a_payload) = Ret payload ∧
    Number payload "count" 0 1 16 = Ret count ∧
    (∃ n, (w_tick w ≤ n < w_tick w')%nat ∧
      ∀ g, g ∈ (w_db w).(db_grants) → (receipt, g.(g_id)) ∈ (w_db w).(db_authorization_grants) →
        g.(g_revoked) = 0 ∧ (g.(g_expires) = 0 ∨ env_now n < g.(g_expires))) ∧
    (∀ i, 0 ≤ i < count → ∃ definition,
      registered_definition (w_db w) (row_get payload i "definition") definition ∧
      (row_get payload i "policy_version" = "" ∨
       row_get payload i "policy_version" = Get definition "policy_version")).
Proof.
  unfold ReceiptValid. intros Hrun. run Hrun as Hq.
  destruct (authorization_by_id receipt (w_db w)) as [a|] eqn:Ea; [|by run_steps Hrun].
  apply find_row_Some in Ea as [Ha Hid]. str_hyps.
  destruct (a_valid a =? 0) eqn:Ev; [by run_steps Hrun|]. run Hrun as Hu gives payload w1.
  run Hrun as Hden gives denied w2. destruct denied; [by run_steps Hrun|].
  apply reads_run in Hden as [Hd2 Ht2]; [|unfold reads, profile_denies; solve_evolves].
  run Hrun as Hnow gives now w3. unfold Now in Hnow. apply run_observe in Hnow as [-> ->].
  run Hrun as Hrev. cbn [w_db set_w_tick] in Hrun. destruct (receipt_revoked _ _ _) eqn:Er; [by run_steps Hrun|].
  run Hrun as Hcount gives count w4. simpl in *.
  pose proof (evolves_tick eq _ _ _ _ (reads_receipt_definitions _ _) Hrun) as Htick.
  simpl in Htick. apply receipt_definitions_run in Hrun. simpl in Hrun.
  exists a, payload, count. rewrite Hd2 in *. simpl in *.
  split_and!; [done..|lia|done|done| |].
  - exists (w_tick w2). split; [lia|]. intros g Hg He. unfold receipt_revoked in Er.
    rewrite exists_row_false in Er. specialize (Er _ He). simpl in Er. rewrite eqs_refl in Er.
    simpl in Er. rewrite exists_row_false in Er. specialize (Er _ Hg). rewrite eqs_refl in Er.
    simpl in Er. lia.
  - intros i Hi. rewrite Forall_forall in Hrun. apply Hrun. apply elem_of_seqZ. lia.
Qed.
End receipts.
