(* ===== verification/Requests.v ===== *)
(** * Requests and authorizations (src/consentd/repository.cc: Evaluate,
    RequestRow, ValidateStoredApproval, Result)

    [Evaluate] serves both [check] (QUERY and AUTHORIZE) and [request]:
    AUTHORIZE consumes ONCE grants and mints a receipt bound to the grants it
    used; [request] stores a pending or already decided approval request.
    Both are idempotent in their client-chosen keys. *)
From S2P Require Import Prelude Strings Platform Message Packing Approval Localization ProfileState.
From S2P Require Import Store Exec Logic Lifecycle Sessions Grants.

From Stdlib Require Import Ascii.

Section requests.
Context `{Platform} `{Env}.

Definition request_by_id (id : string) (d : DB) : option request_row :=
  find_row (λ r, eqs r.(r_id) id) d.(db_requests).

(** [WHERE id=? OR (?='' AND owner=? AND client_id=? AND subject=? AND profile=?)]. *)
Definition request_selected (peer : Peer) (request : Message) (r : request_row) : bool :=
  let id := Get request "request_id" in
  eqs r.(r_id) id ||
  (empty id && eqs r.(r_owner) peer.(p_identity) &&
   eqs r.(r_client_id) (Get request "client_request_id") &&
   eqs r.(r_subject) (Get request "subject") && eqs r.(r_profile) (Get request "profile")).

(** The columns [RequestRow] adds to the unpacked payload. *)
Definition request_message (r : request_row) (payload : Message) : Message :=
  <["ui_instance" := r.(r_ui_instance)]> (<["ui_owner" := r.(r_ui_owner)]>
    (<["prompt_token" := r.(r_token)]> (<["deadline" := to_string r.(r_deadline)]>
      (<["decision" := r.(r_state)]> (<["request_id" := r.(r_id)]> payload))))).

Definition RequestRow (peer : Peer) (request : Message) (ui : bool) : M Message :=
  (if empty (Get request "request_id") then lift (Context peer request) else mret ());;
  found ← query (λ d, find_row (request_selected peer request) d.(db_requests));
  match found with
  | None => throw (- ENOENT) "request not found"
  | Some r =>
      payload ← lift (Unpack r.(r_payload));
      lift (Context peer payload);;
      require (ui || eqs r.(r_owner) peer.(p_identity)) (- EACCES) "request owner mismatch";;
      mret (request_message r payload)
  end.

Definition ValidateStoredApproval (peer : Peer) (result : Message) : M Message :=
  if negb (eqs (Get result "approval_version") "2") || negb (eqs (Get result "decision") "ALLOWED")
  then mret result
  else
    ActiveContext result;;
    let evaluation := <["_approval_mode" := Get result "chosen_grant_mode"]> result in
    require (eqs (Get evaluation "_approval_mode") "PERSISTENT" ||
             eqs (Get evaluation "_approval_mode") (Get result "grant_mode"))
      (- ESTALE) "stored approval period is missing or invalid";;
    SessionState peer evaluation true false;;
    '(coverage, _) ← CheckConditions peer evaluation false;
    if negb (eqs (Get coverage "decision") "ALLOWED") then
      statement (upd_requests
        (λ r, eqs r.(r_id) (Get result "request_id") && eqs r.(r_state) "ALLOWED")
        (λ r, set_r_token "" (set_r_state "INVALIDATED" r)));;
      Bump;;
      mret (<["decision" := "INVALIDATED"]> result)
    else mret result.

(** Private fields are dropped from a published result. *)
Definition publish_result (result : Message) : Message :=
  filter (λ field, negb (front_is "_"%char field.1) = true)
    (delete "ui_instance" (delete "ui_owner" (delete "prompt_token" result))).

(** [if (cancel && decision == "PENDING")] of [Result]. *)
Definition cancel_pending (cancel : bool) (result : Message) : M Message :=
  if cancel && eqs (Get result "decision") "PENDING" then
    statement (upd_requests
      (λ r, eqs r.(r_id) (Get result "request_id") && eqs r.(r_state) "PENDING")
      (λ r, set_r_token "" (set_r_state "CANCELLED" r)));;
    Bump;;
    mret (<["decision" := "CANCELLED"]> result)
  else mret result.

Definition Result (peer : Peer) (request : Message) (cancel : bool) : M Message :=
  require (Role peer "argo") (- EACCES) "argo role required";;
  transaction (
    result ← RequestRow peer request false;
    result ← cancel_pending cancel result;
    result ←
      (if eqs (Get result "decision") "ALLOWED" then
         ActiveContext result;;
         result ← ValidateStoredApproval peer result;
         ProfileCommit;;
         enabled ← profiles_enabled;
         generation ← gets operation_profile_generation_;
         mret (if enabled : bool
               then <["profile_generation" := to_string generation]> result else result)
       else Commit;; mret result);
    mret (publish_result result)).

(** ** Evaluate *)

Definition response_fields : list string :=
  ["chosen_grant_mode"; "effective_period_choices"; "approval_supported_versions";
   "approval_period_choice"].

(** The checks of [Evaluate] before its transaction. *)
Definition evaluate_guards (peer : Peer) (request : Message) (create : bool) : M () :=
  require (forallb (λ field, negb (front_is "_"%char field.1)) (items request)) (- EINVAL)
    "private approval metadata is not a caller field";;
  for_each response_fields (λ field,
    require (negb (has request field)) (- EINVAL) "response capability is not a requester field");;
  verify (approval.Validate request) (- EINVAL);;
  require (if create then Role peer "argo"
           else Role peer "checker" || Role peer "cm" || Role peer "ce" || Role peer "holder")
    (- EACCES) "caller role denied";;
  lift (Context peer request);;
  ActiveContext request.

(** The current typed schema, checked before any retry shortcut. *)
Definition check_schema (request : Message) (i : Z) : M () :=
  catch (definition ← Definition_ (row_get request i "definition");
         ValidateBoundArguments definition request i)
    (λ f, if f.(f_status) =? - ENOENT
          then verify (localization.ValidateArguments ∅ request i) (- EINVAL)
          else lift (Throw f)).

(** [auto field = request.find(key); if (...) payload.insert( *field)]. *)
Definition copy_field (request payload : Message) (key : string) : Message :=
  match request !! key, payload !! key with
  | Some value, None => <[key := value]> payload
  | _, _ => payload
  end.

Definition payload_fields : list string :=
  ["subject"; "profile"; "session"; "generation"; "operation_id"; "step_id";
   "client_request_id"; "deadline_ms"; "count"].

Definition payload_row_fields : list string :=
  ["definition"; "scope"; "operation"; "purpose"; "recipient"; "holder"; "policy_version";
   "feature_id"; "feature_revision"].

(** The bound payload of a request. *)
Definition evaluate_payload (request : Message) (authorize : bool) : outcome Message :=
  let payload := foldl (copy_field request) (approval.CopyContext request ∅) payload_fields in
  count ← Number request "count" 0 0 16;
  let payload := foldl (λ payload i,
    foldl (λ payload key, copy_field request payload (row_key i key)) payload payload_row_fields)
    payload (seqZ 0 count) in
  Ret (if authorize then delete "deadline_ms" (delete "client_request_id" payload) else payload).

(** The AUTHORIZE retry: [Some] is the early return. *)
Definition authorize_retry (peer : Peer) (request : Message) (fingerprint : string)
  : M (option Message) :=
  require (Identifier (Get request "operation_id") && Identifier (Get request "step_id"))
    (- EINVAL) "operation and execution step required";;
  prior ← query (λ d, find_row (λ a, eqs a.(a_enforcer) peer.(p_identity) &&
                                     eqs a.(a_operation) (Get request "operation_id") &&
                                     eqs a.(a_step) (Get request "step_id"))
                        d.(db_authorizations));
  match prior with
  | None => mret None
  | Some a =>
      require (eqs a.(a_fingerprint) fingerprint) kConflict "operation payload conflict";;
      valid ← ReceiptValid a.(a_id);
      require valid (- ESTALE) "authorization was invalidated";;
      ProfileCommit;;
      mret (Some (list_to_map [("decision", "ALLOWED"); ("receipt", a.(a_id)); ("retry", "1")]))
  end.

(** The decided period of a version 2 request, reported on a retry. *)
Definition request_retry_v2 (peer : Peer) (r : request_row) (retry : Message) : M Message :=
  stored ← lift (Unpack r.(r_payload));
  stored ← ValidateStoredApproval peer
             (<["decision" := r.(r_state)]> (<["request_id" := r.(r_id)]> stored));
  let retry := approval.CopyContext stored (<["decision" := Get stored "decision"]> retry) in
  let retry := if has stored "chosen_grant_mode"
               then <["chosen_grant_mode" := Get stored "chosen_grant_mode"]> retry else retry in
  mret (if has stored "_prompt_period_choices"
        then <["effective_period_choices" := Get stored "_prompt_period_choices"]> retry
        else retry).

(** The [request] retry: [Some] is the early return. *)
Definition request_retry (peer : Peer) (request : Message) (fingerprint : string)
  : M (option Message) :=
  require (Identifier (Get request "client_request_id") && Identifier (Get request "operation_id"))
    (- EINVAL) "stable client request and operation required";;
  prior ← query (λ d, find_row (λ r, eqs r.(r_owner) peer.(p_identity) &&
                                     eqs r.(r_subject) (Get request "subject") &&
                                     eqs r.(r_profile) (Get request "profile") &&
                                     eqs r.(r_client_id) (Get request "client_request_id"))
                        d.(db_requests));
  match prior with
  | None => mret None
  | Some r =>
      require (eqs r.(r_fingerprint) fingerprint) kConflict "request payload conflict";;
      let retry := list_to_map [("request_id", r.(r_id)); ("decision", r.(r_state))] in
      retry ← (if eqs (Get request "approval_version") "2"
               then request_retry_v2 peer r retry else mret retry);
      ProfileCommit;;
      mret (Some retry)
  end.

(** A selected period must be permitted for every missing condition. *)
Definition check_selected_modes (request result : Message) : M () :=
  count ← lift (Number request "count" 0 1 16);
  for_each (seqZ 0 count) (λ i,
    if negb (eqs (row_get result i "decision") "CONSENT_REQUIRED") then mret ()
    else
      definition ← Definition_ (row_get request i "definition");
      let allowed := "," +:+ Get definition "modes" +:+ "," in
      require (contains ("," +:+ Get request "grant_mode" +:+ ",") allowed) (- EACCES)
        "selected period is not permitted for a missing condition").

(** Link one source grant to the receipt, consuming it if it is ONCE. *)
Definition use_grant (receipt grant : string) : M () :=
  statement (upd_grants
    (λ g, eqs g.(g_id) grant && eqs g.(g_mode) "ONCE" && (g.(g_remaining) >? 0))
    (λ g, set_g_remaining (g.(g_remaining) - 1) g));;
  insert_stmt (ins_authorization_grant (receipt, grant)).

Definition authorize_commit (peer : Peer) (request payload result : Message)
  (fingerprint : string) (grants : list string) : M Message :=
  receipt ← Id;
  now ← Now;
  insert_stmt (ins_authorization (mk_auth_row receipt peer.(p_identity)
    (Get request "operation_id") (Get request "step_id") fingerprint (Pack payload) now 1));;
  for_each grants (use_grant receipt);;
  Bump;;
  mret (<["receipt" := receipt]> result).

(** Version 2 additions to the stored payload and to the reply. *)
Definition create_context (request payload result : Message) (pending : bool)
  : Message * Message :=
  if eqs (Get request "approval_version") "2" then
    let result := approval.CopyContext request result in
    if negb pending && eqs (Get result "decision") "ALLOWED"
    then (<["chosen_grant_mode" := Get request "grant_mode"]> payload,
          <["chosen_grant_mode" := Get request "grant_mode"]> result)
    else (payload, result)
  else (payload, result).

Definition create_request (peer : Peer) (request payload result : Message)
  (fingerprint : string) : M Message :=
  let pending := eqs (Get result "decision") "CONSENT_REQUIRED" in
  capacity ← query (λ d, count_rows (λ r, eqs r.(r_state) "PENDING") d.(db_requests));
  require (negb pending || (capacity <? 256)) (- EBUSY) "pending request capacity exceeded";;
  deadline ← lift (Number request "deadline_ms" 60000 100 300000);
  id ← Id;
  let payload := foldl (λ payload item, if starts_with "r" item.1
                                        then <[item.1 := item.2]> payload else payload)
                   payload (items result) in
  let '(payload, result) := create_context request payload result pending in
  now ← Now;
  let decision := if pending then "PENDING" else Get result "decision" in
  insert_stmt (ins_request (mk_request_row id peer.(p_identity) (Get request "subject")
    (Get request "profile") (Get request "client_request_id") fingerprint (Pack payload)
    decision (now + deadline) "" "" ""));;
  Bump;;
  mret (<["request_id" := id]> (<["decision" := decision]> result)).

(** The admission deadline of a TIMED preapproval. *)
Definition admission_deadline (request payload : Message) : M (Message * Message) :=
  if approval.Versioned request && eqs (Get request "request_kind") "PREAPPROVAL" &&
     eqs (Get request "grant_mode") "TIMED"
  then
    now ← Now;
    duration ← lift (Integer (Get request "duration_ms") 100 3600000);
    let deadline := to_string (now + duration) in
    mret (<["_approval_deadline" := deadline]> request,
          <["_approval_deadline" := deadline]> payload)
  else mret (request, payload).

(** The evaluation proper, after the retry shortcuts. *)
Definition evaluate_fresh (peer : Peer) (request payload : Message) (fingerprint : string)
  (create authorize : bool) : M Message :=
  '(request, payload) ← admission_deadline request payload;
  '(result, grants) ← CheckConditions peer request authorize;
  (if create && approval.Versioned request
   then check_selected_modes request result else mret ());;
  result ← (if authorize && eqs (Get result "decision") "ALLOWED"
            then authorize_commit peer request payload result fingerprint grants
            else mret result);
  result ← (if create then create_request peer request payload result fingerprint
            else mret result);
  ProfileCommit;;
  mret result.

Definition Evaluate (peer : Peer) (request : Message) (create : bool) : M Message :=
  evaluate_guards peer request create;;
  transaction (
    SessionState peer request true false;;
    let mode := GetOr request "mode" "QUERY" in
    require (eqs mode "QUERY" || eqs mode "AUTHORIZE") (- EINVAL) "invalid check mode";;
    let authorize := negb create && eqs mode "AUTHORIZE" in
    count ← lift (Number request "count" 0 1 16);
    for_each (seqZ 0 count) (check_schema request);;
    payload ← lift (evaluate_payload request authorize);
    let fingerprint := Hash (Pack payload) in
    retry ← (if authorize then authorize_retry peer request fingerprint
             else if create then request_retry peer request fingerprint else mret None);
    match retry with
    | Some result => mret result
    | None => evaluate_fresh peer request payload fingerprint create authorize
    end).
End requests.

(** ** Requests are runs of the life cycle *)

Section request_runs.
Context `{Platform} `{Env}.

Lemma reads_RequestRow peer request ui : reads (RequestRow peer request ui).
Proof. unfold reads, RequestRow. solve_evolves. Qed.

Lemma evolves_ValidateStoredApproval peer result : evolves runs (ValidateStoredApproval peer result).
Proof. unfold ValidateStoredApproval. solve_evolves. Qed.

Lemma evolves_cancel_pending cancel result : evolves runs (cancel_pending cancel result).
Proof.
  unfold cancel_pending. solve_evolves.
  apply runs_decide; [unfold decided; set_solver|]. intros r Hr. by str_hyps.
Qed.

Hint Resolve reads_RequestRow evolves_ValidateStoredApproval evolves_cancel_pending : consent.

Lemma evolves_Result peer request cancel : evolves runs (Result peer request cancel).
Proof. unfold Result. solve_evolves. Qed.

Lemma reads_evaluate_guards peer request create : reads (evaluate_guards peer request create).
Proof. unfold reads, evaluate_guards. solve_evolves. Qed.

Lemma reads_check_schema request i : reads (check_schema request i).
Proof. unfold reads, check_schema. solve_evolves. Qed.

Lemma evolves_authorize_retry peer request fingerprint :
  evolves runs (authorize_retry peer request fingerprint).
Proof. unfold authorize_retry. solve_evolves. Qed.

Lemma evolves_request_retry_v2 peer r retry : evolves runs (request_retry_v2 peer r retry).
Proof. unfold request_retry_v2. solve_evolves. Qed.

Hint Resolve evolves_request_retry_v2 : consent.

Lemma evolves_request_retry peer request fingerprint :
  evolves runs (request_retry peer request fingerprint).
Proof. unfold request_retry. solve_evolves. Qed.

Lemma reads_check_selected_modes request result : reads (check_selected_modes request result).
Proof. unfold reads, check_selected_modes. solve_evolves. Qed.

Lemma reads_admission_deadline request payload : reads (admission_deadline request payload).
Proof. unfold reads, admission_deadline. solve_evolves. Qed.

Hint Resolve reads_evaluate_guards reads_check_schema evolves_authorize_retry
  evolves_request_retry reads_check_selected_modes reads_admission_deadline : consent.

(** ** Consuming grants *)

(** The grants table after [use_grant]. *)
Definition spend (grant : string) : list grant_row → list grant_row :=
  update_where (λ g, eqs g.(g_id) grant && eqs g.(g_mode) "ONCE" && (g.(g_remaining) >? 0))
    (λ g, set_g_remaining (g.(g_remaining) - 1) g).

Lemma use_grant_run receipt grant w w' u :
  use_grant receipt grant w = (w', Ret u) →
  w_db w' = set_db_authorization_grants
    ((w_db w).(db_authorization_grants) ++ [(receipt, grant)])
    (set_db_grants (spend grant (w_db w).(db_grants)) (w_db w)) ∧ (w_tick w ≤ w_tick w')%nat.
Proof.
  unfold use_grant. intros Hrun. run Hrun as Hs. apply run_insert in Hrun as (d & Hi & ->).
  unfold ins_authorization_grant in Hi. insert_inv Hi. split; [done|simpl; lia].
Qed.

(** A usable grant can be linked once more. *)
Lemma evolves_use_grant receipt g w :
  wf (w_db w) → g ∈ (w_db w).(db_grants) → g.(g_remaining) ≠ 0 →
  evolves_at runs (use_grant receipt g.(g_id)) w.
Proof.
  intros Hw Hg Hr. unfold use_grant. apply evolves_bind_at; [apply _| |].
  { apply evolves_statement_at; [apply _|]; apply runs_upd_grants. intros x _ Hx. str_hyps.
    apply gn_consume; [done|lia]. }
  intros u w1 Hs. run_steps Hs. apply evolves_insert_at; [apply _|]. intros d' Hi.
  apply runs_step. eapply step_link; [exact Hi|]. simpl.
  intros x (x0 & Hx0 & ->)%elem_of_update_where Hid Ho.
  assert (x0 = g) as ->.
  { eapply (key_inj g_id); [apply (key_grants _ Hw)|done..|]. by destruct (_ && _). }
  assert (Hm : g.(g_mode) = "ONCE") by (by destruct (_ && _)).
  pose proof (once_budget _ Hw g Hg Hm) as Hb.
  pose proof (row_grants _ Hw) as Hok. rewrite Forall_forall in Hok. specialize (Hok g Hg).
  unfold grant_ok in Hok. rewrite Hm in Hok. simpl in Hok.
  pose proof (links_nonneg g.(g_id) (w_db w).(db_authorization_grants)).
  rewrite eqs_refl, Hm. simpl. assert ((g_remaining g >? 0) = true) as -> by lia. simpl. lia.
Qed.

Lemma evolves_use_grants receipt gs w :
  wf (w_db w) → Forall (λ g, g ∈ (w_db w).(db_grants) ∧ g.(g_remaining) ≠ 0) gs →
  NoDup (g_id <$> gs) →
  evolves_at runs (for_each (g_id <$> gs) (use_grant receipt)) w.
Proof.
  revert w. induction gs as [|g gs IH]; intros w Hw Hgs Hnd; simpl;
    [apply evolves_here; solve_evolves|].
  apply Forall_cons in Hgs as [[Hg Hr] Hgs]. rewrite fmap_cons, NoDup_cons in Hnd.
  destruct Hnd as [Hng Hnd]. pose proof (evolves_use_grant receipt g w Hw Hg Hr) as Hu.
  apply evolves_bind_at; [apply _|done|]. intros u w1 Hrun. apply IH; [| |done].
  - destruct Hu as [Hu _]. rewrite Hrun in Hu. by eapply runs_wf.
  - apply use_grant_run in Hrun as [-> _]. simpl. rewrite Forall_forall in *.
    intros x Hx. destruct (Hgs x Hx) as [Hin Hrx]. split; [|done].
    apply elem_of_update_where. exists x. split; [done|].
    assert (eqs (g_id x) (g_id g) = false) as ->; [|done].
    apply eqs_false. intros Heq. destruct Hng. rewrite <- Heq. by apply list_elem_of_fmap_2.
Qed.

(** Granted rows with distinct keys have distinct ids. *)
Lemma granted_ids d request t0 t1 is' gs :
  wf d → all_granted d request t0 t1 is' gs →
  Forall (λ g, g ∈ d.(db_grants) ∧ g.(g_remaining) ≠ 0) gs ∧ NoDup (g_id <$> gs).
Proof.
  intros Hw [Hall Hnd].
  assert (Hgs : ∀ g, g ∈ gs → g ∈ d.(db_grants) ∧ g.(g_remaining) ≠ 0).
  { intros g Hg. destruct (Forall2_new _ _ _ g Hall Hg) as (i & _ & Hgr).
    split; [apply (gr_row _ _ _ _ _ _ Hgr)|apply (gr_remaining _ _ _ _ _ _ Hgr)]. }
  split; [by apply Forall_forall|]. clear Hall. induction gs as [|g gs IH]; [constructor|].
  rewrite fmap_cons, NoDup_cons in *. destruct Hnd as [Hk Hnd].
  split; [|apply IH; [done|intros x Hx; apply Hgs; by right]].
  intros (x & Hx & Hxs)%list_elem_of_fmap. apply Hk.
  assert (g = x) as ->; [|by apply list_elem_of_fmap_2].
  eapply (key_inj g_id); [apply (key_grants _ Hw)|apply Hgs; by left|apply Hgs; by right|done].
Qed.

Lemma evolves_authorize_commit peer request0 payload result fingerprint d0 request t0 t1 ixs gs w :
  w_db w = d0 → all_granted d0 request t0 t1 ixs gs →
  evolves_at runs (authorize_commit peer request0 payload result fingerprint (g_id <$> gs)) w.
Proof.
  intros <- Hall. apply evolves_at_guarded.
  { unfold authorize_commit, use_grant. solve_evolves; exact I. }
  intros Hw. destruct (granted_ids _ _ _ _ _ _ Hw Hall) as [Hgs Hnd]. clear Hall.
  unfold authorize_commit. at_reads. apply evolves_bind_at; [apply _| |].
  { apply evolves_insert_at; [apply _|]. intros d' Hi. apply runs_step. by eapply step_receipt. }
  intros u w1 Hrun. apply run_insert in Hrun as (d1 & Hi & ->).
  apply evolves_then; [apply _| |intros ?; solve_evolves].
  apply evolves_use_grants; [|simpl|done].
  - simpl. by eapply wf_receipt.
  - unfold ins_authorization in Hi. insert_inv Hi. done.
Qed.

Lemma create_context_decision request payload result pending :
  Get (create_context request payload result pending).2 "decision" = Get result "decision".
Proof.
  unfold create_context. destruct (eqs _ _); [|done].
  destruct (_ && _); simpl; rewrite ?Get_insert_ne by done;
    apply approval.CopyContext_Get; unfold approval.kContext; set_solver.
Qed.

Lemma evolves_create_request peer request payload result fingerprint :
  Get result "decision" ∈ ["ALLOWED"; "CONSENT_REQUIRED"; "DENIED"] →
  evolves runs (create_request peer request payload result fingerprint).
Proof.
  intros Hdec. unfold create_request.
  destruct (create_context request _ result _) as [payload' result'] eqn:Ec.
  assert (Hc : Get result' "decision" = Get result "decision").
  { apply (f_equal snd) in Ec. simpl in Ec. subst. apply create_context_decision. }
  solve_evolves; (apply runs_step; eapply step_request; [eassumption|done|]; simpl).
  destruct (eqs (Get result "decision") "CONSENT_REQUIRED") eqn:E; [set_solver|].
  apply eqs_false in E. rewrite Hc. set_solver.
Qed.

Lemma evolves_evaluate_fresh peer request payload fingerprint create authorize :
  evolves runs (evaluate_fresh peer request payload fingerprint create authorize).
Proof.
  intros w. unfold evaluate_fresh. at_reads. destruct a as [request' payload'].
  at_read as Hchk Hdb'. destruct a as [result grants].
  apply CheckConditions_run in Hchk as (count & _ & _ & Hdec & Hall).
  at_reads. apply evolves_bind_at; [apply _| |].
  - destruct (authorize && eqs (Get result "decision") "ALLOWED") eqn:E;
      [|apply evolves_here; solve_evolves].
    str_hyps. destruct (Hall H2) as (gs & -> & Hgs). eapply evolves_authorize_commit; [|exact Hgs].
    congruence.
  - intros result' w1 Hrun. apply evolves_here.
    assert (Hdec' : Get result' "decision" ∈ ["ALLOWED"; "CONSENT_REQUIRED"; "DENIED"]).
    { destruct (authorize && _).
      - unfold authorize_commit in Hrun. run Hrun as H1. run Hrun as H2. run Hrun as H3.
        run Hrun as H4. run Hrun as H5. run_steps Hrun. by rewrite Get_insert_ne.
      - by run_steps Hrun. }
    solve_evolves. by apply evolves_create_request.
Qed.

Hint Resolve evolves_evaluate_fresh : consent.

Lemma evolves_Evaluate peer request create : evolves runs (Evaluate peer request create).
Proof. unfold Evaluate. solve_evolves. Qed.
End request_runs.

#[export] Hint Resolve reads_RequestRow evolves_Result evolves_Evaluate : consent.

(** ** AUTHORIZE *)

Section authorize.
Context `{Platform} `{Env}.

Definition spend_all (ids : list string) (rows : list grant_row) : list grant_row :=
  foldl (λ rows id, spend id rows) rows ids.

Lemma use_grants_run receipt ids w w' u :
  for_each ids (use_grant receipt) w = (w', Ret u) →
  w_db w' = set_db_authorization_grants
    ((w_db w).(db_authorization_grants) ++ ((receipt,.) <$> ids))
    (set_db_grants (spend_all ids (w_db w).(db_grants)) (w_db w)) ∧ (w_tick w ≤ w_tick w')%nat.
Proof.
  revert w. induction ids as [|id ids IH]; intros w Hrun; simpl in Hrun.
  - apply run_ret in Hrun as [-> _]. rewrite fmap_nil, app_nil_r. by destruct w as [[]].
  - run Hrun as Hu. apply use_grant_run in Hu as [Hd1 Ht1]. apply IH in Hrun as [Hd2 Ht2].
    split; [|lia]. rewrite Hd2, Hd1. simpl. by rewrite <- app_assoc.
Qed.

(** A row whose id is not spent stays; a spent ONCE row loses one use. *)
Lemma spend_other id g rows : g.(g_id) ≠ id → g ∈ rows → g ∈ spend id rows.
Proof.
  intros Hid Hg. apply elem_of_update_where. exists g. split; [done|].
  apply eqs_false in Hid. by rewrite Hid.
Qed.

Lemma spend_same g rows :
  g ∈ rows → g.(g_mode) = "ONCE" → 0 < g.(g_remaining) →
  set_g_remaining (g.(g_remaining) - 1) g ∈ spend g.(g_id) rows.
Proof.
  intros Hg Hm Hr. apply elem_of_update_where. exists g. split; [done|].
  rewrite eqs_refl, Hm, eqs_refl. by assert ((g_remaining g >? 0) = true) as -> by lia.
Qed.

Lemma spend_all_other ids g rows : g.(g_id) ∉ ids → g ∈ rows → g ∈ spend_all ids rows.
Proof.
  revert rows. induction ids as [|id ids IH]; intros rows Hid Hg; [done|]. simpl.
  apply IH; [set_solver|]. apply spend_other; set_solver.
Qed.

Lemma spend_all_spent ids g rows :
  NoDup ids → g.(g_id) ∈ ids → g ∈ rows → g.(g_mode) = "ONCE" → 0 < g.(g_remaining) →
  set_g_remaining (g.(g_remaining) - 1) g ∈ spend_all ids rows.
Proof.
  revert rows. induction ids as [|id ids IH]; intros rows Hnd Hid Hg Hm Hr; [set_solver|]. simpl.
  apply NoDup_cons in Hnd as [Hni Hnd]. destruct (decide (id = g.(g_id))) as [->|Hne].
  - apply spend_all_other; [done|]. by apply spend_same.
  - apply IH; [done|set_solver| |done..]. apply spend_other; [congruence|done].
Qed.

Lemma authorize_commit_run peer request payload result fingerprint ids w w' result' :
  authorize_commit peer request payload result fingerprint ids w = (w', Ret result') →
  ∃ receipt now, result' = <["receipt" := receipt]> result ∧
    let a := mk_auth_row receipt peer.(p_identity) (Get request "operation_id")
               (Get request "step_id") fingerprint (Pack payload) now 1 in
    (receipt ∉ (a_id <$> (w_db w).(db_authorizations))) ∧
    (auth_key a ∉ (auth_key <$> (w_db w).(db_authorizations))) ∧
    (w_db w').(db_authorizations) = (w_db w).(db_authorizations) ++ [a] ∧
    (w_db w').(db_authorization_grants) =
      (w_db w).(db_authorization_grants) ++ ((receipt,.) <$> ids) ∧
    (w_db w').(db_grants) = spend_all ids (w_db w).(db_grants) ∧ (w_tick w ≤ w_tick w')%nat.
Proof.
  unfold authorize_commit. intros Hrun. run Hrun as Hid. run Hrun as Hnow. run Hrun as Hins.
  apply reads_run in Hid as [Hd1 Ht1]; [|auto with consent].
  apply reads_run in Hnow as [Hd2 Ht2]; [|auto with consent].
  run Hrun as Huse. apply use_grants_run in Huse as [Hd3 Ht3]. run Hrun as Hb.
  unfold Bump in Hb. run_steps Hb. run_steps Hrun. unfold ins_authorization in Hins.
  insert_inv Hins. apply among_false in E. apply (unique_false auth_key) in E0;
    [|apply auth_unique_key].
  exists a, a0. simpl in *. rewrite ?Hd3, ?Hd2, ?Hd1 in *. simpl. split_and!; (done || lia).
Qed.

Lemma admission_deadline_run request payload w w' request' payload' :
  admission_deadline request payload w = (w', Ret (request', payload')) →
  request' = request ∨ ∃ t, request' = <["_approval_deadline" := t]> request.
Proof.
  unfold admission_deadline. destruct (_ && _ && _); intros Hrun; [|by run_steps Hrun; simplify_eq; left].
  run Hrun as Hn. run Hrun as Hi. run_steps Hrun. simplify_eq. right. by eexists.
Qed.

Lemma evaluate_fresh_run peer request payload fingerprint w w' result :
  evaluate_fresh peer request payload fingerprint false true w = (w', Ret result) →
  Get result "decision" = "ALLOWED" →
  w_saved w' = None ∧ (w_tick w ≤ w_tick w')%nat ∧
  ∃ request' payload' count gs,
    (request' = request ∨ ∃ t, request' = <["_approval_deadline" := t]> request) ∧
    Number request' "count" 0 1 16 = Ret count ∧ 1 ≤ count ∧
    all_granted (w_db w) request' (w_tick w) (w_tick w') (seqZ 0 count) gs ∧
    ∃ w1 w2 result1, w_db w1 = w_db w ∧ w_db w' = w_db w2 ∧
      authorize_commit peer request' payload' result1 fingerprint (g_id <$> gs) w1 =
        (w2, Ret result).
Proof.
  intros Hrun Hdec.
  pose proof (evolves_tick _ _ _ _ _ (evolves_evaluate_fresh _ _ _ _ _ _) Hrun) as Htick.
  unfold evaluate_fresh in Hrun.
  run Hrun as Hadm. destruct a as [request' payload'].
  destruct (reads_run _ _ _ _ (reads_admission_deadline _ _) Hadm) as [Hd1 Ht1].
  apply admission_deadline_run in Hadm. run Hrun as Hchk. destruct a as [result0 ids].
  destruct (reads_run _ _ _ _ (reads_CheckConditions _ _ _) Hchk) as [Hd2 Ht2].
  apply CheckConditions_run in Hchk as (count & Hcount & Hge & _ & Hall).
  simpl in Hrun. run Hrun as Hmodes. run Hrun as Hauth. run Hrun as Hcreate.
  run_steps Hcreate. run Hrun as Hcommit. run_steps Hrun.
  pose proof (evolves_tick _ _ _ _ _ evolves_ProfileCommit Hcommit) as Ht4.
  apply ProfileCommit_run in Hcommit as [Hd3 Hs]. run_steps Hmodes.
  split; [done|]. split; [done|]. exists request', payload', count.
  destruct (eqs (Get result0 "decision") "ALLOWED") eqn:Ed; cycle 1.
  { run_steps Hauth. apply eqs_false in Ed. congruence. }
  apply eqs_true in Ed. destruct (Hall Ed) as (gs & -> & Hgs). exists gs.
  split_and!; [done..| |].
  - rewrite Hd1 in Hgs. destruct Hgs as [Hgs Hnd]. split; [|done].
    eapply Forall2_impl; [exact Hgs|]. intros i g. apply granted_weaken; [done|].
    apply authorize_commit_run in Hauth as (? & ? & _ & _ & _ & _ & _ & _ & ?). lia.
  - eexists _, _, _. split; [|split; [exact Hd3|exact Hauth]]. congruence.
Qed.

(** The prior authorization of an operation step. *)
Definition prior_authorization (peer : Peer) (request : Message) (a : auth_row) : bool :=
  eqs a.(a_enforcer) peer.(p_identity) && eqs a.(a_operation) (Get request "operation_id") &&
  eqs a.(a_step) (Get request "step_id").

Lemma authorize_retry_run peer request fingerprint w w' r :
  authorize_retry peer request fingerprint w = (w', Ret r) →
  w_db w' = w_db w ∧ (w_tick w ≤ w_tick w')%nat ∧
  match r with
  | None => w_saved w' = w_saved w ∧
      find_row (prior_authorization peer request) (w_db w).(db_authorizations) = None
  | Some m => w_saved w' = None ∧ ∃ a,
      find_row (prior_authorization peer request) (w_db w).(db_authorizations) = Some a ∧
      a.(a_fingerprint) = fingerprint ∧
      m = list_to_map [("decision", "ALLOWED"); ("receipt", a.(a_id)); ("retry", "1")]
  end.
Proof.
  unfold authorize_retry. intros Hrun.
  pose proof (evolves_tick _ _ _ _ _ (evolves_authorize_retry _ _ _) Hrun) as Ht.
  run Hrun as Hid. run Hrun as Hq. fold (prior_authorization peer request) in Hrun.
  destruct (find_row _ _) as [a'|] eqn:Ef; [|by run_steps Hrun].
  run Hrun as Hfp. run Hrun as Hv. apply reads_run in Hv as [Hd _]; [|auto with consent].
  run Hrun as Hok. run Hrun as Hc. apply ProfileCommit_run in Hc as [Hd2 Hs]. run_steps Hrun.
  str_hyps. simpl in Hd. split_and!; [congruence|done|done|]. by exists a'.
Qed.

(** In a well-formed database a granted ONCE grant has its one use left, and
    spending all the granted grants takes it. *)
Lemma granted_once_spent d request t0 t1 ixs gs g :
  wf d → all_granted d request t0 t1 ixs gs → g ∈ gs → g.(g_mode) = "ONCE" →
  g.(g_remaining) = 1 ∧ set_g_remaining 0 g ∈ spend_all (g_id <$> gs) d.(db_grants).
Proof.
  intros Hw Hall Hg Hm. destruct (granted_ids _ _ _ _ _ _ Hw Hall) as [Hgs Hnd].
  rewrite Forall_forall in Hgs. destruct (Hgs g Hg) as [Hin Hrem].
  pose proof (row_grants _ Hw) as Hok. rewrite Forall_forall in Hok. specialize (Hok g Hin).
  unfold grant_ok in Hok. rewrite Hm in Hok. simpl in Hok.
  assert (Hone : g.(g_remaining) = 1) by lia. split; [done|].
  pose proof (spend_all_spent (g_id <$> gs) g d.(db_grants) Hnd) as Hsp.
  rewrite Hone in Hsp. apply Hsp; [by apply list_elem_of_fmap_2|done|done|lia].
Qed.

Lemma Get_deadline request' request k :
  (request' = request ∨ ∃ t, request' = <["_approval_deadline" := t]> request) →
  k ≠ "_approval_deadline" → Get request' k = Get request k.
Proof. intros [->|[t ->]] Hk; [done|]. by apply Get_insert_ne. Qed.

(** What [Evaluate] decides inside its transaction for a [check]. *)
Definition decide_check (peer : Peer) (request payload : Message) (authorize : bool)
  : M Message :=
  retry ← (if authorize then authorize_retry peer request (Hash (Pack payload))
           else mret None);
  match retry with
  | Some result => mret result
  | None => evaluate_fresh peer request payload (Hash (Pack payload)) false authorize
  end.

(** A [check] that returns got through its guards reading only, and then
    decided. *)
Lemma Evaluate_check_run peer request w w' result :
  Evaluate peer request false w = (w', Ret result) →
  ∃ w1 w2 payload, w_db w1 = w_db w ∧ (w_tick w ≤ w_tick w1)%nat ∧
    evaluate_payload request (eqs (GetOr request "mode" "QUERY") "AUTHORIZE") = Ret payload ∧
    decide_check peer request payload (eqs (GetOr request "mode" "QUERY") "AUTHORIZE") w1 =
      (w2, Ret result) ∧
    (w_saved w2 = None → w' = w2).
Proof.
  intros Hrun. unfold Evaluate in Hrun. run Hrun as Hguard.
  apply reads_run in Hguard as [Hd0 Ht0]; [|apply reads_evaluate_guards].
  apply transaction_run in Hrun as (w1 & Hrun & Hend). run Hrun as Hst.
  apply reads_run in Hst as [Hd1 Ht1]; [|auto with consent].
  run Hrun as Hm. run Hrun as Hcount. run Hrun as Hschema gives u w3.
  apply reads_run in Hschema as [Hd2 Ht2]; [|unfold reads; apply evolves_for_each;
    [apply _|intros; apply reads_check_schema]].
  run Hrun as Hpay gives payload w4. simpl in *. exists w3, w1, payload.
  split_and!; [congruence|lia|done|exact Hrun|done].
Qed.

(** C1: soundness of AUTHORIZE.  A fresh ALLOWED authorization (not a retry)
    means that at the time of the evaluation every requirement of the
    request was granted by a stored grant with exactly its key that was not
    revoked, not expired, not spent and covering the selected period; the
    receipt it mints is linked to exactly these grants, belongs to the
    calling enforcer and its operation step, and every ONCE grant among
    them has just lost its only use. *)
Theorem authorize_sound peer request w w' result :
  wf (w_db w) →
  Evaluate peer request false w = (w', Ret result) →
  GetOr request "mode" "QUERY" = "AUTHORIZE" →
  Get result "decision" = "ALLOWED" → has result "retry" = false →
  ∃ request' count gs receipt,
    (request' = request ∨ ∃ t, request' = <["_approval_deadline" := t]> request) ∧
    Number request' "count" 0 1 16 = Ret count ∧ 1 ≤ count ∧
    all_granted (w_db w) request' (w_tick w) (w_tick w') (seqZ 0 count) gs ∧
    Get result "receipt" = receipt ∧
    (w_db w').(db_authorization_grants) =
      (w_db w).(db_authorization_grants) ++ ((receipt,.) <$> (g_id <$> gs)) ∧
    (∃ a, (w_db w').(db_authorizations) = (w_db w).(db_authorizations) ++ [a] ∧
      a.(a_id) = receipt ∧ a.(a_enforcer) = peer.(p_identity) ∧
      a.(a_operation) = Get request "operation_id" ∧ a.(a_step) = Get request "step_id" ∧
      a.(a_valid) = 1) ∧
    (∀ g, g ∈ gs → g.(g_mode) = "ONCE" →
      g.(g_remaining) = 1 ∧ set_g_remaining 0 g ∈ (w_db w').(db_grants)).
Proof.
  intros Hw Hrun Hmode Hdec Hretry.
  apply Evaluate_check_run in Hrun as (w0 & w1 & payload & Hd0 & Ht0 & _ & Hrun & Hend).
  rewrite Hmode in Hrun. unfold decide_check in Hrun. simpl in Hrun.
  run Hrun as Hprior gives prior w4.
  apply authorize_retry_run in Hprior as (Hd3 & Ht3 & Hprior). destruct prior as [old|].
  { destruct Hprior as (_ & a' & _ & _ & ->). run_steps Hrun. simplify_eq. }
  apply evaluate_fresh_run in Hrun as (Hs & Ht & request' & payload' & count & gs & Hreq & Hc &
    Hge & Hgs & w5 & w6 & result1 & Hd5 & Hd6 & Hauth); [|done].
  rewrite (Hend Hs) in *. clear Hend.
  apply authorize_commit_run in Hauth as (receipt & now & -> & _ & _ & Ha & He & Hg & _).
  assert (Hdb : w_db w5 = w_db w) by congruence.
  rewrite Hdb in Ha, He, Hg.
  assert (Hgs' : all_granted (w_db w) request' (w_tick w) (w_tick w1) (seqZ 0 count) gs).
  { rewrite <- Hdb, Hd5. destruct Hgs as [Hgs Hnd]. split; [|done].
    eapply Forall2_impl; [exact Hgs|]. intros i g. apply granted_weaken; simpl in *; lia. }
  exists request', count, gs, receipt. rewrite Hd6, He, Ha, Hg.
  split_and!; try done.
  - by rewrite Get_insert.
  - eexists. split; [done|]. simpl. by rewrite !(Get_deadline _ _ _ Hreq) by done.
  - intros g Hgin Hm'. by eapply granted_once_spent.
Qed.

(** An evaluation that neither authorizes nor creates writes nothing. *)
Lemma evaluate_query_run peer request payload fingerprint w w' result :
  evaluate_fresh peer request payload fingerprint false false w = (w', Ret result) →
  w_db w' = w_db w ∧ w_saved w' = None.
Proof.
  unfold evaluate_fresh. intros Hrun. run Hrun as Hadm. destruct a as [request' payload'].
  apply reads_run in Hadm as [Hd1 _]; [|apply reads_admission_deadline].
  run Hrun as Hchk. destruct a as [result0 ids].
  apply reads_run in Hchk as [Hd2 _]; [|apply reads_CheckConditions].
  simpl in Hrun. run Hrun as H1. run Hrun as H2. run Hrun as H3. run Hrun as Hc.
  apply ProfileCommit_run in Hc as [Hd3 Hs]. run_steps Hrun. run_steps H1. split; congruence.
Qed.

(** A QUERY check that returns has not changed the database: no grant
    is consumed, no receipt is minted, no row of any table differs. *)
Theorem query_pure peer request w w' result :
  Evaluate peer request false w = (w', Ret result) →
  GetOr request "mode" "QUERY" = "QUERY" →
  w_db w' = w_db w.
Proof.
  intros Hrun Hmode.
  apply Evaluate_check_run in Hrun as (w0 & w1 & payload & Hd0 & _ & _ & Hrun & Hend).
  rewrite Hmode in Hrun. unfold decide_check in Hrun. simpl in Hrun. run Hrun as Hr.
  apply evaluate_query_run in Hrun as [Hd Hs]. rewrite (Hend Hs). congruence.
Qed.

(** AUTHORIZE is idempotent per operation step.  When the calling
    enforcer already holds an authorization for this operation and step, an
    AUTHORIZE that returns gives back that very receipt marked as a retry,
    was asked with the same bound payload, and leaves the database
    unchanged, so a repeated request never consumes a second grant and never
    mints a second receipt. *)
Theorem authorize_idempotent peer request a w w' result :
  find_row (prior_authorization peer request) (w_db w).(db_authorizations) = Some a →
  Evaluate peer request false w = (w', Ret result) →
  GetOr request "mode" "QUERY" = "AUTHORIZE" →
  w_db w' = w_db w ∧ Get result "receipt" = a.(a_id) ∧ Get result "retry" = "1" ∧
  ∃ payload, evaluate_payload request true = Ret payload ∧
    a.(a_fingerprint) = Hash (Pack payload).
Proof.
  intros Hprior Hrun Hmode.
  apply Evaluate_check_run in Hrun as (w0 & w1 & payload & Hd0 & _ & Hpay & Hrun & Hend).
  rewrite Hmode in Hrun, Hpay. unfold decide_check in Hrun. simpl in Hrun, Hpay.
  run Hrun as Hr gives prior w4. rewrite <- Hd0 in Hprior.
  apply authorize_retry_run in Hr as (Hd3 & _ & Hr). destruct prior as [m|].
  - destruct Hr as (Hs & a' & Ha & Hfp & ->). run_steps Hrun. simplify_eq.
    rewrite (Hend Hs). split_and!; [congruence|done|done|by eexists].
  - destruct Hr as [_ Hr]. congruence.
Qed.
End authorize.
