(* ===== verification/Prompts.v ===== *)
(** * Approval prompts (src/consentd/repository.cc: Prompt)

    [get_prompt] renders a pending request for the approval UI and binds a
    fresh token to the UI instance; [respond] accepts the decision of that
    instance, inserts the grants of the displayed rows and decides the
    request after evaluating every condition again. *)
From S2P Require Import Prelude Strings Platform Message Packing Approval Localization ProfileState.
From S2P Require Import Store Exec Logic Lifecycle Sessions Grants Requests.
From Stdlib Require Import Ascii.

Section prompts.
Context `{Platform} `{Env}.

(** The local variables of [Prompt] that both branches use. *)
Record prompt := mk_prompt {
  p_pending : Message;
  p_count : Z;
  p_selected : bool;
  p_choices : bool;
  p_displayed : list Z;
  p_current : Message;
  p_definitions : list Message;
  p_typed : bool;
  p_persistent : bool;
  p_effective : string;
}.

(** ["_prompt_row." + std::to_string(i)]. *)
Definition prompt_row (i : Z) : string := "_prompt_row." +:+ to_string i.

(** The rows of a selected request that the UI displays. *)
Definition displayed_row (respond : bool) (pending current : Message) (i : Z) : bool :=
  if respond then eqs (Get pending (prompt_row i)) "1"
  else negb (eqs (row_get pending i "decision") "ALLOWED") &&
       negb (eqs (row_get current i "decision") "ALLOWED").

(** [if (selected) { ... } else { ... }]: the displayed rows and [current]. *)
Definition prompt_rows (peer : Peer) (request pending : Message) (respond : bool) (count : Z)
  : M (list Z * Message) :=
  let choices := eqs (Get pending "approval_version") "2" in
  if approval.Versioned pending then
    verify (approval.Validate pending) (- EINVAL);;
    let capable :=
      if choices && negb respond
      then eqs (Get request "approval_supported_versions") "1,2" &&
           eqs (Get request "approval_period_choice") "1"
      else eqs (Get request "approval_version") (Get pending "approval_version") in
    require capable (if respond then - EACCES else - EINVAL)
      "selected approval requires matching UI capability";;
    '(current, _) ← CheckConditions peer pending false;
    mret (filter (λ i, displayed_row respond pending current i = true) (seqZ 0 count), current)
  else mret (seqZ 0 count, ∅).

(** One requirement of the pending request with its current definition. *)
Definition prompt_definition (pending : Message) (s : list Message * bool) (i : Z)
  : M (list Message * bool) :=
  let (definitions, typed) := s in
  definition ← Definition_ (row_get pending i "definition");
  ok ← installed definition;
  require ok (- ESTALE) "installation changed";;
  require (eqs (Get definition "policy_version") (row_get pending i "policy_version") &&
           eqs (Get definition "text_revision") (row_get pending i "text_revision"))
    (- ESTALE) "displayed policy or text changed";;
  ValidateBoundArguments definition pending i;;
  mret (definitions ++ [definition], typed || eqs (Get definition "template_version") "1").

(** Every definition permits the PERSISTENT choice. *)
Definition all_persistent (definitions : list Message) : bool :=
  forallb (λ definition, negb (eqs (Get definition "level") "3") &&
    contains ",PERSISTENT," ("," +:+ Get definition "modes" +:+ ",")) definitions.

(** [Prompt] up to the branch on [respond]. *)
Definition prompt_open (peer : Peer) (request : Message) (respond : bool) : M prompt :=
  pending ← RequestRow peer request true;
  ActiveContext pending;;
  (if respond then modify (set_new_profile_request_ (Get pending "request_id")) else mret ());;
  require (eqs (Get pending "decision") "PENDING") (- ESTALE) "request is already final";;
  deadline ← lift (Integer (Get pending "deadline") 0 int64_max);
  live ← after_now deadline;
  require live (- ETIMEDOUT) "request deadline expired";;
  SessionState peer pending true false;;
  count ← lift (Number pending "count" 0 1 16);
  let selected := approval.Versioned pending in
  let choices := eqs (Get pending "approval_version") "2" in
  require (negb (has request "approval_version") || eqs (Get request "approval_version") "1" ||
           eqs (Get request "approval_version") "2")
    (if selected && respond then - EACCES else - EINVAL) "unsupported approval UI version";;
  '(displayed, current) ← prompt_rows peer request pending respond count;
  '(definitions, typed) ← fold_m (seqZ 0 count) (prompt_definition pending) ([], false);
  let persistent := choices && all_persistent definitions in
  let effective := Get pending "grant_mode" +:+ (if persistent then ",PERSISTENT" else "") in
  let displayed := if persistent && negb respond then seqZ 0 count else displayed in
  mret (mk_prompt pending count selected choices displayed current definitions typed persistent
          effective).

Definition erase_fields (fields : list string) (m : Message) : Message :=
  foldl (λ m field, delete field m) m fields.

Definition row_columns : list string :=
  ["request_id"; "decision"; "deadline"; "prompt_token"; "ui_owner"; "ui_instance"].

(** ** get_prompt *)

(** No row is left to display: the request becomes final. *)
Definition prompt_finish (p : prompt) : M Message :=
  let pending := p.(p_pending) in
  let decision := if eqs (Get p.(p_current) "decision") "ALLOWED"
                  then "ALLOWED" else "INVALIDATED" in
  let terminal := if p.(p_choices)
                  then <["chosen_grant_mode" := Get pending "grant_mode"]> pending else pending in
  let terminal := foldl (λ m i, delete (prompt_row i)
                    (<[row_key i "decision" := row_get p.(p_current) i "decision"]> m))
                    (erase_fields row_columns terminal) (seqZ 0 p.(p_count)) in
  statement (upd_requests (λ r, eqs r.(r_id) (Get pending "request_id"))
    (λ r, set_r_payload (Pack terminal) (set_r_token "" (set_r_state decision r))));;
  Bump;;
  ProfileCommit;;
  let completed := list_to_map [("decision", decision);
                                ("request_id", Get pending "request_id"); ("cacheable", "0")] in
  mret (if p.(p_choices)
        then <["effective_period_choices" := p.(p_effective)]>
               (<["chosen_grant_mode" := Get pending "grant_mode"]>
                  (approval.CopyContext pending completed))
        else completed).

(** One displayed row: [displayed_index] in the reply, [i] in the request. *)
Definition prompt_display_row (p : prompt) (locale : string) (result : Message)
  (rows : Z * Z) : M Message :=
  let (index, i) := rows in
  let pending := p.(p_pending) in
  let definition := default ∅ (p.(p_definitions) !! Z.to_nat i) in
  let result := foldl (λ m key, <[row_key index key := row_get pending i key]> m) result
    ["definition"; "scope"; "operation"; "purpose"; "recipient"; "holder"; "policy_version";
     "text_revision"] in
  let result := if p.(p_selected) then
      <[row_key index "provider_app" := Get definition "app"]>
        (<[row_key index "provider_package" := Get definition "package"]>
           (foldl (λ m key, <[row_key index key := row_get pending i key]> m)
              (<[row_key index "original_index" := to_string i]> result)
              ["feature_id"; "feature_revision"]))
    else result in
  selected ← verify (localization.SelectLocale definition locale) (- EINVAL);
  let result := foldl (λ m field, <[row_key index field.1 := field.2]> m) result
    [("locale", selected); ("title", Get definition ("message." +:+ selected +:+ ".title"));
     ("body", Get definition ("message." +:+ selected +:+ ".body"));
     ("modes", Get definition "modes"); ("level", Get definition "level");
     ("retention_ms", GetOr definition "retention_ms" "0")] in
  arguments ← verify (localization.AppendArguments definition pending i ∅) (- EINVAL);
  mret (foldl (λ m argument,
    <["r" +:+ to_string index +:+ "." +:+
      drop_str (String.length (row_key i "")) argument.1 := argument.2]> m)
    result (items arguments)).

(** Conservative size of the reply. *)
Definition response_bytes (result : Message) : Z :=
  foldl (λ n field, n + (10 + size field.1 + size field.2)) 1024 (items result).

(** The request as stored while the prompt is displayed. *)
Definition displayed_payload (p : prompt) (locale : string) : Message :=
  let displayed := erase_fields row_columns p.(p_pending) in
  let displayed := if p.(p_typed) || p.(p_selected)
                   then <["_prompt_locale" := locale]> displayed else displayed in
  let displayed := if p.(p_choices)
                   then <["_prompt_period_choices" := p.(p_effective)]> displayed
                   else displayed in
  if p.(p_selected) then
    foldl (λ m i, <[prompt_row i := "1"]> m)
      (erase_fields (prompt_row <$> seqZ 0 p.(p_count)) displayed) p.(p_displayed)
  else displayed.

(** The header fields of the reply. *)
Definition prompt_header (p : prompt) (locale : string) : Message :=
  let result := if p.(p_typed) then {["template_version" := "1"]} else ∅ in
  let result := if p.(p_typed) || p.(p_selected) then <["locale" := locale]> result else result in
  if p.(p_selected) then
    let result := <["total_count" := to_string p.(p_count)]>
                    (approval.CopyContext p.(p_pending) result) in
    if p.(p_choices) then <["effective_period_choices" := p.(p_effective)]> result else result
  else result.

(** The localized reply, checked against the frame and template budgets. *)
Definition prompt_render (p : prompt) (locale : string) : M Message :=
  let rows := Z.of_nat (length p.(p_displayed)) in
  let result := foldl (λ m key, <[key := Get p.(p_pending) key]> m) (prompt_header p locale)
    ["request_id"; "subject"; "profile"; "session"; "generation"; "count"] in
  let result := <["count" := to_string rows]> result in
  result ← fold_m (zip (seqZ 0 rows) p.(p_displayed)) (prompt_display_row p locale) result;
  require ((msize result <=? 240) && (response_bytes result <=? kMaxFrameSize))
    (- E2BIG) "combined localized prompt exceeds frame budget";;
  for_each (seqZ 0 rows) (λ i, for_each ["title"; "body"] (λ field,
    verify (localization.FormatPrompt result i field) (- E2BIG);; mret ()));;
  mret result.

Definition prompt_display (peer : Peer) (p : prompt) (locale : string) : M Message :=
  result ← prompt_render p locale;
  token ← Id;
  statement (upd_requests (λ r, eqs r.(r_id) (Get p.(p_pending) "request_id"))
    (λ r, set_r_payload (Pack (displayed_payload p locale))
            (set_r_ui_instance peer.(p_instance) (set_r_ui_owner peer.(p_identity)
               (set_r_token (Hash token) r)))));;
  Bump;;
  ProfileCommit;;
  mret (delete "ui_instance" (delete "ui_owner" (<["prompt_token" := token]> result))).

Definition prompt_get (peer : Peer) (request : Message) (p : prompt) : M Message :=
  let locale := Get request "locale" in
  require (Identifier locale) (- EINVAL) "locale required";;
  require (negb p.(p_typed) || eqs (Get request "template_version") "1") (- EINVAL)
    "typed prompt requires template version 1 capability";;
  if p.(p_selected) && bool_decide (p.(p_displayed) = [])
  then prompt_finish p
  else prompt_display peer p locale.

(** ** respond *)

(** The proof that the responder displayed this prompt. *)
Definition prompt_proof (peer : Peer) (request : Message) (p : prompt) : M () :=
  let pending := p.(p_pending) in
  require (negb (empty (Get request "prompt_token")) &&
           eqs (Hash (Get request "prompt_token")) (Get pending "prompt_token") &&
           eqs (Get pending "ui_owner") peer.(p_identity) &&
           eqs (Get pending "ui_instance") peer.(p_instance))
    (- EACCES) "prompt token or UI instance mismatch";;
  require (negb (p.(p_typed) || p.(p_selected)) ||
           (negb (empty (Get pending "_prompt_locale")) &&
            eqs (Get request "locale") (Get pending "_prompt_locale")))
    (- EACCES) "prompt response locale mismatch";;
  require (negb p.(p_selected) || approval.SameContext pending request)
    (- EACCES) "displayed selection or approval period mismatch".

(** The chosen period and the message the conditions are evaluated on. *)
Definition prompt_mode (request : Message) (p : prompt) : M (string * Message) :=
  let pending := p.(p_pending) in
  if p.(p_choices) then
    require (eqs (Get request "effective_period_choices") p.(p_effective) &&
             eqs p.(p_effective) (Get pending "_prompt_period_choices"))
      (- EACCES) "displayed period choices changed";;
    let mode := Get request "chosen_grant_mode" in
    require (eqs mode (Get pending "grant_mode") || (p.(p_persistent) && eqs mode "PERSISTENT"))
      (- EACCES) "chosen period is not permitted";;
    mret (mode, <["_approval_mode" := mode]> pending)
  else
    require (negb (has request "chosen_grant_mode") && negb (has request "effective_period_choices"))
      (- EINVAL) "period choice requires version 2";;
    mret (GetOr request "grant_mode" "ONCE", pending).

(** A displayed row that already holds is not granted again. *)
Definition row_satisfied (p : prompt) (current : Message) (i : Z) : bool :=
  if p.(p_choices) then eqs (row_get current i "decision") "ALLOWED"
  else eqs (row_get p.(p_pending) i "decision") "ALLOWED" ||
       (p.(p_selected) && eqs (row_get current i "decision") "ALLOWED").

Definition prompt_grant (request : Message) (p : prompt) (current : Message) (mode : string)
  (approval_time : Z) (i : Z) : M () :=
  if row_satisfied p current i then mret ()
  else
    let pending := p.(p_pending) in
    let definition := default ∅ (p.(p_definitions) !! Z.to_nat i) in
    require (contains ("," +:+ mode +:+ ",") ("," +:+ Get definition "modes" +:+ ","))
      (- EACCES) "grant mode is not permitted by policy";;
    expires ← (if eqs mode "TIMED" then
                 duration ← lift (Number request "duration_ms" 300000 100 3600000);
                 mret (approval_time + duration)
               else mret 0);
    grant_id ← Id;
    modify (λ w, set_new_profile_grants_ (w.(new_profile_grants_) ++ [grant_id]) w);;
    insert_stmt (ins_grant (mk_grant_row grant_id (GrantKey pending i definition)
      (Get definition "definition") (Get definition "policy_version") (Get pending "subject")
      (Get pending "profile") (if eqs mode "SESSION" then Get pending "session" else "") mode
      expires (if eqs mode "ONCE" then 1 else -1) 0)).

Definition prompt_grants (request : Message) (p : prompt) (current : Message) (mode : string)
  : M () :=
  require (eqs mode "ONCE" || eqs mode "SESSION" || eqs mode "TIMED" || eqs mode "PERSISTENT")
    (- EINVAL) "invalid grant mode";;
  require (negb (eqs mode "SESSION") || negb (empty (Get p.(p_pending) "session")))
    (- EINVAL) "SESSION grant requires active session";;
  approval_time ← Now;
  for_each p.(p_displayed) (prompt_grant request p current mode approval_time).

Definition invalidated_reason : string :=
  "authorization conditions changed while awaiting approval".

(** The payload of the decided request. *)
Definition final_payload (p : prompt) (mode decision : string) (reevaluated : Message) : Message :=
  let final := if p.(p_choices)
               then <["chosen_grant_mode" := mode]> p.(p_pending) else p.(p_pending) in
  let final := erase_fields (row_columns ++ ["_prompt_locale"]) final in
  let final := foldl (λ m i, delete (prompt_row i)
                 (<[row_key i "decision" := row_get reevaluated i "decision"]> m))
                 final (seqZ 0 p.(p_count)) in
  if eqs decision "INVALIDATED" then <["reason" := invalidated_reason]> final else final.

(** The reply before the decision fields are added. *)
Definition respond_result (p : prompt) (mode decision : string) (reevaluated : Message)
  : Message :=
  let reevaluated :=
    if eqs decision "DENIED" then
      foldl (λ m i, if negb (eqs (row_get p.(p_pending) i "decision") "ALLOWED")
                    then <[row_key i "decision" := "DENIED"]> m else m)
        reevaluated p.(p_displayed)
    else reevaluated in
  if p.(p_choices)
  then <["effective_period_choices" := p.(p_effective)]>
         (approval.CopyContext p.(p_pending) (<["chosen_grant_mode" := mode]> reevaluated))
  else reevaluated.

Definition prompt_respond (peer : Peer) (request : Message) (p : prompt) : M Message :=
  prompt_proof peer request p;;
  let decision := Get request "decision" in
  require (eqs decision "ALLOWED" || eqs decision "DENIED") (- EINVAL) "invalid UI decision";;
  '(mode, evaluation) ← prompt_mode request p;
  current ← (if p.(p_choices)
             then r ← CheckConditions peer evaluation false; mret r.1
             else mret p.(p_current));
  (if eqs decision "ALLOWED" then prompt_grants request p current mode else mret ());;
  '(reevaluated, _) ← CheckConditions peer evaluation false;
  let decision := if eqs decision "ALLOWED" && negb (eqs (Get reevaluated "decision") "ALLOWED")
                  then "INVALIDATED" else decision in
  let result := respond_result p mode decision reevaluated in
  let id := Get p.(p_pending) "request_id" in
  statement (upd_requests (λ r, eqs r.(r_id) id && eqs r.(r_state) "PENDING")
    (λ r, set_r_payload (Pack (final_payload p mode decision result))
            (set_r_token "" (set_r_state decision r))));;
  let result := if eqs decision "INVALIDATED"
                then <["reason" := invalidated_reason]> result else result in
  Bump;;
  ProfileCommit;;
  mret (<["cacheable" := "0"]> (<["decision" := decision]> (<["request_id" := id]> result))).

Definition Prompt (peer : Peer) (request : Message) (respond : bool) : M Message :=
  require (Role peer "ui") (- EACCES) "approval UI role required";;
  transaction (
    p ← prompt_open peer request respond;
    if respond then prompt_respond peer request p else prompt_get peer request p).
End prompts.

(** ** Prompts are runs of the life cycle *)

Section prompt_runs.
Context `{Platform} `{Env}.

Lemma reads_prompt_rows peer request pending respond count :
  reads (prompt_rows peer request pending respond count).
Proof. unfold reads, prompt_rows. solve_evolves. Qed.

Lemma reads_prompt_definition pending s i : reads (prompt_definition pending s i).
Proof. unfold reads, prompt_definition. solve_evolves. Qed.

Hint Resolve reads_prompt_rows reads_prompt_definition : consent.

Lemma reads_prompt_open peer request respond : reads (prompt_open peer request respond).
Proof. unfold reads, prompt_open. solve_evolves. Qed.

Lemma reads_prompt_display_row p locale result rows :
  reads (prompt_display_row p locale result rows).
Proof. unfold reads, prompt_display_row. solve_evolves. Qed.

Hint Resolve reads_prompt_open reads_prompt_display_row : consent.

Lemma reads_prompt_render p locale : reads (prompt_render p locale).
Proof. unfold reads, prompt_render. solve_evolves. Qed.

Lemma reads_prompt_proof peer request p : reads (prompt_proof peer request p).
Proof. unfold reads, prompt_proof. solve_evolves. Qed.

Lemma reads_prompt_mode request p : reads (prompt_mode request p).
Proof. unfold reads, prompt_mode. solve_evolves. Qed.

Hint Resolve reads_prompt_render reads_prompt_proof reads_prompt_mode : consent.

Lemma RequestRow_run peer request ui w w' m :
  RequestRow peer request ui w = (w', Ret m) →
  ∃ r payload, find_row (request_selected peer request) (w_db w).(db_requests) = Some r ∧
    Unpack r.(r_payload) = Ret payload ∧ m = request_message r payload.
Proof.
  unfold RequestRow. intros Hrun. run Hrun as H1. apply reads_run in H1 as [Hd _];
    [|unfold reads; solve_evolves]. run Hrun as H2. rewrite Hd in Hrun.
  destruct (find_row _ _) as [r|]; [|by apply run_throw in Hrun].
  run Hrun as H3. run Hrun as H4. run Hrun as H5. run_steps Hrun. eauto.
Qed.

Lemma request_message_id r payload : Get (request_message r payload) "request_id" = r.(r_id).
Proof. unfold request_message. by rewrite !Get_insert_ne, Get_insert by done. Qed.
Lemma request_message_decision r payload : Get (request_message r payload) "decision" = r.(r_state).
Proof. unfold request_message. by rewrite !Get_insert_ne, Get_insert by done. Qed.
Lemma request_message_token r payload : Get (request_message r payload) "prompt_token" = r.(r_token).
Proof. unfold request_message. by rewrite !Get_insert_ne, Get_insert by done. Qed.
Lemma request_message_owner r payload : Get (request_message r payload) "ui_owner" = r.(r_ui_owner).
Proof. unfold request_message. by rewrite !Get_insert_ne, Get_insert by done. Qed.
Lemma request_message_instance r payload :
  Get (request_message r payload) "ui_instance" = r.(r_ui_instance).
Proof. unfold request_message. by rewrite Get_insert. Qed.

(** What [prompt_open] has checked: the pending row and its session. *)
Lemma prompt_open_run peer request respond w w' p :
  prompt_open peer request respond w = (w', Ret p) →
  ∃ r payload, find_row (request_selected peer request) (w_db w).(db_requests) = Some r ∧
    Unpack r.(r_payload) = Ret payload ∧ p.(p_pending) = request_message r payload ∧
    r.(r_state) = "PENDING" ∧
    (Get p.(p_pending) "session" ≠ "" → active_session (w_db w) (Get p.(p_pending) "session")).
Proof.
  unfold prompt_open. intros Hrun. run Hrun as Hrow gives pending w1.
  destruct (reads_run _ _ _ _ (reads_RequestRow _ _ _) Hrow) as [Hd1 _].
  apply RequestRow_run in Hrow as (r & payload & Hf & Hu & ->).
  run_read Hrun as H1 Hd2. run_read Hrun as H2 Hd3. run Hrun as Hdec. run Hrun as H3.
  run_read Hrun as H4 Hd4. run Hrun as H5. run Hrun as Hst gives st w5.
  apply SessionState_run in Hst. run Hrun as H6. run Hrun as H7.
  run Hrun as H8 gives rows w6. destruct rows as [displayed current].
  run Hrun as H9 gives defs w7. destruct defs as [definitions typed]. run_steps Hrun. exists r, payload. simpl. rewrite request_message_decision in Hdec.
  split_and!; try done; [by str_hyps|].
  intros Hne. destruct Hst as [(? & _)|(s & Hs & Hid & _ & _ & _ & _ & _ & Hact)]; [done|].
  exists s. destruct (Hact eq_refl) as [Ha _]. split_and!; [|done..]. congruence.
Qed.

(** The row found by [request_selected] is the only one with its id. *)
Lemma runs_upd_request r f d :
  r ∈ d.(db_requests) → request_next r (f r) →
  runs d (upd_requests (λ x, eqs x.(r_id) r.(r_id)) f d).
Proof.
  intros Hr Hn. apply runs_guarded. intros Hw. apply runs_upd_requests. intros x Hx Hid.
  apply eqs_true in Hid.
  assert (x = r) as -> by (eapply (key_inj r_id); [apply (key_requests _ Hw)|done..]). done.
Qed.

(** The context in which both branches of [Prompt] run. *)
Definition prompt_for (d : DB) (p : prompt) (r : request_row) : Prop :=
  r ∈ d.(db_requests) ∧ r.(r_state) = "PENDING" ∧
  Get p.(p_pending) "request_id" = r.(r_id) ∧
  (Get p.(p_pending) "session" ≠ "" → active_session d (Get p.(p_pending) "session")).

Lemma evolves_prompt_finish p r w :
  prompt_for (w_db w) p r → evolves_at runs (prompt_finish p) w.
Proof.
  intros (Hr & Hp & Hid & _). unfold prompt_finish. rewrite Hid.
  apply evolves_then; [apply _| |intros ?; solve_evolves].
  apply evolves_statement_at; [apply _|]; apply runs_upd_request; [done|]. apply rn_decide; [done|].
  unfold decided. destruct (eqs _ _); set_solver.
Qed.

Lemma evolves_prompt_display peer p r locale w :
  prompt_for (w_db w) p r → evolves_at runs (prompt_display peer p locale) w.
Proof.
  intros (Hr & Hp & Hid & _). unfold prompt_display. rewrite Hid. at_reads.
  apply evolves_then; [apply _| |intros ?; solve_evolves].
  apply evolves_statement_at; [apply _|]; apply runs_upd_request; [done|]. by apply rn_present.
Qed.

Lemma evolves_prompt_get peer request p r w :
  prompt_for (w_db w) p r → evolves_at runs (prompt_get peer request p) w.
Proof.
  intros Hp. unfold prompt_get. at_reads. case_match.
  - by eapply evolves_prompt_finish.
  - by eapply evolves_prompt_display.
Qed.

(** A grant for a SESSION period needs the active session of the request. *)
Lemma evolves_prompt_grant request p current mode approval_time i w :
  (mode = "SESSION" → active_session (w_db w) (Get p.(p_pending) "session")) →
  evolves_at runs (prompt_grant request p current mode approval_time i) w.
Proof.
  intros Hses. unfold prompt_grant. case_match; [apply evolves_here; solve_evolves|].
  at_reads. apply evolves_insert_at; [apply _|]. intros d' Hi. apply runs_step.
  eapply step_grant; [exact Hi|]. split; simpl; [done|done|]. intros ->. simpl. by apply Hses.
Qed.

Lemma prompt_grant_sessions request p current mode approval_time i w w' u :
  prompt_grant request p current mode approval_time i w = (w', Ret u) →
  (w_db w').(db_sessions) = (w_db w).(db_sessions).
Proof.
  unfold prompt_grant. intros Hrun. destruct (row_satisfied p current i); [by run_steps Hrun|].
  run Hrun as H1. run_read Hrun as H2 Hd1. run_read Hrun as H3 Hd2. run Hrun as H4.
  apply run_insert in Hrun as (d & Hi & ->). unfold ins_grant in Hi. insert_inv Hi.
  simpl in *. congruence.
Qed.

Lemma evolves_prompt_grants request p current mode r w :
  prompt_for (w_db w) p r → evolves_at runs (prompt_grants request p current mode) w.
Proof.
  intros (_ & _ & _ & Hses). unfold prompt_grants.
  at_read as Hmode Hdb1. rewrite <- Hdb1 in Hses. clear Hdb1.
  at_read as Hreq Hdb2. run_steps Hreq. at_reads.
  apply (evolves_for_each_at _ (λ w, mode = "SESSION" →
    active_session (w_db w) (Get p.(p_pending) "session"))).
  - intros ->. rewrite eqs_refl in Hreq. simpl in Hreq. str_hyps. by apply Hses.
  - intros i w1 _ Hact. split; [by apply evolves_prompt_grant|].
    intros w2 u Hrun Hm. destruct (Hact Hm) as (s & Hs & ?). exists s.
    by rewrite (prompt_grant_sessions _ _ _ _ _ _ _ _ _ Hrun).
Qed.

Lemma evolves_prompt_respond peer request p r w :
  prompt_for (w_db w) p r → evolves_at runs (prompt_respond peer request p) w.
Proof.
  intros Hp. unfold prompt_respond. at_read as Hproof Hdb1. rewrite <- Hdb1 in Hp. clear Hdb1.
  at_read as Hdec Hdb2. run_steps Hdec.
  at_read as Hmode Hdb3. rewrite <- Hdb3 in Hp. clear Hdb3.
  match goal with x : (string * Message)%type |- _ => destruct x as [mode evaluation] end. at_reads.
  apply evolves_bind_at; [apply _| |].
  - case_match; [by eapply evolves_prompt_grants|apply evolves_here; solve_evolves].
  - intros u w1 _. apply evolves_here. solve_evolves; apply runs_upd_requests; intros x _ Hx;
      str_hyps; (apply rn_decide; [done|]); unfold decided;
      repeat case_match; try set_solver.
    all: apply orb_true_iff in Hdec as [Hdec|Hdec]; str_hyps; rewrite Hdec; set_solver.
Qed.

Lemma evolves_Prompt peer request respond : evolves runs (Prompt peer request respond).
Proof.
  unfold Prompt. apply evolves_bind; [apply _|solve_evolves|intros _].
  apply evolves_transaction; [apply _|]. intros w.
  apply evolves_bind_reads; [apply _|auto with consent|]. intros p w' Hopen Hdb.
  apply prompt_open_run in Hopen as (r & payload & Hf & _ & Hpend & Hst & Hses).
  assert (Hp : prompt_for (w_db w') p r).
  { rewrite Hdb. split_and!; [|done| |done].
    - by apply find_row_Some in Hf as [Hr _].
    - rewrite Hpend. apply request_message_id. }
  destruct respond; [by eapply evolves_prompt_respond|by eapply evolves_prompt_get].
Qed.
End prompt_runs.

#[export] Hint Resolve evolves_Prompt : consent.
