(* ===== verification/Consent.v ===== *)
(** * What an approval means (src/consentd/repository.cc: Prompt)

    A response is accepted only from the UI instance that displayed the
    prompt, with the token of that prompt; it grants the displayed
    requirements and nothing else, under the policy and the text that were
    displayed, and it ends the request. *)
From S2P Require Import Prelude Strings Platform Message Packing Approval Localization ProfileState.
From S2P Require Import Store Exec Logic Lifecycle Sessions Grants Requests Prompts.

Section consent.
Context `{Platform} `{Env}.

(** Row [i] of the pending request, with the definition that is displayed. *)
Definition displayed_definition (d : DB) (pending : Message) (i : Z) (definition : Message) : Prop :=
  registered_definition d (row_get pending i "definition") definition ∧
  Get definition "policy_version" = row_get pending i "policy_version" ∧
  Get definition "text_revision" = row_get pending i "text_revision".

Lemma prompt_definition_run pending defs typed i w w' defs' typed' :
  prompt_definition pending (defs, typed) i w = (w', Ret (defs', typed')) →
  ∃ definition, defs' = defs ++ [definition] ∧ displayed_definition (w_db w) pending i definition.
Proof.
  unfold prompt_definition. intros Hrun. run Hrun as Hdef gives definition w1.
  pose proof (Definition_run _ _ _ _ Hdef) as Hreg. run Hrun as H1. run Hrun as H2. run Hrun as H3.
  run Hrun as H4. run_steps Hrun. simplify_eq. str_hyps. exists definition. by split_and!.
Qed.

Lemma prompt_definitions_run pending count w w' defs typed :
  fold_m (seqZ 0 count) (prompt_definition pending) ([], false) w = (w', Ret (defs, typed)) →
  w_db w' = w_db w ∧
  ∀ i, 0 ≤ i < count → ∃ definition, defs !! Z.to_nat i = Some definition ∧
    displayed_definition (w_db w) pending i definition.
Proof.
  intros Hrun.
  apply (fold_m_run _ (λ pre s w', w_db w' = w_db w ∧
    Forall2 (displayed_definition (w_db w) pending) pre s.1)) in Hrun.
  - destruct Hrun as [Hd Hall]. split; [done|]. intros i Hi. simpl in Hall.
    eapply Forall2_lookup_l in Hall as (definition & Hl & Hdef); [by eauto|].
    rewrite (lookup_seqZ_lt 0 count (Z.to_nat i)) by lia. f_equal. lia.
  - split; [done|constructor].
  - intros pre i [ds ty] w1 w2 [ds' ty'] _ [Hd Hall] Hp.
    pose proof (prompt_definition_run _ _ _ _ _ _ _ _ Hp) as (definition & -> & Hdef).
    apply reads_run in Hp as [Hd2 _]; [|apply reads_prompt_definition]. simpl in *.
    split; [congruence|]. apply Forall2_app; [done|]. constructor; [by rewrite <- Hd|constructor].
Qed.

(** The rows that may be granted. *)
Lemma prompt_rows_run peer request pending respond count w w' displayed current :
  prompt_rows peer request pending respond count w = (w', Ret (displayed, current)) →
  NoDup displayed ∧ ∀ i, i ∈ displayed → 0 ≤ i < count ∧
    (approval.Versioned pending = true → displayed_row respond pending current i = true).
Proof.
  unfold prompt_rows. destruct (approval.Versioned pending).
  - intros Hrun. run Hrun as H1. run Hrun as H2. run Hrun as H3. destruct a1 as [current' ids].
    run_steps Hrun. simplify_eq. split; [apply NoDup_filter, NoDup_seqZ|].
    intros i [Hp Hi]%list_elem_of_filter. apply elem_of_seqZ in Hi. split; [lia|done].
  - intros Hrun. run_steps Hrun. simplify_eq. split; [apply NoDup_seqZ|].
    intros i Hi%elem_of_seqZ. split; [lia|done].
Qed.

(** A prompt that is open for a response, with the stored request it is for. *)
Record responding (d : DB) (p : prompt) (r : request_row) : Prop := mk_responding {
  rs_row : r ∈ d.(db_requests) ∧ r.(r_state) = "PENDING";
  rs_pending : ∃ payload, Unpack r.(r_payload) = Ret payload ∧ p.(p_pending) = request_message r payload;
  rs_choices : p.(p_choices) = eqs (Get p.(p_pending) "approval_version") "2";
  rs_once : NoDup p.(p_displayed);
  rs_displayed : ∀ i, i ∈ p.(p_displayed) →
    (∃ count, Number p.(p_pending) "count" 0 1 16 = Ret count ∧ 0 ≤ i < count) ∧
    (approval.Versioned p.(p_pending) = true → Get p.(p_pending) (prompt_row i) = "1") ∧
    ∃ definition, p.(p_definitions) !! Z.to_nat i = Some definition ∧
      displayed_definition d p.(p_pending) i definition;
}.

Lemma prompt_open_responding peer request w w' p :
  prompt_open peer request true w = (w', Ret p) →
  w_db w' = w_db w ∧ ∃ r, responding (w_db w) p r ∧
    find_row (request_selected peer request) (w_db w).(db_requests) = Some r.
Proof.
  intros Hrun. split; [by eapply reads_run in Hrun as [Hd _]; [|apply reads_prompt_open]|].
  pose proof (prompt_open_run _ _ _ _ _ _ Hrun) as (r & payload & Hf & Hu & Hpend & Hst & _).
  exists r. split; [|done]. apply find_row_Some in Hf as [Hr _].
  assert (Hgoal : p.(p_choices) = eqs (Get p.(p_pending) "approval_version") "2" ∧ NoDup p.(p_displayed) ∧
    ∀ i, i ∈ p.(p_displayed) →
    (∃ count, Number p.(p_pending) "count" 0 1 16 = Ret count ∧ 0 ≤ i < count) ∧
    (approval.Versioned p.(p_pending) = true → Get p.(p_pending) (prompt_row i) = "1") ∧
    ∃ definition, p.(p_definitions) !! Z.to_nat i = Some definition ∧
      displayed_definition (w_db w) p.(p_pending) i definition);
    [|destruct Hgoal as (? & ? & ?); split; [done|by exists payload|done..]].
  clear Hpend. unfold prompt_open in Hrun. run_read Hrun as Hrow Hd1. run_read Hrun as H1 Hd2.
  run_read Hrun as H2 Hd3. run Hrun as H3. run Hrun as H4. run_read Hrun as H5 Hd4. run Hrun as H6.
  run_read Hrun as H7 Hd5. run Hrun as Hcount gives count wc. run Hrun as H8.
  run Hrun as Hrows gives rows w9. destruct rows as [displayed current].
  pose proof (prompt_rows_run _ _ _ _ _ _ _ _ _ Hrows) as [Hnd Hin].
  apply reads_run in Hrows as [Hd6 _]; [|apply reads_prompt_rows].
  run Hrun as Hdefs gives defs w10. destruct defs as [definitions typed].
  apply prompt_definitions_run in Hdefs as [_ Hdef]. run_steps Hrun. simplify_eq.
  cbn [p_displayed p_selected p_choices p_pending p_definitions]. rewrite andb_false_r. split; [done|].
  split; [done|]. intros i Hi. destruct (Hin i Hi) as [Hb Hrow']. split_and!.
  - eauto.
  - intros Hv. apply eqs_true. by apply Hrow'.
  - destruct (Hdef i Hb) as (definition & Hl & Hd). exists definition. split; [done|].
    simpl in *. by rewrite Hd6, Hd5, Hd4, Hd3, Hd2, Hd1 in Hd.
Qed.

(** [g] is the approval of row [i] of the prompt for the period [mode]. *)
Record grant_for (p : prompt) (mode : string) (i : Z) (g : grant_row) : Prop := mk_grant_for {
  gf_displayed : i ∈ p.(p_displayed);
  gf_needed : p.(p_choices) = false → row_get p.(p_pending) i "decision" ≠ "ALLOWED";
  gf_definition : let definition := default ∅ (p.(p_definitions) !! Z.to_nat i) in
    g.(g_key) = GrantKey p.(p_pending) i definition ∧
    g.(g_definition) = Get definition "definition" ∧ g.(g_version) = Get definition "policy_version" ∧
    contains ("," +:+ mode +:+ ",") ("," +:+ Get definition "modes" +:+ ",") = true;
  gf_context : g.(g_subject) = Get p.(p_pending) "subject" ∧
               g.(g_profile) = Get p.(p_pending) "profile";
  gf_mode : g.(g_mode) = mode;
  gf_session : g.(g_session) = if eqs mode "SESSION" then Get p.(p_pending) "session" else "";
  gf_expires : mode ≠ "TIMED" → g.(g_expires) = 0;
  gf_uses : g.(g_remaining) = if eqs mode "ONCE" then 1 else -1;
  gf_revoked : g.(g_revoked) = 0;
}.

(** The database with grants added. *)
Definition with_grants (news : list grant_row) (d : DB) : DB :=
  set_db_grants (d.(db_grants) ++ news) d.

Lemma with_grants_nil d : with_grants [] d = d.
Proof. unfold with_grants. rewrite app_nil_r. by destruct d. Qed.

Lemma prompt_grant_run request p current mode t i w w' u :
  i ∈ p.(p_displayed) →
  prompt_grant request p current mode t i w = (w', Ret u) →
  w_db w' = w_db w ∨ ∃ g, w_db w' = with_grants [g] (w_db w) ∧ grant_for p mode i g.
Proof.
  intros Hi. unfold prompt_grant. destruct (row_satisfied p current i) eqn:Hsat; intros Hrun.
  { run_steps Hrun. by left. }
  right. run Hrun as Hmode. run Hrun as Hexp gives expires w1.
  assert (He : mode ≠ "TIMED" → expires = 0).
  { intros Hne%eqs_false. rewrite Hne in Hexp. by run_steps Hexp. }
  apply reads_run in Hexp as [Hd1 _]; [|unfold reads; solve_evolves].
  run_read Hrun as Hid Hd2. run Hrun as Hm.
  apply run_insert in Hrun as (d & Hi' & ->). unfold ins_grant in Hi'. insert_inv Hi'.
  eexists. split; [simpl in *; rewrite Hd2, Hd1; reflexivity|]. split; simpl; try done.
  intros Hc. unfold row_satisfied in Hsat. rewrite Hc in Hsat. apply orb_false_iff in Hsat as [Hsat _].
  by str_hyps.
Qed.

(** The grants of distinct rows, in their order. *)
Lemma prompt_grants_run request p current mode w w' u :
  NoDup p.(p_displayed) →
  prompt_grants request p current mode w = (w', Ret u) →
  ∃ rows news, NoDup rows ∧ w_db w' = with_grants news (w_db w) ∧ Forall2 (grant_for p mode) rows news.
Proof.
  intros Hnd. unfold prompt_grants. intros Hrun. run Hrun as H1. run Hrun as H2. run_read Hrun as H3 Hd1.
  apply (for_each_run _ (λ pre w', ∃ rows news, rows `sublist_of` pre ∧
    w_db w' = with_grants news (w_db w) ∧ Forall2 (grant_for p mode) rows news)) in Hrun.
  - destruct Hrun as (rows & news & Hsub & ? & ?). exists rows, news. split; [by eapply sublist_NoDup|done].
  - exists [], []. rewrite with_grants_nil. split_and!; [done|congruence|constructor].
  - intros pre i w1 w2 v Hi (rows & news & Hsub & Hdb & Hall) Hg.
    apply prompt_grant_run in Hg as [Hdb'|(g & Hdb' & Hgf)]; [| |done].
    + exists rows, news. split_and!; [by apply sublist_inserts_r|congruence|done].
    + exists (rows ++ [i]), (news ++ [g]). split_and!; [by apply sublist_app| |].
      * rewrite Hdb', Hdb. unfold with_grants. simpl. by rewrite app_assoc.
      * apply Forall2_app; [done|]. by constructor.
Qed.

Lemma prompt_proof_run peer request p w w' u :
  prompt_proof peer request p w = (w', Ret u) →
  Get request "prompt_token" ≠ "" ∧
  Get p.(p_pending) "prompt_token" = Hash (Get request "prompt_token") ∧
  Get p.(p_pending) "ui_owner" = peer.(p_identity) ∧
  Get p.(p_pending) "ui_instance" = peer.(p_instance).
Proof.
  unfold prompt_proof. intros Hrun. run Hrun as H1. str_hyps. done.
Qed.

(** The period a response asks for, among those the request offers. *)
Definition period_asked (request pending : Message) (mode : string) : Prop :=
  if eqs (Get pending "approval_version") "2"
  then mode = Get request "chosen_grant_mode" ∧ (mode = Get pending "grant_mode" ∨ mode = "PERSISTENT")
  else mode = GetOr request "grant_mode" "ONCE".

Lemma prompt_mode_run request p w w' mode evaluation :
  p.(p_choices) = eqs (Get p.(p_pending) "approval_version") "2" →
  prompt_mode request p w = (w', Ret (mode, evaluation)) → period_asked request p.(p_pending) mode.
Proof.
  intros Hc. unfold prompt_mode, period_asked. rewrite Hc. destruct (eqs _ "2"); intros Hrun.
  - run Hrun as H1. run Hrun as H2. run_steps Hrun. simplify_eq. split; [done|].
    apply orb_true_iff in H2 as [H2|H2]; str_hyps; auto.
  - run Hrun as H1. run_steps Hrun. by simplify_eq.
Qed.

(** The request row after the decision of the response. *)
Definition responded (request : Message) (r r' : request_row) : Prop :=
  r'.(r_id) = r.(r_id) ∧ r'.(r_token) = "" ∧
  r'.(r_state) ∈ ["ALLOWED"; "DENIED"; "INVALIDATED"] ∧
  (r'.(r_state) = "ALLOWED" → Get request "decision" = "ALLOWED").

Lemma prompt_respond_run peer request p r w w' m :
  prompt_respond peer request p w = (w', Ret m) →
  r ∈ (w_db w).(db_requests) → r.(r_state) = "PENDING" →
  Get p.(p_pending) "request_id" = r.(r_id) →
  p.(p_choices) = eqs (Get p.(p_pending) "approval_version") "2" → NoDup p.(p_displayed) →
  w_saved w' = None ∧ ∃ rows news mode r',
    NoDup rows ∧ (w_db w').(db_grants) = (w_db w).(db_grants) ++ news ∧
    period_asked request p.(p_pending) mode ∧ Forall2 (grant_for p mode) rows news ∧
    (Get request "decision" ≠ "ALLOWED" → news = []) ∧
    r' ∈ (w_db w').(db_requests) ∧ responded request r r'.
Proof.
  unfold prompt_respond. intros Hrun Hr Hst Hid Hch Hnd.
  run Hrun as Hproof gives u1 w1. apply reads_run in Hproof as [Hd1 _]; [|apply reads_prompt_proof].
  run Hrun as Hdec. run Hrun as Hmode gives mode w2. destruct mode as [mode evaluation].
  pose proof (prompt_mode_run _ _ _ _ _ _ Hch Hmode) as Hperiod.
  apply reads_run in Hmode as [Hd2 _]; [|apply reads_prompt_mode].
  run Hrun as Hcur gives current w3. apply reads_run in Hcur as [Hd3 _];
    [|unfold reads; solve_evolves].
  run Hrun as Hgr gives u4 w4. run Hrun as Hre gives re w5. destruct re as [reevaluated ids].
  apply reads_run in Hre as [Hd5 _]; [|apply reads_CheckConditions].
  run Hrun as Hupd. run Hrun as Hb. unfold Bump in Hb. run_steps Hb.
  run Hrun as Hc. apply ProfileCommit_run in Hc as [Hd6 Hs]. run_steps Hrun. split; [done|].
  assert (∃ rows news, NoDup rows ∧ w_db w4 = with_grants news (w_db w) ∧
    Forall2 (grant_for p mode) rows news ∧ (Get request "decision" ≠ "ALLOWED" → news = []))
    as (rows & news & Hrows & Hdb & Hnew & Hno).
  { destruct (eqs (Get request "decision") "ALLOWED") eqn:Ed.
    - apply prompt_grants_run in Hgr as (rows & news & Hrows & Hdb & Hall); [|done]. exists rows, news.
      split_and!; [done|congruence|done|]. str_hyps. congruence.
    - run_steps Hgr. exists [], []. rewrite with_grants_nil.
      split_and!; [constructor|congruence|constructor|done]. }
  rewrite Hdb in Hd5. simpl in Hd6. rewrite Hd5 in Hd6.
  eexists rows, news, mode, _. rewrite Hd6. simpl. split_and!; [done..| |].
  - apply elem_of_update_where. exists r. split; [done|]. rewrite Hid, Hst, !eqs_refl. reflexivity.
  - split_and!; simpl; [done|done| |].
    + case_match; [set_solver|]. apply orb_true_iff in Hdec as [Hdec|Hdec]; str_hyps; rewrite Hdec;
        set_solver.
    + case_match; [done|]. apply orb_true_iff in Hdec as [Hdec|Hdec]; str_hyps; congruence.
Qed.

(** [g] approves row [i] of the stored request [pending]: a row of a request
    with a selection of features only if it was marked when it was displayed,
    and, unless the period itself is chosen anew, only if it was not allowed
    already; with the definition registered under the policy and the text that
    the request stores for this row. *)
Record approves (d : DB) (pending : Message) (mode : string) (i : Z) (g : grant_row) : Prop := mk_approves {
  ap_row : ∃ count, Number pending "count" 0 1 16 = Ret count ∧ 0 ≤ i < count;
  ap_displayed : Get pending "approval_version" ∈ ["1"; "2"] →
                 Get pending ("_prompt_row." +:+ to_string i) = "1";
  ap_needed : Get pending "approval_version" ≠ "2" → row_get pending i "decision" ≠ "ALLOWED";
  ap_definition : ∃ definition,
    registered_definition d (row_get pending i "definition") definition ∧
    Get definition "policy_version" = row_get pending i "policy_version" ∧
    Get definition "text_revision" = row_get pending i "text_revision" ∧
    g.(g_key) = GrantKey pending i definition ∧
    g.(g_definition) = Get definition "definition" ∧ g.(g_version) = Get definition "policy_version" ∧
    contains ("," +:+ mode +:+ ",") ("," +:+ Get definition "modes" +:+ ",") = true;
  ap_context : g.(g_subject) = Get pending "subject" ∧ g.(g_profile) = Get pending "profile";
  ap_mode : g.(g_mode) = mode;
  ap_session : g.(g_session) = if eqs mode "SESSION" then Get pending "session" else "";
  ap_expires : mode ≠ "TIMED" → g.(g_expires) = 0;
  ap_uses : g.(g_remaining) = if eqs mode "ONCE" then 1 else -1;
  ap_revoked : g.(g_revoked) = 0;
}.

Lemma grant_for_approves d p r mode i g :
  responding d p r → grant_for p mode i g → approves d p.(p_pending) mode i g.
Proof.
  intros [_ _ Hch _ Hdisp] [Hi Hneed Hdef Hctx Hmode Hs He Hu Hr].
  destruct (Hdisp i Hi) as (Hc & Hv & definition & Hl & Hreg & Hpol & Htext).
  rewrite Hl in Hdef. destruct Hdef as (? & ? & ? & ?). constructor; try assumption.
  - intros Hin. apply Hv. unfold approval.Versioned.
    apply elem_of_cons in Hin as [->|Hin]; [done|]. apply list_elem_of_singleton in Hin as ->. done.
  - intros Hne%eqs_false. apply Hneed. congruence.
  - exists definition. by split_and!.
Qed.

(** C2: the meaning of a response.  A [respond] that returns names a pending
    request, comes from the UI instance that displayed its prompt and presents
    the token of that prompt.  The grants it adds approve distinct rows of
    this stored request: in a request with a selection of features only rows
    that were marked as displayed, otherwise rows that were not allowed yet;
    each under the registered definition with exactly the policy version and
    text revision stored for the row, for the subject and profile of the
    request, for the period the response asks for, which the request offers
    and the definition permits; without an ALLOWED decision it adds none.
    The request is then decided, is not ALLOWED unless the response is, and
    its token is gone, so a response is accepted once. *)
Theorem respond_sound peer request w w' m :
  Prompt peer request true w = (w', Ret m) →
  ∃ r payload rows news mode r', let pending := request_message r payload in
    r ∈ (w_db w).(db_requests) ∧ r.(r_state) = "PENDING" ∧ Unpack r.(r_payload) = Ret payload ∧
    (Get request "request_id" ≠ "" → r.(r_id) = Get request "request_id") ∧
    Get request "prompt_token" ≠ "" ∧ r.(r_token) = Hash (Get request "prompt_token") ∧
    r.(r_ui_owner) = peer.(p_identity) ∧ r.(r_ui_instance) = peer.(p_instance) ∧
    (w_db w').(db_grants) = (w_db w).(db_grants) ++ news ∧ NoDup rows ∧
    Forall2 (approves (w_db w) pending mode) rows news ∧ period_asked request pending mode ∧
    (Get request "decision" ≠ "ALLOWED" → news = []) ∧
    r' ∈ (w_db w').(db_requests) ∧ responded request r r'.
Proof.
  unfold Prompt. intros Hrun. run Hrun as H1.
  apply transaction_run in Hrun as (w1 & Hrun & Hend). run Hrun as Hopen gives p w2.
  apply prompt_open_responding in Hopen as (Hd & r & Hresp & Hfind). simpl in Hd, Hresp, Hfind.
  destruct (rs_row _ _ _ Hresp) as [Hr Hst].
  destruct (rs_pending _ _ _ Hresp) as (payload & Hu & Hpend).
  assert (Hproof : ∃ u w3, prompt_proof peer request p w2 = (w3, Ret u)).
  { unfold prompt_respond in Hrun. run Hrun as Hp. eauto. }
  destruct Hproof as (u & w3 & Hproof). apply prompt_proof_run in Hproof as (Htok & Hh & Ho & Hi).
  rewrite Hpend, request_message_token in Hh. rewrite Hpend, request_message_owner in Ho.
  rewrite Hpend, request_message_instance in Hi.
  apply (prompt_respond_run _ _ _ r) in Hrun as (Hs & rows & news & mode & r' & Hrun);
    [|rewrite Hd; exact Hr|exact Hst|rewrite Hpend; apply request_message_id|exact (rs_choices _ _ _ Hresp)|exact (rs_once _ _ _ Hresp)].
  rewrite (Hend Hs), Hd in *. destruct Hrun as (Hnd & Hg & Hper & Hall & Hno & Hr' & Hres).
  assert (Hsel : Get request "request_id" ≠ "" → r.(r_id) = Get request "request_id").
  { intros Hne%empty_false. apply find_row_Some in Hfind as [_ Hsel]. unfold request_selected in Hsel.
    rewrite Hne in Hsel. simpl in Hsel. rewrite orb_false_r in Hsel. by str_hyps. }
  exists r, payload, rows, news, mode, r'. cbv zeta. rewrite <- Hpend. split_and!; try done.
  eapply Forall2_impl; [exact Hall|]. intros i g. by apply (grant_for_approves _ _ r).
Qed.
End consent.
