(* ===== verification/Artifacts.v ===== *)
(** * Artifacts and revocation (src/consentd/repository.cc: Revoke,
    ValidateArtifactProvenance, Data)

    Artifacts are the results a holder keeps under a receipt; derived
    artifacts carry the union of the source grants of their parents.  Holders
    list, delete and acknowledge the artifacts they must clean up. *)
From S2P Require Import Prelude Strings Platform Message Packing Approval Cleanup Localization.
From S2P Require Import ProfileState Store Exec Logic Lifecycle Sessions Grants Requests.

Section artifacts.
Context `{Platform} `{Env}.

(** ** Revocation *)

Definition grant_by_id (id : string) (d : DB) : option grant_row :=
  find_row (λ g, eqs g.(g_id) id) d.(db_grants).

(** [id IN (SELECT left FROM edges JOIN grants ON grants.id=grant_id WHERE p)]. *)
Definition source_grant (p : grant_row → bool) (edges : list (string * string))
  (grants : list grant_row) (id : string) : bool :=
  exists_row (λ e, eqs e.1 id && exists_row (λ g, eqs g.(g_id) e.2 && p g) grants) edges.

Definition grant_revoked (g : grant_row) : bool := negb (g.(g_revoked) =? 0).

(** The statements of [Revoke] in order. *)
Definition revoke_db (definition subject profile : string) (d : DB) : DB :=
  let d := upd_grants (λ g, eqs g.(g_definition) definition && eqs g.(g_subject) subject &&
                            eqs g.(g_profile) profile) (set_g_revoked 1) d in
  let d := upd_authorizations (λ a, source_grant grant_revoked d.(db_authorization_grants)
                                      d.(db_grants) a.(a_id)) (set_a_valid 0) d in
  upd_artifacts (λ t, eqs t.(t_state) "ACTIVE" &&
                      source_grant grant_revoked d.(db_artifact_grants) d.(db_grants) t.(t_id))
    (set_t_state "CLEANUP_PENDING") d.

Definition Revoke (peer : Peer) (request : Message) : M Message :=
  require (Role peer "admin") (- EACCES) "approval administration role required";;
  lift (Context peer request);;
  require (Identifier (Get request "definition")) (- EINVAL) "definition required";;
  transaction (
    statement (revoke_db (Get request "definition") (Get request "subject")
                 (Get request "profile"));;
    Bump;;
    Commit;;
    mret ∅).

(** ** Provenance *)

Definition artifact_by_id (id : string) (d : DB) : option artifact_row :=
  find_row (λ t, eqs t.(t_id) id) d.(db_artifacts).

(** The source rows: every linked grant with its definition. *)
Definition artifact_sources (artifact : string) (d : DB) : list (grant_row * def_row) :=
  e ← filter (λ e, eqs e.1 artifact = true) d.(db_artifact_grants);
  g ← filter (λ g, eqs g.(g_id) e.2 = true) d.(db_grants);
  r ← filter (λ r, eqs r.(d_id) g.(g_definition) = true) d.(db_definitions);
  [(g, r)].

(** The requirement a grant key stands for, as row 0 of a request. *)
Definition bound_requirement (key : Message) : Message :=
  foldl (λ m field, <["r0." +:+ field := Get key field]> m)
    {["r0.policy_version" := Get key "version"]}
    ["scope"; "operation"; "purpose"; "recipient"; "holder"].

Definition check_source (source : grant_row * def_row) : M () :=
  let (g, r) := source in
  definition ← lift (Unpack r.(d_config));
  require ((g.(g_revoked) =? 0) && (r.(d_active) =? 1) &&
           eqs g.(g_version) (Get definition "policy_version"))
    (- ESTALE) "artifact provenance revoked or policy changed";;
  key ← lift (Unpack g.(g_key));
  require (eqs (Get key "definition") (Get definition "definition") &&
           eqs (Get key "version") g.(g_version))
    (- ESTALE) "artifact source binding changed";;
  ValidateBoundArguments definition (bound_requirement key) 0;;
  ok ← installed definition;
  require ok (- ESTALE) "artifact installation identity changed".

(** Ownership and use of an artifact by the peer's request. *)
Definition artifact_matches (peer : Peer) (request : Message) (t : artifact_row) : bool :=
  eqs t.(t_session) (Get request "session") && eqs t.(t_holder) peer.(p_identity) &&
  eqs t.(t_instance) peer.(p_instance) && eqs t.(t_purpose) (Get request "purpose") &&
  eqs t.(t_recipient) (Get request "recipient") && eqs t.(t_scope) (Get request "scope").

(** [state == "ACTIVE" && expires > Now()]. *)
Definition artifact_resident (t : artifact_row) : M bool :=
  if eqs t.(t_state) "ACTIVE" then after_now t.(t_expires) else mret false.

Definition ValidateArtifactProvenance (peer : Peer) (request : Message) (artifact : string)
  : M () :=
  lift (Context peer request);;
  SessionState peer request true false;;
  found ← query (artifact_by_id artifact);
  match found with
  | None => throw (- ENOENT) "artifact not found"
  | Some t =>
      require (artifact_matches peer request t) (- EACCES) "artifact ownership or use mismatch";;
      resident ← artifact_resident t;
      require resident (- ESTALE) "artifact blocked or expired";;
      sources ← query (artifact_sources artifact);
      for_each sources check_source;;
      require (negb (bool_decide (length sources = 0%nat))) (- ESTALE)
        "artifact provenance missing"
  end.

(** ** cleanup_list *)

(** The [WHERE] shared by the two queries of [cleanup_list]. *)
Definition cleanup_row (peer : Peer) (request : Message) (reconcile : bool)
  (d : DB) (t : artifact_row) : bool :=
  eqs t.(t_holder) peer.(p_identity) &&
  (eqs t.(t_instance) peer.(p_instance) || reconcile) &&
  exists_row (λ s, eqs s.(s_id) t.(t_session) && eqs s.(s_subject) (Get request "subject") &&
                   eqs s.(s_profile) (Get request "profile")) d.(db_sessions) &&
  (eqs t.(t_state) "CLEANUP_PENDING" || eqs t.(t_state) "CLEANUP_FAILED").

Definition cleanup_candidates (peer : Peer) (request : Message) (reconcile : bool) (d : DB)
  : list artifact_row :=
  filter (λ t, cleanup_row peer request reconcile d t = true) d.(db_artifacts).

(** [SELECT max(artifacts.id)]: the empty text when there is no row. *)
Definition max_id (rows : list artifact_row) : string :=
  foldl (λ m t, if les m t.(t_id) then t.(t_id) else m) "" rows.

(** [ORDER BY artifacts.id]. *)
Definition string_le (a b : string) : Prop := les a b = true.
#[global] Instance string_le_dec : RelDecision string_le.
Proof. intros a b. unfold string_le. apply _. Defined.

Definition id_le (a b : artifact_row) : Prop := string_le a.(t_id) b.(t_id).
#[global] Instance id_le_dec : RelDecision id_le.
Proof. intros a b. unfold id_le. apply _. Defined.

Definition cleanup_page (peer : Peer) (request : Message) (reconcile : bool)
  (last upper : string) (d : DB) : list artifact_row :=
  take 49 (merge_sort id_le
    (filter (λ t, lts last t.(t_id) && les t.(t_id) upper = true)
       (cleanup_candidates peer request reconcile d))).

(** ["a" + std::to_string(count) + "."]. *)
Definition entry_key (i : Z) (field : string) : string := "a" +:+ to_string i +:+ "." +:+ field.

Definition cleanup_entry (result : Message) (entry : Z * artifact_row) : Message :=
  let (i, t) := entry in
  <[entry_key i "error" := t.(t_cleanup_error)]> (<[entry_key i "state" := t.(t_state)]>
    (<[entry_key i "session" := t.(t_session)]> (<[entry_key i "artifact" := t.(t_id)]> result))).

(** The reply for the rows of a page: at most 48 are returned. *)
Definition cleanup_reply (cursor : CleanupCursor) (rows : list artifact_row) : Message :=
  let page := take 48 rows in
  let more := negb (bool_decide (length rows ≤ 48)%nat) in
  let cursor := mkCleanupCursor cursor.(cu_incarnation) cursor.(cu_scope)
                  (foldl (λ _ t, t.(t_id)) cursor.(cu_last) page) cursor.(cu_upper) in
  let result := foldl cleanup_entry ∅ (zip (seqZ 0 (Z.of_nat (length page))) page) in
  <["next_cursor" := if more then CursorEncode cursor else ""]>
    (<["more" := if more then "1" else "0"]>
       (<["count" := to_string (Z.of_nat (length page))]> result)).

(** The cursor a request continues, or the first one. *)
Definition cleanup_cursor (peer : Peer) (request : Message) (reconcile : bool)
  : M CleanupCursor :=
  let scope := CleanupScope peer.(p_identity) peer.(p_instance) (Get request "subject")
                 (Get request "profile") reconcile in
  incarnation ← gets expected_incarnation_;
  let token := Get request "cursor" in
  if negb (empty token) then
    match CursorParse token with
    | None => throw (- EINVAL) "malformed cleanup cursor"
    | Some cursor =>
        require (eqs cursor.(cu_incarnation) incarnation) (- ESTALE)
          "cleanup database incarnation changed";;
        require (eqs cursor.(cu_scope) scope) (- EACCES) "cleanup cursor scope mismatch";;
        mret cursor
    end
  else
    rows ← query (cleanup_candidates peer request reconcile);
    mret (mkCleanupCursor incarnation scope "" (max_id rows)).

Definition cleanup_list (peer : Peer) (request : Message) : M Message :=
  lift (Context peer request);;
  let mode := GetOr request "reconcile" "0" in
  require (eqs mode "0" || eqs mode "1") (- EINVAL) "invalid reconcile mode";;
  let reconcile := eqs mode "1" in
  cursor ← cleanup_cursor peer request reconcile;
  rows ← query (cleanup_page peer request reconcile cursor.(cu_last) cursor.(cu_upper));
  Commit;;
  mret (cleanup_reply cursor rows).

(** ** data_release and cleanup_ack *)

(** [FROM artifacts JOIN sessions ON sessions.id=artifacts.session WHERE artifacts.id=?]. *)
Definition artifact_with_session (id : string) (d : DB) : option (artifact_row * session_row) :=
  t ← artifact_by_id id d;
  s ← session_by_id t.(t_session) d;
  Some (t, s).

(** Another instance of the holder may only reconcile cleanup. *)
Definition release_reconcile (peer : Peer) (request : Message) (t : artifact_row)
  (s : session_row) : M () :=
  require (eqs (Get request "reconcile") "1") (- EACCES) "holder instance mismatch";;
  lift (Context peer request);;
  require (eqs s.(s_subject) (Get request "subject") && eqs s.(s_profile) (Get request "profile"))
    (- EACCES) "cleanup reconciliation context mismatch";;
  require (eqs t.(t_state) "CLEANUP_PENDING" || eqs t.(t_state) "CLEANUP_FAILED" ||
           eqs t.(t_state) "DELETED")
    (- EACCES) "reconciliation is cleanup-only".

Definition data_release (peer : Peer) (request : Message) : M Message :=
  found ← query (artifact_with_session (Get request "artifact"));
  match found with
  | None => throw (- ENOENT) "artifact not found"
  | Some (t, s) =>
      require (eqs t.(t_holder) peer.(p_identity)) (- EACCES) "holder identity mismatch";;
      (if negb (eqs t.(t_instance) peer.(p_instance))
       then release_reconcile peer request t s else mret ());;
      let success := eqs (GetOr request "success" "1") "1" in
      require (success || negb (eqs t.(t_state) "DELETED")) (- ESTALE)
        "completed deletion cannot become failed";;
      let state := if success then "DELETED" else "CLEANUP_FAILED" in
      statement (upd_artifacts (λ x, eqs x.(t_id) (Get request "artifact"))
        (λ x, set_t_cleanup_error (if success then "" else "holder reported cleanup failure")
                (set_t_state state x)));;
      now ← Now;
      insert_stmt (upsert_acknowledgement (mk_ack_row (Get request "artifact")
        peer.(p_identity) peer.(p_instance) (if success then 1 else 0) now));;
      FinishCleanup;;
      Bump;;
      Commit;;
      mret {["state" := state]}
  end.

(** ** data_register *)

(** A repeated registration of the same receipt. *)
Definition register_retry (peer : Peer) (request : Message) (t : artifact_row) : M Message :=
  require (eqs t.(t_instance) peer.(p_instance)) (- EACCES)
    "acquisition receipt belongs to a prior holder instance";;
  require (eqs t.(t_purpose) (Get request "purpose") &&
           eqs t.(t_recipient) (Get request "recipient") &&
           eqs t.(t_scope) (Get request "scope")) kConflict "artifact retry payload conflict";;
  resident ← artifact_resident t;
  require resident (- ESTALE) "artifact is no longer resident";;
  ProfileCommit;;
  mret (list_to_map [("artifact", t.(t_id)); ("expires", to_string t.(t_expires))]).

Definition session_capacity (session : string) : M () :=
  count ← query (λ d, count_rows (undeleted session) d.(db_artifacts));
  require (count <? 256) (- EBUSY) "session artifact capacity exceeded".

(** The deadline and the definition of a new original artifact. *)
Definition register_retention (peer : Peer) (request payload : Message) (created : Z)
  : M (Z * Message) :=
  index ← lift (Number request "requirement" 0 0 15);
  count ← lift (Number payload "count" 0 1 16);
  require (index <? count) (- EINVAL) "requirement index out of range";;
  require (eqs (row_get payload index "holder") peer.(p_identity)) (- EACCES)
    "receipt is bound to another holder";;
  require (eqs (row_get payload index "scope") (Get request "scope") &&
           eqs (row_get payload index "purpose") (Get request "purpose") &&
           eqs (row_get payload index "recipient") (Get request "recipient"))
    (- EACCES) "returned data exceeds receipt context";;
  require (eqs (GetOr request "storage_class" "MEMORY_ONLY") "MEMORY_ONLY") (- EACCES)
    "persistent data storage is disabled";;
  definition ← Definition_ (row_get payload index "definition");
  retention ← lift (Number definition "retention_ms" 0 0 kDayMs);
  require (retention >? 0) (- EACCES) "definition does not permit result retention";;
  let expires := created + retention in
  live ← after_now expires;
  require live (- ESTALE) "acquisition data already expired";;
  session_capacity (Get request "session");;
  mret (expires, definition).

(** [INSERT INTO artifact_grants SELECT ?,grant_id FROM edges WHERE left=?]. *)
Definition edge_sources (left : string) (edges : list (string * string)) : list string :=
  snd <$> filter (λ e, eqs e.1 left = true) edges.

Definition data_register (peer : Peer) (request : Message) : M Message :=
  let receipt := Get request "receipt" in
  valid ← ReceiptValid receipt;
  require valid (- ESTALE) "acquisition receipt invalid";;
  auth ← query (authorization_by_id receipt);
  match auth with
  | None => throw (- ENOENT) "acquisition receipt missing"
  | Some a =>
      payload ← lift (Unpack a.(a_payload));
      require (eqs (Get payload "session") (Get request "session") &&
               eqs (Get payload "generation") (Get request "generation") &&
               eqs (Get payload "subject") (Get request "subject") &&
               eqs (Get payload "profile") (Get request "profile"))
        (- EACCES) "acquisition context mismatch";;
      prior ← query (λ d, find_row (λ t, eqs t.(t_receipt) receipt &&
                                         eqs t.(t_holder) peer.(p_identity)) d.(db_artifacts));
      match prior with
      | Some t => register_retry peer request t
      | None =>
          '(expires, definition) ← register_retention peer request payload a.(a_created);
          id ← Id;
          level ← lift (Integer (Get definition "level") 0 3);
          insert_stmt (ins_artifact (mk_artifact_row id receipt (Get request "session")
            peer.(p_identity) peer.(p_instance) (Get request "purpose")
            (Get request "recipient") (Get request "scope") expires "ACTIVE" level ""));;
          sources ← query (λ d, edge_sources receipt d.(db_authorization_grants));
          for_each sources (λ g, insert_stmt (ins_artifact_grant (id, g)));;
          Bump;;
          ProfileCommit;;
          mret (list_to_map [("artifact", id); ("permit", id); ("expires", to_string expires);
                             ("storage_class", "MEMORY_ONLY")])
      end
  end.

(** ** data_register_derived *)

Definition check_parent (peer : Peer) (request : Message)
  (s : Z * Z * list string) (i : Z) : M (Z * Z * list string) :=
  let '(expires, level, parents) := s in
  let parent := Get request ("parent" +:+ to_string i) in
  require (negb (bool_decide (parent ∈ parents))) (- EINVAL) "duplicate parent artifact";;
  found ← query (artifact_by_id parent);
  match found with
  | None => throw (- ENOENT) "parent artifact missing"
  | Some t =>
      require (artifact_matches peer request t) (- EACCES)
        "parent artifact ownership or use mismatch";;
      resident ← artifact_resident t;
      require resident (- ESTALE) "parent artifact unavailable";;
      ValidateArtifactProvenance peer request parent;;
      mret (Z.min expires t.(t_expires), Z.max level t.(t_level), parents ++ [parent])
  end.

(** [INSERT OR IGNORE]: an edge that is already there is skipped. *)
Definition inherit_grant (id grant : string) : M () :=
  known ← query (λ d, bool_decide ((id, grant) ∈ d.(db_artifact_grants)));
  if (known : bool) then mret () else insert_stmt (ins_artifact_grant (id, grant)).

Definition link_parent (id parent : string) : M () :=
  sources ← query (λ d, edge_sources parent d.(db_artifact_grants));
  for_each sources (inherit_grant id);;
  insert_stmt (ins_artifact_parent (id, parent)).

Definition data_register_derived (peer : Peer) (request : Message) : M Message :=
  count ← lift (Number request "count" 0 1 16);
  require (count >=? 1) (- EINVAL) "parent artifacts required";;
  '(expires, level, parents) ← fold_m (seqZ 0 count) (check_parent peer request)
                                 (int64_max, 0, []);
  session_capacity (Get request "session");;
  id ← Id;
  insert_stmt (ins_artifact (mk_artifact_row id ("derived:" +:+ id) (Get request "session")
    peer.(p_identity) peer.(p_instance) (Get request "purpose") (Get request "recipient")
    (Get request "scope") expires "ACTIVE" level ""));;
  (* [std::set] iterates in order *)
  for_each (merge_sort string_le parents) (link_parent id);;
  Bump;;
  ProfileCommit;;
  mret (list_to_map [("artifact", id); ("permit", id); ("expires", to_string expires)]).

(** ** Data *)

(** The branches that use data, after their common checks. *)
Definition data_use (peer : Peer) (request : Message) : M Message :=
  require (negb (eqs (Get request "reconcile") "1")) (- EACCES)
    "cleanup reconciliation does not transfer data-use rights";;
  lift (Context peer request);;
  ActiveContext request;;
  require (eqs (GetOr request "storage_class" "MEMORY_ONLY") "MEMORY_ONLY") (- EACCES)
    "persistent data storage is disabled";;
  require (negb (empty (Get request "session"))) (- EINVAL) "data requires session";;
  SessionState peer request true false;;
  let method := Get request "method" in
  if eqs method "data_register" then data_register peer request
  else if eqs method "data_register_derived" then data_register_derived peer request
  else if eqs method "data_check" then
    ValidateArtifactProvenance peer request (Get request "artifact");;
    ProfileCommit;;
    mret {["decision" := "ALLOWED"]}
  else throw (- ENOSYS) "data method unsupported".

Definition Data (peer : Peer) (request : Message) : M Message :=
  require (Role peer "holder") (- EACCES) "holder role required";;
  verify (localization.ValidateArguments ∅ request 0) (- EINVAL);;
  let method := Get request "method" in
  transaction (
    if eqs method "cleanup_list" then cleanup_list peer request
    else if eqs method "data_release" || eqs method "cleanup_ack" then data_release peer request
    else data_use peer request).
End artifacts.

(** ** Data operations are runs of the life cycle *)

Lemma runs_revoke_db definition subject profile d : runs d (revoke_db definition subject profile d).
Proof.
  unfold revoke_db. etransitivity; [apply runs_revoke|]. etransitivity; [apply runs_invalid|].
  apply runs_block. intros t Ht. by str_hyps.
Qed.

Section artifact_runs.
Context `{Platform} `{Env}.

Lemma evolves_Revoke peer request : evolves runs (Revoke peer request).
Proof. unfold Revoke. solve_evolves. apply runs_revoke_db. Qed.

Lemma reads_check_source source : reads (check_source source).
Proof. unfold reads, check_source. solve_evolves. Qed.

Lemma reads_artifact_resident t : reads (artifact_resident t).
Proof. unfold reads, artifact_resident. solve_evolves. Qed.

Hint Resolve reads_check_source reads_artifact_resident : consent.

Lemma reads_ValidateArtifactProvenance peer request artifact :
  reads (ValidateArtifactProvenance peer request artifact).
Proof. unfold reads, ValidateArtifactProvenance. solve_evolves. Qed.

Lemma reads_cleanup_cursor peer request reconcile : reads (cleanup_cursor peer request reconcile).
Proof. unfold reads, cleanup_cursor. solve_evolves. Qed.

Hint Resolve reads_ValidateArtifactProvenance reads_cleanup_cursor : consent.

Lemma reads_cleanup_list peer request : reads (cleanup_list peer request).
Proof. unfold reads, cleanup_list. solve_evolves. Qed.

Lemma reads_release_reconcile peer request t s : reads (release_reconcile peer request t s).
Proof. unfold reads, release_reconcile. solve_evolves. Qed.

Hint Resolve reads_cleanup_list reads_release_reconcile : consent.

Lemma artifact_by_id_Some id d t :
  artifact_by_id id d = Some t → t ∈ d.(db_artifacts) ∧ t.(t_id) = id.
Proof. intros [Ht Hid%eqs_true]%find_row_Some. done. Qed.

Lemma runs_upd_artifact t f d :
  t ∈ d.(db_artifacts) → artifact_next t (f t) →
  runs d (upd_artifacts (λ x, eqs x.(t_id) t.(t_id)) f d).
Proof.
  intros Ht Hn. apply runs_guarded. intros Hw. apply runs_upd_artifacts. intros x Hx Hid.
  apply eqs_true in Hid.
  assert (x = t) as -> by (eapply (key_inj t_id); [apply (key_artifacts _ Hw)|done..]). done.
Qed.

Lemma evolves_data_release peer request : evolves runs (data_release peer request).
Proof.
  intros w. unfold data_release.
  apply evolves_bind_reads; [apply _|unfold reads; solve_evolves|]. intros found w' Hq Hdb.
  apply run_query in Hq as [-> ->]. clear Hdb.
  destruct (artifact_with_session _ _) as [[t s]|] eqn:Ea; [|apply evolves_here; solve_evolves].
  assert (Ht : t ∈ (w_db w).(db_artifacts) ∧ t.(t_id) = Get request "artifact").
  { unfold artifact_with_session in Ea. destruct (artifact_by_id _ _) as [t'|] eqn:Et; [|done].
    simpl in Ea. destruct (session_by_id _ _); simplify_eq/=. by apply artifact_by_id_Some. }
  destruct Ht as [Ht <-].
  at_read as H1 Hdb1. rewrite <- Hdb1 in Ht. clear Hdb1.
  at_read as H2 Hdb2. rewrite <- Hdb2 in Ht. clear Hdb2.
  at_read as Hok Hdb3. run_steps Hok.
  apply evolves_then; [apply _| |intros ?; solve_evolves].
  - apply evolves_statement_at; [apply _|]; apply runs_upd_artifact; [done|].
    destruct (eqs (GetOr request "success" "1") "1"); simpl in *; [constructor|].
    str_hyps. by constructor.
  - apply runs_step. by eapply step_acknowledge.
Qed.

Lemma evolves_register_retry peer request t : evolves runs (register_retry peer request t).
Proof. unfold register_retry. solve_evolves. Qed.

Lemma reads_session_capacity session : reads (session_capacity session).
Proof. unfold reads, session_capacity. solve_evolves. Qed.

Hint Resolve evolves_data_release evolves_register_retry reads_session_capacity : consent.

Lemma reads_register_retention peer request payload created :
  reads (register_retention peer request payload created).
Proof. unfold reads, register_retention. solve_evolves. Qed.

Lemma reads_check_parent peer request s i : reads (check_parent peer request s i).
Proof. unfold reads, check_parent. solve_evolves. Qed.

Hint Resolve reads_register_retention reads_check_parent : consent.

Lemma evolves_source e : evolves runs (insert_stmt (ins_artifact_grant e)).
Proof. solve_evolves. apply runs_step. by eapply step_source. Qed.

Lemma evolves_link_parent id parent : evolves runs (link_parent id parent).
Proof.
  unfold link_parent, inherit_grant. solve_evolves; apply runs_step;
    [by eapply step_source|by eapply step_parent].
Qed.

Hint Resolve evolves_link_parent : consent.

(** New artifacts belong to the active session of the request. *)
Lemma evolves_data_register peer request w :
  active_session (w_db w) (Get request "session") →
  evolves_at runs (data_register peer request) w.
Proof.
  intros Hact. unfold data_register.
  at_read as H1 Hdb1. rewrite <- Hdb1 in Hact. clear Hdb1.
  at_read as H2 Hdb2. rewrite <- Hdb2 in Hact. clear Hdb2.
  at_read as H3 Hdb3. run_steps H3. clear Hdb3.
  destruct (authorization_by_id _ _); [|apply evolves_here; solve_evolves].
  at_read as H4 Hdb4. rewrite <- Hdb4 in Hact. clear Hdb4.
  at_read as H5 Hdb5. rewrite <- Hdb5 in Hact. clear Hdb5.
  at_read as H6 Hdb6. run_steps H6. clear Hdb6.
  destruct (find_row _ _); [apply evolves_here; solve_evolves|].
  at_read as H7 Hdb7. rewrite <- Hdb7 in Hact. clear Hdb7.
  match goal with x : (Z * Message)%type |- _ => destruct x as [expires definition] end.
  at_reads. apply evolves_then; [apply _| |intros ?; solve_evolves].
  - apply evolves_insert_at; [apply _|]. intros d' Hi. apply runs_step. by eapply step_artifact.
  - apply runs_step. by eapply step_source.
Qed.

Lemma evolves_data_register_derived peer request w :
  active_session (w_db w) (Get request "session") →
  evolves_at runs (data_register_derived peer request) w.
Proof.
  intros Hact. unfold data_register_derived.
  at_read as H1 Hdb1. rewrite <- Hdb1 in Hact. clear Hdb1.
  at_read as H2 Hdb2. rewrite <- Hdb2 in Hact. clear Hdb2.
  at_read as H3 Hdb3. rewrite <- Hdb3 in Hact. clear Hdb3.
  match goal with x : (Z * Z * list string)%type |- _ => destruct x as [[expires level] parents] end.
  at_reads. apply evolves_then; [apply _| |intros ?; solve_evolves].
  apply evolves_insert_at; [apply _|]. intros d' Hi. apply runs_step. by eapply step_artifact.
Qed.

Lemma evolves_data_use peer request : evolves runs (data_use peer request).
Proof.
  intros w. unfold data_use. at_read as H1 Hdb1. at_read as H2 Hdb2. at_read as H3 Hdb3.
  at_read as H4 Hdb4. at_read as H5 Hdb5. run_steps H5. str_hyps.
  apply evolves_bind_reads; [apply _|auto with consent|]. intros st wst Hst Hdb6.
  apply SessionState_run in Hst as [(? & _)|(s & Hs & Hid & _ & _ & _ & _ & _ & Hact)]; [done|].
  assert (Ha : active_session (w_db wst) (Get request "session")).
  { exists s. destruct (Hact eq_refl) as [? _]. by rewrite Hdb6. }
  destruct (eqs _ "data_register"); [by apply evolves_data_register|].
  destruct (eqs _ "data_register_derived"); [by apply evolves_data_register_derived|].
  apply evolves_here. solve_evolves.
Qed.

Hint Resolve evolves_data_use : consent.

Lemma evolves_Data peer request : evolves runs (Data peer request).
Proof. unfold Data. solve_evolves. Qed.
End artifact_runs.

#[export] Hint Resolve evolves_Revoke reads_ValidateArtifactProvenance evolves_Data : consent.

(** ** Revocation is effective *)

(** The grants a revocation request is about. *)
Definition revocation_of `{Platform} (request : Message) (g : grant_row) : Prop :=
  g.(g_definition) = Get request "definition" ∧ g.(g_subject) = Get request "subject" ∧
  g.(g_profile) = Get request "profile".

Lemma source_grant_true p edges grants g id :
  g ∈ grants → p g = true → (id, g.(g_id)) ∈ edges → source_grant p edges grants id = true.
Proof.
  intros Hg Hp He. apply exists_row_true. exists (id, g.(g_id)). split; [done|]. simpl.
  rewrite eqs_refl. apply exists_row_true. exists g. split; [done|]. by rewrite eqs_refl, Hp.
Qed.

Section revocation.
Context `{Platform} `{Env}.

Lemma Revoke_run peer request w w' m :
  Revoke peer request w = (w', Ret m) →
  let d := revoke_db (Get request "definition") (Get request "subject") (Get request "profile")
             (w_db w) in
  w_db w' = set_db_revision (d.(db_revision) + 1) d ∧ w_saved w' = None.
Proof.
  unfold Revoke. intros Hrun. run Hrun as H1. run Hrun as H2. run Hrun as H3.
  apply transaction_run in Hrun as (w1 & Hrun & Hend).
  run Hrun as Hs. run Hrun as Hb. unfold Bump in Hb. run_steps Hb.
  run Hrun as Hc. apply Commit_run in Hc as [Hd Hn]. run_steps Hrun.
  rewrite (Hend Hn), Hd. done.
Qed.

Lemma revoke_db_grant definition subject profile d g :
  g ∈ d.(db_grants) → g.(g_definition) = definition → g.(g_subject) = subject →
  g.(g_profile) = profile →
  set_g_revoked 1 g ∈ (revoke_db definition subject profile d).(db_grants).
Proof.
  intros Hg Hd Hs Hp. apply elem_of_update_where. exists g. split; [done|].
  by rewrite Hd, Hs, Hp, !eqs_refl.
Qed.

(** C10: a revocation that returns is in force: every grant for the definition
    under this subject and profile is revoked and no other grant is touched;
    no receipt that any revoked grant backs is valid any more and no artifact
    with a revoked source is usable. *)
Theorem revoke_effective peer request w w' m :
  Revoke peer request w = (w', Ret m) →
  (∀ g, g ∈ (w_db w').(db_grants) → revocation_of request g → g.(g_revoked) = 1) ∧
  (∀ g, g ∈ (w_db w).(db_grants) → ¬ revocation_of request g → g ∈ (w_db w').(db_grants)) ∧
  (∀ a g, a ∈ (w_db w').(db_authorizations) → g ∈ (w_db w').(db_grants) →
    g.(g_revoked) ≠ 0 → (a.(a_id), g.(g_id)) ∈ (w_db w').(db_authorization_grants) →
    a.(a_valid) = 0) ∧
  (∀ t g, t ∈ (w_db w').(db_artifacts) → g ∈ (w_db w').(db_grants) →
    g.(g_revoked) ≠ 0 → (t.(t_id), g.(g_id)) ∈ (w_db w').(db_artifact_grants) →
    t.(t_state) ≠ "ACTIVE").
Proof.
  intros Hrun. apply Revoke_run in Hrun as [-> _]. simpl.
  assert (Hrev : ∀ g : grant_row, g.(g_revoked) ≠ 0 → grant_revoked g = true)
    by (intros g Hg; unfold grant_revoked; lia).
  split_and!.
  - intros g (g0 & Hg0 & ->)%elem_of_update_where (Hd & Hs & Hp).
    destruct (_ && _) eqn:E; [done|]. by rewrite Hd, Hs, Hp, !eqs_refl in E.
  - intros g Hg Hn. apply elem_of_update_where. exists g. split; [done|].
    destruct (_ && _) eqn:E; [|done]. destruct Hn. unfold revocation_of. by str_hyps.
  - intros a g (a0 & _ & ->)%elem_of_update_where Hg Hr He.
    destruct (source_grant _ _ _ _) eqn:E; [done|].
    by rewrite (source_grant_true _ _ _ g) in E; auto.
  - intros t g (t0 & _ & ->)%elem_of_update_where Hg Hr He Ha.
    destruct (_ && _) eqn:E; [done|].
    rewrite Ha, eqs_refl, (source_grant_true _ _ _ g) in E; [done|auto..].
Qed.
End revocation.
