(* ===== verification/Provenance.v ===== *)
(** * Provenance of retained data (src/consentd/repository.cc: Data)

    What a registered artifact is bound to: the holder, the context and the
    retention of the receipt it was acquired under, and, for derived
    artifacts, the tightest terms of its parents together with all their
    sources. *)
From S2P Require Import Prelude Strings Platform Message Packing Approval Localization ProfileState.
From S2P Require Import Store Exec Logic Lifecycle Sessions Grants Requests Artifacts.

Lemma Number_bounds message key fallback lo hi n :
  Number message key fallback lo hi = Ret n → n = fallback ∨ lo ≤ n ≤ hi.
Proof.
  unfold Number. destruct (message !! key); [|intros [= <-]; by left].
  intros Hn%Integer_Ret. right. lia.
Qed.

Section provenance.
Context `{Platform} `{Env}.

(** Inserting edges appends them. *)
Lemma insert_edges_run id sources w w' u :
  for_each sources (λ g, insert_stmt (ins_artifact_grant (id, g))) w = (w', Ret u) →
  w_db w' = set_db_artifact_grants
    ((w_db w).(db_artifact_grants) ++ ((id,.) <$> sources)) (w_db w).
Proof.
  intros Hrun. apply (for_each_run sources (λ done w', w_db w' = set_db_artifact_grants
    ((w_db w).(db_artifact_grants) ++ ((id,.) <$> done)) (w_db w))) in Hrun; [done| |].
  - rewrite fmap_nil, app_nil_r. by destruct (w_db w).
  - intros done g w1 w2 v _ Hinv Hi. apply run_insert in Hi as (d & Hi & ->).
    unfold ins_artifact_grant in Hi. insert_inv Hi. simpl. rewrite Hinv. simpl.
    by rewrite fmap_app, app_assoc.
Qed.

(** The requirement of [payload] that covers what [peer] is about to keep. *)
Definition covers_result (peer : Peer) (request payload : Message) (i : Z) : Prop :=
  row_get payload i "holder" = peer.(p_identity) ∧
  row_get payload i "scope" = Get request "scope" ∧
  row_get payload i "purpose" = Get request "purpose" ∧
  row_get payload i "recipient" = Get request "recipient".

Lemma register_retention_run peer request payload created w w' expires definition :
  register_retention peer request payload created w = (w', Ret (expires, definition)) →
  ∃ i retention, covers_result peer request payload i ∧
    registered_definition (w_db w) (row_get payload i "definition") definition ∧
    Number definition "retention_ms" 0 0 kDayMs = Ret retention ∧
    0 < retention ≤ kDayMs ∧ expires = created + retention.
Proof.
  unfold register_retention. intros Hrun. run Hrun as H1 gives i w1. run Hrun as H2.
  run Hrun as H3. run Hrun as H4. run Hrun as H5. run Hrun as H6. run Hrun as Hdef.
  pose proof (Definition_run _ _ _ _ Hdef) as Hreg.
  run Hrun as Hret gives retention w3. run Hrun as H7. run Hrun as H8. run Hrun as H9.
  run Hrun as H10. run_steps Hrun. simplify_eq. str_hyps.
  exists i, retention. split_and!; try done; [|].
  - by apply Z.gtb_lt.
  - apply Number_bounds in Hret as [->|?]; [done|lia].
Qed.

(** A new original artifact [t] under the authorization [a]. *)
Record registered_under (peer : Peer) (request : Message) (d d' : DB) (a : auth_row)
    (t : artifact_row) : Prop := mk_registered_under {
  ru_row : d'.(db_artifacts) = d.(db_artifacts) ++ [t];
  ru_sources : d'.(db_artifact_grants) =
    d.(db_artifact_grants) ++ ((t.(t_id),.) <$> edge_sources a.(a_id) d.(db_authorization_grants));
  ru_receipt : t.(t_receipt) = a.(a_id);
  ru_holder : t.(t_holder) = peer.(p_identity) ∧ t.(t_instance) = peer.(p_instance);
  ru_state : t.(t_state) = "ACTIVE";
  ru_use : t.(t_session) = Get request "session" ∧ t.(t_purpose) = Get request "purpose" ∧
    t.(t_recipient) = Get request "recipient" ∧ t.(t_scope) = Get request "scope";
  ru_terms : ∃ payload i definition retention, Unpack a.(a_payload) = Ret payload ∧
    covers_result peer request payload i ∧
    registered_definition d (row_get payload i "definition") definition ∧
    Number definition "retention_ms" 0 0 kDayMs = Ret retention ∧
    0 < retention ≤ kDayMs ∧ t.(t_expires) = a.(a_created) + retention ∧
    Integer (Get definition "level") 0 3 = Ret t.(t_level);
}.

(** A registration that finds the artifact it made before. *)
Definition registered_before (peer : Peer) (request m : Message) (d : DB) (t : artifact_row) : Prop :=
  t ∈ d.(db_artifacts) ∧ t.(t_receipt) = Get request "receipt" ∧
  t.(t_holder) = peer.(p_identity) ∧ t.(t_instance) = peer.(p_instance) ∧
  t.(t_state) = "ACTIVE" ∧ Get m "artifact" = t.(t_id).

Lemma register_retry_run peer request t w w' m :
  register_retry peer request t w = (w', Ret m) →
  w_db w' = w_db w ∧ w_saved w' = None ∧ t.(t_instance) = peer.(p_instance) ∧
  t.(t_state) = "ACTIVE" ∧ Get m "artifact" = t.(t_id).
Proof.
  unfold register_retry. intros Hrun. run Hrun as H1. run Hrun as H2.
  run Hrun as Hres gives resident w1. run Hrun as Hok.
  run Hrun as Hc. apply ProfileCommit_run in Hc as [Hd Hs]. run_steps Hrun.
  unfold artifact_resident in Hres. destruct (eqs (t_state t) "ACTIVE") eqn:Ea;
    [|by run_steps Hres; simplify_eq].
  apply reads_run in Hres as [Hd1 _]; [|auto with consent]. str_hyps.
  split_and!; [congruence|done..].
Qed.

Lemma data_register_run peer request w w' m :
  data_register peer request w = (w', Ret m) →
  w_saved w' = None ∧ ∃ a, a ∈ (w_db w).(db_authorizations) ∧ a.(a_id) = Get request "receipt" ∧
    ((w_db w' = w_db w ∧ ∃ t, registered_before peer request m (w_db w) t) ∨
     (∃ t, registered_under peer request (w_db w) (w_db w') a t ∧ Get m "artifact" = t.(t_id))).
Proof.
  unfold data_register. intros Hrun. run Hrun as Hval gives valid w0.
  apply reads_run in Hval as [Hd0 _]; [|auto with consent]. run Hrun as Hok. run Hrun as Hq.
  destruct (authorization_by_id _ _) as [au|] eqn:Ea; [|by run_steps Hrun].
  apply find_row_Some in Ea as [Ha Hid]. str_hyps. rewrite Hd0 in *.
  run Hrun as Hpay gives payload w1. run Hrun as Hctx. run Hrun as Hprior.
  cbn [w_db set_w_tick] in Hrun. rewrite Hd0 in Hrun. destruct (find_row _ _) as [t|] eqn:Et.
  - apply find_row_Some in Et as [Ht Htp]. str_hyps.
    apply register_retry_run in Hrun as (Hd & Hs & Hi & Hst & Hm). simpl in Hd.
    split; [done|]. exists au. split_and!; [done..|]. left. split; [congruence|].
    exists t. by split_and!.
  - run Hrun as Hret gives r w5. destruct r as [expires definition].
    pose proof (register_retention_run _ _ _ _ _ _ _ _ Hret) as (i & ret & Hcov & Hreg & Hn & Hb & ->).
    apply reads_run in Hret as [Hd1 _]; [|apply reads_register_retention].
    simpl in Hreg, Hd1. rewrite Hd0 in Hreg.
    run Hrun as Hnew gives id w2. apply reads_run in Hnew as [Hd2 _]; [|auto with consent].
    run Hrun as Hlev gives level w3. run Hrun as Hins. run Hrun as Hsrc.
    run Hrun as Hedges. apply insert_edges_run in Hedges. run Hrun as Hbump. unfold Bump in Hbump.
    run_steps Hbump. run Hrun as Hc. apply ProfileCommit_run in Hc as [Hd4 Hs]. run_steps Hrun.
    unfold ins_artifact in Hins. insert_inv Hins. simpl in *.
    assert (Hdb : w_db w2 = w_db w) by congruence.
    split; [done|]. exists au. split_and!; [done..|]. right. eexists. split.
    + split; simpl; rewrite ?Hd4, ?Hedges, ?Hdb; simpl; rewrite ?Hdb, ?Hid; try done.
      exists payload, i, definition, ret. split_and!; (done || lia).
    + done.
Qed.

(** C30: retained data is bound to its receipt.  A [data_register] that returns
    either finds the usable artifact this holder instance registered for the
    receipt before, changing nothing, or adds one artifact that belongs to
    the calling holder instance, has the use the receipt's requirement
    covers, expires at the receipt's creation plus the retention of the
    definition (at most one day), has the level of the definition, and has
    as its sources exactly the grants of the receipt. *)
Theorem data_register_sound peer request w w' m :
  Data peer request w = (w', Ret m) → Get request "method" = "data_register" →
  ∃ a, a ∈ (w_db w).(db_authorizations) ∧ a.(a_id) = Get request "receipt" ∧
    ((w_db w' = w_db w ∧ ∃ t, registered_before peer request m (w_db w) t) ∨
     (∃ t, registered_under peer request (w_db w) (w_db w') a t ∧ Get m "artifact" = t.(t_id))).
Proof.
  unfold Data. intros Hrun Hm. run Hrun as H1. run_read Hrun as H2 Hd0. rewrite Hm in Hrun.
  apply transaction_run in Hrun as (w1 & Hrun & Hend). simpl in Hrun. unfold data_use in Hrun.
  run Hrun as H3. run Hrun as H4. run_read Hrun as H5 Hd1. run Hrun as H6. run Hrun as H7.
  run_read Hrun as H8 Hd2. rewrite Hm in Hrun. simpl in Hrun.
  apply data_register_run in Hrun as (Hs & a' & Hrun). rewrite (Hend Hs).
  simpl in Hd1. rewrite Hd2, Hd1, Hd0 in Hrun. by exists a'.
Qed.

(** ** Derived artifacts *)

(** What the loop over the parents has collected: the tightest expiry, the
    highest level and the parents themselves. *)
Definition parents_inv (peer : Peer) (request : Message) (d : DB)
    (s : Z * Z * list string) : Prop :=
  let '(expires, level, parents) := s in
  NoDup parents ∧
  (∀ p, p ∈ parents → ∃ t, t ∈ d.(db_artifacts) ∧ t.(t_id) = p ∧ t.(t_state) = "ACTIVE" ∧
    artifact_matches peer request t = true ∧ expires ≤ t.(t_expires) ∧ t.(t_level) ≤ level).

(** The parent with a number, as the request names it. *)
Definition requested_parent (request : Message) (i : Z) : string := Get request ("parent" +:+ to_string i).

(** The parents that the request names: [count] of them. *)
Definition requested_parents (request : Message) (count : Z) : list string :=
  requested_parent request <$> seqZ 0 count.

Lemma check_parent_run peer request s i w w' s' :
  check_parent peer request s i w = (w', Ret s') →
  parents_inv peer request (w_db w) s →
  parents_inv peer request (w_db w) s' ∧ s'.2 = s.2 ++ [requested_parent request i].
Proof.
  unfold check_parent. destruct s as [[expires level] parents]. intros Hrun [Hnd Hall].
  run Hrun as Hdup. run Hrun as Hq. destruct (artifact_by_id _ _) as [t|] eqn:Et; [|by run_steps Hrun].
  apply artifact_by_id_Some in Et as [Ht Hid]. run Hrun as Hmatch. run Hrun as Hres gives b w1.
  run Hrun as Hb. run Hrun as Hv. run_steps Hrun. simplify_eq. clear Hv.
  unfold artifact_resident in Hres. destruct (eqs (t_state t) "ACTIVE") eqn:Ea;
    [|by run_steps Hres; simplify_eq].
  str_hyps. split; [|done]. split.
  - apply NoDup_app. split_and!; [done| |apply NoDup_singleton].
    intros x Hx ->%list_elem_of_singleton. done.
  - intros p [Hp| ->%list_elem_of_singleton]%elem_of_app.
    + destruct (Hall p Hp) as (t0 & ? & ? & ? & ? & ? & ?). exists t0. split_and!; (done || lia).
    + exists t. split_and!; (done || lia).
Qed.

Lemma check_parents_run peer request l w w' s :
  fold_m l (check_parent peer request) (int64_max, 0, []) w = (w', Ret s) →
  w_db w' = w_db w ∧ parents_inv peer request (w_db w) s ∧ s.2 = requested_parent request <$> l.
Proof.
  intros Hrun.
  apply (fold_m_run l (λ pre s w', w_db w' = w_db w ∧ parents_inv peer request (w_db w) s ∧
    s.2 = requested_parent request <$> pre)) in Hrun.
  - done.
  - split_and!; [done| |done]. split; [constructor|set_solver].
  - intros pre i s0 w1 w2 s1 _ (Hd & Hinv & Hs) Hc. rewrite <- Hd in Hinv.
    pose proof (check_parent_run _ _ _ _ _ _ _ Hc Hinv) as [Hinv' Hs'].
    apply reads_run in Hc as [Hd2 _]; [|apply reads_check_parent].
    rewrite Hd in Hinv'. split_and!; [congruence|done|]. rewrite Hs', Hs, fmap_app. done.
Qed.

(** The artifact [id] is linked to the parents [ps]: it has exactly these new
    parent links, and exactly their source grants as new sources. *)
Record linked (id : string) (ps : list string) (d d' : DB) : Prop := mk_linked {
  lk_artifacts : d'.(db_artifacts) = d.(db_artifacts);
  lk_edges : ∀ a g, (a, g) ∈ d'.(db_artifact_grants) ↔
    (a, g) ∈ d.(db_artifact_grants) ∨ a = id ∧ ∃ p, p ∈ ps ∧ (p, g) ∈ d.(db_artifact_grants);
  lk_parents : ∀ a p, (a, p) ∈ d'.(db_artifact_parents) ↔
    (a, p) ∈ d.(db_artifact_parents) ∨ a = id ∧ p ∈ ps;
}.

Lemma linked_nil id d : linked id [] d d.
Proof. split; set_solver. Qed.

Lemma linked_snoc id ps p d d1 d2 : linked id ps d d1 → linked id [p] d1 d2 → linked id (ps ++ [p]) d d2.
Proof.
  intros [Ha He Hp] [Ha' He' Hp']. split; [congruence| |].
  - intros a g. rewrite He', He. setoid_rewrite He. set_solver.
  - intros a q. rewrite Hp', Hp. set_solver.
Qed.

(** The grants [gs] become sources of the artifact [id]. *)
Record inherits (id : string) (gs : list string) (d d' : DB) : Prop := mk_inherits {
  ih_artifacts : d'.(db_artifacts) = d.(db_artifacts);
  ih_edges : ∀ a g, (a, g) ∈ d'.(db_artifact_grants) ↔
    (a, g) ∈ d.(db_artifact_grants) ∨ a = id ∧ g ∈ gs;
  ih_parents : d'.(db_artifact_parents) = d.(db_artifact_parents);
}.

Lemma inherit_grant_run id g w w' u :
  inherit_grant id g w = (w', Ret u) → inherits id [g] (w_db w) (w_db w').
Proof.
  unfold inherit_grant. intros Hrun. run Hrun as Hk.
  destruct (bool_decide ((id, g) ∈ db_artifact_grants (w_db w))) eqn:E.
  - run_steps Hrun. apply bool_decide_eq_true in E. split; set_solver.
  - apply run_insert in Hrun as (d & Hi & ->). unfold ins_artifact_grant in Hi. insert_inv Hi.
    simpl. split; simpl; set_solver.
Qed.

Lemma link_parent_run id parent w w' u :
  link_parent id parent w = (w', Ret u) → linked id [parent] (w_db w) (w_db w').
Proof.
  unfold link_parent. intros Hrun. run Hrun as Hq. run Hrun as Hloop.
  apply run_insert in Hrun as (d & Hi & ->). unfold ins_artifact_parent in Hi. insert_inv Hi.
  apply (for_each_run _ (λ pre w1, inherits id pre (w_db w) (w_db w1))) in Hloop.
  - destruct Hloop as [Ha He Hp]. split; simpl; [done| |rewrite Hp; set_solver].
    intros child g. rewrite He. unfold edge_sources. setoid_rewrite list_elem_of_fmap.
    setoid_rewrite list_elem_of_filter. split.
    + intros [?|[-> ([x y] & -> & Hx & Hin)]]; [by left|right]. simpl in *. str_hyps. set_solver.
    + intros [?|[-> (p & ->%list_elem_of_singleton & Hin)]]; [by left|right]. split; [done|].
      exists (parent, g). by rewrite eqs_refl.
  - split; set_solver.
  - intros pre g w1 w2 v _ [Ha He Hp] [Ha' He' Hp']%inherit_grant_run.
    split; [congruence| |congruence]. intros child x. rewrite He', He. set_solver.
Qed.

Lemma link_parents_run id parents w w' u :
  for_each parents (link_parent id) w = (w', Ret u) → linked id parents (w_db w) (w_db w').
Proof.
  intros Hrun. apply (for_each_run _ (λ pre w1, linked id pre (w_db w) (w_db w1))) in Hrun;
    [done|apply linked_nil|].
  intros pre p w1 w2 v _ Hl Hp%link_parent_run. by eapply linked_snoc.
Qed.

(** A derived artifact [t] and one of its parents. *)
Record derived_from (d : DB) (t : artifact_row) (p : string) (tp : artifact_row) : Prop :=
  mk_derived_from {
  df_parent : tp ∈ d.(db_artifacts) ∧ tp.(t_id) = p ∧ tp.(t_state) = "ACTIVE";
  df_use : t.(t_session) = tp.(t_session) ∧ t.(t_holder) = tp.(t_holder) ∧
    t.(t_instance) = tp.(t_instance) ∧ t.(t_purpose) = tp.(t_purpose) ∧
    t.(t_recipient) = tp.(t_recipient) ∧ t.(t_scope) = tp.(t_scope);
  df_terms : t.(t_expires) ≤ tp.(t_expires) ∧ tp.(t_level) ≤ t.(t_level);
}.

(** The artifact [t] is new and derived from the [count] distinct parents that
    the request names, from no other, and with the sources of all of them. *)
Record derived (peer : Peer) (request : Message) (count : Z) (d d' : DB) (t : artifact_row) : Prop :=
  mk_derived {
  dv_count : 1 ≤ count ≤ 16;
  dv_distinct : NoDup (requested_parents request count);
  dv_artifact : d'.(db_artifacts) = d.(db_artifacts) ++ [t] ∧ t.(t_state) = "ACTIVE" ∧
    t.(t_holder) = peer.(p_identity) ∧ t.(t_instance) = peer.(p_instance);
  dv_parents : ∀ i, 0 ≤ i < count → ∃ tp, derived_from d t (requested_parent request i) tp;
  dv_links : ∀ a p, (a, p) ∈ d'.(db_artifact_parents) ↔
    (a, p) ∈ d.(db_artifact_parents) ∨ a = t.(t_id) ∧ p ∈ requested_parents request count;
  dv_sources : ∀ a g, (a, g) ∈ d'.(db_artifact_grants) ↔ (a, g) ∈ d.(db_artifact_grants) ∨
    a = t.(t_id) ∧ ∃ p, p ∈ requested_parents request count ∧ (p, g) ∈ d.(db_artifact_grants);
}.

Lemma data_register_derived_run peer request w w' m :
  data_register_derived peer request w = (w', Ret m) →
  w_saved w' = None ∧ ∃ t count, Number request "count" 0 1 16 = Ret count ∧
    derived peer request count (w_db w) (w_db w') t ∧ Get m "artifact" = t.(t_id).
Proof.
  unfold data_register_derived. intros Hrun. run Hrun as Hcount gives count w0. run Hrun as Hge.
  run Hrun as Hpar gives s w1. destruct s as [[expires level] parents].
  apply check_parents_run in Hpar as (Hd1 & (Hnd & Hall) & Hps). simpl in Hps.
  fold (requested_parents request count) in Hps.
  run Hrun as Hcap gives u2 w2. apply reads_run in Hcap as [Hd2 _]; [|apply reads_session_capacity].
  run Hrun as Hid gives id w3.
  apply reads_run in Hid as [Hd3 _]; [|auto with consent].
  run Hrun as Hins. run Hrun as Hlink. apply link_parents_run in Hlink as [Hla Hle Hlp].
  run Hrun as Hb. unfold Bump in Hb. run_steps Hb.
  run Hrun as Hc. apply ProfileCommit_run in Hc as [Hd4 Hs]. run_steps Hrun.
  unfold ins_artifact in Hins. insert_inv Hins. simpl in *.
  assert (Hdb : w_db w3 = w_db w) by congruence. rewrite Hdb in *.
  split; [done|]. exists (mk_artifact_row id ("derived:" +:+ id) (Get request "session")
    peer.(p_identity) peer.(p_instance) (Get request "purpose") (Get request "recipient")
    (Get request "scope") expires "ACTIVE" level ""), count.
  apply Z.geb_le in Hge. pose proof (Number_bounds _ _ _ _ _ _ Hcount) as Hbound.
  split; [done|]. split; [|done]. setoid_rewrite merge_sort_Permutation in Hle.
  setoid_rewrite merge_sort_Permutation in Hlp.
  split; simpl; rewrite ?Hd4; simpl; [lia|done| | |done|done].
  - rewrite Hla. done.
  - intros i Hi. destruct (Hall (requested_parent request i)) as (tp & Htp & Hid' & Hst & Hm & Hexp & Hlev).
    { apply list_elem_of_fmap. exists i. split; [done|]. apply elem_of_seqZ. lia. }
    exists tp. unfold artifact_matches in Hm. str_hyps. split; simpl; done.
Qed.

(** C31: derived data inherits the restrictions of all its parents.  A
    [data_register_derived] that returns adds one artifact, of the caller;
    the request names between one and sixteen distinct parents, and the new
    artifact is linked to each of them and to no other; with respect to every
    one of them, which was active and belonged to the same holder instance,
    session and use, it expires no later and is no less sensitive; and its
    source grants are exactly all those of these parents, so that revoking any
    source of a parent also reaches the derived artifact. *)
Theorem data_register_derived_sound peer request w w' m :
  Data peer request w = (w', Ret m) → Get request "method" = "data_register_derived" →
  ∃ t count, Number request "count" 0 1 16 = Ret count ∧
    derived peer request count (w_db w) (w_db w') t ∧ Get m "artifact" = t.(t_id).
Proof.
  unfold Data. intros Hrun Hm. run Hrun as H1. run_read Hrun as H2 Hd0. rewrite Hm in Hrun.
  apply transaction_run in Hrun as (w1 & Hrun & Hend). simpl in Hrun. unfold data_use in Hrun.
  run Hrun as H3. run Hrun as H4. run_read Hrun as H5 Hd1. run Hrun as H6. run Hrun as H7.
  run_read Hrun as H8 Hd2. rewrite Hm in Hrun. simpl in Hrun.
  apply data_register_derived_run in Hrun as (Hs & Hrun). rewrite (Hend Hs).
  simpl in Hd1. by rewrite Hd2, Hd1, Hd0 in Hrun.
Qed.
End provenance.
