(* ===== verification/Registry.v ===== *)
(** * The definition registry (src/consentd/repository.cc: ReadRegistry,
    WriteRegistry, Invalidate, Replay, ResetRuntime, Register,
    CommonRegister, OfflineInstallationStatus, ObsoleteOfflineRegistration)

    The registry file is the authority on definitions and on the operations
    already applied; the database holds its projection.  [WriteRegistry]
    replaces the file atomically and [Replay] projects it, invalidating
    everything that depends on a changed definition. *)
From S2P Require Import Prelude Strings Platform Message Packing Approval Localization Registration.
From S2P Require Import ProfileState Store Exec Logic Lifecycle Sessions Grants.
From Stdlib Require Import Ascii.

Section registry.
Context `{Platform} `{Env}.

(** A group of system calls that fails with [kStorage]. *)
Definition syscall (reason : string) : M () :=
  ok ← observe env_io; require ok kStorage reason.

(** [path.rfind('/')]. *)
Definition Parent (path : string) : M string :=
  match rfind_char "/"%char path with
  | Some slash =>
      require (0 <? Z.of_nat slash) kStorage "absolute storage path required";; mret (take_str slash path)
  | None => throw kStorage "absolute storage path required"
  end.

(** [path.substr(0, pos)] for the slashes of [path] after its first byte. *)
Definition ancestors (path : string) : list string :=
  (λ pos, take_str pos path) <$>
    filter (λ pos, String.get pos path = Some "/"%char) (seq 1 (String.length path - 1)).

(** Bits 0022 of the mode, and [S_ISVTX]. *)
Definition writable_mode (mode : Z) : bool := negb (Z.land mode 18 =? 0).
Definition sticky_mode (mode : Z) : bool := negb (Z.land mode 512 =? 0).

Definition secure_ancestor (prefix : string) : M () :=
  r ← observe (λ n, env_lstat_directory n prefix);
  match r with
  | StatErrno _ => throw kStorage "storage ancestor is not a directory"
  | StatOk st =>
      require (S_ISDIR st.(st_mode)) kStorage "storage ancestor is not a directory";;
      require (negb (writable_mode st.(st_mode)) || sticky_mode st.(st_mode)) kStorage
        "storage ancestor is writable"
  end.

Definition SecureDirectory (path : string) : M () :=
  r ← observe (λ n, env_lstat_directory n path);
  require (match r with
           | StatErrno _ => false
           | StatOk st => S_ISDIR st.(st_mode) && (st.(st_uid) =? env_euid) && negb (writable_mode st.(st_mode))
           end) kStorage "storage directory ownership or mode rejected";;
  for_each (ancestors path) secure_ancestor.

(** [S_ISREG(mode) && uid == geteuid() && !(mode & 0077) && nlink == 1]. *)
Definition SecureFile (st : file_stat) : M () :=
  require ((Z.land st.(st_mode) 61440 =? 32768) && (st.(st_uid) =? env_euid) &&
           (Z.land st.(st_mode) 63 =? 0) && (st.(st_nlink) =? 1))
    kStorage "storage file ownership or mode rejected".

Definition ValidateDefinition (definition : Message) : M () :=
  require (negb (empty (Get definition "_install_identity"))) (- EINVAL)
    "trusted installation identity required";;
  verify (registration.ValidateDefinition definition) (- EINVAL).

(** ** The registry file *)

Definition registry_root (definitions : gmap string Message) (operations : Message)
  (revision device inode : Z) (incarnation : string) : Message :=
  let root := list_to_map [("schema", "1"); ("revision", to_string revision);
                           ("db_device", to_string device); ("db_inode", to_string inode);
                           ("db_incarnation", incarnation)] in
  let root := foldl (λ root item, <["d." +:+ item.1 := Pack item.2]> root) root
                (items definitions) in
  foldl (λ root item, <["o." +:+ item.1 := item.2]> root) root (items operations).

Definition registry_content (root : Message) : string :=
  Pack (<["checksum" := Hash (Pack root)]> root).

Definition WriteRegistry (definitions : gmap string Message) (operations : Message)
  (revision : Z) : M () :=
  root ← gets (λ w, registry_root definitions operations revision w.(expected_device_)
                      w.(expected_inode_) w.(expected_incarnation_));
  let content := registry_content root in
  require ((size content <=? kRegistryLimit) && (msize operations <=? 8192)) (- ENOSPC)
    "definition registry capacity exceeded";;
  Id;;
  syscall "cannot create registry temporary file";;
  syscall "definition registry write failed";;
  modify (set_w_registry content);;
  modify (set_fenced_ true);;
  syscall "definition registry directory sync failed";;
  modify (set_definitions_ definitions);;
  modify (set_operations_ operations);;
  modify (set_registry_revision_ revision);;
  st ← observe env_lstat_registry;
  match st with
  | StatOk st => modify (set_registry_identity_ st)
  | StatErrno _ => throw kStorage "cannot stat committed registry"
  end.

Definition registry_known : list string :=
  ["schema"; "revision"; "db_device"; "db_inode"; "db_incarnation"].

(** One item of the checked root. *)
Definition registry_item (s : gmap string Message * Message) (item : string * string)
  : M (gmap string Message * Message) :=
  let (definitions, operations) := s in
  let name := drop_str 2 item.1 in
  if starts_with "d." item.1 then
    definition ← lift (Unpack item.2);
    ValidateDefinition definition;;
    require (eqs name (Get definition "definition")) kStorage "registry definition key mismatch";;
    mret (<[name := definition]> definitions, operations)
  else if starts_with "o." item.1 then mret (definitions, <[name := item.2]> operations)
  else
    require (bool_decide (item.1 ∈ registry_known)) kStorage "unknown registry field";;
    mret (definitions, operations).

(** [ReadRegistry] after the bytes were read. *)
Definition registry_load (content : string) (st : file_stat) : M () :=
  root ← lift (Unpack content);
  require (eqs (Get root "schema") "1") kStorage "unsupported registry schema";;
  revision ← lift (Integer (Get root "revision") 0 int64_max);
  device ← lift (Integer (GetOr root "db_device" "0") 0 int64_max);
  modify (set_expected_device_ device);;
  inode ← lift (Integer (GetOr root "db_inode" "0") 0 int64_max);
  modify (set_expected_inode_ inode);;
  modify (set_expected_incarnation_ (Get root "db_incarnation"));;
  let expected := Get root "checksum" in
  let root := delete "checksum" root in
  require (eqs (Hash (Pack root)) expected) kStorage "registry checksum mismatch";;
  '(definitions, operations) ← fold_m (items root) registry_item (∅, ∅);
  require ((msize definitions <=? kMaxDefinitions) && (msize operations <=? 8192))
    kStorage "registry capacity exceeded";;
  modify (set_definitions_ definitions);;
  modify (set_operations_ operations);;
  modify (set_registry_revision_ revision);;
  modify (set_registry_identity_ st).

Definition ReadRegistry (initial : bool) : M () :=
  r ← observe env_lstat_registry;
  match r with
  | StatErrno errno =>
      require ((errno =? ENOENT) && initial) kStorage
        "definition registry missing: installer re-registration required";;
      db ← observe env_lstat_db;
      require (match db with StatErrno e => e =? ENOENT | StatOk _ => false end) kStorage
        "existing database has no trusted definition registry";;
      WriteRegistry ∅ ∅ 0
  | StatOk st =>
      SecureFile st;;
      require ((st.(st_size) >? 0) && (st.(st_size) <=? kRegistryLimit)) kStorage
        "definition registry size rejected";;
      content ← observe env_registry_content;
      match content with
      | None => throw kStorage "cannot read definition registry"
      | Some content => registry_load content st
      end
  end.

(** ** Projection *)

Definition bound_to (definition : string) (edges : list (string * string))
  (grants : list grant_row) (id : string) : bool :=
  exists_row (λ e, eqs e.1 id &&
    exists_row (λ g, eqs g.(g_id) e.2 && eqs g.(g_definition) definition) grants) edges.

(** The three [UPDATE]s of [Invalidate] in order. *)
Definition invalidate_db (definition : string) (d : DB) : DB :=
  let d := upd_grants (λ g, eqs g.(g_definition) definition) (set_g_revoked 1) d in
  let d := upd_authorizations (λ a, bound_to definition d.(db_authorization_grants)
                                      d.(db_grants) a.(a_id)) (set_a_valid 0) d in
  upd_artifacts (λ t, eqs t.(t_state) "ACTIVE" &&
                      bound_to definition d.(db_artifact_grants) d.(db_grants) t.(t_id))
    (set_t_state "CLEANUP_PENDING") d.

(** A requirement of the payload names [definition]. *)
Definition names_definition (definition : string) (payload : Message) : outcome bool :=
  count ← Number payload "count" 0 0 16;
  Ret (existsb (λ i, eqs (row_get payload i "definition") definition) (seqZ 0 count)).

Definition Invalidate (definition : string) : M () :=
  statement (invalidate_db definition);;
  pending ← query (λ d, filter (λ r, eqs r.(r_state) "PENDING" = true) d.(db_requests));
  ids ← fold_m pending (λ ids r,
    payload ← lift (Unpack r.(r_payload));
    named ← lift (names_definition definition payload);
    mret (if named : bool then ids ++ [r.(r_id)] else ids)) [];
  for_each ids invalidate_request.

Definition OfflineInstallationStatus (definition : Message) : M Z :=
  let identity := GetOr definition "_install_identity" (Get definition "expected_generation") in
  match env_offline_validator with
  | Some f =>
      status ← observe (λ n, f n (Get definition "package") (Get definition "app") identity);
      require (status <=? 0) (- EINVAL)
        "offline installation validator returned invalid status";;
      mret status
  | None =>
      ok ← validator (Get definition "package") (Get definition "app") identity;
      mret (if ok : bool then 0 else - ESTALE)
  end.

(** Whether an active definition is still installed. *)
Definition replay_active (config : Message) : M bool :=
  if negb (eqs (GetOr config "active" "1") "1") then mret false
  else
    offline ← gets offline_import_;
    if (offline : bool) then
      status ← OfflineInstallationStatus config;
      require ((status =? 0) || (status =? - ESTALE)) status
        "offline installation authority failed during registry replay";;
      mret (status =? 0)
    else installed config.

(** One iteration of [Replay]; the state is [changed]. *)
Definition replay_item (changed : bool) (item : string * Message) : M bool :=
  let (id, config) := item in
  active ← replay_active config;
  let packed := Pack (<["active" := if active : bool then "1" else "0"]> config) in
  current ← query (λ d, find_row (λ r, eqs r.(d_id) id) d.(db_definitions));
  if match current with Some r => eqs r.(d_config) packed | None => false end
  then mret changed
  else
    Invalidate id;;
    statement (upsert_definition (mk_def_row id (Get config "package") (Get config "app")
      (if active then 1 else 0) packed));;
    mret true.

Definition Replay : M () :=
  syscall "registry authority durability remains uncertain";;
  transaction (
    definitions ← gets definitions_;
    changed ← fold_m (items definitions) replay_item false;
    revision ← gets registry_revision_;
    current ← query db_registry_revision;
    statement (set_db_registry_revision revision);;
    (if changed || negb (current =? revision) then Bump else mret ());;
    Commit;;
    modify (set_fenced_ false)).

Definition reset_runtime_db (d : DB) : DB :=
  let d := upd_requests (λ r, eqs r.(r_state) "PENDING")
             (λ r, set_r_token "" (set_r_state "INVALIDATED" r)) d in
  let d := upd_sessions session_live
             (λ s, set_s_generation (s.(s_generation) + 1) (set_s_state "CLOSING" s)) d in
  let d := upd_grants (λ g, negb (eqs g.(g_mode) "PERSISTENT")) (set_g_revoked 1) d in
  let d := upd_authorizations (λ _, true) (set_a_valid 0) d in
  upd_artifacts (λ t, eqs t.(t_state) "ACTIVE") (set_t_state "CLEANUP_PENDING") d.

Definition ResetRuntime : M () :=
  transaction (statement reset_runtime_db;; FinishCleanup;; Bump;; Commit).

(** ** Registration *)

Definition message_field (key : string) : bool :=
  eqs key "default_locale" || starts_with "message." key || starts_with "locale_fallback." key.

Definition select (p : string → bool) (m : Message) : Message :=
  filter (λ field, p field.1 = true) m.

Definition policy_meaning (key : string) : bool :=
  localization.IsPolicyField key || eqs key "enforcer" || eqs key "level" || eqs key "modes" ||
  eqs key "retention_ms".

(** Uninstalling a package: every active definition must be of [expected]. *)
Definition uninstall_matches (package expected : string) (definitions : gmap string Message)
  : bool :=
  forallb (λ item, negb (eqs (Get item.2 "package") package && eqs (Get item.2 "active") "1") ||
                   eqs (Get item.2 "_install_identity") expected) (items definitions).

Definition uninstall_guard (package : string) (request : Message) : M () :=
  let expected := Get request "expected_generation" in
  require (negb (empty expected)) (- EINVAL) "expected installation generation required";;
  accepted ← match env_package_validator with
             | None => mret false
             | Some f => observe (λ n, f n package expected)
             end;
  require accepted (- ESTALE) "package generation authority rejected uninstall";;
  definitions ← gets definitions_;
  require (uninstall_matches package expected definitions) (- ESTALE)
    "stale package uninstall operation".

(** Every definition of the package becomes inactive. *)
Definition uninstall (package : string) (definitions : gmap string Message)
  : gmap string Message :=
  (λ m : Message, if eqs (Get m "package") package then <["active" := "0"]> m else m)
    <$> definitions.

(** The definition carried by a registration request. *)
Definition request_definition (request : Message) : Message :=
  <["active" := "1"]>
    (select (λ key, registration.IsDefinitionField key || eqs key "_install_identity") request).

(** The checks of a registration against the definition it replaces. *)
Definition check_update (package : string) (found definition : Message) : M () :=
  require (eqs (Get found "package") package && eqs (Get found "app") (Get definition "app"))
    (- EACCES) "definition namespace belongs to another app";;
  old_policy ← lift (Integer (Get found "policy_version") 1 int32_max);
  new_policy ← lift (Integer (Get definition "policy_version") 1 int32_max);
  require (new_policy >=? old_policy) kConflict "policy rollback rejected";;
  old_text ← lift (Integer (Get found "text_revision") 1 int32_max);
  new_text ← lift (Integer (Get definition "text_revision") 1 int32_max);
  require (new_text >=? old_text) kConflict "text revision rollback rejected";;
  require (bool_decide (select localization.IsPolicyField found =
                        select localization.IsPolicyField definition) ||
           (new_policy >? old_policy)) kConflict
    "template parameter schema changed without policy version increase";;
  require (bool_decide (select message_field found = select message_field definition) ||
           (new_text >? old_text)) kConflict
    "localized messages or fallback changed without text revision increase";;
  if (new_policy =? old_policy) && eqs (Get found "active") "1" &&
     eqs (Get found "_install_identity") (Get definition "_install_identity")
  then
    require (forallb (λ field, eqs (Get found field) (Get definition field))
               ["enforcer"; "level"; "modes"; "retention_ms"]) kConflict
      "policy meaning changed without version increase";;
    require (negb (new_text =? old_text) || bool_decide (found = definition)) kConflict
      "same revision differs"
  else mret ().

Definition install (package : string) (request : Message) (definitions : gmap string Message)
  : M (gmap string Message) :=
  let definition := request_definition request in
  ValidateDefinition definition;;
  offline ← gets offline_import_;
  (if (offline : bool) then
     status ← OfflineInstallationStatus definition;
     require (status =? 0) status "offline installation validation failed during registration"
   else
     ok ← validator package (Get definition "app") (Get definition "_install_identity");
     require ok (- EACCES) "installed package identity mismatch");;
  let id := Get definition "definition" in
  (match definitions !! id with
   | Some found => check_update package found definition
   | None => mret ()
   end);;
  mret (<[id := definition]> definitions).

Definition registered : Message := {["status" := "0"]}.

Definition CommonRegister (key : string) (request : Message) (remove : bool) : M Message :=
  let package := Get request "package" in
  require (Identifier package && Identifier (Get request "operation_id")) (- EINVAL)
    "package and installation operation required";;
  let fingerprint := Hash (Pack (delete "protocol_request_id" (delete "id" request))) in
  (if remove then uninstall_guard package request else mret ());;
  operations ← gets operations_;
  match operations !! key with
  | Some prior =>
      require (eqs prior fingerprint) kConflict "installation operation payload conflict";;
      mret registered
  | None =>
      definitions ← gets definitions_;
      definitions ←
        (if remove then
           let expected := Get request "expected_generation" in
           require (negb (empty expected)) (- EINVAL)
             "expected installation generation required";;
           require (uninstall_matches package expected definitions) (- ESTALE)
             "stale package uninstall operation";;
           mret (uninstall package definitions)
         else install package request definitions);
      require (msize definitions <=? kMaxDefinitions) (- ENOSPC) "definition limit exceeded";;
      revision ← gets registry_revision_;
      WriteRegistry definitions (<[key := fingerprint]> operations) (revision + 1);;
      Replay;;
      mret registered
  end.

Definition Register (peer : Peer) (request : Message) (remove : bool) : M Message :=
  require (Role peer "installer") (- EACCES) "installer role required";;
  let package := Get request "package" in
  require (Identifier package && Identifier (Get request "operation_id")) (- EINVAL)
    "package and installation operation required";;
  require (Member peer.(p_packages) package) (- EACCES) "package delegation denied";;
  CommonRegister (Hash (peer.(p_identity) +:+ ":" +:+ Get request "operation_id")) request remove.

(** ** Offline images *)

Definition ObsoleteOfflineRegistration (request : Message) : M bool :=
  definitions ← gets definitions_;
  match definitions !! Get request "definition" with
  | None => mret false
  | Some current =>
      require (eqs (Get current "package") (Get request "package") &&
               eqs (Get current "app") (Get request "app"))
        (- EACCES) "definition namespace belongs to another app";;
      if negb (eqs (Get current "_install_identity") (Get request "expected_generation"))
      then mret false
      else
        current_policy ← lift (Integer (Get current "policy_version") 1 int32_max);
        incoming_policy ← lift (Integer (Get request "policy_version") 1 int32_max);
        current_text ← lift (Integer (Get current "text_revision") 1 int32_max);
        incoming_text ← lift (Integer (Get request "text_revision") 1 int32_max);
        require (negb (current_policy =? incoming_policy) ||
                 bool_decide (select policy_meaning current = select policy_meaning request))
          kConflict "same offline policy revision differs";;
        require (negb (current_text =? incoming_text) ||
                 bool_decide (select message_field current = select message_field request))
          kConflict "same offline text revision differs";;
        require (negb (((current_policy >? incoming_policy) && (current_text <? incoming_text)) ||
                       ((current_policy <? incoming_policy) && (current_text >? incoming_text))))
          kConflict "offline policy and text revisions cross";;
        mret (eqs (Get current "active") "0" ||
              ((current_policy >=? incoming_policy) && (current_text >=? incoming_text) &&
               ((current_policy >? incoming_policy) || (current_text >? incoming_text))))
  end.
End registry.

(** ** The registry and the life cycle *)

(** Invalidation leaves nothing usable bound to the definition. *)
Lemma invalidate_unbound definition d : unbound (invalidate_db definition d) definition.
Proof.
  assert (Hb : ∀ edges grants g id, g ∈ grants → g.(g_definition) = definition →
    (id, g.(g_id)) ∈ edges → bound_to definition edges grants id = true).
  { intros edges grants g id Hg Hd He. apply exists_row_true. exists (id, g.(g_id)).
    split; [done|]. simpl. rewrite eqs_refl. apply exists_row_true. exists g.
    split; [done|]. by rewrite Hd, !eqs_refl. }
  split; simpl.
  - intros g (g0 & _ & ->)%elem_of_update_where Hd. destruct (eqs _ _) eqn:E; [done|].
    by rewrite Hd, eqs_refl in E.
  - intros g a Hg Hd (a0 & _ & ->)%elem_of_update_where He.
    destruct (bound_to _ _ _ (a_id a0)) eqn:E; [done|]. by rewrite (Hb _ _ g) in E.
  - intros g t Hg Hd (t0 & _ & ->)%elem_of_update_where He Ha.
    destruct (_ && _) eqn:E; [done|]. rewrite Ha, eqs_refl, (Hb _ _ g) in E; done.
Qed.

Lemma runs_invalidate_db definition d : runs d (invalidate_db definition d).
Proof.
  unfold invalidate_db. etransitivity; [apply runs_revoke|]. etransitivity; [apply runs_invalid|].
  apply runs_block. intros t Ht. by str_hyps.
Qed.

(** Shutting down: grants, artifacts and receipts first, then sessions. *)
Lemma reset_runtime_order d :
  reset_runtime_db d =
  upd_sessions session_live
    (λ s, set_s_generation (s.(s_generation) + 1) (set_s_state "CLOSING" s))
    (upd_artifacts (λ t, eqs t.(t_state) "ACTIVE") (set_t_state "CLEANUP_PENDING")
      (upd_authorizations (λ _, true) (set_a_valid 0)
        (upd_grants (λ g, negb (eqs g.(g_mode) "PERSISTENT")) (set_g_revoked 1)
          (upd_requests (λ r, eqs r.(r_state) "PENDING")
            (λ r, set_r_token "" (set_r_state "INVALIDATED" r)) d)))).
Proof. reflexivity. Qed.

Lemma runs_reset_runtime d : runs d (reset_runtime_db d).
Proof.
  rewrite reset_runtime_order. etransitivity; [apply runs_invalidate|].
  etransitivity; [apply runs_revoke|]. etransitivity; [apply runs_invalid|].
  etransitivity; [apply (runs_block _ (λ t, eqs t.(t_state) "ACTIVE")); intros t Ht; by str_hyps|].
  apply runs_upd_sessions. intros s _ Hs. apply sn_close; [by apply session_live_true|].
  split; simpl.
  - intros g (g0 & _ & ->)%elem_of_update_where _ Hm. destruct (negb _) eqn:E; [done|].
    str_hyps. congruence.
  - intros t (t0 & _ & ->)%elem_of_update_where _ Ha. destruct (eqs _ _) eqn:E; [done|].
    str_hyps. congruence.
Qed.

Section registry_runs.
Context `{Platform} `{Env}.

Lemma reads_syscall reason : reads (syscall reason).
Proof. unfold reads, syscall. solve_evolves. Qed.

Lemma reads_SecureFile st : reads (SecureFile st).
Proof. unfold reads, SecureFile. solve_evolves. Qed.

Lemma reads_ValidateDefinition definition : reads (ValidateDefinition definition).
Proof. unfold reads, ValidateDefinition. solve_evolves. Qed.

Hint Resolve reads_syscall reads_SecureFile reads_ValidateDefinition : consent.

Lemma reads_Parent path : reads (Parent path).
Proof. unfold reads, Parent. solve_evolves. Qed.

Lemma reads_SecureDirectory path : reads (SecureDirectory path).
Proof. unfold reads, SecureDirectory, secure_ancestor. solve_evolves. Qed.

Lemma reads_WriteRegistry definitions operations revision :
  reads (WriteRegistry definitions operations revision).
Proof. unfold reads, WriteRegistry. solve_evolves. Qed.

Lemma reads_registry_item s item : reads (registry_item s item).
Proof. unfold reads, registry_item. solve_evolves. Qed.

Hint Resolve reads_Parent reads_SecureDirectory reads_WriteRegistry reads_registry_item : consent.

Lemma reads_registry_load content st : reads (registry_load content st).
Proof. unfold reads, registry_load. solve_evolves. Qed.

Hint Resolve reads_registry_load : consent.

Lemma reads_ReadRegistry initial : reads (ReadRegistry initial).
Proof. unfold reads, ReadRegistry. solve_evolves. Qed.

Lemma reads_OfflineInstallationStatus definition : reads (OfflineInstallationStatus definition).
Proof. unfold reads, OfflineInstallationStatus. solve_evolves. Qed.

Hint Resolve reads_ReadRegistry reads_OfflineInstallationStatus : consent.

Lemma reads_replay_active config : reads (replay_active config).
Proof. unfold reads, replay_active. solve_evolves. Qed.

Hint Resolve reads_replay_active : consent.

Lemma evolves_Invalidate definition : evolves runs (Invalidate definition).
Proof. unfold Invalidate. solve_evolves. apply runs_invalidate_db. Qed.

(** [Invalidate] changes the requests and what [invalidate_db] changes. *)
Lemma Invalidate_run definition w w' u :
  Invalidate definition w = (w', Ret u) →
  ∃ l, w_db w' = set_db_requests l (invalidate_db definition (w_db w)).
Proof.
  unfold Invalidate. intros Hrun. run Hrun as H1. run Hrun as H2. run_read Hrun as H3 Hd.
  simpl in Hd.
  eapply (for_each_run _ (λ _ w', ∃ l, w_db w' = set_db_requests l (invalidate_db definition (w_db w))));
    [| |exact Hrun].
  - exists (invalidate_db definition (w_db w)).(db_requests). rewrite Hd. by destruct (w_db w).
  - intros pre id w1 w2 u2 _ [l Hl] Hr. unfold invalidate_request in Hr. run_steps Hr.
    simpl. rewrite Hl. by eexists.
Qed.

Hint Resolve evolves_Invalidate : consent.

(** A definition is projected only after it was invalidated. *)
Lemma evolves_replay_item changed item : evolves runs (replay_item changed item).
Proof.
  intros w. unfold replay_item. destruct item as [id config]. at_read as H1 Hdb1. clear Hdb1.
  at_read as H2 Hdb2. clear Hdb2.
  match goal with |- evolves_at _ (if ?b then _ else _) _ => destruct b end;
    [apply evolves_here; solve_evolves|].
  apply evolves_bind_at; [apply _|apply evolves_Invalidate|]. intros u w1 Hinv.
  apply evolves_then; [apply _| |intros ?; solve_evolves].
  apply evolves_statement_at; [apply _|]; apply runs_step, step_define. simpl.
  apply Invalidate_run in Hinv as [l ->].
  destruct (invalidate_unbound id (w_db w'0)) as [Hg Ha Ht]. by split.
Qed.

Hint Resolve evolves_replay_item : consent.

Lemma evolves_Replay : evolves runs Replay.
Proof. unfold Replay. solve_evolves. apply runs_step, step_project. Qed.

Lemma evolves_ResetRuntime : evolves runs ResetRuntime.
Proof. unfold ResetRuntime. solve_evolves. apply runs_reset_runtime. Qed.

Lemma reads_uninstall_guard package request : reads (uninstall_guard package request).
Proof. unfold reads, uninstall_guard. solve_evolves. Qed.

Lemma reads_check_update package found definition : reads (check_update package found definition).
Proof. unfold reads, check_update. solve_evolves. Qed.

Hint Resolve evolves_Replay reads_uninstall_guard reads_check_update : consent.

Lemma reads_install package request definitions : reads (install package request definitions).
Proof. unfold reads, install. solve_evolves. Qed.

Hint Resolve reads_install : consent.

Lemma evolves_CommonRegister key request remove : evolves runs (CommonRegister key request remove).
Proof. unfold CommonRegister. solve_evolves. Qed.

Hint Resolve evolves_CommonRegister : consent.

Lemma evolves_Register peer request remove : evolves runs (Register peer request remove).
Proof. unfold Register. solve_evolves. Qed.

Lemma reads_ObsoleteOfflineRegistration request : reads (ObsoleteOfflineRegistration request).
Proof. unfold reads, ObsoleteOfflineRegistration. solve_evolves. Qed.
End registry_runs.

#[export] Hint Resolve reads_syscall reads_uninstall_guard reads_install reads_SecureFile reads_Parent reads_SecureDirectory reads_WriteRegistry
  reads_ReadRegistry reads_OfflineInstallationStatus evolves_Replay evolves_ResetRuntime
  evolves_CommonRegister evolves_Register reads_ObsoleteOfflineRegistration : consent.
