(* ===== verification/Database.v ===== *)
(** * The database handle (src/consentd/repository.cc: RetireDatabase,
    OpenDatabase, Open, Ensure, Snapshot, FenceProfiles, CompactMetadata)

    Opening, fencing and replacing the database file, the check that runs
    before and after every operation, the retirement of everything bound to a
    switched user profile and the bounded reclamation of dead metadata. *)
From S2P Require Import Prelude Strings Platform Message Packing ProfileState Store Exec Logic.
From S2P Require Import Lifecycle Sessions Grants Registry.

Section database.
Context `{Platform} `{Env}.

(** ** Opening *)

(** Close the handle and move the files of the database aside. *)
Definition RetireDatabase (main_file : bool) : M () :=
  is_open ← gets db_open_;
  (if (is_open : bool) then
     syscall "cannot retire live database handle";; modify (set_db_open_ false)
   else mret ());;
  Id;;
  for_each (if main_file then [""; "-journal"; "-wal"; "-shm"] else ["-journal"; "-wal"; "-shm"])
    (λ _, syscall "cannot inspect database artifacts";;
          syscall "cannot quarantine database artifact");;
  syscall "cannot sync database quarantine".

Definition mismatched (st : file_stat) (w : World) : bool :=
  negb (w.(expected_inode_) =? 0) &&
  (negb (st.(st_dev) =? w.(expected_device_)) || negb (st.(st_ino) =? w.(expected_inode_))).

(** The file [OpenDatabase] opens: [(existed, recovering)]. *)
Definition prepare_file (recovering : bool) : M (bool * bool) :=
  directory ← Parent env_path;
  SecureDirectory directory;;
  r ← observe env_lstat_db;
  '(existed, recovering) ←
    match r with
    | StatErrno errno =>
        require (errno =? ENOENT) kStorage "cannot stat database";; mret (false, recovering)
    | StatOk st =>
        SecureFile st;;
        other ← gets (mismatched st);
        if (other : bool) then RetireDatabase true;; mret (false, true)
        else mret (true, recovering)
    end;
  if (existed : bool) then mret (true, recovering)
  else
    RetireDatabase false;;
    inode ← gets expected_inode_;
    syscall "cannot create database";;
    mret (false, recovering || negb (inode =? 0)).

(** [sqlite3_open_v2], the pragmas, [quick_check] and [kSchema]; a file just
    created is empty. *)
Definition open_handle (existed : bool) : M () :=
  for_each ["-journal"; "-wal"; "-shm"] (λ _, syscall "cannot inspect SQLite sidecar");;
  modify (set_corrupt_ false);;
  modify (set_db_open_ true);;
  syscall "cannot open database";;
  rc ← observe env_open;
  (match rc with Some rc => lift (Throw (sql_failure rc)) | None => mret () end);;
  ok ← observe env_quick_check;
  (if (ok : bool) then mret ()
   else modify (set_corrupt_ true);; throw kStorage "database corrupt");;
  syscall "unsupported database schema";;
  content ← observe env_content;
  statement (λ _, if existed then content else empty_db);;
  transaction Commit.

(** [OpenDatabase] after the incarnation was accepted. *)
Definition adopt_database (recovering : bool) (incarnation : string) : M () :=
  incarnation ←
    (if empty incarnation then
       id ← Id; statement (set_db_incarnation (Some id));; mret id
     else mret incarnation);
  r ← observe env_lstat_db;
  match r with
  | StatErrno _ => throw kStorage "database disappeared"
  | StatOk st =>
      modify (set_db_identity_ st);;
      SecureFile st;;
      epoch ← Id;
      modify (set_epoch_ epoch);;
      (if recovering then statement (set_db_cleanup_unknown 1) else mret ());;
      unknown ← query db_cleanup_unknown;
      modify (set_cleanup_unknown_ (negb (unknown =? 0)));;
      known ← gets (λ w, (w.(expected_device_) =? st.(st_dev)) &&
                         (w.(expected_inode_) =? st.(st_ino)) &&
                         eqs w.(expected_incarnation_) incarnation);
      (if (known : bool) then mret ()
       else
         modify (set_expected_incarnation_ incarnation);;
         modify (set_expected_device_ st.(st_dev));;
         modify (set_expected_inode_ st.(st_ino));;
         w ← gets (λ w, w);
         WriteRegistry w.(definitions_) w.(operations_) w.(registry_revision_));;
      Replay;;
      ResetRuntime;;
      now ← Now;
      modify (set_maintenance_due_ (now + kMaintenanceIntervalMs))
  end.

(** A database with a foreign incarnation is retired and opened again; once
    the file is gone the next attempt creates a new one, so the recursion
    ends at the second level unless another process keeps creating the file
    ([fuel] bounds how often the model follows it). *)
Fixpoint OpenDatabase (fuel : nat) (recovering : bool) : M () :=
  '(existed, recovering) ← prepare_file recovering;
  open_handle existed;;
  incarnation ← query (λ d, default "" d.(db_incarnation));
  expected ← gets expected_incarnation_;
  if existed && negb (empty expected) && negb (eqs incarnation expected) then
    RetireDatabase true;;
    match fuel with
    | O => throw kStorage "database keeps reappearing"
    | S fuel' => OpenDatabase fuel' true
    end
  else adopt_database recovering incarnation.

Definition open_fuel : nat := 8.

(** [(rc & 0xff) == SQLITE_CORRUPT || (rc & 0xff) == SQLITE_NOTADB]. *)
Definition corrupt_code (rc : Z) : bool := (Z.land rc 255 =? 11) || (Z.land rc 255 =? 26).

(** Returns [Open]'s result; the error text is the failure's reason. *)
Definition Open : M bool :=
  catch (
    SecureDirectory env_recovery_dir;;
    ReadRegistry true;;
    catch (OpenDatabase open_fuel false)
      (λ f,
        corrupt ← gets corrupt_;
        if negb (corrupt_code f.(f_sqlite)) && negb corrupt then lift (Throw f)
        else RetireDatabase true;; OpenDatabase open_fuel true);;
    mret true)
    (λ _, modify (set_fenced_ true);; mret false).

(** ** Ensure *)

(** The registry was replaced since it was last read. *)
Definition registry_changed (a b : file_stat) : bool :=
  negb (a.(st_dev) =? b.(st_dev)) || negb (a.(st_ino) =? b.(st_ino)) ||
  negb (a.(st_size) =? b.(st_size)) || negb (a.(st_mtim_sec) =? b.(st_mtim_sec)) ||
  negb (a.(st_mtim_nsec) =? b.(st_mtim_nsec)).

Definition ensure_registry : M () :=
  r ← observe env_lstat_registry;
  match r with
  | StatErrno _ => throw kStorage "definition registry missing: re-registration required"
  | StatOk st =>
      SecureFile st;;
      known ← gets registry_identity_;
      if registry_changed st known
      then modify (set_fenced_ true);; ReadRegistry false
      else mret ()
  end.

(** Replace the database; [present] is [rc == 0]. *)
Definition recover (present : bool) : M () :=
  modify (set_fenced_ true);; RetireDatabase present;; OpenDatabase open_fuel true.

(** The opened file is still the one at [path_], with its incarnation, which
    is only read when the file is the same. *)
Definition same_database (file : option file_stat) : M bool :=
  identity ← gets db_identity_;
  if match file with
     | Some st => (st.(st_dev) =? identity.(st_dev)) && (st.(st_ino) =? identity.(st_ino))
     | None => false
     end
  then
    incarnation ← query db_incarnation;
    expected ← gets expected_incarnation_;
    mret (bool_decide (incarnation = Some expected))
  else mret false.

(** [None] when [lstat] fails with [ENOENT]. *)
Definition stat_database : M (option file_stat) :=
  r ← observe env_lstat_db;
  match r with
  | StatErrno errno => require (errno =? ENOENT) kStorage "database stat failed";; mret None
  | StatOk st =>
      SecureFile st;;
      (if st.(st_size) <? 512 then modify (set_corrupt_ true) else mret ());;
      mret (Some st)
  end.

Definition Ensure : M () :=
  failed ← gets profile_compensation_failed_;
  require (negb failed) kStorage "profile approval compensation requires daemon restart";;
  is_open ← gets db_open_;
  require is_open kStorage "database unavailable";;
  directory ← Parent env_path;
  SecureDirectory directory;;
  SecureDirectory env_recovery_dir;;
  ensure_registry;;
  file ← stat_database;
  corrupt ← gets corrupt_;
  if (corrupt : bool) then recover (bool_decide (is_Some file))
  else
    same ← same_database file;
    fenced ← gets fenced_;
    (if negb same then recover (bool_decide (is_Some file))
     else if (fenced : bool) then Replay else mret ());;
    fenced ← gets fenced_;
    require (negb fenced) kStorage "repository is fenced".

Definition Snapshot : M Message :=
  Ensure;;
  revision ← query db_revision;
  modify (set_revision_ revision);;
  enabled ← profiles_enabled;
  w ← gets (λ w, w);
  mret (list_to_map [("status", "0"); ("epoch", w.(epoch_)); ("revision", to_string revision);
                     ("source", "DAEMON");
                     ("profile_authority", if enabled : bool then "1" else "0");
                     ("cleanup_reconciliation_required",
                       if w.(cleanup_unknown_) then "1" else "0")]).

(** ** FenceProfiles *)

Definition profiles_bindings : M (list ProfileBinding) :=
  match env_profiles with
  | None => mret []
  | Some f => observe (λ n, (f n).(ps_bindings))
  end.

(** The part of [FenceProfiles] for one binding. *)
Definition fence_binding (retire_grants : bool) (removed_user : string)
  (binding : ProfileBinding) : M () :=
  let subject := binding.(b_subject) in
  let profile := binding.(b_profile) in
  sessions ← query (λ d, filter (λ s, eqs s.(s_subject) subject && eqs s.(s_profile) profile &&
                                      session_live s = true) d.(db_sessions));
  for_each (s_id <$> sessions) CloseSession;;
  statement (upd_requests
    (λ r, eqs r.(r_subject) subject && eqs r.(r_profile) profile &&
          (eqs r.(r_state) "PENDING" || eqs r.(r_state) "ALLOWED"))
    (λ r, set_r_token "" (set_r_state "INVALIDATED" r)));;
  if retire_grants || (negb (empty removed_user) && eqs binding.(b_user) removed_user)
  then statement (upd_grants (λ g, eqs g.(g_subject) subject && eqs g.(g_profile) profile)
                    (set_g_revoked 1))
  else mret ().

(** The receipts whose payload names a configured profile. *)
Definition fenced_receipts (ids : list string) (a : auth_row) : M (list string) :=
  payload ← lift (Unpack a.(a_payload));
  bindings ← profiles_bindings;
  mret (if existsb (λ b, eqs (Get payload "subject") b.(b_subject) &&
                         eqs (Get payload "profile") b.(b_profile)) bindings
        then ids ++ [a.(a_id)] else ids).

(** The transaction of [FenceProfiles]. *)
Definition fence_transaction (retire_grants : bool) (removed_user : string) : M () :=
  transaction (
    bindings ← profiles_bindings;
    for_each bindings (fence_binding retire_grants removed_user);;
    receipts ← query (λ d, filter (λ a, (a.(a_valid) =? 1) = true) d.(db_authorizations));
    invalid ← fold_m receipts fenced_receipts [];
    for_each invalid (λ id, statement (upd_authorizations (λ a, eqs a.(a_id) id)
                                         (set_a_valid 0)));;
    FinishCleanup;;
    Bump;;
    Commit).

Definition FenceProfiles (retire_grants : bool) (removed_user : string) : M () :=
  enabled ← profiles_enabled;
  if negb enabled then mret ()
  else Ensure;; fence_transaction retire_grants removed_user.

(** ** CompactMetadata *)

Definition terminal_request (r : request_row) : bool :=
  eqs r.(r_state) "ALLOWED" || eqs r.(r_state) "DENIED" || eqs r.(r_state) "CANCELLED" ||
  eqs r.(r_state) "EXPIRED" || eqs r.(r_state) "INVALIDATED".

(** The candidate query of class [type], as ids and payloads. *)
Definition compact_candidates (type : Z) (d : DB) : list (string * string) :=
  if type =? 0 then
    (λ a, (a.(a_id), "")) <$>
      filter (λ a, (a.(a_valid) =? 0) && (negb (eqs a.(a_payload) "") ||
                    exists_row (λ e, eqs e.1 a.(a_id)) d.(db_authorization_grants)) = true)
        d.(db_authorizations)
  else if type =? 1 then
    (λ r, (r.(r_id), r.(r_payload))) <$>
      filter (λ r, terminal_request r && (negb (eqs r.(r_token) "") ||
                    negb (eqs r.(r_ui_owner) "") || negb (eqs r.(r_ui_instance) "")) = true)
        d.(db_requests)
  else if type =? 2 then
    (λ s, (s.(s_id), "")) <$>
      filter (λ s, eqs s.(s_state) "CLOSED" && negb (eqs s.(s_resume_hash) "") = true)
        d.(db_sessions)
  else
    (λ g, (g.(g_id), "")) <$>
      filter (λ g, negb (g.(g_revoked) =? 0) &&
                   negb (exists_row (λ e, eqs e.2 g.(g_id)) d.(db_authorization_grants)) &&
                   negb (exists_row (λ e, eqs e.2 g.(g_id)) d.(db_artifact_grants)) = true)
        d.(db_grants).

(** Class 0: the unusable payload and the edges of an invalid receipt. *)
Definition compact_receipt (id : string) (d : DB) : DB :=
  let d := upd_authorizations (λ a, eqs a.(a_id) id && (a.(a_valid) =? 0)) (set_a_payload "") d in
  set_db_authorization_grants
    (filter (λ e, negb (eqs e.1 id) = true) d.(db_authorization_grants)) d.

(** Class 1: the UI binding of a decided request. *)
Definition compact_request (id payload : string) (d : DB) : DB :=
  upd_requests (λ r, eqs r.(r_id) id)
    (λ r, set_r_payload payload (set_r_ui_instance "" (set_r_ui_owner "" (set_r_token "" r)))) d.

Definition compact_record (type : Z) (record : string * string) : M () :=
  let (id, stored) := record in
  if type =? 0 then statement (compact_receipt id)
  else if type =? 1 then
    payload ← lift (Unpack stored);
    let payload := foldl (λ m field, delete field m) payload
                     ["prompt_token"; "ui_owner"; "ui_instance"; "_prompt_locale"] in
    statement (compact_request id (Pack payload))
  else if type =? 2 then
    statement (upd_sessions (λ s, eqs s.(s_id) id) (set_s_resume_hash ""))
  else statement (λ d, set_db_grants (filter (λ g, negb (eqs g.(g_id) id) = true) d.(db_grants)) d).

(** One class; the state is the number of records compacted so far. *)
Definition compact_class (compacted : Z) (offset : Z) : M Z :=
  if negb (compacted <? kMaintenanceLimit) then mret compacted
  else
    class ← gets maintenance_class_;
    let type := (class + offset) mod 4 in
    records ← query (λ d, take (Z.to_nat (kMaintenanceLimit - compacted))
                            (compact_candidates type d));
    for_each records (compact_record type);;
    mret (compacted + Z.of_nat (length records)).

Definition CompactMetadata : M Z :=
  transaction (
    compacted ← fold_m (seqZ 0 4) compact_class 0;
    Commit;;
    class ← gets maintenance_class_;
    modify (set_maintenance_class_ ((class + 1) mod 4));;
    mret compacted).
End database.

(** ** Compaction is a run of the life cycle *)

(** What the candidate query of a class has established about a record. *)
Definition compact_ready (type : Z) (d : DB) (id : string) : Prop :=
  if type =? 0 then ∀ a, a ∈ d.(db_authorizations) → a.(a_id) = id → a.(a_valid) = 0
  else if type =? 1 then ∀ r, r ∈ d.(db_requests) → r.(r_id) = id → r.(r_state) ∈ decided
  else if type =? 2 then ∀ s, s ∈ d.(db_sessions) → s.(s_id) = id → s.(s_state) = "CLOSED"
  else (∀ g, g ∈ d.(db_grants) → g.(g_id) = id → g.(g_revoked) ≠ 0) ∧
       (id ∉ d.(db_authorization_grants).*2) ∧ (id ∉ d.(db_artifact_grants).*2).

Lemma terminal_request_decided r : terminal_request r = true → r.(r_state) ∈ decided.
Proof.
  unfold terminal_request, decided. rewrite !orb_true_iff, !eqs_true, !elem_of_cons. tauto.
Qed.

Lemma exists_edge_false id (edges : list (string * string)) :
  exists_row (λ e, eqs e.2 id) edges = false → id ∉ edges.*2.
Proof.
  rewrite exists_row_false. intros He ([x y] & -> & Hin)%list_elem_of_fmap.
  specialize (He _ Hin). simpl in He. by rewrite eqs_refl in He.
Qed.

Lemma candidates_ready type d record :
  wf d → record ∈ compact_candidates type d → compact_ready type d record.1.
Proof.
  intros Hw. unfold compact_candidates, compact_ready.
  destruct (type =? 0); [|destruct (type =? 1); [|destruct (type =? 2)]];
    intros (x & -> & [Hp Hx]%list_elem_of_filter)%list_elem_of_fmap; str_hyps; simpl.
  - intros a Ha Hid. rewrite (key_inj a_id _ a x (key_auths _ Hw)); [lia|done..].
  - intros r Hr Hid. rewrite (key_inj r_id _ r x (key_requests _ Hw)) by done.
    by apply terminal_request_decided.
  - intros s Hs Hid. by rewrite (key_inj s_id _ s x (key_sessions _ Hw)).
  - split; [|split; by apply exists_edge_false].
    intros g Hg Hid. rewrite (key_inj g_id _ g x (key_grants _ Hw)) by done. lia.
Qed.

Section compact_runs.
Context `{Platform} `{Env}.

Lemma runs_compact_receipt id d :
  compact_ready 0 d id → runs d (compact_receipt id d).
Proof.
  intros Hr. unfold compact_receipt. etransitivity.
  - apply (runs_upd_authorizations _ (λ a, eqs a.(a_id) id && (a.(a_valid) =? 0))).
    intros a _ Ha. str_hyps. apply an_forget. lia.
  - apply runs_step. apply step_unlink. simpl.
    intros a (a0 & Ha0 & ->)%elem_of_update_where Hid. specialize (Hr _ Ha0).
    destruct (_ && _); simpl in *; auto.
Qed.

Lemma evolves_compact_record type record w :
  compact_ready type (w_db w) record.1 → evolves_at runs (compact_record type record) w.
Proof.
  unfold compact_ready, compact_record. destruct record as [id stored]. simpl.
  destruct (type =? 0); [|destruct (type =? 1); [|destruct (type =? 2)]]; intros Hr.
  - by apply evolves_statement_at; [apply _|]; apply runs_compact_receipt.
  - at_reads. apply evolves_statement_at; [apply _|]; apply runs_upd_requests. intros r Hin Hid. str_hyps.
    apply rn_compact. by apply Hr.
  - apply evolves_statement_at; [apply _|]; apply runs_upd_sessions. intros s Hin Hid. str_hyps.
    apply sn_forget. by apply Hr.
  - destruct Hr as (Hg & Hl & Hs). apply evolves_statement_at; [apply _|]; apply runs_step. by apply step_reclaim.
Qed.

(** Compacting one record does not disturb the others. *)
Lemma compact_record_keeps type record w w' u id :
  compact_record type record w = (w', Ret u) →
  compact_ready type (w_db w) id → compact_ready type (w_db w') id.
Proof.
  unfold compact_ready, compact_record. destruct record as [id' stored].
  destruct (type =? 0); [|destruct (type =? 1); [|destruct (type =? 2)]]; intros Hrun Hr.
  - run_steps Hrun. simpl. intros a (a0 & Ha0 & ->)%elem_of_update_where Hid.
    specialize (Hr _ Ha0). destruct (_ && _); simpl in *; auto.
  - run Hrun as Hu. run_steps Hrun. simpl. intros r (r0 & Hr0 & ->)%elem_of_update_where Hid.
    specialize (Hr _ Hr0). destruct (eqs _ _); simpl in *; auto.
  - run_steps Hrun. simpl. intros s (s0 & Hs0 & ->)%elem_of_update_where Hid.
    specialize (Hr _ Hs0). destruct (eqs _ _); simpl in *; auto.
  - run_steps Hrun. simpl. destruct Hr as (Hg & Hl & Hs). split; [|done].
    intros g [_ Hin]%list_elem_of_filter. by apply Hg.
Qed.

Lemma evolves_compact_class compacted offset : evolves runs (compact_class compacted offset).
Proof.
  intros w. apply evolves_at_guarded.
  { unfold compact_class, compact_record. solve_evolves; exact I. }
  intros Hw. unfold compact_class.
  destruct (negb _); [apply evolves_here; solve_evolves|].
  at_read as Hc Hdb1. run_steps Hc. clear Hdb1. at_read as Hq Hdb2. run_steps Hq. clear Hdb2.
  apply evolves_then; [apply _| |intros ?; solve_evolves].
  set (type := (maintenance_class_ w + offset) mod 4).
  set (records := take _ _).
  apply (evolves_for_each_at _ (λ w, ∀ r, r ∈ records → compact_ready type (w_db w) r.1)).
  - intros r Hr. apply candidates_ready; [done|]. 
    apply elem_of_take in Hr as (i & Hi & _). by eapply list_elem_of_lookup_2.
  - intros r w1 Hin Hr. split; [by apply evolves_compact_record, Hr|].
    intros w2 u Hrun r2 Hr2. by eapply compact_record_keeps, Hr.
Qed.

Hint Resolve evolves_compact_class : consent.

Lemma evolves_CompactMetadata : evolves runs CompactMetadata.
Proof. unfold CompactMetadata. solve_evolves. Qed.

Lemma reads_profiles_bindings : reads profiles_bindings.
Proof. unfold reads, profiles_bindings. solve_evolves. Qed.

Hint Resolve reads_profiles_bindings : consent.

Lemma evolves_fence_binding retire removed binding : evolves runs (fence_binding retire removed binding).
Proof. unfold fence_binding. solve_evolves. Qed.

Lemma reads_fenced_receipts ids a : reads (fenced_receipts ids a).
Proof. unfold reads, fenced_receipts. solve_evolves. Qed.

Hint Resolve evolves_fence_binding reads_fenced_receipts : consent.

Lemma evolves_fence_transaction retire removed : evolves runs (fence_transaction retire removed).
Proof. unfold fence_transaction. solve_evolves. Qed.
End compact_runs.

#[export] Hint Resolve evolves_CompactMetadata reads_profiles_bindings evolves_fence_binding
  reads_fenced_receipts evolves_fence_transaction : consent.

(** ** Recovery keeps integrity

    A database file found on disk is adopted as it is; under the assumption
    that such files are well-formed, every path of [Ensure] ends in a
    well-formed database. *)

Lemma keeps_incarnation v d : keeps wf d (set_db_incarnation v d).
Proof. intros Hw. by wf_split. Qed.

Lemma keeps_cleanup_unknown v d : keeps wf d (set_db_cleanup_unknown v d).
Proof. intros Hw. by wf_split. Qed.

Section recovery.
Context `{Platform} `{Env} (adopted : ∀ n, wf (env_content n)).

Lemma reads_RetireDatabase main_file : reads (RetireDatabase main_file).
Proof. unfold reads, RetireDatabase. solve_evolves. Qed.

Hint Resolve reads_RetireDatabase : consent.

Lemma reads_prepare_file recovering : reads (prepare_file recovering).
Proof. unfold reads, prepare_file. solve_evolves. Qed.

Hint Resolve reads_prepare_file keeps_incarnation keeps_cleanup_unknown : consent.

Lemma evolves_open_handle existed : evolves (keeps wf) (open_handle existed).
Proof.
  intros w. unfold open_handle. do 9 (apply evolves_bind_reads;
    [apply _|unfold reads; solve_evolves|]; intros ? ? _ _).
  apply evolves_bind_reads; [apply _|unfold reads; solve_evolves|]. intros content wc Hrun _.
  apply run_observe in Hrun as [-> ->].
  apply evolves_then; [apply _| |intros ?; solve_evolves].
  apply evolves_statement_at; [apply _|]. intros _. destruct existed; [apply adopted|apply wf_empty].
Qed.

Hint Resolve evolves_open_handle : consent.

Lemma evolves_adopt_database recovering incarnation :
  evolves (keeps wf) (adopt_database recovering incarnation).
Proof. unfold adopt_database. solve_evolves. Qed.

Hint Resolve evolves_adopt_database : consent.

Lemma evolves_OpenDatabase fuel recovering : evolves (keeps wf) (OpenDatabase fuel recovering).
Proof.
  revert recovering. induction fuel as [|fuel IH]; intros recovering; simpl; solve_evolves.
Qed.

Hint Resolve evolves_OpenDatabase : consent.

Lemma evolves_Open : evolves (keeps wf) Open.
Proof. unfold Open. solve_evolves. Qed.

Lemma reads_ensure_registry : reads ensure_registry.
Proof. unfold reads, ensure_registry. solve_evolves. Qed.

Lemma reads_same_database file : reads (same_database file).
Proof. unfold reads, same_database. solve_evolves. Qed.

Lemma reads_stat_database : reads stat_database.
Proof. unfold reads, stat_database. solve_evolves. Qed.

Hint Resolve reads_ensure_registry reads_stat_database reads_same_database : consent.

Lemma evolves_recover present : evolves (keeps wf) (recover present).
Proof. unfold recover. solve_evolves. Qed.

Hint Resolve evolves_recover : consent.

Lemma evolves_Ensure : evolves (keeps wf) Ensure.
Proof. unfold Ensure. solve_evolves. Qed.

Hint Resolve evolves_Ensure : consent.

Lemma evolves_Snapshot : evolves (keeps wf) Snapshot.
Proof. unfold Snapshot. solve_evolves. Qed.

Lemma evolves_FenceProfiles retire removed : evolves (keeps wf) (FenceProfiles retire removed).
Proof. unfold FenceProfiles. solve_evolves. Qed.
End recovery.
