(* ===== verification/Repository.v ===== *)
(** * The repository interface (src/consentd/repository.cc: Execute,
    ImportOfflineRegistration, Maintain, Tick, Shutdown)

    [Execute] dispatches one authenticated request between two [Ensure]
    barriers and publishes its result only if the epoch, the installation
    authority and the profile generation did not change meanwhile. *)
From S2P Require Import Prelude Strings Platform Message Packing Localization Registration.
From S2P Require Import ProfileState Store Exec Logic Lifecycle Sessions Grants Requests Prompts.
From S2P Require Import Artifacts Registry Database.

Section repository.
Context `{Platform} `{Env}.

(** The [catch (const Failure&)] of every entry point. *)
Definition failure_flags (f : Failure) : M () :=
  (if corrupt_code f.(f_sqlite) then modify (set_corrupt_ true) else mret ());;
  (if f.(f_status) =? kStorage then modify (set_fenced_ true) else mret ()).

Definition failure_reply (f : Failure) : M Message :=
  failure_flags f;;
  epoch ← gets epoch_;
  mret (list_to_map [("status", to_string f.(f_status)); ("reason", f.(f_reason));
                     ("epoch", epoch); ("source", "DAEMON")]).

(** [profiles_ ? profiles_->Generation() : 0] at the start of an operation. *)
Definition begin_operation : M Z :=
  generation ← profiles_generation;
  modify (set_operation_profile_generation_ generation);;
  modify (set_new_profile_grants_ []);;
  modify (set_new_profile_request_ "");;
  mret generation.

(** [check] on retained data. *)
Definition reuse_data (request : Message) : bool :=
  eqs (Get request "method") "check" && eqs (Get request "operation") "reuse-data".

Definition dispatch (peer : Peer) (request : Message) : M Message :=
  let method := Get request "method" in
  if eqs method "register" || eqs method "update" || eqs method "unregister" then
    Register peer request (eqs method "unregister")
  else if eqs method "request" || eqs method "check" then
    if reuse_data request then Data peer (<["method" := "data_check"]> request)
    else Evaluate peer request (eqs method "request")
  else if eqs method "get_prompt" || eqs method "respond" then
    Prompt peer request (eqs method "respond")
  else if eqs method "get_request_result" || eqs method "result" ||
          eqs method "cancel_request" || eqs method "cancel" then
    Result peer request (eqs method "cancel" || eqs method "cancel_request")
  else if starts_with "session_" method || eqs method "cleanup_get_state" then
    Session peer request
  else if starts_with "data_" method || eqs method "cleanup_ack" || eqs method "cleanup_list" then
    Data peer request
  else if eqs method "revoke" then Revoke peer request
  else if eqs method "hello" then mret {["approval_version" := "1"]}
  else if negb (eqs method "snapshot") && negb (eqs method "subscribe") then
    throw (- ENOSYS) "unsupported method"
  else mret ∅.

(** The message whose definitions are validated again before the reply. *)
Definition validated_message (request : Message) : M Message :=
  let method := Get request "method" in
  if eqs method "respond" || eqs method "get_prompt" then
    stored ← query (request_by_id (Get request "request_id"));
    match stored with Some r => lift (Unpack r.(r_payload)) | None => mret request end
  else if eqs method "data_register" then
    stored ← query (authorization_by_id (Get request "receipt"));
    match stored with Some a => lift (Unpack a.(a_payload)) | None => mret request end
  else mret request.

Definition checked_definitions (request validated : Message) : outcome (gset string) :=
  let method := Get request "method" in
  let first : gset string :=
    if eqs method "register" || eqs method "update" then {[Get request "definition"]} else ∅ in
  if eqs method "request" || eqs method "check" || eqs method "respond" ||
     eqs method "get_prompt" || eqs method "data_register" then
    count ← Number validated "count" 0 0 16;
    Ret (first ∪ list_to_set ((λ i, row_get validated i "definition") <$> seqZ 0 count))
  else Ret first.

(** The installation authority is asked again for one definition. *)
Definition revalidate (id : string) : M () :=
  definitions ← gets definitions_;
  match definitions !! id with
  | None => mret ()
  | Some definition =>
      if negb (eqs (Get definition "active") "1") then mret ()
      else
        ok ← installed definition;
        require ok (- ESTALE) "installation changed before reply publication"
  end.

Definition data_check (request : Message) : bool :=
  eqs (Get request "method") "data_check" || reuse_data request.

(** Retained data is validated again before it is published. *)
Definition revalidate_artifact (peer : Peer) (request result : Message) : M () :=
  let method := Get request "method" in
  if data_check request || eqs method "data_register" || eqs method "data_register_derived" then
    ValidateArtifactProvenance peer request
      (if data_check request then Get request "artifact" else Get result "artifact")
  else mret ().

Definition sensitive (request result : Message) : bool :=
  let method := Get request "method" in
  bool_decide (method ∈ ["request"; "check"; "respond"; "get_prompt"; "session_open";
                         "session_resume"; "session_heartbeat"; "data_register";
                         "data_register_derived"; "data_check"]) ||
  ((eqs method "result" || eqs method "get_request_result") &&
   eqs (Get result "decision") "ALLOWED").

(** Everything between the operation and its reply. *)
Definition publish (peer : Peer) (request result : Message) (epoch : string) (generation : Z)
  : M Message :=
  Ensure;;
  current ← gets epoch_;
  require (eqs epoch current) (- ESTALE) "database generation changed before reply";;
  validated ← validated_message request;
  ids ← lift (checked_definitions request validated);
  for_each (merge_sort string_le (elements ids)) revalidate;;
  revalidate_artifact peer request result;;
  metadata ← Snapshot;
  require (eqs (Get metadata "epoch") epoch) (- ESTALE)
    "database generation changed during final publication snapshot";;
  result ←
    (if sensitive request result && bool_decide (is_Some env_profiles) then
       now ← profiles_generation;
       require (generation =? now) (- ESTALE) "profile generation changed before reply";;
       mret (<["profile_generation" := to_string generation]> result)
     else mret result);
  mret (<["status" := "0"]> (result ∪ metadata)).

Definition Execute (peer : Peer) (request : Message) : M Message :=
  catch (
    Ensure;;
    epoch ← gets epoch_;
    generation ← begin_operation;
    Expire;;
    require (negb (empty peer.(p_identity)) && negb (empty peer.(p_instance))) (- EACCES)
      "authenticated caller identity required";;
    result ← dispatch peer request;
    publish peer request result epoch generation)
    failure_reply.

(** ** ImportOfflineRegistration *)

(** The syntactic checks on an offline record. *)
Definition offline_fields (record : Message) : M () :=
  require (negb (bool_decide (record = ∅)) && (msize record <=? kMaxFields)) (- EINVAL)
    "invalid offline registration field count";;
  require (forallb (λ field, ValidField field.1 field.2 &&
             (registration.IsDefinitionField field.1 || eqs field.1 "operation_id" ||
              eqs field.1 "expected_generation" || eqs field.1 "method")) (items record))
    (- EINVAL) "unexpected offline registration field";;
  require (foldl (λ n field, n + (10 + size field.1 + size field.2)) 64 (items record)
           <=? kMaxFrameSize) (- E2BIG) "offline registration frame exceeds limit";;
  require (eqs (GetOr record "method" "register") "register") (- EINVAL)
    "offline import supports registration only";;
  require (Identifier (Get record "operation_id") && Identifier (Get record "expected_generation"))
    (- EINVAL) "offline registration operation and expected generation required";;
  verify (registration.ValidateDefinition record) (- EINVAL).

(** Whether the record was already retired, or is to be retired now. *)
Definition offline_obsolete (key fingerprint : string) (request : Message) : M bool :=
  operations ← gets operations_;
  match operations !! key with
  | Some prior =>
      let obsolete := starts_with "obsolete-v1:" prior in
      require (eqs (if obsolete then drop_str 12 prior else prior) fingerprint) kConflict
        "installation operation payload conflict";;
      mret obsolete
  | None =>
      obsolete ← ObsoleteOfflineRegistration request;
      (if (obsolete : bool) then
         w ← gets (λ w, w);
         WriteRegistry w.(definitions_) (<[key := "obsolete-v1:" +:+ fingerprint]> operations)
           (w.(registry_revision_) + 1);;
         Replay
       else mret ());;
      mret obsolete
  end.

Definition offline_reply (obsolete : bool) (result metadata : Message) : Message :=
  let result := <["status" := to_string (if obsolete then - ESTALE else 0)]>
                  (result ∪ metadata) in
  if obsolete
  then <["reason" := "obsolete-seed: a newer or deactivated definition is retained"]> result
  else result.

Definition import_offline (record : Message) : M Message :=
  Ensure;;
  epoch ← gets epoch_;
  offline_fields record;;
  let request := <["_install_identity" := Get record "expected_generation"]>
                   (<["method" := "register"]> record) in
  installation ← OfflineInstallationStatus request;
  require (installation =? 0) installation
    (if installation =? - ESTALE
     then "offline registration installation is absent, inactive or stale"
     else "offline installation authority validation failed before registration");;
  let key := "offline-image-v1:" +:+ Hash (Get request "operation_id") in
  let fingerprint := Hash (Pack request) in
  obsolete ← offline_obsolete key fingerprint request;
  result ← (if (obsolete : bool) then mret ∅ else CommonRegister key request false);
  Ensure;;
  current ← gets epoch_;
  require (eqs epoch current) (- ESTALE) "database changed during offline registration";;
  installation ← OfflineInstallationStatus request;
  require (installation =? 0) installation
    (if installation =? - ESTALE then "offline installation changed before publication"
     else "offline installation authority validation failed before publication");;
  metadata ← Snapshot;
  require (eqs (Get metadata "epoch") epoch) (- ESTALE)
    "database changed during offline publication snapshot";;
  mret (offline_reply obsolete result metadata).

Definition ImportOfflineRegistration (record : Message) : M Message :=
  previous ← gets offline_import_;
  modify (set_offline_import_ true);;
  result ← catch (import_offline record) failure_reply;
  modify (set_offline_import_ previous);;
  mret result.

(** ** Maintain, Tick and Shutdown *)

Definition Maintain : M Message :=
  catch (
    Ensure;;
    epoch ← gets epoch_;
    compacted ← CompactMetadata;
    result ← Snapshot;
    require (eqs (Get result "epoch") epoch) (- ESTALE)
      "database generation changed during metadata maintenance";;
    mret (<["compacted_records" := to_string compacted]> result))
    (λ f, failure_flags f;;
          mret (list_to_map [("status", to_string f.(f_status)); ("reason", f.(f_reason))])).

Definition Tick : M () :=
  catch (
    Ensure;;
    ok ← observe env_quick_check;
    (if (ok : bool) then mret ()
     else modify (set_corrupt_ true);;
          throw kStorage "runtime database corruption detected");;
    Replay;;
    Expire;;
    now ← Now;
    due ← gets maintenance_due_;
    if now >=? due then
      now ← Now;
      modify (set_maintenance_due_ (now + kMaintenanceIntervalMs));;
      CompactMetadata;; mret ()
    else mret ())
    (λ f, (if corrupt_code f.(f_sqlite) then modify (set_corrupt_ true) else mret ());;
          modify (set_fenced_ true)).

Definition Shutdown : M () :=
  w ← gets (λ w, w);
  if w.(db_open_) && negb w.(fenced_) then ResetRuntime else mret ().
End repository.

(** ** Integrity of every reachable state *)

(** The calls the rest of the daemon makes on the repository. *)
Inductive call :=
| call_open
| call_execute (peer : Peer) (request : Message)
| call_import (record : Message)
| call_maintain
| call_tick
| call_fence (retire_grants : bool) (removed_user : string)
| call_snapshot
| call_shutdown.

Section integrity.
Context `{Platform} `{Env}.

(** The state after one call, whatever it returns or throws. *)
Definition perform (c : call) (w : World) : World :=
  match c with
  | call_open => (Open w).1
  | call_execute peer request => (Execute peer request w).1
  | call_import record => (ImportOfflineRegistration record w).1
  | call_maintain => (Maintain w).1
  | call_tick => (Tick w).1
  | call_fence retire removed => (FenceProfiles retire removed w).1
  | call_snapshot => (Snapshot w).1
  | call_shutdown => (Shutdown w).1
  end.

Definition performs (w : World) (calls : list call) : World := foldl (λ w c, perform c w) w calls.

Lemma evolves_dispatch peer request : evolves runs (dispatch peer request).
Proof. unfold dispatch. solve_evolves. Qed.

Lemma reads_begin_operation : reads begin_operation.
Proof. unfold reads, begin_operation. solve_evolves. Qed.

Lemma reads_failure_flags f : reads (failure_flags f).
Proof. unfold reads, failure_flags. solve_evolves. Qed.

Hint Resolve evolves_dispatch reads_begin_operation reads_failure_flags : consent.

Lemma reads_failure_reply f : reads (failure_reply f).
Proof. unfold reads, failure_reply. solve_evolves. Qed.

Lemma reads_validated_message request : reads (validated_message request).
Proof. unfold reads, validated_message. solve_evolves. Qed.

Lemma reads_revalidate id : reads (revalidate id).
Proof. unfold reads, revalidate. solve_evolves. Qed.

Lemma reads_revalidate_artifact peer request result : reads (revalidate_artifact peer request result).
Proof. unfold reads, revalidate_artifact. solve_evolves. Qed.

Hint Resolve reads_failure_reply reads_validated_message reads_revalidate
  reads_revalidate_artifact : consent.

Lemma reads_offline_fields record : reads (offline_fields record).
Proof. unfold reads, offline_fields. solve_evolves. Qed.

Lemma evolves_offline_obsolete key fingerprint request :
  evolves runs (offline_obsolete key fingerprint request).
Proof. unfold offline_obsolete. solve_evolves. Qed.

Hint Resolve reads_offline_fields evolves_offline_obsolete : consent.

(** ** Refinement of the life cycle *)

(** The operations on an open database, in any order. *)
Inductive activity :=
| act_dispatch (peer : Peer) (request : Message)
| act_expire
| act_replay
| act_reset
| act_compact
| act_fence (retire_grants : bool) (removed_user : string).

Definition act (a : activity) (w : World) : World :=
  match a with
  | act_dispatch peer request => (dispatch peer request w).1
  | act_expire => (Expire w).1
  | act_replay => (Replay w).1
  | act_reset => (ResetRuntime w).1
  | act_compact => (CompactMetadata w).1
  | act_fence retire removed => (fence_transaction retire removed w).1
  end.

Definition acts (w : World) (l : list activity) : World := foldl (λ w a, act a w) w l.

Lemma act_runs a w : runs (w_db w) (w_db (act a w)).
Proof.
  destruct a; simpl.
  - apply evolves_dispatch.
  - apply evolves_Expire.
  - apply evolves_Replay.
  - apply evolves_ResetRuntime.
  - apply evolves_CompactMetadata.
  - apply evolves_fence_transaction.
Qed.

Lemma acts_runs l w : runs (w_db w) (w_db (acts w l)).
Proof.
  unfold acts. revert w. induction l as [|a l IH]; intros w; [reflexivity|]. simpl.
  etransitivity; [apply act_runs|apply IH].
Qed.

(** C4: the operations refine the life cycle: whatever a client request of
    any method does to the database, and likewise the expiry pass, the
    replay of the registry, the reset of the runtime state, the compaction
    and the fencing of profiles, is a sequence of steps of the transition
    system, whether the operation returns or throws and at whichever point
    it throws; and it keeps the database well-formed. *)
Theorem operations_refine a w :
  wf (w_db w) → rtc db_step (w_db w) (w_db (act a w)) ∧ wf (w_db (act a w)).
Proof.
  intros Hw. pose proof (act_runs a w Hw) as Hr. split; [done|]. by eapply rtc_wf.
Qed.

(** C32: the records only move forward over any sequence of operations.
    Sessions follow their state machine and their generation counts the
    transitions; a decided request keeps its decision except that it may be
    INVALIDATED; the tombstone of a receipt is never removed and an
    invalidated one never becomes valid again; a blocked artifact is never
    usable again and a completed deletion is final; and every later grant
    descends from an earlier one, with no more uses and still revoked if it
    was, or from one inserted in between under an unused id. *)
Theorem lifecycles w l :
  wf (w_db w) →
  (∀ s, s ∈ (w_db w).(db_sessions) → ∃ s', s' ∈ (w_db (acts w l)).(db_sessions) ∧ session_le s s') ∧
  (∀ r, r ∈ (w_db w).(db_requests) → ∃ r', r' ∈ (w_db (acts w l)).(db_requests) ∧ request_le r r') ∧
  (∀ a, a ∈ (w_db w).(db_authorizations) →
     ∃ a', a' ∈ (w_db (acts w l)).(db_authorizations) ∧ auth_le a a') ∧
  (∀ t, t ∈ (w_db w).(db_artifacts) → ∃ t', t' ∈ (w_db (acts w l)).(db_artifacts) ∧ artifact_le t t') ∧
  (∀ g', g' ∈ (w_db (acts w l)).(db_grants) →
     (∃ g, g ∈ (w_db w).(db_grants) ∧ grant_le g g') ∨
     (∃ d1 g1, rtc db_step (w_db w) d1 ∧ fresh_grant d1 g1 ∧
        (g1.(g_id) ∉ (g_id <$> d1.(db_grants))) ∧ grant_le g1 g')).
Proof.
  intros Hw. pose proof (acts_runs l w Hw) as Hr.
  split_and!; intros x Hx; [by eapply session_run_le|by eapply request_run_le|by eapply receipt_run_le|
    by eapply artifact_run_le|by eapply grant_run_history].
Qed.

(** C7: revocation is permanent.  After a revocation that returned, whatever
    operations follow, a receipt that was backed by one of the revoked grants
    is invalid and an artifact that had one of them as a source is never
    usable again. *)
Theorem revoke_permanent peer request w w' m l g :
  wf (w_db w) → Revoke peer request w = (w', Ret m) →
  g ∈ (w_db w).(db_grants) → revocation_of request g →
  (∀ a, a ∈ (w_db (acts w' l)).(db_authorizations) →
    (a.(a_id), g.(g_id)) ∈ (w_db w).(db_authorization_grants) → a.(a_valid) = 0) ∧
  (∀ t, t ∈ (w_db (acts w' l)).(db_artifacts) →
    (t.(t_id), g.(g_id)) ∈ (w_db w).(db_artifact_grants) → t.(t_state) ≠ "ACTIVE").
Proof.
  intros Hw Hrun Hg (Hd & Hs & Hp).
  assert (Hw' : wf (w_db w')).
  { eapply rtc_wf; [|exact Hw]. pose proof (evolves_Revoke peer request w) as [Hr _].
    rewrite Hrun in Hr. by apply Hr. }
  assert (Hwl : wf (w_db (acts w' l))) by (eapply rtc_wf; [by apply acts_runs|done]).
  apply Revoke_run in Hrun as [Hdb _].
  pose proof (revoke_db_grant _ _ _ _ g Hg Hd Hs Hp) as Hrev.
  split.
  - intros a Ha He.
    assert (Hin : a.(a_id) ∈ a_id <$> (w_db w').(db_authorizations)).
    { apply (ref_link_receipt _ Hw'). rewrite Hdb. simpl. by apply (list_elem_of_fmap_2 fst) in He. }
    apply list_elem_of_fmap in Hin as (a1 & Hid & Ha1).
    destruct (receipt_run_le _ _ a1 (acts_runs l w' Hw') Ha1) as (a2 & Ha2 & Hle).
    assert (a2 = a) as ->.
    { eapply (key_inj a_id); [apply (key_auths _ Hwl)|done..|].
      destruct Hle as [Hi _ _]. injection Hi as Hi. congruence. }
    apply (ale_valid _ _ Hle). rewrite Hdb in Ha1. simpl in Ha1.
    apply elem_of_update_where in Ha1 as (a0 & _ & Ea).
    destruct (source_grant _ _ _ _) eqn:E; [by rewrite Ea|].
    rewrite (source_grant_true _ _ _ _ _ Hrev) in E; [done..|].
    simpl. rewrite Ea in Hid. by rewrite <- Hid.
  - intros t Ht He.
    assert (Hin : t.(t_id) ∈ t_id <$> (w_db w').(db_artifacts)).
    { apply (ref_source_artifact _ Hw'). rewrite Hdb. simpl.
      by apply (list_elem_of_fmap_2 fst) in He. }
    apply list_elem_of_fmap in Hin as (t1 & Hid & Ht1).
    destruct (artifact_run_le _ _ t1 (acts_runs l w' Hw') Ht1) as (t2 & Ht2 & Hle).
    assert (t2 = t) as ->.
    { eapply (key_inj t_id); [apply (key_artifacts _ Hwl)|done..|].
      destruct Hle as [Hi _ _]. injection Hi as Hi. congruence. }
    apply (tle_blocked _ _ Hle). rewrite Hdb in Ht1. simpl in Ht1.
    apply elem_of_update_where in Ht1 as (t0 & _ & Ea). intros Hact.
    destruct (_ && _) eqn:E; [by rewrite Ea in Hact|]. rewrite Ea in Hact, Hid.
    rewrite Hact, eqs_refl, (source_grant_true _ _ _ _ _ Hrev) in E; [done..|].
    simpl. by rewrite <- Hid.
Qed.

Section adopted.
Context (adopted : ∀ n, wf (env_content n)).

Hint Resolve evolves_Open evolves_Ensure evolves_Snapshot evolves_FenceProfiles : consent.

Lemma evolves_publish peer request result epoch generation :
  evolves (keeps wf) (publish peer request result epoch generation).
Proof. unfold publish. solve_evolves. Qed.

Hint Resolve evolves_publish : consent.

Lemma evolves_Execute peer request : evolves (keeps wf) (Execute peer request).
Proof. unfold Execute. solve_evolves. Qed.

Lemma evolves_Import record : evolves (keeps wf) (ImportOfflineRegistration record).
Proof. unfold ImportOfflineRegistration, import_offline. solve_evolves. Qed.

Lemma evolves_Maintain : evolves (keeps wf) Maintain.
Proof. unfold Maintain. solve_evolves. Qed.

Lemma evolves_Tick : evolves (keeps wf) Tick.
Proof. unfold Tick. solve_evolves. Qed.

Lemma evolves_Shutdown : evolves (keeps wf) Shutdown.
Proof. unfold Shutdown. solve_evolves. Qed.

Lemma perform_wf c w : wf (w_db w) → wf (w_db (perform c w)).
Proof.
  intros Hw. destruct c; simpl.
  - by apply evolves_Open.
  - by apply evolves_Execute.
  - by apply evolves_Import.
  - by apply evolves_Maintain.
  - by apply evolves_Tick.
  - by apply evolves_FenceProfiles.
  - by apply evolves_Snapshot.
  - by apply evolves_Shutdown.
Qed.
End adopted.

(** C3: integrity of every reachable state.  From a well-formed database
    (the empty one is), after any sequence of calls (opening, client
    requests, offline imports, maintenance, timer ticks, profile fencing,
    snapshots, shutdown), with any clock, random source, storage failures and
    authority answers, and across recovery of the database file, the
    database is well-formed: keys and references hold, a prompt token exists
    only on a pending request, no ONCE grant is spent twice, every
    unrevoked SESSION grant and ACTIVE artifact belongs to a live session
    and a CLOSED session has only deleted artifacts.  Files found on disk
    are assumed to have been written by the daemon. *)
Theorem reachable_integrity w calls :
  (∀ n, wf (env_content n)) → wf (w_db w) → wf (w_db (performs w calls)).
Proof.
  intros Ha Hw. unfold performs. revert w Hw. induction calls as [|c calls IH]; intros w Hw; [done|].
  simpl. apply IH. by apply perform_wf.
Qed.
End integrity.
