(* ===== verification/Server.v ===== *)
(** * The daemon (src/consentd/server.cc, src/consentd/server_connection.hh,
    src/common/dispatch.cc: Post, src/common/resource.hh: Admission)

    Three kinds of threads share the server: the I/O thread owns the
    connections, parser threads decode frames, and one database thread
    executes the accepted work on the repository in order.  They exchange work
    through bounded queues.  The state [Server] has the connections, the
    queues and the repository; [step] is one turn of one of the threads, so a
    list of events is an interleaving of the threads.

    Sockets, the clock, the kernel's view of the peers and the generation of
    the profile authority are the environment [IoEnv], read at the next instant
    [s_tick].  The source objects of GLib are the flags that say whether they
    are attached. *)
From S2P Require Import Prelude Strings Platform Message Wire Packing Identity ProfileState Store.
From S2P Require Import Exec Logic Database Repository.
From Stdlib Require Import Ascii.

Definition kMaxConnections : Z := 64.
Definition kMaxJobs : Z := 128.
Definition kMaxOutput : Z := 262144.
Definition kMaxFrame : Z := 65536.

(** ** State *)

(** A frame of the output queue. *)
Record Frame := mkFrame { fr_bytes : string; fr_generation : string }.

(** [Server::Connection]; [c_sent] is what the socket has been given. *)
Record Connection := mkConnection {
  c_peer : Peer; c_process : ProcessIdentity; c_closed : bool; c_parsing : bool; c_hello : bool;
  c_inflight : Z; c_last_input : Z; c_input : string; c_output : list Frame; c_output_bytes : Z;
  c_offset : Z; c_write_started : Z; c_read_source : bool; c_write_source : bool;
  c_deadline : bool; c_sent : string;
}.

(** The jobs of the database thread. *)
Inductive job :=
| JobRequest (id : Z) (peer : Peer) (request : Message)
| JobTick
| JobFence (retire : bool) (removed : string)
| JobShutdown.

(** The callbacks posted to the I/O thread. *)
Inductive work :=
| AddWork
| ParsedWork (id : Z) (message : option Message)
| ReplyWork (id : Z) (snapshot reply : Message)
| PublishWork (snapshot : Message)
| StorageWork.

(** The server; [s_parse], [s_db] and [s_posted] are the work handed to the
    parser pool, to the database thread and to the I/O thread. *)
Record Server := mkServer {
  s_conns : gmap Z Connection; s_clients : gset Z; s_connections : Z; s_db_jobs : Z;
  s_parse_jobs : Z; s_stopping : bool; s_next_client : Z; s_published : Message;
  s_emergency : bool; s_stop_io : bool; s_parse : list (Z * string); s_db : list job; s_posted : list work;
  s_world : World; s_tick : nat;
}.

Definition set_c_peer (v : Peer) (c : Connection) : Connection :=
  mkConnection v c.(c_process) c.(c_closed) c.(c_parsing) c.(c_hello) c.(c_inflight)
  c.(c_last_input) c.(c_input) c.(c_output) c.(c_output_bytes) c.(c_offset) c.(c_write_started)
  c.(c_read_source) c.(c_write_source) c.(c_deadline) c.(c_sent).
Definition set_c_process (v : ProcessIdentity) (c : Connection) : Connection :=
  mkConnection c.(c_peer) v c.(c_closed) c.(c_parsing) c.(c_hello) c.(c_inflight)
  c.(c_last_input) c.(c_input) c.(c_output) c.(c_output_bytes) c.(c_offset) c.(c_write_started)
  c.(c_read_source) c.(c_write_source) c.(c_deadline) c.(c_sent).
Definition set_c_closed (v : bool) (c : Connection) : Connection :=
  mkConnection c.(c_peer) c.(c_process) v c.(c_parsing) c.(c_hello) c.(c_inflight)
  c.(c_last_input) c.(c_input) c.(c_output) c.(c_output_bytes) c.(c_offset) c.(c_write_started)
  c.(c_read_source) c.(c_write_source) c.(c_deadline) c.(c_sent).
Definition set_c_parsing (v : bool) (c : Connection) : Connection :=
  mkConnection c.(c_peer) c.(c_process) c.(c_closed) v c.(c_hello) c.(c_inflight)
  c.(c_last_input) c.(c_input) c.(c_output) c.(c_output_bytes) c.(c_offset) c.(c_write_started)
  c.(c_read_source) c.(c_write_source) c.(c_deadline) c.(c_sent).
Definition set_c_hello (v : bool) (c : Connection) : Connection :=
  mkConnection c.(c_peer) c.(c_process) c.(c_closed) c.(c_parsing) v c.(c_inflight)
  c.(c_last_input) c.(c_input) c.(c_output) c.(c_output_bytes) c.(c_offset) c.(c_write_started)
  c.(c_read_source) c.(c_write_source) c.(c_deadline) c.(c_sent).
Definition set_c_inflight (v : Z) (c : Connection) : Connection :=
  mkConnection c.(c_peer) c.(c_process) c.(c_closed) c.(c_parsing) c.(c_hello) v c.(c_last_input)
  c.(c_input) c.(c_output) c.(c_output_bytes) c.(c_offset) c.(c_write_started) c.(c_read_source)
  c.(c_write_source) c.(c_deadline) c.(c_sent).
Definition set_c_last_input (v : Z) (c : Connection) : Connection :=
  mkConnection c.(c_peer) c.(c_process) c.(c_closed) c.(c_parsing) c.(c_hello) c.(c_inflight) v
  c.(c_input) c.(c_output) c.(c_output_bytes) c.(c_offset) c.(c_write_started) c.(c_read_source)
  c.(c_write_source) c.(c_deadline) c.(c_sent).
Definition set_c_input (v : string) (c : Connection) : Connection :=
  mkConnection c.(c_peer) c.(c_process) c.(c_closed) c.(c_parsing) c.(c_hello) c.(c_inflight)
  c.(c_last_input) v c.(c_output) c.(c_output_bytes) c.(c_offset) c.(c_write_started)
  c.(c_read_source) c.(c_write_source) c.(c_deadline) c.(c_sent).
Definition set_c_output (v : list Frame) (c : Connection) : Connection :=
  mkConnection c.(c_peer) c.(c_process) c.(c_closed) c.(c_parsing) c.(c_hello) c.(c_inflight)
  c.(c_last_input) c.(c_input) v c.(c_output_bytes) c.(c_offset) c.(c_write_started)
  c.(c_read_source) c.(c_write_source) c.(c_deadline) c.(c_sent).
Definition set_c_output_bytes (v : Z) (c : Connection) : Connection :=
  mkConnection c.(c_peer) c.(c_process) c.(c_closed) c.(c_parsing) c.(c_hello) c.(c_inflight)
  c.(c_last_input) c.(c_input) c.(c_output) v c.(c_offset) c.(c_write_started) c.(c_read_source)
  c.(c_write_source) c.(c_deadline) c.(c_sent).
Definition set_c_offset (v : Z) (c : Connection) : Connection :=
  mkConnection c.(c_peer) c.(c_process) c.(c_closed) c.(c_parsing) c.(c_hello) c.(c_inflight)
  c.(c_last_input) c.(c_input) c.(c_output) c.(c_output_bytes) v c.(c_write_started)
  c.(c_read_source) c.(c_write_source) c.(c_deadline) c.(c_sent).
Definition set_c_write_started (v : Z) (c : Connection) : Connection :=
  mkConnection c.(c_peer) c.(c_process) c.(c_closed) c.(c_parsing) c.(c_hello) c.(c_inflight)
  c.(c_last_input) c.(c_input) c.(c_output) c.(c_output_bytes) c.(c_offset) v c.(c_read_source)
  c.(c_write_source) c.(c_deadline) c.(c_sent).
Definition set_c_read_source (v : bool) (c : Connection) : Connection :=
  mkConnection c.(c_peer) c.(c_process) c.(c_closed) c.(c_parsing) c.(c_hello) c.(c_inflight)
  c.(c_last_input) c.(c_input) c.(c_output) c.(c_output_bytes) c.(c_offset) c.(c_write_started) v
  c.(c_write_source) c.(c_deadline) c.(c_sent).
Definition set_c_write_source (v : bool) (c : Connection) : Connection :=
  mkConnection c.(c_peer) c.(c_process) c.(c_closed) c.(c_parsing) c.(c_hello) c.(c_inflight)
  c.(c_last_input) c.(c_input) c.(c_output) c.(c_output_bytes) c.(c_offset) c.(c_write_started)
  c.(c_read_source) v c.(c_deadline) c.(c_sent).
Definition set_c_deadline (v : bool) (c : Connection) : Connection :=
  mkConnection c.(c_peer) c.(c_process) c.(c_closed) c.(c_parsing) c.(c_hello) c.(c_inflight)
  c.(c_last_input) c.(c_input) c.(c_output) c.(c_output_bytes) c.(c_offset) c.(c_write_started)
  c.(c_read_source) c.(c_write_source) v c.(c_sent).
Definition set_c_sent (v : string) (c : Connection) : Connection :=
  mkConnection c.(c_peer) c.(c_process) c.(c_closed) c.(c_parsing) c.(c_hello) c.(c_inflight)
  c.(c_last_input) c.(c_input) c.(c_output) c.(c_output_bytes) c.(c_offset) c.(c_write_started)
  c.(c_read_source) c.(c_write_source) c.(c_deadline) v.

Definition set_s_conns (v : gmap Z Connection) (s : Server) : Server :=
  mkServer v s.(s_clients) s.(s_connections) s.(s_db_jobs) s.(s_parse_jobs) s.(s_stopping)
  s.(s_next_client) s.(s_published) s.(s_emergency) s.(s_stop_io) s.(s_parse) s.(s_db) s.(s_posted) s.(s_world)
  s.(s_tick).
Definition set_s_clients (v : gset Z) (s : Server) : Server :=
  mkServer s.(s_conns) v s.(s_connections) s.(s_db_jobs) s.(s_parse_jobs) s.(s_stopping)
  s.(s_next_client) s.(s_published) s.(s_emergency) s.(s_stop_io) s.(s_parse) s.(s_db) s.(s_posted) s.(s_world)
  s.(s_tick).
Definition set_s_connections (v : Z) (s : Server) : Server :=
  mkServer s.(s_conns) s.(s_clients) v s.(s_db_jobs) s.(s_parse_jobs) s.(s_stopping)
  s.(s_next_client) s.(s_published) s.(s_emergency) s.(s_stop_io) s.(s_parse) s.(s_db) s.(s_posted) s.(s_world)
  s.(s_tick).
Definition set_s_db_jobs (v : Z) (s : Server) : Server :=
  mkServer s.(s_conns) s.(s_clients) s.(s_connections) v s.(s_parse_jobs) s.(s_stopping)
  s.(s_next_client) s.(s_published) s.(s_emergency) s.(s_stop_io) s.(s_parse) s.(s_db) s.(s_posted) s.(s_world)
  s.(s_tick).
Definition set_s_parse_jobs (v : Z) (s : Server) : Server :=
  mkServer s.(s_conns) s.(s_clients) s.(s_connections) s.(s_db_jobs) v s.(s_stopping)
  s.(s_next_client) s.(s_published) s.(s_emergency) s.(s_stop_io) s.(s_parse) s.(s_db) s.(s_posted) s.(s_world)
  s.(s_tick).
Definition set_s_stopping (v : bool) (s : Server) : Server :=
  mkServer s.(s_conns) s.(s_clients) s.(s_connections) s.(s_db_jobs) s.(s_parse_jobs) v
  s.(s_next_client) s.(s_published) s.(s_emergency) s.(s_stop_io) s.(s_parse) s.(s_db) s.(s_posted) s.(s_world)
  s.(s_tick).
Definition set_s_next_client (v : Z) (s : Server) : Server :=
  mkServer s.(s_conns) s.(s_clients) s.(s_connections) s.(s_db_jobs) s.(s_parse_jobs)
  s.(s_stopping) v s.(s_published) s.(s_emergency) s.(s_stop_io) s.(s_parse) s.(s_db) s.(s_posted) s.(s_world)
  s.(s_tick).
Definition set_s_published (v : Message) (s : Server) : Server :=
  mkServer s.(s_conns) s.(s_clients) s.(s_connections) s.(s_db_jobs) s.(s_parse_jobs)
  s.(s_stopping) s.(s_next_client) v s.(s_emergency) s.(s_stop_io) s.(s_parse) s.(s_db) s.(s_posted)
  s.(s_world) s.(s_tick).
Definition set_s_emergency (v : bool) (s : Server) : Server :=
  mkServer s.(s_conns) s.(s_clients) s.(s_connections) s.(s_db_jobs) s.(s_parse_jobs)
  s.(s_stopping) s.(s_next_client) s.(s_published) v s.(s_stop_io) s.(s_parse) s.(s_db) s.(s_posted)
  s.(s_world) s.(s_tick).
Definition set_s_stop_io (v : bool) (s : Server) : Server :=
  mkServer s.(s_conns) s.(s_clients) s.(s_connections) s.(s_db_jobs) s.(s_parse_jobs)
  s.(s_stopping) s.(s_next_client) s.(s_published) s.(s_emergency) v s.(s_parse) s.(s_db) s.(s_posted)
  s.(s_world) s.(s_tick).
Definition set_s_parse (v : list (Z * string)) (s : Server) : Server :=
  mkServer s.(s_conns) s.(s_clients) s.(s_connections) s.(s_db_jobs) s.(s_parse_jobs)
  s.(s_stopping) s.(s_next_client) s.(s_published) s.(s_emergency) s.(s_stop_io) v s.(s_db) s.(s_posted)
  s.(s_world) s.(s_tick).
Definition set_s_db (v : list job) (s : Server) : Server :=
  mkServer s.(s_conns) s.(s_clients) s.(s_connections) s.(s_db_jobs) s.(s_parse_jobs)
  s.(s_stopping) s.(s_next_client) s.(s_published) s.(s_emergency) s.(s_stop_io) s.(s_parse) v s.(s_posted)
  s.(s_world) s.(s_tick).
Definition set_s_posted (v : list work) (s : Server) : Server :=
  mkServer s.(s_conns) s.(s_clients) s.(s_connections) s.(s_db_jobs) s.(s_parse_jobs)
  s.(s_stopping) s.(s_next_client) s.(s_published) s.(s_emergency) s.(s_stop_io) s.(s_parse) s.(s_db) v
  s.(s_world) s.(s_tick).
Definition set_s_world (v : World) (s : Server) : Server :=
  mkServer s.(s_conns) s.(s_clients) s.(s_connections) s.(s_db_jobs) s.(s_parse_jobs)
  s.(s_stopping) s.(s_next_client) s.(s_published) s.(s_emergency) s.(s_stop_io) s.(s_parse) s.(s_db)
  s.(s_posted) v s.(s_tick).
Definition set_s_tick (v : nat) (s : Server) : Server :=
  mkServer s.(s_conns) s.(s_clients) s.(s_connections) s.(s_db_jobs) s.(s_parse_jobs)
  s.(s_stopping) s.(s_next_client) s.(s_published) s.(s_emergency) s.(s_stop_io) s.(s_parse) s.(s_db)
  s.(s_posted) s.(s_world) v.

(** ** The environment *)

Inductive send_result := SendBlocked | SendFailed | Sent (n : Z).
Inductive recv_result := RecvBlocked | RecvEnd | Received (bytes : string).

Class IoEnv := {
  (** [g_get_monotonic_time()]. *)
  io_time : nat → Z;
  (** [g_socket_send] and [g_socket_receive] on the socket of a connection. *)
  io_send : nat → Z → string → send_result;
  io_recv : nat → Z → recv_result;
  (** The kernel's view of the peer of a connection. *)
  io_kernel : nat → Z → Kernel;
  (** The rules [identity_] has loaded. *)
  io_rules : list Rule;
  (** [profiles_->Generation()]. *)
  io_generation : nat → Z;
  (** [g_thread_pool_push] succeeds. *)
  io_push : nat → bool;
}.

(** A socket takes no more than it is offered and gives no more than asked
    for. *)
Class IoLaws `{IoEnv} : Prop := {
  send_bound : ∀ t id bytes n, io_send t id bytes = Sent n → n ≤ size bytes;
  recv_bound : ∀ t id bytes, io_recv t id = Received bytes → size bytes ≤ 8192;
}.

(** ** Handlers

    A handler of the I/O thread changes the server and returns, or throws
    ([None]), keeping what it has changed. *)
Definition Io (A : Type) : Type := Server → Server * option A.

#[export] Instance Io_ret : MRet Io := λ A a s, (s, Some a).
#[export] Instance Io_bind : MBind Io := λ A B k m s,
  match m s with
  | (s', Some a) => k a s'
  | (s', None) => (s', None)
  end.

Definition getS : Io Server := λ s, (s, Some s).
Definition modS (f : Server → Server) : Io () := λ s, (f s, Some ()).
Definition throwS {A} : Io A := λ s, (s, None).

(** Read the environment at the next instant. *)
Definition read {A} (f : nat → A) : Io A := λ s,
  (set_s_tick (S s.(s_tick)) s, Some (f s.(s_tick))).

Definition no_process : ProcessIdentity := mkProcess false 0 0 0 "" "".

(** [Peer] as it is default-initialized. *)
Definition no_peer : Peer := mkPeer (-1) uid_max uid_max "" "" "" "" ∅ ∅ ∅ ∅ ∅.

Definition new_connection : Connection :=
  mkConnection no_peer no_process false false false 0 0 "" [] 0 0 0 false false false "".

Definition closed_connection (c : Connection) : Connection :=
  set_c_input "" (set_c_output [] (set_c_deadline false (set_c_write_source false
    (set_c_read_source false (set_c_closed true c))))).

(** The connection with an id; an id that was never given is closed. *)
Definition connection (id : Z) (s : Server) : Connection :=
  default (closed_connection new_connection) (s.(s_conns) !! id).

Definition getC (id : Z) : Io Connection := s ← getS; mret (connection id s).

Definition updC (id : Z) (f : Connection → Connection) : Io () :=
  modS (λ s, set_s_conns (alter f id s.(s_conns)) s).

(** [clients_] in key order. *)
Definition client_ids (s : Server) : list Z := merge_sort Z.le (elements s.(s_clients)).

Fixpoint each {A} (l : list A) (body : A → Io ()) : Io () :=
  match l with
  | [] => mret ()
  | x :: l' => body x;; each l' body
  end.

Section server.
Context `{Platform} `{Parcel} `{Inventory} `{Env} `{IoEnv}.

(** [DispatchFailed]: the emergency source will stop the daemon. *)
Definition DispatchFailed : Io () := modS (set_s_emergency true).

(** [Dispatcher::Post] to the I/O thread: at most 512 callbacks wait. *)
Definition Post (w : work) : Io bool :=
  s ← getS;
  if Z.of_nat (length s.(s_posted)) >=? 512 then DispatchFailed;; mret false
  else modS (set_s_posted (s.(s_posted) ++ [w]));; mret true.

(** [Submit]: the job is accepted while fewer than [kMaxJobs] are held. *)
Definition Submit (j : job) : Io bool :=
  s ← getS;
  if s.(s_db_jobs) <? kMaxJobs
  then modS (λ s, set_s_db_jobs (s.(s_db_jobs) + 1) (set_s_db (s.(s_db) ++ [j]) s));; mret true
  else mret false.

(** [Error(request, status)]. *)
Definition Error (request : Message) (status : Z) : Message :=
  list_to_map [("v", "1"); ("id", Get request "id"); ("status", to_string status);
               ("method", "reply")].

Definition Close (id : Z) : Io () :=
  c ← getC id;
  if c.(c_closed) then mret ()
  else
    updC id closed_connection;;
    modS (λ s, set_s_connections (u32 (s.(s_connections) - 1))
                 (set_s_clients (s.(s_clients) ∖ {[id]}) s)).

(** ** Writing *)

(** The frame may still be sent under the current profile generation. *)
Definition current_frame (generation : Z) (f : Frame) : bool :=
  empty f.(fr_generation) || eqs f.(fr_generation) (to_string generation).

(** [n] bytes of the front frame were sent. *)
Definition sent_bytes (n : Z) (f : Frame) (rest : list Frame) (c : Connection) : Connection :=
  let bytes := f.(fr_bytes) in
  let offset := c.(c_offset) + n in
  let c := set_c_sent (c.(c_sent) +:+ substr (Z.to_nat c.(c_offset)) (Z.to_nat n) bytes)
             (set_c_output_bytes (c.(c_output_bytes) - n) c) in
  if offset =? size bytes then set_c_offset 0 (set_c_output rest c) else set_c_offset offset c.

(** The loop of [Write]. *)
Fixpoint write_loop (fuel : nat) (id : Z) : Io () :=
  match fuel with
  | O => mret ()
  | S fuel' =>
      c ← getC id;
      if c.(c_closed) then mret ()
      else
        match c.(c_output) with
        | [] => updC id (set_c_write_source false)
        | f :: rest =>
            generation ← read io_generation;
            if negb (current_frame generation f) then Close id
            else
              r ← read (λ n, io_send n id (drop_str (Z.to_nat c.(c_offset)) f.(fr_bytes)));
              match r with
              | SendBlocked => mret ()
              | SendFailed => Close id
              | Sent n =>
                  if n <=? 0 then Close id
                  else updC id (sent_bytes n f rest);; write_loop fuel' id
              end
        end
  end.

(** The bytes that wait to be sent; each turn of the loop sends at least one. *)
Definition pending_bytes (c : Connection) : string :=
  drop_str (Z.to_nat c.(c_offset)) (foldr (λ f acc, f.(fr_bytes) +:+ acc) "" c.(c_output)).

Definition Write (id : Z) : Io () :=
  c ← getC id; write_loop (S (S (String.length (pending_bytes c)))) id.

(** A frame is appended to the output. *)
Definition enqueue (bytes generation : string) (c : Connection) : Connection :=
  set_c_output (c.(c_output) ++ [mkFrame bytes generation])
    (set_c_output_bytes (c.(c_output_bytes) + size bytes) c).

Definition Queue (id : Z) (message : Message) : Io () :=
  c ← getC id;
  if c.(c_closed) then mret ()
  else
    match Encode message with
    | None => Close id
    | Some bytes =>
        if c.(c_output_bytes) + size bytes >? kMaxOutput then Close id
        else
          (if bool_decide (c.(c_output) = [])
           then t ← read io_time; updC id (set_c_write_started t) else mret ());;
          updC id (enqueue bytes (Get message "profile_generation"));;
          Write id;;
          c ← getC id;
          if c.(c_closed) || bool_decide (c.(c_output) = []) || c.(c_write_source) then mret ()
          else updC id (set_c_write_source true)
    end.

(** The event of a new snapshot. *)
Definition event_message (snapshot : Message) : Message :=
  <["event" := "invalidate"]> (<["method" := "event"]> (<["id" := "0"]>
    (<["v" := "1"]> (delete "status" snapshot)))).

Definition Publish (snapshot : Message) : Io () :=
  s ← getS;
  if eqs (Get snapshot "epoch") (Get s.(s_published) "epoch") &&
     eqs (Get snapshot "revision") (Get s.(s_published) "revision") then mret ()
  else
    modS (set_s_published snapshot);;
    each (client_ids s) (λ id,
      c ← getC id;
      if c.(c_hello) then Queue id (event_message snapshot) else mret ()).

(** ** Reading *)

Definition ArmRead (id : Z) : Io () :=
  c ← getC id;
  if c.(c_closed) || c.(c_read_source) || c.(c_parsing) then mret ()
  else updC id (set_c_read_source true).

(** [Parse]: hand a frame body to the parser pool. *)
Definition Parse (id : Z) (payload : string) : Io () :=
  s ← getS;
  if negb (s.(s_parse_jobs) <? kMaxJobs) then Close id
  else
    updC id (λ c, set_c_read_source false (set_c_parsing true c));;
    pushed ← read io_push;
    if negb pushed then Close id
    else modS (λ s, set_s_parse_jobs (s.(s_parse_jobs) + 1)
                      (set_s_parse (s.(s_parse) ++ [(id, payload)]) s)).

(** A complete frame at the head of the input: its body and the rest. *)
Definition take_frame (input : string) : option (string * string) :=
  if size input <? 4 then None
  else
    let n := Z.to_nat (frame_size input) in
    if size input >=? frame_size input + 4
    then Some (take_str n (drop_str 4 input), drop_str n (drop_str 4 input)) else None.

(** The header announces an empty or too large frame. *)
Definition bad_frame (input : string) : bool :=
  (size input >=? 4) && ((frame_size input =? 0) || (frame_size input >? kMaxFrame)).

(** The loop of [Receive]: each turn that does not return reads at least one
    byte, and the input never exceeds a frame and one buffer. *)
Fixpoint receive_loop (fuel : nat) (id : Z) : Io () :=
  match fuel with
  | O => mret ()
  | S fuel' =>
      c ← getC id;
      if bad_frame c.(c_input) then Close id
      else
        match take_frame c.(c_input) with
        | Some (payload, rest) => updC id (set_c_input rest);; Parse id payload
        | None =>
            r ← read (λ n, io_recv n id);
            match r with
            | RecvBlocked => ArmRead id
            | RecvEnd => Close id
            | Received bytes =>
                if empty bytes then Close id
                else
                  (if empty c.(c_input) then t ← read io_time; updC id (set_c_last_input t)
                   else mret ());;
                  updC id (λ c, set_c_input (c.(c_input) +:+ bytes) c);;
                  if size c.(c_input) + size bytes >? kMaxFrame + 8192 + 4 then Close id
                  else receive_loop fuel' id
            end
        end
  end.

Definition receive_fuel : nat := Z.to_nat (kMaxFrame + 8192 + 8).

Definition Receive (id : Z) : Io () :=
  s ← getS;
  let c := connection id s in
  if c.(c_closed) || c.(c_parsing) || s.(s_stopping) then mret () else receive_loop receive_fuel id.

(** ** Executing a request *)

(** [identity_.IsAlive] of the peer of a connection. *)
Definition alive (id : Z) : Io bool :=
  c ← getC id;
  r ← read (λ n, IsAlive inv_fs (io_kernel n id) c.(c_peer).(p_pid) c.(c_peer).(p_uid) c.(c_process));
  match r with Some b => mret b | None => throwS end.

Definition internal_field (m : Message) : bool :=
  existsb (λ f, empty f.1 || front_is "_" f.1) (items m).

Definition handshake_failed (c : Connection) (request : Message) : bool :=
  negb (eqs (Get request "v") "1") || empty (Get request "method") ||
  (match ParseNumber (Get request "id") with Some id => id <=? 0 | None => true end) ||
  (negb c.(c_hello) && negb (eqs (Get request "method") "hello")).

Definition hello_reply (published request : Message) : Message :=
  <["approval_period_choice" := "1"]> (<["approval_supported_versions" := "1,2"]>
    (<["approval_version" := "1"]> (<["status" := "0"]> (<["id" := Get request "id"]>
      (<["method" := "reply"]> (<["v" := "1"]> published)))))).

Definition ExecuteRequest (id : Z) (request : Message) : Io () :=
  c ← getC id;
  if handshake_failed c request then Close id
  else
    t ← read io_time;
    updC id (set_c_last_input t);;
    if internal_field request then Queue id (Error request (- EINVAL))
    else
      live ← alive id;
      if negb live || negb (Allows c.(c_peer) (Get request "method"))
      then Queue id (Error request (- EACCES))
      else
        s ← getS;
        if (c.(c_inflight) >=? 32) || s.(s_stopping) then Queue id (Error request (- EBUSY))
        else if eqs (Get request "method") "hello" then
          updC id (set_c_hello true);;
          Queue id (hello_reply s.(s_published) request)
        else
          updC id (λ c, set_c_inflight (c.(c_inflight) + 1) c);;
          accepted ← Submit (JobRequest id c.(c_peer) request);
          if (accepted : bool) then mret ()
          else
            updC id (λ c, set_c_inflight (c.(c_inflight) - 1) c);;
            Queue id (list_to_map [("v", "1"); ("id", Get request "id"); ("method", "reply");
                                   ("status", "-16")]).

(** ** The database thread *)

(** Names of the protocol that the repository knows under another name. *)
Definition canonical_method (method : string) : string :=
  if eqs method "prompt" then "get_prompt"
  else if eqs method "session_state" then "session_get_state"
  else if eqs method "data_derived" then "data_register_derived"
  else if eqs method "cleanup" then "cleanup_get_state"
  else method.

(** The installation check of a registration: the reply that refuses it, or
    the request with the generation the daemon has read. *)
Definition install_check (method : string) (request : Message) : Message + Message :=
  if eqs method "register" || eqs method "update" then
    match GetInstallationIdentity (Get request "package") (Get request "app") with
    | Some install =>
        if eqs install (Get request "expected_generation")
        then inr (<["_install_identity" := install]> request) else inl (Error request (- EACCES))
    | None => inl (Error request (- EACCES))
    end
  else inr request.

(** The request job: the reply and the snapshot posted, the snapshot empty
    after an exception. *)
Definition request_job (peer : Peer) (request : Message) (w : World) : World * (Message * Message) :=
  let method := Get request "method" in
  let request := <["method" := canonical_method method]> request in
  let finish reply := <["method" := "reply"]> (<["id" := Get request "id"]> (<["v" := "1"]> reply)) in
  let failed := Error request kStorage in
  let '(w, reply) :=
    match install_check method request with
    | inl refused => (w, Some (refused : Message))
    | inr request =>
        match Repository.Execute peer request w with
        | (w, Ret reply) => (w, Some reply)
        | (w, Throw _) => (w, None)
        end
    end in
  match reply with
  | None => (w, (∅, finish failed))
  | Some reply =>
      match Snapshot w with
      | (w, Throw _) => (w, (∅, finish failed))
      | (w, Ret snapshot) =>
          (w, (snapshot, finish (if eqs (Get reply "status") "0" &&
                                    negb (eqs (Get reply "epoch") (Get snapshot "epoch"))
                                 then failed else reply)))
      end
  end.

(** The work a job posts to the I/O thread, if any. *)
Definition run_job (j : job) (w : World) : World * option work :=
  match j with
  | JobRequest id peer request =>
      let '(w, (snapshot, reply)) := request_job peer request w in
      (w, Some (ReplyWork id snapshot reply))
  | JobTick =>
      match (Repository.Tick;; Snapshot) w with
      | (w, Ret snapshot) => (w, Some (PublishWork snapshot))
      | (w, Throw _) => (w, Some StorageWork)
      end
  | JobFence retire removed =>
      match (FenceProfiles retire removed;; Snapshot) w with
      | (w, Ret snapshot) => (w, Some (PublishWork snapshot))
      | (w, Throw _) => (w, Some (PublishWork ∅))
      end
  | JobShutdown => ((Repository.Shutdown w).1, None)
  end.

(** ** Callbacks of the I/O thread *)

Definition same_uid (uid : Z) (s : Server) : Z :=
  Z.of_nat (length (filter (λ id, (connection id s).(c_peer).(p_uid) = uid) (client_ids s))).

Definition control_peer (p : Peer) : bool := Role p "installer" || Role p "ui" || Role p "admin".

(** [AddConnection]; an exception of [Authenticate] also stops the daemon. *)
Definition AddConnection : Io () :=
  s ← getS;
  let id := s.(s_next_client) + 1 in
  modS (λ s, set_s_next_client id (set_s_clients (s.(s_clients) ∪ {[id]})
               (set_s_conns (<[id := new_connection]> s.(s_conns)) s)));;
  peer ← (if s.(s_stopping) then mret (Some None)
          else read (λ n, Authenticate inv_fs io_rules (io_kernel n id)));
  match peer with
  | None => Close id;; DispatchFailed
  | Some None => Close id
  | Some (Some (peer, process)) =>
      updC id (λ c, set_c_process process (set_c_peer peer c));;
      s ← getS;
      if same_uid peer.(p_uid) s >? (if control_peer peer then 32 else 24) then Close id
      else
        t ← read io_time;
        updC id (set_c_last_input t);;
        ArmRead id;;
        updC id (set_c_deadline true)
  end.

(** The completion of a request. *)
Definition deliver (id : Z) (snapshot reply : Message) : Io () :=
  s ← getS;
  (if bool_decide (snapshot = ∅)
   then each (client_ids s) (λ other, if other =? id then mret () else Close other)
   else mret ());;
  Publish snapshot;;
  generation ← read io_generation;
  let wanted := Get reply "profile_generation" in
  updC id (λ c, if c.(c_inflight) =? 0 then c else set_c_inflight (c.(c_inflight) - 1) c);;
  c ← getC id;
  if negb (empty wanted) && negb (eqs wanted (to_string generation)) then
    if c.(c_closed) then mret ()
    else Queue id (list_to_map [("v", "1"); ("id", Get reply "id"); ("method", "reply");
                                ("status", to_string (- ESTALE))])
  else if c.(c_closed) then mret ()
  else
    live ← alive id;
    if (live : bool) then Queue id reply else Close id.

Definition run_work (w : work) : Io () :=
  match w with
  | AddWork => AddConnection
  | ParsedWork id message =>
      updC id (set_c_parsing false);;
      c ← getC id;
      if c.(c_closed) then mret ()
      else
        match message with
        | None => Close id
        | Some request => ExecuteRequest id request;; Receive id
        end
  | ReplyWork id snapshot reply => deliver id snapshot reply
  | PublishWork snapshot => Publish snapshot
  | StorageWork =>
      s ← getS;
      each (client_ids s) Close;;
      modS (set_s_published ∅)
  end.

(** The one-second timer of a connection. *)
Definition deadline (id : Z) : Io () :=
  now ← read io_time;
  c ← getC id;
  if (negb c.(c_hello) || negb (empty c.(c_input))) && (now - c.(c_last_input) >? 5000000)
  then Close id
  else if negb (bool_decide (c.(c_output) = [])) && (now - c.(c_write_started) >? 5000000)
  then Close id
  else mret ().

(** [StopIo]. *)
Definition StopIo : Io () :=
  s ← getS;
  each (client_ids s) Close;;
  modS (λ s, set_s_db_jobs (s.(s_db_jobs) + 1) (set_s_db (s.(s_db) ++ [JobShutdown]) s)).

(** ** Turns of the threads *)

Inductive event :=
| EvIncoming
| EvReadable (id : Z)
| EvWritable (id : Z)
| EvTimer (id : Z)
| EvIo
| EvParse (n : nat)
| EvDb
| EvTick
| EvFence (retire : bool) (removed : string)
| EvStop
| EvEmergency
| EvStopIo.

(** A callback that throws is caught by the wrapper of [Server::Post]. *)
Definition caught (m : Io ()) (s : Server) : Server :=
  match m s with (s', Some _) => s' | (s', None) => (DispatchFailed s').1 end.

(** The [incoming] signal: admission, then the connection is posted. *)
Definition incoming (s : Server) : Server :=
  if s.(s_stopping) then s
  else if negb (s.(s_connections) <? kMaxConnections) then s
  else
    match Post AddWork s with
    | (s', Some true) => set_s_connections (s'.(s_connections) + 1) s'
    | (s', _) => s'
    end.

(** [Stop]: refuse new work and wake the I/O thread, once. *)
Definition Stop (s : Server) : Server :=
  if s.(s_stopping) then s else set_s_stop_io true (set_s_stopping true s).

Definition step (e : event) (s : Server) : Server :=
  match e with
  | EvIncoming => incoming s
  | EvReadable id =>
      let c := connection id s in
      if c.(c_read_source) then
        match Receive id s with
        | (s', Some _) => s'
        | (s', None) => (Close id s').1
        end
      else s
  | EvWritable id =>
      let c := connection id s in
      if c.(c_write_source) then
        let s' := (Write id s).1 in
        let c' := connection id s' in
        if c'.(c_closed) || bool_decide (c'.(c_output) = [])
        then (updC id (set_c_write_source false) s').1 else s'
      else s
  | EvTimer id => if (connection id s).(c_deadline) then (deadline id s).1 else s
  | EvIo =>
      match s.(s_posted) with
      | [] => s
      | w :: l => caught (run_work w) (set_s_posted l s)
      end
  | EvParse n =>
      match s.(s_parse) !! n with
      | None => s
      | Some (id, payload) =>
          (Post (ParsedWork id (Decode payload))
             (set_s_parse_jobs (s.(s_parse_jobs) - 1) (set_s_parse (delete n s.(s_parse)) s))).1
      end
  | EvDb =>
      match s.(s_db) with
      | [] => s
      | j :: l =>
          let s := set_s_db l s in
          let '(w, posted) := run_job j s.(s_world) in
          let s := set_s_world w s in
          let s := match posted with None => s | Some work => (Post work s).1 end in
          set_s_db_jobs (s.(s_db_jobs) - 1) s
      end
  | EvTick => if s.(s_stopping) then s else (Submit JobTick s).1
  | EvFence retire removed => if s.(s_stopping) then s else (Submit (JobFence retire removed) s).1
  | EvStop => Stop s
  | EvEmergency => if s.(s_emergency) then Stop (set_s_emergency false s) else s
  | EvStopIo => if s.(s_stop_io) then (StopIo (set_s_stop_io false s)).1 else s
  end.

Definition run_events (s : Server) (l : list event) : Server := foldl (λ s e, step e s) s l.

(** The server before the listener starts, with an opened repository. *)
Definition started (w : World) : Server :=
  mkServer ∅ ∅ 0 0 0 false 0 ∅ false false [] [] [] w 0.
End server.
