(* ===== verification/ServerInv.v ===== *)
(** * Invariants of the daemon

    Every reachable state of [Server], under any interleaving of its threads
    and any behaviour of sockets, peers and storage, satisfies [inv]: the
    limits hold, each connection's output is a sequence of whole frames, the
    database thread is only given requests that passed admission, and the
    database keeps its integrity. *)
From S2P Require Import Prelude Strings Platform Message Wire Packing Identity ProfileState Store.
From S2P Require Import Exec Logic Lifecycle Database Repository Server.
From Stdlib Require Import Ascii.

(** ** Symbolic execution of handlers *)

Lemma io_getS {A} (k : Server → Io A) s : (getS ≫= k) s = k s s.
Proof. done. Qed.
Lemma io_getC {A} id (k : Connection → Io A) s : (getC id ≫= k) s = k (connection id s) s.
Proof. done. Qed.
Lemma io_modS {A} f (k : () → Io A) s : (modS f ≫= k) s = k () (f s).
Proof. done. Qed.
Lemma io_updC {A} id f (k : () → Io A) s :
  (updC id f ≫= k) s = k () (set_s_conns (alter f id s.(s_conns)) s).
Proof. done. Qed.
Lemma io_read {A B} (f : nat → B) (k : B → Io A) s :
  (read f ≫= k) s = k (f s.(s_tick)) (set_s_tick (S s.(s_tick)) s).
Proof. done. Qed.

Lemma io_read_upd {A B} id (f : nat → B) g (k : () → Io A) s :
  ((x ← read f; updC id (g x)) ≫= k) s =
  k () (set_s_conns (alter (g (f s.(s_tick))) id (set_s_tick (S s.(s_tick)) s).(s_conns))
          (set_s_tick (S s.(s_tick)) s)).
Proof. done. Qed.
Lemma io_ret {A B} (b : B) (k : B → Io A) s : ((mret b : Io B) ≫= k) s = k b s.
Proof. done. Qed.

(** The job is queued. *)
Definition accept (j : job) (s : Server) : Server :=
  set_s_db_jobs (s.(s_db_jobs) + 1) (set_s_db (s.(s_db) ++ [j]) s).

Lemma io_Submit {A} j (k : bool → Io A) s :
  (Submit j ≫= k) s = if s.(s_db_jobs) <? kMaxJobs then k true (accept j s) else k false s.
Proof. unfold Submit, accept, mbind, Io_bind, getS, modS, mret, Io_ret. by destruct (_ <? _). Qed.

Lemma io_alive `{Inventory} `{IoEnv} {A} id (k : bool → Io A) s :
  (alive id ≫= k) s =
  match IsAlive inv_fs (io_kernel s.(s_tick) id) (connection id s).(c_peer).(p_pid)
          (connection id s).(c_peer).(p_uid) (connection id s).(c_process) with
  | Some b => k b (set_s_tick (S s.(s_tick)) s)
  | None => (set_s_tick (S s.(s_tick)) s, None)
  end.
Proof. unfold alive, mbind, Io_bind, getC, getS, read. simpl. by destruct (IsAlive _ _ _ _ _). Qed.

(** A part that keeps [I], then the rest. *)
Lemma keep_bind {A B} (I : Server → Prop) (m : Io A) (k : A → Io B) s :
  I (m s).1 → (∀ a s', I s' → I (k a s').1) → I ((m ≫= k) s).1.
Proof. unfold mbind, Io_bind. destruct (m s) as [s' [a|]]; simpl; auto. Qed.

(** A part that never throws. *)
Definition returning {A} (m : Io A) : Prop := ∀ s, is_Some (m s).2.

Lemma keep_returning {A B} (I J : Server → Prop) (m : Io A) (k : A → Io B) s :
  returning m → I (m s).1 → (∀ a s', I s' → J (k a s').1) → J ((m ≫= k) s).1.
Proof.
  intros Ht. unfold mbind, Io_bind. destruct (Ht s) as [a Ha].
  destruct (m s) as [s' r]. simpl in *. subst r. auto.
Qed.

Lemma returning_ret {A} (a : A) : returning (mret a : Io A).
Proof. by intros s; eexists. Qed.
Lemma returning_bind {A B} (m : Io A) (k : A → Io B) :
  returning m → (∀ a, returning (k a)) → returning (m ≫= k).
Proof.
  intros Hm Hk s. unfold mbind, Io_bind. destruct (Hm s) as [a Ha].
  destruct (m s) as [s' r]. simpl in *. subst r. apply Hk.
Qed.
Lemma returning_getC id : returning (getC id).
Proof. by intros s; eexists. Qed.
Lemma returning_getS : returning getS.
Proof. by intros s; eexists. Qed.
Lemma returning_modS f : returning (modS f).
Proof. by intros s; eexists. Qed.
Lemma returning_updC id f : returning (updC id f).
Proof. by intros s; eexists. Qed.
Lemma returning_read {A} (f : nat → A) : returning (read f).
Proof. by intros s; eexists. Qed.
Lemma returning_each {A} (l : list A) (body : A → Io ()) : (∀ x, returning (body x)) → returning (each l body).
Proof. intros Hb. induction l as [|x l IH]; [apply returning_ret|]. by apply returning_bind. Qed.

#[export] Hint Resolve returning_ret returning_getC returning_getS returning_modS returning_updC returning_read returning_each : consent.

(** A handler made of parts that never throw. *)
Ltac solve_returning := repeat first
  [ progress eauto with consent
  | apply returning_bind
  | apply returning_each
  | match goal with |- ∀ _, _ => intro end
  | case_match ].

Lemma returning_Close id : returning (Close id).
Proof. unfold Close. solve_returning. Qed.
#[export] Hint Resolve returning_Close : consent.

Lemma returning_Write `{IoEnv} id : returning (Write id).
Proof.
  unfold Write. apply returning_bind; [solve_returning|]. intros c.
  generalize (S (String.length (pending_bytes c))) as fuel.
  induction fuel as [|fuel IH]; cbn [write_loop]; solve_returning.
Qed.
#[export] Hint Resolve returning_Write : consent.

Lemma returning_Queue `{Platform} `{Parcel} `{IoEnv} id m : returning (Queue id m).
Proof. unfold Queue. solve_returning. Qed.
#[export] Hint Resolve returning_Queue : consent.

Lemma returning_Publish `{Platform} `{Parcel} `{IoEnv} m : returning (Publish m).
Proof. unfold Publish. solve_returning. Qed.

Lemma fst_updC id f s : (updC id f s).1 = set_s_conns (alter f id s.(s_conns)) s.
Proof. done. Qed.

(** The bytes of a list of frames. *)
Definition frames_bytes (l : list Frame) : string := foldr (λ f acc, f.(fr_bytes) +:+ acc) "" l.

Lemma frames_bytes_app l1 l2 : frames_bytes (l1 ++ l2) = frames_bytes l1 +:+ frames_bytes l2.
Proof. induction l1 as [|f l IH]; [done|]. simpl. unfold frames_bytes in *. by rewrite IH, app_assoc_s. Qed.

Lemma drop_str_app_le n a b :
  (n ≤ String.length a)%nat → drop_str n (a +:+ b) = drop_str n a +:+ b.
Proof.
  revert n. induction a as [|c a IH]; intros [|n] Hn; simpl in *; try done; try lia.
  apply IH. lia.
Qed.

Lemma drop_drop_str n m s : drop_str n (drop_str m s) = drop_str (m + n) s.
Proof. revert s. induction m as [|m IH]; intros [|c s]; simpl; try done. by destruct n. Qed.

Lemma drop_str_all s : drop_str (String.length s) s = "".
Proof. by induction s. Qed.

Lemma count_rows_snoc {A} (p : A → bool) l x :
  count_rows p (l ++ [x]) = count_rows p l + (if p x then 1 else 0).
Proof.
  unfold count_rows. rewrite filter_app, length_app, filter_cons, filter_nil.
  destruct (p x); simpl; lia.
Qed.

Lemma count_rows_cons {A} (p : A → bool) l x :
  count_rows p (x :: l) = count_rows p l + (if p x then 1 else 0).
Proof. unfold count_rows. rewrite filter_cons. destruct (p x); simpl; lia. Qed.

Section invariant.
Context `{Platform} `{Parcel} `{Inventory} `{Env} `{IoEnv}.

(** The peer of connection [id] as the identity policy has authenticated it
    from the kernel's view of this connection's socket, before instant [t]. *)
Definition authenticated (t : nat) (id : Z) (c : Connection) : Prop :=
  ∃ n, (n < t)%nat ∧
    Authenticate inv_fs io_rules (io_kernel n id) = Some (Some (c.(c_peer), c.(c_process))).

(** At instant [n] the process behind the socket of [id] still was the one
    that was authenticated. *)
Definition alive_at (n : nat) (id : Z) (c : Connection) : Prop :=
  IsAlive inv_fs (io_kernel n id) c.(c_peer).(p_pid) c.(c_peer).(p_uid) c.(c_process) = Some true.

(** A request that connection [id] may give to the database thread. *)
Record admitted (t : nat) (id : Z) (c : Connection) (peer : Peer) (request : Message) : Prop := mk_admitted {
  ad_peer : peer = c.(c_peer);
  ad_hello : c.(c_hello) = true;
  ad_alive : ∃ n, (n < t)%nat ∧ authenticated n id c ∧ alive_at n id c;
  ad_allows : Allows peer (Get request "method") = true;
  ad_method : Get request "method" ≠ "hello";
  ad_fields : ∀ k v, request !! k = Some v → k ≠ "" ∧ front_is "_" k = false;
}.

(** The connection is still identified as it was. *)
Record identified (c c' : Connection) : Prop := mk_identified {
  id_peer : c'.(c_peer) = c.(c_peer);
  id_process : c'.(c_process) = c.(c_process);
  id_hello : c.(c_hello) = true → c'.(c_hello) = true;
}.

Lemma authenticated_mono t t' id c c' :
  (t ≤ t')%nat → identified c c' → authenticated t id c → authenticated t' id c'.
Proof. unfold authenticated. intros Ht [-> -> _] (n & Hn & Ha). exists n. split; [lia|done]. Qed.

Lemma admitted_mono t t' id c c' peer request :
  (t ≤ t')%nat → identified c c' → admitted t id c peer request → admitted t' id c' peer request.
Proof.
  intros Ht Hi [-> Hh (n & Hn & Ha & Hl) H3' H4' H5']. pose proof Hi as [Hp Hpr Hhe]. split; auto.
  exists n. split; [lia|]. split; [by eapply authenticated_mono|].
  unfold alive_at in *. by rewrite Hp, Hpr.
Qed.

#[export] Instance identified_refl : Reflexive identified.
Proof. by intros c. Qed.

(** The connections that are kept from [m] to [m'], and the new ones, which
    have no peer yet. *)
Record kept (m m' : gmap Z Connection) : Prop := mk_kept {
  kp_old : ∀ id c, m !! id = Some c → ∃ c', m' !! id = Some c' ∧ identified c c';
  kp_new : ∀ id c', m' !! id = Some c' →
    (∃ c, m !! id = Some c ∧ identified c c') ∨ c'.(c_peer) = no_peer;
}.

Lemma kept_refl m : kept m m.
Proof. split; eauto using identified_refl. Qed.

Lemma kept_alter f id m :
  (∀ c, m !! id = Some c → identified c (f c)) → kept m (alter f id m).
Proof.
  intros Hf. split.
  - intros i c Hi. destruct (decide (id = i)) as [<-|Hne].
    + exists (f c). rewrite lookup_alter_eq, Hi. auto.
    + exists c. by rewrite lookup_alter_ne.
  - intros i c'. destruct (decide (id = i)) as [<-|Hne].
    + rewrite lookup_alter_eq. intros (c & Hc & ->)%fmap_Some. left. eauto.
    + rewrite lookup_alter_ne by done. left. by exists c'.
Qed.

Lemma kept_insert id c m : m !! id = None → c.(c_peer) = no_peer → kept m (<[id := c]> m).
Proof.
  intros Hno Hc. split.
  - intros i c' Hi. exists c'. rewrite lookup_insert_ne by congruence. done.
  - intros i c' [[<- <-]|[_ Hi]]%lookup_insert_Some; [by right|left]. by exists c'.
Qed.

Definition peers_ok (t : nat) (m : gmap Z Connection) : Prop :=
  ∀ id c, m !! id = Some c → c.(c_peer) = no_peer ∨ authenticated t id c.

Definition jobs_ok (t : nat) (m : gmap Z Connection) (l : list job) : Prop :=
  ∀ id peer request, JobRequest id peer request ∈ l →
    ∃ c, m !! id = Some c ∧ admitted t id c peer request.

Lemma peers_ok_kept t t' m m' : (t ≤ t')%nat → kept m m' → peers_ok t m → peers_ok t' m'.
Proof.
  intros Ht [_ Hn] Hp id c' Hc'. destruct (Hn id c' Hc') as [(c & Hc & Hi)|]; [|by left].
  destruct (Hp id c Hc) as [Hno|Ha]; [left; by rewrite (id_peer _ _ Hi)|right].
  by eapply authenticated_mono.
Qed.

Lemma jobs_ok_kept t t' m m' l : (t ≤ t')%nat → kept m m' → jobs_ok t m l → jobs_ok t' m' l.
Proof.
  intros Ht [Ho _] Hj id peer request Hin. destruct (Hj _ _ _ Hin) as (c & Hc & Ha).
  destruct (Ho id c Hc) as (c' & Hc' & Hi). exists c'. split; [done|]. by eapply admitted_mono.
Qed.

(** A concatenation of encoded messages. *)
Definition framed (stream : string) : Prop :=
  ∃ l, stream = foldr String.append "" l ∧ Forall (λ f, ∃ m, Encode m = Some f) l.

(** The output of an open connection. *)
Record output_ok (c : Connection) : Prop := mk_output_ok {
  oo_bytes : c.(c_output_bytes) = size (pending_bytes c);
  oo_limit : c.(c_output_bytes) ≤ kMaxOutput;
  oo_offset : 0 ≤ c.(c_offset) ∧
    match c.(c_output) with [] => c.(c_offset) = 0 | f :: _ => c.(c_offset) < size f.(fr_bytes) end;
  oo_frames : Forall (λ f, f.(fr_bytes) ≠ "") c.(c_output);
  oo_stream : framed (c.(c_sent) +:+ pending_bytes c);
}.

Record conn_ok (c : Connection) : Prop := mk_conn_ok {
  co_output : c.(c_closed) = false → output_ok c;
  co_sent : ∃ rest, framed (c.(c_sent) +:+ rest);
  co_input : size c.(c_input) ≤ kMaxFrame + 8192 + 4;
}.

(** The requests of a connection that are not answered yet. *)
Definition job_of (id : Z) (j : job) : bool :=
  match j with JobRequest id' _ _ => id' =? id | _ => false end.
Definition reply_of (id : Z) (w : work) : bool :=
  match w with ReplyWork id' _ _ => id' =? id | _ => false end.
Definition outstanding (id : Z) (s : Server) : Z :=
  count_rows (job_of id) s.(s_db) + count_rows (reply_of id) s.(s_posted).

Definition is_add (w : work) : bool := match w with AddWork => true | _ => false end.

(** The invariant, while [adds] accepted sockets and the reply to [busy] are
    being handled. *)
Record inv_at (adds : Z) (busy : option Z) (s : Server) : Prop := mk_inv {
  in_conn : ∀ id c, s.(s_conns) !! id = Some c → conn_ok c;
  in_flight : ∀ id c, s.(s_conns) !! id = Some c →
    outstanding id s + (if decide (busy = Some id) then 1 else 0) ≤ c.(c_inflight) ≤ 32;
  in_clients : ∀ id, id ∈ s.(s_clients) ↔ ∃ c, s.(s_conns) !! id = Some c ∧ c.(c_closed) = false;
  in_next : ∀ id c, s.(s_conns) !! id = Some c → id ≤ s.(s_next_client);
  in_fresh : ∀ id, s.(s_next_client) < id → outstanding id s = 0;
  in_count : s.(s_connections) = Z.of_nat (base.size s.(s_clients)) + count_rows is_add s.(s_posted) + adds ∧
    s.(s_connections) ≤ kMaxConnections;
  in_db : s.(s_db_jobs) = Z.of_nat (length s.(s_db)) ∧
    s.(s_db_jobs) ≤ kMaxJobs + (if s.(s_stopping) && negb s.(s_stop_io) then 1 else 0);
  in_stop : s.(s_stop_io) = true → s.(s_stopping) = true;
  in_parse : s.(s_parse_jobs) = Z.of_nat (length s.(s_parse)) ∧ s.(s_parse_jobs) ≤ kMaxJobs;
  in_posted : Z.of_nat (length s.(s_posted)) ≤ 512;
  in_peer : peers_ok s.(s_tick) s.(s_conns);
  in_jobs : jobs_ok s.(s_tick) s.(s_conns) s.(s_db);
  in_exact : s.(s_emergency) = false → s.(s_stopping) = false →
    ∀ id c, s.(s_conns) !! id = Some c →
    c.(c_inflight) = outstanding id s + (if decide (busy = Some id) then 1 else 0);
  in_world : wf (w_db s.(s_world));
}.

Lemma inv_weaken a b s :
  b = None ∨ s.(s_emergency) = true → inv_at a b s → inv_at a None s.
Proof.
  intros Hb.
  intros [Hc Hfl Hcl Hn Hfr Hct Hdb Hsp Hp Hpo Hpe Hj Hex Hw]. split; try done.
  - intros id c Hi. specialize (Hfl _ _ Hi). repeat case_decide; (done || lia).
  - destruct Hb as [-> |Hb]; [done|congruence].
Qed.

(** ** Updates that respect the invariant *)

Lemma inv_ticks a b n s : (s.(s_tick) ≤ n)%nat → inv_at a b s → inv_at a b (set_s_tick n s).
Proof.
  intros Hle [Hc Hfl Hcl Hn Hfr Hct Hdb Hsp Hp Hpo Hpe Hj Hex Hw]. split; try done; simpl.
  - by eapply peers_ok_kept; [|apply kept_refl|].
  - by eapply jobs_ok_kept; [|apply kept_refl|].
Qed.

Lemma inv_tick a b s : inv_at a b s → inv_at a b (set_s_tick (S s.(s_tick)) s).
Proof. apply inv_ticks. lia. Qed.

Lemma inv_published a b m s : inv_at a b s → inv_at a b (set_s_published m s).
Proof. by intros []. Qed.

Lemma inv_emergency a b s : inv_at a b s → inv_at a b (set_s_emergency true s).
Proof. by intros []. Qed.

(** An update of one connection that neither closes it nor touches its
    in-flight count. *)
Lemma inv_updC a b id f s :
  inv_at a b s →
  (∀ c, s.(s_conns) !! id = Some c → conn_ok c →
    conn_ok (f c) ∧ (f c).(c_closed) = c.(c_closed) ∧ (f c).(c_inflight) = c.(c_inflight) ∧
    identified c (f c)) →
  inv_at a b (set_s_conns (alter f id s.(s_conns)) s).
Proof.
  intros [Hc Hfl Hcl Hn Hfr Hct Hdb Hsp Hp Hpo Hpe Hj Hex Hw] Hf.
  assert (Hkept : kept s.(s_conns) (alter f id s.(s_conns))).
  { apply kept_alter. intros c Hi. by apply Hf; [|eapply Hc]. }
  assert (Hlk : ∀ i c', alter f id s.(s_conns) !! i = Some c' →
            ∃ c, s.(s_conns) !! i = Some c ∧ conn_ok c' ∧ c'.(c_closed) = c.(c_closed) ∧
              c'.(c_inflight) = c.(c_inflight)).
  { intros i c'. destruct (decide (id = i)) as [<-|Hne].
    - rewrite lookup_alter_eq. destruct (s_conns s !! id) as [c|] eqn:E; simpl; [|done].
      intros [= <-]. exists c. split; [done|]. destruct (Hf c eq_refl (Hc _ _ E)) as (? & ? & ? & _). done.
    - rewrite lookup_alter_ne by done. intros Hi. exists c'. split_and!; try done. by eapply Hc. }
  split; simpl; try done.
  - intros i c' (c & _ & ? & _)%Hlk. done.
  - intros i c' (c & Hi & _ & _ & ->)%Hlk. by apply Hfl.
  - intros i. rewrite Hcl. split.
    + intros (c & Hi & Ho). destruct (decide (id = i)) as [<-|Hne].
      * exists (f c). rewrite lookup_alter_eq, Hi. split; [done|].
        destruct (Hf c Hi (Hc _ _ Hi)) as (_ & -> & _ & _). done.
      * exists c. by rewrite lookup_alter_ne.
    + intros (c' & (c & Hi & _ & Hcc & _)%Hlk & Ho). exists c. split; [done|congruence].
  - intros i c' (c & Hi & _)%Hlk. by eapply Hn.
  - by eapply peers_ok_kept.
  - by eapply jobs_ok_kept.
  - intros He Hst i c' (c & Hi & _ & _ & ->)%Hlk. by apply Hex.
Qed.

Lemma connection_open id s :
  (connection id s).(c_closed) = false → s.(s_conns) !! id = Some (connection id s).
Proof. unfold connection. by destruct (s_conns s !! id). Qed.

Lemma conn_ok_closed c : conn_ok c → conn_ok (closed_connection c).
Proof. intros [Ho Hs Hi]. split; simpl; try done. Qed.

Lemma inv_Close a b id s : 0 ≤ a → inv_at a b s → inv_at a b (Close id s).1.
Proof.
  intros Ha Hinv. unfold Close. rewrite io_getC.
  destruct (c_closed (connection id s)) eqn:Hopen; [done|].
  pose proof (connection_open id s Hopen) as Hid.
  destruct Hinv as [Hc Hfl Hcl Hn Hfr [Hct Hmax] Hdb Hsp Hp Hpo Hpe Hj Hex Hw].
  rewrite io_updC. simpl. set (c := connection id s) in *.
  assert (Hin : id ∈ s_clients s) by (apply Hcl; eauto).
  assert (Hlk : alter closed_connection id (s_conns s) = <[id := closed_connection c]> (s_conns s)).
  { apply map_eq. intros i. destruct (decide (id = i)) as [<-|].
    - by rewrite lookup_alter_eq, lookup_insert_eq, Hid.
    - by rewrite lookup_alter_ne, lookup_insert_ne. }
  assert (Hsz : Z.of_nat (base.size (s_clients s ∖ {[id]})) = Z.of_nat (base.size (s_clients s)) - 1).
  { rewrite size_difference by set_solver. rewrite size_singleton.
    assert (base.size (s_clients s) ≠ 0%nat) by (apply size_non_empty_iff; set_solver). lia. }
  assert (0 ≤ count_rows is_add (s_posted s)) by (unfold count_rows; lia).
  split; simpl; try done; rewrite ?Hlk.
  - intros i c' [[<- <-]|[_ Hi]]%lookup_insert_Some; [by apply conn_ok_closed, (Hc id)|by eapply Hc].
  - intros i c' [[<- <-]|[_ Hi]]%lookup_insert_Some; [by apply (Hfl id c)|by apply Hfl].
  - intros i. rewrite elem_of_difference, not_elem_of_singleton, Hcl. split.
    + intros [(c' & Hi & Ho) Hne]. exists c'. by rewrite lookup_insert_ne.
    + intros (c' & [[<- <-]|[Hne Hi]]%lookup_insert_Some & Ho); [done|]. split; [eauto|done].
  - intros i c' [[<- <-]|[_ Hi]]%lookup_insert_Some; [by apply (Hn id c)|by eapply Hn].
  - unfold kMaxConnections in *. rewrite u32_id by lia. lia.
  - rewrite <- Hlk. by eapply peers_ok_kept; [|by apply kept_alter|].
  - rewrite <- Hlk. by eapply jobs_ok_kept; [|by apply kept_alter|].
  - intros He Hst i c' [[<- <-]|[_ Hi]]%lookup_insert_Some; [by apply (Hex He Hst id c)|by apply Hex].
Qed.

(** ** Writing *)

Lemma pending_cons c f rest :
  c.(c_output) = f :: rest → 0 ≤ c.(c_offset) ≤ size f.(fr_bytes) →
  pending_bytes c = drop_str (Z.to_nat c.(c_offset)) f.(fr_bytes) +:+ frames_bytes rest.
Proof.
  intros Ho Hoff. unfold pending_bytes. rewrite Ho. simpl.
  apply drop_str_app_le. unfold size in *. lia.
Qed.

(** Sending moves bytes from the pending output to the socket. *)
Lemma sent_bytes_stream n f rest c :
  c.(c_output) = f :: rest → 0 ≤ c.(c_offset) → 0 < n ≤ size f.(fr_bytes) - c.(c_offset) →
  (sent_bytes n f rest c).(c_sent) +:+ pending_bytes (sent_bytes n f rest c) =
    c.(c_sent) +:+ pending_bytes c ∧
  size (pending_bytes (sent_bytes n f rest c)) = size (pending_bytes c) - n.
Proof.
  intros Ho H0' Hn. rewrite (pending_cons c f rest) by (done || lia).
  set (front := drop_str (Z.to_nat (c_offset c)) (fr_bytes f)).
  assert (Hsize : size front = size (fr_bytes f) - c_offset c).
  { unfold front, size in *. rewrite length_drop_str. lia. }
  assert (Hrest : drop_str (Z.to_nat (c_offset c + n)) (fr_bytes f) = drop_str (Z.to_nat n) front).
  { unfold front. rewrite drop_drop_str. f_equal. lia. }
  assert (Hp : pending_bytes (sent_bytes n f rest c) = drop_str (Z.to_nat n) front +:+ frames_bytes rest).
  { unfold sent_bytes. destruct (Z.eqb_spec (c_offset c + n) (size (fr_bytes f))) as [He|He].
    - unfold pending_bytes. simpl. rewrite <- Hrest, He. unfold size.
      by rewrite Nat2Z.id, drop_str_all.
    - unfold pending_bytes. simpl. rewrite Ho. simpl. rewrite drop_str_app_le by (unfold size in *; lia).
      by rewrite Hrest. }
  split.
  - rewrite Hp. assert (Hs : c_sent (sent_bytes n f rest c) = c_sent c +:+ take_str (Z.to_nat n) front).
    { unfold sent_bytes, substr. by destruct (_ =? _). }
    rewrite Hs, !app_assoc_s, <- (app_assoc_s (take_str _ _)), take_drop_str. done.
  - rewrite Hp, !size_app. unfold size in *. rewrite length_drop_str. lia.
Qed.

Lemma sent_bytes_ok n f rest c :
  conn_ok c → c.(c_closed) = false → c.(c_output) = f :: rest →
  0 < n ≤ size f.(fr_bytes) - c.(c_offset) → conn_ok (sent_bytes n f rest c).
Proof.
  intros [Hout Hs Hi] Hc Ho Hn. destruct (Hout Hc) as [Hb Hl [Hoff Hoff'] Hfr Hst].
  rewrite Ho in Hfr. apply Forall_cons in Hfr as [Hf Hne].
  destruct (sent_bytes_stream n f rest c Ho Hoff Hn) as [Hstream Hsz].
  assert (Hok : output_ok (sent_bytes n f rest c)).
  { split.
    - rewrite Hsz, <- Hb. unfold sent_bytes. by destruct (_ =? _).
    - transitivity (c_output_bytes c); [|done]. unfold sent_bytes. destruct (_ =? _); simpl; lia.
    - rewrite Ho in Hoff'. unfold sent_bytes. destruct (Z.eqb_spec (c_offset c + n) (size (fr_bytes f))); simpl.
      + split; [done|]. destruct rest as [|f' rest]; [done|]. apply Forall_cons in Hne as [Hne' _].
        destruct (fr_bytes f'); [done|]. rewrite size_cons. pose proof (size_nonneg s). lia.
      + rewrite Ho. lia.
    - unfold sent_bytes. destruct (_ =? _); simpl; [done|]. rewrite Ho. by constructor.
    - by rewrite Hstream. }
  assert (Hki : c_input (sent_bytes n f rest c) = c_input c).
  { unfold sent_bytes. by destruct (_ =? _). }
  split; [done| |by rewrite Hki].
  exists (pending_bytes (sent_bytes n f rest c)). apply Hok.
Qed.

Lemma framed_app a b m : framed a → Encode m = Some b → framed (a +:+ b).
Proof.
  intros (l & -> & Hl) Hb. exists (l ++ [b]). split.
  - induction l as [|x l IH]; simpl; [by rewrite app_nil_s, app_nil_r_s|].
    apply Forall_cons in Hl as [_ Hl]. rewrite app_assoc_s. by rewrite (IH Hl).
  - apply Forall_app_2; [done|]. apply Forall_singleton. eauto.
Qed.

Lemma enqueue_pending bytes generation c :
  output_ok c → pending_bytes (enqueue bytes generation c) = pending_bytes c +:+ bytes.
Proof.
  intros [_ _ [H0' Hoff] _ _]. unfold pending_bytes, enqueue. simpl.
  fold (frames_bytes (c_output c ++ [mkFrame bytes generation])). fold (frames_bytes (c_output c)).
  rewrite frames_bytes_app. simpl. rewrite app_nil_r_s. apply drop_str_app_le.
  destruct (c_output c) as [|f l]; [rewrite Hoff; simpl; lia|]. simpl. rewrite length_app_s.
  unfold size in Hoff. lia.
Qed.

Lemma enqueue_ok m bytes generation c :
  conn_ok c → c.(c_closed) = false → Encode m = Some bytes →
  c.(c_output_bytes) + size bytes ≤ kMaxOutput → conn_ok (enqueue bytes generation c).
Proof.
  intros [Hout Hs Hi] Hc He Hmax. pose proof (Hout Hc) as Hok. pose proof Hok as [Hb Hl Hoff Hfr Hst].
  pose proof (enqueue_pending bytes generation c Hok) as Hpend.
  split; [intros _|done|done]. split; simpl.
  - rewrite Hpend, size_app, Hb. done.
  - done.
  - destruct Hoff as [H0' Hoff]. split; [done|]. destruct (c_output c); simpl; [|done].
    rewrite Hoff. apply Encode_nonempty in He. destruct bytes; [done|]. rewrite size_cons.
    pose proof (size_nonneg bytes). lia.
  - apply Forall_app_2; [done|]. apply Forall_singleton. by eapply Encode_nonempty.
  - rewrite Hpend. rewrite <- app_assoc_s. by eapply framed_app.
Qed.

(** The fields that [conn_ok] does not speak of may change freely. *)
Lemma conn_ok_frame c c' :
  c'.(c_closed) = c.(c_closed) → c'.(c_output) = c.(c_output) →
  c'.(c_output_bytes) = c.(c_output_bytes) → c'.(c_offset) = c.(c_offset) →
  c'.(c_sent) = c.(c_sent) →
  size c'.(c_input) ≤ kMaxFrame + 8192 + 4 → conn_ok c → conn_ok c'.
Proof.
  intros Hcl Ho Hb Hoff Hse Hi [Hout Hs _].
  split; [|by rewrite Hse|done]. rewrite Hcl. intros Hc.
  destruct (Hout Hc) as [H1' H2' H3' H4' H5']. unfold pending_bytes in *.
  split; unfold pending_bytes; by rewrite ?Ho, ?Hb, ?Hoff, ?Hse.
Qed.

Lemma connection_some id s c : s.(s_conns) !! id = Some c → connection id s = c.
Proof. unfold connection. by intros ->. Qed.
End invariant.

#[export] Hint Resolve inv_tick inv_published inv_emergency : consent.

(** An update of one connection that [conn_ok] does not see. *)
Ltac frame_conn :=
  rewrite ?fst_updC; apply inv_updC;
  [|let c := fresh "c" in let Hc := fresh "Hc" in let Hk := fresh "Hok" in
    intros c Hc Hk; split_and!; [|reflexivity|reflexivity|done];
    apply (conn_ok_frame c); [reflexivity..| |exact Hk]; simpl; apply (co_input c Hk)].

Abbreviation inv := (inv_at 0 None).

Section handlers.
Context `{Platform} `{Parcel} `{Inventory} `{Env} `{IoEnv} `{!IoLaws}.

Lemma inv_write_loop a b fuel id s : 0 ≤ a → inv_at a b s → inv_at a b (write_loop fuel id s).1.
Proof.
  intros Ha. revert s. induction fuel as [|fuel IH]; intros s Hinv; [done|]. cbn [write_loop].
  rewrite io_getC. set (c := connection id s).
  destruct (c_closed c) eqn:Hc; [done|]. destruct (c_output c) as [|f rest] eqn:Ho; [by frame_conn|].
  rewrite io_read. destruct (current_frame _ f); [|by apply inv_Close, inv_tick].
  cbn [negb]. rewrite io_read. cbn [s_tick set_s_tick].
  destruct (io_send _ _ _) as [| |n] eqn:Hsend; [by do 2 apply inv_tick|by apply inv_Close, inv_tick, inv_tick|].
  destruct (Z.leb_spec n 0) as [|Hn]; [by apply inv_Close, inv_tick, inv_tick|].
  rewrite io_updC. apply IH. apply inv_updC; [by do 2 apply inv_tick|]. cbn [s_conns set_s_tick].
  pose proof (connection_open id s Hc) as Hid. fold c in Hid. rewrite Hid. intros c' [= <-] Hok.
  apply send_bound in Hsend. destruct (oo_offset _ (co_output _ Hok Hc)) as [H0' Hoff].
  rewrite Ho in Hoff. unfold size in Hsend. rewrite length_drop_str in Hsend.
  split_and!; [|by unfold sent_bytes; destruct (_ =? _)..].
  apply sent_bytes_ok; [done..|]. unfold size in *. lia.
Qed.

Lemma inv_Write a b id s : 0 ≤ a → inv_at a b s → inv_at a b (Write id s).1.
Proof. intros. unfold Write. rewrite io_getC. by apply inv_write_loop. Qed.

Lemma inv_Queue a b id m s : 0 ≤ a → inv_at a b s → inv_at a b (Queue id m s).1.
Proof.
  intros Ha Hinv. unfold Queue. rewrite io_getC. set (c := connection id s).
  destruct (c_closed c) eqn:Hc; [done|]. destruct (Encode m) as [bytes|] eqn:He; [|by apply inv_Close].
  destruct (Z.gtb_spec (c_output_bytes c + size bytes) kMaxOutput) as [|Hmax]; [by apply inv_Close|].
  pose proof (connection_open id s Hc) as Hid. fold c in Hid.
  assert (Htail : ∀ s', inv_at a b s' → inv_at a b ((Write id ≫= λ _,
    c0 ← getC id;
    if c_closed c0 || bool_decide (c_output c0 = []) || c_write_source c0 then mret ()
    else updC id (set_c_write_source true)) s').1).
  { intros s' Hs'. apply keep_bind; [by apply inv_Write|]. intros _ s2 Hs2. rewrite io_getC.
    destruct (_ || _); [done|by frame_conn]. }
  destruct (bool_decide (c_output c = [])).
  - rewrite io_read_upd, io_updC. apply Htail. apply inv_updC.
    { frame_conn. by apply inv_tick. }
    cbn [s_conns set_s_conns set_s_tick]. rewrite lookup_alter_eq, Hid. intros c' [= <-] Hok.
    split_and!; [|done..]. by eapply enqueue_ok.
  - rewrite io_ret, io_updC. apply Htail. apply inv_updC; [done|]. rewrite Hid. intros c' [= <-] Hok.
    split_and!; [|done..]. by eapply enqueue_ok.
Qed.

Lemma inv_each {A} a b (l : list A) (body : A → Io ()) s :
  (∀ x s, x ∈ l → inv_at a b s → inv_at a b (body x s).1) → inv_at a b s →
  inv_at a b (each l body s).1.
Proof.
  intros Hb. revert s. induction l as [|x l IH]; intros s Hs; [done|]. simpl.
  apply keep_bind; [apply Hb; [by left|done]|]. intros _ s' Hs'. apply IH; [|done].
  intros y s0 Hy. apply Hb. by right.
Qed.

Lemma inv_Publish a b m s : 0 ≤ a → inv_at a b s → inv_at a b (Publish m s).1.
Proof.
  intros Ha Hs. unfold Publish. rewrite io_getS. destruct (_ && _); [done|].
  rewrite io_modS. apply inv_each; [|by apply inv_published].
  intros id s' _ Hs'. rewrite io_getC. destruct (c_hello _); [by apply inv_Queue|done].
Qed.

Lemma inv_ArmRead a b id s : inv_at a b s → inv_at a b (ArmRead id s).1.
Proof. intros Hs. unfold ArmRead. rewrite io_getC. destruct (_ || _); [done|by frame_conn]. Qed.

Lemma inv_Parse a b id payload s : 0 ≤ a → inv_at a b s → inv_at a b (Parse id payload s).1.
Proof.
  intros Ha Hs. unfold Parse. rewrite io_getS.
  destruct (Z.ltb_spec (s_parse_jobs s) kMaxJobs) as [Hlt|]; [|by apply inv_Close].
  cbn [negb]. rewrite io_updC, io_read.
  match goal with |- context [set_s_tick _ ?x] => assert (Hs1 : inv_at a b x) by (by frame_conn) end.
  apply inv_tick in Hs1. destruct (io_push _); [|by apply inv_Close]. cbn [negb].
  destruct Hs1 as [Hc Hfl Hcl Hn Hfr Hct Hdb Hsp [Hp Hpm] Hpo Hpe Hj Hex Hw]. simpl in *. split; simpl; try done.
  rewrite length_app. simpl. lia.
Qed.

(** ** Reading *)

Lemma alter_alter_same {A} (f g : A → A) (i : Z) (m : gmap Z A) :
  (∀ x, f (g x) = f x) → alter f i (alter g i m) = alter f i m.
Proof.
  intros Hfg. apply map_eq. intros j. destruct (decide (i = j)) as [<-|].
  - rewrite !lookup_alter_eq. destruct (m !! i); simpl; by rewrite ?Hfg.
  - by rewrite !lookup_alter_ne.
Qed.

(** Closing forgets the input. *)
Lemma Close_forget id g s :
  (∀ c, closed_connection (g c) = closed_connection c) → (∀ c, (g c).(c_closed) = c.(c_closed)) →
  (connection id s).(c_closed) = false →
  Close id (set_s_conns (alter g id s.(s_conns)) s) = Close id s.
Proof.
  intros Hg Hc Ho. unfold Close. rewrite !io_getC.
  assert (Hopen : c_closed (connection id (set_s_conns (alter g id s.(s_conns)) s)) = false).
  { apply connection_open in Ho as Hid. unfold connection. simpl. rewrite lookup_alter_eq, Hid. simpl.
    by rewrite Hc. }
  rewrite Hopen, Ho, !io_updC. simpl. rewrite alter_alter_same by done. done.
Qed.

Lemma receive_append a b id bytes (k : Io ()) s :
  0 ≤ a → inv_at a b s → (connection id s).(c_closed) = false →
  (∀ s', inv_at a b s' → (connection id s').(c_closed) = false → inv_at a b (k s').1) →
  inv_at a b ((updC id (λ c, set_c_input (c.(c_input) +:+ bytes) c) ≫= λ _,
    if size (connection id s).(c_input) + size bytes >? kMaxFrame + 8192 + 4 then Close id else k) s).1.
Proof.
  intros Ha Hs Ho Hk. rewrite io_updC. pose proof (connection_open id s Ho) as Hid.
  destruct (Z.gtb_spec (size (c_input (connection id s)) + size bytes) (kMaxFrame + 8192 + 4)) as [Hbig|Hsmall].
  - rewrite Close_forget by done. by apply inv_Close.
  - apply Hk.
    + apply inv_updC; [done|]. rewrite Hid. intros c [= <-] Hok. split_and!; [|done..].
      eapply (conn_ok_frame (connection id s)); [reflexivity..| |done]. simpl. rewrite size_app. lia.
    + unfold connection at 1. simpl. rewrite lookup_alter_eq, Hid. done.
Qed.

Lemma take_frame_size input payload rest :
  take_frame input = Some (payload, rest) → size rest ≤ size input.
Proof.
  unfold take_frame. destruct (_ <? _); [done|]. destruct (_ >=? _); [|done]. intros Ht.
  assert (rest = drop_str (Z.to_nat (frame_size input)) (drop_str 4 input)) as -> by congruence.
  unfold size. rewrite !length_drop_str. lia.
Qed.

Lemma inv_receive_loop a b fuel id s :
  0 ≤ a → inv_at a b s → (connection id s).(c_closed) = false →
  inv_at a b (receive_loop fuel id s).1.
Proof.
  intros Ha. revert s. induction fuel as [|fuel IH]; intros s Hs Ho; [done|]. cbn [receive_loop].
  rewrite io_getC. set (c := connection id s) in *. destruct (bad_frame _); [by apply inv_Close|].
  destruct (take_frame (c_input c)) as [[payload rest]|] eqn:Ht.
  - rewrite io_updC. apply inv_Parse; [done|]. apply inv_updC; [done|].
    pose proof (connection_open id s Ho) as Hid. fold c in Hid. rewrite Hid. intros c' [= <-] Hok.
    split_and!; [|done..]. apply (conn_ok_frame c); [reflexivity..| |done].
    cbn [c_input set_c_input]. pose proof (co_input _ Hok). apply take_frame_size in Ht. lia.
  - rewrite io_read. set (s1 := set_s_tick _ s). assert (Hs1 : inv_at a b s1) by (by apply inv_tick).
    destruct (io_recv _ _) as [| |bytes] eqn:Hr; [by apply inv_ArmRead|by apply inv_Close|].
    destruct (empty bytes); [by apply inv_Close|].
    destruct (empty (c_input c)).
    + rewrite io_read_upd. set (s2 := set_s_conns _ _).
      assert (Hs2 : inv_at a b s2) by (unfold s2; frame_conn; by apply inv_tick).
      assert (Hc2 : connection id s2 = set_c_last_input (io_time (s_tick s1)) c).
      { unfold s2, connection. simpl. rewrite lookup_alter_eq.
        pose proof (connection_open id s Ho) as Hid. by rewrite Hid. }
      replace (size (c_input c)) with (size (c_input (connection id s2))) by (by rewrite Hc2).
      apply receive_append; [done|done|by rewrite Hc2|done].
    + rewrite io_ret. change (c_input c) with (c_input (connection id s1)).
      by apply receive_append.
Qed.

Lemma inv_Receive a b id s : 0 ≤ a → inv_at a b s → inv_at a b (Receive id s).1.
Proof.
  intros Ha Hs. unfold Receive. rewrite io_getS. destruct (_ || _) eqn:E; [done|].
  bool_hyps. by apply inv_receive_loop.
Qed.

(** ** Executing a request *)

Lemma Allows_no_peer m : Allows no_peer m = false.
Proof. unfold Allows, Role. simpl. repeat case_match; done. Qed.

Lemma internal_field_false m k v :
  internal_field m = false → m !! k = Some v → k ≠ "" ∧ front_is "_" k = false.
Proof.
  unfold internal_field. intros Hf Hk%elem_of_items.
  apply (proj1 (exists_row_false (λ f, empty f.1 || front_is "_" f.1) (items m)) Hf) in Hk.
  simpl in Hk. bool_hyps. split; [by intros ->|done].
Qed.

(** The in-flight count of a connection changes: the reply to [id] starts or
    stops being handled. *)
Lemma inv_inflight a b b' id f s :
  inv_at a b s →
  (∀ c, s.(s_conns) !! id = Some c → (f c).(c_closed) = c.(c_closed) ∧ (conn_ok c → conn_ok (f c)) ∧
    identified c (f c) ∧
    outstanding id s + (if decide (b' = Some id) then 1 else 0) ≤ (f c).(c_inflight) ≤ 32 ∧
    (s.(s_emergency) = false → s.(s_stopping) = false →
      (f c).(c_inflight) = outstanding id s + (if decide (b' = Some id) then 1 else 0))) →
  (∀ i, i ≠ id → b' = Some i ↔ b = Some i) →
  inv_at a b' (set_s_conns (alter f id s.(s_conns)) s).
Proof.
  intros [Hc Hfl Hcl Hn Hfr Hct Hdb Hsp Hp Hpo Hpe Hj Hex Hw] Hf Hb.
  assert (Hkept : kept s.(s_conns) (alter f id s.(s_conns))) by (apply kept_alter; apply Hf).
  assert (Hlk : ∀ i c', alter f id s.(s_conns) !! i = Some c' →
            ∃ c, s.(s_conns) !! i = Some c ∧ (i = id ∧ c' = f c ∨ i ≠ id ∧ c' = c)).
  { intros i c'. destruct (decide (id = i)) as [<-|Hne].
    - rewrite lookup_alter_eq. intros (c & Hc0 & Hf0)%fmap_Some. exists c. auto.
    - rewrite lookup_alter_ne by done. eauto. }
  split; simpl; try done.
  - intros i c' (c & Hi & [[-> ->]|[_ ->]])%Hlk; [|by eapply Hc]. apply Hf; [done|by eapply Hc].
  - intros i c' (c & Hi & [[-> ->]|[Hne ->]])%Hlk; [apply Hf; done|]. specialize (Hfl _ _ Hi).
    change (outstanding i (set_s_conns _ s)) with (outstanding i s).
    destruct (decide (b' = Some i)) as [Hbi|]; [rewrite decide_True in Hfl by (by apply Hb)|]; 
      repeat case_decide; lia.
  - intros i. rewrite Hcl. split.
    + intros (c & Hi & Ho). destruct (decide (id = i)) as [<-|Hne].
      * exists (f c). rewrite lookup_alter_eq, Hi. split; [done|]. destruct (Hf c Hi) as [Hcc _]. congruence.
      * exists c. by rewrite lookup_alter_ne.
    + intros (c' & (c & Hi & [[-> ->]|[_ ->]])%Hlk & Ho); [|eauto].
      exists c. split; [done|]. destruct (Hf c Hi) as [Hcc _]. congruence.
  - intros i c' (c & Hi & _)%Hlk. by eapply Hn.
  - by eapply peers_ok_kept.
  - by eapply jobs_ok_kept.
  - intros He Hst i c' (c & Hi & [[-> ->]|[Hne ->]])%Hlk; [by apply Hf|].
    change (outstanding i (set_s_conns _ s)) with (outstanding i s). rewrite (Hex He Hst i c Hi).
    specialize (Hb i Hne). repeat case_decide; naive_solver.
Qed.

Lemma conn_ok_inflight v c : conn_ok c → conn_ok (set_c_inflight v c).
Proof. intros Hok. apply (conn_ok_frame c); [reflexivity..| |done]. apply (co_input c Hok). Qed.

(** The database thread is given the request whose reply was reserved. *)
Lemma inv_accept a id peer request s :
  inv_at a (Some id) s → s.(s_db_jobs) < kMaxJobs →
  (∃ c, s.(s_conns) !! id = Some c ∧ admitted s.(s_tick) id c peer request) → inv_at a None (accept (JobRequest id peer request) s).
Proof.
  intros [Hc Hfl Hcl Hn Hfr Hct [Hdb Hdbm] Hsp Hp Hpo Hpe Hj Hex Hw] Hroom Hadm.
  pose proof Hadm as (c & Hid & _).
  assert (Hout : ∀ i, outstanding i (accept (JobRequest id peer request) s) =
                 outstanding i s + (if decide (Some id = Some i) then 1 else 0)).
  { intros i. unfold outstanding, accept. simpl. rewrite count_rows_snoc. simpl.
    destruct (Z.eqb_spec id i); case_decide; simplify_eq; lia. }
  split; try done; simpl.
  - intros i c' Hi. rewrite Hout. specialize (Hfl _ _ Hi). repeat case_decide; simplify_eq; lia.
  - intros i Hi. rewrite Hout, (Hfr i Hi). specialize (Hn _ _ Hid). rewrite decide_False; [done|].
    intros [= <-]. lia.
  - rewrite length_app. simpl. split; [lia|]. case_match; lia.
  - intros i p r [Hi|[= -> -> ->]%list_elem_of_singleton]%elem_of_app; [by apply Hj|done].
  - intros He Hst i c' Hi. rewrite Hout, (Hex He Hst i c' Hi). repeat case_decide; simplify_eq; lia.
Qed.

(** Handing an admitted request to the database thread. *)
Lemma inv_submit a id c peer request refusal s :
  0 ≤ a → inv_at a None s → s.(s_conns) !! id = Some c → c.(c_inflight) < 32 →
  admitted s.(s_tick) id c peer request →
  inv_at a None ((updC id (λ c, set_c_inflight (c.(c_inflight) + 1) c) ≫= λ _,
    accepted ← Submit (JobRequest id peer request);
    if (accepted : bool) then mret ()
    else updC id (λ c, set_c_inflight (c.(c_inflight) - 1) c);; Queue id refusal) s).1.
Proof.
  intros Ha Hinv Hid Hlt Hadm. rewrite io_updC. set (s1 := set_s_conns _ s).
  assert (Hs1 : inv_at a (Some id) s1).
  { apply (inv_inflight a None); [done| |intros i Hi; split; congruence]. rewrite Hid. intros c0 [= <-].
    split; [done|]. split; [apply conn_ok_inflight|]. split; [done|]. simpl.
    pose proof (in_flight _ _ _ Hinv _ _ Hid) as Hfl. rewrite decide_False in Hfl by done.
    rewrite decide_True by done. split; [lia|]. intros He Hst.
    rewrite (in_exact _ _ _ Hinv He Hst _ _ Hid), decide_False by done. lia. }
  rewrite io_Submit. destruct (Z.ltb_spec (s_db_jobs s1) kMaxJobs) as [Hroom|].
  - apply inv_accept; [done|done|]. unfold s1. simpl. rewrite lookup_alter_eq, Hid.
    eexists. split; [done|]. by eapply admitted_mono; [| |done].
  - rewrite io_updC. apply inv_Queue; [done|].
    apply (inv_inflight a (Some id)); [done| |intros i Hi; split; congruence]. intros c0 Hc0.
    pose proof (in_flight _ _ _ Hs1 _ _ Hc0) as Hfl. rewrite decide_True in Hfl by done.
    rewrite decide_False by done. split; [done|]. split; [apply conn_ok_inflight|]. split; [done|].
    simpl. split; [lia|]. intros He Hst. rewrite (in_exact _ _ _ Hs1 He Hst _ _ Hc0), decide_True by done. lia.
Qed.

Lemma inv_ExecuteRequest a id request s :
  0 ≤ a → inv_at a None s → (connection id s).(c_closed) = false →
  inv_at a None (ExecuteRequest id request s).1.
Proof.
  intros Ha Hs Ho. unfold ExecuteRequest. rewrite io_getC. set (c := connection id s) in *.
  destruct (handshake_failed c request) eqn:Hfailed; [by apply inv_Close|]. rewrite io_read, io_updC.
  set (s1 := set_s_conns _ _). assert (Hs1 : inv_at a None s1) by (unfold s1; frame_conn; by apply inv_tick).
  destruct (internal_field request) eqn:Hint; [by apply inv_Queue|].
  rewrite io_alive. set (s2 := set_s_tick _ s1).
  assert (Hs2 : inv_at a None s2) by (by apply inv_tick).
  destruct (IsAlive _ _ _ _ _) as [live|] eqn:Hlive; [|done].
  destruct (negb live || negb _) eqn:Hauth; [by apply inv_Queue|]. bool_hyps. rewrite io_getS.
  destruct ((c_inflight c >=? 32) || _) eqn:Hbusy; [by apply inv_Queue|]. bool_hyps.
  destruct (eqs _ "hello") eqn:Hhello.
  { rewrite io_updC. apply inv_Queue; [done|]. frame_conn. done. }
  pose proof (connection_open id s Ho) as Hid. fold c in Hid.
  assert (Hid2 : s_conns s2 !! id = Some (set_c_last_input (io_time (s_tick s)) c)).
  { unfold s2, s1. simpl. by rewrite lookup_alter_eq, Hid. }
  apply (inv_submit _ _ (set_c_last_input (io_time (s_tick s)) c)); [done|done|done|simpl; lia|].
  destruct (in_peer _ _ _ Hs1 _ _ Hid2) as [Hp|Hp].
  { simpl in Hp. rewrite Hp, Allows_no_peer in *. done. }
  split; simpl; [done| | |done|by apply eqs_false|intros k v; by apply internal_field_false].
  - unfold handshake_failed in Hfailed. bool_hyps. rewrite Hhello in *. by destruct (c_hello c).
  - exists (s_tick s1). split; [unfold s2; simpl; lia|]. split; [done|].
    rewrite (connection_some id s1 _ Hid2) in Hlive. subst live. exact Hlive.
Qed.

(** ** Callbacks *)

Lemma conn_ok_new : conn_ok new_connection.
Proof.
  assert (Hf : framed "") by (by exists []).
  split; [intros _|by exists ""|done]. by split.
Qed.

Lemma outstanding_nonneg id s : 0 ≤ outstanding id s.
Proof. unfold outstanding, count_rows. lia. Qed.

(** The accepted socket becomes a client. *)
Lemma inv_new s :
  inv_at 1 None s →
  let id := s.(s_next_client) + 1 in
  inv_at 0 None (set_s_next_client id (set_s_clients (s.(s_clients) ∪ {[id]})
                   (set_s_conns (<[id := new_connection]> s.(s_conns)) s))).
Proof.
  intros [Hc Hfl Hcl Hn Hfr [Hct Hmax] Hdb Hsp Hp Hpo Hpe Hj Hex Hw] id.
  assert (Hnone : s_conns s !! id = None).
  { destruct (s_conns s !! id) as [c|] eqn:E; [|done]. apply Hn in E. lia. }
  split; simpl; try done.
  - intros i c [[<- <-]|[_ Hi]]%lookup_insert_Some; [apply conn_ok_new|by eapply Hc].
  - intros i c [[<- <-]|[_ Hi]]%lookup_insert_Some; [|by apply Hfl].
    change (outstanding id (set_s_next_client _ _)) with (outstanding id s). rewrite Hfr by lia. done.
  - intros i. rewrite elem_of_union, elem_of_singleton, Hcl. split.
    + intros [(c & Hi & Ho)| ->]; [|exists new_connection; by rewrite lookup_insert_eq].
      exists c. rewrite lookup_insert_ne; [done|]. intros <-. congruence.
    + intros (c & [[<- <-]|[_ Hi]]%lookup_insert_Some & Ho); [by right|left; eauto].
  - intros i c [[<- <-]|[_ Hi]]%lookup_insert_Some; [lia|]. apply Hn in Hi. lia.
  - intros i Hi. apply (Hfr i). lia.
  - assert (id ∉ s_clients s) by (rewrite Hcl; intros (c & Hi & _); congruence).
    rewrite size_union by set_solver. rewrite size_singleton. lia.
  - by eapply peers_ok_kept; [|by apply kept_insert|].
  - by eapply jobs_ok_kept; [|by apply kept_insert|].
  - intros He Hst i c [[<- <-]|[_ Hi]]%lookup_insert_Some; [|by apply Hex].
    change (outstanding id (set_s_next_client _ _)) with (outstanding id s). by rewrite Hfr by lia.
Qed.

(** The peer of a connection that has none is authenticated. *)
Lemma inv_authenticated a b id peer process c s :
  inv_at a b s → s.(s_conns) !! id = Some c → c.(c_peer) = no_peer →
  authenticated s.(s_tick) id (set_c_process process (set_c_peer peer c)) →
  inv_at a b (set_s_conns (alter (λ c, set_c_process process (set_c_peer peer c)) id s.(s_conns)) s).
Proof.
  intros [Hc Hfl Hcl Hn Hfr Hct Hdb Hsp Hp Hpo Hpe Hj Hex Hw] Hid Hno Ha.
  set (c' := set_c_process process (set_c_peer peer c)) in *.
  assert (Halter : alter (λ c, set_c_process process (set_c_peer peer c)) id s.(s_conns) =
            <[id := c']> s.(s_conns)).
  { apply map_eq. intros i. destruct (decide (id = i)) as [<-|].
    - by rewrite lookup_alter_eq, lookup_insert_eq, Hid.
    - by rewrite lookup_alter_ne, lookup_insert_ne. }
  rewrite Halter. split; simpl; try done.
  - intros i x [[<- <-]|[_ Hi]]%lookup_insert_Some; [|by eapply Hc].
    destruct (Hc _ _ Hid) as [Hout Hsent Hi]. split; [|done|done]. intros Ho. by destruct (Hout Ho).
  - intros i x [[<- <-]|[_ Hi]]%lookup_insert_Some; [by apply (Hfl _ c)|by apply Hfl].
  - intros i. rewrite Hcl. split.
    + intros (x & Hi & Ho). destruct (decide (id = i)) as [<-|Hne].
      * exists c'. rewrite lookup_insert_eq. split; [done|]. simpl. congruence.
      * exists x. by rewrite lookup_insert_ne.
    + intros (x & [[<- <-]|[_ Hi]]%lookup_insert_Some & Ho); eauto.
  - intros i x [[<- <-]|[_ Hi]]%lookup_insert_Some; by eapply Hn.
  - intros i x [[<- <-]|[_ Hi]]%lookup_insert_Some; [by right|by apply Hpe].
  - intros i p r Hin. destruct (Hj i p r Hin) as (x & Hi & Hx). exists x. split; [|done].
    rewrite lookup_insert_ne; [done|]. intros <-. simplify_eq. destruct Hx as [-> _ _ Hal _ _].
    by rewrite Hno, Allows_no_peer in Hal.
  - intros He Hst i x [[<- <-]|[_ Hi]]%lookup_insert_Some; [by apply (Hex He Hst _ c)|by apply Hex].
Qed.

Lemma inv_AddConnection s : inv_at 1 None s → inv (AddConnection s).1.
Proof.
  intros Hs%inv_new. unfold AddConnection. rewrite io_getS. cbv zeta in *.
  set (id := s_next_client s + 1) in *. rewrite io_modS. set (s1 := set_s_next_client _ _) in *.
  destruct (s_stopping s); [rewrite io_ret; by apply inv_Close|]. rewrite io_read.
  destruct (Authenticate _ _ _) as [[[peer process]|]|] eqn:Ha;
    [|by apply inv_Close, inv_tick|apply keep_bind; [by apply inv_Close, inv_tick|]; intros; by apply inv_emergency].
  rewrite io_updC, io_getS. set (s2 := set_s_conns _ _).
  assert (Hs2 : inv s2).
  { eapply inv_authenticated; [by apply inv_tick|apply lookup_insert_eq|done|].
    exists (s_tick s1). split; [simpl; lia|done]. }
  destruct (_ >? _); [by apply inv_Close|]. rewrite io_read, io_updC.
  apply keep_bind; [apply inv_ArmRead; frame_conn; by apply inv_tick|].
  intros _ s3 Hs3. by frame_conn.
Qed.

Lemma inv_deliver id snapshot reply s :
  inv_at 0 (Some id) s → inv (deliver id snapshot reply s).1.
Proof.
  intros Hs. unfold deliver. rewrite io_getS.
  apply (keep_returning (inv_at 0 (Some id))); [| |].
  { destruct (bool_decide _); [|apply returning_ret]. apply returning_each. intros i.
    destruct (_ =? _); [apply returning_ret|apply returning_Close]. }
  { destruct (bool_decide _); [|done]. apply inv_each; [|done].
    intros i s' _ Hs'. destruct (_ =? _); [done|by apply inv_Close]. }
  intros _ s1 Hs1. apply (keep_returning (inv_at 0 (Some id))); [apply returning_Publish|by apply inv_Publish|].
  intros _ s2 Hs2. rewrite io_read, io_updC. set (s3 := set_s_conns _ _).
  assert (Hs3 : inv s3).
  { apply (inv_inflight 0 (Some id)); [by apply inv_tick| |intros i Hi; split; congruence]. intros c Hc.
    pose proof (in_flight _ _ _ (inv_tick _ _ _ Hs2) _ _ Hc) as Hfl.
    rewrite decide_True in Hfl by done. rewrite decide_False by done.
    pose proof (outstanding_nonneg id (set_s_tick (S (s_tick s2)) s2)).
    destruct (Z.eqb_spec (c_inflight c) 0); [lia|].
    split; [done|]. split; [apply conn_ok_inflight|]. split; [done|]. simpl. split; [lia|].
    intros He Hst. rewrite (in_exact _ _ _ (inv_tick _ _ _ Hs2) He Hst _ _ Hc), decide_True by done. lia. }
  rewrite io_getC. destruct (_ && _); [destruct (c_closed _); [done|by apply inv_Queue]|].
  destruct (c_closed _); [done|]. rewrite io_alive.
  destruct (IsAlive _ _ _ _ _) as [live|]; [|by apply inv_tick].
  destruct live; [by apply inv_Queue, inv_tick|by apply inv_Close, inv_tick].
Qed.

(** The state in which a callback is taken from the queue. *)
Definition adding (w : work) : Z := if is_add w then 1 else 0.
Definition replying (w : work) : option Z := match w with ReplyWork id _ _ => Some id | _ => None end.

Lemma inv_run_work w s : inv_at (adding w) (replying w) s → inv (run_work w s).1.
Proof.
  intros Hs. destruct w as [|id message|id snapshot reply|snapshot|]; simpl in *.
  - by apply inv_AddConnection.
  - rewrite io_updC. set (s1 := set_s_conns _ _). assert (Hs1 : inv s1) by (unfold s1; by frame_conn).
    rewrite io_getC. destruct (c_closed _) eqn:Ho; [done|].
    destruct message as [request|]; [|by apply inv_Close].
    apply keep_bind; [by apply inv_ExecuteRequest|]. intros _ s2 Hs2. by apply inv_Receive.
  - by apply inv_deliver.
  - by apply inv_Publish.
  - rewrite io_getS. apply keep_bind; [apply inv_each; [|done]; intros i s' _ Hs'; by apply inv_Close|].
    intros _ s' Hs'. by apply inv_published.
Qed.
End handlers.

(** ** Turns of the threads *)

Section steps.
Context `{Platform} `{Parcel} `{Inventory} `{Env} `{IoEnv} `{!IoLaws}.

(** Database files found on disk were written by the daemon. *)
Context (adopted : ∀ n, wf (env_content n)).

(** Taking a callback from the queue. *)
Lemma inv_pop w l s :
  inv s → s.(s_posted) = w :: l → inv_at (adding w) (replying w) (set_s_posted l s).
Proof.
  intros [Hc Hfl Hcl Hn Hfr [Hct Hmax] Hdb Hsp Hp Hpo Hpe Hj Hex Hw] Hl.
  assert (Hout : ∀ i, outstanding i s = outstanding i (set_s_posted l s) +
                   (if decide (replying w = Some i) then 1 else 0)).
  { intros i. unfold outstanding. simpl. rewrite Hl, count_rows_cons.
    destruct w as [|id ?|id ? ?|?|]; simpl; try (destruct (Z.eqb_spec id i)); repeat case_decide;
      simplify_eq; lia. }
  split; simpl; try done.
  - intros i c Hi. specialize (Hfl _ _ Hi). rewrite Hout in Hfl.
    rewrite (decide_False (P := None = Some i)) in Hfl by done. lia.
  - intros i Hi. specialize (Hfr i Hi). rewrite Hout in Hfr.
    pose proof (outstanding_nonneg i (set_s_posted l s)). case_decide; lia.
  - rewrite Hl, count_rows_cons in Hct. unfold adding. destruct (is_add w); split; lia.
  - rewrite Hl in Hpo. simpl in Hpo. lia.
  - intros He Hst i c Hi. rewrite (Hex He Hst i c Hi), Hout. rewrite (decide_False (P := None = Some i)) by done.
    lia.
Qed.

(** Posting a callback that is neither a connection nor a reply. *)
Lemma inv_Post w s : is_add w = false → replying w = None → inv s → inv (Post w s).1.
Proof.
  intros Hadd Hrep Hs. unfold Post. rewrite io_getS. destruct (Z.geb_spec (Z.of_nat (length (s_posted s))) 512).
  { by apply inv_emergency. }
  destruct Hs as [Hc Hfl Hcl Hn Hfr [Hct Hmax] Hdb Hsp Hp Hpo Hpe Hj Hex Hw]. simpl.
  assert (Hout : ∀ i, outstanding i (set_s_posted (s_posted s ++ [w]) s) = outstanding i s).
  { intros i. unfold outstanding. simpl. rewrite count_rows_snoc. destruct w; simpl in *; simplify_eq; lia. }
  split; simpl; try done.
  - intros i c Hi. rewrite Hout. by apply Hfl.
  - intros i Hi. rewrite Hout. by apply Hfr.
  - rewrite count_rows_snoc, Hadd. split; lia.
  - rewrite length_app. simpl. lia.
  - intros He Hst i c Hi. rewrite Hout. by apply Hex.
Qed.

Lemma inv_incoming s : inv s → inv (incoming s).
Proof.
  intros Hs. unfold incoming. destruct (s_stopping s); [done|].
  destruct (Z.ltb_spec (s_connections s) kMaxConnections) as [Hlt|]; [|done]. cbn [negb].
  unfold Post. rewrite io_getS. destruct (Z.geb_spec (Z.of_nat (length (s_posted s))) 512).
  { by apply inv_emergency. }
  destruct Hs as [Hc Hfl Hcl Hn Hfr [Hct Hmax] Hdb Hsp Hp Hpo Hpe Hj Hex Hw]. simpl.
  assert (Hout : ∀ i, outstanding i (set_s_posted (s_posted s ++ [AddWork]) s) = outstanding i s).
  { intros i. unfold outstanding. simpl. rewrite count_rows_snoc. simpl. lia. }
  split; simpl; try done.
  - intros i c Hi. specialize (Hfl _ _ Hi). rewrite <- Hout in Hfl. exact Hfl.
  - intros i Hi. rewrite <- (Hfr i Hi), <- Hout. done.
  - rewrite count_rows_snoc. simpl. split; lia.
  - rewrite length_app. simpl. lia.
  - intros He Hst i c Hi. specialize (Hex He Hst i c Hi). rewrite <- Hout in Hex. exact Hex.
Qed.

(** The repository calls of a job. *)
Lemma run_job_calls j w : ∃ calls, (run_job j w).1 = performs w calls.
Proof.
  assert (Hbind : ∀ (m : M ()) c, (∀ w, (m w).1 = perform c w) →
            ∃ calls, ((m;; Snapshot) w).1 = performs w calls).
  { intros m c Hm. specialize (Hm w). unfold mbind, M_bind.
    destruct (m w) as [w1 [u|f]] eqn:E; simpl in Hm; subst w1.
    - by exists [c; call_snapshot].
    - by exists [c]. }
  destruct j as [id peer request| |retire removed|]; simpl.
  - unfold request_job. set (request' := <[_ := _]> request).
    destruct (install_check _ request') as [refused|request2].
    + exists [call_snapshot]. unfold performs. simpl. by destruct (Snapshot w) as [w1 [|]].
    + destruct (Repository.Execute peer request2 w) as [w1 [reply|f]] eqn:E.
      * exists [call_execute peer request2; call_snapshot]. unfold performs. simpl. rewrite E. simpl.
        by destruct (Snapshot w1) as [w2 [|]].
      * exists [call_execute peer request2]. unfold performs. simpl. by rewrite E.
  - destruct (Hbind Repository.Tick call_tick) as [calls Hcalls]; [done|]. exists calls.
    rewrite <- Hcalls. by destruct ((Repository.Tick;; Snapshot) w) as [w1 [|]].
  - destruct (Hbind (FenceProfiles retire removed) (call_fence retire removed)) as [calls Hcalls]; [done|].
    exists calls. rewrite <- Hcalls. by destruct ((FenceProfiles retire removed;; Snapshot) w) as [w1 [|]].
  - by exists [call_shutdown].
Qed.

Lemma performs_wf w calls : wf (w_db w) → wf (w_db (performs w calls)).
Proof.
  intros Hw. unfold performs. revert w Hw. induction calls as [|c calls IH]; intros w Hw; [done|].
  simpl. apply IH. by apply perform_wf.
Qed.

(** The database thread finishes a job. *)
Definition requested (j : job) : option Z := match j with JobRequest id _ _ => Some id | _ => None end.

Lemma inv_db_pop j l w s :
  inv s → s.(s_db) = j :: l → wf (w_db w) →
  inv_at 0 (requested j) (set_s_db_jobs (s.(s_db_jobs) - 1) (set_s_world w (set_s_db l s))) ∧
  ∀ id, requested j = Some id → id ≤ s.(s_next_client).
Proof.
  intros [Hc Hfl Hcl Hn Hfr Hct [Hdb Hdbm] Hsp Hp Hpo Hpe Hj Hex Hw] Hl Hww.
  assert (Hout : ∀ i, outstanding i s = outstanding i (set_s_db l s) +
                   (if decide (requested j = Some i) then 1 else 0)).
  { intros i. unfold outstanding. simpl. rewrite Hl, count_rows_cons.
    destruct j as [id ? ?| | |]; simpl; try (destruct (Z.eqb_spec id i)); repeat case_decide; simplify_eq; lia. }
  rewrite Hl in Hdb, Hj. simpl in Hdb. split.
  - split; simpl; try done.
    + intros i c Hi. specialize (Hfl _ _ Hi). rewrite Hout in Hfl.
      rewrite (decide_False (P := None = Some i)) in Hfl by done.
      change (outstanding i (set_s_db_jobs _ _)) with (outstanding i (set_s_db l s)). lia.
    + intros i Hi. specialize (Hfr i Hi). rewrite Hout in Hfr.
      change (outstanding i (set_s_db_jobs _ _)) with (outstanding i (set_s_db l s)).
      pose proof (outstanding_nonneg i (set_s_db l s)). case_decide; lia.
    + split; [lia|]. case_match; lia.
    + intros i p r Hin. apply Hj. by right.
    + intros He Hst i c Hi. rewrite (Hex He Hst i c Hi), Hout.
      rewrite (decide_False (P := None = Some i)) by done.
      change (outstanding i (set_s_db_jobs _ _)) with (outstanding i (set_s_db l s)). lia.
  - intros id Hid. destruct (Z.leb_spec id (s_next_client s)) as [|Hgt]; [done|].
    specialize (Hfr id ltac:(lia)). rewrite Hout, decide_True in Hfr by done.
    pose proof (outstanding_nonneg id (set_s_db l s)). lia.
Qed.

Lemma inv_Post_reply id snapshot reply s :
  inv_at 0 (Some id) s → id ≤ s.(s_next_client) → inv (Post (ReplyWork id snapshot reply) s).1.
Proof.
  intros Hs Hid. unfold Post. rewrite io_getS. destruct (Z.geb_spec (Z.of_nat (length (s_posted s))) 512).
  { eapply inv_weaken; [by right|]. by apply inv_emergency. }
  destruct Hs as [Hc Hfl Hcl Hn Hfr [Hct Hmax] Hdb Hsp Hp Hpo Hpe Hj Hex Hw]. simpl.
  assert (Hout : ∀ i, outstanding i (set_s_posted (s_posted s ++ [ReplyWork id snapshot reply]) s) =
                 outstanding i s + (if decide (Some id = Some i) then 1 else 0)).
  { intros i. unfold outstanding. simpl. rewrite count_rows_snoc. simpl.
    destruct (Z.eqb_spec id i); case_decide; simplify_eq; lia. }
  split; simpl; try done.
  - intros i c Hi. rewrite Hout. specialize (Hfl _ _ Hi). repeat case_decide; simplify_eq; lia.
  - intros i Hi. rewrite Hout, (Hfr i Hi), decide_False; [done|]. intros [= <-]. lia.
  - rewrite count_rows_snoc. simpl. split; lia.
  - rewrite length_app. simpl. lia.
  - intros He Hst i c Hi. rewrite Hout, (Hex He Hst i c Hi). repeat case_decide; simplify_eq; lia.
Qed.

Lemma Post_db_jobs w v s : set_s_db_jobs v (Post w s).1 = (Post w (set_s_db_jobs v s)).1.
Proof. unfold Post. rewrite !io_getS. simpl. by destruct (_ >=? _). Qed.

Lemma Post_jobs w s : (Post w s).1.(s_db_jobs) = s.(s_db_jobs).
Proof. unfold Post. rewrite io_getS. by destruct (_ >=? _). Qed.

Lemma inv_db j l s :
  inv s → s.(s_db) = j :: l → inv (step EvDb s).
Proof.
  intros Hs Hl. unfold step. rewrite Hl. cbv zeta. cbn [s_world set_s_db].
  destruct (run_job_calls j (s_world s)) as [calls Hcalls].
  destruct (run_job j (s_world s)) as [w posted] eqn:Hrun. simpl in Hcalls.
  assert (Hww : wf (w_db w)) by (rewrite Hcalls; apply performs_wf, Hs).
  destruct (inv_db_pop j l w s Hs Hl Hww) as [Hpop Hnext].
  destruct posted as [work|].
  - rewrite Post_jobs, Post_db_jobs. cbn [s_db_jobs set_s_world set_s_db].
    assert (Hwork : replying work = requested j ∧ is_add work = false).
    { destruct j as [id peer request| | |]; simpl in Hrun.
      - destruct (request_job peer request (s_world s)) as [w' [sn rp]]. by simplify_eq.
      - destruct ((Repository.Tick;; Snapshot) (s_world s)) as [w' [|]]; by simplify_eq.
      - destruct ((FenceProfiles retire removed;; Snapshot) (s_world s)) as [w' [|]]; by simplify_eq.
      - by simplify_eq. }
    destruct Hwork as [Hrep Hadd]. destruct (replying work) as [id|] eqn:E.
    + destruct work; simplify_eq/=. apply inv_Post_reply; [by rewrite Hrep|]. simpl. by apply Hnext.
    + apply inv_Post; [done|done|]. by rewrite Hrep.
  - cbn [s_db_jobs set_s_world set_s_db]. eapply inv_weaken; [left|exact Hpop].
    destruct j as [id peer request| | |]; simpl in Hrun; [|done..].
    by destruct (request_job peer request (s_world s)) as [w' [sn rp]].
Qed.

(** A job without a reply is queued. *)
Lemma inv_accept_job j s :
  requested j = None → inv s →
  s.(s_db_jobs) + 1 ≤ kMaxJobs + (if s.(s_stopping) && negb s.(s_stop_io) then 1 else 0) →
  inv (accept j s).
Proof.
  intros Hj [Hc Hfl Hcl Hn Hfr Hct [Hdb Hdbm] Hsp Hp Hpo Hpe Hjs Hex Hw] Hroom.
  assert (Hout : ∀ i, outstanding i (accept j s) = outstanding i s).
  { intros i. unfold outstanding, accept. simpl. rewrite count_rows_snoc.
    destruct j; simpl in *; simplify_eq; lia. }
  split; simpl; try done.
  - intros i c Hi. specialize (Hfl _ _ Hi). rewrite <- Hout in Hfl. exact Hfl.
  - intros i Hi. rewrite <- (Hfr i Hi), <- Hout. done.
  - rewrite length_app. simpl. split; lia.
  - intros i p r [Hi|<-%list_elem_of_singleton]%elem_of_app; [by apply Hjs|done].
  - intros He Hst i c Hi. specialize (Hex He Hst i c Hi). rewrite <- Hout in Hex. exact Hex.
Qed.

Lemma inv_Submit j s : requested j = None → inv s → inv (Submit j s).1.
Proof.
  intros Hj Hs. unfold Submit. rewrite io_getS.
  destruct (Z.ltb_spec (s_db_jobs s) kMaxJobs); [|done].
  apply (inv_accept_job j s); [done..|]. case_match; lia.
Qed.

Lemma inv_parse n id payload s :
  inv s → s.(s_parse) !! n = Some (id, payload) →
  inv (set_s_parse_jobs (s.(s_parse_jobs) - 1) (set_s_parse (delete n s.(s_parse)) s)).
Proof.
  intros [Hc Hfl Hcl Hn Hfr Hct Hdb Hsp [Hp Hpm] Hpo Hpe Hj Hex Hw] Hi. split; simpl; try done.
  rewrite length_delete by eauto. apply lookup_lt_Some in Hi. lia.
Qed.

Lemma inv_Stop s : inv s → inv (Stop s).
Proof.
  intros Hs. unfold Stop. destruct (s_stopping s) eqn:E; [done|].
  destruct Hs as [Hc Hfl Hcl Hn Hfr Hct [Hdb Hdbm] Hsp Hp Hpo Hpe Hj Hex Hw]. split; simpl; try done.
  rewrite E in Hdbm. done.
Qed.

(** The emergency source resets its flag and stops the daemon. *)
Lemma inv_Stop_emergency s : inv s → inv (Stop (set_s_emergency false s)).
Proof.
  intros Hs. unfold Stop. simpl. destruct (s_stopping s) eqn:E.
  - destruct Hs. split; simpl; try done. congruence.
  - destruct Hs as [Hc Hfl Hcl Hn Hfr Hct [Hdb Hdbm] Hsp Hp Hpo Hpe Hj Hex Hw]. split; simpl; try done.
    rewrite E in Hdbm. done.
Qed.

(** What closing connections leaves alone. *)
Definition queues (s : Server) : list job * Z * bool * bool :=
  (s.(s_db), s.(s_db_jobs), s.(s_stopping), s.(s_stop_io)).

Lemma each_Close_queues l s :
  queues (each l Close s).1 = queues s ∧ is_Some (each l Close s).2.
Proof.
  revert s. induction l as [|id l IH]; intros s; [by split|]. simpl. unfold mbind, Io_bind.
  assert (Hr : queues (Close id s).1 = queues s ∧ is_Some (Close id s).2).
  { unfold Close. rewrite io_getC. by destruct (c_closed _); split; [|eexists| |eexists]. }
  destruct (Close id s) as [s1 r]. simpl in *. destruct Hr as [Hq [u ->]].
  rewrite <- Hq. apply IH.
Qed.

Lemma inv_StopIo s : inv s → s.(s_stop_io) = true → inv (StopIo (set_s_stop_io false s)).1.
Proof.
  intros Hs Hio. unfold StopIo. rewrite io_getS. set (s0 := set_s_stop_io false s).
  pose proof (in_stop _ _ _ Hs Hio) as Hst. pose proof (in_db _ _ _ Hs) as [Hdb Hdbm].
  rewrite Hst, Hio in Hdbm. simpl in Hdbm.
  assert (Hs0 : inv s0).
  { destruct Hs. split; simpl; try done. rewrite Hst. simpl. lia. }
  assert (Hs1 : inv (each (client_ids s0) Close s0).1).
  { apply inv_each; [|done]. intros i s' _ Hs'. by apply inv_Close. }
  destruct (each_Close_queues (client_ids s0) s0) as [Hq Hr1].
  unfold mbind, Io_bind. destruct (each _ _ _) as [s1 r]. simpl in *. destruct Hr1 as [u ->].
  unfold queues in Hq. simpl in Hq. injection Hq as Hq1 Hq2 Hq3 Hq4.
  apply (inv_accept_job JobShutdown s1); [done..|]. rewrite Hq2, Hq3, Hq4, Hst. simpl. lia.
Qed.

Lemma inv_step e s : inv s → inv (step e s).
Proof.
  intros Hs. destruct e as [|id|id|id| |n| | |retire removed| | |]; simpl.
  - by apply inv_incoming.
  - destruct (c_read_source _); [|done]. pose proof (inv_Receive 0 None id s ltac:(lia) Hs) as Hr.
    destruct (Receive id s) as [s' [u|]]; [done|]. by apply inv_Close.
  - destruct (c_write_source _); [|done]. pose proof (inv_Write 0 None id s ltac:(lia) Hs) as Hw.
    destruct (_ || _); [by frame_conn|done].
  - destruct (c_deadline _); [|done]. unfold deadline. rewrite io_read, io_getC.
    repeat (destruct (_ && _); [by apply inv_Close, inv_tick|]). by apply inv_tick.
  - destruct (s_posted s) as [|w l] eqn:Hl; [done|]. pose proof (inv_run_work w _ (inv_pop w l s Hs Hl)) as Hr.
    unfold caught. destruct (run_work w _) as [s' [u|]]; [done|]. by apply inv_emergency.
  - destruct (s_parse s !! n) as [[id payload]|] eqn:Hn; [|done].
    apply inv_Post; [done..|]. by eapply inv_parse.
  - destruct (s_db s) as [|j l] eqn:Hl; [done|]. pose proof (inv_db j l s Hs Hl) as Hd. simpl in Hd.
    by rewrite Hl in Hd.
  - destruct (s_stopping s); [done|by apply inv_Submit].
  - destruct (s_stopping s); [done|by apply inv_Submit].
  - by apply inv_Stop.
  - destruct (s_emergency s) eqn:He; [|done]. by apply inv_Stop_emergency.
  - destruct (s_stop_io s) eqn:Hio; [by apply inv_StopIo|done].
Qed.

Lemma inv_started w : wf (w_db w) → inv (started w).
Proof.
  intros Hw. split; simpl; try done.
  - intros id. split; [set_solver|]. by intros (c & Hc & _).
  - by intros id peer request Hin%elem_of_nil.
Qed.

Lemma inv_run_events s l : inv s → inv (run_events s l).
Proof.
  unfold run_events. revert s. induction l as [|e l IH]; intros s Hs; [done|].
  simpl. by apply IH, inv_step.
Qed.
End steps.

(** ** The database under the daemon *)

(** A part that does not touch the database. *)
Definition quiet {A} (m : Io A) : Prop := ∀ s, (m s).1.(s_world) = s.(s_world).

Lemma quiet_ret {A} (a : A) : quiet (mret a : Io A).
Proof. done. Qed.
Lemma quiet_bind {A B} (m : Io A) (k : A → Io B) : quiet m → (∀ a, quiet (k a)) → quiet (m ≫= k).
Proof.
  intros Hm Hk s. unfold mbind, Io_bind. rewrite <- (Hm s).
  destruct (m s) as [s' [a|]]; [apply Hk|done].
Qed.
Lemma quiet_getC id : quiet (getC id).
Proof. done. Qed.
Lemma quiet_getS : quiet getS.
Proof. done. Qed.
Lemma quiet_throwS {A} : quiet (throwS (A := A)).
Proof. done. Qed.
Lemma quiet_modS f : (∀ s, (f s).(s_world) = s.(s_world)) → quiet (modS f).
Proof. intros Hf s. apply Hf. Qed.
Lemma quiet_updC id f : quiet (updC id f).
Proof. done. Qed.
Lemma quiet_read {A} (f : nat → A) : quiet (read f).
Proof. done. Qed.
Lemma quiet_each {A} (l : list A) (body : A → Io ()) : (∀ x, quiet (body x)) → quiet (each l body).
Proof. intros Hb. induction l as [|x l IH]; [apply quiet_ret|]. by apply quiet_bind. Qed.

#[export] Hint Resolve quiet_ret quiet_getC quiet_getS quiet_throwS quiet_updC quiet_read : consent.

(** A handler made of parts that do not touch the database. *)
Ltac solve_quiet := repeat first
  [ progress eauto with consent
  | apply quiet_bind
  | apply quiet_each
  | apply quiet_modS; reflexivity
  | match goal with |- ∀ _, _ => intro end
  | case_match ].

Section world.
Context `{Platform} `{Parcel} `{Inventory} `{Env} `{IoEnv}.

Lemma quiet_DispatchFailed : quiet DispatchFailed.
Proof. done. Qed.
Hint Resolve quiet_DispatchFailed : consent.
Lemma quiet_Post w : quiet (Post w).
Proof. unfold Post. solve_quiet. Qed.
Lemma quiet_Submit j : quiet (Submit j).
Proof. unfold Submit. solve_quiet. Qed.
Lemma quiet_Close id : quiet (Close id).
Proof. unfold Close. solve_quiet. Qed.
Hint Resolve quiet_Post quiet_Submit quiet_Close : consent.
Lemma quiet_Write id : quiet (Write id).
Proof.
  unfold Write. apply quiet_bind; [solve_quiet|]. intros c.
  generalize (S (String.length (pending_bytes c))) as fuel.
  induction fuel as [|fuel IH]; cbn [write_loop]; solve_quiet.
Qed.
Hint Resolve quiet_Write : consent.
Lemma quiet_Queue id m : quiet (Queue id m).
Proof. unfold Queue. solve_quiet. Qed.
Hint Resolve quiet_Queue : consent.
Lemma quiet_Publish m : quiet (Publish m).
Proof. unfold Publish. solve_quiet. Qed.
Lemma quiet_ArmRead id : quiet (ArmRead id).
Proof. unfold ArmRead. solve_quiet. Qed.
Lemma quiet_Parse id payload : quiet (Parse id payload).
Proof. unfold Parse. solve_quiet. Qed.
Hint Resolve quiet_Publish quiet_ArmRead quiet_Parse : consent.
Lemma quiet_Receive id : quiet (Receive id).
Proof.
  unfold Receive. generalize receive_fuel as fuel. intros fuel.
  assert (Hl : quiet (receive_loop fuel id)) by (induction fuel as [|fuel IH]; cbn [receive_loop]; solve_quiet).
  solve_quiet.
Qed.
Lemma quiet_alive id : quiet (alive id).
Proof. unfold alive. solve_quiet. Qed.
Hint Resolve quiet_Receive quiet_alive : consent.
Lemma quiet_ExecuteRequest id request : quiet (ExecuteRequest id request).
Proof. unfold ExecuteRequest. solve_quiet. Qed.
Lemma quiet_AddConnection : quiet AddConnection.
Proof. unfold AddConnection. solve_quiet. Qed.
Lemma quiet_deliver id snapshot reply : quiet (deliver id snapshot reply).
Proof. unfold deliver. solve_quiet. Qed.
Hint Resolve quiet_ExecuteRequest quiet_AddConnection quiet_deliver : consent.
Lemma quiet_run_work w : quiet (run_work w).
Proof. unfold run_work. solve_quiet. Qed.
Lemma quiet_deadline id : quiet (deadline id).
Proof. unfold deadline. solve_quiet. Qed.
Lemma quiet_StopIo : quiet StopIo.
Proof. unfold StopIo. solve_quiet. Qed.

Lemma world_Stop s : (Stop s).(s_world) = s.(s_world).
Proof. unfold Stop. by destruct (s_stopping s). Qed.

(** Only the database thread changes the database, with repository calls. *)
Lemma step_calls e s : ∃ calls, (step e s).(s_world) = performs s.(s_world) calls.
Proof.
  assert (Hkeep : ∀ s', s'.(s_world) = s.(s_world) → ∃ calls, s'.(s_world) = performs s.(s_world) calls)
    by (intros s' ->; by exists []).
  destruct e as [|id|id|id| |n| | |retire removed| | |]; cbn [step].
  - apply Hkeep. unfold incoming. destruct (s_stopping s); [done|]. destruct (negb _); [done|].
    pose proof (quiet_Post AddWork s) as Hq. by destruct (Post AddWork s) as [s' [[]|]].
  - apply Hkeep. destruct (c_read_source _); [|done]. pose proof (quiet_Receive id s) as Hq.
    destruct (Receive id s) as [s' [u|]]; [done|]. by rewrite quiet_Close.
  - apply Hkeep. destruct (c_write_source _); [|done]. destruct (_ || _); [rewrite quiet_updC|]; apply quiet_Write.
  - apply Hkeep. destruct (c_deadline _); [apply quiet_deadline|done].
  - apply Hkeep. destruct (s_posted s) as [|w l]; [done|]. unfold caught.
    pose proof (quiet_run_work w (set_s_posted l s)) as Hq. by destruct (run_work w _) as [s' [u|]].
  - apply Hkeep. destruct (s_parse s !! n) as [[id payload]|]; [by rewrite quiet_Post|done].
  - destruct (s_db s) as [|j l]; [by apply Hkeep|]. cbv zeta. cbn [s_world set_s_db].
    destruct (run_job_calls j (s_world s)) as [calls Hcalls]. exists calls. rewrite <- Hcalls.
    destruct (run_job j (s_world s)) as [w posted]. cbn [s_world set_s_db_jobs fst].
    destruct posted as [work|]; [by rewrite quiet_Post|done].
  - apply Hkeep. destruct (s_stopping s); [done|apply quiet_Submit].
  - apply Hkeep. destruct (s_stopping s); [done|apply quiet_Submit].
  - apply Hkeep. apply world_Stop.
  - apply Hkeep. destruct (s_emergency s); [by rewrite world_Stop|done].
  - apply Hkeep. destruct (s_stop_io s); [by rewrite quiet_StopIo|done].
Qed.

Lemma run_events_calls s l : ∃ calls, (run_events s l).(s_world) = performs s.(s_world) calls.
Proof.
  unfold run_events. revert s. induction l as [|e l IH]; intros s; [by exists []|]. simpl.
  destruct (step_calls e s) as [c1 H1']. destruct (IH (step e s)) as [c2 H2'].
  exists (c1 ++ c2). rewrite H2', H1'. unfold performs. by rewrite foldl_app.
Qed.
End world.

(** ** Theorems on every reachable state *)

Section reachable.
Context `{Platform} `{Parcel} `{Inventory} `{Env} `{IoEnv} `{!IoLaws}.

(** C5: admission.  Whatever the clients send and however the threads
    interleave, a request that waits for the database thread carries the peer
    of the connection it came from.  The identity policy authenticated this
    peer and its process from the kernel's view of that connection's socket;
    at a later instant, before the request was queued, the process behind the
    socket was seen to be still the same; the connection had made the
    handshake; the roles of the peer allow the method, which is not the
    handshake; and no field of the request is internal, one whose name is
    empty or begins with an underscore. *)
Theorem server_admission w l s id peer request :
  (∀ n, wf (env_content n)) → wf (w_db w) → run_events (started w) l = s →
  JobRequest id peer request ∈ s.(s_db) →
  ∃ c seen checked,
    s.(s_conns) !! id = Some c ∧ c.(c_peer) = peer ∧ c.(c_hello) = true ∧
    (seen < checked < s.(s_tick))%nat ∧
    Authenticate inv_fs io_rules (io_kernel seen id) = Some (Some (peer, c.(c_process))) ∧
    IsAlive inv_fs (io_kernel checked id) peer.(p_pid) peer.(p_uid) c.(c_process) = Some true ∧
    Allows peer (Get request "method") = true ∧ Get request "method" ≠ "hello" ∧
    (∀ k v, request !! k = Some v → k ≠ "" ∧ front_is "_" k = false).
Proof.
  intros Ha Hw <- Hin.
  destruct (in_jobs _ _ _ (inv_run_events Ha _ l (inv_started Ha w Hw)) _ _ _ Hin)
    as (c & Hc & [-> Hh (checked & Hck & (seen & Hs & Hau) & Hal) Hall Hm Hf]).
  exists c, seen, checked. split_and!; (done || lia).
Qed.

(** C36: limits.  In every reachable state at most 64 sockets are admitted,
    and [connections_] is exactly the number of clients and of accepted
    sockets that wait for the I/O thread; the counters of the parser and of
    the database jobs are exactly the jobs held, at most 128 (one more for
    the shutdown); each client is one open connection; no connection has more
    than 32 requests in flight, nor fewer than the requests queued or answered
    for it, and exactly these while the daemon is not stopping and no
    emergency is raised; it has at most 256 KiB of output pending, which is
    exactly what [output_bytes] says, and no more input buffered than a frame
    and one read; and at most 512 callbacks wait for the I/O thread. *)
Theorem server_limits w l s :
  (∀ n, wf (env_content n)) → wf (w_db w) → run_events (started w) l = s →
  s.(s_connections) = Z.of_nat (base.size s.(s_clients)) + count_rows is_add s.(s_posted) ∧
  s.(s_connections) ≤ kMaxConnections ∧
  s.(s_parse_jobs) = Z.of_nat (length s.(s_parse)) ∧ s.(s_parse_jobs) ≤ kMaxJobs ∧
  s.(s_db_jobs) = Z.of_nat (length s.(s_db)) ∧
  s.(s_db_jobs) ≤ kMaxJobs + (if s.(s_stopping) then 1 else 0) ∧
  Z.of_nat (length s.(s_posted)) ≤ 512 ∧
  (∀ id, id ∈ s.(s_clients) ↔ ∃ c, s.(s_conns) !! id = Some c ∧ c.(c_closed) = false) ∧
  (∀ id c, s.(s_conns) !! id = Some c →
    outstanding id s ≤ c.(c_inflight) ≤ 32 ∧
    (s.(s_emergency) = false → s.(s_stopping) = false → c.(c_inflight) = outstanding id s) ∧
    size c.(c_input) ≤ kMaxFrame + 8192 + 4 ∧
    (c.(c_closed) = false →
       c.(c_output_bytes) = size (pending_bytes c) ∧ c.(c_output_bytes) ≤ kMaxOutput)).
Proof.
  intros Ha Hw <-. set (s := run_events _ _).
  destruct (inv_run_events Ha _ l (inv_started Ha w Hw))
    as [Hc Hfl Hcl Hn Hfr [Hct Hmax] [Hdb Hdbm] Hsp [Hp Hpm] Hpo Hpe Hj Hex _].
  fold s in Hc, Hfl, Hcl, Hct, Hmax, Hdb, Hdbm, Hp, Hpm, Hpo, Hex.
  split_and!; [lia|done|done|done|done|by destruct (s_stopping s), (s_stop_io s); simpl in *; lia|done|done|].
  intros id c Hi. specialize (Hfl _ _ Hi). rewrite decide_False in Hfl by done.
  split; [lia|]. split.
  { intros He Hst. rewrite (Hex He Hst id c Hi), decide_False by done. lia. }
  split; [by eapply co_input, Hc|]. intros Ho. by destruct (co_output _ (Hc _ _ Hi) Ho).
Qed.

(** C37: the output stream.  What the socket of a connection has been given is
    always the beginning of a sequence of whole encoded messages, and while
    the connection is open the bytes still pending complete it: no frame is
    cut, spliced or sent twice, whatever the socket accepts at a time. *)
Theorem server_stream w l id c :
  (∀ n, wf (env_content n)) → wf (w_db w) →
  (run_events (started w) l).(s_conns) !! id = Some c →
  ∃ frames rest, c.(c_sent) +:+ rest = foldr String.append "" frames ∧
    Forall (λ f, ∃ m, Encode m = Some f) frames ∧ (c.(c_closed) = false → rest = pending_bytes c).
Proof.
  intros Ha Hw Hi. pose proof (in_conn _ _ _ (inv_run_events Ha _ l (inv_started Ha w Hw)) _ _ Hi) as Hok.
  destruct (c_closed c) eqn:Ho.
  - destruct (co_sent _ Hok) as (rest & frames & Hf & Hall). by exists frames, rest.
  - destruct (oo_stream _ (co_output _ Hok Ho)) as (frames & Hf & Hall). by exists frames, (pending_bytes c).
Qed.

(** The daemon keeps the database.  Under any interleaving of client
    connections, parser threads, database jobs, timer ticks, profile changes
    and shutdown, and any failure of sockets and storage, the database under
    the daemon satisfies the integrity invariant. *)
Theorem server_integrity w l :
  (∀ n, wf (env_content n)) → wf (w_db w) → wf (w_db (run_events (started w) l).(s_world)).
Proof. intros Ha Hw. apply (in_world _ _ _ (inv_run_events Ha _ l (inv_started Ha w Hw))). Qed.
End reachable.
