(* ===== verification/ServerIo.v ===== *)
(** * Progress of the socket loops and framing (src/consentd/server.cc: Write,
    Receive)

    The loops of [Write] and [Receive] stop only where the code stops, so
    their fuel never matters, and the frames cut from the input do not depend
    on how the socket divides the stream. *)
From S2P Require Import Prelude Strings Platform Message Wire Packing Identity ProfileState Store.
From S2P Require Import Exec Logic Lifecycle Database Repository Server ServerInv.
From Stdlib Require Import Ascii.

Section writing.
Context `{Platform} `{Parcel} `{Inventory} `{Env} `{IoEnv} `{!IoLaws}.

(** How a call of [Write] may leave the connection: closed, drained, or
    blocked on the rest of the front frame. *)
Definition write_outcome (id : Z) (c c' : Connection) : Prop :=
  ∃ n, c'.(c_sent) = c.(c_sent) +:+ take_str n (pending_bytes c) ∧
    (c'.(c_closed) = true ∨
     (c'.(c_closed) = false ∧ pending_bytes c' = drop_str n (pending_bytes c) ∧
      (c'.(c_output) = [] ∨
       ∃ f rest t, c'.(c_output) = f :: rest ∧
         io_send t id (drop_str (Z.to_nat c'.(c_offset)) f.(fr_bytes)) = SendBlocked))).

Lemma connection_upd id f s c :
  s.(s_conns) !! id = Some c → connection id (set_s_conns (alter f id s.(s_conns)) s) = f c.
Proof. intros Hi. unfold connection. simpl. by rewrite lookup_alter_eq, Hi. Qed.

Lemma connection_Close id s :
  (connection id s).(c_closed) = false →
  connection id (Close id s).1 = closed_connection (connection id s).
Proof.
  intros Ho. unfold Close. rewrite io_getC, Ho, io_updC. simpl.
  pose proof (connection_open id s Ho) as Hid. unfold connection at 1. simpl.
  by rewrite lookup_alter_eq, Hid.
Qed.

Lemma take_str_0 s : take_str 0 s = "".
Proof. by destruct s. Qed.

Lemma take_str_add n m s : take_str n s +:+ take_str m (drop_str n s) = take_str (n + m) s.
Proof.
  revert s. induction n as [|n IH]; intros s; [by destruct s|].
  destruct s as [|c s]; [by destruct m|]. simpl. by rewrite <- IH.
Qed.

(** What a turn of the loop sends is the head of the pending bytes. *)
Lemma sent_bytes_split n f rest c :
  c.(c_output) = f :: rest → 0 ≤ c.(c_offset) → 0 < n ≤ size f.(fr_bytes) - c.(c_offset) →
  (sent_bytes n f rest c).(c_sent) = c.(c_sent) +:+ take_str (Z.to_nat n) (pending_bytes c) ∧
  pending_bytes (sent_bytes n f rest c) = drop_str (Z.to_nat n) (pending_bytes c).
Proof.
  intros Ho H0' Hn. destruct (sent_bytes_stream n f rest c Ho H0' Hn) as [Hst Hsz].
  set (x := substr (Z.to_nat (c_offset c)) (Z.to_nat n) (fr_bytes f)).
  assert (Hs : c_sent (sent_bytes n f rest c) = c_sent c +:+ x)
    by (unfold sent_bytes; by destruct (_ =? _)).
  assert (Hx : String.length x = Z.to_nat n).
  { unfold x, substr. rewrite length_take_str, length_drop_str. unfold size in *. lia. }
  rewrite Hs in *. rewrite app_assoc_s in Hst. apply app_inj_l in Hst. rewrite <- Hst, <- Hx.
  by rewrite take_str_app, drop_str_app.
Qed.

Lemma write_loop_outcome fuel id s c :
  s.(s_conns) !! id = Some c → conn_ok c → c.(c_closed) = false →
  (String.length (pending_bytes c) < fuel)%nat →
  write_outcome id c (connection id (write_loop fuel id s).1).
Proof.
  revert s c. induction fuel as [|fuel IH]; intros s c Hid Hok Hc Hfuel; [lia|].
  cbn [write_loop]. rewrite io_getC, (connection_some id s c Hid), Hc.
  assert (Hclosed : ∀ s', s'.(s_conns) = s.(s_conns) → write_outcome id c (connection id (Close id s').1)).
  { intros s' Hs'. assert (Hcon : connection id s' = c) by (unfold connection; by rewrite Hs', Hid).
    rewrite connection_Close by (by rewrite Hcon). rewrite Hcon. exists 0%nat.
    rewrite take_str_0, app_nil_r_s. split; [done|by left]. }
  destruct (c_output c) as [|f rest] eqn:Ho.
  { rewrite fst_updC, (connection_upd _ _ _ c) by done. exists 0%nat.
    rewrite take_str_0, app_nil_r_s. split; [done|]. right. simpl. rewrite Hc.
    split_and!; [done|done|by left]. }
  rewrite io_read. destruct (current_frame _ f); cbn [negb]; [|by apply Hclosed].
  rewrite io_read. cbn [s_tick set_s_tick]. set (s2 := set_s_tick _ (set_s_tick _ s)).
  destruct (io_send _ _ _) as [| |n] eqn:Hsend; [|by apply Hclosed|].
  { change (write_outcome id c (connection id s2)). change (connection id s2) with (connection id s).
    rewrite (connection_some id s c Hid). exists 0%nat. rewrite take_str_0, app_nil_r_s. split; [done|]. right.
    split_and!; [done|done|]. right. eauto. }
  destruct (Z.leb_spec n 0) as [|Hn]; [by apply Hclosed|]. rewrite io_updC.
  apply send_bound in Hsend. destruct (oo_offset _ (co_output _ Hok Hc)) as [H0' Hoff]. rewrite Ho in Hoff.
  assert (Hn' : 0 < n ≤ size (fr_bytes f) - c_offset c).
  { unfold size in *. rewrite length_drop_str in Hsend. lia. }
  destruct (sent_bytes_split n f rest c Ho H0' Hn') as [Hs1 Hp1].
  set (c1 := sent_bytes n f rest c) in *. set (s3 := set_s_conns _ s2).
  assert (Hid3 : s_conns s3 !! id = Some c1).
  { unfold s3, s2. simpl. by rewrite lookup_alter_eq, Hid. }
  assert (Hlen : (0 < String.length (pending_bytes c))%nat ∧
                 String.length (pending_bytes c1) = (String.length (pending_bytes c) - Z.to_nat n)%nat).
  { rewrite Hp1, length_drop_str. split; [|done]. rewrite (pending_cons c f rest) by (done || lia).
    rewrite length_app_s, length_drop_str. unfold size in *. lia. }
  destruct (IH s3 c1) as (m & Hsent & Hout); [done|by apply sent_bytes_ok| |lia|].
  { unfold c1, sent_bytes. by destruct (_ =? _). }
  exists (Z.to_nat n + m)%nat. split.
  - rewrite Hsent, Hs1, Hp1, app_assoc_s. by rewrite take_str_add.
  - destruct Hout as [Hout|(Ho' & Hp' & Hout)]; [by left|right].
    split_and!; [done| |done]. by rewrite Hp', Hp1, drop_drop_str.
Qed.

(** [Write] makes progress.  A call of [Write] on an open connection
    hands the socket a prefix of the pending bytes and then stops only with
    the connection closed, with nothing pending, or with the socket refusing
    the rest of the front frame; what was not sent stays pending. *)
Theorem Write_progress id s c :
  s.(s_conns) !! id = Some c → conn_ok c → c.(c_closed) = false →
  write_outcome id c (connection id (Write id s).1).
Proof.
  intros Hid Hok Hc. unfold Write. rewrite io_getC, (connection_some id s c Hid).
  apply write_loop_outcome; [done..|lia].
Qed.

(** No stale reply leaves.  When the front frame was produced under a
    profile generation that is no longer current, [Write] sends nothing and
    closes the connection, also when part of the frame had been sent. *)
Theorem Write_stale id s c f rest :
  s.(s_conns) !! id = Some c → c.(c_closed) = false → c.(c_output) = f :: rest →
  f.(fr_generation) ≠ "" → f.(fr_generation) ≠ to_string (io_generation s.(s_tick)) →
  (connection id (Write id s).1).(c_closed) = true ∧
  (connection id (Write id s).1).(c_sent) = c.(c_sent).
Proof.
  intros Hid Hc Ho Hg Hne. unfold Write. rewrite io_getC, (connection_some id s c Hid).
  cbn [write_loop]. rewrite io_getC, (connection_some id s c Hid), Hc, Ho, io_read.
  assert (current_frame (io_generation (s_tick s)) f = false) as ->.
  { unfold current_frame. apply empty_false in Hg. apply eqs_false in Hne. by rewrite Hg, Hne. }
  cbn [negb]. set (s1 := set_s_tick _ s). assert (Hcon : connection id s1 = c) by (by apply connection_some).
  rewrite connection_Close by (by rewrite Hcon). by rewrite Hcon.
Qed.
End writing.

Section reading.
Context `{Platform} `{Parcel} `{Inventory} `{Env} `{IoEnv}.

(** The reads of a call of [Receive]: the bytes read from instant [t] to
    instant [t'] on top of [input]; the first read after an empty input also
    reads the clock. *)
Inductive reads (id : Z) : string → nat → string → nat → Prop :=
| reads_done input t : reads id input t "" t
| reads_more input t bytes r t' :
    io_recv t id = Received bytes →
    reads id (input +:+ bytes) (if empty input then S (S t) else S t) r t' →
    reads id input t (bytes +:+ r) t'.

(** How a call of [Receive] may end: the connection closed, the body of the
    first frame handed to the parsers and the rest kept, or the socket drained
    before the frame was complete. *)
Definition receive_outcome (id : Z) (s s' : Server) : Prop :=
  ∃ r t, reads id (connection id s).(c_input) s.(s_tick) r t ∧
    let input := (connection id s).(c_input) +:+ r in
    let c' := connection id s' in
    c'.(c_closed) = true ∨
    (∃ payload, take_frame input = Some (payload, c'.(c_input)) ∧ c'.(c_parsing) = true ∧
       s'.(s_parse) = s.(s_parse) ++ [(id, payload)]) ∨
    (take_frame input = None ∧ io_recv t id = RecvBlocked ∧ c'.(c_input) = input ∧
     c'.(c_read_source) = true ∧ s'.(s_parse) = s.(s_parse)).

Lemma Close_closed id s : (connection id (Close id s).1).(c_closed) = true.
Proof.
  destruct (c_closed (connection id s)) eqn:Ho.
  - unfold Close. by rewrite io_getC, Ho.
  - by rewrite connection_Close.
Qed.

Lemma outcome_closed id s s1 : receive_outcome id s (Close id s1).1.
Proof. exists "", (s_tick s). split; [constructor|]. left. apply Close_closed. Qed.

(** A frame is taken. *)
Lemma receive_take id s c payload rest :
  s.(s_conns) !! id = Some c → take_frame c.(c_input) = Some (payload, rest) →
  receive_outcome id s ((updC id (set_c_input rest);; Parse id payload) s).1.
Proof.
  intros Hid Ht. rewrite io_updC. unfold Parse. rewrite io_getS. cbn [s_parse_jobs set_s_conns].
  destruct (s_parse_jobs s <? kMaxJobs); cbn [negb]; [|apply outcome_closed].
  rewrite io_updC, io_read. destruct (io_push _); cbn [negb]; [|apply outcome_closed].
  exists "", (s_tick s). split; [constructor|]. right; left. exists payload.
  rewrite app_nil_r_s, (connection_some id s c Hid). unfold connection. simpl.
  by rewrite !lookup_alter_eq, Hid.
Qed.

(** The socket has no more bytes. *)
Lemma receive_blocked id s c :
  s.(s_conns) !! id = Some c → c.(c_closed) = false → c.(c_parsing) = false →
  take_frame c.(c_input) = None → io_recv s.(s_tick) id = RecvBlocked →
  receive_outcome id s (ArmRead id (set_s_tick (S s.(s_tick)) s)).1.
Proof.
  intros Hid Hc Hp Ht Hr. exists "", (s_tick s). split; [constructor|]. right; right.
  rewrite app_nil_r_s, (connection_some id s c Hid). unfold ArmRead. rewrite io_getC.
  change (connection id (set_s_tick _ s)) with (connection id s).
  rewrite (connection_some id s c Hid), Hc, Hp. cbn [orb].
  destruct (c_read_source c) eqn:Hs; cbn [orb].
  - cbn [fst mret Io_ret]. change (connection id (set_s_tick _ s)) with (connection id s).
    by rewrite (connection_some id s c Hid).
  - rewrite fst_updC, (connection_upd _ _ _ c) by done. done.
Qed.

(** One read, then the rest of the call. *)
Lemma receive_more id s s1 bytes s' :
  io_recv s.(s_tick) id = Received bytes →
  (connection id s1).(c_input) = (connection id s).(c_input) +:+ bytes →
  s1.(s_tick) = (if empty (connection id s).(c_input) then S (S s.(s_tick)) else S s.(s_tick)) →
  s1.(s_parse) = s.(s_parse) →
  receive_outcome id s1 s' → receive_outcome id s s'.
Proof.
  intros Hr Hin Ht Hp (r & t & Hreads & Hout). rewrite Hin, Ht, Hp in *.
  exists (bytes +:+ r), t. split; [by econstructor|]. by rewrite app_assoc_s in Hout.
Qed.

Lemma receive_loop_outcome fuel id s c :
  s.(s_conns) !! id = Some c → c.(c_closed) = false → c.(c_parsing) = false →
  (0 < fuel)%nat → kMaxFrame + 8192 + 4 - size c.(c_input) < Z.of_nat fuel →
  receive_outcome id s (receive_loop fuel id s).1.
Proof.
  revert s c. induction fuel as [|fuel IH]; intros s c Hid Hc Hp Hpos Hfuel; [lia|].
  cbn [receive_loop]. rewrite io_getC, (connection_some id s c Hid).
  destruct (bad_frame _); [apply outcome_closed|].
  destruct (take_frame (c_input c)) as [[payload rest]|] eqn:Ht; [by eapply receive_take|].
  rewrite io_read. destruct (io_recv _ _) as [| |bytes] eqn:Hr;
    [by eapply receive_blocked|apply outcome_closed|].
  destruct (empty bytes) eqn:Hb; [apply outcome_closed|].
  assert (Hsz : 0 < size bytes) by (destruct bytes; [done|unfold size; simpl; lia]).
  assert (Hstep : ∀ s1 c1, s_conns s1 !! id = Some c1 → c_closed c1 = false → c_parsing c1 = false →
    c_input c1 = c_input c → s_parse s1 = s_parse s →
    s_tick s1 = (if empty (c_input c) then S (S (s_tick s)) else S (s_tick s)) →
    receive_outcome id s
      (((updC id (λ c, set_c_input (c_input c +:+ bytes) c);;
         if size (c_input c) + size bytes >? kMaxFrame + 8192 + 4 then Close id
         else receive_loop fuel id) : Io ()) s1).1).
  { intros s1 c1 Hid1 Hc1 Hp1 Hin1 Hq1 Ht1. rewrite io_updC.
    destruct (Z.gtb_spec (size (c_input c) + size bytes) (kMaxFrame + 8192 + 4)); [apply outcome_closed|].
    set (s2 := set_s_conns _ s1).
    assert (Hid2 : s_conns s2 !! id = Some (set_c_input (c_input c1 +:+ bytes) c1))
      by (unfold s2; simpl; by rewrite lookup_alter_eq, Hid1).
    apply (receive_more id s s2 bytes); rewrite ?(connection_some _ _ _ Hid), ?(connection_some _ _ _ Hid2);
      [done|by rewrite <- Hin1|done|done|].
    apply (IH s2 _ Hid2); [done|done| |]; cbn [c_input set_c_input]; rewrite ?size_app, ?Hin1; lia. }
  destruct (empty (c_input c)) eqn:He.
  - rewrite io_read_upd. eapply Hstep; [simpl; by rewrite lookup_alter_eq, Hid|done..].
  - rewrite io_ret. by eapply Hstep.
Qed.

(** C40: [Receive] is total and frames the stream.  On an open connection that
    is not being parsed, a call reads some bytes and ends in one of three ways,
    never by running out of turns: the connection is closed; or the body of the
    first complete frame of the bytes kept and read goes to the parsers, the
    connection waits for them and keeps exactly the bytes behind the frame; or
    the socket has nothing more to give before a frame is complete, all bytes
    are kept and the socket is watched. *)
Theorem Receive_framing id s c :
  s.(s_conns) !! id = Some c → c.(c_closed) = false → c.(c_parsing) = false →
  s.(s_stopping) = false →
  receive_outcome id s (Receive id s).1.
Proof.
  intros Hid Hc Hp Hs. unfold Receive. rewrite io_getS, (connection_some id s c Hid), Hc, Hp, Hs.
  cbn [orb]. pose proof (size_nonneg (c_input c)).
  apply (receive_loop_outcome _ _ _ c); [done..| |]; unfold receive_fuel, kMaxFrame; lia.
Qed.
End reading.

Section frames.
Context `{Platform} `{!Parcel} `{!ParcelLaws}.

Lemma size_header sz : size (frame_header sz) = 4.
Proof. done. Qed.

Lemma frame_size_prefix p q : 4 ≤ size p → frame_size p = frame_size (p +:+ q).
Proof.
  do 4 (destruct p as [|? p]; [unfold size; simpl; intros Hp; exfalso; lia|]). intros _.
  by rewrite !app_cons_s.
Qed.

(** Encoded messages are cut out of any stream.  Behind whatever frame
    [Encode] has produced any bytes may follow: the server takes exactly the
    frame's body, which decodes to the message, and keeps exactly what
    follows; and no part of the frame that ends before it is complete is
    taken for a frame or refused, so the division of the stream into reads
    does not matter. *)
Theorem frame_of_stream m frame :
  Encode m = Some frame →
  (∀ rest, bad_frame (frame +:+ rest) = false ∧
     ∃ body, take_frame (frame +:+ rest) = Some (body, rest) ∧ Decode body = Some (canonical m)) ∧
  (∀ p q, frame = p +:+ q → q ≠ "" → bad_frame p = false ∧ take_frame p = None).
Proof.
  intros He. destruct (Decode_frame m frame He) as (body & -> & Hfs & Hmax & Hd).
  assert (Hpos : 0 < size body).
  { unfold Decode in Hd. destruct ((size body <? 29) || _) eqn:Hlow in Hd; [done|lia]. }
  pose proof (size_header (size body)) as Hh. unfold kMaxFrameSize in Hmax. split.
  - intros rest. rewrite app_assoc_s. unfold bad_frame, take_frame.
    rewrite frame_size_header, !size_app, Hh by lia. pose proof (size_nonneg rest). split.
    + unfold kMaxFrame. lia.
    + exists body. assert ((4 + (size body + size rest) <? 4) = false) as -> by lia.
      assert ((4 + (size body + size rest) >=? size body + 4) = true) as -> by lia.
      rewrite (drop_str_size 4) by done. rewrite take_str_size, drop_str_size by lia. done.
  - intros p q Hpq Hq. assert (Hsz : size p + size q = 4 + size body)
      by (rewrite <- size_app, <- Hpq, size_app; lia).
    assert (0 < size q) by (destruct q; [done|unfold size; simpl; lia]).
    unfold bad_frame, take_frame. destruct (Z.ltb_spec (size p) 4).
    + assert ((size p >=? 4) = false) as -> by lia. done.
    + rewrite (frame_size_prefix p q) by lia. rewrite <- Hpq, Hfs. unfold kMaxFrame.
      assert ((size p >=? size body + 4) = false) as -> by lia. split; [lia|done].
Qed.
End frames.
