(* ===== verification/Atomicity.v ===== *)
(** * Failed operations change nothing

    Every operation of the repository writes inside one transaction whose
    commit is its last step that can fail, but for one race: the profile
    authority may change while the transaction commits.  An operation that
    throws therefore leaves the database as it found it, or it lost this race
    and its approvals were retired, or the repository is fenced. *)
From S2P Require Import Prelude Strings Platform Message Packing Approval Localization Registration.
From S2P Require Import ProfileState Store Exec Logic Lifecycle Sessions Grants Requests Prompts.
From S2P Require Import Artifacts Registry Database Repository.

(** ** Not ending the transaction *)

(** [m] neither opens nor ends a transaction. *)
Definition held {A} (m : M A) : Prop := ∀ w, w_saved (m w).1 = w_saved w.

(** The approvals of an operation whose commit raced with the profile
    authority are retired: the grants it recorded are revoked and the request
    it recorded is invalidated, without a token. *)
Record retired (w : World) : Prop := mk_retired {
  rt_grants : ∀ g, g ∈ (w_db w).(db_grants) → g.(g_id) ∈ w.(new_profile_grants_) → g.(g_revoked) = 1;
  rt_request : ∀ r, r ∈ (w_db w).(db_requests) → r.(r_id) = w.(new_profile_request_) →
    w.(new_profile_request_) ≠ "" → r.(r_state) = "INVALIDATED" ∧ r.(r_token) = "";
}.

(** How an operation throws after its commit. *)
Definition raced `{Platform} `{Env} (w : World) (f : Failure) : Prop :=
  (∃ authority n m, env_profiles = Some authority ∧ (n < m)%nat ∧
    ps_generation (authority n) ≠ ps_generation (authority m)) ∧
  w_saved w = None ∧
  (f = mkFailure (- ESTALE) "profile changed during transaction commit" SQLITE_OK ∧ retired w ∨
   f = mkFailure kStorage "profile approval retirement failed" SQLITE_OK ∧
     w.(profile_compensation_failed_) = true ∧ w.(fenced_) = true).

(** [m] does not end the transaction if it throws, unless it loses the race. *)
Definition late `{Platform} `{Env} (race : bool) {A} (m : M A) : Prop :=
  ∀ w w' f, m w = (w', Throw f) → w_saved w' = w_saved w ∨ race = true ∧ raced w' f.

(** [m] does not throw. *)
Definition total {A} (m : M A) : Prop := ∀ w w' f, m w ≠ (w', Throw f).

(** Outside a transaction, [m] leaves the database unchanged if it throws,
    unless it loses the race. *)
Definition atomic `{Platform} `{Env} (race : bool) {A} (m : M A) : Prop :=
  ∀ w w' f, w_saved w = None → m w = (w', Throw f) → w_db w' = w_db w ∨ race = true ∧ raced w' f.

Section rules.
Context `{Platform} `{Env} (race : bool).

Lemma held_ret {A} (a : A) : held (mret a).
Proof. done. Qed.

Lemma held_lift {A} (o : outcome A) : held (lift o).
Proof. done. Qed.

Lemma held_gets {A} (f : World → A) : held (gets f).
Proof. done. Qed.

Lemma held_modify f : (∀ w, w_saved (f w) = w_saved w) → held (modify f).
Proof. intros Hf w. apply Hf. Qed.

Lemma held_observe {A} (f : nat → A) : held (observe f).
Proof. done. Qed.

Lemma held_bind {A B} (m : M A) (k : A → M B) : held m → (∀ a, held (k a)) → held (m ≫= k).
Proof.
  intros Hm Hk w. specialize (Hm w). unfold mbind, M_bind.
  destruct (m w) as [w' [a|f]]; simpl in *; [|done]. rewrite Hk. done.
Qed.

Lemma held_catch {A} (m : M A) h : held m → (∀ f, held (h f)) → held (catch m h).
Proof.
  intros Hm Hh w. specialize (Hm w). unfold catch.
  destruct (m w) as [w' [a|f]]; simpl in *; [done|]. rewrite Hh. done.
Qed.

Lemma held_for_each {A} (l : list A) body : (∀ a, held (body a)) → held (for_each l body).
Proof.
  intros Hb. induction l as [|x l IH]; simpl; [apply held_ret|]. apply held_bind; [apply Hb|done].
Qed.

Lemma held_fold_m {A S} (l : list A) (body : S → A → M S) s :
  (∀ s a, held (body s a)) → held (fold_m l body s).
Proof.
  intros Hb. revert s. induction l as [|x l IH]; intros s; simpl; [apply held_ret|].
  apply held_bind; [apply Hb|done].
Qed.

Lemma held_sql {A} (m : M A) : held m → held (sql m).
Proof.
  intros Hm. with_strategy transparent [sql] unfold sql.
  apply held_bind; [apply held_observe|]. intros []; [apply held_lift|done].
Qed.

Lemma held_query {A} (f : DB → A) : held (query f).
Proof. apply held_sql, held_gets. Qed.

Lemma held_statement f : held (statement f).
Proof. apply held_sql. by apply held_modify. Qed.

Lemma held_insert f : held (insert_stmt f).
Proof. apply held_sql. intros w. by destruct (f (w_db w)). Qed.

(** A nested scope ends before its surroundings go on. *)
Lemma late_held {A} (m : M A) : held m → late race m.
Proof. intros Hm w w' f Hrun. specialize (Hm w). rewrite Hrun in Hm. by left. Qed.

Lemma late_bind {A B} (m : M A) (k : A → M B) : held m → (∀ a, late race (k a)) → late race (m ≫= k).
Proof.
  intros Hm Hk w w' f. specialize (Hm w). unfold mbind, M_bind.
  destruct (m w) as [w1 [a|f1]]; simpl in *.
  - intros [Hrun|Hrun]%Hk; [left; congruence|by right].
  - intros [= <- <-]. by left.
Qed.

Lemma late_then {A B} (m : M A) (k : A → M B) : late race m → (∀ a, total (k a)) → late race (m ≫= k).
Proof.
  intros Hm Hk w w' f. unfold mbind, M_bind. destruct (m w) as [w1 [a|f1]] eqn:E; simpl.
  - intros Hrun. by apply Hk in Hrun.
  - intros [= <- <-]. by eapply Hm.
Qed.

Lemma late_Commit : late race Commit.
Proof.
  intros w w' f. unfold Commit, mbind, M_bind, observe. simpl.
  destruct (env_commit _); [|done]. intros [= <- <-]. by left.
Qed.

Lemma total_ret {A} (a : A) : total (mret a).
Proof. done. Qed.

Lemma total_gets {A} (f : World → A) : total (gets f).
Proof. done. Qed.

Lemma total_modify f : total (modify f).
Proof. done. Qed.

Lemma total_observe {A} (f : nat → A) : total (observe f).
Proof. done. Qed.

Lemma total_bind {A B} (m : M A) (k : A → M B) : total m → (∀ a, total (k a)) → total (m ≫= k).
Proof.
  intros Hm Hk w w' f. unfold mbind, M_bind. destruct (m w) as [w1 [a|f1]] eqn:E.
  - apply Hk.
  - by apply Hm in E.
Qed.

(** A scope that was not committed is rolled back. *)
Lemma atomic_transaction {A} (body : M A) : late race body → atomic race (transaction body).
Proof.
  intros Hb w w' f Hs. unfold transaction. destruct (env_begin _); [by intros [= <- <-]; left|].
  destruct (body _) as [w1 r] eqn:E. destruct (w_saved w1) eqn:Es; intros [= <- ->].
  - apply Hb in E as [E|(_ & _ & E & _)]; [|congruence]. simpl in E. rewrite Es in E. injection E as ->. by left.
  - apply Hb in E as [E|E]; [simpl in E; congruence|by right].
Qed.

Lemma atomic_bind {A B} (m : M A) (k : A → M B) :
  reads m → held m → (∀ a, atomic race (k a)) → atomic race (m ≫= k).
Proof.
  intros Hr Hm Hk w w' f Hs. specialize (Hm w). destruct (Hr w) as [Hd _].
  unfold mbind, M_bind. destruct (m w) as [w1 [a|f1]]; simpl in *.
  - intros [Hrun|Hrun]%Hk; [left; congruence|by right|congruence].
  - intros [= <- <-]. by left.
Qed.

Lemma atomic_then {A B} (m : M A) (k : A → M B) : atomic race m → (∀ a, total (k a)) → atomic race (m ≫= k).
Proof.
  intros Hm Hk w w' f Hs. unfold mbind, M_bind. destruct (m w) as [w1 [a|f1]] eqn:E; simpl.
  - intros Hrun. by apply Hk in Hrun.
  - intros [= <- <-]. by eapply Hm.
Qed.

Lemma atomic_reads {A} (m : M A) : reads m → atomic race m.
Proof. intros Hr w w' f _ Hrun. destruct (Hr w) as [Hd _]. rewrite Hrun in Hd. by left. Qed.
End rules.

(** ** Automation

    [held_step] decomposes a program; a named operation is looked up in the
    hint database [atomicity] and otherwise unfolded. *)
Create HintDb atomicity.
#[export] Hint Constants Opaque : atomicity.

Ltac program_head m :=
  lazymatch m with
  | ?f _ => program_head f
  | _ => m
  end.

Ltac held_step :=
  lazymatch goal with
  | |- held (mret _) => apply held_ret
  | |- held (lift _) => apply held_lift
  | |- held (throw _ _) => apply held_lift
  | |- held (require _ _ _) => apply held_lift
  | |- held (gets _) => apply held_gets
  | |- held (observe _) => apply held_observe
  | |- held (query _) => apply held_query
  | |- held (statement _) => apply held_statement
  | |- held (insert_stmt _) => apply held_insert
  | |- held (modify _) => apply held_modify; reflexivity
  | |- held (_ ≫= _) => apply held_bind; [|intros ?]
  | |- held (catch _ _) => apply held_catch; [|intros ?]
  | |- held (for_each _ _) => apply held_for_each; intros ?
  | |- held (fold_m _ _ _) => apply held_fold_m; intros ? ?
  | |- held (let (_, _) := ?x in _) => destruct x
  | |- held (if ?x then _ else _) => destruct x
  | |- held (match ?x with _ => _ end) => destruct x
  | |- held ?m =>
      first [solve [auto with atomicity nocore]
            |let h := program_head m in progress unfold h]
  end.

Ltac solve_held := repeat (cbv beta zeta; held_step).

Ltac solve_total :=
  repeat (cbv beta zeta;
    lazymatch goal with
    | |- total (mret _) => apply total_ret
    | |- total (gets _) => apply total_gets
    | |- total (modify _) => apply total_modify
    | |- total (observe _) => apply total_observe
    | |- total (_ ≫= _) => apply total_bind; [|intros ?]
    | |- total (if ?x then _ else _) => destruct x
    | |- total (match ?x with _ => _ end) => destruct x
    | |- total ?m => let h := program_head m in progress unfold h
    end).

Ltac late_step :=
  lazymatch goal with
  | |- late _ (let (_, _) := ?x in _) => destruct x
  | |- late _ (if ?x then _ else _) => destruct x
  | |- late _ (match ?x with _ => _ end) => destruct x
  | |- late _ (_ ≫= _) =>
      first [apply late_bind; [solve [solve_held]|intros ?]
            |apply late_then; [|intros ?; solve [solve_total]]]
  | |- late _ ?m =>
      first [solve [auto with atomicity nocore]
            |solve [apply late_held; solve_held]
            |let h := program_head m in progress unfold h]
  end.

Ltac solve_late := repeat (cbv beta zeta; late_step).

#[export] Hint Resolve late_Commit : atomicity.

(** ** The parts of the operations *)

Section parts.
Context `{Platform} `{Env}.

Lemma held_SessionState peer request active owner : held (SessionState peer request active owner).
Proof. solve_held. Qed.

Hint Resolve held_SessionState : atomicity.

Lemma held_first_covering request rows : held (first_covering request rows).
Proof. induction rows as [|g rows IH]; simpl; solve_held. Qed.

Hint Resolve held_first_covering : atomicity.

Lemma held_CheckConditions peer request enforce : held (CheckConditions peer request enforce).
Proof. solve_held. Qed.

Lemma held_receipt_definitions payload indices : held (receipt_definitions payload indices).
Proof. induction indices as [|i indices IH]; simpl; solve_held. Qed.

Hint Resolve held_CheckConditions held_receipt_definitions : atomicity.

Lemma held_ReceiptValid receipt : held (ReceiptValid receipt).
Proof. solve_held. Qed.

Lemma held_RequestRow peer request ui : held (RequestRow peer request ui).
Proof. solve_held. Qed.

Hint Resolve held_ReceiptValid held_RequestRow : atomicity.

Lemma held_prompt_open peer request respond : held (prompt_open peer request respond).
Proof. solve_held. Qed.

Lemma held_prompt_render p locale : held (prompt_render p locale).
Proof. solve_held. Qed.

Lemma held_provenance peer request artifact : held (ValidateArtifactProvenance peer request artifact).
Proof. solve_held. Qed.

Lemma held_WriteRegistry definitions operations revision :
  held (WriteRegistry definitions operations revision).
Proof. solve_held. Qed.
End parts.

#[export] Hint Resolve held_SessionState held_first_covering held_CheckConditions
  held_receipt_definitions held_ReceiptValid held_RequestRow held_prompt_open held_prompt_render
  held_provenance held_WriteRegistry : atomicity.

Section operations.
Context `{Platform} `{Env}.

(** The compensating transaction retires what the operation recorded. *)
Lemma profile_retire_run w w' u : profile_retire w = (w', Ret u) → w_saved w' = None ∧ retired w'.
Proof.
  intros Hrun. unfold profile_retire in Hrun. apply transaction_run in Hrun as (w1 & Hrun & Hend).
  run Hrun as Hg. run Hrun as Hloop. run Hrun as Hq. run Hrun as Hreq. run Hrun as Hb.
  unfold Bump in Hb. run_steps Hb. unfold Commit in Hrun. run Hrun as Hc.
  destruct (env_commit _); [by run_steps Hrun|]. run_steps Hrun. rewrite (Hend eq_refl). split; [done|].
  set (kept w2 := w2.(new_profile_grants_) = w.(new_profile_grants_) ∧
    w2.(new_profile_request_) = w.(new_profile_request_)).
  apply (for_each_run _ (λ pre w2, kept w2 ∧
    ∀ g, g ∈ (w_db w2).(db_grants) → g.(g_id) ∈ pre → g.(g_revoked) = 1)) in Hloop.
  - clear Hend. destruct Hloop as [[Hk1 Hk2] Hg].
    change (new_profile_grants_ (begun w)) with (new_profile_grants_ w) in Hg. rewrite <- Hk1 in Hg.
    destruct (new_profile_request_ w0) as [|c request] eqn:Enp; cbn [empty negb] in Hreq.
    + run_steps Hreq. split; simpl; [exact Hg|]. by rewrite Enp.
    + apply run_statement in Hreq. subst w2. split; simpl; [exact Hg|]. rewrite Enp.
      intros r (r0 & _ & ->)%elem_of_update_where Hid _.
      destruct (eqs (r_id r0) (String c request)) eqn:Eq; [done|]. str_hyps. done.
  - by split; [|set_solver].
  - intros pre id wa wb v _ [Hk Hr] Hst%run_statement. subst wb. split; [done|]. simpl.
    intros g (g0 & Hg0 & ->)%elem_of_update_where Hin.
    destruct (eqs (g_id g0) id) eqn:Eq; [done|]. apply Hr; [done|]. str_hyps.
    apply elem_of_app in Hin as [|Heq%list_elem_of_singleton]; done.
Qed.

Lemma transaction_saved {A} (body : M A) w w' r :
  w_saved w = None → transaction body w = (w', r) → w_saved w' = None.
Proof.
  intros Hs. unfold transaction. destruct (env_begin _); [by intros [= <- _]|].
  destruct (body _) as [w1 r1]. destruct (w_saved w1) eqn:E; by intros [= <- _].
Qed.

Lemma Commit_ran w w' u : Commit w = (w', Ret u) → w_saved w' = None ∧ (w_tick w < w_tick w')%nat.
Proof.
  unfold Commit. intros Hrun. run Hrun as Hc. destruct (env_commit _); [by run_steps Hrun|].
  run_steps Hrun. simpl. split; [done|lia].
Qed.

(** A commit that throws has not happened, or it raced with the authority. *)
Lemma late_ProfileCommit : late true ProfileCommit.
Proof.
  unfold ProfileCommit, profiles_enabled, profiles_generation.
  destruct env_profiles as [g|] eqn:E; [|intros w w' f Hrun; exact (late_Commit true w w' f Hrun)].
  apply late_bind; [apply held_observe|]. intros [|]; simpl; [|apply late_Commit].
  intros w w' f Hrun. unfold mbind at 1, M_bind at 1, observe at 1 in Hrun.
  set (w1 := set_w_tick _ w) in Hrun. change (w_saved w) with (w_saved w1).
  unfold mbind at 1, M_bind at 1, gets at 1 in Hrun.
  destruct (operation_profile_generation_ w1 =? ps_generation (g (w_tick w))) eqn:Eg;
    simpl in Hrun; [|injection Hrun as <- <-; by left].
  unfold mbind at 1, M_bind at 1, require, Require, lift in Hrun. cbv beta iota in Hrun.
  unfold mbind at 1, M_bind at 1 in Hrun. destruct (Commit w1) as [w2 [u|f1]] eqn:Ec;
    [|injection Hrun as <- <-; exact (late_Commit true _ _ _ Ec)]. right. split; [done|].
  pose proof (Commit_ran _ _ _ Ec) as [Hsaved Htick].
  unfold mbind at 1, M_bind at 1, observe at 1 in Hrun. set (w3 := set_w_tick _ w2) in Hrun.
  change (operation_profile_generation_ w) with (operation_profile_generation_ w1) in Hrun.
  destruct (operation_profile_generation_ w1 =? ps_generation (g (w_tick w2))) eqn:Eg2; [done|].
  apply Z.eqb_eq in Eg. apply Z.eqb_neq in Eg2.
  split; [exists g, (w_tick w), (w_tick w2); split; [done|]; split; [simpl in Htick; lia|congruence]|].
  unfold mbind, M_bind, catch in Hrun. destruct (profile_retire w3) as [w4 [v|f4]] eqn:Er.
  - apply profile_retire_run in Er as [Hs Hr]. injection Hrun as <- <-. split; [done|by left].
  - injection Hrun as <- <-. simpl. split; [|by right]. by eapply (transaction_saved _ w3).
Qed.


Hint Resolve late_ProfileCommit : atomicity.

Lemma late_evaluate_fresh peer request payload fingerprint create authorize :
  late true (evaluate_fresh peer request payload fingerprint create authorize).
Proof. solve_late. Qed.

(** A retry shortcut commits only if it ends the operation. *)
Lemma late_shortcut {A} (m : M (option A)) (k : M A) :
  late true m → (∀ w w', m w = (w', Ret None) → w_saved w' = w_saved w) → late true k →
  late true (r ← m; match r with Some a => mret a | None => k end).
Proof.
  intros Hm Hn Hk w w' f. unfold mbind, M_bind. destruct (m w) as [w1 [[a|]|f1]] eqn:E; simpl.
  - done.
  - intros Hrun%Hk. apply Hn in E. congruence.
  - intros [= <- <-]. by eapply Hm.
Qed.

Lemma request_retry_none peer request fingerprint w w' :
  request_retry peer request fingerprint w = (w', Ret None) → w_saved w' = w_saved w.
Proof.
  unfold request_retry. intros Hrun. run Hrun as H1. run Hrun as H2.
  destruct (find_row _ _); [|by run_steps Hrun].
  run Hrun as H3. run Hrun as H4. run Hrun as H5. run_steps Hrun. done.
Qed.

Lemma atomic_Evaluate peer request create : atomic true (Evaluate peer request create).
Proof.
  apply atomic_bind; [apply reads_evaluate_guards|solve_held|intros _].
  apply atomic_transaction. do 5 (cbv beta zeta; late_step). cbv zeta. apply late_shortcut.
  - solve_late.
  - intros w w'. repeat case_match; intros Hrun.
    + by apply authorize_retry_run in Hrun as (_ & _ & Hs & _).
    + by eapply request_retry_none.
    + by run_steps Hrun.
  - apply late_evaluate_fresh.
Qed.

Lemma atomic_Result peer request cancel : atomic true (Result peer request cancel).
Proof.
  apply atomic_bind; [unfold reads; solve_evolves|solve_held|intros _].
  apply atomic_transaction. solve_late.
Qed.

Lemma atomic_Prompt peer request respond : atomic true (Prompt peer request respond).
Proof.
  apply atomic_bind; [unfold reads; solve_evolves|solve_held|intros _].
  apply atomic_transaction. solve_late.
Qed.

Lemma atomic_Session peer request : atomic true (Session peer request).
Proof.
  apply atomic_bind; [unfold reads; solve_evolves|solve_held|intros _]. cbv zeta.
  destruct (_ || _); [apply atomic_reads; unfold reads; solve_evolves|].
  do 2 (apply atomic_bind; [unfold reads; solve_evolves|solve_held|intros _]).
  apply atomic_transaction. solve_late.
Qed.

Lemma atomic_Data peer request : atomic true (Data peer request).
Proof.
  do 2 (apply atomic_bind; [unfold reads; solve_evolves|solve_held|intros ?]).
  apply atomic_transaction. solve_late.
Qed.

Lemma atomic_Revoke peer request : atomic true (Revoke peer request).
Proof.
  do 3 (apply atomic_bind; [unfold reads; solve_evolves|solve_held|intros ?]).
  apply atomic_transaction. solve_late.
Qed.

Ltac atomic_step :=
  lazymatch goal with
  | |- atomic _ (transaction _) => apply atomic_transaction; solve [solve_late]
  | |- atomic _ (if ?x then _ else _) => destruct x
  | |- atomic _ (match ?x with _ => _ end) => destruct x
  | |- atomic _ (_ ≫= _) =>
      first [apply atomic_bind;
               [solve [eauto with consent nocore|unfold reads; solve_evolves]|solve [solve_held]
               |intros ?]
            |apply atomic_then; [|intros ?; solve [solve_total]]]
  | |- atomic _ ?m =>
      first [solve [auto with atomicity nocore]
            |solve [apply atomic_reads; unfold reads; solve_evolves]
            |let h := program_head m in progress unfold h]
  end.

Ltac solve_atomic := repeat (cbv beta zeta; atomic_step).

Lemma atomic_Replay race : atomic race Replay.
Proof. solve_atomic. Qed.

Hint Resolve atomic_Replay : atomicity.

Lemma atomic_Register peer request remove : atomic true (Register peer request remove).
Proof. solve_atomic. Qed.

Hint Resolve atomic_Evaluate atomic_Register : atomicity.

Lemma atomic_dispatch peer request : atomic true (dispatch peer request).
Proof. solve_atomic. Qed.
End operations.

(** ** What an operation records

    [ProfileCommit] can only retire the grants listed in [new_profile_grants_]
    and the request named by [new_profile_request_].  [tracks pin w w'] says
    that every grant that [w'] has and [w] does not is on the list, and, when
    [pin] is set, that the name is still the same. *)
Definition grant_ids (d : DB) : list string := g_id <$> d.(db_grants).

Record tracks (pin : bool) (w w' : World) : Prop := mk_tracks {
  tk_listed : w.(new_profile_grants_) ⊆ w'.(new_profile_grants_);
  tk_named : pin = true → w'.(new_profile_request_) = w.(new_profile_request_);
  tk_saved : w_saved w' = w_saved w ∨ w_saved w' = None;
  tk_grants : ∀ id, id ∈ grant_ids (w_db w') → id ∈ grant_ids (w_db w) ∨ id ∈ w'.(new_profile_grants_);
}.

#[export] Instance tracks_preorder pin : PreOrder (tracks pin).
Proof.
  split.
  - intros w. split; auto.
  - intros w1 w2 w3 [A1 A2 A3 A4] [B1 B2 B3 B4]. split.
    + set_solver.
    + intros Hp. rewrite B2, A2; done.
    + destruct B3 as [-> | ->]; auto.
    + intros id [Hid|Hid]%B4; [apply A4 in Hid as [?|?]; auto|auto].
Qed.

Definition tracked (pin : bool) {A} (m : M A) : Prop := ∀ w, tracks pin w (m w).1.

Section tracking.
Context `{Platform} `{Env} (pin : bool).

Lemma tracks_db w d : (∀ id, id ∈ grant_ids d → id ∈ grant_ids (w_db w)) → tracks pin w (set_w_db d w).
Proof. intros Hd. split; simpl; auto. Qed.

Lemma tracked_same {A} (m : M A) : (∀ w, (m w).1 = w) → tracked pin m.
Proof. intros Hm w. by rewrite Hm. Qed.

Lemma tracked_tick w n : tracks pin w (set_w_tick n w).
Proof. split; simpl; auto. Qed.

Lemma tracked_observe {A} (f : nat → A) : tracked pin (observe f).
Proof. intros w. apply tracked_tick. Qed.

Lemma tracked_bind_at {A B} (m : M A) (k : A → M B) w :
  tracks pin w (m w).1 → (∀ a w', m w = (w', Ret a) → tracks pin w' (k a w').1) → tracks pin w ((m ≫= k) w).1.
Proof.
  intros Hm Hk. unfold mbind, M_bind. destruct (m w) as [w' [a|f]] eqn:E; simpl in *; [|done].
  etrans; [exact Hm|by apply Hk].
Qed.

Lemma tracked_bind {A B} (m : M A) (k : A → M B) : tracked pin m → (∀ a, tracked pin (k a)) → tracked pin (m ≫= k).
Proof. intros Hm Hk w. apply tracked_bind_at; [apply Hm|]. intros a w' _. apply Hk. Qed.

Lemma tracked_catch {A} (m : M A) h : tracked pin m → (∀ f, tracked pin (h f)) → tracked pin (catch m h).
Proof.
  intros Hm Hh w. specialize (Hm w). unfold catch. destruct (m w) as [w' [a|f]]; simpl in *; [done|].
  etrans; [exact Hm|apply Hh].
Qed.

Lemma tracked_for_each {A} (l : list A) body : (∀ a, tracked pin (body a)) → tracked pin (for_each l body).
Proof. intros Hb. induction l as [|x l IH]; [by apply tracked_same|]. by apply tracked_bind. Qed.

Lemma tracked_fold_m {A S} (l : list A) (body : S → A → M S) s :
  (∀ s a, tracked pin (body s a)) → tracked pin (fold_m l body s).
Proof. intros Hb. revert s. induction l as [|x l IH]; intros s; [by apply tracked_same|]. by apply tracked_bind. Qed.

Lemma tracked_sql {A} (m : M A) : tracked pin m → tracked pin (sql m).
Proof.
  intros Hm. with_strategy transparent [sql] unfold sql.
  apply tracked_bind; [apply tracked_observe|]. intros []; [by apply tracked_same|done].
Qed.

Lemma tracked_query {A} (f : DB → A) : tracked pin (query f).
Proof. apply tracked_sql. by apply tracked_same. Qed.

Lemma tracked_statement f : (∀ d id, id ∈ grant_ids (f d) → id ∈ grant_ids d) → tracked pin (statement f).
Proof. intros Hf. apply tracked_sql. intros w. apply tracks_db, Hf. Qed.

Lemma tracked_insert f : (∀ d d', f d = inr d' → db_grants d' = db_grants d) → tracked pin (insert_stmt f).
Proof.
  intros Hf. apply tracked_sql. intros w. destruct (f (w_db w)) as [rc|d] eqn:E; simpl; [reflexivity|].
  apply tracks_db. unfold grant_ids. by rewrite (Hf _ _ E).
Qed.

Lemma tracked_Commit : tracked pin Commit.
Proof.
  apply tracked_bind; [apply tracked_observe|]. intros []; [by apply tracked_same|].
  intros w. split; simpl; auto.
Qed.

(** Rolled back or not, a scope keeps the list. *)
Lemma tracked_transaction {A} (body : M A) : tracked pin body → tracked pin (transaction body).
Proof.
  intros Hb w. unfold transaction. destruct (env_begin _); [apply tracked_tick|].
  specialize (Hb (begun w)). unfold begun in Hb. destruct (body _) as [w1 r]; simpl in Hb.
  destruct Hb as [B1 B2 B3 B4]. destruct (w_saved w1) as [saved|] eqn:Es; simpl.
  - destruct B3 as [B3|?]; [|done]. simpl in B3. injection B3 as ->. split; simpl; auto.
  - split; auto.
Qed.

(** The identifier of a new grant is listed before the grant is stored. *)
Lemma tracked_record row :
  tracked pin (modify (λ w, set_new_profile_grants_ (w.(new_profile_grants_) ++ [g_id row]) w);;
               insert_stmt (ins_grant row)).
Proof.
  intros w. unfold mbind, M_bind, modify. cbv beta iota. set (w1 := set_new_profile_grants_ _ w).
  assert (Hw1 : tracks pin w w1) by (split; simpl; auto; set_solver).
  etrans; [exact Hw1|]. unfold insert_stmt. with_strategy transparent [sql] unfold sql.
  unfold mbind, M_bind, observe. cbv beta iota. destruct (env_sql _); [apply tracked_tick|].
  etrans; [apply (tracked_tick w1 (S (w_tick w1)))|]. set (w2 := set_w_tick _ w1). unfold ins_grant.
  repeat case_match; simplify_eq; try reflexivity. simpl. split; simpl; auto.
  intros id. unfold grant_ids. simpl. rewrite fmap_app, elem_of_app. intros [?|?%list_elem_of_singleton]; [by left|].
  subst. right. set_solver.
Qed.
End tracking.

Lemma update_where_ids p f l : (∀ g, g_id (f g) = g_id g) → g_id <$> update_where p f l = g_id <$> l.
Proof.
  intros Hf. unfold update_where. rewrite <- list_fmap_compose.
  apply list_fmap_ext. intros _ g _. simpl. by destruct (p g).
Qed.

(** No statement but the one of [prompt_grant] adds a grant. *)
Ltac solve_grant_ids := unfold grant_ids; simpl; first [done|rewrite update_where_ids by done; done].

Ltac solve_insert f H :=
  let h := program_head f in unfold h in H; repeat case_match; simplify_eq; reflexivity.

Ltac tracked_step :=
  lazymatch goal with
  | |- tracked _ (mret _) => by apply tracked_same
  | |- tracked _ (lift _) => by apply tracked_same
  | |- tracked _ (throw _ _) => by apply tracked_same
  | |- tracked _ (require _ _ _) => by apply tracked_same
  | |- tracked _ (gets _) => by apply tracked_same
  | |- tracked _ (observe _) => apply tracked_observe
  | |- tracked _ (query _) => apply tracked_query
  | |- tracked _ (statement _) => apply tracked_statement; intros ? ?; solve_grant_ids
  | |- tracked _ (insert_stmt ?f) => apply tracked_insert; intros ? ? Hins; solve_insert f Hins
  | |- tracked _ (modify _) => intros ?; split; simpl; by auto
  | |- tracked _ (modify _ ≫= _) =>
      first [apply tracked_record|apply tracked_bind; [intros ?; split; simpl; by auto|intros ?]]
  | |- tracked _ (_ ≫= _) => apply tracked_bind; [|intros ?]
  | |- tracked _ (catch _ _) => apply tracked_catch; [|intros ?]
  | |- tracked _ (transaction _) => apply tracked_transaction
  | |- tracked _ (for_each _ _) => apply tracked_for_each; intros ?
  | |- tracked _ (fold_m _ _ _) => apply tracked_fold_m; intros ? ?
  | |- tracked _ (let (_, _) := ?x in _) => destruct x
  | |- tracked _ (if ?x then _ else _) => destruct x
  | |- tracked _ (match ?x with _ => _ end) => destruct x
  | |- tracked _ ?m =>
      first [solve [auto with atomicity nocore]
            |let h := program_head m in progress unfold h]
  end.

Ltac solve_tracked := repeat (cbv beta zeta; tracked_step).

Section recorded.
Context `{Platform} `{Env} (pin : bool).

Lemma tracked_SessionState peer request active owner : tracked pin (SessionState peer request active owner).
Proof. solve_tracked. Qed.

Lemma tracked_first_covering request rows : tracked pin (first_covering request rows).
Proof. induction rows as [|g rows IH]; simpl; solve_tracked. Qed.

Hint Resolve tracked_SessionState tracked_first_covering : atomicity.

Lemma tracked_CheckConditions peer request enforce : tracked pin (CheckConditions peer request enforce).
Proof. solve_tracked. Qed.

Lemma tracked_receipt_definitions payload indices : tracked pin (receipt_definitions payload indices).
Proof. induction indices as [|i indices IH]; simpl; solve_tracked. Qed.

Hint Resolve tracked_CheckConditions tracked_receipt_definitions : atomicity.

Lemma tracked_ReceiptValid receipt : tracked pin (ReceiptValid receipt).
Proof. solve_tracked. Qed.

Lemma tracked_RequestRow peer request ui : tracked pin (RequestRow peer request ui).
Proof. solve_tracked. Qed.

Lemma tracked_ProfileCommit : tracked pin ProfileCommit.
Proof. solve_tracked. Qed.

Hint Resolve tracked_ReceiptValid tracked_RequestRow tracked_ProfileCommit : atomicity.

Lemma tracked_provenance peer request artifact : tracked pin (ValidateArtifactProvenance peer request artifact).
Proof. solve_tracked. Qed.

Hint Resolve tracked_provenance : atomicity.

Lemma tracked_Evaluate peer request create : tracked pin (Evaluate peer request create).
Proof. solve_tracked. Qed.

Lemma tracked_Data peer request : tracked pin (Data peer request).
Proof. solve_tracked. Qed.

Lemma tracked_Register peer request remove : tracked pin (Register peer request remove).
Proof. solve_tracked. Qed.

Lemma tracked_prompt_respond peer request p : tracked pin (prompt_respond peer request p).
Proof. solve_tracked. Qed.

Hint Resolve tracked_Evaluate tracked_Data tracked_Register tracked_prompt_respond : atomicity.

Lemma tracked_prompt_get peer request p : tracked pin (prompt_get peer request p).
Proof. solve_tracked. Qed.
End recorded.

#[export] Hint Resolve tracked_SessionState tracked_first_covering tracked_CheckConditions
  tracked_receipt_definitions tracked_ReceiptValid tracked_RequestRow tracked_ProfileCommit tracked_provenance
  tracked_Evaluate tracked_Data tracked_Register tracked_prompt_respond tracked_prompt_get : atomicity.

Section races.
Context `{Platform} `{Env}.

Lemma tracked_dispatch peer request : tracked false (dispatch peer request).
Proof. solve_tracked. Qed.

(** The request a response is for is the one to be retired. *)
Lemma prompt_open_names peer request w w' p : prompt_open peer request true w = (w', Ret p) →
  w'.(new_profile_request_) = Get p.(p_pending) "request_id".
Proof.
  unfold prompt_open. intros Hrun. run Hrun as Hrow gives pending w1. run Hrun as Hctx gives u w2.
  run Hrun as Hset. match type of Hrun with ?m ?w3 = _ =>
    assert (Hk : tracked true m) by solve_tracked; specialize (Hk w3); rewrite Hrun in Hk; simpl in Hk end.
  rewrite (tk_named _ _ _ Hk eq_refl). simpl. f_equal. clear Hk.
  run Hrun as H1. run Hrun as H2. run Hrun as H3. run Hrun as H4. run Hrun as H5. run Hrun as H6. run Hrun as H7.
  run Hrun as H8 gives rows w6. destruct rows as [displayed current]. run Hrun as H9 gives defs w7. destruct defs as [definitions typed]. by run_steps Hrun.
Qed.

(** The pending request that a response addresses. *)
Definition addressed (request : Message) (d : DB) (r : request_row) : Prop :=
  r ∈ d.(db_requests) ∧ r.(r_state) = "PENDING" ∧
  (Get request "request_id" ≠ "" → r.(r_id) = Get request "request_id").

Lemma Prompt_names peer request w w' f : w_saved w = None → Prompt peer request true w = (w', Throw f) →
  w_db w' = w_db w ∨ ∃ r, addressed request (w_db w) r ∧ w'.(new_profile_request_) = r.(r_id).
Proof.
  intros Hs. unfold Prompt, mbind at 1, M_bind at 1, require, Require, lift.
  destruct (Role peer "ui"); [|by intros [= <- _]; left]. cbv iota. unfold transaction.
  destruct (env_begin _); [by intros [= <- _]; left|]. fold (begun w). unfold mbind at 1, M_bind at 1.
  pose proof (held_prompt_open peer request true (begun w)) as Hh.
  destruct (prompt_open peer request true (begun w)) as [w1 [p|f1]] eqn:Ho; simpl in Hh.
  - pose proof (prompt_open_names _ _ _ _ _ Ho) as Hn.
    apply prompt_open_run in Ho as (r & payload & Hf & _ & Hpend & Hst & _).
    rewrite Hpend, request_message_id in Hn. apply find_row_Some in Hf as [Hr Hsel].
    pose proof (tracked_prompt_respond true peer request p w1) as Ht.
    destruct (prompt_respond peer request p w1) as [w2 r2]. simpl in Ht.
    intros Hend. right. exists r. split.
    + split_and!; [done|done|]. intros Hne%empty_false. unfold request_selected in Hsel.
      rewrite Hne in Hsel. simpl in Hsel. rewrite orb_false_r in Hsel. by str_hyps.
    + rewrite <- Hn, <- (tk_named _ _ _ Ht eq_refl). destruct (w_saved w2); by injection Hend as <- _.
  - rewrite Hh. intros [= <- _]. by left.
Qed.

(** The end of a request whose commit raced with a change of the profile
    authority: the generation changed while it ran; none of the grants it has
    added is usable, and the request that it responded to, if it is a
    response, is no longer approved; or even that failed, and the repository
    is fenced. *)
Record lost_race (request : Message) (d : DB) (w' : World) (f : Failure) : Prop := mk_lost_race {
  lr_changed : ∃ authority n m, env_profiles = Some authority ∧ (n < m)%nat ∧
    ps_generation (authority n) ≠ ps_generation (authority m);
  lr_end :
    f = mkFailure (- ESTALE) "profile changed during transaction commit" SQLITE_OK ∧
      (∀ g, g ∈ (w_db w').(db_grants) → g.(g_id) ∉ grant_ids d → g.(g_revoked) = 1) ∧
      (Get request "method" = "respond" → ∃ r, addressed request d r ∧
         ∀ r', r' ∈ (w_db w').(db_requests) → r'.(r_id) = r.(r_id) → r.(r_id) ≠ "" →
           r'.(r_state) = "INVALIDATED" ∧ r'.(r_token) = "") ∨
    f = mkFailure kStorage "profile approval retirement failed" SQLITE_OK ∧
      w'.(profile_compensation_failed_) = true ∧ w'.(fenced_) = true;
}.

Lemma dispatch_rolls_back peer request w w' f :
  w_saved w = None → dispatch peer request w = (w', Throw f) →
  w_db w' = w_db w ∨ lost_race request (w_db w) w' f.
Proof.
  intros Hs Hrun. destruct (atomic_dispatch peer request w w' f Hs Hrun) as [|(_ & Hgen & _ & Hend)]; [by left|].
  pose proof (tracked_dispatch peer request w) as Ht. rewrite Hrun in Ht. simpl in Ht.
  assert (Hresp : w_db w' = w_db w ∨ (Get request "method" = "respond" →
    ∃ r, addressed request (w_db w) r ∧ w'.(new_profile_request_) = r.(r_id))).
  { destruct (decide (Get request "method" = "respond")) as [Hm|]; [|by right]. unfold dispatch in Hrun. rewrite Hm in Hrun.
    cbn in Hrun. destruct (Prompt_names _ _ _ _ _ Hs Hrun); auto. }
  destruct Hresp as [|Hresp]; [by left|]. right. split; [done|].
  destruct Hend as [(Hf & Hg & Hr)|Hend]; [left|by right]. split_and!; [done|..].
  - intros g Hin Hnew. apply Hg; [done|]. destruct (tk_grants _ _ _ Ht g.(g_id)) as [|]; [|done|done].
    apply list_elem_of_fmap. eauto.
  - intros Hm. destruct (Hresp Hm) as (r & Ha & Hn). exists r. split; [done|].
    rewrite <- Hn. intros r' Hr' Hid Hne. by apply Hr.
Qed.

(** C8: operations are all or nothing.  A client request of any method that
    throws, for whatever reason and at whatever point (a rejected guard, a
    failing statement, a violated constraint, a failing commit), leaves the
    database exactly as it was before the request; so do, without exception,
    the expiry pass, the replay of the registry, the reset of the runtime
    state, the compaction and the fencing of profiles.  The one exception for
    a request is the race that [ProfileCommit] watches for: the generation of
    the profile authority changed around its commit.  Then it fails as stale,
    every grant it has added is revoked, and a request it responded to is
    invalidated and has no token; or even that failed, and the repository is
    fenced. *)
Theorem failed_operations_roll_back (peer : Peer) (request : Message) (retire : bool)
    (removed : string) w w' f :
  w_saved w = None →
  (Expire w = (w', Throw f) ∨ Replay w = (w', Throw f) ∨ ResetRuntime w = (w', Throw f) ∨
   CompactMetadata w = (w', Throw f) ∨ fence_transaction retire removed w = (w', Throw f) →
   w_db w' = w_db w) ∧
  (dispatch peer request w = (w', Throw f) → w_db w' = w_db w ∨ lost_race request (w_db w) w' f).
Proof.
  intros Hs. split; [|by apply dispatch_rolls_back].
  assert (Hno : ∀ {A} (m : M A), atomic false m → m w = (w', Throw f) → w_db w' = w_db w)
    by (intros A m Ha Hr; by destruct (Ha w w' f Hs Hr) as [|[]]).
  intros [Hr|[Hr|[Hr|[Hr|Hr]]]]; revert Hr; apply Hno; [|apply atomic_Replay|..]; apply atomic_transaction; solve_late.
Qed.
End races.
