(* ===== verification/Scenario.v ===== *)
(** * A concrete run of the daemon

    A platform, an environment and a sequence of client requests on which the
    definitions are evaluated: an installer registers a definition, a
    controller opens a session, an agent asks for an approval, the UI displays
    and answers the prompt, an enforcer authorizes an execution step, a holder
    retains the result and the administrator revokes the approval. *)
From S2P Require Import Prelude Strings Platform Message Packing Approval Localization Registration.
From S2P Require Import ProfileState Store Exec Logic Lifecycle Sessions Grants Requests Prompts.
From S2P Require Import Artifacts Registry Database Repository.

#[export] Existing Instance reference_platform.

(** A regular file of the daemon with mode 0600. *)
Definition demo_stat : file_stat := mk_file_stat 7 11 33152 0 1 4096 0 0 0.

(** A directory of the daemon with mode 0700. *)
Definition demo_directory : file_stat := mk_file_stat 7 2 16832 0 2 4096 0 0 0.

(** The files appear once the daemon has created them; the clock advances by
    one per reading and every identifier is fresh. *)
#[export] Instance demo_env : Env := {|
  env_now n := 1000 + Z.of_nat n;
  env_urandom n := Some (λ i, match i with
                              | O => Z.of_nat n / 256
                              | 1%nat => Z.of_nat n mod 256
                              | _ => Z.of_nat i end);
  env_profiles := None;
  env_validator := Some (λ _ _ _ _, true);
  env_offline_validator := None;
  env_package_validator := Some (λ _ _ _, true);
  env_begin _ := None;
  env_commit _ := None;
  env_sql _ := None;
  env_errmsg _ := "constraint failed";
  env_path := "/var/consent/consent.db";
  env_recovery_dir := "/var/consent";
  env_euid := 0;
  env_lstat_directory _ _ := StatOk demo_directory;
  env_lstat_db n := if (n <? 20)%nat then StatErrno ENOENT else StatOk demo_stat;
  env_lstat_registry n := if (n <? 5)%nat then StatErrno ENOENT else StatOk demo_stat;
  env_registry_content _ := None;
  env_io _ := true;
  env_open _ := None;
  env_quick_check _ := true;
  env_content _ := empty_db;
|}.

Definition boot : World :=
  mk_World empty_db None 0 "" false demo_stat demo_stat "" 0 0 true false false false 0 0 0 0 ""
    ∅ ∅ 0 [] "" false.

Definition demo_peer : Peer :=
  mkPeer 1 0 0 "demo.id" "instance-1" "user" "work"
    {["installer"; "argo"; "session"; "ui"; "checker"; "ce"; "holder"; "admin"]}
    {["*"]} {["*"]} {["*"]} {["*"]}.

Definition base (method : string) : Message :=
  list_to_map [("method", method); ("subject", "user"); ("profile", "work")].

Definition extend (l : list (string * string)) (m : Message) : Message :=
  foldl (λ m f, <[f.1 := f.2]> m) m l.

(** The reply of one client request of the demo peer, [∅] on an exception. *)
Definition reply (r : World * outcome Message) : Message :=
  match r.2 with Ret m => m | Throw _ => ∅ end.

Definition ask (request : Message) (w : World) : World * Message :=
  let r := Execute demo_peer request w in (r.1, reply r).

Definition opened : World := perform call_open boot.

Definition register_request : Message := list_to_map
  [("method", "register"); ("operation_id", "op1"); ("definition", "d1"); ("package", "p1");
   ("app", "a1"); ("enforcer", "demo.id"); ("policy_version", "1"); ("text_revision", "1");
   ("level", "1"); ("modes", "ONCE,SESSION,TIMED"); ("default_locale", "en");
   ("retention_ms", "5000"); ("_install_identity", "g1"); ("message.en.title", "Title");
   ("message.en.body", "Body")].

Definition after_register : World * Message := ask register_request opened.

Definition after_open : World * Message :=
  ask (base "session_open") after_register.1.

Definition requirement : list (string * string) :=
  [("session", Get after_open.2 "session"); ("generation", "1"); ("count", "1");
   ("operation_id", "task"); ("r0.definition", "d1"); ("r0.scope", "contacts");
   ("r0.operation", "read"); ("r0.purpose", "search"); ("r0.recipient", "app");
   ("r0.holder", "demo.id")].

Definition approval_request : Message :=
  extend (("client_request_id", "c1") :: requirement) (base "request").

Definition after_request : World * Message :=
  ask approval_request after_open.1.

Definition prompt_request : Message :=
  extend [("request_id", Get after_request.2 "request_id"); ("locale", "en")] (base "get_prompt").

Definition after_prompt : World * Message :=
  ask prompt_request after_request.1.

Definition respond_request : Message :=
  extend [("request_id", Get after_request.2 "request_id"); ("locale", "en");
          ("prompt_token", Get after_prompt.2 "prompt_token"); ("decision", "ALLOWED");
          ("grant_mode", "ONCE")] (base "respond").

Definition after_respond : World * Message :=
  ask respond_request after_prompt.1.

Definition query_request : Message := extend requirement (base "check").

Definition authorize_request : Message :=
  extend (("mode", "AUTHORIZE") :: ("step_id", "step1") :: requirement) (base "check").

Definition after_authorize : World * Message :=
  ask authorize_request after_respond.1.

Definition retain_request : Message :=
  extend [("session", Get after_open.2 "session"); ("generation", "1");
          ("receipt", Get after_authorize.2 "receipt"); ("requirement", "0");
          ("purpose", "search"); ("recipient", "app"); ("scope", "contacts")]
    (base "data_register").

Definition after_retain : World * Message :=
  ask retain_request after_authorize.1.

Definition revoke_request : Message := extend [("definition", "d1")] (base "revoke").

Definition after_revoke : World * Message := ask revoke_request after_retain.1.
