(* ===== verification/ServerScenario.v ===== *)
(** * A concrete run of the daemon's threads

    A file system with a policy file and an installation inventory, the
    kernel's view of one client process, and a socket on which the client
    sends its handshake and then, in two pieces, the request to open a
    session.  The run ends when the request waits for the database thread. *)
From S2P Require Import Prelude Strings Platform Message Wire Packing Identity ProfileState Store.
From S2P Require Import Exec Logic Lifecycle Database Repository Server ServerInv ServerIo Scenario.

#[export] Existing Instance reference_parcel.
#[export] Existing Instance reference_parcel_laws.

(** ** Files *)

Definition directory_stat : file_stat := mk_file_stat 7 2 16877 0 2 4096 0 0 0.
Definition policy_stat : file_stat := mk_file_stat 7 21 33188 0 1 6 0 0 0.
Definition agent_stat : file_stat := mk_file_stat 7 22 33261 0 1 9000 0 0 0.

Definition demo_files : list (list string * file_stat) :=
  [(["etc"], directory_stat); (["etc"; "consent.conf"], policy_stat);
   (["usr"], directory_stat); (["usr"; "agent"], agent_stat);
   (["opt"], directory_stat); (["opt"; "var"], directory_stat);
   (["opt"; "var"; "lib"], directory_stat);
   (["opt"; "var"; "lib"; "consent-authority"], directory_stat);
   (["opt"; "var"; "lib"; "consent-authority"; "installations.conf"], policy_stat)].

Definition demo_file (path : list string) : option file_stat :=
  snd <$> find_row (λ f, bool_decide (f.1 = path)) demo_files.

Definition demo_fs : FileSystem := {|
  fs_open directory path :=
    match demo_file path with
    | None => Some ENOENT
    | Some st => if directory && negb (S_ISDIR st.(st_mode)) then Some 20 else None
    end;
  fs_stat path := match demo_file path with Some st => StatOk st | None => StatErrno ENOENT end;
  fs_read path :=
    if bool_decide (path = ["etc"; "consent.conf"]) then inr "policy"
    else if bool_decide (path = ["opt"; "var"; "lib"; "consent-authority"; "installations.conf"])
    then inr "inventory" else inl 5;
  fs_close _ := None;
|}.

(** The keys of a group. *)
Definition key_file (groups : list (string * list (string * string))) : KeyFile :=
  let keys g := default [] (snd <$> find_row (λ e, eqs e.1 g) groups) in
  {| kf_groups := fst <$> groups;
     kf_string g k := snd <$> find_row (λ e, eqs e.1 k) (keys g);
     kf_list g k := (λ e, [e.2]) <$> find_row (λ e, eqs e.1 k) (keys g) |}.

Definition demo_policy : KeyFile := key_file
  [("policy", []);
   ("identity demo.id", [("uid", "5001"); ("executable", "/usr/agent"); ("label", "Demo");
      ("roles", "session"); ("subjects", "user"); ("profiles", "work")])].

Definition demo_inventory : KeyFile := key_file
  [("authority", [("schema", "1")]);
   ("package p1", [("generation", "g1"); ("state", "active")]);
   ("a1", [("package", "p1"); ("generation", "g1"); ("state", "active")])].

#[export] Instance demo_installations : Inventory := {|
  inv_fs := demo_fs;
  g_key_file_load content :=
    if eqs content "policy" then Some demo_policy
    else if eqs content "inventory" then Some demo_inventory else None;
  pkgmgr_pkgid app := if eqs app "a1" then Some "p1" else None;
|}.

#[export] Instance demo_installations_laws : InventoryLaws.
Proof.
  split; simpl.
  - intros flag path e. destruct (demo_file path); [case_match|]; intros [= <-]; done.
  - intros path e. destruct (demo_file path); intros [= <-]; done.
  - intros path e. repeat case_match; intros [= <-]; done.
  - done.
Qed.

(** ** The client *)

Definition demo_kernel : Kernel := {|
  k_peercred := Some (42, 5001, 100);
  k_peersec := Some ("Demo" +:+ String nul "");
  k_proc _ _ name :=
    if eqs name "stat" then "42 (agent) S 1 1 1 1 1 1 1 1 1 1 1 1 1 1 1 1 1 1 7700 1"
    else "Name: agent" +:+ String newline "Uid: 5001 5001 5001 5001";
  k_pidfd := true;
  k_exited := false;
  k_exe _ := Some "/usr/agent";
  k_exe_stat _ _ := Some agent_stat;
|}.

Definition hello_request : Message := list_to_map [("v", "1"); ("id", "1"); ("method", "hello")].

Definition open_request : Message :=
  list_to_map [("v", "1"); ("id", "2"); ("method", "session_open"); ("subject", "user");
               ("profile", "work")].

Definition frame_of (m : Message) : string := default "" (Encode m).

(** The socket takes a hundred bytes of the reply to the handshake, then no
    more for a while; the request arrives in two pieces. *)
#[export] Instance demo_io : IoEnv := {|
  io_time n := 1000 * Z.of_nat n;
  io_send n id bytes := if Nat.eqb n 11 then SendBlocked else Sent (Z.min 100 (size bytes));
  io_recv n id :=
    if Nat.eqb n 2 then Received (frame_of hello_request)
    else if Nat.eqb n 12 then Received (take_str 9 (frame_of open_request))
    else if Nat.eqb n 14 then Received (drop_str 9 (frame_of open_request))
    else RecvBlocked;
  io_kernel _ _ := demo_kernel;
  io_rules := (Load "/etc/consent.conf").2;
  io_generation _ := 0;
  io_push _ := true;
|}.

Lemma small_read x y : (size x <=? 8192) = true → Received x = Received y → size y ≤ 8192.
Proof. intros Hx [= <-]. lia. Qed.

#[export] Instance demo_io_laws : IoLaws.
Proof.
  split; cbn [io_send io_recv demo_io].
  - intros t id bytes n. destruct (Nat.eqb t 11); [done|]. intros [= <-]. lia.
  - intros t id bytes. destruct (Nat.eqb t 2); [apply small_read; vm_compute; reflexivity|].
    destruct (Nat.eqb t 12); [apply small_read; vm_compute; reflexivity|].
    destruct (Nat.eqb t 14); [apply small_read; vm_compute; reflexivity|discriminate].
Qed.

(** ** The run *)

(** The client connects and its handshake is read. *)
Definition connected : Server := run_events (started boot) [EvIncoming; EvIo; EvReadable 1].

(** The handshake is parsed and answered, and the request is read. *)
Definition greeted : Server := run_events connected [EvParse 0; EvIo].

(** The request is admitted. *)
Definition submission : list event :=
  [EvIncoming; EvIo; EvReadable 1; EvParse 0; EvIo; EvParse 0; EvIo].

Abbreviation submitted := (run_events (started boot) submission).
