(* ===== verification/Witnesses.v ===== *)
(** * The theorems at concrete inputs

    Each theorem with hypotheses is applied to states of the concrete run of
    [Scenario], where the hypotheses are evaluated. *)
From S2P Require Import Prelude Strings Platform Message Packing Approval Cleanup Localization.
From S2P Require Import Registration ProfileState Store Exec Logic Lifecycle Sessions Grants.
From S2P Require Import Requests Prompts Consent Artifacts Provenance Registry Database.
From S2P Require Import Repository Atomicity Scenario Expiry.

(** The states of the run are well-formed. *)

Lemma demo_adopted : ∀ n, wf (env_content n).
Proof. intros n. exact wf_empty. Qed.

Lemma wf_ask request w : wf (w_db w) → wf (w_db (ask request w).1).
Proof. apply (perform_wf demo_adopted (call_execute demo_peer request)). Qed.

Lemma wf_after_open : wf (w_db after_open.1).
Proof. do 2 apply wf_ask. apply (perform_wf demo_adopted call_open), wf_empty. Qed.

Lemma wf_after_respond : wf (w_db after_respond.1).
Proof. do 3 apply wf_ask. exact wf_after_open. Qed.

Lemma wf_after_retain : wf (w_db after_retain.1).
Proof. do 2 apply wf_ask. exact wf_after_respond. Qed.

(** A run that returns. *)
Definition returns {A} (r : World * outcome A) : bool :=
  match r.2 with Ret _ => true | Throw _ => false end.

Lemma run_returns (r : World * outcome Message) : returns r = true → r = (r.1, Ret (reply r)).
Proof. destruct r as [w [m|f]]; done. Qed.

(** ** Authorization *)

Definition authorizing : World * outcome Message :=
  Evaluate demo_peer authorize_request false after_respond.1.

Lemma authorize_sound_witness :
  ∃ gs, gs ≠ [] ∧
    ((authorizing.1).(w_db)).(db_authorization_grants) =
      ((λ g, (Get (reply authorizing) "receipt", g.(g_id))) <$> gs) ∧
    ∀ g, g ∈ gs → g.(g_mode) = "ONCE" →
      set_g_remaining 0 g ∈ ((authorizing.1).(w_db)).(db_grants).
Proof.
  destruct (authorize_sound demo_peer authorize_request after_respond.1 authorizing.1
              (reply authorizing)) as (request' & count & gs & receipt & Hreq & Hc & Hge & Hall &
              <- & Hedges & _ & Honce).
  - exact wf_after_respond.
  - apply run_returns. vm_compute. reflexivity.
  - vm_compute. reflexivity.
  - vm_compute. reflexivity.
  - vm_compute. reflexivity.
  - exists gs. split_and!.
    + intros ->. vm_compute in Hedges. discriminate Hedges.
    + rewrite Hedges, <- list_fmap_compose. reflexivity.
    + intros g Hg Hm. apply Honce; assumption.
Defined.

Definition querying : World * outcome Message :=
  Evaluate demo_peer query_request false after_respond.1.

Lemma query_pure_witness :
  Get (reply querying) "decision" = "ALLOWED" ∧ w_db querying.1 = w_db after_respond.1.
Proof.
  split; [vm_compute; reflexivity|].
  apply (query_pure demo_peer query_request after_respond.1 querying.1 (reply querying)).
  - apply run_returns. vm_compute. reflexivity.
  - vm_compute. reflexivity.
Defined.

Definition retrying : World * outcome Message :=
  Evaluate demo_peer authorize_request false after_authorize.1.

Lemma authorize_idempotent_witness :
  w_db retrying.1 = w_db after_authorize.1 ∧
  Get (reply retrying) "receipt" = Get after_authorize.2 "receipt".
Proof.
  destruct (find_row (prior_authorization demo_peer authorize_request)
              (w_db after_authorize.1).(db_authorizations)) as [a|] eqn:Ha.
  - destruct (authorize_idempotent demo_peer authorize_request a after_authorize.1 retrying.1
                (reply retrying)) as (Hd & Hr & _).
    + exact Ha.
    + apply run_returns. vm_compute. reflexivity.
    + vm_compute. reflexivity.
    + split; [exact Hd|]. rewrite Hr. vm_compute in Ha. injection Ha as <-. reflexivity.
  - vm_compute in Ha. discriminate Ha.
Defined.

(** ** Life cycles *)

Definition some_activity : list activity :=
  [act_dispatch demo_peer revoke_request; act_expire; act_replay; act_reset; act_compact;
   act_fence true "user"].

Lemma operations_refine_witness :
  rtc db_step (w_db after_retain.1)
    (w_db (act (act_dispatch demo_peer revoke_request) after_retain.1)).
Proof.
  exact (proj1 (operations_refine (act_dispatch demo_peer revoke_request) after_retain.1
                  wf_after_retain)).
Defined.

Lemma reachable_integrity_witness :
  wf (w_db (performs boot [call_open; call_execute demo_peer register_request; call_tick])).
Proof. apply reachable_integrity; [exact demo_adopted|exact wf_empty]. Defined.

Lemma lifecycles_witness :
  (∃ s, s ∈ (w_db after_retain.1).(db_sessions)) ∧ (∃ t, t ∈ (w_db after_retain.1).(db_artifacts)) ∧
  (∀ t, t ∈ (w_db after_retain.1).(db_artifacts) →
     ∃ t', t' ∈ (w_db (acts after_retain.1 some_activity)).(db_artifacts) ∧ artifact_le t t').
Proof.
  destruct (lifecycles after_retain.1 some_activity wf_after_retain) as (_ & _ & _ & Ht & _).
  split; [|split; [|exact Ht]].
  - destruct ((w_db after_retain.1).(db_sessions)) as [|s l] eqn:Hs; [vm_compute in Hs; discriminate Hs|].
    exists s. apply list_elem_of_here.
  - destruct ((w_db after_retain.1).(db_artifacts)) as [|t l] eqn:Hs; [vm_compute in Hs; discriminate Hs|].
    exists t. apply list_elem_of_here.
Defined.

(** ** Selections and coverage *)

Definition selection_body : Message := extend
  [("approval_version", "1"); ("request_kind", "PREAPPROVAL"); ("selection_id", "s1");
   ("selection_revision", "1"); ("grant_mode", "TIMED"); ("duration_ms", "60000");
   ("r0.feature_id", "f1"); ("r0.feature_revision", "1"); ("r0.policy_version", "1")]
  (extend requirement (base "request")).

Definition selection : Message :=
  <["selection_digest" := approval.SelectionDigest selection_body]> selection_body.

Definition selection_with_locale : Message := <["locale" := "en"]> selection.

Lemma selection_digest_binds_witness :
  approval.SelectionFields selection = approval.SelectionFields selection_with_locale ∨
  (approval.selection_bytes selection ≠ approval.selection_bytes selection_with_locale ∧
   g_sha256 (approval.selection_bytes selection) =
     g_sha256 (approval.selection_bytes selection_with_locale)).
Proof.
  apply approval.selection_digest_binds; vm_compute; reflexivity.
Defined.

Definition timed : Message := <["_approval_deadline" := "5000"]> selection.

Lemma Covers_sound_witness :
  approval.Covers timed "TIMED" 6000 1000 = true ∧
  ("TIMED" = "PERSISTENT" ∨
   ("TIMED" = "TIMED" ∧ MsgNumber timed "_approval_deadline" int64_max ≤ 6000)).
Proof.
  assert (Hc : approval.Covers timed "TIMED" 6000 1000 = true) by (vm_compute; reflexivity).
  split; [exact Hc|].
  apply (approval.Covers_sound timed "TIMED" 6000 1000 Hc); vm_compute; reflexivity.
Defined.

(** ** Encodings *)

Lemma Unpack_Pack_witness :
  Unpack (Pack (base "check")) = Ret (base "check") ∧
  (∀ other, Pack other = Pack (base "check") → other = base "check") ∧
  (∀ value fuel, (String.length value < fuel)%nat → unpack_loop fuel value ∅ = Unpack value).
Proof.
  apply Unpack_Pack. intros k v Hkv. apply elem_of_map_to_list in Hkv.
  assert (Hall : forallb (λ kv, (size kv.1 <=? kRegistryLimit) && (size kv.2 <=? kRegistryLimit))
                   (map_to_list (base "check")) = true) by (vm_compute; reflexivity).
  rewrite forallb_forall in Hall. apply list_elem_of_In in Hkv. specialize (Hall (k, v) Hkv).
  simpl in Hall. lia.
Defined.

(** A listing of two pages. *)
Definition two_pages (input : Message) : Message :=
  if empty (Get input "cursor")
  then list_to_map [("count", "2"); ("more", "1"); ("next_cursor", "c2"); ("a0.artifact", "x");
                    ("a1.artifact", "y")]
  else list_to_map [("count", "1"); ("more", "0"); ("a0.artifact", "z")].

(** The deletion callback records its calls and fails on one artifact. *)
Definition recording (st : list string) (artifact : string) : list string * Z :=
  (st ++ [artifact], if eqs artifact "y" then - EBUSY else 0).

Lemma CleanupSweep_complete_witness :
  sweep_calls (λ st input, (st, (0, two_pages input))) recording 1 ∅
    (mkCleanupProgress ∅ "" 0 false) [] =
  (["x"; "y"; "z"], mkCleanupProgress ∅ "" (- EBUSY) true, - EBUSY).
Proof.
  rewrite (CleanupSweep_complete (λ st input, (st, (0, two_pages input))) recording 1 ∅ ""
             [["x"; "y"]; ["z"]] ["c2"] 0 []).
  - reflexivity.
  - reflexivity.
  - apply (serves_more _ _ _ "c2" _ (two_pages {["cursor" := ""]})); [reflexivity|discriminate| |].
    + split_and!; try reflexivity; [simpl; lia|discriminate|].
      intros [|[|i]] a [= <-]; split; try discriminate; vm_compute; reflexivity.
    + apply (serves_last _ _ _ _ (two_pages {["cursor" := "c2"]})); [reflexivity|].
      split_and!; try reflexivity; [simpl; lia|intros H; destruct H; reflexivity|].
      intros [|i] a [= <-]; split; try discriminate; vm_compute; reflexivity.
  - apply (bool_decide_unpack _). reflexivity.
  - simpl. lia.
Defined.

(** ** Approvals, receipts and provenance *)

Definition responding_run : World * outcome Message :=
  Prompt demo_peer respond_request true after_prompt.1.

Lemma respond_sound_witness :
  ∃ r payload rows news mode, r ∈ (w_db after_prompt.1).(db_requests) ∧
    Forall2 (approves (w_db after_prompt.1) (request_message r payload) mode) rows news ∧
    (w_db responding_run.1).(db_grants) = (w_db after_prompt.1).(db_grants) ++ news ∧ news ≠ [].
Proof.
  destruct (respond_sound demo_peer respond_request after_prompt.1 responding_run.1
              (reply responding_run))
    as (r & payload & rows & news & mode & r' & Hr & _ & _ & _ & _ & _ & _ & _ & Hg & _ & Hall & _).
  - apply run_returns. vm_compute. reflexivity.
  - exists r, payload, rows, news, mode. split; [exact Hr|]. split; [exact Hall|]. split; [exact Hg|].
    intros ->. vm_compute in Hg. discriminate Hg.
Defined.

Definition validating : World * outcome bool :=
  ReceiptValid (Get after_authorize.2 "receipt") after_authorize.1.

Lemma ReceiptValid_sound_witness :
  ∃ a, a ∈ (w_db after_authorize.1).(db_authorizations) ∧
    a.(a_id) = Get after_authorize.2 "receipt" ∧ a.(a_valid) ≠ 0.
Proof.
  destruct (ReceiptValid_sound (Get after_authorize.2 "receipt") after_authorize.1 validating.1)
    as (a & payload & count & Ha & Hid & Hv & _).
  - assert (Hv : validating.2 = Ret true) by (vm_compute; reflexivity).
    change (validating = (validating.1, Ret true)). rewrite <- Hv. destruct validating; reflexivity.
  - exists a. split_and!; assumption.
Defined.

Definition retaining : World * outcome Message :=
  Data demo_peer retain_request after_authorize.1.

Lemma data_register_sound_witness :
  ∃ a t, registered_under demo_peer retain_request (w_db after_authorize.1) (w_db retaining.1) a t.
Proof.
  destruct (data_register_sound demo_peer retain_request after_authorize.1 retaining.1
              (reply retaining)) as (a & _ & _ & [[_ (t & Ht & _)]|(t & Ht & _)]).
  - apply run_returns. vm_compute. reflexivity.
  - vm_compute. reflexivity.
  - vm_compute in Ht. inversion Ht.
  - exists a, t. exact Ht.
Defined.

Definition derive_request : Message :=
  extend [("session", Get after_open.2 "session"); ("generation", "1");
          ("count", "1"); ("parent0", Get after_retain.2 "artifact");
          ("purpose", "search"); ("recipient", "app"); ("scope", "contacts")]
    (base "data_register_derived").

Definition deriving : World * outcome Message :=
  Data demo_peer derive_request after_retain.1.

Lemma data_register_derived_sound_witness :
  ∃ t tp, derived demo_peer derive_request 1 (w_db after_retain.1) (w_db deriving.1) t ∧
    derived_from (w_db after_retain.1) t (Get after_retain.2 "artifact") tp.
Proof.
  destruct (data_register_derived_sound demo_peer derive_request after_retain.1 deriving.1
              (reply deriving)) as (t & count & Hc & Hd & _).
  - apply run_returns. vm_compute. reflexivity.
  - vm_compute. reflexivity.
  - assert (Hone : count = 1) by (vm_compute in Hc; congruence). subst count.
    destruct (dv_parents _ _ _ _ _ _ Hd 0) as [tp Htp]; [lia|].
    exists t, tp. split; [exact Hd|exact Htp].
Defined.

Definition revoking : World * outcome Message := Revoke demo_peer revoke_request after_retain.1.

Lemma revoke_effective_witness :
  ∃ g, g ∈ (w_db revoking.1).(db_grants) ∧ g.(g_revoked) = 1.
Proof.
  destruct (revoke_effective demo_peer revoke_request after_retain.1 revoking.1 (reply revoking))
    as (Hall & _).
  - apply run_returns. vm_compute. reflexivity.
  - destruct ((w_db revoking.1).(db_grants)) as [|g l] eqn:Hg; [vm_compute in Hg; discriminate Hg|].
    exists g. split; [apply list_elem_of_here|]. apply Hall; [apply list_elem_of_here|].
    vm_compute in Hg. injection Hg as <- <-. vm_compute. split_and!; reflexivity.
Defined.

Lemma revoke_permanent_witness :
  ∃ t, t ∈ (w_db (acts revoking.1 some_activity)).(db_artifacts) ∧ t.(t_state) ≠ "ACTIVE".
Proof.
  destruct ((w_db after_retain.1).(db_grants)) as [|g l] eqn:Hg; [vm_compute in Hg; discriminate Hg|].
  destruct (revoke_permanent demo_peer revoke_request after_retain.1 revoking.1 (reply revoking)
              some_activity g) as [_ Hart].
  - exact wf_after_retain.
  - apply run_returns. vm_compute. reflexivity.
  - rewrite Hg. apply list_elem_of_here.
  - vm_compute in Hg. injection Hg as <- <-. vm_compute. split_and!; reflexivity.
  - destruct ((w_db (acts revoking.1 some_activity)).(db_artifacts)) as [|t lt] eqn:Ht;
      [vm_compute in Ht; discriminate Ht|].
    exists t. split; [apply list_elem_of_here|]. apply Hart; [apply list_elem_of_here|].
    vm_compute in Hg. injection Hg as <- <-. vm_compute in Ht. injection Ht as <- <-.
    vm_compute. apply list_elem_of_here.
Defined.

(** A revocation without a definition is rejected. *)
Definition refused : World * outcome Message :=
  dispatch demo_peer (base "revoke") after_retain.1.

Lemma failed_operations_roll_back_witness :
  returns refused = false ∧ w_db refused.1 = w_db after_retain.1.
Proof.
  destruct refused as [w' [m|f]] eqn:Hr; [vm_compute in Hr; discriminate Hr|].
  split; [reflexivity|].
  destruct (failed_operations_roll_back demo_peer (base "revoke") true "" after_retain.1 w' f) as [_ Hd].
  - vm_compute. reflexivity.
  - destruct (Hd Hr) as [Hd'|[(authority & n & k & Ha & _) _]]; [exact Hd'|discriminate Ha].
Defined.

(** The race of [ProfileCommit]: the same response in a system whose profile
    authority changes [t] readings after the response begins.  Before the commit it is rolled back,
    during the commit its grant is revoked and its request invalidated, later
    it stands. *)
Definition changing_at (t n : nat) : ProfileState :=
  mkProfileState [mkBinding "user" "5001" "work"] "5001" true true (if (n <? t)%nat then 0 else 1).

Definition racing (t : nat) : Env := {|
  env_now := env_now; env_urandom := env_urandom; env_profiles := Some (changing_at t);
  env_validator := env_validator; env_offline_validator := env_offline_validator;
  env_package_validator := env_package_validator;
  env_begin := env_begin; env_commit := env_commit; env_sql := env_sql; env_errmsg := env_errmsg;
  env_path := env_path; env_recovery_dir := env_recovery_dir; env_lstat_directory := env_lstat_directory;
  env_euid := env_euid; env_lstat_db := env_lstat_db; env_lstat_registry := env_lstat_registry;
  env_registry_content := env_registry_content; env_io := env_io; env_open := env_open;
  env_quick_check := env_quick_check; env_content := env_content;
|}.

Definition raced_response (t : nat) : string * list Z * list string :=
  let r := @dispatch _ (racing (w_tick after_prompt.1 + t)) demo_peer respond_request after_prompt.1 in
  (match r.2 with Ret _ => "" | Throw f => f.(f_reason) end,
   g_revoked <$> (w_db r.1).(db_grants), r_state <$> (w_db r.1).(db_requests)).

Example respond_races :
  raced_response 28 = ("profile changed before transaction commit", [], ["PENDING"]) ∧
  raced_response 29 = ("profile changed during transaction commit", [1], ["INVALIDATED"]) ∧
  raced_response 31 = ("", [0], ["ALLOWED"]).
Proof. vm_compute. split_and!; reflexivity. Qed.

(** ** Expiry *)

(** Six seconds later the retained artifact is past its retention. *)
Definition later : World := set_w_tick (Z.to_nat 7000) after_retain.1.

Lemma demo_clock n m : (n ≤ m)%nat → env_now n ≤ env_now m.
Proof. simpl. lia. Qed.

Lemma Expire_effective_witness :
  (∃ t, t ∈ (w_db later).(db_artifacts) ∧ t.(t_state) = "ACTIVE") ∧
  ∀ t, t ∈ (w_db (Expire later).1).(db_artifacts) → t.(t_state) = "ACTIVE" → 8001 < t.(t_expires).
Proof.
  split.
  - destruct ((w_db later).(db_artifacts)) as [|t l] eqn:Ht; [vm_compute in Ht; discriminate Ht|].
    exists t. split; [apply list_elem_of_here|]. vm_compute in Ht. injection Ht as <- <-. reflexivity.
  - destruct (Expire_effective demo_clock later (Expire later).1 ()) as (now & <- & _ & _ & Ht & _).
    + destruct (Expire later) as [w [u|f]] eqn:E; [destruct u; reflexivity|].
      vm_compute in E. discriminate E.
    + exact Ht.
Defined.
