(* ===== verification/ServerWitnesses.v ===== *)
(** * Witnesses of the theorems on the wire, the identities and the daemon

    Each theorem with hypotheses is applied to the run of
    [ServerScenario]. *)
From S2P Require Import Prelude Strings Platform Message Wire Packing Identity ProfileState Store.
From S2P Require Import Exec Logic Lifecycle Database Repository Server ServerInv ServerIo Scenario.
From S2P Require Import ServerScenario.

(** ** The wire *)

Lemma Encode_open : Encode open_request = Some (frame_of open_request).
Proof.
  assert (is_Some (Encode open_request)) as [f Hf] by (vm_compute; eexists; reflexivity).
  unfold frame_of. rewrite Hf. reflexivity.
Qed.

Definition body_of (m : Message) : string := drop_str 4 (frame_of m).

Lemma Decode_Encode_witness :
  ∃ body, frame_of open_request = frame_header (size body) +:+ body ∧
    Decode body = Some (canonical open_request).
Proof.
  destruct (Decode_Encode open_request (frame_of open_request) Encode_open) as (body & Hf & _ & _ & Hd).
  exists body. split; assumption.
Defined.

Lemma frame_of_stream_witness :
  ∃ body, take_frame (frame_of open_request +:+ "xyz") = Some (body, "xyz") ∧
    Decode body = Some (canonical open_request).
Proof. apply (frame_of_stream open_request (frame_of open_request) Encode_open). Defined.

Lemma Decode_body_open : Decode (body_of open_request) = Some open_request.
Proof. vm_compute. reflexivity. Qed.

Lemma Decode_sound_witness : Get open_request "method" ≠ "" ∧ msize open_request ≤ kMaxFields.
Proof.
  destruct (Decode_sound (body_of open_request) open_request Decode_body_open) as (_ & Hm & Hn & _).
  split; assumption.
Defined.

(** ** Identities *)

Definition demo_client : Peer * ProcessIdentity :=
  default (no_peer, no_process) (mjoin (Authenticate inv_fs io_rules demo_kernel)).

Lemma demo_authenticated :
  Authenticate inv_fs io_rules demo_kernel = Some (Some (demo_client.1, demo_client.2)).
Proof. vm_compute. reflexivity. Qed.

Lemma demo_loaded : Load "/etc/consent.conf" = (true, io_rules).
Proof. vm_compute. reflexivity. Qed.

Lemma Authenticate_sound_witness :
  ∃ rule, rule ∈ io_rules ∧ demo_client.1.(p_identity) = rule_name rule.
Proof.
  destruct (Authenticate_sound "/etc/consent.conf" io_rules demo_kernel demo_client.1 demo_client.2
              demo_loaded demo_authenticated)
    as (rule & pid & uid & gid & st & Hin & _ & _ & _ & _ & _ & _ & _ & _ & _ & _ & Hp & _).
  exists rule. split; [exact Hin|]. rewrite Hp. reflexivity.
Defined.

Lemma offline_implies_online_witness : ValidateInstallation "p1" "a1" "g1" = true.
Proof.
  destruct (offline_implies_online "p1" "a1" "g1") as (_ & Hv & _);
    [vm_compute; reflexivity|exact Hv].
Defined.

(** ** The daemon *)

Lemma demo_content n : wf (env_content n).
Proof. exact wf_empty. Qed.

Definition submitted_job : Z * Peer * Message :=
  match submitted.(s_db) with
  | JobRequest id peer request :: _ => (id, peer, request)
  | _ => (0, no_peer, ∅)
  end.

Lemma job_submitted :
  JobRequest submitted_job.1.1 submitted_job.1.2 submitted_job.2 ∈ submitted.(s_db).
Proof.
  unfold submitted_job. destruct (s_db submitted) as [|j l] eqn:Hj; [vm_compute in Hj; discriminate Hj|].
  destruct j; try (vm_compute in Hj; discriminate Hj). apply list_elem_of_here.
Qed.

Lemma server_admission_witness :
  Allows submitted_job.1.2 (Get submitted_job.2 "method") = true ∧
  ∃ c n, submitted.(s_conns) !! submitted_job.1.1 = Some c ∧ c.(c_peer) = submitted_job.1.2 ∧
    Authenticate inv_fs io_rules (io_kernel n submitted_job.1.1) =
      Some (Some (submitted_job.1.2, c.(c_process))).
Proof.
  destruct (server_admission boot submission submitted submitted_job.1.1 submitted_job.1.2 submitted_job.2
              demo_content wf_empty eq_refl job_submitted)
    as (c & seen & checked & Hc & Hp & _ & _ & Hau & _ & Ha & _).
  split; [exact Ha|]. exists c, seen. split; [exact Hc|]. split; [exact Hp|exact Hau].
Defined.

Lemma server_limits_witness : submitted.(s_db_jobs) = Z.of_nat (length submitted.(s_db)).
Proof.
  destruct (server_limits boot submission submitted demo_content wf_empty eq_refl)
    as (_ & _ & _ & _ & Hdb & _).
  exact Hdb.
Defined.

Definition client : Connection := connection 1 submitted.

Lemma client_connected : submitted.(s_conns) !! 1 = Some client.
Proof. apply connection_open. vm_compute. reflexivity. Qed.

Lemma server_stream_witness :
  ∃ frames rest, client.(c_sent) +:+ rest = foldr String.append "" frames ∧
    Forall (λ f, ∃ m, Encode m = Some f) frames.
Proof.
  destruct (server_stream boot submission 1 client demo_content wf_empty client_connected)
    as (frames & rest & Hf & Hall & _).
  exists frames, rest. split; assumption.
Defined.

Lemma server_integrity_witness : wf (w_db (run_events (started boot) (submission ++ [EvDb; EvIo])).(s_world)).
Proof. apply (server_integrity boot (submission ++ [EvDb; EvIo]) demo_content wf_empty). Defined.

(** ** The sockets *)

Lemma client_ok : conn_ok client.
Proof.
  apply (in_conn _ _ _ (inv_run_events demo_content _ submission (inv_started demo_content boot wf_empty)) 1).
  exact client_connected.
Qed.

Lemma Write_progress_witness :
  write_outcome 1 client (connection 1 (Write 1 submitted).1).
Proof.
  apply (Write_progress 1 submitted client client_connected client_ok). vm_compute. reflexivity.
Defined.

(** The connection when its pending reply was produced under generation 5. *)
Definition stale_client : Connection :=
  set_c_output [mkFrame (frame_of hello_request) "5"] new_connection.

Definition stale_server : Server :=
  set_s_conns {[1 := stale_client]} (started boot).

Lemma Write_stale_witness : (connection 1 (Write 1 stale_server).1).(c_closed) = true.
Proof.
  destruct (Write_stale 1 stale_server stale_client (mkFrame (frame_of hello_request) "5") [])
    as [Hc _]; [reflexivity..|discriminate| |exact Hc].
  vm_compute. discriminate.
Defined.

Lemma Receive_framing_witness : receive_outcome 1 submitted (Receive 1 submitted).1.
Proof.
  apply (Receive_framing 1 submitted client client_connected); vm_compute; reflexivity.
Defined.
