(* ===== verification/OfflineWitnesses.v ===== *)
(** * A concrete offline registration

    An image with an authority directory, a builder that registers one
    definition and a daemon that loads it: the theorems of [OfflineSpec]
    applied to closed runs. *)
From S2P Require Import Prelude Strings Platform Message Wire Packing Localization Registration.
From S2P Require Import Offline OfflineSpec.
Import offline.

#[local] Existing Instance reference_platform.
#[local] Existing Instance reference_parcel.
#[local] Existing Instance reference_parcel_laws.

Lemma hex_from_size n z : size (hex_from n z) = Z.of_nat n.
Proof.
  revert z. induction n as [|n IH]; intros z; [done|]. cbn [hex_from]. rewrite size_app, IH.
  change (size (String (hex_char (z mod 16)) "")) with 1. lia.
Qed.

Lemma hex_char_lower d : 0 ≤ d < 16 → hex_lower (hex_char d) = true.
Proof.
  intros Hd. assert (Hin : d ∈ seqZ 0 16) by (apply elem_of_seqZ; lia).
  assert (Hall : forallb (λ d, hex_lower (hex_char d)) (seqZ 0 16) = true) by (vm_compute; reflexivity).
  rewrite forallb_forall in Hall. apply Hall. by apply list_elem_of_In.
Qed.

Lemma hex_from_lower n z : all_of hex_lower (hex_from n z) = true.
Proof.
  revert z. induction n as [|n IH]; intros z; [done|]. cbn [hex_from].
  rewrite all_of_app, IH. simpl. rewrite hex_char_lower by (apply Z.mod_pos_bound; lia). done.
Qed.

#[local] Instance reference_checksum : ChecksumLaws.
Proof. split; intros s; [apply (hex_from_size 64)|apply hex_from_lower]. Qed.

(** A system on which every call succeeds; the builder is root. *)
#[local] Instance quiet_os : Os := {|
  os_next _ := SysOk;
  os_written _ := 100%nat;
  os_order _ l := l;
  os_uuid _ := "01234567-89ab-cdef-0123-456789abcdef";
  os_getuid := 0;
  os_geteuid := 0;
  os_getpid := 7;
  os_thread := 1;
  os_umask := 18;
|}.

#[local] Instance quiet_laws : OsLaws.
Proof. split; [reflexivity|discriminate]. Qed.

Definition image_dir : file_stat := mk_file_stat 0 0 16877 0 2 0 0 0 0.
Definition private_dir : file_stat := mk_file_stat 0 0 16832 0 2 0 0 0 0.

Definition image : Disk :=
  mkDisk (list_to_map [([], NDir image_dir); (["opt"], NDir image_dir);
                       (["opt"; "authority"], NDir private_dir)]) 0.

Definition builder : ImageRoot := mkImageRoot (Some ["opt"; "authority"]) true 7 1.

Definition definition_record (operation definition : string) : Message := list_to_map
  [("method", "register"); ("operation_id", operation); ("expected_generation", "g1");
   ("definition", definition); ("package", "p1"); ("app", "a1"); ("enforcer", "demo.id");
   ("policy_version", "1"); ("text_revision", "1"); ("level", "1"); ("modes", "ONCE");
   ("default_locale", "en"); ("message.en.title", "Title"); ("message.en.body", "Body")].

Definition first_record : Message := definition_record "op1" "d1".
Definition first_value : Message := default ∅ (PublicRegistration first_record).
Definition first_payload : string :=
  match RecordPayload first_value with inr payload => payload | inl _ => "" end.

Lemma first_public : PublicRegistration first_record = Some first_value.
Proof. vm_compute. reflexivity. Qed.

Lemma first_encoded : RecordPayload first_value = inr first_payload.
Proof. vm_compute. reflexivity. Qed.

Abbreviation written := (Register builder first_record image).

Lemma written_ok : written.2 = Done 0.
Proof. vm_compute. reflexivity. Qed.

Lemma Register_atomic_witness :
  stored ["opt"; "authority"; "registrations"] (RecordName first_value) first_payload
    image.(tree) written.1.(tree).
Proof.
  pose proof (Register_atomic builder first_record first_value first_payload ["opt"; "authority"] image
                written.1 written.2 first_public first_encoded eq_refl (surjective_pairing written)) as Hr.
  rewrite written_ok in Hr. destruct Hr as [[_ Hs]|[Hne _]]; [exact Hs|exact (False_ind _ (Hne eq_refl))].
Defined.

(** The same system, listing directories backwards. *)
Definition backward_os : Os := {|
  os_next _ := SysOk;
  os_written _ := 1%nat;
  os_order _ l := reverse l;
  os_uuid _ := "01234567-89ab-cdef-0123-456789abcdef";
  os_getuid := 0;
  os_geteuid := 0;
  os_getpid := 7;
  os_thread := 1;
  os_umask := 18;
|}.

#[local] Instance backward_laws : @OsLaws backward_os.
Proof. split; [intros n l; apply reverse_Permutation|discriminate]. Qed.

(** A second registration, written by the other system. *)
Definition second_record : Message := definition_record "op2" "d2".
Abbreviation both := (@Register _ _ backward_os builder second_record written.1).

Abbreviation loading := (LoadRegistrations "/opt/authority" both.1).
Abbreviation loading_back := (@LoadRegistrations _ _ backward_os "/opt/authority" both.1).

Definition result_of (r : Disk * fate (list Message)) : list Message :=
  match r.2 with Done l => l | _ => [] end.

Definition returned (r : Disk * fate (list Message)) : bool :=
  match r.2 with Done _ => true | _ => false end.

Lemma load_returns (r : Disk * fate (list Message)) : returned r = true → r = (r.1, Done (result_of r)).
Proof. destruct r as [d [l|s|]]; simpl; intros Hr; [reflexivity|discriminate..]. Qed.

Abbreviation loading_first := (@LoadRegistrations _ _ backward_os "/opt/authority" written.1).

Lemma Register_load_witness : first_value ∈ result_of loading_first.
Proof.
  destruct (Register_load quiet_os backward_os builder first_record first_value "/opt/authority"
              ["opt"; "authority"] image written.1 0 written.1 loading_first.1 (result_of loading_first)
              first_public eq_refl)
    as [Hin _].
  - vm_compute. reflexivity.
  - rewrite <- written_ok. exact (surjective_pairing written).
  - left. reflexivity.
  - reflexivity.
  - apply (load_returns loading_first). vm_compute. reflexivity.
  - exact Hin.
Defined.

Lemma LoadRegistrations_deterministic_witness :
  result_of loading = result_of loading_back ∧ length (result_of loading) = 2%nat.
Proof.
  split; [|vm_compute; reflexivity].
  apply (LoadRegistrations_deterministic quiet_os backward_os "/opt/authority" both.1 both.1
           loading.1 loading_back.1 (result_of loading) (result_of loading_back) eq_refl).
  - apply (load_returns loading). vm_compute. reflexivity.
  - apply (load_returns loading_back). vm_compute. reflexivity.
Defined.

Abbreviation opening := (Open (mkImageRoot None false 0 0) "/" "/opt/var/authority" image).

Lemma Open_preserves_witness :
  opening.1.(tree) !! ["opt"; "authority"] = Some (NDir private_dir) ∧
  is_Some (opening.1.(tree) !! ["opt"; "var"; "authority"; "lifecycle.lock"]).
Proof.
  split; [|vm_compute; eexists; reflexivity].
  apply (Open_preserves (mkImageRoot None false 0 0) "/" "/opt/var/authority" image opening.1 opening.2
           (surjective_pairing opening)).
  vm_compute. reflexivity.
Defined.
