(* ===== verification/ClientState.v ===== *)
(** * The state of a client handle (src/consent/client.cc: Client::State;
    src/consent/io_context.hh)

    The members of [Client::State], of its [CallbackDelivery], of its
    [SocketTransport] and of its [IoContext], as far as they hold data.  An
    operation is a shared object: [heap] has every operation that was admitted
    and the other members refer to it by its [local_id].  The 64-bit counters
    [next_local_] and [next_wire_] do not wrap around within a run. *)
From S2P Require Import Prelude Strings Platform Message.

(** [Client::State::Operation]; a callback is the function and its data. *)
Record Operation := mkOperation {
  op_message : Message;
  op_result : Message;
  op_callback : option Z;
  op_status : Z;
  op_asynchronous : bool;
  op_done : bool;
  op_detached : bool;
  op_sent : bool;
  op_accepted : bool;
  op_inflight : bool;
  op_admitted : Z;
  op_deadline : Z;
  op_next_poll : Z;
  op_remote_id : string;
}.

Definition set_op_message (v : Message) (o : Operation) : Operation :=
  mkOperation v o.(op_result) o.(op_callback) o.(op_status) o.(op_asynchronous) o.(op_done)
    o.(op_detached) o.(op_sent) o.(op_accepted) o.(op_inflight) o.(op_admitted) o.(op_deadline)
    o.(op_next_poll) o.(op_remote_id).
Definition set_op_result (v : Message) (o : Operation) : Operation :=
  mkOperation o.(op_message) v o.(op_callback) o.(op_status) o.(op_asynchronous) o.(op_done)
    o.(op_detached) o.(op_sent) o.(op_accepted) o.(op_inflight) o.(op_admitted) o.(op_deadline)
    o.(op_next_poll) o.(op_remote_id).
Definition set_op_callback (v : option Z) (o : Operation) : Operation :=
  mkOperation o.(op_message) o.(op_result) v o.(op_status) o.(op_asynchronous) o.(op_done)
    o.(op_detached) o.(op_sent) o.(op_accepted) o.(op_inflight) o.(op_admitted) o.(op_deadline)
    o.(op_next_poll) o.(op_remote_id).
Definition set_op_status (v : Z) (o : Operation) : Operation :=
  mkOperation o.(op_message) o.(op_result) o.(op_callback) v o.(op_asynchronous) o.(op_done)
    o.(op_detached) o.(op_sent) o.(op_accepted) o.(op_inflight) o.(op_admitted) o.(op_deadline)
    o.(op_next_poll) o.(op_remote_id).
Definition set_op_asynchronous (v : bool) (o : Operation) : Operation :=
  mkOperation o.(op_message) o.(op_result) o.(op_callback) o.(op_status) v o.(op_done)
    o.(op_detached) o.(op_sent) o.(op_accepted) o.(op_inflight) o.(op_admitted) o.(op_deadline)
    o.(op_next_poll) o.(op_remote_id).
Definition set_op_done (v : bool) (o : Operation) : Operation :=
  mkOperation o.(op_message) o.(op_result) o.(op_callback) o.(op_status) o.(op_asynchronous) v
    o.(op_detached) o.(op_sent) o.(op_accepted) o.(op_inflight) o.(op_admitted) o.(op_deadline)
    o.(op_next_poll) o.(op_remote_id).
Definition set_op_detached (v : bool) (o : Operation) : Operation :=
  mkOperation o.(op_message) o.(op_result) o.(op_callback) o.(op_status) o.(op_asynchronous)
    o.(op_done) v o.(op_sent) o.(op_accepted) o.(op_inflight) o.(op_admitted) o.(op_deadline)
    o.(op_next_poll) o.(op_remote_id).
Definition set_op_sent (v : bool) (o : Operation) : Operation :=
  mkOperation o.(op_message) o.(op_result) o.(op_callback) o.(op_status) o.(op_asynchronous)
    o.(op_done) o.(op_detached) v o.(op_accepted) o.(op_inflight) o.(op_admitted) o.(op_deadline)
    o.(op_next_poll) o.(op_remote_id).
Definition set_op_accepted (v : bool) (o : Operation) : Operation :=
  mkOperation o.(op_message) o.(op_result) o.(op_callback) o.(op_status) o.(op_asynchronous)
    o.(op_done) o.(op_detached) o.(op_sent) v o.(op_inflight) o.(op_admitted) o.(op_deadline)
    o.(op_next_poll) o.(op_remote_id).
Definition set_op_inflight (v : bool) (o : Operation) : Operation :=
  mkOperation o.(op_message) o.(op_result) o.(op_callback) o.(op_status) o.(op_asynchronous)
    o.(op_done) o.(op_detached) o.(op_sent) o.(op_accepted) v o.(op_admitted) o.(op_deadline)
    o.(op_next_poll) o.(op_remote_id).
Definition set_op_admitted (v : Z) (o : Operation) : Operation :=
  mkOperation o.(op_message) o.(op_result) o.(op_callback) o.(op_status) o.(op_asynchronous)
    o.(op_done) o.(op_detached) o.(op_sent) o.(op_accepted) o.(op_inflight) v o.(op_deadline)
    o.(op_next_poll) o.(op_remote_id).
Definition set_op_deadline (v : Z) (o : Operation) : Operation :=
  mkOperation o.(op_message) o.(op_result) o.(op_callback) o.(op_status) o.(op_asynchronous)
    o.(op_done) o.(op_detached) o.(op_sent) o.(op_accepted) o.(op_inflight) o.(op_admitted) v
    o.(op_next_poll) o.(op_remote_id).
Definition set_op_next_poll (v : Z) (o : Operation) : Operation :=
  mkOperation o.(op_message) o.(op_result) o.(op_callback) o.(op_status) o.(op_asynchronous)
    o.(op_done) o.(op_detached) o.(op_sent) o.(op_accepted) o.(op_inflight) o.(op_admitted)
    o.(op_deadline) v o.(op_remote_id).
Definition set_op_remote_id (v : string) (o : Operation) : Operation :=
  mkOperation o.(op_message) o.(op_result) o.(op_callback) o.(op_status) o.(op_asynchronous)
    o.(op_done) o.(op_detached) o.(op_sent) o.(op_accepted) o.(op_inflight) o.(op_admitted)
    o.(op_deadline) o.(op_next_poll) v.


Record Output := mkOutput { o_frame : string; o_offset : Z; o_operation : Z }.

Record CacheEntry := mkCacheEntry { ce_result : Message; ce_expires : Z; ce_last_used : Z }.

(** [Client::State] with the queues, sources and threads around it. *)
Record State := mkState {
  (** The operations that were admitted, by [local_id]. *)
  heap : gmap Z Operation;
  closed_ : bool;
  disconnected_ : bool;
  synced_ : bool;
  profile_authority_ : bool;
  period_choice_supported_ : bool;
  approval_supported_ : bool;
  next_local_ : Z;
  next_wire_ : Z;
  epoch_ : string;
  revision_ : Z;
  operations_ : gset Z;
  cache_ : gmap string CacheEntry;
  (** [delivery_]: the sources it holds, those attached to the callback context, and those a
      caller took out to destroy. *)
  sources_ : gset Z;
  attached : gset Z;
  doomed : gset Z;
  (** [transport_]. *)
  wire_ : gmap string Z;
  output_ : list Output;
  input_ : string;
  output_bytes_ : Z;
  partial_since_ : Z;
  read_armed : bool;
  write_armed : bool;
  (** [io_]: the ready time of the deadline source, whether the wake source is ready and whether
      the loop runs. *)
  stopping_ : bool;
  wake : bool;
  deadline_at : Z;
  running : bool;
  read_error_ : Z;
  (** What callers saw: the operations a thread waits for in [Call], the values [Call] returned,
      the callbacks that were invoked, the operations whose bytes a socket took, and, for every
      wire id that was used, the operation it was used for, the message that was queued under it
      and the reply that came with it. *)
  waiting : gset Z;
  returned : list (Z * Z * option Message);
  delivered : list (Z * Z * Z * option Message);
  written : gset Z;
  exchanged : gmap string (Z * Message * option Message);
  tick : nat;
}.

Definition set_heap (v : gmap Z Operation) (s : State) : State :=
  mkState v s.(closed_) s.(disconnected_) s.(synced_) s.(profile_authority_)
    s.(period_choice_supported_) s.(approval_supported_) s.(next_local_) s.(next_wire_) s.(epoch_)
    s.(revision_) s.(operations_) s.(cache_) s.(sources_) s.(attached) s.(doomed) s.(wire_)
    s.(output_) s.(input_) s.(output_bytes_) s.(partial_since_) s.(read_armed) s.(write_armed)
    s.(stopping_) s.(wake) s.(deadline_at) s.(running) s.(read_error_) s.(waiting) s.(returned)
    s.(delivered) s.(written) s.(exchanged) s.(tick).
Definition set_closed_ (v : bool) (s : State) : State :=
  mkState s.(heap) v s.(disconnected_) s.(synced_) s.(profile_authority_)
    s.(period_choice_supported_) s.(approval_supported_) s.(next_local_) s.(next_wire_) s.(epoch_)
    s.(revision_) s.(operations_) s.(cache_) s.(sources_) s.(attached) s.(doomed) s.(wire_)
    s.(output_) s.(input_) s.(output_bytes_) s.(partial_since_) s.(read_armed) s.(write_armed)
    s.(stopping_) s.(wake) s.(deadline_at) s.(running) s.(read_error_) s.(waiting) s.(returned)
    s.(delivered) s.(written) s.(exchanged) s.(tick).
Definition set_disconnected_ (v : bool) (s : State) : State :=
  mkState s.(heap) s.(closed_) v s.(synced_) s.(profile_authority_) s.(period_choice_supported_)
    s.(approval_supported_) s.(next_local_) s.(next_wire_) s.(epoch_) s.(revision_)
    s.(operations_) s.(cache_) s.(sources_) s.(attached) s.(doomed) s.(wire_) s.(output_)
    s.(input_) s.(output_bytes_) s.(partial_since_) s.(read_armed) s.(write_armed) s.(stopping_)
    s.(wake) s.(deadline_at) s.(running) s.(read_error_) s.(waiting) s.(returned) s.(delivered)
    s.(written) s.(exchanged) s.(tick).
Definition set_synced_ (v : bool) (s : State) : State :=
  mkState s.(heap) s.(closed_) s.(disconnected_) v s.(profile_authority_)
    s.(period_choice_supported_) s.(approval_supported_) s.(next_local_) s.(next_wire_) s.(epoch_)
    s.(revision_) s.(operations_) s.(cache_) s.(sources_) s.(attached) s.(doomed) s.(wire_)
    s.(output_) s.(input_) s.(output_bytes_) s.(partial_since_) s.(read_armed) s.(write_armed)
    s.(stopping_) s.(wake) s.(deadline_at) s.(running) s.(read_error_) s.(waiting) s.(returned)
    s.(delivered) s.(written) s.(exchanged) s.(tick).
Definition set_profile_authority_ (v : bool) (s : State) : State :=
  mkState s.(heap) s.(closed_) s.(disconnected_) s.(synced_) v s.(period_choice_supported_)
    s.(approval_supported_) s.(next_local_) s.(next_wire_) s.(epoch_) s.(revision_)
    s.(operations_) s.(cache_) s.(sources_) s.(attached) s.(doomed) s.(wire_) s.(output_)
    s.(input_) s.(output_bytes_) s.(partial_since_) s.(read_armed) s.(write_armed) s.(stopping_)
    s.(wake) s.(deadline_at) s.(running) s.(read_error_) s.(waiting) s.(returned) s.(delivered)
    s.(written) s.(exchanged) s.(tick).
Definition set_period_choice_supported_ (v : bool) (s : State) : State :=
  mkState s.(heap) s.(closed_) s.(disconnected_) s.(synced_) s.(profile_authority_) v
    s.(approval_supported_) s.(next_local_) s.(next_wire_) s.(epoch_) s.(revision_)
    s.(operations_) s.(cache_) s.(sources_) s.(attached) s.(doomed) s.(wire_) s.(output_)
    s.(input_) s.(output_bytes_) s.(partial_since_) s.(read_armed) s.(write_armed) s.(stopping_)
    s.(wake) s.(deadline_at) s.(running) s.(read_error_) s.(waiting) s.(returned) s.(delivered)
    s.(written) s.(exchanged) s.(tick).
Definition set_approval_supported_ (v : bool) (s : State) : State :=
  mkState s.(heap) s.(closed_) s.(disconnected_) s.(synced_) s.(profile_authority_)
    s.(period_choice_supported_) v s.(next_local_) s.(next_wire_) s.(epoch_) s.(revision_)
    s.(operations_) s.(cache_) s.(sources_) s.(attached) s.(doomed) s.(wire_) s.(output_)
    s.(input_) s.(output_bytes_) s.(partial_since_) s.(read_armed) s.(write_armed) s.(stopping_)
    s.(wake) s.(deadline_at) s.(running) s.(read_error_) s.(waiting) s.(returned) s.(delivered)
    s.(written) s.(exchanged) s.(tick).
Definition set_next_local_ (v : Z) (s : State) : State :=
  mkState s.(heap) s.(closed_) s.(disconnected_) s.(synced_) s.(profile_authority_)
    s.(period_choice_supported_) s.(approval_supported_) v s.(next_wire_) s.(epoch_) s.(revision_)
    s.(operations_) s.(cache_) s.(sources_) s.(attached) s.(doomed) s.(wire_) s.(output_)
    s.(input_) s.(output_bytes_) s.(partial_since_) s.(read_armed) s.(write_armed) s.(stopping_)
    s.(wake) s.(deadline_at) s.(running) s.(read_error_) s.(waiting) s.(returned) s.(delivered)
    s.(written) s.(exchanged) s.(tick).
Definition set_next_wire_ (v : Z) (s : State) : State :=
  mkState s.(heap) s.(closed_) s.(disconnected_) s.(synced_) s.(profile_authority_)
    s.(period_choice_supported_) s.(approval_supported_) s.(next_local_) v s.(epoch_)
    s.(revision_) s.(operations_) s.(cache_) s.(sources_) s.(attached) s.(doomed) s.(wire_)
    s.(output_) s.(input_) s.(output_bytes_) s.(partial_since_) s.(read_armed) s.(write_armed)
    s.(stopping_) s.(wake) s.(deadline_at) s.(running) s.(read_error_) s.(waiting) s.(returned)
    s.(delivered) s.(written) s.(exchanged) s.(tick).
Definition set_epoch_ (v : string) (s : State) : State :=
  mkState s.(heap) s.(closed_) s.(disconnected_) s.(synced_) s.(profile_authority_)
    s.(period_choice_supported_) s.(approval_supported_) s.(next_local_) s.(next_wire_) v
    s.(revision_) s.(operations_) s.(cache_) s.(sources_) s.(attached) s.(doomed) s.(wire_)
    s.(output_) s.(input_) s.(output_bytes_) s.(partial_since_) s.(read_armed) s.(write_armed)
    s.(stopping_) s.(wake) s.(deadline_at) s.(running) s.(read_error_) s.(waiting) s.(returned)
    s.(delivered) s.(written) s.(exchanged) s.(tick).
Definition set_revision_ (v : Z) (s : State) : State :=
  mkState s.(heap) s.(closed_) s.(disconnected_) s.(synced_) s.(profile_authority_)
    s.(period_choice_supported_) s.(approval_supported_) s.(next_local_) s.(next_wire_) s.(epoch_)
    v s.(operations_) s.(cache_) s.(sources_) s.(attached) s.(doomed) s.(wire_) s.(output_)
    s.(input_) s.(output_bytes_) s.(partial_since_) s.(read_armed) s.(write_armed) s.(stopping_)
    s.(wake) s.(deadline_at) s.(running) s.(read_error_) s.(waiting) s.(returned) s.(delivered)
    s.(written) s.(exchanged) s.(tick).
Definition set_operations_ (v : gset Z) (s : State) : State :=
  mkState s.(heap) s.(closed_) s.(disconnected_) s.(synced_) s.(profile_authority_)
    s.(period_choice_supported_) s.(approval_supported_) s.(next_local_) s.(next_wire_) s.(epoch_)
    s.(revision_) v s.(cache_) s.(sources_) s.(attached) s.(doomed) s.(wire_) s.(output_)
    s.(input_) s.(output_bytes_) s.(partial_since_) s.(read_armed) s.(write_armed) s.(stopping_)
    s.(wake) s.(deadline_at) s.(running) s.(read_error_) s.(waiting) s.(returned) s.(delivered)
    s.(written) s.(exchanged) s.(tick).
Definition set_cache_ (v : gmap string CacheEntry) (s : State) : State :=
  mkState s.(heap) s.(closed_) s.(disconnected_) s.(synced_) s.(profile_authority_)
    s.(period_choice_supported_) s.(approval_supported_) s.(next_local_) s.(next_wire_) s.(epoch_)
    s.(revision_) s.(operations_) v s.(sources_) s.(attached) s.(doomed) s.(wire_) s.(output_)
    s.(input_) s.(output_bytes_) s.(partial_since_) s.(read_armed) s.(write_armed) s.(stopping_)
    s.(wake) s.(deadline_at) s.(running) s.(read_error_) s.(waiting) s.(returned) s.(delivered)
    s.(written) s.(exchanged) s.(tick).
Definition set_sources_ (v : gset Z) (s : State) : State :=
  mkState s.(heap) s.(closed_) s.(disconnected_) s.(synced_) s.(profile_authority_)
    s.(period_choice_supported_) s.(approval_supported_) s.(next_local_) s.(next_wire_) s.(epoch_)
    s.(revision_) s.(operations_) s.(cache_) v s.(attached) s.(doomed) s.(wire_) s.(output_)
    s.(input_) s.(output_bytes_) s.(partial_since_) s.(read_armed) s.(write_armed) s.(stopping_)
    s.(wake) s.(deadline_at) s.(running) s.(read_error_) s.(waiting) s.(returned) s.(delivered)
    s.(written) s.(exchanged) s.(tick).
Definition set_attached (v : gset Z) (s : State) : State :=
  mkState s.(heap) s.(closed_) s.(disconnected_) s.(synced_) s.(profile_authority_)
    s.(period_choice_supported_) s.(approval_supported_) s.(next_local_) s.(next_wire_) s.(epoch_)
    s.(revision_) s.(operations_) s.(cache_) s.(sources_) v s.(doomed) s.(wire_) s.(output_)
    s.(input_) s.(output_bytes_) s.(partial_since_) s.(read_armed) s.(write_armed) s.(stopping_)
    s.(wake) s.(deadline_at) s.(running) s.(read_error_) s.(waiting) s.(returned) s.(delivered)
    s.(written) s.(exchanged) s.(tick).
Definition set_doomed (v : gset Z) (s : State) : State :=
  mkState s.(heap) s.(closed_) s.(disconnected_) s.(synced_) s.(profile_authority_)
    s.(period_choice_supported_) s.(approval_supported_) s.(next_local_) s.(next_wire_) s.(epoch_)
    s.(revision_) s.(operations_) s.(cache_) s.(sources_) s.(attached) v s.(wire_) s.(output_)
    s.(input_) s.(output_bytes_) s.(partial_since_) s.(read_armed) s.(write_armed) s.(stopping_)
    s.(wake) s.(deadline_at) s.(running) s.(read_error_) s.(waiting) s.(returned) s.(delivered)
    s.(written) s.(exchanged) s.(tick).
Definition set_wire_ (v : gmap string Z) (s : State) : State :=
  mkState s.(heap) s.(closed_) s.(disconnected_) s.(synced_) s.(profile_authority_)
    s.(period_choice_supported_) s.(approval_supported_) s.(next_local_) s.(next_wire_) s.(epoch_)
    s.(revision_) s.(operations_) s.(cache_) s.(sources_) s.(attached) s.(doomed) v s.(output_)
    s.(input_) s.(output_bytes_) s.(partial_since_) s.(read_armed) s.(write_armed) s.(stopping_)
    s.(wake) s.(deadline_at) s.(running) s.(read_error_) s.(waiting) s.(returned) s.(delivered)
    s.(written) s.(exchanged) s.(tick).
Definition set_output_ (v : list Output) (s : State) : State :=
  mkState s.(heap) s.(closed_) s.(disconnected_) s.(synced_) s.(profile_authority_)
    s.(period_choice_supported_) s.(approval_supported_) s.(next_local_) s.(next_wire_) s.(epoch_)
    s.(revision_) s.(operations_) s.(cache_) s.(sources_) s.(attached) s.(doomed) s.(wire_) v
    s.(input_) s.(output_bytes_) s.(partial_since_) s.(read_armed) s.(write_armed) s.(stopping_)
    s.(wake) s.(deadline_at) s.(running) s.(read_error_) s.(waiting) s.(returned) s.(delivered)
    s.(written) s.(exchanged) s.(tick).
Definition set_input_ (v : string) (s : State) : State :=
  mkState s.(heap) s.(closed_) s.(disconnected_) s.(synced_) s.(profile_authority_)
    s.(period_choice_supported_) s.(approval_supported_) s.(next_local_) s.(next_wire_) s.(epoch_)
    s.(revision_) s.(operations_) s.(cache_) s.(sources_) s.(attached) s.(doomed) s.(wire_)
    s.(output_) v s.(output_bytes_) s.(partial_since_) s.(read_armed) s.(write_armed)
    s.(stopping_) s.(wake) s.(deadline_at) s.(running) s.(read_error_) s.(waiting) s.(returned)
    s.(delivered) s.(written) s.(exchanged) s.(tick).
Definition set_output_bytes_ (v : Z) (s : State) : State :=
  mkState s.(heap) s.(closed_) s.(disconnected_) s.(synced_) s.(profile_authority_)
    s.(period_choice_supported_) s.(approval_supported_) s.(next_local_) s.(next_wire_) s.(epoch_)
    s.(revision_) s.(operations_) s.(cache_) s.(sources_) s.(attached) s.(doomed) s.(wire_)
    s.(output_) s.(input_) v s.(partial_since_) s.(read_armed) s.(write_armed) s.(stopping_)
    s.(wake) s.(deadline_at) s.(running) s.(read_error_) s.(waiting) s.(returned) s.(delivered)
    s.(written) s.(exchanged) s.(tick).
Definition set_partial_since_ (v : Z) (s : State) : State :=
  mkState s.(heap) s.(closed_) s.(disconnected_) s.(synced_) s.(profile_authority_)
    s.(period_choice_supported_) s.(approval_supported_) s.(next_local_) s.(next_wire_) s.(epoch_)
    s.(revision_) s.(operations_) s.(cache_) s.(sources_) s.(attached) s.(doomed) s.(wire_)
    s.(output_) s.(input_) s.(output_bytes_) v s.(read_armed) s.(write_armed) s.(stopping_)
    s.(wake) s.(deadline_at) s.(running) s.(read_error_) s.(waiting) s.(returned) s.(delivered)
    s.(written) s.(exchanged) s.(tick).
Definition set_read_armed (v : bool) (s : State) : State :=
  mkState s.(heap) s.(closed_) s.(disconnected_) s.(synced_) s.(profile_authority_)
    s.(period_choice_supported_) s.(approval_supported_) s.(next_local_) s.(next_wire_) s.(epoch_)
    s.(revision_) s.(operations_) s.(cache_) s.(sources_) s.(attached) s.(doomed) s.(wire_)
    s.(output_) s.(input_) s.(output_bytes_) s.(partial_since_) v s.(write_armed) s.(stopping_)
    s.(wake) s.(deadline_at) s.(running) s.(read_error_) s.(waiting) s.(returned) s.(delivered)
    s.(written) s.(exchanged) s.(tick).
Definition set_write_armed (v : bool) (s : State) : State :=
  mkState s.(heap) s.(closed_) s.(disconnected_) s.(synced_) s.(profile_authority_)
    s.(period_choice_supported_) s.(approval_supported_) s.(next_local_) s.(next_wire_) s.(epoch_)
    s.(revision_) s.(operations_) s.(cache_) s.(sources_) s.(attached) s.(doomed) s.(wire_)
    s.(output_) s.(input_) s.(output_bytes_) s.(partial_since_) s.(read_armed) v s.(stopping_)
    s.(wake) s.(deadline_at) s.(running) s.(read_error_) s.(waiting) s.(returned) s.(delivered)
    s.(written) s.(exchanged) s.(tick).
Definition set_stopping_ (v : bool) (s : State) : State :=
  mkState s.(heap) s.(closed_) s.(disconnected_) s.(synced_) s.(profile_authority_)
    s.(period_choice_supported_) s.(approval_supported_) s.(next_local_) s.(next_wire_) s.(epoch_)
    s.(revision_) s.(operations_) s.(cache_) s.(sources_) s.(attached) s.(doomed) s.(wire_)
    s.(output_) s.(input_) s.(output_bytes_) s.(partial_since_) s.(read_armed) s.(write_armed) v
    s.(wake) s.(deadline_at) s.(running) s.(read_error_) s.(waiting) s.(returned) s.(delivered)
    s.(written) s.(exchanged) s.(tick).
Definition set_wake (v : bool) (s : State) : State :=
  mkState s.(heap) s.(closed_) s.(disconnected_) s.(synced_) s.(profile_authority_)
    s.(period_choice_supported_) s.(approval_supported_) s.(next_local_) s.(next_wire_) s.(epoch_)
    s.(revision_) s.(operations_) s.(cache_) s.(sources_) s.(attached) s.(doomed) s.(wire_)
    s.(output_) s.(input_) s.(output_bytes_) s.(partial_since_) s.(read_armed) s.(write_armed)
    s.(stopping_) v s.(deadline_at) s.(running) s.(read_error_) s.(waiting) s.(returned)
    s.(delivered) s.(written) s.(exchanged) s.(tick).
Definition set_deadline_at (v : Z) (s : State) : State :=
  mkState s.(heap) s.(closed_) s.(disconnected_) s.(synced_) s.(profile_authority_)
    s.(period_choice_supported_) s.(approval_supported_) s.(next_local_) s.(next_wire_) s.(epoch_)
    s.(revision_) s.(operations_) s.(cache_) s.(sources_) s.(attached) s.(doomed) s.(wire_)
    s.(output_) s.(input_) s.(output_bytes_) s.(partial_since_) s.(read_armed) s.(write_armed)
    s.(stopping_) s.(wake) v s.(running) s.(read_error_) s.(waiting) s.(returned) s.(delivered)
    s.(written) s.(exchanged) s.(tick).
Definition set_running (v : bool) (s : State) : State :=
  mkState s.(heap) s.(closed_) s.(disconnected_) s.(synced_) s.(profile_authority_)
    s.(period_choice_supported_) s.(approval_supported_) s.(next_local_) s.(next_wire_) s.(epoch_)
    s.(revision_) s.(operations_) s.(cache_) s.(sources_) s.(attached) s.(doomed) s.(wire_)
    s.(output_) s.(input_) s.(output_bytes_) s.(partial_since_) s.(read_armed) s.(write_armed)
    s.(stopping_) s.(wake) s.(deadline_at) v s.(read_error_) s.(waiting) s.(returned)
    s.(delivered) s.(written) s.(exchanged) s.(tick).
Definition set_read_error_ (v : Z) (s : State) : State :=
  mkState s.(heap) s.(closed_) s.(disconnected_) s.(synced_) s.(profile_authority_)
    s.(period_choice_supported_) s.(approval_supported_) s.(next_local_) s.(next_wire_) s.(epoch_)
    s.(revision_) s.(operations_) s.(cache_) s.(sources_) s.(attached) s.(doomed) s.(wire_)
    s.(output_) s.(input_) s.(output_bytes_) s.(partial_since_) s.(read_armed) s.(write_armed)
    s.(stopping_) s.(wake) s.(deadline_at) s.(running) v s.(waiting) s.(returned) s.(delivered)
    s.(written) s.(exchanged) s.(tick).
Definition set_waiting (v : gset Z) (s : State) : State :=
  mkState s.(heap) s.(closed_) s.(disconnected_) s.(synced_) s.(profile_authority_)
    s.(period_choice_supported_) s.(approval_supported_) s.(next_local_) s.(next_wire_) s.(epoch_)
    s.(revision_) s.(operations_) s.(cache_) s.(sources_) s.(attached) s.(doomed) s.(wire_)
    s.(output_) s.(input_) s.(output_bytes_) s.(partial_since_) s.(read_armed) s.(write_armed)
    s.(stopping_) s.(wake) s.(deadline_at) s.(running) s.(read_error_) v s.(returned)
    s.(delivered) s.(written) s.(exchanged) s.(tick).
Definition set_returned (v : list (Z * Z * option Message)) (s : State) : State :=
  mkState s.(heap) s.(closed_) s.(disconnected_) s.(synced_) s.(profile_authority_)
    s.(period_choice_supported_) s.(approval_supported_) s.(next_local_) s.(next_wire_) s.(epoch_)
    s.(revision_) s.(operations_) s.(cache_) s.(sources_) s.(attached) s.(doomed) s.(wire_)
    s.(output_) s.(input_) s.(output_bytes_) s.(partial_since_) s.(read_armed) s.(write_armed)
    s.(stopping_) s.(wake) s.(deadline_at) s.(running) s.(read_error_) s.(waiting) v s.(delivered)
    s.(written) s.(exchanged) s.(tick).
Definition set_delivered (v : list (Z * Z * Z * option Message)) (s : State) : State :=
  mkState s.(heap) s.(closed_) s.(disconnected_) s.(synced_) s.(profile_authority_)
    s.(period_choice_supported_) s.(approval_supported_) s.(next_local_) s.(next_wire_) s.(epoch_)
    s.(revision_) s.(operations_) s.(cache_) s.(sources_) s.(attached) s.(doomed) s.(wire_)
    s.(output_) s.(input_) s.(output_bytes_) s.(partial_since_) s.(read_armed) s.(write_armed)
    s.(stopping_) s.(wake) s.(deadline_at) s.(running) s.(read_error_) s.(waiting) s.(returned) v
    s.(written) s.(exchanged) s.(tick).
Definition set_written (v : gset Z) (s : State) : State :=
  mkState s.(heap) s.(closed_) s.(disconnected_) s.(synced_) s.(profile_authority_)
    s.(period_choice_supported_) s.(approval_supported_) s.(next_local_) s.(next_wire_) s.(epoch_)
    s.(revision_) s.(operations_) s.(cache_) s.(sources_) s.(attached) s.(doomed) s.(wire_)
    s.(output_) s.(input_) s.(output_bytes_) s.(partial_since_) s.(read_armed) s.(write_armed)
    s.(stopping_) s.(wake) s.(deadline_at) s.(running) s.(read_error_) s.(waiting) s.(returned)
    s.(delivered) v s.(exchanged) s.(tick).
Definition set_exchanged (v : gmap string (Z * Message * option Message)) (s : State) : State :=
  mkState s.(heap) s.(closed_) s.(disconnected_) s.(synced_) s.(profile_authority_)
    s.(period_choice_supported_) s.(approval_supported_) s.(next_local_) s.(next_wire_) s.(epoch_)
    s.(revision_) s.(operations_) s.(cache_) s.(sources_) s.(attached) s.(doomed) s.(wire_)
    s.(output_) s.(input_) s.(output_bytes_) s.(partial_since_) s.(read_armed) s.(write_armed)
    s.(stopping_) s.(wake) s.(deadline_at) s.(running) s.(read_error_) s.(waiting) s.(returned)
    s.(delivered) s.(written) v s.(tick).
Definition set_tick (v : nat) (s : State) : State :=
  mkState s.(heap) s.(closed_) s.(disconnected_) s.(synced_) s.(profile_authority_)
    s.(period_choice_supported_) s.(approval_supported_) s.(next_local_) s.(next_wire_) s.(epoch_)
    s.(revision_) s.(operations_) s.(cache_) s.(sources_) s.(attached) s.(doomed) s.(wire_)
    s.(output_) s.(input_) s.(output_bytes_) s.(partial_since_) s.(read_armed) s.(write_armed)
    s.(stopping_) s.(wake) s.(deadline_at) s.(running) s.(read_error_) s.(waiting) s.(returned)
    s.(delivered) s.(written) s.(exchanged) v.
