(* ===== verification/Client.v ===== *)
(** * The client handle (src/consent/client.cc, src/consent/io_context.cc)

    An application talks to the daemon through a [Client].  Its own threads
    admit operations, wait for them, detach them and close the handle; the
    callback context delivers results; one I/O thread writes the requests,
    matches the replies, keeps the cache of decisions and watches the
    deadlines.  They share the members of [Client::State] under one mutex.

    The code of the I/O thread runs in the monad [C].  Where it takes the
    mutex, [lock] first lets the environment run any sequence of critical
    sections of the other threads, so a run covers every interleaving: between
    two acquisitions the I/O thread touches only what it alone writes.
    Functions of the other threads are one critical section each; a clock
    reading that precedes it is the environment's, and what [Detach] and
    [Close] do after theirs, waking or stopping the I/O thread, is an action
    of its own.

    The socket, the clock and the other threads are [ClientEnv].  Allocation
    failures and a fork of the process are not represented. *)
From S2P Require Import Prelude Strings Platform Message Wire ClientState.
From Stdlib Require Import Ascii.

Definition kMaxPending : Z := 64.
Definition kMaxOutputBytes : Z := 262144.
Definition kMaximumWaitMs : Z := 300000.

(** ** Errors of [consent_common.h] *)

Definition EDEADLK : Z := 35.
Definition ENOTCONN : Z := 107.

Definition CONSENT_ERROR_INVALID_PARAMETER : Z := - EINVAL.
Definition CONSENT_ERROR_BUSY : Z := - EBUSY.
Definition CONSENT_ERROR_NOT_FOUND : Z := - ENOENT.
Definition CONSENT_ERROR_TIMEOUT : Z := - ETIMEDOUT.
Definition CONSENT_ERROR_DISCONNECTED : Z := - ENOTCONN.
Definition CONSENT_ERROR_WOULD_DEADLOCK : Z := - EDEADLK.
Definition CONSENT_ERROR_INVALID_OPERATION : Z := - ENOSYS.
Definition CONSENT_ERROR_PROTOCOL `{Platform} : Z := TIZEN_ERROR_MIN_MODULE_ERROR.
Definition CONSENT_ERROR_OUTCOME_UNKNOWN `{Platform} : Z := TIZEN_ERROR_MIN_MODULE_ERROR + 1.

(** The errors of a module lie beyond those of [errno.h], of which [EHWPOISON]
    is the last. *)
Class ErrorLaws `{Platform} : Prop := {
  module_errors : TIZEN_ERROR_MIN_MODULE_ERROR + 5 < - 133;
}.

(** ** The other threads *)

(** A critical section of another thread; the boolean arguments of a call are
    what it observes of its caller. *)
Inductive action :=
| ASubmit (current owner : bool) (message : Message) (callback : option Z) (slot : bool)
| ACall (current slot dispatching : bool) (message : Message) (timeout : Z)
| AResume (id : Z)
| AHello (id : Z)
| ADispatch (id : Z)
| ADetach (current owner : bool) (id : Z)
| AWake
| ARelease (id : Z)
| AClose (current : bool)
| AStop.

Inductive read_result := ReadBlocked | ReadFailed | ReadEnd | ReadBytes (bytes : string).
Inductive write_result := WriteBlocked | WriteFailed | Wrote (n : Z).

Class ClientEnv := {
  (** [g_get_monotonic_time()], and such a reading of a thread that is about
      to take the mutex. *)
  cl_time : nat → Z;
  cl_admitted : nat → Z;
  (** [g_socket_receive] and [g_socket_send]. *)
  cl_read : nat → read_result;
  cl_write : nat → string → write_result;
  (** The critical sections that precede an acquisition by the I/O thread. *)
  cl_others : nat → list action;
}.

(** Time does not run backwards; a socket gives no more than asked for and
    takes no more than it is offered. *)
Class ClientLaws `{ClientEnv} : Prop := {
  time_mono : ∀ n m, (n ≤ m)%nat → cl_time n ≤ cl_time m;
  time_positive : ∀ n, 0 < cl_time n;
  admitted_before : ∀ n, 0 < cl_admitted n ≤ cl_time n;
  read_bound : ∀ n bytes, cl_read n = ReadBytes bytes → 1 ≤ size bytes ≤ 8192;
  write_bound : ∀ n bytes k, cl_write n bytes = Wrote k → k ≤ size bytes;
}.

(** ** The monad *)

Definition C (A : Type) : Type := State → State * A.

#[export] Instance C_ret : MRet C := λ A a s, (s, a).
#[export] Instance C_bind : MBind C := λ A B k m s, let '(s', a) := m s in k a s'.

Definition getS : C State := λ s, (s, s).
Definition modS (f : State → State) : C () := λ s, (f s, ()).

(** Read the environment at the next instant. *)
Definition read {A} (f : nat → A) : C A := λ s, (set_tick (S s.(tick)) s, f s.(tick)).

Definition new_operation (message : Message) (asynchronous : bool) (callback : option Z)
    (admitted deadline : Z) : Operation :=
  mkOperation message ∅ callback 0 asynchronous false false false false false admitted deadline 0 "".

Definition operation (id : Z) (s : State) : Operation :=
  default (new_operation ∅ false None 0 0) (s.(heap) !! id).

Definition getO (id : Z) : C Operation := λ s, (s, operation id s).
Definition updO (id : Z) (f : Operation → Operation) : C () :=
  modS (λ s, set_heap (alter f id s.(heap)) s).

(** [operations_] in key order. *)
Definition operation_ids (s : State) : list Z := merge_sort Z.le (elements s.(operations_)).

(** Neither done nor detached. *)
Definition undone (s : State) (id : Z) : bool :=
  negb (operation id s).(op_done) && negb (operation id s).(op_detached).

Fixpoint each {A} (l : list A) (body : A → C ()) : C () :=
  match l with
  | [] => mret ()
  | x :: l' => body x;; each l' body
  end.

(** ** [IoContext] *)

Definition Wake : C () := modS (set_wake true).
Definition IoStop : C () := modS (set_stopping_ true);; Wake.
Definition Deadline (at_ : Z) : C () := modS (set_deadline_at at_).

(** [SocketTransport::Close]. *)
Definition TransportClose : C () :=
  modS (λ s, set_read_armed false (set_write_armed false (set_wire_ ∅ (set_output_ []
    (set_input_ "" (set_output_bytes_ 0 s)))))).

Definition ArmWrite : C () :=
  s ← getS;
  if bool_decide (s.(output_) = []) then modS (set_write_armed false)
  else modS (set_write_armed true).

(** ** The cache *)

Definition cache_ignored (key : string) : bool :=
  eqs key "id" || eqs key "client_request_id" || eqs key "operation_id" || eqs key "deadline_ms".

Definition key_part (f : string * string) : string :=
  to_string (size f.1) +:+ ":" +:+ f.1 +:+ to_string (size f.2) +:+ ":" +:+ f.2.

Definition CacheKey (message : Message) : string :=
  foldr (λ f acc, if cache_ignored f.1 then acc else key_part f +:+ acc) "" (items message).

(** [std::min_element] by [last_used]: the first of the least recently used. *)
Fixpoint oldest (l : list (string * CacheEntry)) : option (string * CacheEntry) :=
  match l with
  | [] => None
  | e :: l' =>
      match oldest l' with
      | Some e' => if e'.2.(ce_last_used) <? e.2.(ce_last_used) then Some e' else Some e
      | None => Some e
      end
  end.

Definition evict (cache : gmap string CacheEntry) : gmap string CacheEntry :=
  if msize cache >=? 64
  then match oldest (items cache) with Some (k, _) => delete k cache | None => cache end
  else cache.

Section client.
Context `{Platform} `{Parcel} `{ClientEnv}.

(** ** Critical sections of the application *)

(** The checks of [Admit] in order; 0 when the operation is admitted. *)
Definition admission_status (message : Message) (s : State) : Z :=
  if s.(closed_) || s.(disconnected_) then CONSENT_ERROR_DISCONNECTED
  else if has message "approval_period_choice" && negb s.(period_choice_supported_)
  then CONSENT_ERROR_INVALID_OPERATION
  else
    let version := Get message "approval_version" in
    let versioned := has message "approval_version" in
    if versioned && negb (eqs version "1") && negb (eqs version "2")
    then CONSENT_ERROR_INVALID_PARAMETER
    else if versioned && eqs version "2" && negb s.(period_choice_supported_)
    then CONSENT_ERROR_INVALID_OPERATION
    else if versioned && negb s.(approval_supported_) then CONSENT_ERROR_INVALID_OPERATION
    else if Z.of_nat (base.size s.(operations_)) >=? kMaxPending then CONSENT_ERROR_BUSY
    else 0.

(** The decision the cache has for a request, and its new last use. *)
Definition cache_lookup (message : Message) : C (option Message) :=
  s ← getS;
  if eqs (Get message "method") "request" && s.(synced_) && negb s.(profile_authority_) &&
     negb (has message "approval_version")
  then
    match s.(cache_) !! CacheKey message with
    | None => mret None
    | Some entry =>
        now ← read cl_time;
        if entry.(ce_expires) >? now then
          used ← read cl_time;
          modS (set_cache_ (<[CacheKey message :=
                  mkCacheEntry entry.(ce_result) entry.(ce_expires) used]> s.(cache_)));;
          mret (Some (delete "id" (delete "request_id" (<["source" := "CACHE"]> entry.(ce_result)))))
        else mret None
    end
  else mret None.

Definition insert_operation (id : Z) (o : Operation) : C () :=
  modS (λ s, set_heap (<[id := o]> s.(heap))
               (set_operations_ ({[id]} ∪ s.(operations_)) (set_next_local_ (s.(next_local_) + 1) s))).

Definition Admit (message : Message) (timeout : Z) (asynchronous : bool) (callback : option Z)
  : C (Z * Z) :=
  admitted ← read cl_admitted;
  let o := new_operation message asynchronous callback admitted (admitted + timeout * 1000) in
  s ← getS;
  let status := admission_status message s in
  if negb (status =? 0) then mret (status, 0)
  else
    cached ← cache_lookup message;
    s ← getS;
    let id := s.(next_local_) in
    insert_operation id
      (match cached with Some result => set_op_done true (set_op_result result o) | None => o end);;
    (if asynchronous then modS (λ s, set_sources_ ({[id]} ∪ s.(sources_)) s) else mret ());;
    (match cached with
     | Some _ =>
         if asynchronous then modS (λ s, set_attached ({[id]} ∪ s.(attached)) s)
         else modS (λ s, set_operations_ (s.(operations_) ∖ {[id]}) s)
     | None => Wake
     end);;
    mret (0, id).

Definition Submit (current owner : bool) (message : Message) (callback : option Z) (slot : bool)
  : C (Z * Z) :=
  if negb current || negb owner || bool_decide (callback = None) || negb slot
  then mret (CONSENT_ERROR_INVALID_PARAMETER, 0)
  else Admit message kMaximumWaitMs true callback.

(** [Call] up to its wait. *)
Definition Call (current slot dispatching : bool) (message : Message) (timeout : Z) : C (Z * Z) :=
  if negb current || negb slot || (timeout <=? 0) || (timeout >? kMaximumWaitMs)
  then mret (CONSENT_ERROR_INVALID_PARAMETER, 0)
  else if negb (eqs (Get message "method") "hello") && dispatching
  then mret (CONSENT_ERROR_WOULD_DEADLOCK, 0)
  else
    r ← Admit message timeout false None;
    (if r.1 =? 0 then modS (λ s, set_waiting ({[r.2]} ∪ s.(waiting)) s) else mret ());;
    mret r.

(** The caller of [Call] wakes up: it returns when the operation is done or
    its deadline has passed. *)
Definition call_return (id : Z) : C () :=
  o ← getO id;
  modS (λ s, set_waiting (s.(waiting) ∖ {[id]}) (set_returned (s.(returned) ++
    [(id, o.(op_status), if o.(op_status) =? 0 then Some o.(op_result) else None)]) s)).

Definition Resume (id : Z) : C () :=
  s ← getS;
  if negb (bool_decide (id ∈ s.(waiting))) then mret ()
  else
    o ← getO id;
    if o.(op_done) then call_return id
    else
      now ← read cl_time;
      if now <? o.(op_deadline) then mret ()
      else
        updO id (λ o, set_op_status
          (if o.(op_sent) && negb o.(op_accepted) then CONSENT_ERROR_OUTCOME_UNKNOWN
           else CONSENT_ERROR_TIMEOUT) (set_op_done true o));;
        modS (λ s, set_operations_ (s.(operations_) ∖ {[id]}) s);;
        call_return id.

(** The end of [Connect]: its [Call] of [hello] has returned. *)
Definition hello_returned (id : Z) (s : State) : option Message :=
  r ← list_find (λ r : Z * Z * option Message, r.1.1 = id ∧
        Get (operation id s).(op_message) "method" = "hello") s.(returned);
  r.2.2.

Definition Hello (id : Z) : C () :=
  s ← getS;
  match hello_returned id s with
  | None => mret ()
  | Some result =>
      modS (set_approval_supported_ (eqs (Get result "approval_version") "1"));;
      modS (set_period_choice_supported_
              (eqs (Get result "approval_supported_versions") "1,2" &&
               eqs (Get result "approval_period_choice") "1"))
  end.

(** [Dispatch]: the callback context runs the source of an operation. *)
Definition Dispatch (id : Z) : C () :=
  s ← getS;
  if negb (bool_decide (id ∈ s.(attached))) then mret ()
  else
    o ← getO id;
    let callback := if negb s.(closed_) && negb o.(op_detached) then o.(op_callback) else None in
    modS (λ s, set_attached (s.(attached) ∖ {[id]}) (set_sources_ (s.(sources_) ∖ {[id]})
                 (set_operations_ (s.(operations_) ∖ {[id]}) s)));;
    updO id (set_op_callback None);;
    match callback with
    | None => mret ()
    | Some f =>
        updO id (set_op_result ∅);;
        modS (λ s, set_delivered (s.(delivered) ++
          [(id, f, o.(op_status), if o.(op_status) =? 0 then Some o.(op_result) else None)]) s)
    end.

(** The critical section of [Detach]: 0 if it goes on. *)
Definition detach_section (current owner : bool) (id : Z) : C Z :=
  if negb current || negb owner then mret CONSENT_ERROR_INVALID_PARAMETER
  else
    s ← getS;
    o ← getO id;
    if negb (bool_decide (id ∈ s.(operations_))) || negb o.(op_asynchronous)
    then mret CONSENT_ERROR_NOT_FOUND
    else
      updO id (λ o, set_op_callback None (set_op_detached true o));;
      modS (λ s, set_operations_ (s.(operations_) ∖ {[id]}) s);;
      (if bool_decide (id ∈ s.(sources_))
       then modS (λ s, set_sources_ (s.(sources_) ∖ {[id]}) (set_doomed ({[id]} ∪ s.(doomed)) s))
       else mret ());;
      mret 0.

Definition Detach (current owner : bool) (id : Z) : C Z :=
  status ← detach_section current owner id;
  (if status =? 0 then Wake else mret ());;
  mret status.

(** A source that [Detach] or [Close] took out is destroyed. *)
Definition Release (id : Z) : C () :=
  s ← getS;
  if bool_decide (id ∈ s.(doomed))
  then modS (λ s, set_doomed (s.(doomed) ∖ {[id]}) (set_attached (s.(attached) ∖ {[id]}) s))
  else mret ().

Definition close_operation (o : Operation) : Operation :=
  set_op_callback None (set_op_status CONSENT_ERROR_DISCONNECTED (set_op_detached true
    (set_op_done true o))).

(** The critical section of [Close]: its status, and whether it goes on. *)
Definition close_section (current : bool) : C (Z * bool) :=
  if negb current then mret (CONSENT_ERROR_INVALID_PARAMETER, false)
  else
    s ← getS;
    if s.(closed_) then mret (0, false)
    else
      modS (λ s, set_closed_ true (set_cache_ ∅ s));;
      each (operation_ids s) (λ id, updO id close_operation);;
      modS (λ s, set_operations_ ∅ (set_doomed (s.(doomed) ∪ s.(sources_)) (set_sources_ ∅ s)));;
      mret (0, true).

(** The join of the I/O thread, which follows, is the end of its runs. *)
Definition Close (current : bool) : C Z :=
  r ← close_section current;
  (if r.2 : bool then IoStop else mret ());;
  mret r.1.

Definition act (a : action) : C () :=
  match a with
  | ASubmit current owner message callback slot => Submit current owner message callback slot;; mret ()
  | ACall current slot dispatching message timeout =>
      Call current slot dispatching message timeout;; mret ()
  | AResume id => Resume id
  | AHello id => Hello id
  | ADispatch id => Dispatch id
  | ADetach current owner id => detach_section current owner id;; mret ()
  | AWake => Wake
  | ARelease id => Release id
  | AClose current => close_section current;; mret ()
  | AStop => s ← getS; if s.(closed_) then IoStop else mret ()
  end.

(** ** The I/O thread *)

(** [MutexLock lock(mutex_)] on the I/O thread. *)
Definition lock : C () :=
  others ← read cl_others;
  each others act.

Definition Complete (id : Z) (status : Z) (result : Message) : C () :=
  lock;;
  o ← getO id;
  if o.(op_done) || o.(op_detached) then mret ()
  else
    updO id (λ o, set_op_done true (set_op_result result (set_op_status status o)));;
    s ← getS;
    if negb o.(op_asynchronous) || s.(closed_)
    then modS (set_operations_ (s.(operations_) ∖ {[id]}))
    else if bool_decide (id ∈ s.(sources_)) then modS (set_attached ({[id]} ∪ s.(attached)))
    else mret ().

(** The message that is sent for an operation: the request itself, or a poll
    of the request that the daemon has stored. *)
Definition wire_message (o : Operation) (id : string) : Message :=
  let message :=
    if empty o.(op_remote_id) then o.(op_message)
    else <["request_id" := o.(op_remote_id)]> (<["method" := "result"]> ∅) in
  <["id" := id]> (<["v" := "1"]> message).

Definition Queue (id : Z) : C () :=
  lock;;
  o ← getO id;
  if o.(op_done) || o.(op_detached) then mret ()
  else
    s ← getS;
    let wid := to_string s.(next_wire_) in
    modS (set_next_wire_ (s.(next_wire_) + 1));;
    match Encode (wire_message o wid) with
    | None => Complete id CONSENT_ERROR_INVALID_PARAMETER ∅
    | Some frame =>
        if s.(output_bytes_) + size frame >? kMaxOutputBytes then Complete id CONSENT_ERROR_BUSY ∅
        else
          modS (λ s, set_exchanged (<[wid := (id, wire_message o wid, None)]> s.(exchanged)) s);;
          modS (λ s, set_wire_ (<[wid := id]> s.(wire_))
                 (set_output_bytes_ (s.(output_bytes_) + size frame)
                    (set_output_ (s.(output_) ++ [mkOutput frame 0 id]) s)));;
          updO id (set_op_inflight true)
    end.

Definition Invalidate (message : Message) : C () :=
  lock;;
  (if eqs (Get message "profile_authority") "1" then modS (set_profile_authority_ true) else mret ());;
  let epoch := Get message "epoch" in
  let revision := MsgNumber message "revision" (-1) in
  modS (λ s, set_synced_ (negb (empty epoch) && (revision >=? 0))
               (set_revision_ revision (set_epoch_ epoch (set_cache_ ∅ s)))).

(** The synchronization part of [Receive], under the mutex. *)
Definition synchronize (message : Message) : C () :=
  (if eqs (Get message "profile_authority") "1"
   then modS (λ s, set_profile_authority_ true (set_cache_ ∅ s)) else mret ());;
  let epoch := Get message "epoch" in
  let revision := MsgNumber message "revision" (-1) in
  s ← getS;
  if empty epoch || (revision <? 0) || (negb (empty s.(epoch_)) && negb (eqs epoch s.(epoch_))) ||
     (eqs epoch s.(epoch_) && (revision <? s.(revision_)))
  then modS (λ s, set_synced_ false (set_cache_ ∅ s))
  else
    (if revision =? s.(revision_) then mret () else modS (set_cache_ ∅));;
    modS (λ s, set_synced_ true (set_revision_ revision (set_epoch_ epoch s))).

(** The reply may be kept as a decision. *)
Definition cacheable (o : Operation) (status : Z) (message : Message) (authority : bool) : bool :=
  (status =? 0) && eqs (Get o.(op_message) "method") "request" &&
  negb (has o.(op_message) "approval_version") && eqs (Get message "decision") "ALLOWED" &&
  negb authority && eqs (Get message "cacheable") "1" &&
  (empty (Get o.(op_message) "session") ||
   (eqs (Get message "session") (Get o.(op_message) "session") &&
    negb (empty (Get o.(op_message) "generation")) &&
    eqs (Get message "generation") (Get o.(op_message) "generation"))).

(** Keep the decision until the reported lifetime, counted from the
    admission, has passed. *)
Definition remember (id : Z) (status : Z) (message : Message) : C () :=
  o ← getO id;
  s ← getS;
  if negb (cacheable o status message s.(profile_authority_)) then mret ()
  else
    let ttl := Z.min 1000 (MsgNumber message "cache_ttl_ms" 0) in
    let expires := o.(op_admitted) + Z.max 0 ttl * 1000 in
    now ← read cl_time;
    if negb (ttl >? 0) || negb (expires >? now) then mret ()
    else
      lock;;
      s ← getS;
      if negb s.(synced_) then mret ()
      else
        modS (λ s, set_cache_ (evict s.(cache_)) s);;
        now ← read cl_time;
        if expires >? now
        then modS (λ s, set_cache_ (<[CacheKey o.(op_message) := mkCacheEntry message expires now]>
                                     s.(cache_)) s)
        else mret ().

Definition with_source (message : Message) : Message :=
  if has message "source" then message else <["source" := "DAEMON"]> message.

Definition Receive (message : Message) : C bool :=
  if negb (eqs (Get message "v") "1") then mret false
  else if eqs (Get message "method") "event" then Invalidate message;; mret true
  else
    s ← getS;
    match s.(wire_) !! Get message "id" with
    | None => mret true
    | Some id =>
        modS (λ s, set_exchanged (alter (λ x, (x.1, Some message)) (Get message "id") s.(exchanged)) s);;
        modS (set_wire_ (delete (Get message "id") s.(wire_)));;
        updO id (set_op_inflight false);;
        match ParseNumber (Get message "status") with
        | None => mret false
        | Some status =>
            if (status >? 0) || (status <? int32_min) then mret false
            else
              lock;;
              updO id (set_op_accepted true);;
              synchronize message;;
              o ← getO id;
              if (status =? 0) && eqs (Get message "decision") "PENDING" &&
                 eqs (Get o.(op_message) "method") "request"
              then
                let remote := Get message "request_id" in
                updO id (set_op_remote_id remote);;
                if empty remote then mret false
                else
                  now ← read cl_time;
                  updO id (set_op_next_poll (now + 100000));; mret true
              else
                remember id status message;;
                Complete id status (with_source message);; mret true
        end
    end.

(** The status of an operation that ends without a reply. *)
Definition local_status (o : Operation) (status : Z) : Z :=
  if o.(op_sent) && negb o.(op_accepted) then CONSENT_ERROR_OUTCOME_UNKNOWN else status.

(** The loop of [Fail]: one operation per turn. *)
Fixpoint fail_loop (fuel : nat) (error : Z) : C () :=
  match fuel with
  | O => mret ()
  | S fuel' =>
      lock;;
      s ← getS;
      match head (filter (λ id, undone s id = true) (operation_ids s)) with
      | None => mret ()
      | Some id =>
          let o := operation id s in
          Complete id (if error =? CONSENT_ERROR_DISCONNECTED then local_status o error else error) ∅;;
          fail_loop fuel' error
      end
  end.

Definition Fail (error : Z) : C () :=
  lock;;
  modS (λ s, set_disconnected_ true (set_synced_ false (set_cache_ ∅ s)));;
  s ← getS;
  fail_loop (S (base.size s.(operations_))) error.

(** The frames at the head of the input; [false] is a protocol error. *)
Fixpoint frames_loop (fuel : nat) : C bool :=
  match fuel with
  | O => mret true
  | S fuel' =>
      s ← getS;
      let n := frame_size s.(input_) in
      if size s.(input_) <? 4 then mret true
      else if (n =? 0) || (n >? kMaxFrameSize)
      then modS (set_read_error_ CONSENT_ERROR_PROTOCOL);; mret false
      else if size s.(input_) <? n + 4 then mret true
      else
        match Decode (take_str (Z.to_nat n) (drop_str 4 s.(input_))) with
        | None => modS (set_read_error_ CONSENT_ERROR_PROTOCOL);; mret false
        | Some message =>
            ok ← Receive message;
            if negb (ok : bool)
            then modS (set_read_error_ CONSENT_ERROR_PROTOCOL);; mret false
            else
              modS (λ s, set_input_ (drop_str (Z.to_nat (n + 4)) s.(input_)) s);;
              frames_loop fuel'
        end
  end.

(** The loop of [Read]: it yields after [kMaxFrameSize] bytes. *)
Fixpoint read_loop (fuel : nat) (received : Z) : C bool :=
  match fuel with
  | O => mret true
  | S fuel' =>
      r ← read cl_read;
      match r with
      | ReadEnd => mret false
      | ReadFailed => mret false
      | ReadBlocked => mret true
      | ReadBytes bytes =>
          modS (λ s, set_input_ (s.(input_) +:+ bytes) s);;
          s ← getS;
          ok ← frames_loop (S (String.length s.(input_)));
          if negb (ok : bool) then mret false
          else
            s ← getS;
            (if empty s.(input_) then modS (set_partial_since_ 0)
             else if s.(partial_since_) =? 0
             then now ← read cl_time; modS (set_partial_since_ now)
             else mret ());;
            if received + size bytes >=? kMaxFrameSize then mret true
            else read_loop fuel' (received + size bytes)
      end
  end.

Definition Read : C bool := read_loop (S (Z.to_nat kMaxFrameSize)) 0.

(** [n] bytes of the front frame were taken by the socket. *)
Definition wrote (n : Z) (current : Output) (rest : list Output) (s : State) : State :=
  let offset := current.(o_offset) + n in
  set_written ({[current.(o_operation)]} ∪ s.(written))
    (set_output_bytes_ (s.(output_bytes_) - n)
      (set_output_ (if offset =? size current.(o_frame) then rest
                    else mkOutput current.(o_frame) offset current.(o_operation) :: rest) s)).

Fixpoint write_loop (fuel : nat) : C bool :=
  match fuel with
  | O => mret true
  | S fuel' =>
      s ← getS;
      match s.(output_) with
      | [] => mret true
      | current :: rest =>
          lock;;
          o ← getO current.(o_operation);
          if (current.(o_offset) =? 0) && (o.(op_done) || o.(op_detached)) then
            modS (λ s, set_output_bytes_ (s.(output_bytes_) - size current.(o_frame))
                         (set_output_ rest s));;
            write_loop fuel'
          else
            updO current.(o_operation) (set_op_sent true);;
            r ← read (λ n, cl_write n (drop_str (Z.to_nat current.(o_offset)) current.(o_frame)));
            match r with
            | WriteBlocked => mret true
            | WriteFailed => mret false
            | Wrote n =>
                if n <=? 0 then mret false
                else modS (wrote n current rest);; write_loop fuel'
            end
      end
  end.

(** The bytes that wait to be written. *)
Definition output_size (l : list Output) : Z :=
  foldr (λ o acc, size o.(o_frame) - o.(o_offset) + acc) 0 l.

(** Each turn of [Write] writes a byte or drops a frame. *)
Definition Write : C bool :=
  s ← getS; write_loop (S (Z.to_nat (output_size s.(output_)))).

Definition earlier (next deadline : Z) : Z := if next <? 0 then deadline else Z.min next deadline.

(** The loop of [Pump] over the operations of its snapshot. *)
Fixpoint pump_operations (now : Z) (pending : list Z) (next : Z) : C Z :=
  match pending with
  | [] => mret next
  | id :: pending' =>
      o ← getO id;
      if o.(op_deadline) <=? now then
        Complete id (local_status o CONSENT_ERROR_TIMEOUT) ∅;;
        pump_operations now pending' next
      else
        (if negb o.(op_inflight) && (o.(op_next_poll) <=? now) then Queue id else mret ());;
        o ← getO id;
        pump_operations now pending'
          (earlier next (if o.(op_inflight) then o.(op_deadline)
                         else Z.min o.(op_deadline) o.(op_next_poll)))
  end.

(** Forget the requests whose operation has ended. *)
Definition reap_wire : C () :=
  s ← getS;
  each (items s.(wire_)) (λ e,
    lock;;
    o ← getO e.2;
    if o.(op_done) || o.(op_detached) then modS (λ s, set_wire_ (delete e.1 s.(wire_)) s) else mret ()).

Definition Pump : C () :=
  lock;;
  s ← getS;
  if s.(closed_) || s.(disconnected_) then IoStop
  else
    let pending := filter (λ id, undone s id = true) (operation_ids s) in
    now ← read cl_time;
    next ← pump_operations now pending (-1);
    reap_wire;;
    s ← getS;
    let deadline := s.(partial_since_) + 5000000 in
    let partial := negb (s.(partial_since_) =? 0) in
    if partial && (now >=? deadline) then Fail CONSENT_ERROR_PROTOCOL;; IoStop
    else
      ok ← Write;
      if negb (ok : bool) then Fail CONSENT_ERROR_DISCONNECTED;; IoStop
      else ArmWrite;; Deadline (if partial then earlier next deadline else next).

(** [Ready]; the result says whether the source stays attached. *)
Definition ready_events (writable broken : bool) : C bool :=
  ok ← (if writable then Write else mret true);
  if negb (ok : bool) || broken then Fail CONSENT_ERROR_DISCONNECTED;; IoStop;; mret false
  else Pump;; mret true.

Definition Ready (readable writable broken : bool) : C bool :=
  ok ← (if readable then Read else mret true);
  if negb (ok : bool) then s ← getS; Fail s.(read_error_);; IoStop;; mret false
  else ready_events writable broken.

(** [IoContext::Dispatch], of the wake source or of the deadline source. *)
Definition IoDispatch (deadline : bool) : C () :=
  (if deadline then modS (set_deadline_at (-1)) else modS (set_wake false));;
  s ← getS;
  if s.(stopping_) then TransportClose;; modS (set_running false) else Pump.

(** ** Steps *)

Inductive event :=
| EvDispatch (deadline : bool)
| EvReady (source readable writable broken : bool)
| EvOther (a : action).

Definition enabled (e : event) (s : State) : bool :=
  match e with
  | EvDispatch true => s.(running) && (0 <=? s.(deadline_at)) && (s.(deadline_at) <=? cl_time s.(tick))
  | EvDispatch false => s.(running) && s.(wake)
  | EvReady source _ _ _ => s.(running) && (if source then s.(write_armed) else s.(read_armed))
  | EvOther _ => true
  end.

Definition handle (e : event) : C () :=
  match e with
  | EvDispatch deadline => IoDispatch deadline
  | EvReady source readable writable broken =>
      stays ← Ready readable writable broken;
      if (stays : bool) then mret ()
      else if source then modS (set_write_armed false) else modS (set_read_armed false)
  | EvOther a => act a
  end.

Definition step (e : event) (s : State) : State := if enabled e s then (handle e s).1 else s.

Definition run (events : list event) (s : State) : State := foldl (λ s e, step e s) s events.

(** A handle whose I/O thread has been started. *)
Definition connected (n : nat) : State :=
  mkState ∅ false false false false false false 1 1 "" (-1) ∅ ∅ ∅ ∅ ∅ ∅ [] "" 0 0 true false false false
    (-1) true CONSENT_ERROR_DISCONNECTED ∅ [] [] ∅ ∅ n.
End client.
