(* ===== verification/ClientInv.v ===== *)
(** * Invariants of a client handle

    Under every interleaving of the application's threads with the I/O
    thread: an operation ends once, its result is handed over once, its
    status says when the outcome is unknown, the queues stay within their
    limits, and the cache holds only decisions of the current revision. *)
From S2P Require Import Prelude Strings Platform Message Wire ClientState Client.
From Stdlib Require Import Ascii.

(** ** The invariant *)

Section invariant.
Context `{Platform} `{Parcel} `{ClientEnv}.

(** The operations [Call] has returned from, and those whose callback was
    invoked. *)
Definition returned_ids (s : State) : list Z := (λ r, r.1.1) <$> s.(returned).
Definition delivered_ids (s : State) : list Z := (λ r, r.1.1.1) <$> s.(delivered).

(** The status says that nothing was sent, or that an answer was seen. *)
Definition certain (status : Z) : Prop :=
  status = CONSENT_ERROR_TIMEOUT ∨ status = CONSENT_ERROR_DISCONNECTED.

Record op_ok (s : State) (id : Z) (o : Operation) : Prop := mk_op_ok {
  oo_fresh : 0 < id < s.(next_local_);
  oo_deadline : 0 < o.(op_admitted) < o.(op_deadline) ∧ 0 ≤ o.(op_next_poll);
  oo_registered : o.(op_done) = false → o.(op_detached) = false → id ∈ s.(operations_);
  oo_pending : id ∈ s.(operations_) → o.(op_detached) = false ∧
    (if o.(op_asynchronous)
    then id ∈ s.(sources_) ∧ is_Some o.(op_callback) ∧ (o.(op_done) = true → id ∈ s.(attached))
    else o.(op_done) = false);
  oo_sync : o.(op_asynchronous) = false →
    o.(op_callback) = None ∧ (o.(op_detached) = true → o.(op_done) = true) ∧
    (id ∈ s.(waiting) ∨ id ∈ returned_ids s);
  oo_delivered : o.(op_asynchronous) = true → o.(op_detached) = false → id ∉ s.(operations_) →
    id ∈ delivered_ids s;
  oo_outcome : o.(op_done) = true → o.(op_detached) = false → certain o.(op_status) →
    o.(op_sent) = true → o.(op_accepted) = true;
}.

(** The operations and what was handed to the application. *)
Record inv_ops (s : State) : Prop := mk_inv_ops {
  io_ops : ∀ id o, s.(heap) !! id = Some o → op_ok s id o;
  io_known : ∀ id, id ∈ s.(operations_) → is_Some (s.(heap) !! id);
  io_sources : ∀ id, id ∈ s.(sources_) → id ∈ s.(operations_) ∧
    ∃ o, s.(heap) !! id = Some o ∧ o.(op_asynchronous) = true;
  io_attached : ∀ id, id ∈ s.(attached) → ∃ o, s.(heap) !! id = Some o ∧
    o.(op_asynchronous) = true ∧ (o.(op_done) = true ∨ o.(op_detached) = true) ∧
    (id ∈ s.(operations_) ∨ o.(op_detached) = true);
  io_doomed : ∀ id, id ∈ s.(doomed) → ∃ o, s.(heap) !! id = Some o ∧ o.(op_detached) = true;
  io_waiting : ∀ id, id ∈ s.(waiting) → (id ∉ returned_ids s) ∧
    ∃ o, s.(heap) !! id = Some o ∧ o.(op_asynchronous) = false;
  io_returned : NoDup (returned_ids s) ∧ ∀ id, id ∈ returned_ids s →
    ∃ o, s.(heap) !! id = Some o ∧ o.(op_asynchronous) = false ∧ o.(op_done) = true;
  io_delivered : NoDup (delivered_ids s) ∧ ∀ id, id ∈ delivered_ids s →
    (id ∉ s.(operations_)) ∧ ∃ o, s.(heap) !! id = Some o ∧ o.(op_asynchronous) = true ∧
      o.(op_done) = true ∧ o.(op_callback) = None ∧ o.(op_detached) = false;
  io_closed : s.(closed_) = true → s.(operations_) = ∅;
  io_bound : (base.size s.(operations_) ≤ 64)%nat;
  io_next : 0 < s.(next_local_);
}.

(** The output queue. *)
Record out_ok (s : State) (u : Output) : Prop := mk_out_ok {
  uo_offset : 0 ≤ u.(o_offset) < size u.(o_frame);
  uo_frame : ∃ m, Encode m = Some u.(o_frame);
  uo_known : is_Some (s.(heap) !! u.(o_operation));
  uo_written : 0 < u.(o_offset) → u.(o_operation) ∈ s.(written);
}.

(** A message that is sent for a request: the request itself, or a poll of the
    request that the daemon has stored under another id. *)
Definition sent_for (request : Message) (wid : string) (sent : Message) : Prop :=
  sent = <["id" := wid]> (<["v" := "1"]> request) ∨
  ∃ remote, remote ≠ "" ∧
    sent = <["id" := wid]> (<["v" := "1"]> (<["request_id" := remote]> (<["method" := "result"]> ∅))).

Record inv_out (s : State) : Prop := mk_inv_out {
  iu_queue : Forall (out_ok s) s.(output_);
  iu_tail : Forall (λ u, u.(o_offset) = 0) (tail s.(output_));
  iu_bytes : s.(output_bytes_) = output_size s.(output_) ∧ s.(output_bytes_) ≤ kMaxOutputBytes;
  iu_written : ∀ id, id ∈ s.(written) → ∃ o, s.(heap) !! id = Some o ∧ o.(op_sent) = true;
  iu_wire : ∀ w id, s.(wire_) !! w = Some id →
    is_Some (s.(heap) !! id) ∧ ∃ n, 0 < n < s.(next_wire_) ∧ w = to_string n;
  iu_exchange : ∀ w id, s.(wire_) !! w = Some id → ∃ sent, s.(exchanged) !! w = Some (id, sent, None);
  iu_sent : ∀ w id sent r, s.(exchanged) !! w = Some (id, sent, r) →
    (∃ o, s.(heap) !! id = Some o ∧ sent_for o.(op_message) w sent) ∧
    ∃ n, 0 < n < s.(next_wire_) ∧ w = to_string n;
  iu_next : 0 < s.(next_wire_);
  iu_partial : 0 ≤ s.(partial_since_);
  iu_error : s.(read_error_) = CONSENT_ERROR_DISCONNECTED ∨ s.(read_error_) = CONSENT_ERROR_PROTOCOL;
}.

(** A decision the cache may hold: the daemon allowed the request [o], said
    that the answer may be cached, and answered under the current revision. *)
Record entry_ok (s : State) (key : string) (e : CacheEntry) (id : Z) (o : Operation) : Prop := mk_entry_ok {
  en_key : key = CacheKey o.(op_message);
  en_reply : cacheable o 0 e.(ce_result) false = true;
  en_status : ParseNumber (Get e.(ce_result) "status") = Some 0;
  en_exchange : ∃ sent, s.(exchanged) !! Get e.(ce_result) "id" = Some (id, sent, Some e.(ce_result));
  en_accepted : o.(op_accepted) = true;
  en_epoch : Get e.(ce_result) "epoch" = s.(epoch_) ∧
    MsgNumber e.(ce_result) "revision" (-1) = s.(revision_);
  en_expires : o.(op_admitted) < e.(ce_expires) ≤
    o.(op_admitted) + Z.min 1000 (MsgNumber e.(ce_result) "cache_ttl_ms" 0) * 1000;
}.

Record inv_cache (s : State) : Prop := mk_inv_cache {
  ic_synced : s.(synced_) = false ∨ s.(profile_authority_) = true → s.(cache_) = ∅;
  ic_entries : ∀ k e, s.(cache_) !! k = Some e →
    ∃ id o, s.(heap) !! id = Some o ∧ entry_ok s k e id o;
  ic_bound : (base.size s.(cache_) ≤ 64)%nat;
  ic_current : s.(synced_) = true → s.(epoch_) ≠ "" ∧ 0 ≤ s.(revision_);
}.

Record inv (s : State) : Prop := mk_inv {
  in_ops : inv_ops s;
  in_out : inv_out s;
  in_cache : inv_cache s;
}.

(** The members each part of the invariant is about. *)
Definition ops_view (s : State) :=
  (s.(heap), s.(next_local_), s.(operations_), s.(sources_), s.(attached), s.(doomed), s.(waiting),
   s.(returned), s.(delivered), s.(closed_)).
Definition out_view (s : State) :=
  (s.(heap), s.(output_), s.(output_bytes_), s.(written), s.(wire_), s.(next_wire_),
   s.(partial_since_), s.(read_error_), s.(exchanged)).
Definition cache_view (s : State) :=
  (s.(heap), s.(cache_), s.(synced_), s.(profile_authority_), s.(epoch_), s.(revision_), s.(exchanged)).

Lemma inv_ops_ext s s' : ops_view s' = ops_view s → inv_ops s → inv_ops s'.
Proof.
  unfold ops_view. intros Hv. injection Hv as Hh Hn Ho Hs Ha Hd Hw Hr Hde Hc. intros [].
  constructor; unfold returned_ids, delivered_ids in *; rewrite ?Hh, ?Hn, ?Ho, ?Hs, ?Ha, ?Hd, ?Hw, ?Hr, ?Hde, ?Hc;
    try done.
  intros id o Hid. destruct (io_ops0 id o Hid).
  constructor; unfold returned_ids, delivered_ids; rewrite ?Hn, ?Ho, ?Hs, ?Ha, ?Hw, ?Hr, ?Hde; done.
Qed.

Lemma inv_out_ext s s' : out_view s' = out_view s → inv_out s → inv_out s'.
Proof.
  unfold out_view. intros Hv. injection Hv as Hh Ho Hb Hw Hwi Hn Hp He Hx. intros [].
  constructor; rewrite ?Hh, ?Ho, ?Hb, ?Hw, ?Hwi, ?Hn, ?Hp, ?He, ?Hx; try done.
  eapply Forall_impl; [done|]. intros u []. constructor; rewrite ?Hh, ?Hw; done.
Qed.

Lemma inv_cache_ext s s' : cache_view s' = cache_view s → inv_cache s → inv_cache s'.
Proof.
  unfold cache_view. intros Hv. injection Hv as Hh Hc Hs Hp He Hr Hx. intros [].
  constructor; rewrite ?Hh, ?Hc, ?Hs, ?Hp, ?He, ?Hr; try done.
  intros k e Hk. destruct (ic_entries0 k e Hk) as (id & o & Ho & []). exists id, o.
  split; [done|]. constructor; rewrite ?He, ?Hr, ?Hx; done.
Qed.

Lemma inv_ext s s' :
  ops_view s' = ops_view s → out_view s' = out_view s → cache_view s' = cache_view s → inv s → inv s'.
Proof.
  intros Hv1 Hv2 Hv3 []. constructor; [by eapply inv_ops_ext|by eapply inv_out_ext|by eapply inv_cache_ext].
Qed.

(** ** What the other threads leave alone *)

(** What only the I/O thread writes. *)
Definition io_view (s : State) :=
  (s.(disconnected_), s.(synced_), s.(profile_authority_), s.(next_wire_), s.(epoch_), s.(revision_),
   s.(wire_), s.(output_), s.(input_), s.(output_bytes_), s.(partial_since_), s.(read_armed),
   s.(write_armed), s.(deadline_at), s.(running), s.(read_error_), s.(written),
   s.(exchanged)).

Definition io_op (o : Operation) :=
  (o.(op_message), o.(op_asynchronous), o.(op_sent), o.(op_accepted), o.(op_inflight),
   o.(op_admitted), o.(op_deadline), o.(op_next_poll), o.(op_remote_id)).

(** An operation that neither ended nor was detached. *)
Definition live (s : State) (id : Z) : Prop :=
  ∃ o, s.(heap) !! id = Some o ∧ o.(op_done) = false ∧ o.(op_detached) = false.

(** What a critical section of another thread may do. *)
Record rely (s s' : State) : Prop := mk_rely {
  re_view : io_view s' = io_view s;
  re_heap : ∀ id o, s.(heap) !! id = Some o → ∃ o', s'.(heap) !! id = Some o' ∧ io_op o' = io_op o ∧
    (o.(op_done) = true → o'.(op_done) = true) ∧ (o.(op_detached) = true → o'.(op_detached) = true);
  re_new : ∀ id, live s' id → live s id ∨ s'.(wake) = true ∧ s.(disconnected_) = false;
  re_wake : s.(wake) = true → s'.(wake) = true;
  re_stopping : (s.(stopping_) = true → s'.(stopping_) = true) ∧
    (s'.(stopping_) = true → s.(stopping_) = true ∨ s'.(closed_) = true ∧ s'.(wake) = true);
  re_closed : s.(closed_) = true → s'.(closed_) = true;
  re_cache : ∀ k e', s'.(cache_) !! k = Some e' → ∃ e, s.(cache_) !! k = Some e ∧
    e'.(ce_result) = e.(ce_result) ∧ e'.(ce_expires) = e.(ce_expires);
  re_tick : (s.(tick) ≤ s'.(tick))%nat;
}.

#[export] Instance rely_preorder : PreOrder rely.
Proof.
  split.
  - intros s. constructor; try done; eauto 6.
  - intros s1 s2 s3 [] []. constructor.
    + congruence.
    + intros id o Ho. destruct (re_heap0 _ _ Ho) as (o2 & Ho2 & ? & ? & ?).
      destruct (re_heap1 _ _ Ho2) as (o3 & ? & ? & ? & ?). exists o3. split_and!; [done|congruence|auto..].
    + assert (disconnected_ s1 = disconnected_ s2) by (unfold io_view in *; congruence).
      intros id Hl. destruct (re_new1 _ Hl) as [Hl2|[? ?]]; [|right; split; congruence].
      destruct (re_new0 _ Hl2) as [?|[? ?]]; [by left|right; auto].
    + auto.
    + naive_solver.
    + auto.
    + intros k e Hk. destruct (re_cache1 _ _ Hk) as (e2 & Hk2 & ? & ?).
      destruct (re_cache0 _ _ Hk2) as (e1 & ? & ? & ?). exists e1. split_and!; [done|congruence..].
    + lia.
Qed.
End invariant.

(** ** Symbolic execution *)

Lemma c_getS {A} (k : State → C A) s : (getS ≫= k) s = k s s.
Proof. done. Qed.
Lemma c_getO {A} id (k : Operation → C A) s : (getO id ≫= k) s = k (operation id s) s.
Proof. done. Qed.
Lemma c_modS {A} f (k : () → C A) s : (modS f ≫= k) s = k () (f s).
Proof. done. Qed.
Lemma c_updO {A} id f (k : () → C A) s :
  (updO id f ≫= k) s = k () (set_heap (alter f id s.(heap)) s).
Proof. done. Qed.
Lemma c_read {A B} (f : nat → B) (k : B → C A) s :
  (read f ≫= k) s = k (f s.(tick)) (set_tick (S s.(tick)) s).
Proof. done. Qed.
Lemma c_ret {A B} (b : B) (k : B → C A) s : ((mret b : C B) ≫= k) s = k b s.
Proof. done. Qed.
Lemma c_assoc {A B D} (m : C A) (f : A → C B) (k : B → C D) s :
  ((m ≫= f) ≫= k) s = (m ≫= (λ a, f a ≫= k)) s.
Proof. unfold mbind, C_bind. by destruct (m s). Qed.
Lemma c_bind {A B} (m : C A) (k : A → C B) s : (m ≫= k) s = k (m s).2 (m s).1.
Proof. unfold mbind, C_bind. by destruct (m s). Qed.

Ltac c_run :=
  repeat first [rewrite c_assoc | rewrite c_getS | rewrite c_getO | rewrite c_modS
               | rewrite c_updO | rewrite c_read | rewrite c_ret].

Lemma operation_some id s o : s.(heap) !! id = Some o → operation id s = o.
Proof. unfold operation. by intros ->. Qed.

Section preservation.
Context `{Platform} `{!ErrorLaws} `{Parcel} `{ClientEnv} `{!ClientLaws}.

(** The other threads do not disturb the queue and the cache. *)
Lemma rely_known s s' id : rely s s' → is_Some (s.(heap) !! id) → is_Some (s'.(heap) !! id).
Proof. intros Hr [o Ho]. destruct (re_heap _ _ Hr _ _ Ho) as (o' & -> & _). done. Qed.

Lemma rely_out s s' : rely s s' → inv_out s → inv_out s'.
Proof.
  intros Hr []. pose proof (re_view _ _ Hr) as Hv. unfold io_view in Hv.
  injection Hv as ? ? ? Hw ? ? Hwire Hout ? Hbytes Hp ? ? ? ? He Hwr Hx.
  constructor; rewrite ?Hw, ?Hwire, ?Hout, ?Hbytes, ?Hp, ?He, ?Hwr, ?Hx; try done.
  - eapply Forall_impl; [done|]. intros u []. constructor; try done; [by eapply rely_known|by rewrite Hwr].
  - intros id Hid. destruct (iu_written0 _ Hid) as (o & Ho & Hs).
    destruct (re_heap _ _ Hr _ _ Ho) as (o' & ? & Hio & _). exists o'. unfold io_op in Hio.
    split; congruence.
  - intros w id Hid. destruct (iu_wire0 _ _ Hid). split; [by eapply rely_known|done].
  - intros w id sent r Hid. destruct (iu_sent0 _ _ _ _ Hid) as [(o & Ho & Hs) Hn]. split; [|done].
    destruct (re_heap _ _ Hr _ _ Ho) as (o' & ? & Hio & _). exists o'. unfold io_op in Hio.
    injection Hio as Hm _ _ _ _ _ _ _ _. by rewrite Hm.
Qed.

Lemma rely_cache s s' : rely s s' → inv_cache s → inv_cache s'.
Proof.
  intros Hr []. pose proof (re_view _ _ Hr) as Hv. unfold io_view in Hv.
  injection Hv as Hd Hsy Hpa ? He Hrv ? ? ? ? ? ? ? ? ? ? ? Hx.
  constructor; rewrite ?Hsy, ?Hpa, ?He, ?Hrv; try done.
  - intros Hs. apply map_empty. intros k. destruct (s'.(cache_) !! k) as [e'|] eqn:Hk; [|done].
    destruct (re_cache _ _ Hr _ _ Hk) as (e & Hk' & _). by rewrite (ic_synced0 Hs) in Hk'.
  - intros k e' Hk. destruct (re_cache _ _ Hr _ _ Hk) as (e & Hk' & Hres & Hexp).
    destruct (ic_entries0 _ _ Hk') as (id & o & Ho & []).
    destruct (re_heap _ _ Hr _ _ Ho) as (o' & Ho' & Hio & _). exists id, o'. split; [done|].
    unfold io_op in Hio. injection Hio as Hm ? ? Hac ? Ha ? ? ?.
    constructor; rewrite ?Hres, ?Hexp, ?He, ?Hrv, ?Hm, ?Ha, ?Hac, ?Hx; try done.
    revert en_reply0. unfold cacheable. by rewrite Hm.
  - transitivity (base.size s.(cache_)); [|done]. rewrite <- !size_dom. apply subseteq_size.
    intros k [e' Hk]%elem_of_dom. destruct (re_cache _ _ Hr _ _ Hk) as (e & Hk' & _).
    by apply elem_of_dom.
Qed.

(** Where only such members change that [inv_ops] does not mention. *)
Lemma rely_tick s n : (s.(tick) ≤ n)%nat → rely s (set_tick n s).
Proof. intros Hn. constructor; try done; eauto 6. Qed.

Lemma cache_lookup_rely message s : rely s (cache_lookup message s).1.
Proof.
  unfold cache_lookup. rewrite c_getS. destruct (_ && _); [|reflexivity].
  destruct (_ !! _) as [e|] eqn:He; [|reflexivity].
  rewrite c_read. destruct (_ >? _); [|apply rely_tick; lia].
  rewrite c_read, c_modS. simpl. constructor; simpl; try done; eauto 6.
  intros k e' [[<- <-]|[? ?]]%lookup_insert_Some; eauto.
Qed.

Lemma cache_lookup_ops message s : inv_ops s → inv_ops (cache_lookup message s).1.
Proof.
  intros Hi. apply (inv_ops_ext s); [|done]. unfold cache_lookup. rewrite c_getS.
  destruct (_ && _); [|done]. destruct (_ !! _); [|done]. rewrite c_read. by destruct (_ >? _).
Qed.
(** ** Admission *)

(** The state after an admission: [hit] if the cache had the decision. *)
Definition op_admit (o : Operation) (hit : bool) (s : State) : State :=
  let id := s.(next_local_) in
  let ops := {[id]} ∪ s.(operations_) in
  let s := set_next_local_ (id + 1) (set_heap (<[id := o]> s.(heap)) s) in
  if o.(op_asynchronous) then
    let s := set_operations_ ops (set_sources_ ({[id]} ∪ s.(sources_)) s) in
    if hit then set_attached ({[id]} ∪ s.(attached)) s else set_wake true s
  else
    let s := set_waiting ({[id]} ∪ s.(waiting)) s in
    if hit then set_operations_ (ops ∖ {[id]}) s else set_wake true (set_operations_ ops s).

(** What the new operation is. *)
Record admissible (o : Operation) (hit : bool) : Prop := mk_admissible {
  ad_done : o.(op_done) = hit;
  ad_detached : o.(op_detached) = false;
  ad_sent : o.(op_sent) = false;
  ad_status : o.(op_status) = 0;
  ad_callback : if o.(op_asynchronous) then is_Some o.(op_callback) else o.(op_callback) = None;
  ad_deadline : 0 < o.(op_admitted) < o.(op_deadline) ∧ o.(op_next_poll) = 0;
}.

Lemma fresh_id s id : inv_ops s → s.(next_local_) ≤ id →
  s.(heap) !! id = None ∧ id ∉ s.(operations_) ∧ id ∉ s.(sources_) ∧ id ∉ s.(attached) ∧
  id ∉ s.(waiting) ∧ id ∉ returned_ids s ∧ id ∉ delivered_ids s.
Proof.
  intros Hi Hid. assert (Hn : s.(heap) !! id = None).
  { destruct (s.(heap) !! id) as [o|] eqn:Ho; [|done].
    pose proof (oo_fresh _ _ _ (io_ops _ Hi _ _ Ho)). lia. }
  destruct Hi. split_and!; [done|..]; intros Hin.
  - destruct (io_known0 _ Hin). congruence.
  - destruct (io_sources0 _ Hin) as [_ (? & ? & _)]. congruence.
  - destruct (io_attached0 _ Hin) as (? & ? & _). congruence.
  - destruct (io_waiting0 _ Hin) as [_ (? & ? & _)]. congruence.
  - destruct io_returned0 as [_ Hr]. destruct (Hr _ Hin) as (? & ? & _). congruence.
  - destruct io_delivered0 as [_ Hr]. destruct (Hr _ Hin) as (_ & ? & ? & _). congruence.
Qed.

Lemma admit_others o hit s id :
  id ≠ s.(next_local_) →
  (op_admit o hit s).(heap) !! id = s.(heap) !! id ∧
  (id ∈ (op_admit o hit s).(operations_) ↔ id ∈ s.(operations_)) ∧
  (id ∈ (op_admit o hit s).(sources_) ↔ id ∈ s.(sources_)) ∧
  (id ∈ (op_admit o hit s).(attached) ↔ id ∈ s.(attached)) ∧
  (id ∈ (op_admit o hit s).(waiting) ↔ id ∈ s.(waiting)).
Proof.
  intros Hne. unfold op_admit. destruct (op_asynchronous o), hit; simpl;
    rewrite lookup_insert_ne by done; set_solver.
Qed.

(** The sets agree on an operation. *)
Record agree (s s' : State) (id : Z) : Prop := mk_agree {
  ag_next : s.(next_local_) ≤ s'.(next_local_);
  ag_ops : id ∈ s'.(operations_) ↔ id ∈ s.(operations_);
  ag_sources : id ∈ s.(sources_) → id ∈ s'.(sources_);
  ag_attached : id ∈ s.(operations_) → id ∈ s.(attached) → id ∈ s'.(attached);
  ag_called : id ∈ s.(waiting) ∨ id ∈ returned_ids s → id ∈ s'.(waiting) ∨ id ∈ returned_ids s';
  ag_delivered : id ∈ delivered_ids s → id ∈ delivered_ids s';
}.

Lemma op_ok_agree s s' id o : agree s s' id → op_ok s id o → op_ok s' id o.
Proof.
  intros [? Hops Hso Hat Hca Hde] []. constructor; try done; [lia|..].
  - intros ? ?. apply Hops; auto.
  - intros Hin%Hops. destruct (oo_pending0 Hin) as [? Hp]. split; [done|].
    destruct (op_asynchronous o); naive_solver.
  - intros Hs. destruct (oo_sync0 Hs) as (? & ? & ?). auto.
  - rewrite Hops. auto.
Qed.

Lemma op_ok_admit o hit s :
  inv_ops s → admissible o hit → op_ok (op_admit o hit s) s.(next_local_) o.
Proof.
  intros Hi [Hdone Hdet Hsent Hst Hcb [Hadm Hpoll]]. pose proof (io_next _ Hi).
  unfold op_admit. constructor; rewrite ?Hdone, ?Hdet, ?Hst, ?Hsent, ?Hpoll.
  - destruct (op_asynchronous o), hit; simpl; lia.
  - lia.
  - intros Hh _. destruct (op_asynchronous o), hit; simpl; try done; set_solver +.
  - intros Hin. split; [done|]. destruct (op_asynchronous o); [|destruct hit; [set_solver +Hin|done]].
    split_and!; [destruct hit; set_solver +|done|]. intros ->. set_solver +.
  - intros Has. rewrite Has in *. split_and!; [done..|]. left. destruct hit; set_solver +.
  - intros Has _. rewrite Has. intros Hn. destruct Hn. destruct hit; set_solver +.
  - done.
Qed.

Lemma inv_ops_admit o hit s :
  inv_ops s → admissible o hit → s.(closed_) = false →
  (base.size s.(operations_) < 64)%nat → inv_ops (op_admit o hit s).
Proof.
  intros Hi [Hdone Hdet Hsent Hst Hcb [Hadm Hpoll]] Hcl Hsize.
  destruct (fresh_id s s.(next_local_) Hi) as (Hf & Hnop & Hnso & Hnat & Hnw & Hnr & Hnd); [lia|].
  assert (Hother : ∀ id, id ≠ s.(next_local_) → agree s (op_admit o hit s) id).
  { intros id Hne. destruct (admit_others o hit s id Hne) as (_ & ? & ? & ? & ?).
    constructor; unfold op_admit; destruct (op_asynchronous o), hit; simpl in *; try tauto; try lia; unfold returned_ids, delivered_ids; simpl; set_solver. }
  assert (Hext : ∀ id x, s.(heap) !! id = Some x → (op_admit o hit s).(heap) !! id = Some x ∧ id ≠ s.(next_local_)).
  { intros id x Hx. assert (id ≠ s.(next_local_)) by congruence.
    by rewrite (proj1 (admit_others o hit s id ltac:(done))). }
  pose proof Hi as []. constructor.
  - intros id x Hx. destruct (decide (id = s.(next_local_))) as [->|Hne].
    + assert (x = o) as -> by (revert Hx; unfold op_admit; destruct (op_asynchronous o), hit; simpl;
        rewrite lookup_insert_eq; congruence). by apply op_ok_admit.
    + rewrite (proj1 (admit_others o hit s id Hne)) in Hx. eapply op_ok_agree; eauto.
  - intros id Hin. destruct (decide (id = s.(next_local_))) as [->|Hne].
    + unfold op_admit; destruct (op_asynchronous o), hit; simpl; rewrite lookup_insert_eq; eauto.
    + destruct (admit_others o hit s id Hne) as (-> & Ho & _). apply io_known0. tauto.
  - intros id Hin. destruct (decide (id = s.(next_local_))) as [->|Hne].
    + revert Hin. unfold op_admit; destruct (op_asynchronous o) eqn:Has, hit; simpl; try (by intros []%Hnso);
        intros _; (split; [set_solver +|]); exists o; by rewrite lookup_insert_eq.
    + destruct (admit_others o hit s id Hne) as (-> & Ho & Hs & _). rewrite Ho. apply io_sources0. tauto.
  - intros id Hin. destruct (decide (id = s.(next_local_))) as [->|Hne].
    + revert Hin. unfold op_admit. destruct (op_asynchronous o) eqn:Has, hit; simpl; try (intros; by destruct Hnat).
      intros _. exists o. rewrite lookup_insert_eq. split_and!; [done..|by left|set_solver +].
    + destruct (admit_others o hit s id Hne) as (-> & Ho & _ & Ha & _). setoid_rewrite Ho. apply io_attached0. tauto.
  - intros id Hin. assert (Hin' : id ∈ s.(doomed)) by (revert Hin; unfold op_admit; by destruct (op_asynchronous o), hit).
    destruct (io_doomed0 _ Hin') as (x & Hx & ?). exists x. by destruct (Hext _ _ Hx).
  - intros id Hin. replace (returned_ids (op_admit o hit s)) with (returned_ids s)
      by (unfold op_admit; by destruct (op_asynchronous o), hit).
    destruct (decide (id = s.(next_local_))) as [->|Hne].
    + split; [done|]. exists o. revert Hin. unfold op_admit.
      destruct (op_asynchronous o) eqn:Has, hit; simpl; rewrite ?lookup_insert_eq; try done; by intros []%Hnw.
    + destruct (admit_others o hit s id Hne) as (-> & _ & _ & _ & Hw). apply io_waiting0. tauto.
  - replace (returned_ids (op_admit o hit s)) with (returned_ids s)
      by (unfold op_admit; by destruct (op_asynchronous o), hit).
    destruct io_returned0 as [? Hr]. split; [done|]. intros id Hin.
    destruct (Hr _ Hin) as (x & Hx & ?). exists x. by destruct (Hext _ _ Hx).
  - replace (delivered_ids (op_admit o hit s)) with (delivered_ids s)
      by (unfold op_admit; by destruct (op_asynchronous o), hit).
    destruct io_delivered0 as [? Hr]. split; [done|]. intros id Hin.
    destruct (Hr _ Hin) as (? & x & Hx & ?). destruct (Hext _ _ Hx) as [? Hne].
    split; [|exists x; done]. by rewrite (proj1 (proj2 (admit_others o hit s id Hne))).
  - unfold op_admit. destruct (op_asynchronous o), hit; simpl; congruence.
  - transitivity (base.size ({[s.(next_local_)]} ∪ s.(operations_))).
    + apply subseteq_size. unfold op_admit. destruct (op_asynchronous o), hit; set_solver +.
    + rewrite size_union, size_singleton by set_solver +Hnop. lia.
  - unfold op_admit. destruct (op_asynchronous o), hit; simpl; lia.
Qed.

Lemma admit_rely o hit s :
  inv_ops s → admissible o hit → s.(disconnected_) = false → rely s (op_admit o hit s).
Proof.
  intros Hi Ha Hd. destruct (fresh_id s s.(next_local_) Hi) as (Hf & _); [lia|].
  assert (Hh : (op_admit o hit s).(heap) = <[s.(next_local_) := o]> s.(heap))
    by (unfold op_admit; by destruct (op_asynchronous o), hit).
  assert (Hw : (op_admit o hit s).(wake) = if hit then s.(wake) else true)
    by (unfold op_admit; by destruct (op_asynchronous o), hit).
  assert (Hsame : io_view (op_admit o hit s) = io_view s ∧ (op_admit o hit s).(stopping_) = s.(stopping_) ∧
    (op_admit o hit s).(closed_) = s.(closed_) ∧ (op_admit o hit s).(cache_) = s.(cache_) ∧
    (op_admit o hit s).(tick) = s.(tick)) by (unfold op_admit; by destruct (op_asynchronous o), hit).
  destruct Hsame as (? & Hst & Hcl & Hca & Hti). constructor; rewrite ?Hw, ?Hst, ?Hcl, ?Hti; try done.
  - intros id x Hx. exists x. rewrite Hh, lookup_insert_ne by congruence. done.
  - intros id (x & Hx & Hdone & Hdet). rewrite Hh in Hx.
    apply lookup_insert_Some in Hx as [[<- <-]|[? ?]]; [|left; by exists x].
    right. split; [|done]. rewrite (ad_done _ _ Ha) in Hdone. by subst hit.
  - intros ->. by destruct hit.
  - auto.
  - rewrite Hca. eauto.
Qed.

(** [admission_status] is 0. *)
Lemma admission_ok message s :
  admission_status message s = 0 →
  s.(closed_) = false ∧ s.(disconnected_) = false ∧ (base.size s.(operations_) < 64)%nat.
Proof.
  unfold admission_status, kMaxPending. destruct (closed_ s), (disconnected_ s); try done. simpl.
  repeat (destruct (_ && _); [done|]). destruct (_ >=? 64) eqn:Hz; [done|]. intros _.
  rewrite Z.geb_leb in Hz. apply Z.leb_gt in Hz. split_and!; [done..|lia].
Qed.

Lemma cache_lookup_view message s :
  ops_view (cache_lookup message s).1 = ops_view s ∧
  (cache_lookup message s).1.(disconnected_) = s.(disconnected_).
Proof.
  unfold cache_lookup. rewrite c_getS. destruct (_ && _); [|done]. destruct (_ !! _); [|done].
  rewrite c_read. by destruct (_ >? _).
Qed.

(** The critical section of [Admit], with the registration of a waiting
    caller. *)
Definition AdmitCall (message : Message) (timeout : Z) (asynchronous : bool) (callback : option Z) : C (Z * Z) :=
  r ← Admit message timeout asynchronous callback;
  (if negb asynchronous && (r.1 =? 0)
   then modS (λ s, set_waiting ({[r.2]} ∪ s.(waiting)) s) else mret ());;
  mret r.

Lemma AdmitCall_ok message timeout (asynchronous : bool) callback s :
  inv_ops s → 0 < timeout → (if asynchronous then is_Some callback else callback = None) →
  let s' := (AdmitCall message timeout asynchronous callback s).1 in inv_ops s' ∧ rely s s'.
Proof.
  intros Hi Ht Hcb s'. subst s'. unfold AdmitCall, Admit. c_run.
  set (s0 := set_tick _ s). assert (Hi0 : inv_ops s0) by by apply (inv_ops_ext s).
  assert (Hr0 : rely s s0) by (apply rely_tick; lia).
  destruct (admission_status message s0 =? 0) eqn:Hst; cycle 1.
  { simpl negb. cbv iota. c_run. simpl. rewrite Hst, andb_false_r. done. }
  apply Z.eqb_eq in Hst. destruct (admission_ok _ _ Hst) as (Hcl & Hd & Hn). simpl negb. cbv iota.
  rewrite c_assoc, c_bind. c_run.
  destruct (cache_lookup_view message s0) as [Hv Hd1].
  pose proof (cache_lookup_ops message s0 Hi0) as Hi1. pose proof (cache_lookup_rely message s0) as Hr1.
  destruct (cache_lookup message s0) as [s1 cached]. simpl in *.
  assert (Hcl1 : s1.(closed_) = false ∧ base.size s1.(operations_) = base.size s0.(operations_))
    by (unfold ops_view in Hv; injection Hv as _ _ Hops _ _ _ _ _ _ Hc; rewrite Hops, Hc; done).
  set (o := new_operation message asynchronous callback _ _).
  set (o' := match cached with Some r => _ | None => o end).
  set (hit := match cached with Some _ => true | None => false end).
  assert (Ha : admissible o' hit).
  { pose proof (admitted_before s.(tick)). subst o' hit o.
    destruct cached; constructor; simpl; try done; try lia; destruct asynchronous; done || lia. }
  assert (Hs : inv_ops (op_admit o' hit s1) ∧ rely s (op_admit o' hit s1)).
  { split; [apply inv_ops_admit; naive_solver lia|].
    rewrite Hr0, Hr1. apply admit_rely; congruence. }
  revert Hs. subst o' hit. unfold op_admit.
  destruct cached, asynchronous; simpl; done.
Qed.

(** ** The end of an operation *)

(** Replace one operation: the others keep their state. *)
Lemma inv_ops_replace s id o o' :
  inv_ops s → s.(heap) !! id = Some o → op_ok s id o' →
  o'.(op_asynchronous) = o.(op_asynchronous) →
  (o.(op_done) = true → o'.(op_done) = true) → o'.(op_detached) = o.(op_detached) →
  (o.(op_callback) = None → o'.(op_callback) = None) →
  inv_ops (set_heap (<[id := o']> s.(heap)) s).
Proof.
  intros Hi Ho Hok Has Hdone Hdet Hcb.
  assert (Hl : ∀ j x, s.(heap) !! j = Some x → ∃ x', <[id := o']> s.(heap) !! j = Some x' ∧
    x'.(op_asynchronous) = x.(op_asynchronous) ∧ (x.(op_done) = true → x'.(op_done) = true) ∧
    x'.(op_detached) = x.(op_detached) ∧
    (x.(op_callback) = None → x'.(op_callback) = None)).
  { intros j x Hx. destruct (decide (j = id)) as [->|Hne].
    - exists o'. rewrite lookup_insert_eq. replace x with o by congruence. done.
    - exists x. by rewrite lookup_insert_ne. }
  destruct Hi. constructor; simpl; try done.
  - intros j x [[<- <-]|[Hne Hx]]%lookup_insert_Some; (eapply op_ok_agree; [|by eauto]); by constructor.
  - intros j Hj. destruct (io_known0 _ Hj) as [x Hx]. by destruct (Hl _ _ Hx) as (x' & -> & _).
  - intros j Hj. destruct (io_sources0 _ Hj) as (? & x & Hx & ?).
    destruct (Hl _ _ Hx) as (x' & ? & ? & _). split; [done|]. exists x'. split; congruence.
  - intros j Hj. destruct (io_attached0 _ Hj) as (x & Hx & ? & Hd & Hin).
    destruct (Hl _ _ Hx) as (x' & ? & ? & ? & ? & ?). exists x'. split_and!; [done|congruence|..]; naive_solver congruence.
  - intros j Hj. destruct (io_doomed0 _ Hj) as (x & Hx & ?).
    destruct (Hl _ _ Hx) as (x' & ? & ? & ? & ? & ?). exists x'. split; congruence.
  - intros j Hj. destruct (io_waiting0 _ Hj) as (? & x & Hx & ?).
    destruct (Hl _ _ Hx) as (x' & ? & ? & _). split; [done|]. exists x'. split; congruence.
  - destruct io_returned0 as [? Hr]. split; [done|]. intros j Hj.
    destruct (Hr _ Hj) as (x & Hx & ? & ?). destruct (Hl _ _ Hx) as (x' & ? & ? & ? & ? & ?).
    exists x'. split_and!; [done|congruence|auto].
  - destruct io_delivered0 as [? Hr]. split; [done|]. intros j Hj.
    destruct (Hr _ Hj) as (? & x & Hx & ? & ? & ? & ?). destruct (Hl _ _ Hx) as (x' & ? & ? & ? & ? & ?).
    split; [done|]. exists x'. split_and!; [done|congruence|auto|auto|congruence].
Qed.

Lemma alter_insert {A} (f : A → A) (m : gmap Z A) i x :
  m !! i = Some x → alter f i m = <[i := f x]> m.
Proof.
  intros Hx. apply map_eq. intros j. destruct (decide (j = i)) as [->|Hne].
  - by rewrite lookup_alter_eq, Hx, lookup_insert_eq.
  - by rewrite lookup_alter_ne, lookup_insert_ne.
Qed.

(** The operation ends with a status. *)
Definition ended (status : Z) (result : Message) (o : Operation) : Operation :=
  set_op_done true (set_op_result result (set_op_status status o)).

(** An ended operation leaves [operations_] when it is synchronous and waits
    for its callback when it is asynchronous. *)
Definition finish (id : Z) (o : Operation) (s : State) : State :=
  let s := set_heap (<[id := o]> s.(heap)) s in
  if o.(op_asynchronous) then set_attached ({[id]} ∪ s.(attached)) s
  else set_operations_ (s.(operations_) ∖ {[id]}) s.

Lemma inv_ops_finish s id o o' :
  inv_ops s → s.(heap) !! id = Some o → o.(op_done) = false → o.(op_detached) = false →
  o'.(op_done) = true → o'.(op_detached) = false → io_op o' = io_op o →
  o'.(op_callback) = o.(op_callback) → (certain o'.(op_status) → o.(op_sent) = true → o.(op_accepted) = true) →
  inv_ops (finish id o' s).
Proof.
  intros Hi Ho Hdone Hdet Hdone' Hdet' Hio Hcb Hout. unfold io_op in Hio.
  injection Hio as Hm Has Hse Hac Hin Had Hde Hnp Hri.
  pose proof (io_ops _ Hi _ _ Ho) as Hop. pose proof (oo_registered _ _ _ Hop Hdone Hdet) as Hreg.
  destruct (oo_pending _ _ _ Hop Hreg) as [_ Hp].
  assert (Hnd : id ∉ delivered_ids s).
  { intros Hx. destruct (proj2 (io_delivered _ Hi) _ Hx). done. }
  assert (Hnr : id ∉ returned_ids s).
  { intros Hx. destruct (proj2 (io_returned _ Hi) _ Hx) as (x & Hx' & _ & ?). congruence. }
  assert (Hother : ∀ j, j ≠ id → agree s (finish id o' s) j).
  { intros j Hne. unfold finish. destruct (op_asynchronous o'); constructor; simpl;
      unfold returned_ids, delivered_ids; simpl; try done; set_solver +Hne. }
  assert (Hl : ∀ j x, s.(heap) !! j = Some x → x.(op_done) = true ∨ x.(op_detached) = true →
    j ≠ id ∧ (finish id o' s).(heap) !! j = Some x).
  { intros j x Hx Hd. assert (j ≠ id) by (intros ->; destruct Hd; congruence). split; [done|].
    unfold finish. destruct (op_asynchronous o'); simpl; by rewrite lookup_insert_ne. }
  assert (Hh : (finish id o' s).(heap) = <[id := o']> s.(heap))
    by (unfold finish; by destruct (op_asynchronous o')).
  assert (Hsub : (finish id o' s).(operations_) ⊆ s.(operations_))
    by (unfold finish; destruct (op_asynchronous o'); set_solver +).
  constructor.
  - rewrite Hh. intros j x [[<- <-]|[Hne Hx]]%lookup_insert_Some.
    + constructor; rewrite ?Has, ?Hdone', ?Hdet', ?Hcb, ?Had, ?Hde, ?Hnp, ?Hse, ?Hac; try done.
      * unfold finish. destruct (op_asynchronous o'); apply Hop.
      * apply Hop.
      * unfold finish. rewrite Has. destruct (op_asynchronous o); [|set_solver +].
        intros _. split; [done|]. split_and!; [tauto..|set_solver +].
      * intros Hs. destruct (oo_sync _ _ _ Hop Hs) as (? & _ & ?). unfold finish. by rewrite Has, Hs.
      * intros Hs. unfold finish. rewrite Has, Hs. intros _ Hn. by destruct Hn.
    + apply op_ok_agree with s; [by apply Hother|by apply Hi].
  - intros j Hj%Hsub. rewrite Hh. destruct (io_known _ Hi _ Hj). destruct (decide (j = id)) as [->|];
      [rewrite lookup_insert_eq|rewrite lookup_insert_ne]; eauto.
  - intros j Hj. assert (Hj' : j ∈ s.(sources_)) by (revert Hj; unfold finish; by destruct (op_asynchronous o')).
    destruct (io_sources _ Hi _ Hj') as (Hin' & x & Hx & Hxa). rewrite Hh.
    destruct (decide (j = id)) as [->|Hne]; [rewrite lookup_insert_eq|rewrite lookup_insert_ne by done].
    + assert (op_asynchronous o' = true) as E by congruence. unfold finish. rewrite E. eauto.
    + split; [by apply Hother|eauto].
  - intros j Hj. destruct (decide (j = id)) as [->|Hne].
    + exists o'. rewrite Hh, lookup_insert_eq. revert Hj. unfold finish. rewrite Has.
      destruct (op_asynchronous o) eqn:E; simpl; [auto 6|]. intros Hj.
      destruct (io_attached _ Hi _ Hj) as (x & Hx & ? & _). congruence.
    + assert (Hj' : j ∈ s.(attached)) by (revert Hj; unfold finish; destruct (op_asynchronous o'); set_solver +Hne).
      destruct (io_attached _ Hi _ Hj') as (x & Hx & ? & ? & Hin'). exists x.
      rewrite Hh, lookup_insert_ne by done. rewrite (ag_ops _ _ _ (Hother j Hne)). done.
  - intros j Hj. destruct (io_doomed _ Hi j) as (x & Hx & ?); [revert Hj; unfold finish; by destruct (op_asynchronous o')|].
    exists x. split; [|done]. apply Hl; auto.
  - intros j Hj. destruct (io_waiting _ Hi j) as (? & x & Hx & ?); [revert Hj; unfold finish; by destruct (op_asynchronous o')|].
    split; [unfold finish; by destruct (op_asynchronous o')|]. rewrite Hh.
    destruct (decide (j = id)) as [->|Hne]; [rewrite lookup_insert_eq|rewrite lookup_insert_ne by done]; eauto.
    exists o'. split; [done|congruence].
  - destruct (io_returned _ Hi) as [? Hr]. unfold returned_ids in *.
    replace (returned (finish id o' s)) with (returned s) by (unfold finish; by destruct (op_asynchronous o')).
    split; [done|]. intros j Hj. destruct (Hr _ Hj) as (x & Hx & ? & ?). exists x.
    split; [apply Hl; auto|done].
  - destruct (io_delivered _ Hi) as [? Hr]. unfold delivered_ids in *.
    replace (delivered (finish id o' s)) with (delivered s) by (unfold finish; by destruct (op_asynchronous o')).
    split; [done|]. intros j Hj. destruct (Hr _ Hj) as (Hno & x & Hx & ? & ? & ? & ?).
    split; [intros []%Hsub%Hno|]. exists x. split; [apply Hl; auto|done].
  - intros Hc. pose proof (io_closed _ Hi). assert (s.(closed_) = true) by (revert Hc; unfold finish; by destruct (op_asynchronous o')).
    set_solver.
  - etrans; [by apply subseteq_size|apply Hi].
  - pose proof (io_next _ Hi). unfold finish. by destruct (op_asynchronous o').
Qed.

Lemma uncertain : ¬ certain CONSENT_ERROR_OUTCOME_UNKNOWN.
Proof.
  pose proof module_errors. unfold certain, CONSENT_ERROR_OUTCOME_UNKNOWN, CONSENT_ERROR_TIMEOUT,
    CONSENT_ERROR_DISCONNECTED, ETIMEDOUT, ENOTCONN. lia.
Qed.

(** A rely step that leaves the operations but for one, which may end. *)
Lemma rely_replace s s' id o o' :
  s.(heap) !! id = Some o → s'.(heap) = <[id := o']> s.(heap) → io_op o' = io_op o →
  (o.(op_done) = true → o'.(op_done) = true) → (o.(op_detached) = true → o'.(op_detached) = true) →
  io_view s' = io_view s → (s.(wake) = true → s'.(wake) = true) → s'.(stopping_) = s.(stopping_) →
  s'.(closed_) = s.(closed_) → s'.(cache_) = s.(cache_) → (s.(tick) ≤ s'.(tick))%nat → rely s s'.
Proof.
  intros Ho Hh Hio Hdone Hdet Hv Hw Hst Hc Hca Ht. constructor; rewrite ?Hst, ?Hc, ?Hca; try done.
  - intros j x Hx. rewrite Hh. destruct (decide (j = id)) as [->|Hne].
    + exists o'. rewrite lookup_insert_eq. replace x with o by congruence. done.
    + exists x. rewrite lookup_insert_ne by done. auto.
  - intros j (x & Hx & Hd1 & Hd2). left. rewrite Hh in Hx.
    apply lookup_insert_Some in Hx as [[<- <-]|[? ?]]; [|by exists x].
    exists o. split_and!; [done|apply not_true_is_false; intros ?%Hdone; congruence|].
    apply not_true_is_false. intros ?%Hdet. congruence.
  - auto.
  - eauto.
Qed.

Lemma inv_ops_return s id o r :
  inv_ops s → s.(heap) !! id = Some o → o.(op_done) = true → id ∈ s.(waiting) → r.1.1 = id →
  inv_ops (set_waiting (s.(waiting) ∖ {[id]}) (set_returned (s.(returned) ++ [r]) s)).
Proof.
  intros Hi Ho Hdone Hw Hr.
  set (s' := set_waiting _ _).
  assert (Hret : returned_ids s' = returned_ids s ++ [id])
    by (unfold returned_ids, s'; simpl; by rewrite fmap_app, <- Hr).
  destruct (io_waiting _ Hi _ Hw) as (Hnr & x & Hx & Hxa). replace x with o in * by congruence. clear x Hx.
  pose proof Hi as []. constructor; simpl; try done.
  - intros j y Hy. apply op_ok_agree with s; [|auto].
    constructor; simpl; rewrite ?Hret, ?elem_of_app, ?list_elem_of_singleton; try done.
    rewrite elem_of_difference, elem_of_singleton. destruct (decide (j = id)); tauto.
  - rewrite Hret. intros j [Hj Hne]%elem_of_difference. destruct (io_waiting0 _ Hj).
    split; [set_solver|done].
  - rewrite Hret. destruct io_returned0 as [Hnd Hin]. split.
    + apply NoDup_app. split_and!; [done|set_solver|apply NoDup_singleton].
    + intros j. rewrite elem_of_app, list_elem_of_singleton. intros [Hj| ->]; [auto|eauto].
Qed.

Lemma Resume_ok id s : inv_ops s → inv_ops (Resume id s).1 ∧ rely s (Resume id s).1.
Proof.
  intros Hi. unfold Resume, call_return. c_run. destruct (bool_decide_reflect (id ∈ s.(waiting))) as [Hw|]; [|done].
  destruct (io_waiting _ Hi _ Hw) as (_ & o & Ho & Has). cbn [negb]. c_run.
  rewrite (operation_some _ _ _ Ho). destruct (op_done o) eqn:Hdone.
  { c_run. rewrite (operation_some _ _ _ Ho). split; [by eapply inv_ops_return|].
    constructor; simpl; try done; eauto 6. }
  c_run. assert (Hi1 : inv_ops (set_tick (S (tick s)) s)) by by apply (inv_ops_ext s).
  destruct (_ <? _); [split; [done|apply rely_tick; lia]|]. c_run.
  set (f := λ o, set_op_status _ (set_op_done true o)).
  destruct (op_detached o) eqn:Hdet.
  { pose proof (oo_sync _ _ _ (io_ops _ Hi _ _ Ho) Has). naive_solver congruence. }
  change (heap (set_tick (S (tick s)) s)) with (heap s).
  rewrite (alter_insert f (heap s) id o Ho).
  assert (Hf : inv_ops (finish id (f o) (set_tick (S (tick s)) s))).
  { eapply inv_ops_finish; eauto. subst f. simpl.
    destruct (op_sent o), (op_accepted o); simpl; try done. by intros []%uncertain. }
  unfold finish in Hf. replace (op_asynchronous (f o)) with false in Hf by (by subst f).
  split.
  - eapply inv_ops_ext; [|eapply (inv_ops_return _ id (f o)); [exact Hf|..]]; [reflexivity|..].
    + apply lookup_insert_eq.
    + done.
    + done.
    + done.
  - apply rely_replace with id o (f o); simpl; try done; lia.
Qed.

(** ** Delivery *)

(** The source of an operation has run. *)
Definition retire (id : Z) (o : Operation) (calls : list (Z * Z * Z * option Message)) (s : State) : State :=
  set_delivered (s.(delivered) ++ calls) (set_heap (<[id := o]> s.(heap))
    (set_attached (s.(attached) ∖ {[id]}) (set_sources_ (s.(sources_) ∖ {[id]})
      (set_operations_ (s.(operations_) ∖ {[id]}) s)))).

Lemma inv_ops_retire s id o o' calls :
  inv_ops s → s.(heap) !! id = Some o → id ∈ s.(attached) →
  io_op o' = io_op o → o'.(op_done) = o.(op_done) → o'.(op_detached) = o.(op_detached) →
  o'.(op_status) = o.(op_status) → o'.(op_callback) = None →
  (λ r, r.1.1.1) <$> calls = (if o.(op_detached) then [] else [id]) →
  inv_ops (retire id o' calls s).
Proof.
  intros Hi Ho Hat Hio Hdone Hdet Hst Hcb Hcalls. unfold io_op in Hio.
  injection Hio as Hm Has Hse Hac Hin Had Hde Hnp Hri.
  destruct (io_attached _ Hi _ Hat) as (x & Hx & Hasy & Hd & Hop). replace x with o in * by congruence.
  clear x Hx. pose proof (io_ops _ Hi _ _ Ho) as Hok.
  assert (Hnd : o.(op_detached) = false → id ∉ delivered_ids s ∧ o.(op_done) = true).
  { intros Hf. rewrite Hf in *. destruct Hop as [Hop|]; [|done]. destruct Hd as [Hd|]; [|done].
    split; [|done]. intros Hx. by destruct (proj2 (io_delivered _ Hi) _ Hx). }
  assert (Hdel : delivered_ids (retire id o' calls s) = delivered_ids s ++ (if o.(op_detached) then [] else [id]))
    by (unfold delivered_ids; simpl; by rewrite fmap_app, Hcalls).
  assert (Hother : ∀ j, j ≠ id → agree s (retire id o' calls s) j).
  { intros j Hne. constructor; rewrite ?Hdel; simpl; try done; set_solver +Hne. }
  assert (Hl : ∀ j x, s.(heap) !! j = Some x → ∃ x', <[id := o']> s.(heap) !! j = Some x' ∧
    x'.(op_asynchronous) = x.(op_asynchronous) ∧ x'.(op_done) = x.(op_done) ∧
    x'.(op_detached) = x.(op_detached) ∧ (x.(op_callback) = None → x'.(op_callback) = None)).
  { intros j x Hx. destruct (decide (j = id)) as [->|Hne].
    - exists o'. rewrite lookup_insert_eq. replace x with o by congruence. done.
    - exists x. by rewrite lookup_insert_ne. }
  pose proof Hi as []. constructor; simpl; rewrite ?Hdel; try done.
  - intros j x [[<- <-]|[Hne Hx]]%lookup_insert_Some.
    + destruct Hok. constructor; rewrite ?Has, ?Hdone, ?Hdet, ?Hst, ?Had, ?Hde, ?Hnp, ?Hse, ?Hac, ?Hdel; try done.
      * intros Hd1 Hd2. destruct Hd; congruence.
      * simpl. set_solver +.
      * congruence.
      * intros _ ->. set_solver +.
    + apply op_ok_agree with s; auto.
  - intros j [Hj _]%elem_of_difference. destruct (io_known0 _ Hj) as [x Hx].
    by destruct (Hl _ _ Hx) as (x' & -> & _).
  - intros j [Hj Hne]%elem_of_difference. destruct (io_sources0 _ Hj) as (? & x & Hx & ?).
    destruct (Hl _ _ Hx) as (x' & ? & ? & _). split; [set_solver|]. exists x'. split; congruence.
  - intros j [Hj Hne]%elem_of_difference. destruct (io_attached0 _ Hj) as (x & Hx & ? & ? & Hor).
    destruct (Hl _ _ Hx) as (x' & ? & Ha' & Hd1 & Hd2 & _). exists x'. rewrite Ha', Hd1, Hd2.
    split_and!; [done..|]. destruct Hor; [left; set_solver|auto].
  - intros j Hj. destruct (io_doomed0 _ Hj) as (x & Hx & ?).
    destruct (Hl _ _ Hx) as (x' & ? & ? & ? & ? & ?). exists x'. split; congruence.
  - intros j Hj. destruct (io_waiting0 _ Hj) as (? & x & Hx & ?).
    destruct (Hl _ _ Hx) as (x' & ? & ? & _). split; [done|]. exists x'. split; congruence.
  - destruct io_returned0 as [? Hr]. split; [done|]. intros j Hj.
    destruct (Hr _ Hj) as (x & Hx & ? & ?). destruct (Hl _ _ Hx) as (x' & ? & ? & ? & ? & ?).
    exists x'. split_and!; congruence.
  - destruct io_delivered0 as [? Hr]. destruct (op_detached o) eqn:Hdt.
    + rewrite app_nil_r. split; [done|]. intros j Hj. destruct (Hr _ Hj) as (? & x & Hx & ? & ? & ? & ?).
      destruct (Hl _ _ Hx) as (x' & ? & ? & ? & ? & ?). split; [set_solver|].
      exists x'. split_and!; try congruence; auto.
    + destruct Hnd as [Hnd Hdn]; [done|]. split.
      { apply NoDup_app. split_and!; [done|set_solver|apply NoDup_singleton]. }
      intros j. rewrite elem_of_app, list_elem_of_singleton. intros [Hj| ->].
      * destruct (Hr _ Hj) as (? & x & Hx & ? & ? & ? & ?).
        destruct (Hl _ _ Hx) as (x' & ? & ? & ? & ? & ?). split; [set_solver|].
        exists x'. split_and!; try congruence; auto.
      * split; [set_solver +|]. exists o'. rewrite lookup_insert_eq. split_and!; congruence.
  - intros Hc. rewrite (io_closed0 Hc). set_solver +.
  - etrans; [apply subseteq_size|exact io_bound0]. set_solver +.
Qed.

Lemma Dispatch_ok id s : inv_ops s → inv_ops (Dispatch id s).1 ∧ rely s (Dispatch id s).1.
Proof.
  intros Hi. unfold Dispatch. c_run. destruct (bool_decide_reflect (id ∈ s.(attached))) as [Hat|]; [|done].
  destruct (io_attached _ Hi _ Hat) as (o & Ho & Has & Hd & Hop). cbn [negb]. c_run.
  rewrite (operation_some _ _ _ Ho). pose proof (io_ops _ Hi _ _ Ho) as Hok.
  destruct (negb (closed_ s) && negb (op_detached o)) eqn:Hc; simpl in Hc.
  - apply andb_true_iff in Hc as [Hcl Hdt]. apply negb_true_iff in Hcl, Hdt.
    rewrite Hdt in Hop. destruct Hop as [Hop|]; [|done].
    destruct (oo_pending _ _ _ Hok Hop) as [_ Hp]. rewrite Has in Hp. destruct Hp as (_ & [f Hf] & _).
    rewrite Hf. c_run. simpl. rewrite (alter_insert _ _ _ o Ho), (alter_insert _ _ _ _ (lookup_insert_eq _ _ _)).
    rewrite insert_insert_eq. set (o' := set_op_result ∅ _). split.
    + eapply inv_ops_ext; [|eapply (inv_ops_retire s id o o' [_])]; try done. simpl. by rewrite Hdt.
    + apply rely_replace with id o o'; simpl; done || lia.
  - simpl. rewrite (alter_insert _ _ _ o Ho). set (o' := set_op_callback None _).
    assert (Hdt : o.(op_detached) = true).
    { destruct (op_detached o) eqn:E; [done|]. rewrite andb_true_r in Hc. apply negb_false_iff in Hc.
      destruct Hop as [Hop|]; [|done]. rewrite (io_closed _ Hi Hc) in Hop. set_solver +Hop. }
    split.
    + eapply inv_ops_ext; [|eapply (inv_ops_retire s id o o' [])]; try done.
      * unfold ops_view, retire. simpl. by rewrite app_nil_r.
      * simpl. by rewrite Hdt.
    + apply rely_replace with id o o'; simpl; done || lia.
Qed.

(** ** Detaching and closing *)

(** Some pending operations are closed: they leave [operations_] and their
    sources wait to be destroyed. *)
Definition abandon (gone : gset Z) (heap' : gmap Z Operation) (s : State) : State :=
  set_heap heap' (set_doomed (s.(doomed) ∪ (gone ∩ s.(sources_)))
    (set_sources_ (s.(sources_) ∖ gone) (set_operations_ (s.(operations_) ∖ gone) s))).

Lemma inv_ops_abandon s gone heap' f :
  inv_ops s → gone ⊆ s.(operations_) →
  (∀ j, heap' !! j = if decide (j ∈ gone) then f <$> s.(heap) !! j else s.(heap) !! j) →
  (∀ o, io_op (f o) = io_op o ∧ (f o).(op_detached) = true ∧ (f o).(op_callback) = None ∧
        (o.(op_done) = true → (f o).(op_done) = true)) →
  (∀ j o, j ∈ gone → s.(heap) !! j = Some o → o.(op_asynchronous) = false → (f o).(op_done) = true) →
  inv_ops (abandon gone heap' s).
Proof.
  intros Hi Hgone Hheap Hf Hsync.
  assert (Hl : ∀ j x, s.(heap) !! j = Some x → ∃ x', heap' !! j = Some x' ∧ io_op x' = io_op x ∧
    (x.(op_done) = true → x'.(op_done) = true) ∧ (j ∈ gone → x'.(op_detached) = true) ∧
    (x.(op_detached) = true → x'.(op_detached) = true) ∧ (j ∉ gone → x' = x) ∧
    (x.(op_callback) = None → x'.(op_callback) = None)).
  { intros j x Hx. rewrite Hheap, Hx. destruct (Hf x) as (? & ? & ? & ?).
    destruct (decide (j ∈ gone)); simpl; [exists (f x)|exists x]; split_and!; try done; auto. }
  assert (Hasy : ∀ x x', io_op x' = io_op x → x'.(op_asynchronous) = x.(op_asynchronous))
    by (unfold io_op; congruence).
  pose proof Hi as []. constructor; simpl; try done.
  - intros j x. rewrite Hheap. destruct (decide (j ∈ gone)) as [Hj|Hj].
    + intros (o & Ho & ->)%fmap_Some. destruct (Hf o) as (Hio & Hdt & Hcb & Hdn).
      pose proof (Hsync _ _ Hj Ho) as Hsd. destruct (io_ops0 _ _ Ho).
      pose proof Hio as Hio'. unfold io_op in Hio. injection Hio as _ Has _ _ _ Had Hde Hnp _.
      constructor; rewrite ?Hdt, ?Hcb, ?Has, ?Had, ?Hde, ?Hnp; try done.
      * simpl. set_solver +Hj.
      * intros Hs. split_and!; [done|auto|]. by destruct (oo_sync0 Hs) as (_ & _ & ?).
    + intros Hx. apply op_ok_agree with s; [|auto]. constructor; simpl; try done; set_solver +Hj.
  - intros j [Hj _]%elem_of_difference. destruct (io_known0 _ Hj) as [x Hx].
    by destruct (Hl _ _ Hx) as (x' & -> & _).
  - intros j [Hj Hne]%elem_of_difference. destruct (io_sources0 _ Hj) as (? & x & Hx & ?).
    destruct (Hl _ _ Hx) as (x' & ? & ?%Hasy & _). split; [set_solver|]. exists x'. split; congruence.
  - intros j Hj. destruct (io_attached0 _ Hj) as (x & Hx & ? & Hd & Hor).
    destruct (Hl _ _ Hx) as (x' & ? & ?%Hasy & ? & ? & ? & _ & _). exists x'.
    split_and!; [done|congruence|tauto|]. destruct (decide (j ∈ gone)); [auto|].
    destruct Hor; [left; set_solver|auto].
  - intros j Hj. destruct (decide (j ∈ s.(doomed))) as [Hd|Hd].
    + destruct (io_doomed0 _ Hd) as (x & Hx & ?). destruct (Hl _ _ Hx) as (x' & ? & _ & _ & _ & ? & _). eauto.
    + assert (Hg : j ∈ gone) by set_solver. destruct (io_known0 j) as [x Hx]; [set_solver|].
      destruct (Hl _ _ Hx) as (x' & ? & _ & _ & ? & _). eauto.
  - intros j Hj. destruct (io_waiting0 _ Hj) as (? & x & Hx & ?).
    destruct (Hl _ _ Hx) as (x' & ? & ?%Hasy & _). split; [done|]. exists x'. split; congruence.
  - destruct io_returned0 as [? Hr]. split; [done|]. intros j Hj.
    destruct (Hr _ Hj) as (x & Hx & ? & ?). destruct (Hl _ _ Hx) as (x' & ? & ?%Hasy & ? & _).
    exists x'. split_and!; [done|congruence|auto].
  - destruct io_delivered0 as [? Hr]. split; [done|]. intros j Hj.
    destruct (Hr _ Hj) as (? & x & Hx & ?). destruct (Hl _ _ Hx) as (x' & ? & _ & _ & _ & _ & Hsame & _).
    assert (Hng : j ∉ gone) by set_solver. rewrite (Hsame Hng) in *. split; [set_solver|]. by exists x.
  - intros Hc. rewrite (io_closed0 Hc). set_solver +.
  - etrans; [apply subseteq_size|exact io_bound0]. set_solver +.
Qed.

Lemma detach_section_ok current owner id s :
  inv_ops s → inv_ops (detach_section current owner id s).1 ∧ rely s (detach_section current owner id s).1.
Proof.
  intros Hi. unfold detach_section. destruct (_ || _); [done|]. c_run.
  destruct (bool_decide_reflect (id ∈ s.(operations_))) as [Hop|]; [|done].
  destruct (io_known _ Hi _ Hop) as [o Ho]. rewrite (operation_some _ _ _ Ho). cbn [negb orb].
  destruct (op_asynchronous o) eqn:Has; [|done]. cbn [negb]. c_run.
  destruct (oo_pending _ _ _ (io_ops _ Hi _ _ Ho) Hop) as [_ Hp]. rewrite Has in Hp.
  destruct Hp as (Hso & _). rewrite bool_decide_true by done. simpl.
  rewrite (alter_insert _ _ _ o Ho). set (o' := set_op_callback None _). split.
  - eapply inv_ops_ext; [|apply (inv_ops_abandon s {[id]} (<[id := o']> s.(heap))
      (λ o, set_op_callback None (set_op_detached true o)) Hi)].
    + assert (Heq : {[id]} ∪ s.(doomed) = s.(doomed) ∪ ({[id]} ∩ s.(sources_))) by set_solver +Hso.
      unfold ops_view, abandon. simpl. by rewrite Heq.
    + set_solver +Hop.
    + intros j. destruct (decide (j ∈ {[id]})) as [->%elem_of_singleton|Hne].
      * by rewrite lookup_insert_eq, Ho.
      * rewrite lookup_insert_ne; [done|set_solver +Hne].
    + done.
    + intros j x ->%elem_of_singleton Hx. congruence.
  - apply rely_replace with id o o'; simpl; done || lia.
Qed.

Lemma Release_ok id s : inv_ops s → inv_ops (Release id s).1 ∧ rely s (Release id s).1.
Proof.
  intros Hi. unfold Release. c_run. destruct (bool_decide_reflect (id ∈ s.(doomed))) as [Hd|]; [|done].
  destruct (io_doomed _ Hi _ Hd) as (o & Ho & Hdt). simpl. split.
  - assert (Hno : id ∉ s.(operations_)).
    { intros Hin. destruct (oo_pending _ _ _ (io_ops _ Hi _ _ Ho) Hin). congruence. }
    pose proof Hi as []. constructor; simpl; try done.
    + intros j x Hx. apply op_ok_agree with s; [|auto].
      constructor; simpl; try done. set_solver +Hno.
    + intros j [Hj _]%elem_of_difference. auto.
    + intros j [Hj _]%elem_of_difference. auto.
  - constructor; simpl; try done; eauto 6.
Qed.

Lemma each_updO f l s :
  NoDup l →
  (each l (λ id, updO id f) s).1 = set_heap (each l (λ id, updO id f) s).1.(heap) s ∧
  ∀ j, (each l (λ id, updO id f) s).1.(heap) !! j =
    if decide (j ∈ l) then f <$> s.(heap) !! j else s.(heap) !! j.
Proof.
  revert s. induction l as [|i l IH]; intros s Hnd.
  - split; [by destruct s|]. intros j. rewrite decide_False; [done|apply not_elem_of_nil].
  - apply NoDup_cons in Hnd as [Hi Hnd]. simpl. rewrite c_updO.
    destruct (IH (set_heap (alter f i s.(heap)) s) Hnd) as [Heq Hj]. split; [by rewrite Heq|].
    intros j. rewrite Hj. cbn [heap set_heap].
    destruct (decide (j ∈ i :: l)) as [Hin|Hin]; rewrite elem_of_cons in Hin.
    + destruct (decide (j = i)) as [->|Hne]; [by rewrite decide_False, lookup_alter_eq|].
      rewrite decide_True, lookup_alter_ne by naive_solver. done.
    + rewrite decide_False, lookup_alter_ne by naive_solver. done.
Qed.

Lemma elem_of_operation_ids s id : id ∈ operation_ids s ↔ id ∈ s.(operations_).
Proof. unfold operation_ids. by rewrite merge_sort_Permutation, elem_of_elements. Qed.

Lemma NoDup_operation_ids s : NoDup (operation_ids s).
Proof. unfold operation_ids. rewrite merge_sort_Permutation. apply NoDup_elements. Qed.

(** The I/O thread is woken, or stopped after the handle was closed. *)
Lemma stop_ok s s' :
  s' = set_wake true s ∨ s' = set_wake true (set_stopping_ true s) ∧ s.(closed_) = true →
  inv_ops s → inv_ops s' ∧ rely s s'.
Proof.
  intros Hs' Hi. destruct Hs' as [-> | [-> Hc]]; (split; [by apply (inv_ops_ext s)|]).
  - constructor; simpl; try done; eauto 6.
  - constructor; simpl; try done; eauto 6.
Qed.

Lemma close_section_ok current s :
  inv_ops s → inv_ops (close_section current s).1 ∧ rely s (close_section current s).1.
Proof.
  intros Hi. unfold close_section. destruct (negb current); [done|]. c_run.
  destruct (closed_ s) eqn:Hcl; [done|]. c_run. set (s1 := set_closed_ true _). rewrite c_bind. c_run.
  change (operation_ids s) with (operation_ids s1).
  destruct (each_updO close_operation (operation_ids s1) s1 (NoDup_operation_ids s1)) as [Heq Hj].
  rewrite Heq. simpl. set (h := heap _) in *. clearbody h.
  assert (Hheap : ∀ j, h !! j = if decide (j ∈ s.(operations_)) then close_operation <$> s.(heap) !! j
                                else s.(heap) !! j).
  { intros j. rewrite Hj. simpl. destruct (decide (j ∈ operation_ids s1)) as [Hin|Hin];
      rewrite elem_of_operation_ids in Hin; [by rewrite decide_True|by rewrite decide_False]. }
  assert (Hops : inv_ops (abandon s.(operations_) h s)).
  { apply inv_ops_abandon with close_operation; try done. }
  split.
  - assert (Hse : s.(sources_) ∖ s.(operations_) = ∅).
    { apply elem_of_equiv_empty_L. intros j [Hj1 Hj2]%elem_of_difference.
      by destruct (io_sources _ Hi _ Hj1). }
    assert (Hdo : s.(operations_) ∩ s.(sources_) = s.(sources_)).
    { apply set_eq. intros j. split; [set_solver +|]. intros Hin.
      destruct (io_sources _ Hi _ Hin). set_solver. }
    pose proof Hops as []. unfold abandon in *. simpl in *. rewrite Hdo, Hse, difference_diag_L in *.
    constructor; simpl; try done.
    intros j x Hx. destruct (io_ops0 _ _ Hx). by constructor.
  - constructor; simpl; try done; eauto 6.
    + intros j x Hx. rewrite Hheap, Hx. destruct (decide _); simpl; eauto 6.
    + intros j (x & Hx & Hd1 & Hd2). left. simpl in Hx. rewrite Hheap in Hx.
      destruct (decide _); [|by exists x]. apply fmap_Some in Hx as (y & _ & ->). done.
Qed.

Lemma Hello_ok id s : inv_ops s → inv_ops (Hello id s).1 ∧ rely s (Hello id s).1.
Proof.
  intros Hi. unfold Hello. c_run. destruct (hello_returned id s); [|done]. c_run. split.
  - by apply (inv_ops_ext s).
  - constructor; simpl; try done; eauto 6.
Qed.

(** ** Every action of another thread *)

Lemma Submit_ok current owner message callback slot s :
  inv_ops s → let s' := (Submit current owner message callback slot s).1 in inv_ops s' ∧ rely s s'.
Proof.
  intros Hi. unfold Submit. destruct (negb current), (negb owner); try done. simpl.
  destruct callback as [f|]; [|done]. simpl. destruct slot; [|done]. simpl.
  pose proof (AdmitCall_ok message kMaximumWaitMs true (Some f) s Hi) as Hr. simpl in Hr.
  destruct Hr as [? ?]; [done|done|]. unfold AdmitCall in *. simpl in *. rewrite c_bind in *. done.
Qed.

Lemma Call_ok current slot dispatching message timeout s :
  inv_ops s → let s' := (Call current slot dispatching message timeout s).1 in inv_ops s' ∧ rely s s'.
Proof.
  intros Hi. unfold Call. destruct (negb current || negb slot); [done|]. simpl.
  destruct (Z.leb_spec timeout 0); [done|]. simpl. destruct (_ >? _); [done|].
  destruct (_ && _); [done|].
  by pose proof (AdmitCall_ok message timeout false None s Hi ltac:(done) eq_refl).
Qed.

Lemma act_ok a s : inv s → inv (act a s).1 ∧ rely s (act a s).1.
Proof.
  intros [Hi Ho Hc]. assert (Hops : inv_ops (act a s).1 ∧ rely s (act a s).1).
  { destruct a; simpl; rewrite ?c_bind.
    - by apply Submit_ok.
    - by apply Call_ok.
    - by apply Resume_ok.
    - by apply Hello_ok.
    - by apply Dispatch_ok.
    - by apply detach_section_ok.
    - apply stop_ok; [by left|done].
    - by apply Release_ok.
    - by apply close_section_ok.
    - cbn [getS fst snd]. destruct (closed_ s) eqn:Hcl; [|done]. apply stop_ok; [by right|done]. }
  destruct Hops as [? Hr]. split; [|done]. constructor; [done|by eapply rely_out|by eapply rely_cache].
Qed.

Lemma lock_ok s : inv s → inv (lock s).1 ∧ rely s (lock s).1.
Proof.
  intros Hi. unfold lock. rewrite c_read. set (s0 := set_tick _ s).
  assert (inv s0) as Hi0 by by apply (inv_ext s). assert (rely s s0) as Hr0 by (apply rely_tick; lia).
  generalize (cl_others (tick s)) as l. clearbody s0. intros l. clear Hi.
  induction l as [|a l IH] in s0, Hi0, Hr0 |- *; [done|].
  simpl. rewrite c_bind. destruct (act_ok a s0 Hi0) as [Hi1 Hr1]. apply IH; [done|]. by etrans.
Qed.
End preservation.
