(* ===== verification/ClientIo.v ===== *)
(** * The I/O thread of a client handle

    Each function of the I/O thread keeps the invariant of [ClientInv],
    whatever the other threads do whenever it takes the mutex, and moves the
    handle forward ([evol]). *)
From S2P Require Import Prelude Strings Platform Message Wire ClientState Client ClientInv.
From Stdlib Require Import Ascii.

Section evolution.
Context `{Platform} `{!ErrorLaws} `{Parcel} `{ClientEnv} `{!ClientLaws}.

(** What never changes of an operation. *)
Definition const_op (o : Operation) :=
  (o.(op_message), o.(op_asynchronous), o.(op_admitted), o.(op_deadline)).

(** An operation moves forward. *)
Record op_le (o o' : Operation) : Prop := mk_op_le {
  ol_const : const_op o' = const_op o;
  ol_done : o.(op_done) = true → o'.(op_done) = true;
  ol_detached : o.(op_detached) = true → o'.(op_detached) = true;
  ol_sent : o.(op_sent) = true → o'.(op_sent) = true;
  ol_accepted : o.(op_accepted) = true → o'.(op_accepted) = true;
}.

#[export] Instance op_le_preorder : PreOrder op_le.
Proof. split; [by constructor|]. intros o1 o2 o3 [] []. constructor; [congruence|auto..]. Qed.

Record evol (s s' : State) : Prop := mk_evol {
  ev_heap : ∀ id o, s.(heap) !! id = Some o → ∃ o', s'.(heap) !! id = Some o' ∧ op_le o o';
  ev_new : ∀ id, live s' id → live s id ∨ s'.(wake) = true ∧ s.(disconnected_) = false;
  ev_wake : s.(wake) = true → s'.(wake) = true;
  ev_disconnected : s.(disconnected_) = true → s'.(disconnected_) = true;
  ev_calm : s'.(disconnected_) = true → s.(disconnected_) = true ∨ ∀ id, ¬ live s' id;
  ev_closed : s.(closed_) = true → s'.(closed_) = true;
  ev_running : s'.(running) = s.(running);
  ev_stopping : s.(stopping_) = true → s'.(stopping_) = true;
  ev_stopped : s'.(stopping_) = true →
    s.(stopping_) = true ∨ (s'.(closed_) = true ∨ s'.(disconnected_) = true) ∧ s'.(wake) = true;
  ev_tick : (s.(tick) ≤ s'.(tick))%nat;
}.

#[export] Instance evol_preorder : PreOrder evol.
Proof.
  split.
  - intros s. constructor; try done; eauto. intros id o Ho. by exists o.
  - intros s1 s2 s3 [] []. constructor; auto; try congruence; try lia.
    + intros id o Ho. destruct (ev_heap0 _ _ Ho) as (o2 & Ho2 & ?).
      destruct (ev_heap1 _ _ Ho2) as (o3 & ? & ?). exists o3. split; [done|by etrans].
    + intros id Hl. destruct (ev_new1 _ Hl) as [Hl2|[? Hd]].
      * destruct (ev_new0 _ Hl2) as [?|[? ?]]; auto.
      * right. split; [done|]. apply not_true_is_false. intros ?%ev_disconnected0. congruence.
    + intros Hd3. destruct (ev_calm1 Hd3) as [Hd2|?]; [|auto]. destruct (ev_calm0 Hd2) as [?|Hno]; [auto|].
      right. intros id Hl. destruct (ev_new1 _ Hl) as [Hl2|[_ ?]]; [by eapply Hno|congruence].
    + intros Hst. destruct (ev_stopped1 Hst) as [Hst2|?]; [|auto].
      destruct (ev_stopped0 Hst2) as [?|[[?|?] ?]]; auto 6.
Qed.

Lemma rely_evol s s' : rely s s' → evol s s'.
Proof.
  intros []. unfold io_view in re_view. injection re_view as Hd _ _ _ _ _ _ _ _ _ _ _ _ _ Hr _ _ _.
  constructor; rewrite ?Hd; auto; try apply re_stopping.
  - intros id o Ho. destruct (re_heap _ _ Ho) as (o' & ? & Hio & ? & ?). exists o'. split; [done|].
    unfold io_op in Hio. injection Hio as ? ? ? ? ? ? ? ? ?. constructor; unfold const_op; congruence || auto.
  - intros Hst. destruct (proj2 re_stopping Hst); tauto.
Qed.

(** The invariant is kept and the handle moved forward. *)
Definition good (s s' : State) : Prop := inv s' ∧ evol s s'.

Lemma good_trans s1 s2 s3 : good s1 s2 → (inv s2 → good s2 s3) → good s1 s3.
Proof. intros [Hi He] Hg. destruct (Hg Hi). split; [done|by etrans]. Qed.

Lemma good_refl s : inv s → good s s.
Proof. done. Qed.

Lemma good_rely s s' : inv s' ∧ rely s s' → good s s'.
Proof. intros [? ?]. split; [done|by apply rely_evol]. Qed.

Lemma good_lock s : inv s → good s (lock s).1.
Proof. intros Hi. by apply good_rely, lock_ok. Qed.

Lemma evol_known s s' id : evol s s' → is_Some (s.(heap) !! id) → is_Some (s'.(heap) !! id).
Proof. intros He [o Ho]. destruct (ev_heap _ _ He _ _ Ho) as (o' & -> & _). done. Qed.

(** ** Members the parts of the invariant depend on *)

Lemma inv_out_heap s h :
  (∀ id o, s.(heap) !! id = Some o → ∃ o', h !! id = Some o' ∧ op_le o o') →
  inv_out s → inv_out (set_heap h s).
Proof.
  intros Hh []. assert (Hk : ∀ id, is_Some (s.(heap) !! id) → is_Some (h !! id)).
  { intros id [o Ho]. by destruct (Hh _ _ Ho) as (o' & -> & _). }
  constructor; simpl; try done.
  - eapply Forall_impl; [done|]. intros u []. constructor; simpl; auto.
  - intros id Hid. destruct (iu_written _ Hid) as (o & Ho & ?).
    destruct (Hh _ _ Ho) as (o' & ? & []). exists o'. auto.
  - intros w id Hid. destruct (iu_wire _ _ Hid). auto.
  - intros w id sent r Hid. destruct (iu_sent _ _ _ _ Hid) as [(o & Ho & Hs) Hn]. split; [|done].
    destruct (Hh _ _ Ho) as (o' & ? & [Hc _ _ _ _]). exists o'. unfold const_op in Hc.
    injection Hc as Hm _ _ _. by rewrite Hm.
Qed.

Lemma inv_cache_heap s h :
  (∀ id o, s.(heap) !! id = Some o → ∃ o', h !! id = Some o' ∧ op_le o o') →
  inv_cache s → inv_cache (set_heap h s).
Proof.
  intros Hh []. constructor; simpl; try done. intros k e Hk.
  destruct (ic_entries _ _ Hk) as (id & o & Ho & []). destruct (Hh _ _ Ho) as (o' & Ho' & []).
  exists id, o'. split; [done|]. unfold const_op in ol_const0. injection ol_const0 as Hm _ Ha _.
  constructor; simpl; unfold cacheable in *; rewrite ?Hm, ?Ha; auto.
Qed.

Lemma heap_insert_le (h : gmap Z Operation) id o o' :
  h !! id = Some o → op_le o o' →
  ∀ j x, h !! j = Some x → ∃ x', <[id := o']> h !! j = Some x' ∧ op_le x x'.
Proof.
  intros Ho Hle j x Hx. destruct (decide (j = id)) as [->|Hne].
  - exists o'. rewrite lookup_insert_eq. by replace x with o by congruence.
  - exists x. by rewrite lookup_insert_ne.
Qed.

(** A flag of one operation that is only the I/O thread's. *)
Lemma good_flag s id o o' :
  inv s → s.(heap) !! id = Some o → op_le o o' → o'.(op_done) = o.(op_done) →
  o'.(op_detached) = o.(op_detached) → o'.(op_callback) = o.(op_callback) →
  o'.(op_status) = o.(op_status) → 0 ≤ o'.(op_next_poll) →
  (o.(op_done) = true → o.(op_detached) = false → certain o.(op_status) →
   o'.(op_sent) = true → o'.(op_accepted) = true) →
  good s (set_heap (<[id := o']> s.(heap)) s).
Proof.
  intros [Hi Ho Hc] Hid Hle Hd Hdt Hcb Hst Hnp Hout. pose proof (heap_insert_le _ _ _ _ Hid Hle) as Hl.
  pose proof Hle as []. unfold const_op in ol_const0. injection ol_const0 as Hm Has Had Hde. split.
  - constructor; [|by apply inv_out_heap|by apply inv_cache_heap].
    apply (inv_ops_replace s id o o'); [done|done| |done|by rewrite Hd|by rewrite Hdt|by rewrite Hcb].
    destruct (io_ops _ Hi _ _ Hid). constructor; rewrite ?Hd, ?Hdt, ?Hcb, ?Hst, ?Has, ?Had, ?Hde; try done.
    split; [apply oo_deadline|done].
  - constructor; simpl; try done; eauto.
    intros j (x & Hx & ? & ?). left. simpl in Hx. apply lookup_insert_Some in Hx as [[<- <-]|[? ?]].
    + exists o. split_and!; congruence.
    + by exists x.
Qed.

(** ** Ending an operation *)

Lemma finish_rely s id o o' :
  s.(heap) !! id = Some o → o'.(op_done) = true → o'.(op_detached) = o.(op_detached) → io_op o' = io_op o →
  rely s (finish id o' s).
Proof.
  intros Ho Hd Hdt Hio. apply rely_replace with id o o'; try done.
  all: unfold finish; destruct (op_asynchronous o'); simpl; auto.
  all: congruence.
Qed.

Lemma not_live id s o : s.(heap) !! id = Some o → o.(op_done) || o.(op_detached) = true → ¬ live s id.
Proof. intros Ho Hd (x & Hx & Hd1 & Hd2). replace x with o in * by congruence. by rewrite Hd1, Hd2 in Hd. Qed.

(** The status may be reported for an operation. *)
Definition reportable (status : Z) (o : Operation) : Prop :=
  certain status → o.(op_sent) = true → o.(op_accepted) = true.

Lemma Complete_ok id status result s o :
  inv s → s.(heap) !! id = Some o → reportable status o →
  let s' := (Complete id status result s).1 in (inv s' ∧ rely s s') ∧ ¬ live s' id.
Proof.
  intros Hi Ho Hst. unfold Complete. rewrite c_bind.
  destruct (lock_ok s Hi) as [Hi1 Hr1]. set (s1 := (lock s).1) in *. clearbody s1.
  destruct (re_heap _ _ Hr1 _ _ Ho) as (o1 & Ho1 & Hio & _). c_run.
  rewrite (operation_some _ _ _ Ho1). destruct (op_done o1 || op_detached o1) eqn:Hd.
  { split; [done|]. by eapply not_live. }
  pose proof Hd as [Hd1 Hd2]%orb_false_iff. c_run.
  set (f := λ o, set_op_done true _). rewrite (alter_insert f _ _ _ Ho1).
  pose proof (in_ops _ Hi1) as Hops. pose proof (io_ops _ Hops _ _ Ho1) as Hok.
  pose proof (oo_registered _ _ _ Hok Hd1 Hd2) as Hreg. destruct (oo_pending _ _ _ Hok Hreg) as [_ Hp].
  assert (Hncl : s1.(closed_) = false).
  { destruct (closed_ s1) eqn:Hc; [|done]. rewrite (io_closed _ Hops Hc) in Hreg. set_solver +Hreg. }
  assert (Hfin : inv_ops (finish id (f o1) s1)).
  { eapply inv_ops_finish; try done. unfold io_op in Hio. injection Hio as _ _ Hse Hac _ _ _ _ _.
    unfold reportable in Hst. by rewrite Hse, Hac. }
  assert (Hrel : rely s1 (finish id (f o1) s1)) by by eapply finish_rely.
  assert (Hnl : ¬ live (finish id (f o1) s1) id).
  { apply (not_live _ _ (f o1)); [|done]. unfold finish.
    destruct (op_asynchronous (f o1)); simpl; apply lookup_insert_eq. }
  assert (Hg : (inv (finish id (f o1) s1) ∧ rely s (finish id (f o1) s1)) ∧ ¬ live (finish id (f o1) s1) id).
  { destruct Hi1. split_and!; [|by etrans|done]. constructor; [done|by eapply rely_out|by eapply rely_cache]. }
  revert Hg. unfold finish. change (op_asynchronous (f o1)) with (op_asynchronous o1).
  change (closed_ (set_heap (<[id:=f o1]> (heap s1)) s1)) with (closed_ s1). rewrite Hncl, orb_false_r.
  destruct (op_asynchronous o1); [|done]. destruct Hp as (Hso & _). cbn [negb].
  by rewrite bool_decide_true by done.
Qed.

Lemma good_Complete id status result s o :
  inv s → s.(heap) !! id = Some o → reportable status o → good s (Complete id status result s).1.
Proof. intros Hi Ho Hst. apply good_rely. by eapply Complete_ok. Qed.

Lemma reportable_local o status : reportable (local_status o status) o.
Proof.
  unfold reportable, local_status. destruct (op_sent o), (op_accepted o); simpl; try done.
  by intros []%uncertain.
Qed.

Lemma reportable_uncertain status o : ¬ certain status → reportable status o.
Proof. by intros Hn ?. Qed.

Lemma not_certain_errors :
  ¬ certain CONSENT_ERROR_INVALID_PARAMETER ∧ ¬ certain CONSENT_ERROR_BUSY ∧ ¬ certain CONSENT_ERROR_PROTOCOL.
Proof.
  pose proof module_errors. unfold certain, CONSENT_ERROR_INVALID_PARAMETER, CONSENT_ERROR_BUSY,
    CONSENT_ERROR_PROTOCOL, CONSENT_ERROR_TIMEOUT, CONSENT_ERROR_DISCONNECTED, EINVAL, EBUSY,
    ETIMEDOUT, ENOTCONN. lia.
Qed.

(** ** Queueing *)

Lemma wire_message_sent o wid : sent_for o.(op_message) wid (wire_message o wid).
Proof.
  unfold sent_for, wire_message. destruct (empty (op_remote_id o)) eqn:He; [by left|right].
  exists o.(op_remote_id). split; [by apply empty_false|done].
Qed.

Lemma output_size_app l1 l2 : output_size (l1 ++ l2) = output_size l1 + output_size l2.
Proof. unfold output_size. induction l1 as [|u l IH]; simpl; lia. Qed.

Lemma good_next_wire s : inv s → good s (set_next_wire_ (s.(next_wire_) + 1) s).
Proof.
  intros [Hi [] Hc]. split.
  - constructor; [by apply (inv_ops_ext s)| |by apply (inv_cache_ext s)].
    constructor; simpl; try done; try lia.
    + eapply Forall_impl; [done|]. intros u []. by constructor.
    + intros w id Hw. destruct (iu_wire _ _ Hw) as (? & n & ? & ?). split; [done|]. exists n. split; [lia|done].
    + intros w id sent r Hw. destruct (iu_sent _ _ _ _ Hw) as (? & n & ? & ?). split; [done|]. exists n. split; [lia|done].
  - constructor; try done; eauto. intros j x Hx. by exists x.
Qed.

(** What the daemon has answered stays on record. *)
Lemma inv_cache_exchanged s x :
  (∀ w y, s.(exchanged) !! w = Some y → is_Some y.2 → x !! w = Some y) →
  inv_cache s → inv_cache (set_exchanged x s).
Proof.
  intros Hx []. constructor; simpl; try done. intros k e Hk.
  destruct (ic_entries _ _ Hk) as (id & o & Ho & []). exists id, o. split; [done|].
  constructor; try done. simpl. destruct en_exchange as [sent Hs]. exists sent. by apply Hx; [|eexists].
Qed.

Lemma good_push s id frame o :
  inv s → s.(heap) !! id = Some o →
  let n := s.(next_wire_) in
  let m := wire_message o (to_string n) in
  Encode m = Some frame → s.(output_bytes_) + size frame ≤ kMaxOutputBytes →
  good s (set_wire_ (<[to_string n := id]> s.(wire_))
    (set_output_bytes_ (s.(output_bytes_) + size frame)
      (set_output_ (s.(output_) ++ [mkOutput frame 0 id])
        (set_exchanged (<[to_string n := (id, m, None)]> s.(exchanged)) (set_next_wire_ (n + 1) s))))).
Proof.
  intros [Hi [] Hc] Ho n m He Hb. assert (Hid : is_Some (s.(heap) !! id)) by eauto.
  assert (Hfresh : s.(exchanged) !! to_string n = None).
  { destruct (s.(exchanged) !! to_string n) as [[[i x] r]|] eqn:Hx; [|done].
    destruct (iu_sent _ _ _ _ Hx) as (_ & k & Hk & Heq%to_string_inj); subst n; lia. } pose proof (Encode_nonempty _ _ He) as Hne.
  assert (0 < size frame) by (destruct frame; [done|rewrite size_cons; pose proof (size_nonneg frame); lia]).
  split.
  - constructor; [by apply (inv_ops_ext s)| |].
    2: { apply (inv_cache_ext (set_exchanged (<[to_string n := (id, m, None)]> s.(exchanged)) s)); [done|].
         apply inv_cache_exchanged; [|done].
         intros w y Hy _. rewrite lookup_insert_ne; [done|]. intros <-. congruence. }
    constructor; simpl; try done; try lia.
    + apply Forall_app_2.
      * eapply Forall_impl; [done|]. intros u []. by constructor.
      * apply Forall_singleton. constructor; simpl; eauto; lia.
    + destruct (output_ s) as [|u l]; [constructor|]. simpl in *. apply Forall_app_2; [done|].
      by apply Forall_singleton.
    + rewrite output_size_app. simpl. lia.
    + intros w j [[<- <-]|[? Hw]]%lookup_insert_Some; [split; [done|exists n; split; [lia|done]]|].
      destruct (iu_wire _ _ Hw) as (? & k & ? & ?). split; [done|]. exists k. split; [lia|done].
    + intros w j [[<- <-]|[Hnw Hw]]%lookup_insert_Some.
      * exists m. by rewrite lookup_insert_eq.
      * destruct (iu_exchange _ _ Hw) as [x Hx]. exists x. by rewrite lookup_insert_ne.
    + intros w j x r [[<- [= <- <- <-]]|[Hnw Hw]]%lookup_insert_Some.
      * split; [|exists n; split; [lia|done]]. exists o. split; [done|]. apply wire_message_sent.
      * destruct (iu_sent _ _ _ _ Hw) as (? & k & ? & ?). split; [done|]. exists k. split; [lia|done].
  - constructor; try done; eauto. intros j x Hx. by exists x.
Qed.

Lemma op_flag_le o o' :
  const_op o' = const_op o → o'.(op_done) = o.(op_done) → o'.(op_detached) = o.(op_detached) →
  (o.(op_sent) = true → o'.(op_sent) = true) → (o.(op_accepted) = true → o'.(op_accepted) = true) → op_le o o'.
Proof. intros ? Hd Hdt ? ?. constructor; rewrite ?Hd, ?Hdt; auto. Qed.

Lemma good_inflight s id b : inv s → good s (set_heap (alter (set_op_inflight b) id s.(heap)) s).
Proof.
  intros Hi. destruct (s.(heap) !! id) as [o|] eqn:Ho.
  - rewrite (alter_insert _ _ _ _ Ho). pose proof (io_ops _ (in_ops _ Hi) _ _ Ho) as [].
    eapply good_flag; try done. apply oo_deadline.
  - rewrite alter_id by (intros x Hx; congruence). replace (set_heap (heap s) s) with s by by destruct s.
    by apply good_refl.
Qed.

Lemma good_Queue id s o : inv s → s.(heap) !! id = Some o → good s (Queue id s).1.
Proof.
  intros Hi Ho. unfold Queue. rewrite c_bind. apply (good_trans _ (lock s).1); [by apply good_lock|].
  intros Hi1. destruct (lock_ok s Hi) as [_ Hr]. destruct (re_heap _ _ Hr _ _ Ho) as (o1 & Ho1 & _).
  set (s1 := (lock s).1) in *. clearbody s1. c_run. rewrite (operation_some _ _ _ Ho1).
  destruct (_ || _); [by apply good_refl|]. c_run.
  destruct not_certain_errors as (Hn1 & Hn2 & _).
  assert (Hrefuse : ∀ status, ¬ certain status →
    good s1 (Complete id status ∅ (set_next_wire_ (s1.(next_wire_) + 1) s1)).1).
  { intros status Hst. eapply good_trans; [by apply good_next_wire|]. intros Hi2.
    eapply good_Complete; [done|exact Ho1|by apply reportable_uncertain]. }
  destruct (Encode _) as [frame|] eqn:He; [|by apply Hrefuse].
  destruct (Z.gtb_spec (s1.(output_bytes_) + size frame) kMaxOutputBytes); [by apply Hrefuse|].
  c_run. eapply good_trans; [exact (good_push s1 id frame o1 Hi1 Ho1 He ltac:(lia))|apply good_inflight].
Qed.

(** ** Replies *)

(** Only the transport and the synchronization change. *)
Lemma good_same s s' :
  inv s → ops_view s' = ops_view s → inv_out s' → inv_cache s' → (s.(wake) = true → s'.(wake) = true) →
  s'.(disconnected_) = s.(disconnected_) → s'.(running) = s.(running) →
  s'.(stopping_) = s.(stopping_) → (s.(tick) ≤ s'.(tick))%nat → good s s'.
Proof.
  intros Hi Hv Ho Hc Hw Hd Hr Hst Ht. pose proof (inv_ops_ext _ _ Hv (in_ops _ Hi)).
  unfold ops_view in Hv. injection Hv as Hh _ _ _ _ _ _ _ _ Hcl. split; [done|].
  constructor; rewrite ?Hh, ?Hcl, ?Hst, ?Hd; try done; eauto.
  - intros j x Hx. by exists x.
  - intros j (x & Hx & Hl). left. exists x. by rewrite <- Hh.
Qed.

Lemma good_emptied s s' :
  inv s → ops_view s' = ops_view s → out_view s' = out_view s → s'.(cache_) = ∅ →
  (s'.(synced_) = true → s'.(epoch_) ≠ "" ∧ 0 ≤ s'.(revision_)) → (s.(wake) = true → s'.(wake) = true) →
  s'.(disconnected_) = s.(disconnected_) → s'.(running) = s.(running) →
  s'.(stopping_) = s.(stopping_) → (s.(tick) ≤ s'.(tick))%nat → good s s'.
Proof.
  intros Hi Hv1 Hv2 Hc Hs. apply good_same; [done|done|by apply (inv_out_ext s), Hi|].
  constructor; rewrite ?Hc; try done. rewrite map_size_empty. lia.
Qed.

Lemma good_Invalidate message s : inv s → good s (Invalidate message s).1.
Proof.
  intros Hi. unfold Invalidate. rewrite c_bind. apply (good_trans _ (lock s).1); [by apply good_lock|].
  intros Hi1. destruct (eqs _ _); c_run; apply good_emptied; try done; simpl; try lia;
    rewrite andb_true_iff, negb_true_iff, empty_false; intros [? ?]; (split; [done|lia]).
Qed.

(** The reply is the last one the handle was synchronized with. *)
Definition in_sync (message : Message) (s : State) : Prop :=
  s.(synced_) = true → Get message "epoch" = s.(epoch_) ∧ MsgNumber message "revision" (-1) = s.(revision_).

Lemma inv_cache_empty_epoch s : inv_cache s → s.(epoch_) = "" → s.(cache_) = ∅.
Proof.
  intros [] He. apply ic_synced. left. destruct (synced_ s); [|done]. by destruct (ic_current eq_refl).
Qed.

(** The rest of [synchronize] after the check of the profile authority. *)
Definition sync_rest (message : Message) (s : State) : State :=
  let epoch := Get message "epoch" in
  let revision := MsgNumber message "revision" (-1) in
  if empty epoch || (revision <? 0) || (negb (empty s.(epoch_)) && negb (eqs epoch s.(epoch_))) ||
     (eqs epoch s.(epoch_) && (revision <? s.(revision_)))
  then set_synced_ false (set_cache_ ∅ s)
  else
    set_synced_ true (set_revision_ revision (set_epoch_ epoch
      (if revision =? s.(revision_) then s else set_cache_ ∅ s))).

Lemma synchronize_rest message s :
  (synchronize message s).1 = sync_rest message
    (if eqs (Get message "profile_authority") "1" then set_profile_authority_ true (set_cache_ ∅ s) else s).
Proof.
  unfold synchronize, sync_rest. destruct (eqs (Get message "profile_authority") "1"); c_run; simpl;
    (destruct (_ || _); [done|]); by destruct (_ =? _).
Qed.

Lemma good_sync_rest message s : inv s → good s (sync_rest message s).
Proof.
  intros Hi. unfold sync_rest. destruct (_ || _) eqn:Hb; [by apply good_emptied|].
  apply orb_false_iff in Hb as [[[Hep Hrv]%orb_false_iff Hold]%orb_false_iff _].
  apply empty_false in Hep. apply Z.ltb_ge in Hrv.
  destruct (Z.eqb_spec (MsgNumber message "revision" (-1)) s.(revision_)) as [Heq|]; [|by apply good_emptied].
  destruct (decide (Get message "epoch" = s.(epoch_))) as [Hsame|Hne].
  - apply good_same; try done; [by apply (inv_out_ext s), Hi|]. destruct (in_cache _ Hi).
    constructor; simpl; rewrite ?Hsame, ?Heq; try done.
    + intros [?|?]; [done|auto].
    + intros k e Hk. destruct (ic_entries _ _ Hk) as (id & o & Ho & []). exists id, o. split; [done|].
      constructor; simpl; rewrite ?Hsame, ?Heq; done.
    + split; congruence.
  - apply good_emptied; try done. simpl. apply inv_cache_empty_epoch; [apply Hi|].
    apply andb_false_iff in Hold as [Hold|Hold]; apply negb_false_iff in Hold.
    + by apply empty_true.
    + by apply eqs_true in Hold.
Qed.

Lemma good_synchronize message s :
  inv s → good s (synchronize message s).1 ∧ in_sync message (synchronize message s).1 ∧
    ops_view (synchronize message s).1 = ops_view s ∧ exchanged (synchronize message s).1 = exchanged s.
Proof.
  intros Hi. rewrite synchronize_rest. set (s0 := if eqs _ _ then _ else s).
  assert (Hg : good s s0 ∧ ops_view s0 = ops_view s ∧ exchanged s0 = exchanged s).
  { subst s0. destruct (eqs _ _); [|by split; [apply good_refl|]]. split; [|done].
    apply good_emptied; try done. apply Hi. }
  clearbody s0. destruct Hg as (Hg & Hv & Hxs). split_and!.
  - eapply good_trans; [done|]. intros. by apply good_sync_rest.
  - unfold in_sync, sync_rest. destruct (_ || _); [done|]. by destruct (_ =? _).
  - rewrite <- Hv. unfold sync_rest. destruct (_ || _); [done|]. by destruct (_ =? _).
  - rewrite <- Hxs. unfold sync_rest. destruct (_ || _); [done|]. by destruct (_ =? _).
Qed.

(** ** The cache *)

Lemma oldest_in l e : oldest l = Some e → e ∈ l.
Proof.
  revert e. induction l as [|x l IH]; simpl; [done|]. intros e.
  destruct (oldest l) as [y|]; [|intros [= <-]; apply list_elem_of_here].
  destruct (_ <? _); intros [= <-]; [apply list_elem_of_further; auto|apply list_elem_of_here].
Qed.

Lemma oldest_None l : oldest l = None → l = [].
Proof. destruct l as [|x l]; simpl; [done|]. destruct (oldest l); [|done]. by destruct (_ <? _). Qed.

Lemma evict_spec cache :
  (base.size cache ≤ 64)%nat → (base.size (evict cache) ≤ 63)%nat ∧ evict cache ⊆ cache.
Proof.
  intros Hs. unfold evict, msize. destruct (Z.of_nat (base.size cache) >=? 64) eqn:Hz.
  - apply Z.geb_le in Hz. destruct (oldest (items cache)) as [[k e]|] eqn:Ho.
    + apply oldest_in, elem_of_items in Ho. rewrite map_size_delete, Ho. split; [lia|].
      apply delete_subseteq.
    + apply oldest_None in Ho. assert (cache = ∅) as ->.
      { apply map_empty. intros k. destruct (cache !! k) as [e|] eqn:Hk; [|done].
        apply elem_of_items in Hk. rewrite Ho in Hk. by apply not_elem_of_nil in Hk. }
      rewrite map_size_empty in Hz. done.
  - rewrite Z.geb_leb in Hz. apply Z.leb_gt in Hz. split; [lia|done].
Qed.

Lemma cacheable_true o status message authority :
  cacheable o status message authority = true →
  status = 0 ∧ authority = false ∧ cacheable o 0 message false = true.
Proof.
  intros Hc. assert (status = 0 ∧ authority = false) as [-> ->]; [|done].
  unfold cacheable in Hc. destruct authority; [by rewrite !andb_false_r in Hc|].
  destruct (Z.eqb_spec status 0); [done|by rewrite !andb_false_l in Hc].
Qed.

(** Entries are dropped, or one is added for a reply that is in sync. *)
Lemma inv_cache_evicted s : inv_cache s → inv_cache (set_cache_ (evict s.(cache_)) s).
Proof.
  intros []. destruct (evict_spec _ ic_bound) as [Hs Hsub]. constructor; simpl; try done; [| |lia].
  - intros Hn. rewrite (ic_synced Hn) in Hsub |- *. apply (anti_symm (⊆)); [done|apply map_empty_subseteq].
  - intros k e Hk. eapply lookup_weaken in Hk; [|done]. destruct (ic_entries _ _ Hk) as (id & o & Ho & []).
    exists id, o. split; [done|]. by constructor.
Qed.

Lemma inv_cache_insert s k e id o :
  inv_cache s → (base.size s.(cache_) ≤ 63)%nat → s.(synced_) = true → s.(profile_authority_) = false →
  s.(heap) !! id = Some o → entry_ok s k e id o → inv_cache (set_cache_ (<[k := e]> s.(cache_)) s).
Proof.
  intros [] Hs Hy Hp Ho He. constructor; simpl; try done.
  - rewrite Hy, Hp. by intros [|].
  - intros k' e' [[<- <-]|[? Hk]]%lookup_insert_Some.
    + exists id, o. split; [done|]. destruct He. by constructor.
    + destruct (ic_entries _ _ Hk) as (id' & o' & Ho' & []). exists id', o'. split; [done|]. by constructor.
  - destruct (s.(cache_) !! k) eqn:E;
      [rewrite map_size_insert_Some by eauto|rewrite map_size_insert_None by done]; lia.
Qed.

(** The reply is on record as the answer to a message of the operation. *)
Definition answered (id status : Z) (message : Message) (s : State) : Prop :=
  ParseNumber (Get message "status") = Some status ∧
  ∃ sent, s.(exchanged) !! Get message "id" = Some (id, sent, Some message).

Lemma good_remember id status message s o :
  inv s → s.(heap) !! id = Some o → o.(op_accepted) = true → in_sync message s →
  answered id status message s → good s (remember id status message s).1.
Proof.
  intros Hi Ho Hacc Hsync [Hstatus Hex]. unfold remember. c_run. rewrite (operation_some _ _ _ Ho).
  destruct (cacheable _ _ _ _) eqn:Hc; [|by apply good_refl]. apply cacheable_true in Hc as (-> & Hpa & Hc).
  cbn [negb]. c_run. set (s0 := set_tick _ s).
  set (ttl := Z.min 1000 _). set (expires := o.(op_admitted) + Z.max 0 ttl * 1000).
  apply (good_trans _ s0); [apply good_rely; split; [by apply (inv_ext s)|apply rely_tick; lia]|]. intros Hi0.
  destruct (_ || _) eqn:Httl; [by apply good_refl|].
  apply orb_false_iff in Httl as [Httl%negb_false_iff Hexp%negb_false_iff]. rewrite c_bind.
  destruct (lock_ok s0 Hi0) as [Hi1 Hr1]. apply (good_trans _ (lock s0).1); [by apply good_lock|]. intros _.
  destruct (re_heap _ _ Hr1 _ _ Ho) as (o1 & Ho1 & Hio & _). pose proof (re_view _ _ Hr1) as Hv.
  set (s1 := (lock s0).1) in *. clearbody s1. unfold io_view in Hv. simpl in Hv.
  injection Hv as _ Hsy Hpa1 _ Hep Hrv _ _ _ _ _ _ _ _ _ _ _ Hxs. c_run.
  destruct (synced_ s1) eqn:Hs1; [|by apply good_refl]. cbn [negb]. c_run.
  pose proof (in_cache _ Hi1) as Hc1. destruct (evict_spec _ (ic_bound _ Hc1)) as [Hsz _].
  apply inv_cache_evicted in Hc1. set (s2 := set_cache_ (evict s1.(cache_)) s1) in *.
  set (s3 := set_tick _ s2).
  assert (Hg3 : good s1 s3).
  { apply good_same; try done; [by apply (inv_out_ext s1), Hi1|by apply (inv_cache_ext s2)|simpl; lia]. }
  destruct (expires >? cl_time s2.(tick)); [|done]. apply (good_trans _ s3); [done|]. intros Hi3. c_run.
  apply good_same; try done; [by apply (inv_out_ext s3), Hi3|].
  symmetry in Hsy. destruct (Hsync Hsy) as [He1 He2].
  unfold io_op in Hio. injection Hio as Hm _ _ Hac _ Had _ _ _.
  apply (inv_cache_insert s3 _ _ id o1); try done; [apply Hi3|simpl; congruence|].
  apply Z.gtb_lt in Httl, Hexp. constructor; simpl.
  - by rewrite Hm.
  - unfold cacheable in *. by rewrite Hm.
  - done.
  - by rewrite Hxs.
  - congruence.
  - split; congruence.
  - rewrite Had. lia.
Qed.

(** ** Receiving *)

Lemma good_wire s w :
  inv s → w ⊆ s.(wire_) → good s (set_wire_ w s).
Proof.
  intros Hi Hw. apply good_same; try done; [|by apply (inv_cache_ext s), Hi].
  destruct (in_out _ Hi). constructor; simpl; try done.
  - eapply Forall_impl; [done|]. intros u []. by constructor.
  - intros k id Hk. eapply iu_wire, lookup_weaken; done.
  - intros k id Hk. eapply iu_exchange, lookup_weaken; done.
Qed.

(** The reply to a message is put on record and its wire id is forgotten. *)
Lemma good_reply s w id message :
  inv s → s.(wire_) !! w = Some id →
  let s' := set_wire_ (delete w s.(wire_))
    (set_exchanged (alter (λ x, (x.1, Some message)) w s.(exchanged)) s) in
  good s s' ∧ ∃ sent, s'.(exchanged) !! w = Some (id, sent, Some message).
Proof.
  intros Hi Hw. pose proof (in_out _ Hi) as []. destruct (iu_exchange _ _ Hw) as [sent Hx]. split.
  2: { exists sent. simpl. by rewrite lookup_alter_eq, Hx. }
  apply good_same; try done.
  - constructor; simpl; try done.
    + eapply Forall_impl; [done|]. intros u []. by constructor.
    + intros k j [_ Hk]%lookup_delete_Some. auto.
    + intros k j [Hne Hk]%lookup_delete_Some. rewrite lookup_alter_ne by done. auto.
    + intros k j x r. destruct (decide (w = k)) as [<-|Hne]; [|rewrite lookup_alter_ne by done; eauto].
      rewrite lookup_alter_eq, Hx. intros [= <- <- <-]. eauto.
  - apply (inv_cache_ext (set_exchanged (alter (λ x, (x.1, Some message)) w s.(exchanged)) s)); [done|].
    apply inv_cache_exchanged; [|apply Hi].
    intros k y Hy [r Hr]. rewrite lookup_alter_ne; [done|]. intros <-. rewrite Hx in Hy. injection Hy as <-. done.
Qed.

(** A flag that the reply of an operation sets. *)
Lemma good_alter s id f o :
  inv s → s.(heap) !! id = Some o → op_le o (f o) → (f o).(op_done) = o.(op_done) →
  (f o).(op_detached) = o.(op_detached) → (f o).(op_callback) = o.(op_callback) →
  (f o).(op_status) = o.(op_status) → 0 ≤ (f o).(op_next_poll) →
  ((f o).(op_sent) = true → o.(op_sent) = true ∨ o.(op_done) = false) →
  good s (set_heap (alter f id s.(heap)) s) ∧ (set_heap (alter f id s.(heap)) s).(heap) !! id = Some (f o).
Proof.
  intros Hi Ho Hle ? ? ? ? ? Hsent. rewrite (alter_insert _ _ _ _ Ho). split; [|apply lookup_insert_eq].
  eapply good_flag; try done. intros Hd Hdt Hc Hs. apply (ol_accepted _ _ Hle).
  destruct (Hsent Hs) as [Hs'|]; [|congruence]. by eapply (oo_outcome _ _ _ (io_ops _ (in_ops _ Hi) _ _ Ho)).
Qed.

Lemma good_read {A} (f : nat → A) s : inv s → good s (read f s).1.
Proof.
  intros Hi. apply good_rely. split; [by apply (inv_ext s)|apply rely_tick; simpl; lia].
Qed.

(** What follows the synchronization. *)
Definition receive_rest (id status : Z) (message : Message) : C bool :=
  o ← getO id;
  if (status =? 0) && eqs (Get message "decision") "PENDING" &&
     eqs (Get o.(op_message) "method") "request"
  then
    let remote := Get message "request_id" in
    updO id (set_op_remote_id remote);;
    if empty remote then mret false
    else
      now ← read cl_time;
      updO id (set_op_next_poll (now + 100000));; mret true
  else
    remember id status message;;
    Complete id status (with_source message);; mret true.

Lemma good_receive_rest id status message s o :
  inv s → s.(heap) !! id = Some o → o.(op_accepted) = true → in_sync message s →
  answered id status message s → good s (receive_rest id status message s).1.
Proof.
  intros Hi Ho Hacc Hsync Hans. unfold receive_rest. c_run. rewrite (operation_some _ _ _ Ho).
  pose proof (oo_deadline _ _ _ (io_ops _ (in_ops _ Hi) _ _ Ho)) as [_ Hnp].
  destruct (_ && _).
  - c_run. destruct (good_alter s id (set_op_remote_id (Get message "request_id")) o Hi Ho) as [Hg Ho1]; try done.
    { by left. }
    destruct (empty _); [done|]. c_run. eapply good_trans; [done|]. intros Hi1.
    set (s1 := set_heap _ s) in *. eapply good_trans; [by apply (good_read cl_time)|]. intros Hi2.
    eapply good_alter; try done. { simpl. pose proof (time_positive s1.(tick)). simpl in *. lia. } by left.
  - rewrite !c_bind. eapply good_trans; [by eapply good_remember|]. intros Hi1.
    destruct (good_remember id status message s o Hi Ho Hacc Hsync Hans) as [_ He].
    destruct (ev_heap _ _ He _ _ Ho) as (o1 & Ho1 & Hle). eapply good_Complete; [done|done|].
    intros _ _. by apply (ol_accepted _ _ Hle).
Qed.

Lemma good_Receive message s : inv s → good s (Receive message s).1.
Proof.
  intros Hi. unfold Receive. destruct (negb _); [by apply good_refl|]. destruct (eqs _ "event").
  { rewrite c_bind. by apply good_Invalidate. }
  c_run. destruct (wire_ s !! Get message "id") as [id|] eqn:Hw; [|by apply good_refl].
  destruct (iu_wire _ (in_out _ Hi) _ _ Hw) as [[o Ho] _]. c_run.
  destruct (good_reply s (Get message "id") id message Hi Hw) as [Hg1 Hx1].
  eapply good_trans; [exact Hg1|]. intros Hi1. clear Hg1. set (s1 := set_wire_ _ _) in *. eapply good_trans; [by apply (good_inflight s1 id false)|]. intros Hi2.
  set (s2 := set_heap _ s1) in *.
  assert (Ho2 : s2.(heap) !! id = Some (set_op_inflight false o)) by (simpl; by rewrite lookup_alter_eq, Ho).
  change (exchanged s1) with (exchanged s2) in Hx1.
  clearbody s2. destruct (ParseNumber _) as [status|] eqn:Hstatus; [|by apply good_refl].
  destruct (_ || _); [by apply good_refl|]. rewrite c_bind.
  destruct (lock_ok s2 Hi2) as [_ Hr]. eapply good_trans; [by apply good_lock|]. intros Hi3.
  destruct (re_heap _ _ Hr _ _ Ho2) as (o3 & Ho3 & _). pose proof (re_view _ _ Hr) as Hv3.
  unfold io_view in Hv3. injection Hv3 as _ _ _ _ _ _ _ _ _ _ _ _ _ _ _ _ _ Hx3. rewrite <- Hx3 in Hx1.
  set (s3 := (lock s2).1) in *. clearbody s3. c_run.
  destruct (good_alter s3 id (set_op_accepted true) o3 Hi3 Ho3) as [Hg Ho4]; try done.
  { apply (oo_deadline _ _ _ (io_ops _ (in_ops _ Hi3) _ _ Ho3)). }
  { by left. }
  eapply good_trans; [done|]. intros Hi4. set (s4 := set_heap _ s3) in *.
  change (exchanged s3) with (exchanged s4) in Hx1. clearbody s4. rewrite c_bind.
  destruct (good_synchronize message s4 Hi4) as (Hg5 & Hsync & Hv & Hxs).
  eapply good_trans; [done|]. intros Hi5. set (s5 := (synchronize message s4).1) in *. clearbody s5.
  apply (good_receive_rest id status message s5 (set_op_accepted true o3)); try done.
  - unfold ops_view in Hv. injection Hv as Hh _ _ _ _ _ _ _ _ _. by rewrite Hh.
  - split; [done|]. by rewrite Hxs.
Qed.

(** ** Failing *)

Lemma elem_of_pending s id : inv_ops s →
  id ∈ filter (λ id, undone s id = true) (operation_ids s) ↔ live s id.
Proof.
  intros Hi. rewrite list_elem_of_filter, elem_of_operation_ids. unfold undone. split.
  - intros [Hu Hin]. destruct (io_known _ Hi _ Hin) as [o Ho]. rewrite (operation_some _ _ _ Ho) in Hu.
    apply andb_true_iff in Hu as [Hd%negb_true_iff Hdt%negb_true_iff]. by exists o.
  - intros (o & Ho & Hd & Hdt). rewrite (operation_some _ _ _ Ho), Hd, Hdt. split; [done|].
    by apply (oo_registered _ _ _ (io_ops _ Hi _ _ Ho)).
Qed.

(** The operations that have not ended. *)
Definition pending_ids (s : State) : list Z := filter (λ id, undone s id = true) (operation_ids s).

Lemma pending_ids_le s s' :
  inv_ops s → inv_ops s' → (∀ id, live s' id → live s id) →
  (length (pending_ids s') ≤ length (pending_ids s))%nat.
Proof.
  intros Hi Hi' Hl. apply submseteq_length, NoDup_submseteq.
  - apply NoDup_filter, NoDup_operation_ids.
  - intros id. unfold pending_ids. rewrite !elem_of_pending by done. auto.
Qed.

Lemma pending_ids_lt s s' id :
  inv_ops s → inv_ops s' → (∀ id, live s' id → live s id) → live s id → ¬ live s' id →
  (length (pending_ids s') < length (pending_ids s))%nat.
Proof.
  intros Hi Hi' Hl Hid Hid'.
  assert (Hsub : id :: pending_ids s' ⊆+ pending_ids s); [|by apply submseteq_length in Hsub].
  apply NoDup_submseteq.
  - apply NoDup_cons. unfold pending_ids. rewrite elem_of_pending by done.
    split; [done|]. apply NoDup_filter, NoDup_operation_ids.
  - intros j. unfold pending_ids. rewrite elem_of_cons, !elem_of_pending by done. intros [-> | Hj]; auto.
Qed.

Lemma evol_live s s' id : evol s s' → s.(disconnected_) = true → live s' id → live s id.
Proof. intros He Hd Hl. destruct (ev_new _ _ He _ Hl) as [?|[_ ?]]; [done|congruence]. Qed.

(** The error that a failure reports. *)
Definition failure (error : Z) : Prop := error = CONSENT_ERROR_DISCONNECTED ∨ error = CONSENT_ERROR_PROTOCOL.

Lemma fail_loop_ok fuel error s :
  failure error → inv s → s.(disconnected_) = true → (length (pending_ids s) < fuel)%nat →
  good s (fail_loop fuel error s).1 ∧ ∀ id, ¬ live (fail_loop fuel error s).1 id.
Proof.
  intros Herr. revert s. induction fuel as [|fuel IH]; intros s Hi Hd Hf; [lia|]. simpl. rewrite c_bind.
  destruct (good_lock s Hi) as [Hi1 He1]. pose proof (ev_disconnected _ _ He1 Hd) as Hd1.
  assert (Hlen : (length (pending_ids (lock s).1) ≤ length (pending_ids s))%nat).
  { apply pending_ids_le; [apply Hi|apply Hi1|]. intros id. by apply evol_live. }
  set (s1 := (lock s).1) in *. clearbody s1. c_run. fold (pending_ids s1).
  destruct (pending_ids s1) as [|id l] eqn:Hp; simpl.
  { split; [done|]. intros id Hl. apply (elem_of_pending _ _ (in_ops _ Hi1)) in Hl.
    fold (pending_ids s1) in Hl. rewrite Hp in Hl. by apply not_elem_of_nil in Hl. }
  assert (Hl : live s1 id).
  { apply (elem_of_pending _ _ (in_ops _ Hi1)). fold (pending_ids s1). rewrite Hp. apply list_elem_of_here. }
  pose proof Hl as (o & Ho & _). rewrite (operation_some _ _ _ Ho), c_bind.
  set (status := if error =? _ then _ else _).
  assert (Hrep : reportable status o).
  { subst status. destruct (Z.eqb_spec error CONSENT_ERROR_DISCONNECTED); [apply reportable_local|].
    apply reportable_uncertain. destruct Herr as [? | ->]; [done|apply not_certain_errors]. }
  destruct (Complete_ok id status ∅ s1 o Hi1 Ho Hrep) as [Hr Hnl]. apply good_rely in Hr as [Hi2 He2].
  pose proof (ev_disconnected _ _ He2 Hd1) as Hd2. set (s2 := (Complete id status ∅ s1).1) in *.
  assert (Hlt : (length (pending_ids s2) < length (pending_ids s1))%nat).
  { apply (pending_ids_lt _ _ id); [apply Hi1|apply Hi2| |done|done]. intros j. by apply evol_live. }
  clearbody s2. rewrite Hp in Hlt. destruct (IH s2 Hi2 Hd2) as [[Hi3 He3] Hno]; [lia|].
  split; [|done]. split; [done|]. by rewrite He1, He2.
Qed.

Lemma Fail_ok error s :
  failure error → inv s →
  let s' := (Fail error s).1 in good s s' ∧ (∀ id, ¬ live s' id) ∧ s'.(disconnected_) = true.
Proof.
  intros Herr Hi. unfold Fail. rewrite c_bind. destruct (good_lock s Hi) as [Hi1 He1].
  set (s1 := (lock s).1) in *. clearbody s1. c_run. set (s2 := set_disconnected_ true _).
  assert (Hi2 : inv s2).
  { destruct Hi1 as [? ? []]. constructor; [by apply (inv_ops_ext s1)|by apply (inv_out_ext s1)|].
    constructor; simpl; try done. rewrite map_size_empty. lia. }
  destruct (fail_loop_ok (S (base.size s2.(operations_))) error s2 Herr Hi2) as [[Hi3 He3] Hno]; [done| |].
  { apply le_n_S. unfold pending_ids, operation_ids. rewrite length_filter.
    by rewrite merge_sort_Permutation. }
  pose proof (ev_disconnected _ _ He3 eq_refl) as Hd3. split_and!; [|done|done].
  split; [done|]. rewrite He1. destruct He3. constructor; auto. intros id Hl. by destruct (Hno id).
Qed.

(** ** The loops over the socket *)

(** Members that only the reader uses. *)
Lemma good_input s s' :
  inv s → ops_view s' = ops_view s → cache_view s' = cache_view s →
  (s'.(output_), s'.(output_bytes_), s'.(written), s'.(wire_), s'.(next_wire_), s'.(exchanged)) =
    (s.(output_), s.(output_bytes_), s.(written), s.(wire_), s.(next_wire_), s.(exchanged)) →
  0 ≤ s'.(partial_since_) → failure s'.(read_error_) →
  (s'.(wake), s'.(disconnected_), s'.(running), s'.(stopping_)) =
    (s.(wake), s.(disconnected_), s.(running), s.(stopping_)) → (s.(tick) ≤ s'.(tick))%nat → good s s'.
Proof.
  intros Hi Hv1 Hv2 Hv3 Hp He Hv4 Ht. injection Hv3 as Ho Hb Hw Hwi Hn Hx. injection Hv4 as Hwk Hd Hr Hst.
  apply good_same; try done; try congruence; [|by apply (inv_cache_ext s), Hi].
  unfold ops_view in Hv1. injection Hv1 as Hh _ _ _ _ _ _ _ _ _. destruct (in_out _ Hi).
  constructor; rewrite ?Hh, ?Ho, ?Hb, ?Hw, ?Hwi, ?Hn, ?Hx; try done.
  eapply Forall_impl; [done|]. intros u []. constructor; rewrite ?Hh, ?Hw; done.
Qed.

Lemma good_read_error s : inv s → good s (set_read_error_ CONSENT_ERROR_PROTOCOL s).
Proof. intros Hi. apply good_input; try done; [apply Hi|by right]. Qed.

Lemma good_frames_loop fuel s : inv s → good s (frames_loop fuel s).1.
Proof.
  revert s. induction fuel as [|fuel IH]; intros s Hi; [by apply good_refl|]. simpl. c_run.
  destruct (_ <? 4); [by apply good_refl|]. destruct (_ || _); [c_run; by apply good_read_error|].
  destruct (_ <? _); [by apply good_refl|].
  destruct (Decode _) as [message|]; [|c_run; by apply good_read_error].
  rewrite c_bind. eapply good_trans; [by apply (good_Receive message)|]. intros Hi1.
  destruct (Receive message s) as [s1 [|]]; simpl in *; c_run; [|by apply good_read_error].
  eapply good_trans; [|apply IH]. apply good_input; try done; apply Hi1.
Qed.

Lemma good_read_loop fuel received s : inv s → good s (read_loop fuel received s).1.
Proof.
  revert received s. induction fuel as [|fuel IH]; intros received s Hi; [by apply good_refl|].
  cbn [read_loop].
  rewrite c_read. apply (good_trans _ (set_tick (S s.(tick)) s)); [by apply (good_read cl_read)|]. intros Hi1.
  set (s1 := set_tick _ s) in *. clearbody s1. destruct (cl_read (tick s)) as [| | |bytes]; try by apply good_refl.
  c_run. set (s2 := set_input_ (_ +:+ _) s1).
  apply (good_trans _ s2); [apply good_input; try done; apply Hi1|]. intros Hi2. clearbody s2.
  rewrite c_bind. set (n := S _). eapply good_trans; [by apply (good_frames_loop n)|]. intros Hi3.
  clearbody n. destruct (frames_loop n s2) as [s3 [|]]; cbn [fst snd negb] in *; [|by apply good_refl]. c_run. rewrite c_bind.
  set (s4 := ((if empty _ then _ else _ : C ()) s3).1).
  assert (Hg : good s3 s4).
  { subst s4. destruct (empty _); [apply good_input; try done; apply Hi3|].
    destruct (_ =? _); [|by apply good_refl]. rewrite c_read.
    apply good_input; try done; [|apply Hi3|simpl; lia]. simpl. pose proof (time_positive s3.(tick)). lia. }
  clearbody s4. eapply good_trans; [done|]. intros Hi4. destruct (_ >=? _); [by apply good_refl|by apply IH].
Qed.

(** The front frame leaves the queue, or its offset moves. *)
Lemma good_output s current rest l bytes w :
  inv s → s.(output_) = current :: rest →
  (l = rest ∨ ∃ n, l = mkOutput current.(o_frame) (current.(o_offset) + n) current.(o_operation) :: rest ∧
    0 < n ∧ current.(o_offset) + n < size current.(o_frame)) →
  bytes = s.(output_bytes_) - (output_size s.(output_) - output_size l) →
  w = s.(written) ∨ (w = {[current.(o_operation)]} ∪ s.(written) ∧ (operation current.(o_operation) s).(op_sent) = true) →
  (l ≠ rest → current.(o_operation) ∈ w) →
  good s (set_written w (set_output_bytes_ bytes (set_output_ l s))).
Proof.
  intros Hi Hout Hl Hb Hw Hin. apply good_same; try done; [|by apply (inv_cache_ext s), Hi].
  destruct (in_out _ Hi). rewrite Hout in *. apply Forall_cons in iu_queue as [Hcur Hrest]. simpl in iu_tail.
  destruct iu_bytes as [Hby Hmax]. pose proof Hcur as [Hoff Hfr Hkn Hwr].
  assert (Hsub : ∀ id, id ∈ s.(written) → id ∈ w) by (destruct Hw as [->|[-> _]]; set_solver +).
  assert (Hrest' : Forall (out_ok (set_written w (set_output_bytes_ bytes (set_output_ l s)))) rest).
  { eapply Forall_impl; [exact Hrest|]. intros u []. constructor; try done; simpl; auto. }
  constructor; simpl; try done.
  - destruct Hl as [->|(n & -> & ? & ?)]; [done|]. apply Forall_cons. split; [|done].
    constructor; simpl; try done; [lia|]. intros _. apply Hin. intros Heq.
    apply (f_equal length) in Heq. simpl in Heq. lia.
  - destruct Hl as [->|(n & -> & _)]; [|done]. destruct rest; [done|]. by apply Forall_cons in iu_tail as [_ ?].
  - subst bytes. split; [lia|]. simpl in *. destruct Hl as [->|(n & -> & ? & ?)]; simpl; lia.
  - intros id. destruct Hw as [->|[-> Hs]]; [auto|].
    intros [->%elem_of_singleton|?]%elem_of_union; [|auto]. destruct Hkn as [o Ho]. exists o.
    by rewrite (operation_some _ _ _ Ho) in Hs.
Qed.

Lemma good_write_loop fuel s : inv s → good s (write_loop fuel s).1.
Proof.
  revert s. induction fuel as [|fuel IH]; intros s Hi; [by apply good_refl|]. cbn [write_loop]. c_run.
  destruct (output_ s) as [|u rest] eqn:Hout; [by apply good_refl|]. rewrite c_bind.
  destruct (lock_ok s Hi) as [_ Hr]. eapply good_trans; [by apply good_lock|]. intros Hi1.
  assert (Hout1 : (lock s).1.(output_) = u :: rest).
  { pose proof (re_view _ _ Hr) as Hv. unfold io_view in Hv. congruence. }
  set (s1 := (lock s).1) in *. clearbody s1. clear Hr Hi Hout s. c_run.
  pose proof (iu_queue _ (in_out _ Hi1)) as Hq. rewrite Hout1 in Hq. apply Forall_cons in Hq as [[Hoff _ [o Ho] Hwr] _].
  rewrite (operation_some _ _ _ Ho). destruct (_ && _) eqn:Hdrop.
  - apply andb_true_iff in Hdrop as [Hz%Z.eqb_eq _]. c_run. eapply good_trans; [|apply IH].
    replace (set_output_bytes_ _ _) with (set_written s1.(written) (set_output_bytes_
      (s1.(output_bytes_) - size u.(o_frame)) (set_output_ rest s1))) by by destruct s1.
    apply good_output with u rest; try done; [by left| |by left].
    rewrite Hout1. simpl. lia.
  - c_run. destruct (good_alter s1 (o_operation u) (set_op_sent true) o Hi1 Ho) as [Hg Ho2]; try done.
    { apply (oo_deadline _ _ _ (io_ops _ (in_ops _ Hi1) _ _ Ho)). }
    { intros _. destruct (op_done o) eqn:Hd; [left|by right]. simpl in Hdrop. rewrite andb_true_r in Hdrop.
      apply Z.eqb_neq in Hdrop. destruct (iu_written _ (in_out _ Hi1) (o_operation u)) as (x & Hx & ?); [apply Hwr; lia|].
      congruence. }
    eapply good_trans; [done|]. intros Hi2. set (s2 := set_heap _ s1) in *.
    assert (Hout2 : s2.(output_) = u :: rest) by done. clearbody s2.
    set (s3 := set_tick _ s2).
    apply (good_trans _ s3); [by apply (good_read (λ n, cl_write n ""))|]. intros Hi3.
    destruct (cl_write _ _) as [| |n] eqn:Hwrite; try by apply good_refl.
    destruct (Z.leb_spec n 0); [by apply good_refl|]. c_run.
    apply write_bound in Hwrite.
    assert (Hn : n ≤ size u.(o_frame) - u.(o_offset)).
    { unfold size in *. rewrite length_drop_str in Hwrite. lia. }
    eapply good_trans; [|apply IH]. unfold wrote. apply good_output with u rest; try done.
    + destruct (Z.eqb_spec (u.(o_offset) + n) (size u.(o_frame))); [by left|right].
      exists n. split_and!; [done|lia|lia].
    + simpl. rewrite Hout2. simpl. destruct (Z.eqb_spec (u.(o_offset) + n) (size u.(o_frame))); simpl; lia.
    + right. split; [done|]. simpl. unfold operation. simpl. by rewrite Ho2.
    + intros _. set_solver +.
Qed.

(** ** The scheduler *)

Lemma evol_was_live s s' id : evol s s' → is_Some (s.(heap) !! id) → live s' id → live s id.
Proof.
  intros He [o Ho] (o' & Ho' & Hd & Hdt). destruct (ev_heap _ _ He _ _ Ho) as (x & Hx & Hle).
  replace x with o' in * by congruence. exists o. split_and!; [done|..]; apply not_true_is_false.
  - intros ?%(ol_done _ _ Hle). congruence.
  - intros ?%(ol_detached _ _ Hle). congruence.
Qed.

(** The deadline of an operation. *)
Definition deadline_of (s : State) (id : Z) : Z := (operation id s).(op_deadline).

Lemma evol_deadline s s' id : evol s s' → is_Some (s.(heap) !! id) → deadline_of s' id = deadline_of s id.
Proof.
  intros He [o Ho]. destruct (ev_heap _ _ He _ _ Ho) as (o' & Ho' & [Hc _ _ _ _]).
  unfold deadline_of. rewrite (operation_some _ _ _ Ho), (operation_some _ _ _ Ho').
  unfold const_op in Hc. congruence.
Qed.

Lemma earlier_spec next d : 0 ≤ d → 0 ≤ earlier next d ≤ d ∧ (0 ≤ next → earlier next d ≤ next).
Proof. unfold earlier. destruct (Z.ltb_spec next 0); lia. Qed.

Lemma pump_operations_ok now pending next s :
  inv s → Forall (λ id, is_Some (s.(heap) !! id)) pending →
  let s' := (pump_operations now pending next s).1 in
  let next' := (pump_operations now pending next s).2 in
  good s s' ∧ (0 ≤ next → 0 ≤ next' ≤ next) ∧
  ∀ id, id ∈ pending → live s' id → now < deadline_of s' id ∧ 0 ≤ next' ≤ deadline_of s' id.
Proof.
  revert next s. induction pending as [|id pending IH]; intros next s Hi Hk.
  { simpl. split_and!; [by apply good_refl|lia|]. by intros id Hin%not_elem_of_nil. }
  apply Forall_cons in Hk as [Hid Hk]. pose proof Hid as [o Ho]. cbn [pump_operations]. c_run.
  rewrite (operation_some _ _ _ Ho).
  assert (Hstep : ∀ m : C (), good s (m s).1 →
    Forall (λ id, is_Some ((m s).1.(heap) !! id)) pending ∧ is_Some ((m s).1.(heap) !! id)).
  { intros m [_ He]. split; [|by eapply evol_known]. eapply Forall_impl; [done|]. intros j. by apply evol_known. }
  destruct (Z.leb_spec o.(op_deadline) now) as [Hexp|Hexp].
  - rewrite c_bind. destruct (Complete_ok id (local_status o CONSENT_ERROR_TIMEOUT) ∅ s o Hi Ho) as [Hr Hnl];
      [apply reportable_local|]. apply good_rely in Hr. destruct (Hstep _ Hr) as [Hk1 Hid1].
    set (s1 := (Complete id _ ∅ s).1) in *. clearbody s1.
    destruct (IH next s1 (proj1 Hr) Hk1) as (Hg & Hn & Hl). split_and!; [by eapply good_trans|done|].
    intros j [-> | Hj]%elem_of_cons Hlive; [|auto]. destruct Hnl. by eapply (evol_was_live s1), Hlive; [apply Hg|].
  - rewrite c_bind. set (m := if negb _ && _ then Queue id else mret ()).
    assert (Hm : good s (m s).1) by (subst m; destruct (_ && _); [by eapply good_Queue|by apply good_refl]).
    destruct (Hstep _ Hm) as [Hk1 Hid1]. pose proof (evol_deadline _ _ _ (proj2 Hm) Hid) as Hdl.
    set (s1 := (m s).1) in *. clearbody s1. c_run. pose proof Hid1 as [o1 Ho1].
    rewrite (operation_some _ _ _ Ho1).
    pose proof (oo_deadline _ _ _ (io_ops _ (in_ops _ (proj1 Hm)) _ _ Ho1)) as [? ?].
    unfold deadline_of in Hdl. rewrite (operation_some _ _ _ Ho), (operation_some _ _ _ Ho1) in Hdl.
    set (d := if op_inflight o1 then _ else _).
    assert (Hd : 0 ≤ d ≤ o1.(op_deadline)) by (subst d; destruct (op_inflight o1); lia). clearbody d.
    destruct (earlier_spec next d) as [He1 He2]; [lia|].
    destruct (IH (earlier next d) s1 (proj1 Hm) Hk1) as (Hg & Hn & Hl).
    split_and!; [by eapply good_trans|lia|]. intros j [-> | Hj]%elem_of_cons Hlive; [|auto].
    rewrite (evol_deadline _ _ _ (proj2 Hg) Hid1). unfold deadline_of. rewrite (operation_some _ _ _ Ho1). lia.
Qed.

Lemma good_each {A} (l : list A) body s :
  inv s → (∀ x s, inv s → good s (body x s).1) → good s (each l body s).1.
Proof.
  intros Hi Hb. induction l as [|x l IH] in s, Hi |- *; [by apply good_refl|]. simpl. rewrite c_bind.
  eapply good_trans; [by apply Hb|]. auto.
Qed.

Lemma good_reap_wire s : inv s → good s (reap_wire s).1.
Proof.
  intros Hi. unfold reap_wire. c_run. apply good_each; [done|]. intros [w id] s1 Hi1. rewrite c_bind.
  eapply good_trans; [by apply good_lock|]. intros Hi2. c_run. destruct (_ || _); [|by apply good_refl].
  simpl. apply good_wire; [done|apply delete_subseteq].
Qed.

(** ** Between two events *)

(** A handle that stops or has lost its connection has no operation left. *)
Record resting (s : State) : Prop := mk_resting {
  rs_disconnected : s.(disconnected_) = true → ∀ id, ¬ live s id;
  rs_stopping : s.(stopping_) = true → (s.(closed_) = true ∨ s.(disconnected_) = true) ∧
    (s.(running) = true → s.(wake) = true);
  rs_running : s.(running) = false → s.(closed_) = true ∨ s.(disconnected_) = true;
}.

(** The I/O thread is idle: an operation that has not ended is covered by the
    wake source or by the deadline source. *)
Record settled (s : State) : Prop := mk_settled {
  se_resting : resting s;
  se_covered : ∀ id, live s id → s.(wake) = true ∨ 0 ≤ s.(deadline_at) ≤ deadline_of s id;
}.

Lemma closed_no_live s id : inv s → s.(closed_) = true → ¬ live s id.
Proof.
  intros Hi Hc (o & Ho & Hd & Hdt). pose proof (oo_registered _ _ _ (io_ops _ (in_ops _ Hi) _ _ Ho) Hd Hdt) as Hin.
  rewrite (io_closed _ (in_ops _ Hi) Hc) in Hin. set_solver +Hin.
Qed.

Lemma resting_evol s s' : evol s s' → resting s → resting s'.
Proof.
  intros He [Hd Hs Hr]. pose proof He as []. constructor.
  - intros Hd' id Hl. destruct (ev_calm0 Hd') as [Hd0|Hno]; [|by apply (Hno id)].
    apply (Hd Hd0 id). by eapply evol_live.
  - intros Hs'. destruct (ev_stopped0 Hs') as [Hs0|[? ?]]; [|done]. destruct (Hs Hs0) as [Hcd Hw].
    split; [tauto|]. rewrite ev_running0. auto.
  - rewrite ev_running0. intros Hr'. destruct (Hr Hr'); auto.
Qed.

Lemma not_live_settled s : resting s → (∀ id, ¬ live s id) → settled s.
Proof. intros Hr Hn. constructor; [done|]. intros id Hl. by destruct (Hn id). Qed.

(** The handle stops after a failure. *)
Lemma stopped_ok s : inv s → resting s → s.(disconnected_) = true ∨ s.(closed_) = true →
  good s (IoStop s).1 ∧ settled (IoStop s).1.
Proof.
  intros Hi [Hd Hs Hr] Hcd. simpl. split.
  - split; [by apply (inv_ext s)|]. constructor; simpl; try done; auto.
    + intros id o Ho. by exists o.
    + intros _. right. tauto.
  - apply not_live_settled; [constructor; simpl; try done; tauto|].
    intros id Hl. destruct Hcd as [Hcd|Hcd]; [by apply (Hd Hcd id)|by apply (closed_no_live s id)].
Qed.

Lemma good_resting s s' : good s s' → resting s → resting s'.
Proof. intros [_ He]. by apply resting_evol. Qed.

Lemma fail_stop_ok error s :
  failure error → inv s → resting s →
  let s' := ((Fail error;; IoStop) s).1 in good s s' ∧ settled s' ∧ ∀ id, ¬ live s' id.
Proof.
  intros Herr Hi Hr. rewrite c_bind. destruct (Fail_ok error s Herr Hi) as (Hg & Hno & Hd).
  set (s1 := (Fail error s).1) in *. clearbody s1. destruct Hg as [Hi1 He1].
  pose proof (resting_evol _ _ He1 Hr) as Hr1. destruct (stopped_ok s1 Hi1 Hr1) as [Hg2 Hset]; [by left|].
  split_and!; [by eapply good_trans|done|]. intros id. apply Hno.
Qed.

(** The end of [Pump]: the sources are armed. *)
Lemma arm_ok next s :
  inv s → resting s → (∀ id, live s id → s.(wake) = true ∨ 0 ≤ next ≤ deadline_of s id) →
  let s' := ((ArmWrite;; Deadline next) s).1 in
  good s s' ∧ settled s' ∧ ∀ id, live s' id → live s id.
Proof.
  intros Hi [] Hc. unfold ArmWrite, Deadline. rewrite c_bind. c_run.
  assert (Hg : ∀ b, good s (set_deadline_at next (set_write_armed b s))).
  { intros b. apply good_same; try done; [by apply (inv_out_ext s), Hi|by apply (inv_cache_ext s), Hi]. }
  destruct (bool_decide _); simpl; split_and!; try done; (constructor; [by constructor|]); exact Hc.
Qed.

Lemma Write_ok s : inv s → good s (Write s).1.
Proof. intros Hi. unfold Write. c_run. by apply good_write_loop. Qed.

(** The rest of [Pump] after the operations of its snapshot. *)
Definition pump_rest (now next : Z) : C () :=
  s ← getS;
  let deadline := s.(partial_since_) + 5000000 in
  let partial := negb (s.(partial_since_) =? 0) in
  if partial && (now >=? deadline) then Fail CONSENT_ERROR_PROTOCOL;; IoStop
  else
    ok ← Write;
    if negb (ok : bool) then Fail CONSENT_ERROR_DISCONNECTED;; IoStop
    else ArmWrite;; Deadline (if partial then earlier next deadline else next).

Lemma pump_rest_ok now next s :
  inv s → resting s → (∀ id, live s id → s.(wake) = true ∨ 0 ≤ next ≤ deadline_of s id) →
  good s (pump_rest now next s).1 ∧ settled (pump_rest now next s).1.
Proof.
  intros Hi Hr Hc. unfold pump_rest. c_run. set (partial := negb _).
  pose proof (iu_partial _ (in_out _ Hi)). destruct (partial && _).
  { destruct (fail_stop_ok CONSENT_ERROR_PROTOCOL s) as (? & ? & _); [by right|done..|done]. }
  rewrite c_bind. pose proof (Write_ok s Hi) as Hg. destruct (Write s) as [s1 ok]. cbn [fst snd] in *.
  pose proof (good_resting _ _ Hg Hr) as Hr1. destruct Hg as [Hi1 He1].
  assert (Hlast : ∀ s2, good s1 s2 → good s s2) by (intros s2 Hg; eapply good_trans; [by split|done]).
  destruct ok; cbn [negb].
  - set (next' := if partial then _ else _). destruct (arm_ok next' s1 Hi1 Hr1) as (? & ? & _); [|by auto].
    intros id Hl. destruct (ev_new _ _ He1 _ Hl) as [Hl0|[? _]]; [|by left].
    destruct (Hc _ Hl0) as [Hw|Hn]; [left; by apply (ev_wake _ _ He1)|right].
    pose proof Hl0 as (o & Ho & _). rewrite (evol_deadline _ _ _ He1) by eauto.
    subst next'. destruct partial; [|done].
    destruct (earlier_spec next (s.(partial_since_) + 5000000)) as [? ?]; [lia|]. lia.
  - destruct (fail_stop_ok CONSENT_ERROR_DISCONNECTED s1) as (? & ? & _); [by left|done..|by auto].
Qed.

Lemma Pump_ok s :
  inv s → resting s →
  let s' := (Pump s).1 in
  good s s' ∧ settled s' ∧
  ∀ id, is_Some (s.(heap) !! id) → deadline_of s id ≤ cl_time s.(tick) → ¬ live s' id.
Proof.
  intros Hi Hr. unfold Pump. rewrite c_bind. destruct (good_lock s Hi) as [Hi1 He1].
  pose proof (resting_evol _ _ He1 Hr) as Hr1. set (s1 := (lock s).1) in *. clearbody s1. c_run.
  destruct (closed_ s1 || disconnected_ s1) eqn:Hcd.
  { apply orb_true_iff in Hcd. destruct (stopped_ok s1 Hi1 Hr1) as [Hg Hs]; [tauto|].
    split_and!; [eapply good_trans; [by split|done]|done|]. intros id _ _.
    destruct Hcd as [Hc|Hd]; [by apply (closed_no_live s1)|by apply (rs_disconnected _ Hr1)]. }
  c_run. set (now := cl_time (tick s1)). set (s2 := set_tick _ s1).
  assert (Hg2 : good s1 s2) by by apply (good_read cl_time). destruct Hg2 as [Hi2 He2].
  assert (Hnow : cl_time s.(tick) ≤ now) by (apply time_mono, (ev_tick _ _ He1)).
  fold (pending_ids s1). rewrite c_bind.
  destruct (pump_operations_ok now (pending_ids s1) (-1) s2 Hi2) as ([Hi3 He3] & _ & Hl3).
  { apply Forall_forall. intros id (o & Ho & _)%(elem_of_pending _ _ (in_ops _ Hi1)). by exists o. }
  set (s3 := (pump_operations now _ _ s2).1) in *. set (next := (pump_operations now _ _ s2).2) in *.
  clearbody s3 next. rewrite c_bind. destruct (good_reap_wire s3 Hi3) as [Hi4 He4].
  set (s4 := (reap_wire s3).1) in *. clearbody s4. fold (pump_rest now next).
  assert (He : evol s s4) by by rewrite He1, He2, He3.
  assert (Hl4 : ∀ id, live s1 id → live s4 id → now < deadline_of s4 id ∧ 0 ≤ next ≤ deadline_of s4 id).
  { intros id Hl1 Hl4. pose proof Hl1 as (o & Ho & _).
    assert (Hk3 : is_Some (s3.(heap) !! id)) by (eapply (evol_known s2); [done|by exists o]).
    rewrite (evol_deadline _ _ _ He4 Hk3). apply Hl3; [by apply (elem_of_pending _ _ (in_ops _ Hi1))|].
    by apply (evol_was_live s3 s4). }
  pose proof (resting_evol _ _ He Hr) as Hr4.
  destruct (pump_rest_ok now next s4 Hi4 Hr4) as [Hg5 Hset].
  { intros id Hl. assert (He14 : evol s1 s4) by by rewrite He2, He3.
    destruct (ev_new _ _ He14 _ Hl) as [Hl1|[? _]]; [|by left]. right. by apply Hl4. }
  split_and!; [eapply good_trans; [by split|done]|done|].
  intros id Hk Hdl Hl. destruct Hg5 as [_ He5].
  apply (evol_was_live s4) in Hl; [|done|by apply (evol_known s)].
  assert (Hl1 : live s1 id).
  { apply (evol_was_live s1 s4); [by rewrite He2, He3|by apply (evol_known s)|done]. }
  destruct (Hl4 id Hl1 Hl) as [Hlt _]. rewrite (evol_deadline s s4) in Hlt by done. lia.
Qed.

(** ** Events *)

Lemma Ready_ok readable writable broken s :
  inv s → resting s →
  good s (Ready readable writable broken s).1 ∧ settled (Ready readable writable broken s).1.
Proof.
  intros Hi Hr. unfold Ready. rewrite c_bind. set (m := if readable then Read else mret true).
  assert (Hg : good s (m s).1) by (subst m; destruct readable; [by apply good_read_loop|by apply good_refl]).
  pose proof (good_resting _ _ Hg Hr) as Hr1. destruct (m s) as [s1 ok]. clear m. cbn [fst snd] in *.
  destruct Hg as [Hi1 He1].
  assert (Hlast : ∀ s2, good s1 s2 → good s s2) by (intros s2 Hg; eapply good_trans; [by split|done]).
  destruct ok; cbn [negb].
  - unfold ready_events. rewrite c_bind. set (m := if writable then Write else mret true).
    assert (Hg2 : good s1 (m s1).1) by (subst m; destruct writable; [by apply Write_ok|by apply good_refl]).
    pose proof (good_resting _ _ Hg2 Hr1) as Hr2. destruct (m s1) as [s2 ok2]. clear m. cbn [fst snd] in *.
    destruct (negb ok2 || broken).
    + rewrite !c_bind.
      destruct (fail_stop_ok CONSENT_ERROR_DISCONNECTED s2) as (Hg3 & Hset & _); [by left|apply Hg2|done|].
      rewrite c_bind in Hg3, Hset. split; [|done]. apply Hlast. by eapply good_trans.
    + rewrite c_bind. destruct (Pump_ok s2 (proj1 Hg2) Hr2) as (Hg3 & Hset & _).
      split; [|done]. apply Hlast. by eapply good_trans.
  - c_run. pose proof (iu_error _ (in_out _ Hi1)) as Herr.
    destruct (fail_stop_ok (read_error_ s1) s1 Herr Hi1 Hr1) as (Hg3 & Hset & _).
    rewrite c_bind in Hg3, Hset. rewrite !c_bind. auto.
Qed.

Lemma settled_ext s s' :
  heap s' = heap s →
  (s'.(disconnected_), s'.(stopping_), s'.(closed_), s'.(running), s'.(wake), s'.(deadline_at)) =
  (s.(disconnected_), s.(stopping_), s.(closed_), s.(running), s.(wake), s.(deadline_at)) →
  settled s → settled s'.
Proof.
  intros Hh Hv [[Hd Hs Hr] Hc]. injection Hv as Ed Es Ec Er Ew Ea.
  assert (Hl : ∀ id, live s' id ↔ live s id) by (intros id; unfold live; by rewrite Hh).
  constructor; [constructor|]; rewrite ?Ed, ?Es, ?Ec, ?Er, ?Ew, ?Ea; try done.
  - intros Hd' id. rewrite Hl. by apply Hd.
  - intros id. rewrite Hl. unfold deadline_of, operation. rewrite Hh. apply Hc.
Qed.

Lemma IoDispatch_ok deadline s :
  inv s → settled s →
  let s' := (IoDispatch deadline s).1 in
  inv s' ∧ settled s' ∧
  ∀ id, is_Some (s.(heap) !! id) → deadline_of s id ≤ cl_time s.(tick) → ¬ live s' id.
Proof.
  intros Hi [[Hd Hs Hr] Hc]. unfold IoDispatch. rewrite c_bind.
  set (s1 := ((if deadline then _ else _ : C ()) s).1).
  assert (Hs1 : s1 = set_deadline_at (-1) s ∨ s1 = set_wake false s) by (subst s1; destruct deadline; auto).
  clearbody s1. assert (Hi1 : inv s1) by (destruct Hs1 as [-> | ->]; by apply (inv_ext s)).
  c_run. destruct (stopping_ s1) eqn:Hst.
  - assert (Hstop : closed_ s = true ∨ disconnected_ s = true) by (apply Hs; by destruct Hs1 as [-> | ->]).
    assert (Hnl : ∀ id, ¬ live s id).
    { intros id Hl. destruct Hstop; [by apply (closed_no_live s id)|by apply (Hd ltac:(done) id)]. }
    unfold TransportClose. c_run. simpl. split_and!.
    + destruct Hi1 as [Hops Hout Hca]. constructor; [by apply (inv_ops_ext s1)| |by apply (inv_cache_ext s1)].
      destruct Hout. by constructor.
    + destruct Hs1 as [-> | ->]; (apply not_live_settled; [constructor; simpl; done|exact Hnl]).
    + intros id _ _. destruct Hs1 as [-> | ->]; apply (Hnl id).
  - assert (Hr1 : resting s1) by (destruct Hs1 as [-> | ->]; constructor; simpl in *; try done; congruence).
    destruct (Pump_ok s1 Hi1 Hr1) as ([Hi2 _] & Hset & Hdl). split_and!; [done|done|].
    intros id Hk Hle. apply Hdl; destruct Hs1 as [-> | ->]; done.
Qed.

Lemma act_settled a s : inv s → settled s → inv (act a s).1 ∧ settled (act a s).1.
Proof.
  intros Hi [Hr Hc]. destruct (act_ok a s Hi) as [Hi1 Hre]. split; [done|].
  pose proof (rely_evol _ _ Hre) as He. constructor; [by eapply resting_evol|].
  intros id Hl. destruct (re_new _ _ Hre _ Hl) as [Hl0|[? _]]; [|by left].
  pose proof Hl0 as (o & Ho & _). rewrite (evol_deadline _ _ _ He) by eauto.
  pose proof (re_view _ _ Hre) as Hv. unfold io_view in Hv.
  injection Hv as _ _ _ _ _ _ _ _ _ _ _ _ _ -> _ _ _ _.
  destruct (Hc _ Hl0) as [Hw|]; [left; by apply (re_wake _ _ Hre)|by right].
Qed.

Lemma step_ok e s : inv s → settled s → inv (step e s) ∧ settled (step e s).
Proof.
  intros Hi Hs. unfold step. destruct (enabled e s); [|done]. destruct e as [deadline|source r w b|a]; simpl.
  - destruct (IoDispatch_ok deadline s Hi Hs) as (? & ? & _). done.
  - rewrite c_bind. destruct (Ready_ok r w b s Hi (se_resting _ Hs)) as [[Hi1 _] Hs1].
    destruct (Ready r w b s) as [s1 [|]]; cbn [fst snd] in *; [done|].
    destruct source; (split; [by apply (inv_ext s1)|by apply (settled_ext s1)]).
  - by apply act_settled.
Qed.

Lemma connected_ok n : inv (connected n) ∧ settled (connected n).
Proof.
  split.
  - constructor.
    + constructor; simpl; try done; try set_solver; try lia; try (split; [apply NoDup_nil_2|set_solver]).
      vm_compute. lia.
    + constructor; simpl; try done; try set_solver; try by left.
    + constructor; try done. cbn [cache_ connected]. rewrite map_size_empty. lia.
  - constructor; [by constructor|]. intros id (o & Ho & _). done.
Qed.

Lemma run_ok events s : inv s → settled s → inv (run events s) ∧ settled (run events s).
Proof.
  revert s. induction events as [|e events IH]; intros s Hi Hs; [done|]. simpl.
  destruct (step_ok e s Hi Hs). by apply IH.
Qed.
End evolution.
