(* ===== verification/ClientSpec.v ===== *)
(** * What a client handle promises

    The theorems on every run of a handle from its connection on, under any
    interleaving of the application's threads with the I/O thread, any replies
    and any behaviour of the socket. *)
From S2P Require Import Prelude Strings Platform Message Wire Packing ClientState Client ClientInv.
From S2P Require Import ClientIo.
From Stdlib Require Import Ascii.

(** ** Cache keys *)

Lemma CacheKey_pack m : CacheKey m = pack_items (filter (λ f : string * string, cache_ignored f.1 = false) (items m)).
Proof.
  unfold CacheKey. induction (items m) as [|f l IH]; [done|]. simpl. rewrite filter_cons.
  destruct (cache_ignored f.1) eqn:Hf; simpl; rewrite IH; [done|].
  unfold key_part, pack_item, Append. by rewrite !app_assoc_s.
Qed.

(** Two requests with the same key agree on every field but the identifiers
    and the deadline of the request. *)
Lemma CacheKey_inj m1 m2 k :
  CacheKey m1 = CacheKey m2 → cache_ignored k = false → m1 !! k = m2 !! k.
Proof.
  assert (Hin : ∀ (m : Message) v, (k, v) ∈ filter (λ f : string * string, cache_ignored f.1 = false) (items m) ↔
    cache_ignored k = false ∧ m !! k = Some v)
    by (intros; by rewrite list_elem_of_filter, elem_of_items).
  rewrite !CacheKey_pack. intros Heq%pack_items_inj Hk. apply option_eq. intros v.
  pose proof (Hin m1 v). pose proof (Hin m2 v). rewrite Heq in *. tauto.
Qed.


(** ** The loops never run out of fuel *)

Section fuel.
Context `{Platform} `{Parcel} `{ClientEnv}.

Lemma c_fst {A B} (m : C A) (k : A → C B) s : ((m ≫= k) s).1 = (k (m s).2 (m s).1).1.
Proof. by rewrite c_bind. Qed.

Lemma cache_lookup_io_view message s : io_view (cache_lookup message s).1 = io_view s.
Proof.
  unfold cache_lookup. c_run. destruct (_ && _); [|done]. destruct (_ !! _); [|done]. c_run.
  by destruct (_ >? _).
Qed.

Lemma Admit_view message timeout asynchronous callback s :
  io_view (Admit message timeout asynchronous callback s).1 = io_view s.
Proof.
  unfold Admit. c_run. destruct (negb _); [done|]. rewrite c_fst.
  etrans; [|apply (cache_lookup_io_view message (set_tick (S (tick s)) s))].
  destruct (cache_lookup _ _) as [s1 cached]. simpl. c_run.
  by destruct asynchronous, cached.
Qed.

Lemma each_view {A} (l : list A) body s :
  (∀ x s, io_view (body x s).1 = io_view s) → io_view (each l body s).1 = io_view s.
Proof.
  intros Hb. induction l as [|x l IH] in s |- *; [done|]. simpl. rewrite c_fst, IH. apply Hb.
Qed.

Lemma act_view a s : io_view (act a s).1 = io_view s.
Proof.
  destruct a; simpl.
  - rewrite c_fst. unfold Submit. case_match; [done|]. apply Admit_view.
  - rewrite c_fst. unfold Call. case_match; [done|]. case_match; [done|].
    rewrite c_fst, <- (Admit_view message timeout false None s).
    destruct (Admit _ _ _ _ s) as [s1 r]. simpl. by destruct (_ =? _).
  - unfold Resume, call_return. c_run. case_match; [done|]. c_run. case_match; [done|]. c_run.
    by case_match.
  - unfold Hello. c_run. by case_match.
  - unfold Dispatch. c_run. case_match; [done|]. c_run. by case_match.
  - rewrite c_fst. unfold detach_section. case_match; [done|]. c_run. case_match; [done|]. c_run. by case_match.
  - done.
  - unfold Release. c_run. by case_match.
  - rewrite c_fst. unfold close_section. case_match; [done|]. c_run. case_match; [done|]. c_run.
    rewrite c_fst. by rewrite <- (each_view (operation_ids s) (λ id, updO id close_operation)
      (set_closed_ true (set_cache_ ∅ s))).
  - c_run. by case_match.
Qed.

Lemma lock_view s : io_view (lock s).1 = io_view s.
Proof. unfold lock. rewrite c_read. apply (each_view _ _ (set_tick (S (tick s)) s)), act_view. Qed.

(** A queue whose front frame may be sent in part. *)
Definition queue_ok (l : list Output) : Prop :=
  Forall (λ u, 0 ≤ u.(o_offset) < size u.(o_frame)) l.

Lemma output_size_nonneg l : queue_ok l → 0 ≤ output_size l.
Proof. induction 1; simpl; lia. Qed.

Lemma write_loop_fuel fuel s `{!ClientLaws} :
  queue_ok s.(output_) → output_size s.(output_) < Z.of_nat fuel →
  write_loop fuel s = write_loop (S fuel) s.
Proof.
  revert s. induction fuel as [|fuel IH]; intros s Hq Hf.
  { pose proof (output_size_nonneg _ Hq). lia. }
  cbn [write_loop]. c_run. destruct (output_ s) as [|u rest] eqn:Hout; [done|].
  apply Forall_cons in Hq as [Hu Hq]. simpl in Hf. rewrite !c_bind.
  assert (Hout1 : (lock s).1.(output_) = u :: rest).
  { pose proof (lock_view s) as Hv. unfold io_view in Hv. congruence. }
  set (s1 := (lock s).1) in *. clearbody s1. c_run. destruct (_ && _) eqn:Hdrop.
  - apply andb_true_iff in Hdrop as [Hz%Z.eqb_eq _]. c_run. apply IH; [done|]. simpl. lia.
  - c_run. destruct (cl_write _ _) as [| |n] eqn:Hw; [done..|]. destruct (Z.leb_spec n 0); [done|]. c_run.
    apply write_bound in Hw. assert (n ≤ size u.(o_frame) - u.(o_offset)).
    { unfold size in *. rewrite length_drop_str in Hw. lia. }
    unfold wrote. destruct (Z.eqb_spec (u.(o_offset) + n) (size u.(o_frame))); apply IH; simpl; try done; try lia.
    apply Forall_cons. split; [simpl; lia|done].
Qed.

Lemma view_input s s' : io_view s' = io_view s → s'.(input_) = s.(input_).
Proof. unfold io_view. congruence. Qed.

Lemma Complete_input id status result s : (Complete id status result s).1.(input_) = s.(input_).
Proof.
  unfold Complete. rewrite c_fst. rewrite <- (view_input _ _ (lock_view s)).
  generalize (lock s).1. intros s1. c_run. case_match; [done|]. c_run. case_match; [done|]. by case_match.
Qed.

Lemma synchronize_input message s : (synchronize message s).1.(input_) = s.(input_).
Proof.
  rewrite synchronize_rest. unfold sync_rest. destruct (eqs _ "1"); simpl; (case_match; [done|]); by case_match.
Qed.

Lemma remember_input id status message s : (remember id status message s).1.(input_) = s.(input_).
Proof.
  unfold remember. c_run. case_match; [done|]. c_run. case_match; [done|]. rewrite c_fst.
  set (s0 := set_tick _ s). change s.(input_) with s0.(input_). rewrite <- (view_input _ _ (lock_view s0)).
  generalize (lock s0).1. intros s1. c_run. case_match; [done|]. c_run. by case_match.
Qed.

Lemma Receive_input message s : (Receive message s).1.(input_) = s.(input_).
Proof.
  unfold Receive. case_match; [done|]. case_match.
  { rewrite c_fst. unfold Invalidate. rewrite c_fst, <- (view_input _ _ (lock_view s)).
    generalize (lock s).1. intros s1. by case_match. }
  c_run. case_match; [|done]. c_run. case_match; [|done]. case_match; [done|]. rewrite c_fst.
  set (s0 := set_heap _ _). change s.(input_) with s0.(input_). rewrite <- (view_input _ _ (lock_view s0)).
  generalize (lock s0).1. intros s1. c_run. rewrite c_fst. set (s2 := set_heap _ s1).
  change s1.(input_) with s2.(input_). rewrite <- (synchronize_input message s2).
  generalize (synchronize message s2).1. intros s3. c_run. case_match.
  - c_run. by case_match.
  - rewrite !c_fst. cbn [fst mret C_ret]. by rewrite Complete_input, remember_input.
Qed.

Lemma frame_size_nonneg s : 0 ≤ frame_size s.
Proof.
  unfold frame_size, FrameSize, u32, ascii_Z. do 4 (destruct s as [|? s]; [done|]).
  rewrite !Z.lor_nonneg. split_and!; try (apply Z.mod_pos_bound; lia). lia.
Qed.

Lemma frames_loop_fuel fuel s :
  size s.(input_) < Z.of_nat fuel → frames_loop fuel s = frames_loop (S fuel) s.
Proof.
  revert s. induction fuel as [|fuel IH]; intros s Hf; [pose proof (size_nonneg s.(input_)); lia|].
  cbn [frames_loop]. c_run. destruct (Z.ltb_spec (size s.(input_)) 4); [done|].
  destruct (_ || _) eqn:Hbad; [done|]. apply orb_false_iff in Hbad as [Hz%Z.eqb_neq _].
  destruct (Z.ltb_spec (size s.(input_)) (frame_size s.(input_) + 4)); [done|].
  destruct (Decode _) as [message|]; [|done]. rewrite !c_bind.
  pose proof (Receive_input message s) as Hin. destruct (Receive message s) as [s1 [|]]; [|done].
  cbn [fst snd negb] in *. c_run. apply IH. simpl. rewrite Hin. unfold size in *. rewrite length_drop_str.
  pose proof (frame_size_nonneg s.(input_)). lia.
Qed.

Lemma read_loop_fuel fuel received s `{!ClientLaws} :
  kMaxFrameSize ≤ received + Z.of_nat fuel → read_loop (S fuel) received s = read_loop (S (S fuel)) received s.
Proof.
  revert received s. induction fuel as [|fuel IH]; intros received s Hf.
  - cbn [read_loop]. c_run. destruct (cl_read (tick s)) as [| | |bytes] eqn:Hr; [done..|].
    apply read_bound in Hr. c_run. rewrite !c_bind. case_match; [done|]. c_run. rewrite !c_bind.
    by replace (received + size bytes >=? kMaxFrameSize) with true by lia.
  - remember (S fuel) as k eqn:Hk. cbn [read_loop]. c_run.
    destruct (cl_read (tick s)) as [| | |bytes] eqn:Hr; [done..|]. apply read_bound in Hr. c_run. rewrite !c_bind.
    case_match; [done|]. c_run. rewrite !c_bind. case_match; [done|]. subst k. apply IH. lia.
Qed.
End fuel.

Section theorems.
Context `{Platform} `{!ErrorLaws} `{Parcel} `{ClientEnv} `{!ClientLaws}.

Lemma reached events n : inv (run events (connected n)) ∧ settled (run events (connected n)).
Proof. destruct (connected_ok n). by apply run_ok. Qed.

(** C16: every operation is answered exactly once.  In every run: no callback
    is invoked twice and no [Call] returns twice; a submitted operation has
    had its callback exactly when it is no longer registered and was neither
    detached nor closed; one that has ended and is still registered has its
    source attached, so its callback is due; a caller of [Call] either waits
    or has been answered; and a closed handle has nothing registered. *)
Theorem client_once events n :
  let s := run events (connected n) in
  NoDup (delivered_ids s) ∧ NoDup (returned_ids s) ∧ (s.(closed_) = true → s.(operations_) = ∅) ∧
  ∀ id o, s.(heap) !! id = Some o →
    if o.(op_asynchronous)
    then (id ∈ delivered_ids s ↔ id ∉ s.(operations_) ∧ o.(op_detached) = false) ∧
         (id ∈ s.(operations_) → o.(op_done) = true → id ∈ s.(attached))
    else (id ∈ s.(waiting) ∧ id ∉ returned_ids s) ∨ (id ∉ s.(waiting) ∧ id ∈ returned_ids s).
Proof.
  destruct (reached events n) as [[Hi _ _] _]. intros s. fold s in Hi. split_and!; [apply Hi..|].
  intros id o Ho. pose proof (io_ops _ Hi _ _ Ho) as []. destruct (op_asynchronous o) eqn:Has.
  - split; [split|].
    + intros Hin. destruct (proj2 (io_delivered _ Hi) _ Hin) as (? & x & Hx & ? & ? & ? & ?).
      split; [done|]. congruence.
    + intros [? ?]. auto.
    + intros Hin Hd. by destruct (oo_pending Hin) as (_ & _ & _ & ?); auto.
  - destruct (oo_sync eq_refl) as (_ & _ & [Hw|Hr]).
    + left. split; [done|]. by destruct (io_waiting _ Hi _ Hw).
    + right. split; [|done]. intros Hw. by destruct (io_waiting _ Hi _ Hw).
Qed.


(** C19: the handle stays within its limits.  In every run at most 64
    operations are registered, the output queue holds whole encoded messages
    of at most 262144 bytes and [output_bytes_] is exactly what of them is not
    sent, only the first of them is sent in part, and the cache has at most 64
    entries. *)
Theorem client_limits events n :
  let s := run events (connected n) in
  Z.of_nat (base.size s.(operations_)) ≤ kMaxPending ∧
  s.(output_bytes_) = output_size s.(output_) ∧ s.(output_bytes_) ≤ kMaxOutputBytes ∧
  Forall (λ u, 0 ≤ u.(o_offset) < size u.(o_frame) ∧ ∃ m, Encode m = Some u.(o_frame)) s.(output_) ∧
  Forall (λ u, u.(o_offset) = 0) (tail s.(output_)) ∧ (base.size s.(cache_) ≤ 64)%nat.
Proof.
  destruct (reached events n) as [[Hi Hu Hc] _]. intros s. destruct Hu. pose proof (io_bound _ Hi).
  split_and!; try apply iu_bytes; [unfold kMaxPending, s; lia| |done|apply Hc].
  eapply Forall_impl; [exact iu_queue|]. by intros u [].
Qed.

(** The answer of the cache for [message]: the reply to a message that this
    handle has sent for the operation [id]. *)
Record remembered (s : State) (message result : Message) (id : Z) (o : Operation) (reply : Message) : Prop :=
  mk_remembered {
  (* the operation and the reply that came for it *)
  rm_operation : s.(heap) !! id = Some o;
  rm_exchange : ∃ wid sent, s.(exchanged) !! wid = Some (id, sent, Some reply) ∧
    Get reply "id" = wid ∧ sent_for o.(op_message) wid sent;
  (* the request is the same but for its identifiers and its deadline *)
  rm_same : ∀ k, k ∉ ["id"; "client_request_id"; "operation_id"; "deadline_ms"] →
    message !! k = o.(op_message) !! k;
  rm_request : Get message "method" = "request" ∧ message !! "approval_version" = None;
  (* the daemon allowed it and said that the decision may be cached *)
  rm_allowed : ParseNumber (Get reply "status") = Some 0 ∧ Get reply "decision" = "ALLOWED" ∧
    Get reply "cacheable" = "1";
  rm_session : Get message "session" = "" ∨
    Get reply "session" = Get message "session" ∧ Get message "generation" ≠ "" ∧
    Get reply "generation" = Get message "generation";
  (* it is current *)
  rm_synced : s.(synced_) = true ∧ s.(profile_authority_) = false ∧
    Get reply "epoch" = s.(epoch_) ∧ MsgNumber reply "revision" (-1) = s.(revision_);
  rm_lifetime : cl_time s.(tick) < o.(op_admitted) + Z.min 1000 (MsgNumber reply "cache_ttl_ms" 0) * 1000;
  (* and it is handed out as it came, marked as cached *)
  rm_result : ∀ k, result !! k =
    if decide (k = "id" ∨ k = "request_id") then None
    else if decide (k = "source") then Some "CACHE" else reply !! k;
}.

Lemma cache_ignored_false k :
  k ∉ ["id"; "client_request_id"; "operation_id"; "deadline_ms"] → cache_ignored k = false.
Proof.
  intros Hk. unfold cache_ignored. repeat (apply orb_false_iff; split); apply eqs_false; intros ->; apply Hk; set_solver.
Qed.

Lemma cached_result (reply : Message) k :
  (delete "id" (delete "request_id" (<["source" := "CACHE"]> reply)) : Message) !! k =
    if decide (k = "id" ∨ k = "request_id") then None
    else if decide (k = "source") then Some "CACHE" else reply !! k.
Proof.
  destruct (decide (k = "id" ∨ k = "request_id")) as [[-> | ->]|Hk].
  - by rewrite lookup_delete_eq.
  - by rewrite lookup_delete_ne, lookup_delete_eq.
  - rewrite !lookup_delete_ne by naive_solver.
    destruct (decide (k = "source")) as [-> |Hs]; [by rewrite lookup_insert_eq|by rewrite lookup_insert_ne].
Qed.

(** C15: the cache only repeats current approvals.  In every run, a request
    that is answered from the cache agrees in every field but [id],
    [client_request_id], [operation_id] and [deadline_ms] with an earlier
    request of this handle; a message sent for that request was answered, the
    reply having come with its wire id, with status 0, decision ALLOWED and
    the permission to cache it, within its session if it has one; the answer
    was given under the epoch and the revision the handle is synchronized
    with, no profile authority is active, and less than the lifetime the
    daemon reported, at most one second, has passed since that request was
    admitted; and the answer is that reply, marked as cached and without its
    identifiers. *)
Theorem client_cache events n message s' result :
  let s := run events (connected n) in
  cache_lookup message s = (s', Some result) →
  ∃ id o reply, remembered s message result id o reply.
Proof.
  destruct (reached events n) as [[_ Hu Hc] _]. intros s. fold s in Hu, Hc. unfold cache_lookup. c_run.
  destruct (_ && _) eqn:Hb; [|done]. destruct (cache_ s !! CacheKey message) as [e|] eqn:He; [|done].
  c_run. destruct (_ >? _) eqn:Hexp; [|done]. c_run. intros [= <- <-]. bool_hyps.
  destruct (ic_entries _ Hc _ _ He) as (id & o & Ho & [Hkey Hrep Hst [sent Hx] Hac [Hep Hrv] Hex]).
  exists id, o, e.(ce_result). apply Z.gtb_lt in Hexp.
  assert (Hsame : ∀ k, k ∉ ["id"; "client_request_id"; "operation_id"; "deadline_ms"] →
    message !! k = o.(op_message) !! k) by (intros k Hk; by apply CacheKey_inj, cache_ignored_false).
  assert (Hget : ∀ k, k ∉ ["id"; "client_request_id"; "operation_id"; "deadline_ms"] →
    Get o.(op_message) k = Get message k) by (intros k Hk; unfold Get, GetOr; by rewrite Hsame).
  unfold cacheable in Hrep. bool_hyps. str_hyps. rewrite !Hget in * by set_solver.
  constructor; try done; try lia.
  - destruct (iu_sent _ Hu _ _ _ _ Hx) as [(x & Hx' & Hs) _]. replace x with o in * by congruence. eauto.
  - split; [done|]. unfold has in H5. apply bool_decide_eq_false in H5. by apply eq_None_not_Some.
  - apply orb_true_iff in H9 as [Hn|Hn]; [left; by apply empty_true|right]. bool_hyps. str_hyps.
    done.
  - apply cached_result.
Qed.

(** C18: no operation outlives its deadline unnoticed.  In every run, while an
    operation has neither ended nor been detached, the I/O thread runs and is
    not stopping, and it is either about to wake up or its deadline source is
    armed no later than the deadline of the operation; and when a source of
    it runs at or after the deadline, the operation has ended afterwards. *)
Theorem client_deadlines events n id :
  let s := run events (connected n) in
  live s id →
  s.(running) = true ∧ s.(stopping_) = false ∧
  (s.(wake) = true ∨ 0 ≤ s.(deadline_at) ≤ deadline_of s id) ∧
  ∀ deadline, enabled (EvDispatch deadline) s = true → deadline_of s id ≤ cl_time s.(tick) →
    ¬ live (step (EvDispatch deadline) s) id.
Proof.
  destruct (reached events n) as [Hi Hset]. intros s Hl. fold s in Hi, Hset.
  pose proof Hset as [[Hd Hs Hr] Hc].
  assert (Hnd : disconnected_ s ≠ true) by (intros Hx; by apply (Hd Hx id)).
  assert (Hnc : closed_ s ≠ true) by (intros Hx; by apply (closed_no_live s id)).
  split_and!; [apply not_false_is_true; tauto|apply not_true_is_false; tauto|by apply Hc|].
  intros deadline Hen Hle. pose proof Hl as (o & Ho & _). unfold step. rewrite Hen.
  destruct (IoDispatch_ok deadline s Hi Hset) as (_ & _ & Hdl). apply Hdl; [by exists o|done].
Qed.
End theorems.
