(* ===== verification/ClientWitnesses.v ===== *)
(** * A concrete client handle

    An application submits a request that the daemon allows, receives its
    callback, and calls for a second request that the daemon keeps pending
    until the call times out.  The theorems of [ClientSpec] are applied to
    states of this run. *)
From S2P Require Import Prelude Strings Platform Message Wire ClientState Client ClientInv ClientIo.
From S2P Require Import ClientSpec.

#[export] Existing Instance reference_platform.
#[export] Existing Instance reference_parcel.

(** ** Messages *)

Definition camera_request : Message :=
  list_to_map [("method", "request"); ("definition", "camera"); ("subject", "alice");
               ("client_request_id", "r1")].

Definition contacts_request : Message :=
  list_to_map [("method", "request"); ("definition", "contacts"); ("subject", "alice")].

Definition allowed_reply : Message :=
  list_to_map [("v", "1"); ("method", "reply"); ("id", "1"); ("status", "0"); ("decision", "ALLOWED");
               ("cacheable", "1"); ("cache_ttl_ms", "900"); ("epoch", "e1"); ("revision", "4")].

Definition pending_reply : Message :=
  list_to_map [("v", "1"); ("method", "reply"); ("id", "2"); ("status", "0"); ("decision", "PENDING");
               ("request_id", "q7"); ("epoch", "e1"); ("revision", "4")].

Definition client_frame (m : Message) : string := default "" (Encode m).

(** ** The environment *)

(** The socket has the first reply at instant 7 and the second at instant 23;
    a long pause follows instant 28. *)
#[export] Instance client_env : ClientEnv := {|
  cl_time n := if (n <? 29)%nat then 1000 + Z.of_nat n else 1000000 + Z.of_nat n;
  cl_admitted n := 1000;
  cl_read n :=
    if (n =? 7)%nat then ReadBytes (client_frame allowed_reply)
    else if (n =? 23)%nat then ReadBytes (client_frame pending_reply) else ReadBlocked;
  cl_write n bytes := Wrote (size bytes);
  cl_others n := [];
|}.

Definition submit : list event := [EvOther (ASubmit true true camera_request (Some 77) true)].
Definition sent : list event := submit ++ [EvDispatch false].
Definition answered : list event := sent ++ [EvReady false true false false].
Definition delivered_run : list event := answered ++ [EvOther (ADispatch 1)].
Definition called : list event :=
  delivered_run ++ [EvOther (ACall true true false contacts_request 100); EvDispatch false].
Definition pending : list event := called ++ [EvReady false true false false].

Lemma reply_sizes :
  1 ≤ size (client_frame allowed_reply) ≤ 8192 ∧ 1 ≤ size (client_frame pending_reply) ≤ 8192.
Proof. vm_compute. split_and!; discriminate. Qed.

#[export] Instance client_env_laws : ClientLaws.
Proof.
  constructor; cbn [cl_time cl_admitted cl_read cl_write client_env].
  - intros n m Hnm. destruct (Nat.ltb_spec n 29), (Nat.ltb_spec m 29); lia.
  - intros n. destruct (_ <? _)%nat; lia.
  - intros n. destruct (_ <? _)%nat; lia.
  - destruct reply_sizes as [Ha Hp]. revert Ha Hp. generalize (client_frame allowed_reply).
    generalize (client_frame pending_reply). intros b a Ha Hp n bytes.
    destruct (_ =? _)%nat; [|destruct (_ =? _)%nat; [|done]]; by intros [= <-].
  - by intros n bytes k [= <-].
Qed.

#[export] Instance reference_errors : ErrorLaws.
Proof. constructor. done. Qed.

(** ** The theorems at this run *)

(** The same request again is answered from the cache. *)
Definition cache_again : Message := <["client_request_id" := "r2"]> camera_request.

Lemma client_cache_witness :
  let s := run delivered_run (connected 0) in
  (∃ s' result, cache_lookup cache_again s = (s', Some result)) ∧
  ∃ result id o reply, remembered s cache_again result id o reply ∧ Get reply "decision" = "ALLOWED".
Proof.
  intros s.
  assert (Hc : is_Some (cache_lookup cache_again (run delivered_run (connected 0))).2)
    by (vm_compute; eexists; reflexivity).
  destruct Hc as [result Hc].
  assert (He : cache_lookup cache_again (run delivered_run (connected 0)) =
               ((cache_lookup cache_again (run delivered_run (connected 0))).1, Some result))
    by (rewrite <- Hc; apply surjective_pairing).
  split; [eexists _, _; exact He|].
  destruct (client_cache delivered_run 0 cache_again _ result He) as (id & o & reply & Hr).
  exists result, id, o, reply. split; [exact Hr|exact (proj1 (proj2 (rm_allowed _ _ _ _ _ _ Hr)))].
Defined.


Lemma client_deadlines_witness :
  ¬ live (step (EvDispatch true) (run pending (connected 0))) 2.
Proof.
  assert (Hl : (op_done <$> (run pending (connected 0)).(heap) !! 2) = Some false ∧
    (op_detached <$> (run pending (connected 0)).(heap) !! 2) = Some false)
    by (vm_compute; split; reflexivity).
  assert (Hlive : live (run pending (connected 0)) 2).
  { destruct Hl as [Hd Hdt]. apply fmap_Some in Hd as (o & Ho & Hd). rewrite Ho in Hdt.
    injection Hdt as Hdt. exists o. auto. }
  destruct (client_deadlines pending 0 2 Hlive) as (_ & _ & _ & Hend).
  apply Hend; vm_compute; [reflexivity|discriminate].
Defined.

(** The delivered request has had its one callback. *)
Lemma client_once_witness :
  delivered_ids (run delivered_run (connected 0)) = [1] ∧
  NoDup (delivered_ids (run delivered_run (connected 0))).
Proof.
  split; [vm_compute; reflexivity|].
  exact (proj1 (client_once delivered_run 0)).
Defined.

(** A decision is cached, within the limit. *)
Lemma client_limits_witness :
  base.size (run delivered_run (connected 0)).(cache_) = 1%nat ∧
  (base.size (run delivered_run (connected 0)).(cache_) ≤ 64)%nat.
Proof.
  split; [vm_compute; reflexivity|].
  destruct (client_limits delivered_run 0) as (_ & _ & _ & _ & _ & Hc). exact Hc.
Defined.
