(* ===== verification/Connect.v ===== *)
(** * Opening a client handle (src/consent/client.cc, src/consent/endpoint.hh)

    [Client::Connect] with what it calls: the budget of handles of a process,
    the checks of the socket's path and of the peer behind the connection, and
    the start of the I/O thread.  It ends in the state [connected] from which
    Client starts, with the call of [hello] admitted.

    The answers of the kernel and of GLib are the class [Endpoint].  The
    counter of handles is one 64-bit word that threads change by
    compare-and-swap; [budget_step] is one turn of one of those loops. *)
From S2P Require Import Prelude Strings Platform Message Wire ClientState Client ClientInv.
From Stdlib Require Import Ascii.

(** ** The budget of handles *)

(** The upper half of the word is the process, the lower half its count. *)
Definition process_mask : Z := 2 ^ 64 - 2 ^ 32.

Definition process_tag (pid : Z) : Z := u64 (Z.shiftl (u64 pid) 32).

Inductive turn := Again (observed : Z) | Finished (result : bool).

(** [compare_exchange_weak(observed, desired)], which may fail without a
    reason; on failure the loop goes on with the current word. *)
Definition exchange (spurious : bool) (observed desired word : Z) : Z * turn :=
  if (word =? observed) && negb spurious then (desired, Finished true) else (word, Again word).

Definition counted_handles (pid observed : Z) : Z :=
  if Z.land observed process_mask =? process_tag pid then u32 observed else 0.

(** One turn of the loop of [ReserveClient]. *)
Definition ReserveClient (pid : Z) (spurious : bool) (observed word : Z) : Z * turn :=
  let count := counted_handles pid observed in
  if count >=? 16 then (word, Finished false)
  else exchange spurious observed (Z.lor (process_tag pid) (u32 (count + 1))) word.

(** One turn of the loop of [ReleaseClient], in the process that reserved. *)
Definition ReleaseClient (pid : Z) (spurious : bool) (observed word : Z) : Z * turn :=
  if (Z.land observed process_mask =? process_tag pid) && (u32 observed >? 0)
  then exchange spurious observed (u64 (observed - 1)) word
  else (word, Finished false).

(** A thread inside one of the two loops. *)
Inductive budget_thread := Reserving (observed : Z) | Releasing (observed : Z).

(** The word, the threads in the loops and the number of handles with
    [counted_]. *)
Record Budget := mkBudget { word : Z; threads : gmap Z budget_thread; counted_ : Z }.

Inductive budget_event :=
| BReserve (thread : Z)
| BRelease (thread : Z)
| BTurn (thread : Z) (spurious : bool).

(** [Connect] reserves; the destructor of a counted handle releases. *)
Definition budget_step (pid : Z) (e : budget_event) (b : Budget) : Budget :=
  match e with
  | BReserve t =>
      match b.(threads) !! t with
      | Some _ => b
      | None => mkBudget b.(word) (<[t := Reserving b.(word)]> b.(threads)) b.(counted_)
      end
  | BRelease t =>
      match b.(threads) !! t with
      | Some _ => b
      | None =>
          if b.(counted_) <=? 0 then b
          else mkBudget b.(word) (<[t := Releasing b.(word)]> b.(threads)) (b.(counted_) - 1)
      end
  | BTurn t spurious =>
      match b.(threads) !! t with
      | None => b
      | Some (Reserving observed) =>
          match ReserveClient pid spurious observed b.(word) with
          | (word', Again observed') =>
              mkBudget word' (<[t := Reserving observed']> b.(threads)) b.(counted_)
          | (word', Finished ok) =>
              mkBudget word' (delete t b.(threads)) (b.(counted_) + if ok then 1 else 0)
          end
      | Some (Releasing observed) =>
          match ReleaseClient pid spurious observed b.(word) with
          | (word', Again observed') =>
              mkBudget word' (<[t := Releasing observed']> b.(threads)) b.(counted_)
          | (word', Finished _) => mkBudget word' (delete t b.(threads)) b.(counted_)
          end
      end
  end.

Definition budget_run (pid : Z) (l : list budget_event) (b : Budget) : Budget :=
  foldl (λ b e, budget_step pid e b) b l.

(** ** The endpoint *)

Definition CONSENT_SOCKET_PATH : string := "/run/.consentd.sock".
Definition CONSENT_SERVER_SMACK_LABEL : string := "System::Privileged".

Definition CONSENT_ERROR_PERMISSION_DENIED : Z := - EACCES.
Definition CONSENT_ERROR_OUT_OF_MEMORY : Z := - ENOMEM.

Definition S_ISSOCK (mode : Z) : bool := Z.land mode 61440 =? 49152.

(** [struct ucred] and [struct sockaddr_un] as far as they are read; the path
    is the whole array of 108 bytes. *)
Record ucred := mkUcred { cred_pid : Z; cred_uid : Z }.
Record sockaddr_un := mkSockaddr { sun_family : Z; sun_path : string }.
Definition AF_UNIX : Z := 1.
Definition sun_path_size : Z := 108.

Inductive connect_result := Connected | ConnectPending | ConnectFailed.

(** What the kernel and GLib answer at each instant. *)
Class Endpoint := {
  ep_lstat : nat → string → stat_result;
  (** [getgrnam_r("system_share", ...)]: its group, if it is found. *)
  ep_system_share : nat → option Z;
  (** [socket] and [g_socket_new_from_fd]. *)
  ep_socket : nat → bool;
  ep_connect : nat → connect_result;
  (** The loop of [IoContext::Wait] ends with the socket ready. *)
  ep_ready : nat → bool;
  ep_check_connect : nat → bool;
  (** [getsockopt] with [SO_PEERCRED] and its full size, [getpeername] with the
      size of the address, [getsockopt] with [SO_PEERSEC]: the bytes of the
      label. *)
  ep_peercred : nat → option ucred;
  ep_peername : nat → option (sockaddr_un * Z);
  ep_peersec : nat → option string;
  (** [g_thread_try_new]. *)
  ep_thread : nat → bool;
}.

(** [EndpointSnapshot]. *)
Record EndpointSnapshot := mkSnapshot { device : Z; inode : Z }.

(** [MatchActivatedPeer], with the label as its [label_size] bytes. *)
Definition MatchActivatedPeer (pid uid : Z) (address : sockaddr_un) (address_size : Z)
    (label expected_path expected_label : string) : bool :=
  if negb (pid =? 1) || negb (uid =? 0) || empty expected_label || empty label ||
     (size expected_path >=? sun_path_size) || negb (address.(sun_family) =? AF_UNIX) ||
     negb (address_size =? 2 + size expected_path + 1) ||
     negb (eqs (take_str (S (String.length expected_path)) address.(sun_path))
               (expected_path +:+ String nul ""))
  then false
  else
    let label := if back_is nul label then take_str (String.length label - 1) label else label in
    negb (has_char nul label) && (size label =? size expected_label) && eqs label expected_label.

(** The directories above the endpoint: the root and every prefix that ends
    before a slash. *)
Definition parent_at (endpoint : string) (end_ : nat) : option string :=
  match end_ with
  | O => Some "/"
  | _ => if bool_decide (String.get end_ endpoint = Some "/"%char)
         then Some (take_str end_ endpoint) else None
  end.

(** A socket of the system. *)
Definition trusted_socket (st : file_stat) : bool :=
  S_ISSOCK st.(st_mode) && (st.(st_uid) =? 0) && (Z.land st.(st_mode) 2 =? 0).

Section connect.
Context `{Platform} `{ClientEnv} `{Endpoint}.

(** The checks of one directory; the group of /run may write to it. *)
Definition trusted_parent (endpoint parent : string) : C bool :=
  r ← read (λ n, ep_lstat n parent);
  match r with
  | StatErrno _ => mret false
  | StatOk info =>
      if negb (S_ISDIR info.(st_mode)) || negb (info.(st_uid) =? 0) ||
         negb (Z.land info.(st_mode) 2 =? 0)
      then mret false
      else if Z.land info.(st_mode) 16 =? 0 then mret true
      else if negb (eqs parent "/run") || negb (eqs endpoint "/run/.consentd.sock") then mret false
      else
        group ← read ep_system_share;
        mret (bool_decide (group = Some info.(st_gid)))
  end.

Fixpoint trusted_parents (endpoint : string) (ends : list nat) : C bool :=
  match ends with
  | [] => mret true
  | end_ :: ends' =>
      match parent_at endpoint end_ with
      | None => trusted_parents endpoint ends'
      | Some parent =>
          ok ← trusted_parent endpoint parent;
          if negb (ok : bool) then mret false else trusted_parents endpoint ends'
      end
  end.

Definition TrustedEndpoint : C (option EndpointSnapshot) :=
  ok ← trusted_parents CONSENT_SOCKET_PATH (seq 0 (String.length CONSENT_SOCKET_PATH));
  if negb (ok : bool) then mret None
  else
    r ← read (λ n, ep_lstat n CONSENT_SOCKET_PATH);
    match r with
    | StatErrno _ => mret None
    | StatOk info =>
        if negb (trusted_socket info) then mret None
        else mret (Some (mkSnapshot info.(st_dev) info.(st_ino)))
    end.

Definition TrustedConnection (snapshot : EndpointSnapshot) : C bool :=
  r ← read (λ n, ep_lstat n CONSENT_SOCKET_PATH);
  match r with
  | StatErrno _ => mret false
  | StatOk info =>
      if negb (trusted_socket info) || negb (info.(st_dev) =? snapshot.(device)) ||
         negb (info.(st_ino) =? snapshot.(inode))
      then mret false
      else
        peer ← read ep_peercred;
        match peer with
        | None => mret false
        | Some peer =>
            address ← read ep_peername;
            match address with
            | None => mret false
            | Some (address, address_size) =>
                label ← read ep_peersec;
                match label with
                | None => mret false
                | Some label =>
                    if empty label || (size label >=? 256) then mret false
                    else mret (MatchActivatedPeer peer.(cred_pid) peer.(cred_uid) address
                                 address_size label CONSENT_SOCKET_PATH CONSENT_SERVER_SMACK_LABEL)
                end
            end
        end
  end.

(** [IoContext::Wait], before the thread is started. *)
Definition Wait : C bool :=
  s ← getS;
  if s.(running) || s.(stopping_) then mret false else read ep_ready.

(** [SocketTransport::Connect]. *)
Definition TransportConnect : C Z :=
  r ← read ep_connect;
  match r with
  | Connected => mret 0
  | ConnectFailed => mret CONSENT_ERROR_DISCONNECTED
  | ConnectPending =>
      ready ← Wait;
      if negb (ready : bool) then mret CONSENT_ERROR_TIMEOUT
      else
        connected ← read ep_check_connect;
        mret (if (connected : bool) then 0 else CONSENT_ERROR_DISCONNECTED)
  end.

Definition ArmRead : C () := modS (set_read_armed true).

(** [IoContext::Start]. *)
Definition Start : C bool :=
  s ← getS;
  if s.(running) then mret false
  else
    started ← read ep_thread;
    (if (started : bool) then modS (set_running true) else mret ());;
    mret started.

Definition hello : Message := <["method" := "hello"]> ∅.

(** [Client::Connect] up to the wait of its call of [hello]: the status, the
    call, and whether the handle is [counted_].  [reserved] is what
    [ReserveClient] returns. *)
Definition Connect (reserved current dispatching : bool) : C (Z * Z * bool) :=
  endpoint ← TrustedEndpoint;
  match endpoint with
  | None => mret (CONSENT_ERROR_PERMISSION_DENIED, 0, false)
  | Some endpoint =>
      if negb reserved then mret (CONSENT_ERROR_BUSY, 0, false)
      else
        adopted ← read ep_socket;
        if negb (adopted : bool) then mret (CONSENT_ERROR_DISCONNECTED, 0, true)
        else
          status ← TransportConnect;
          if negb (status =? 0) then mret (status, 0, true)
          else
            trusted ← TrustedConnection endpoint;
            if negb (trusted : bool) then mret (CONSENT_ERROR_PERMISSION_DENIED, 0, true)
            else
              ArmRead;;
              started ← Start;
              if negb (started : bool) then mret (CONSENT_ERROR_OUT_OF_MEMORY, 0, true)
              else r ← Call current true dispatching hello 2000; mret (r, true)
  end.

(** A handle before [Connect]. *)
Definition created (n : nat) : State := set_running false (set_read_armed false (connected n)).
End connect.

(** ** The word of the budget *)

Definition a_process (pid : Z) : Prop := 0 < pid < 2 ^ 31.

Lemma land_process_mask o : 0 ≤ o < 2 ^ 64 → Z.land o process_mask = o / 2 ^ 32 * 2 ^ 32.
Proof.
  intros Ho. change process_mask with (Z.shiftl (Z.ones 32) 32).
  rewrite <- Z.shiftl_mul_pow2, <- Z.shiftr_div_pow2 by lia. apply Z.bits_inj'. intros n Hn.
  rewrite Z.land_spec, !Z.shiftl_spec by done. destruct (Z.ltb_spec n 32).
  - rewrite !(Z.testbit_neg_r _ (n - 32)) by lia. apply andb_false_r.
  - rewrite Z.shiftr_spec by lia. replace (n - 32 + 32) with n by lia.
    destruct (Z.ltb_spec n 64).
    + rewrite Z.ones_spec_low by lia. apply andb_true_r.
    + rewrite Z.bits_above_log2; [done|lia|]. destruct (Z.eq_dec o 0) as [->|]; [simpl; lia|].
      apply Z.log2_lt_pow2; [lia|]. pose proof (Z.pow_le_mono_r 2 64 n). lia.
Qed.

Lemma process_tag_eq pid : a_process pid → process_tag pid = pid * 2 ^ 32.
Proof.
  unfold a_process. intros. unfold process_tag. rewrite (u64_id pid) by lia.
  rewrite Z.shiftl_mul_pow2 by lia. apply u64_id. lia.
Qed.

Lemma tagged_word pid o : a_process pid → 0 ≤ o < 2 ^ 64 →
  Z.land o process_mask = process_tag pid ↔ o = pid * 2 ^ 32 + u32 o.
Proof.
  intros Hp Ho. rewrite land_process_mask, process_tag_eq by done. unfold u32.
  pose proof (Z.div_mod o (2 ^ 32) ltac:(lia)). lia.
Qed.

Lemma counted_word pid c : a_process pid → 0 ≤ c < 2 ^ 32 → counted_handles pid (pid * 2 ^ 32 + c) = c.
Proof.
  intros Hp Hc. assert (Hu : u32 (pid * 2 ^ 32 + c) = c).
  { unfold u32. rewrite Z.add_comm, Z.mod_add by lia. by apply Z.mod_small. }
  unfold counted_handles. rewrite Hu.
  rewrite (proj2 (Z.eqb_eq _ _)); [done|]. apply tagged_word; [done| |by rewrite Hu].
  unfold a_process in Hp. lia.
Qed.

(** Counting one handle more, and one less. *)
Lemma reserve_word pid o : a_process pid → counted_handles pid o < 16 →
  let c := counted_handles pid o in
  Z.lor (process_tag pid) (u32 (c + 1)) = pid * 2 ^ 32 + (c + 1).
Proof.
  intros Hp Hc c. assert (0 ≤ c).
  { unfold c, counted_handles. case_match; [|lia]. unfold u32. apply Z.mod_pos_bound. lia. }
  rewrite process_tag_eq, u32_id by (done || lia). apply lor_disjoint_add; lia.
Qed.

Lemma release_word pid o : a_process pid → 0 ≤ o < 2 ^ 64 →
  Z.land o process_mask = process_tag pid → 0 < u32 o →
  u64 (o - 1) = pid * 2 ^ 32 + (u32 o - 1) ∧ counted_handles pid o = u32 o ∧ u32 o < 2 ^ 32.
Proof.
  intros Hp Ho Ht Hu. rewrite u64_id by (unfold u32 in Hu; pose proof (Z.mod_le o (2 ^ 32)); lia).
  unfold counted_handles. rewrite Ht, Z.eqb_refl. apply (tagged_word pid o Hp Ho) in Ht.
  assert (u32 o < 2 ^ 32) by (apply Z.mod_pos_bound; lia). split; [|done]. lia.
Qed.

(** ** The invariant of the budget *)

Definition is_releasing (th : budget_thread) : bool :=
  match th with Releasing _ => true | Reserving _ => false end.

Definition releasing (m : gmap Z budget_thread) : Z :=
  Z.of_nat (base.size (filter (λ e : Z * budget_thread, is_releasing e.2 = true) m)).

Lemma releasing_delete t th m : m !! t = Some th →
  releasing (delete t m) = releasing m - if is_releasing th then 1 else 0.
Proof.
  intros Ht. unfold releasing. rewrite map_filter_delete. destruct (is_releasing th) eqn:Hr.
  - assert (Hf : filter (λ e : Z * budget_thread, is_releasing e.2 = true) m !! t = Some th)
      by (by apply map_lookup_filter_Some_2).
    rewrite map_size_delete, Hf. assert (base.size (filter (λ e : Z * budget_thread,
      is_releasing e.2 = true) m) ≠ 0%nat) by (eapply map_size_ne_0_lookup_2; by eexists).
    lia.
  - rewrite delete_id; [lia|]. apply map_lookup_filter_None. right. intros x Hx.
    simplify_eq/=. by rewrite Hr.
Qed.

Lemma releasing_insert t th m : m !! t = None →
  releasing (<[t := th]> m) = releasing m + if is_releasing th then 1 else 0.
Proof.
  intros Ht. pose proof (releasing_delete t th (<[t := th]> m) (lookup_insert_eq _ _ _)) as Hd.
  rewrite delete_insert_id in Hd by done. lia.
Qed.

Lemma releasing_turn t th th' m : m !! t = Some th → is_releasing th' = is_releasing th →
  releasing (<[t := th']> m) = releasing m.
Proof.
  intros Ht Hr. rewrite <- insert_delete_eq, releasing_insert by apply lookup_delete_eq.
  rewrite (releasing_delete t th) by done. rewrite Hr. lia.
Qed.

(** What a thread saw of the word. *)
Definition saw (pid : Z) (th : budget_thread) : Prop :=
  match th with
  | Reserving o => 0 ≤ o < 2 ^ 64
  | Releasing o => 0 ≤ o < 2 ^ 64 ∧ Z.land o process_mask = process_tag pid ∧ 0 < u32 o
  end.

Record budget_ok (pid : Z) (b : Budget) : Prop := mk_budget_ok {
  bo_counted : 0 ≤ b.(counted_);
  bo_exact : counted_handles pid b.(word) = b.(counted_) + releasing b.(threads);
  bo_limit : counted_handles pid b.(word) ≤ 16;
  bo_word : 0 ≤ b.(word) < 2 ^ 64;
  bo_threads : ∀ t th, b.(threads) !! t = Some th → saw pid th;
}.

Lemma releasing_nonneg m : 0 ≤ releasing m.
Proof. unfold releasing. lia. Qed.

(** A word that counts a handle is one of this process. *)
Lemma counted_saw pid o : 0 ≤ o < 2 ^ 64 → 0 < counted_handles pid o → saw pid (Releasing o).
Proof. unfold counted_handles. intros Ho. case_match eqn:E; [|lia]. by apply Z.eqb_eq in E. Qed.

Lemma saw_delete pid t (m : gmap Z budget_thread) :
  (∀ t th, m !! t = Some th → saw pid th) → ∀ t' th, delete t m !! t' = Some th → saw pid th.
Proof. intros Hm t' th Ht. apply lookup_delete_Some in Ht as [_ Ht]. by eapply Hm. Qed.

Lemma saw_insert pid t th (m : gmap Z budget_thread) :
  saw pid th → (∀ t th, m !! t = Some th → saw pid th) →
  ∀ t' th', <[t := th]> m !! t' = Some th' → saw pid th'.
Proof. intros Hs Hm t' th' Ht. apply lookup_insert_Some in Ht as [[_ <-]|[_ ?]]; [done|]. by eapply Hm. Qed.

Lemma ReserveClient_ok pid spurious t o b word' r :
  a_process pid → budget_ok pid b → b.(threads) !! t = Some (Reserving o) →
  ReserveClient pid spurious o b.(word) = (word', r) →
  match r with
  | Again o' => word' = b.(word) ∧ o' = b.(word)
  | Finished false => word' = b.(word) ∧ 16 ≤ counted_handles pid o
  | Finished true => word' = pid * 2 ^ 32 + (counted_handles pid b.(word) + 1) ∧
                     counted_handles pid b.(word) < 16
  end.
Proof.
  intros Hp [] Ht. unfold ReserveClient, exchange. rewrite Z.geb_leb.
  destruct (Z.leb_spec 16 (counted_handles pid o)) as [Hge|Hlt]; [by intros [= <- <-]|].
  destruct (Z.eqb_spec b.(word) o) as [<-|]; simpl; [|by intros [= <- <-]].
  destruct spurious; intros [= <- <-]; [done|]. split; [by apply reserve_word|done].
Qed.

Lemma ReleaseClient_ok pid spurious t o b word' r :
  a_process pid → budget_ok pid b → b.(threads) !! t = Some (Releasing o) →
  ReleaseClient pid spurious o b.(word) = (word', r) →
  match r with
  | Again o' => word' = b.(word) ∧ o' = b.(word)
  | Finished ok => ok = true ∧ word' = pid * 2 ^ 32 + (counted_handles pid b.(word) - 1)
  end.
Proof.
  intros Hp [_ _ _ _ Hth] Ht. destruct (Hth _ _ Ht) as (Ho & Htag & Hu). unfold ReleaseClient, exchange.
  rewrite Htag, Z.eqb_refl. destruct (Z.gtb_spec (u32 o) 0); [simpl|lia].
  destruct (Z.eqb_spec b.(word) o) as [<-|]; simpl; [|by intros [= <- <-]].
  destruct spurious; intros [= <- <-]; [done|].
  destruct (release_word pid b.(word) Hp Ho Htag Hu) as (-> & -> & _). done.
Qed.

(** The thread's entry makes the word count at least one handle. *)
Lemma releasing_positive pid t o b :
  budget_ok pid b → b.(threads) !! t = Some (Releasing o) → 0 < counted_handles pid b.(word).
Proof.
  intros [] Ht. pose proof (releasing_nonneg (delete t b.(threads))).
  rewrite (releasing_delete _ _ _ Ht) in *. simpl in *. lia.
Qed.

Lemma budget_step_ok pid e b : a_process pid → budget_ok pid b → budget_ok pid (budget_step pid e b).
Proof.
  intros Hp Hb. pose proof Hb as [H1 H2 H3 H4 H5]. destruct e as [t|t|t spurious]; simpl.
  - destruct (threads b !! t) eqn:Ht; [done|]. constructor; simpl; try done.
    + rewrite releasing_insert by done. simpl. lia.
    + by apply saw_insert.
  - destruct (threads b !! t) eqn:Ht; [done|]. destruct (Z.leb_spec (counted_ b) 0); [done|].
    pose proof (releasing_nonneg b.(threads)). constructor; simpl; [lia| |done|done|].
    + rewrite releasing_insert by done. simpl. lia.
    + apply saw_insert; [|done]. apply counted_saw; [done|lia].
  - destruct (threads b !! t) as [[o|o]|] eqn:Ht; [| |done].
    + destruct (ReserveClient _ _ _ _) as [word' [o'|[]]] eqn:Hr;
        apply (ReserveClient_ok pid spurious t o b) in Hr; try done; destruct Hr as [-> Hr].
      * subst o'. constructor; simpl; try done.
        -- by rewrite (releasing_turn t (Reserving o)).
        -- by apply saw_insert.
      * pose proof (releasing_nonneg b.(threads)). unfold a_process in Hp.
        constructor; simpl; rewrite ?counted_word by (done || lia); try lia.
        -- rewrite (releasing_delete t (Reserving o)) by done. simpl. lia.
        -- by apply saw_delete.
      * constructor; simpl; try done; [lia| |by apply saw_delete].
        rewrite (releasing_delete t (Reserving o)) by done. simpl. lia.
    + pose proof (releasing_positive _ _ _ _ Hb Ht).
      destruct (ReleaseClient _ _ _ _) as [word' [o'|ok]] eqn:Hr;
        apply (ReleaseClient_ok pid spurious t o b) in Hr; try done; destruct Hr as [-> Hr].
      * subst o'. constructor; simpl; try done.
        -- by rewrite (releasing_turn t (Releasing o)).
        -- apply saw_insert; [by apply counted_saw|done].
      * subst. pose proof (releasing_nonneg b.(threads)). unfold a_process in Hp.
        constructor; simpl; rewrite ?counted_word by (done || lia); try lia; try done.
        -- rewrite (releasing_delete t (Releasing o)) by done. simpl. lia.
        -- by apply saw_delete.
Qed.

(** The word a process starts with: nothing of its own is counted in it.  It
    is 0 or, after a fork, the parent's. *)
Definition budget_start (pid w : Z) : Prop := 0 ≤ w < 2 ^ 64 ∧ Z.land w process_mask ≠ process_tag pid.

Lemma budget_start_ok pid w : budget_start pid w → budget_ok pid (mkBudget w ∅ 0).
Proof.
  intros [Hw Ht]. assert (counted_handles pid w = 0).
  { unfold counted_handles. by rewrite (proj2 (Z.eqb_neq _ _)). }
  constructor; simpl; rewrite ?H; try done; lia.
Qed.

Lemma budget_run_ok pid l b : a_process pid → budget_ok pid b → budget_ok pid (budget_run pid l b).
Proof.
  intros Hp. revert b. induction l as [|e l IH]; intros b Hb; [done|]. by apply IH, budget_step_ok.
Qed.

(** Whatever the interleaving of the threads that open and destroy handles in
    a process, spurious failures of the exchange included, the shared word is
    the process and exactly the number of handles that hold a reservation, a
    handle that is being released included; at most 16 do.  A release always
    takes its handle out, and a reservation is refused only to a thread that
    saw all 16 taken. *)
Theorem client_budget pid w l :
  a_process pid → budget_start pid w →
  let b := budget_run pid l (mkBudget w ∅ 0) in
  counted_handles pid b.(word) = b.(counted_) + releasing b.(threads) ∧
  0 ≤ b.(counted_) ∧ b.(counted_) + releasing b.(threads) ≤ 16 ∧
  ∀ t th spurious, b.(threads) !! t = Some th →
    match th with
    | Reserving o => (ReserveClient pid spurious o b.(word)).2 = Finished false → 16 ≤ counted_handles pid o
    | Releasing o => (ReleaseClient pid spurious o b.(word)).2 ≠ Finished false
    end.
Proof.
  intros Hp Hs b. pose proof (budget_run_ok pid l _ Hp (budget_start_ok _ _ Hs)) as Hb. fold b in Hb.
  pose proof Hb as [? Hx ? _ _]. split_and!; [done|done|by rewrite <- Hx|]. intros t [o|o] spurious Ht.
  - destruct (ReserveClient _ _ _ _) as [word' r] eqn:Hr. simpl. intros ->.
    by apply (ReserveClient_ok pid spurious t o b) in Hr as [_ ?].
  - destruct (ReleaseClient _ _ _ _) as [word' r] eqn:Hr. simpl. intros ->.
    by apply (ReleaseClient_ok pid spurious t o b) in Hr as [? _].
Qed.

(** ** The peer *)

Lemma back_is_split c s : back_is c s = true → s = take_str (String.length s - 1) s +:+ String c "".
Proof.
  induction s as [|d s IH]; [done|]. destruct s as [|d' s]; simpl in *.
  - intros ->%bool_decide_eq_true_1. done.
  - intros Hb. rewrite Nat.sub_0_r in IH. rewrite app_cons_s. f_equal. by apply IH.
Qed.

Lemma back_is_last c s : back_is c (s +:+ String c "") = true.
Proof.
  induction s as [|d s IH]; [by apply bool_decide_eq_true_2|].
  rewrite app_cons_s. simpl. destruct (s +:+ String c "") eqn:E; [by destruct s|done].
Qed.

Lemma back_is_has c s : back_is c s = true → has_char c s = true.
Proof.
  intros Hb%back_is_split. rewrite Hb. unfold has_char. rewrite all_of_app. simpl.
  rewrite (bool_decide_eq_false_2 (c ≠ c)) by auto. by rewrite andb_false_r.
Qed.

(** The kernel named the first process as root at the expected address. *)
Record activated (pid uid : Z) (address : sockaddr_un) (address_size : Z) (label path expected : string)
  : Prop := mk_activated {
  ac_pid : pid = 1;
  ac_uid : uid = 0;
  ac_family : address.(sun_family) = AF_UNIX;
  ac_fits : size path < sun_path_size;
  ac_size : address_size = 2 + size path + 1;
  ac_path : take_str (S (String.length path)) address.(sun_path) = path +:+ String nul "";
  ac_expected : expected ≠ "" ∧ has_char nul expected = false;
  ac_label : label = expected ∨ label = expected +:+ String nul "";
}.

(** The label with one terminator taken off. *)
Lemma label_matches label expected :
  label ≠ "" →
  (let l := if back_is nul label then take_str (String.length label - 1) label else label in
   negb (has_char nul l) && (size l =? size expected) && eqs l expected = true) ↔
  has_char nul expected = false ∧ (label = expected ∨ label = expected +:+ String nul "").
Proof.
  intros Hl. assert (Hm : ∀ l, negb (has_char nul l) && (size l =? size expected) && eqs l expected = true ↔
    has_char nul expected = false ∧ l = expected).
  { intros l. rewrite !andb_true_iff, negb_true_iff, eqs_true, Z.eqb_eq. naive_solver. }
  cbv zeta. rewrite Hm. destruct (back_is nul label) eqn:Hb.
  - pose proof (back_is_split _ _ Hb) as Hs. set (l := take_str _ label) in *. split.
    + intros [? ->]. auto.
    + intros [Hn [->|Heq]]; [by rewrite (back_is_has _ _ Hb) in Hn|]. split; [done|].
      assert (Hl' : String.length l = String.length expected).
      { rewrite Hs in Heq. apply (f_equal String.length) in Heq. rewrite !length_app_s in Heq. lia. }
      rewrite Hs in Heq. by apply app_inj_len in Heq as [? _].
  - split; [naive_solver|]. intros [Hn [-> | ->]]; [done|]. by rewrite back_is_last in Hb.
Qed.

(** [MatchActivatedPeer] accepts exactly the activated peers. *)
Lemma MatchActivatedPeer_iff pid uid address address_size label path expected :
  label ≠ "" →
  MatchActivatedPeer pid uid address address_size label path expected = true ↔
  activated pid uid address address_size label path expected.
Proof.
  intros Hl. unfold MatchActivatedPeer. pose proof (label_matches label expected Hl) as Hm.
  destruct (_ || _) eqn:Hg; [split; [done|]|].
  - intros [-> -> Hf Hp -> Ht [He _] _]. rewrite Hf, Ht, eqs_refl, !Z.eqb_refl in Hg.
    apply empty_false in Hl, He. rewrite Hl, He, Z.geb_leb in Hg. simpl in Hg.
    destruct (Z.leb_spec sun_path_size (size path)); [lia|done].
  - rewrite Hm. rewrite !orb_false_iff, !negb_false_iff, !Z.eqb_eq, !empty_false, eqs_true, Z.geb_leb,
      Z.leb_gt in Hg. split; [intros; deex; by constructor|intros []; naive_solver].
Qed.

(** ** Connect *)

Section trust.
Context `{Platform} `{ClientEnv} `{Endpoint}.

(** A program that only looks at the environment: [P] says what it returns
    when it starts at one instant and ends before another. *)
Definition observes {A} (m : C A) (P : nat → nat → A → Prop) : Prop :=
  ∀ s, ∃ k, (m s).1 = set_tick k s ∧ (s.(tick) ≤ k)%nat ∧ P s.(tick) k (m s).2.

Lemma observes_ret {A} (a : A) (P : nat → nat → A → Prop) : (∀ i, P i i a) → observes (mret a) P.
Proof. intros Ha s. exists s.(tick). destruct s. split; [done|]. split; [done|apply Ha]. Qed.

Lemma observes_read {A} (f : nat → A) : observes (read f) (λ i j a, j = S i ∧ a = f i).
Proof. intros s. exists (S s.(tick)). simpl. split; [done|]. split; [lia|done]. Qed.

Lemma observes_bind {A B} (m : C A) (k : A → C B) P Q :
  observes m P → (∀ a, observes (k a) (λ j l b, ∀ i, (i ≤ j)%nat → P i j a → Q i l b)) → observes (m ≫= k) Q.
Proof.
  intros Hm Hk s. rewrite c_bind. destruct (Hm s) as (j & -> & Hj & Ha).
  destruct (Hk (m s).2 (set_tick j s)) as (l & -> & Hl & Hq). exists l. simpl in *.
  split; [done|]. split; [lia|]. by apply Hq.
Qed.

Lemma observes_weaken {A} (m : C A) (P Q : nat → nat → A → Prop) :
  observes m P → (∀ i j a, (i ≤ j)%nat → P i j a → Q i j a) → observes m Q.
Proof. intros Hm Hw s. destruct (Hm s) as (k & ? & ? & ?). exists k. auto. Qed.

(** Nothing was learnt. *)
Lemma observes_false {A} (a : A) (P : nat → nat → A → Prop) : (∀ i j, P i j a) → observes (mret a) P.
Proof. intros Ha. by apply observes_ret. Qed.

(** A directory in which only root, or the group of /run, makes entries. *)
Definition trusted_directory (parent : string) (info : file_stat) (i j : nat) : Prop :=
  S_ISDIR info.(st_mode) = true ∧ info.(st_uid) = 0 ∧ Z.land info.(st_mode) 2 = 0 ∧
  (Z.land info.(st_mode) 16 = 0 ∨
   parent = "/run" ∧ ∃ n, (i ≤ n < j)%nat ∧ ep_system_share n = Some info.(st_gid)).

(** It was seen from instant [i] on and before [j]. *)
Definition seen_trusted (parent : string) (i j : nat) : Prop :=
  ∃ n info, (i ≤ n < j)%nat ∧ ep_lstat n parent = StatOk info ∧ trusted_directory parent info i j.

Lemma seen_trusted_wider parent i j i' j' :
  (i' ≤ i)%nat → (j ≤ j')%nat → seen_trusted parent i j → seen_trusted parent i' j'.
Proof.
  intros Hi Hj (n & info & Hn & Hl & Hd & Hu & Hw & Hg). exists n, info. split; [lia|]. split; [done|].
  split_and!; [done..|]. destruct Hg as [|(-> & g & Hg & Hs)]; [by left|right]. split; [done|].
  exists g. split; [lia|done].
Qed.

Lemma observes_parent endpoint parent :
  observes (trusted_parent endpoint parent) (λ i j ok, ok = true → seen_trusted parent i j).
Proof.
  eapply observes_bind; [apply observes_read|]. intros r.
  destruct r as [|info]; [by apply observes_false|].
  destruct (negb _ || _ || _) eqn:Hg; [by apply observes_false|].
  rewrite !orb_false_iff, !negb_false_iff, !Z.eqb_eq in Hg. destruct Hg as [[Hd Hu] Hw].
  destruct (Z.eqb_spec (Z.land (st_mode info) 16) 0) as [Hgw|Hgw].
  { apply observes_ret. intros j i _ [-> Hl] _. exists i, info. split; [lia|]. split; [done|].
    split_and!; [done..|by left]. }
  destruct (eqs parent "/run") eqn:Hp; [str_hyps; subst parent|by apply observes_false].
  destruct (negb _ || _); [by apply observes_false|].
  eapply observes_bind; [apply observes_read|]. intros g. apply observes_ret.
  intros k j _ [-> Hgr] i _ [-> Hl] Hj%bool_decide_eq_true_1. exists i, info. split; [lia|]. split; [done|].
  split_and!; [done..|right]. split; [done|]. exists (S i). split; [lia|congruence].
Qed.

Lemma observes_parents endpoint ends :
  observes (trusted_parents endpoint ends) (λ i j ok, ok = true →
    ∀ e parent, e ∈ ends → parent_at endpoint e = Some parent → seen_trusted parent i j).
Proof.
  induction ends as [|e ends IH].
  { apply observes_ret. intros i _ e parent He. by apply elem_of_nil in He. }
  cbn [trusted_parents]. destruct (parent_at endpoint e) as [parent|] eqn:Hp.
  - eapply observes_bind; [apply observes_parent|]. intros []; simpl; [|by apply observes_false].
    eapply observes_weaken; [exact IH|]. intros j k ok Hjk Hrest i Hij Hok Ht e' parent' He' Hp'.
    apply elem_of_cons in He' as [->|He'].
    + simplify_eq. eapply seen_trusted_wider; [| |by apply Hok]; lia.
    + eapply seen_trusted_wider; [| |by eapply Hrest]; lia.
  - eapply observes_weaken; [exact IH|]. intros i j ok _ Hrest Ht e' parent' He' Hp'.
    apply elem_of_cons in He' as [->|He']; [congruence|by eapply Hrest].
Qed.

(** The socket as it was found in the file system at instant [n]. *)
Definition socket_at (n : nat) (snapshot : EndpointSnapshot) : Prop :=
  ∃ info, ep_lstat n CONSENT_SOCKET_PATH = StatOk info ∧ trusted_socket info = true ∧
          info.(st_dev) = snapshot.(device) ∧ info.(st_ino) = snapshot.(inode).

Definition trusted_path (snapshot : EndpointSnapshot) (i j : nat) : Prop :=
  seen_trusted "/" i j ∧ seen_trusted "/run" i j ∧ ∃ n, (i ≤ n < j)%nat ∧ socket_at n snapshot.

Lemma observes_TrustedEndpoint :
  observes TrustedEndpoint (λ i j r, ∀ snapshot, r = Some snapshot → trusted_path snapshot i j).
Proof.
  eapply observes_bind; [apply observes_parents|]. intros []; simpl; [|by apply observes_false].
  eapply observes_bind; [apply observes_read|]. intros r.
  destruct r as [|info]; [by apply observes_false|].
  destruct (trusted_socket info) eqn:Ht; [|by apply observes_false]. apply observes_ret.
  intros k j _ [-> Hl] i Hij Hok snapshot [= <-]. split_and!.
  - eapply (seen_trusted_wider _ i j); [lia|lia|].
    apply (Hok eq_refl 0%nat); [set_solver|done].
  - eapply (seen_trusted_wider _ i j); [lia|lia|].
    apply (Hok eq_refl 4%nat); [set_solver|done].
  - exists j. split; [lia|]. by exists info.
Qed.

(** The connection was made. *)
Definition established (i j : nat) : Prop :=
  (i < j)%nat ∧ (ep_connect i = Connected ∨
  ep_connect i = ConnectPending ∧ ∃ n, (i < n < j)%nat ∧ ep_check_connect n = true).

Lemma observes_TransportConnect :
  observes TransportConnect (λ i j status, status = 0 → established i j).
Proof.
  eapply observes_bind; [apply observes_read|]. intros r. destruct r.
  - apply observes_ret. intros j i _ [-> Hc] _. split; [lia|]. by left.
  - intros s. unfold Wait. c_run.
    destruct (_ || _); c_run; [exists s.(tick); destruct s; split; [done|]; split; [done|]; intros; done|].
    destruct (ep_ready _); simpl; c_run; [|eexists; split; [done|]; split; [simpl; lia|]; intros; done].
    eexists. split; [done|]. split; [simpl; lia|]. simpl. intros i _ [Hi Hc] Hst.
    split; [lia|]. right. split; [done|]. exists (S s.(tick)). split; [lia|].
    by destruct (ep_check_connect (S (tick s))).
  - by apply observes_false.
Qed.

(** The socket is still the one that was found, and after that the kernel
    names the peer behind the connection. *)
Definition trusted_peer (snapshot : EndpointSnapshot) (i j : nat) : Prop :=
  ∃ n a b c cred address address_size label,
    (i ≤ n < a)%nat ∧ (a < b < c)%nat ∧ (c < j)%nat ∧ socket_at n snapshot ∧
    ep_peercred a = Some cred ∧ ep_peername b = Some (address, address_size) ∧
    ep_peersec c = Some label ∧
    activated cred.(cred_pid) cred.(cred_uid) address address_size label CONSENT_SOCKET_PATH
      CONSENT_SERVER_SMACK_LABEL.

Lemma observes_TrustedConnection snapshot :
  observes (TrustedConnection snapshot) (λ i j ok, ok = true → trusted_peer snapshot i j).
Proof.
  eapply observes_bind; [apply observes_read|]. intros r.
  destruct r as [|info]; [by apply observes_false|].
  destruct (negb _ || _ || _) eqn:Hg; [by apply observes_false|].
  rewrite !orb_false_iff, !negb_false_iff, !Z.eqb_eq in Hg. destruct Hg as [[Hs Hd] Hi].
  eapply observes_bind; [apply observes_read|]. intros [cred|]; [|by apply observes_false].
  eapply observes_bind; [apply observes_read|]. intros [[address sz]|]; [|by apply observes_false].
  eapply observes_bind; [apply observes_read|]. intros [label|]; [|by apply observes_false].
  destruct (empty label) eqn:He; simpl; [by apply observes_false|]. str_hyps.
  destruct (_ >=? _); [by apply observes_false|]. apply observes_ret.
  intros l k _ [-> Hl] j _ [-> Hk] i _ [-> Hj] n _ [-> Hn] Hm.
  apply MatchActivatedPeer_iff in Hm; [|done].
  exists n, (S n), (S (S n)), (S (S (S n))), cred, address, sz, label.
  split_and!; try lia; try done. by exists info.
Qed.
End trust.

Section opening.
Context `{Platform} `{Parcel} `{ClientEnv} `{Endpoint}.

(** A handle that was not opened: its thread does not run and nothing was
    admitted. *)
Definition unopened (s : State) : Prop := ∃ k armed, s = set_read_armed armed (created k).

(** C22: [Connect] lets a thread talk to the daemon only after trust in both the
    path and the peer is established.  Either, one after the other: the socket
    was found below directories of the system; the connection was made; the
    path was looked at again and was still that socket, the same device and
    inode; the kernel then named the peer as the first process, root, bound to
    exactly the expected path and running under the expected label; and after
    all this the I/O thread was started; then the handle holds a reservation
    and is a fresh connection of which [hello] is the first operation.  Or
    [Connect] fails, its thread does not run and nothing was admitted. *)
Theorem Connect_trusted reserved current dispatching n :
  let r := Connect reserved current dispatching (created n) in
  (∃ snapshot found made checked, (n ≤ found < made)%nat ∧ (made ≤ checked)%nat ∧
     trusted_path snapshot n found ∧ established (S found) made ∧ trusted_peer snapshot made checked ∧
     ep_thread checked = true ∧ reserved = true ∧ r.2.2 = true ∧
     r.1 = step (EvOther (ACall current true dispatching hello 2000)) (connected (S checked)) ∧
     r.2.1 = (Call current true dispatching hello 2000 (connected (S checked))).2) ∨
  (unopened r.1 ∧ r.2.1.1 ≠ 0 ∧ r.2.1.2 = 0 ∧ (r.2.2 = true → reserved = true)).
Proof.
  assert (Hno : ∀ k armed, unopened (set_read_armed armed (created k))) by (intros; by eexists _, _).
  unfold Connect. rewrite c_bind. destruct (observes_TrustedEndpoint (created n)) as (k & -> & Hk & Hp).
  change (tick (created n)) with n in *.
  change (set_tick k (created n)) with (created k). cbv zeta.
  destruct (TrustedEndpoint _).2 as [snapshot|]; [|right; split_and!; [apply (Hno _ false)|done..]].
  specialize (Hp _ eq_refl). destruct reserved; [|right; split_and!; [apply (Hno _ false)|done..]].
  cbn [negb]. c_run. destruct (ep_socket _); [|right; split_and!; [apply (Hno (S k) false)|done..]].
  cbn [negb]. rewrite c_bind. change (set_tick ?j (created k)) with (created j).
  change (tick (created k)) with k.
  destruct (observes_TransportConnect (created (S k))) as (k2 & -> & Hk2 & Hest).
  change (tick (created (S k))) with (S k) in *.
  change (set_tick ?j (created _)) with (created j).
  destruct (Z.eqb_spec (TransportConnect (created (S k))).2 0) as [Hz|Hs];
    [|right; split_and!; [apply (Hno _ false)|done..]]. cbn [negb]. rewrite c_bind.
  destruct (observes_TrustedConnection snapshot (created k2)) as (k3 & -> & Hk3 & Ht).
  change (tick (created k2)) with k2 in *.
  change (set_tick ?j (created _)) with (created j).
  destruct (TrustedConnection _ _).2; [|right; split_and!; [apply (Hno _ false)|done..]].
  cbn [negb]. unfold ArmRead, Start. c_run.
  change (running (set_read_armed true (created k3))) with false. cbv iota. c_run.
  change (tick (set_read_armed true (created k3))) with k3.
  destruct (ep_thread k3) eqn:Hth; c_run; cbn [negb].
  - left. exists snapshot, k, k2, k3. rewrite c_bind. unfold step. cbn [enabled handle act]. rewrite c_bind.
    specialize (Hest Hz). pose proof Hest as [Hlt _].
    split_and!; try lia; try done. by apply Ht.
  - right. split_and!; [apply (Hno (S k3) true)|done..].
Qed.
End opening.
