(* ===== verification/Api.v ===== *)
(** * The C functions of the client library (src/consent/*.cc, common headers
    src/consent/inc/)

    What stands between an application and a handle: the builder of
    parameters, the accessors of results, and one function per operation that
    checks its arguments, copies the builder and calls the handle (Client), or
    the registration writer (Offline) when the handle is an offline one.

    A pointer argument is an option, an output pointer the boolean that it is
    not null; C strings are their bytes before the terminator.  What a function
    learns of its calling thread is its [caller].  A function that waits for
    the daemon is modelled up to its wait, as [Client.Call] is: the status and
    the result it returns are the entry that [Client.call_return] records.
    [Guard] turns exceptions of failed allocations into statuses; those are
    not represented. *)
From S2P Require Import Prelude Strings Platform Message Wire Localization Offline ClientState Client.
From S2P Require Import Connect.
From Stdlib Require Import Ascii.

Module api.
Import offline.

(** ** Statuses *)

Definition CONSENT_ERROR_NONE : Z := 0.
Definition CONSENT_ERROR_STALE : Z := - ESTALE.
Definition CONSENT_ERROR_TOO_LARGE : Z := - E2BIG.
Definition CONSENT_ERROR_NO_SPACE : Z := - ENOSPC.
Definition CONSENT_ERROR_IO : Z := - EIO.
Definition CONSENT_ERROR_SESSION_INACTIVE `{Platform} : Z := kInactive.
Definition CONSENT_ERROR_SESSION_CLOSED `{Platform} : Z := kClosed.
Definition CONSENT_ERROR_CONFLICT `{Platform} : Z := kConflict.
Definition CONSENT_ERROR_STORAGE `{Platform} : Z := kStorage.

Section api.
Context `{Platform}.

(** [consent_error_string]. *)
Definition error_strings : list (Z * string) :=
  [(CONSENT_ERROR_NONE, "success");
   (CONSENT_ERROR_INVALID_PARAMETER, "invalid parameter or thread");
   (CONSENT_ERROR_OUT_OF_MEMORY, "out of memory");
   (CONSENT_ERROR_PERMISSION_DENIED, "permission denied");
   (CONSENT_ERROR_BUSY, "resource limit reached");
   (CONSENT_ERROR_NOT_FOUND, "not found");
   (CONSENT_ERROR_TIMEOUT, "operation timed out");
   (CONSENT_ERROR_DISCONNECTED, "disconnected");
   (CONSENT_ERROR_PROTOCOL, "invalid protocol");
   (CONSENT_ERROR_OUTCOME_UNKNOWN, "remote outcome unknown");
   (CONSENT_ERROR_SESSION_INACTIVE, "session inactive");
   (CONSENT_ERROR_SESSION_CLOSED, "session closed");
   (CONSENT_ERROR_CONFLICT, "operation conflict");
   (CONSENT_ERROR_STORAGE, "storage unavailable");
   (CONSENT_ERROR_WOULD_DEADLOCK, "synchronous wait on callback context");
   (CONSENT_ERROR_STALE, "stale request or state");
   (CONSENT_ERROR_TOO_LARGE, "message or result too large");
   (CONSENT_ERROR_NO_SPACE, "capacity exhausted");
   (CONSENT_ERROR_INVALID_OPERATION, "invalid operation");
   (CONSENT_ERROR_IO, "I/O error")].

Definition consent_error_string (status : Z) : string :=
  default "daemon or transport error"
    (snd <$> head (filter (λ e : Z * string, e.1 = status) error_strings)).

(** ** The builder (params.cc) *)

Definition Reserved (key : string) : bool :=
  empty key || front_is "_" key || eqs key "v" || eqs key "id" || eqs key "method" ||
  eqs key "status" || eqs key "role" || eqs key "pid" || eqs key "uid" || eqs key "gid".

(** The status and the builder. *)
Definition consent_params_create (params : bool) : Z * option Message :=
  if params then (0, Some ∅) else (CONSENT_ERROR_INVALID_PARAMETER, None).

(** The status and the fields of the builder after the call. *)
Definition consent_params_set (params : option Message) (key value : option string)
  : Z * option Message :=
  match params, key, value with
  | Some values, Some key, Some value =>
      if Reserved key || negb (ValidField key value) then (CONSENT_ERROR_INVALID_PARAMETER, params)
      else if negb (has values key) && (msize values >=? kMaxFields - 3)
      then (CONSENT_ERROR_BUSY, params)
      else (0, Some (<[key := value]> values))
  | _, _, _ => (CONSENT_ERROR_INVALID_PARAMETER, params)
  end.

Definition consent_params_set_int64 (params : option Message) (key : option string) (value : Z)
  : Z * option Message :=
  consent_params_set params key (Some (to_string value)).

Definition CONSENT_CHECK_QUERY : Z := 0.
Definition CONSENT_CHECK_AUTHORIZE : Z := 1.

Definition consent_params_set_check_mode (params : option Message) (mode : Z) : Z * option Message :=
  if negb (mode =? CONSENT_CHECK_QUERY) && negb (mode =? CONSENT_CHECK_AUTHORIZE)
  then (CONSENT_ERROR_INVALID_PARAMETER, params)
  else consent_params_set params (Some "mode")
         (Some (if mode =? CONSENT_CHECK_QUERY then "QUERY" else "AUTHORIZE")).

(** The loop of [consent_params_add_requirement]: it stops at a failure. *)
Fixpoint set_fields (updated : option Message) (l : list (string * string)) : Z * option Message :=
  match l with
  | [] => (0, updated)
  | (key, value) :: l' =>
      match consent_params_set updated (Some key) (Some value) with
      | (status, updated') => if negb (status =? 0) then (status, updated') else set_fields updated' l'
      end
  end.

Definition requirement_fields (prefix definition operation scope purpose recipient : string)
  : list (string * string) :=
  [(prefix +:+ "definition", definition); (prefix +:+ "operation", operation);
   (prefix +:+ "scope", scope); (prefix +:+ "purpose", purpose);
   (prefix +:+ "recipient", recipient)].

Definition consent_params_add_requirement (params : option Message)
    (definition operation scope purpose recipient : option string) : Z * option Message :=
  match params, definition, operation, scope, purpose, recipient with
  | Some values, Some definition, Some operation, Some scope, Some purpose, Some recipient =>
      if empty definition || empty operation then (CONSENT_ERROR_INVALID_PARAMETER, params)
      else
        let count := MsgNumber values "count" 0 in
        if (count <? 0) || (count >=? kMaxRequirements) then (CONSENT_ERROR_INVALID_PARAMETER, params)
        else
          let prefix := "r" +:+ to_string count +:+ "." in
          match set_fields params
                  (requirement_fields prefix definition operation scope purpose recipient) with
          | (status, updated) =>
              if negb (status =? 0) then (status, params)
              else
                match consent_params_set_int64 updated (Some "count") (count + 1) with
                | (status, updated) => (status, if status =? 0 then updated else params)
                end
          end
  | _, _, _, _, _, _ => (CONSENT_ERROR_INVALID_PARAMETER, params)
  end.

(** ** Results (result.cc) *)

Definition consent_result_clone (result : option Message) (copy : bool) : Z * option Message :=
  match result, copy with
  | Some values, true => (0, Some values)
  | _, _ => (CONSENT_ERROR_INVALID_PARAMETER, None)
  end.

Definition consent_result_get (result : option Message) (key : option string) : option string :=
  match result, key with
  | Some values, Some key => values !! key
  | _, _ => None
  end.

(** The values of [consent_decision_e] from 1 on. *)
Definition decisions : list string :=
  ["ALLOWED"; "DENIED"; "CONSENT_REQUIRED"; "PENDING"; "CANCELLED"; "EXPIRED"; "INVALIDATED"].

Definition CONSENT_DECISION_UNKNOWN : Z := 0.

Fixpoint decision_from (value : string) (i : Z) (l : list string) : Z :=
  match l with
  | [] => CONSENT_DECISION_UNKNOWN
  | d :: l' => if eqs value d then i else decision_from value (i + 1) l'
  end.

Definition consent_result_get_decision (result : option Message) : Z :=
  match consent_result_get result (Some "decision") with
  | None => CONSENT_DECISION_UNKNOWN
  | Some value => decision_from value 1 decisions
  end.

Definition consent_result_size (result : option Message) : Z :=
  match result with Some values => msize values | None => 0 end.

(** The entry at an index, in key order. *)
Definition consent_result_get_at (result : option Message) (index : Z) (key value : bool)
  : Z * option (string * string) :=
  match result, key, value with
  | Some values, true, true =>
      if index >=? msize values then (CONSENT_ERROR_INVALID_PARAMETER, None)
      else (0, items values !! Z.to_nat index)
  | _, _, _ => (CONSENT_ERROR_INVALID_PARAMETER, None)
  end.

(** ** Prompts (prompt.cc) *)

Definition consent_prompt_format (prompt : option Message) (requirement_index : Z)
    (field : option string) (formatted : bool) : Z * option string :=
  match prompt, field, formatted with
  | Some values, Some field, true =>
      match localization.FormatPrompt values requirement_index field with
      | Good value => (0, Some value)
      | Bad _ => (CONSENT_ERROR_INVALID_PARAMETER, None)
      end
  | _, _, _ => (CONSENT_ERROR_INVALID_PARAMETER, None)
  end.

(** ** Handles (wrapper.cc) *)

(** [struct consent_client]: exactly one of [impl] and [offline] is set. *)
Inductive consent_client := Online | OfflineHandle (root : ImageRoot).

(** What a call sees of its thread: it is in the process of the handle, it is
    the thread that created it, it owns the callback context. *)
Record caller := mkCaller { current : bool; owner : bool; dispatching : bool }.

Context `{Os} `{Parcel} `{ClientEnv}.

Definition IsCurrentProcess (root : ImageRoot) : bool := root.(ir_pid) =? os_getpid.
Definition IsOwner (root : ImageRoot) : bool := root.(ir_owner) =? os_thread.

Definition OnlineStatus (client : option consent_client) : Z :=
  match client with
  | None => CONSENT_ERROR_INVALID_PARAMETER
  | Some (OfflineHandle root) =>
      if negb (IsCurrentProcess root) || negb (IsOwner root) then CONSENT_ERROR_INVALID_PARAMETER
      else CONSENT_ERROR_INVALID_OPERATION
  | Some Online => 0
  end.

(** The status and the operation of the handle that was admitted. *)
Definition Call (client : option consent_client) (c : caller) (method : string)
    (params : option Message) (timeout : Z) (result : bool) : C (Z * Z) :=
  let valid := OnlineStatus client in
  if negb (valid =? 0) then mret (valid, 0)
  else
    match params, result with
    | Some values, true =>
        Client.Call c.(current) true c.(dispatching) (<["method" := method]> values) timeout
    | _, _ => mret (CONSENT_ERROR_INVALID_PARAMETER, 0)
    end.

Definition Submit (client : option consent_client) (c : caller) (method : string)
    (params : option Message) (callback : option Z) (operation : bool) : C (Z * Z) :=
  let valid := OnlineStatus client in
  if negb (valid =? 0) then mret (valid, 0)
  else
    match params, callback, operation with
    | Some values, Some _, true =>
        Client.Submit c.(current) c.(owner) (<["method" := method]> values) callback true
    | _, _, _ => mret (CONSENT_ERROR_INVALID_PARAMETER, 0)
    end.

(** ** Requests (request.cc) *)

Definition consent_request client c params (wait_timeout_ms : Z) (result : bool) : C (Z * Z) :=
  Call client c "request" params wait_timeout_ms result.
Definition consent_check client c params (wait_timeout_ms : Z) (result : bool) : C (Z * Z) :=
  Call client c "check" params wait_timeout_ms result.
Definition consent_request_async client c params callback operation : C (Z * Z) :=
  Submit client c "request" params callback operation.
Definition consent_check_async client c params callback operation : C (Z * Z) :=
  Submit client c "check" params callback operation.

Definition consent_async_detach (client : option consent_client) (c : caller) (operation : Z) : C Z :=
  let status := OnlineStatus client in
  if negb (status =? 0) then mret status else Detach c.(current) c.(owner) operation.

Definition consent_get_request_result client c params (result : bool) : C (Z * Z) :=
  Call client c "result" params 5000 result.
Definition consent_cancel_request client c params (result : bool) : C (Z * Z) :=
  Call client c "cancel" params 5000 result.

(** ** Prompts, sessions, data and revocation (prompt.cc, session.cc, data.cc,
    registration.cc) *)

Definition consent_get_prompt client c params (result : bool) : C (Z * Z) :=
  Call client c "prompt" params 5000 result.
Definition consent_respond client c params (result : bool) : C (Z * Z) :=
  Call client c "respond" params 5000 result.

Definition consent_session_open client c params (result : bool) : C (Z * Z) :=
  Call client c "session_open" params 5000 result.
Definition consent_session_heartbeat client c params (result : bool) : C (Z * Z) :=
  Call client c "session_heartbeat" params 5000 result.
Definition consent_session_suspend client c params (result : bool) : C (Z * Z) :=
  Call client c "session_suspend" params 5000 result.
Definition consent_session_resume client c params (result : bool) : C (Z * Z) :=
  Call client c "session_resume" params 5000 result.
Definition consent_session_close client c params (result : bool) : C (Z * Z) :=
  Call client c "session_close" params 5000 result.
Definition consent_session_get_state client c params (result : bool) : C (Z * Z) :=
  Call client c "session_state" params 5000 result.

Definition consent_data_register client c params (result : bool) : C (Z * Z) :=
  Call client c "data_register" params 5000 result.
Definition consent_data_register_derived client c params (result : bool) : C (Z * Z) :=
  Call client c "data_derived" params 5000 result.
Definition consent_data_release client c params (result : bool) : C (Z * Z) :=
  Call client c "data_release" params 5000 result.
Definition consent_cleanup_get_state client c params (result : bool) : C (Z * Z) :=
  Call client c "cleanup" params 5000 result.
Definition consent_cleanup_get_pending client c params (result : bool) : C (Z * Z) :=
  Call client c "cleanup_list" params 5000 result.

Definition consent_revoke client c params (result : bool) : C (Z * Z) :=
  Call client c "revoke" params 5000 result.

(** ** Registrations (registration.cc)

    They act on an online handle or on the disk of an offline one. *)
Definition W (A : Type) : Type := State * Disk → (State * Disk) * fate A.

Definition on_handle {A} (m : C A) : W A := λ w, let '(s, a) := m w.1 in ((s, w.2), Done a).
Definition on_disk {A} (m : F A) : W A := λ w, let '(d, r) := m w.2 in ((w.1, d), r).

(** The statuses of the writer that have a name of their own. *)
Definition offline_status (status : Z) : Z :=
  if status =? - EEXIST then CONSENT_ERROR_CONFLICT
  else if status =? - EINPROGRESS then CONSENT_ERROR_OUTCOME_UNKNOWN
  else status.

Definition register_message (values : Message) (package app : string) : Message :=
  <["app" := app]> (<["package" := package]> (<["method" := "register"]> values)).

Definition Register (client : option consent_client) (c : caller) (package app : option string)
    (params : option Message) : W (Z * Z) :=
  let invalid : W (Z * Z) := on_handle (mret (CONSENT_ERROR_INVALID_PARAMETER, 0)) in
  let foreign := match client with
                 | Some (OfflineHandle root) => negb (IsCurrentProcess root) || negb (IsOwner root)
                 | _ => false
                 end in
  if foreign then invalid
  else
    match client, package, app, params with
    | Some client, Some package, Some app, Some values =>
        if empty package || empty app || negb (ValidField "package" package) ||
           negb (ValidField "app" app)
        then invalid
        else
          let message := register_message values package app in
          match client with
          | OfflineHandle root =>
              on_disk (status ← offline.Register root message; mret (offline_status status, 0))
          | Online => on_handle (Client.Call c.(current) true c.(dispatching) message 5000)
          end
    | _, _, _, _ => invalid
    end.

Definition consent_register client c package_name app_id params : W (Z * Z) :=
  Register client c package_name app_id params.

Definition consent_update (client : option consent_client) (c : caller)
    (package_name app_id : option string) (params : option Message) : W (Z * Z) :=
  let status := OnlineStatus client in
  if negb (status =? 0) then on_handle (mret (status, 0))
  else consent_register client c package_name app_id params.

Definition unregister_message (values : Message) (package : string) : Message :=
  delete "app" (<["package" := package]> (<["method" := "unregister"]> values)).

Definition consent_unregister (client : option consent_client) (c : caller)
    (package_name : option string) (params : option Message) : C (Z * Z) :=
  let status := OnlineStatus client in
  if negb (status =? 0) then mret (status, 0)
  else
    match package_name, params with
    | Some package, Some values =>
        if empty package || negb (ValidField "package" package)
        then mret (CONSENT_ERROR_INVALID_PARAMETER, 0)
        else Client.Call c.(current) true c.(dispatching) (unregister_message values package) 5000
    | _, _ => mret (CONSENT_ERROR_INVALID_PARAMETER, 0)
    end.

(** ** Handles (client_api.cc) *)

Definition CONSENT_AUTHORITY_DIR : string := "/opt/var/lib/consent-authority".

(** Up to the wait of [Connect]; the handle is returned when that ends with
    status 0. *)
Definition consent_client_create_with_context `{Endpoint} (client reserved dispatching : bool)
  : C (Z * Z * bool) :=
  if negb client then mret (CONSENT_ERROR_INVALID_PARAMETER, 0, false)
  else Connect reserved true dispatching.

Definition consent_client_create `{Endpoint} (client reserved dispatching : bool) : C (Z * Z * bool) :=
  consent_client_create_with_context client reserved dispatching.

(** The status, and the handle if it is still there. *)
Definition consent_client_destroy (client : option consent_client) (c : caller)
  : C (Z * option consent_client) :=
  match client with
  | Some (OfflineHandle root) =>
      if negb (IsCurrentProcess root) || negb (IsOwner root)
      then mret (CONSENT_ERROR_INVALID_PARAMETER, client)
      else mret (0, None)
  | None => mret (CONSENT_ERROR_INVALID_PARAMETER, client)
  | Some Online =>
      if negb c.(owner) || negb c.(current) then mret (CONSENT_ERROR_INVALID_PARAMETER, client)
      else status ← Close c.(current); mret (status, None)
  end.

Definition consent_client_create_offline_registration (image_root : option string) (client : bool)
  : F (Z * option consent_client) :=
  match client, image_root with
  | true, Some image_root =>
      if empty image_root then mret (CONSENT_ERROR_INVALID_PARAMETER, None)
      else
        r ← Open (mkImageRoot None false 0 0) image_root CONSENT_AUTHORITY_DIR;
        mret (r.2, if r.2 =? 0 then Some (OfflineHandle r.1) else None)
  | _, _ => mret (CONSENT_ERROR_INVALID_PARAMETER, None)
  end.
End api.
End api.
