(* ===== verification/ApiSpec.v ===== *)
(** * What the C functions promise

    What a builder holds after any calls, which requests the library can send,
    what the daemon decodes of them, and how the daemon reads the requirements
    that were added. *)
From S2P Require Import Prelude Strings Platform Message Wire Packing Offline Grants ClientState Client.
From S2P Require Import ClientInv Connect Api.
From Stdlib Require Import Ascii.

(** ASCII text without NUL is UTF-8. *)
Definition ascii_text (s : string) : bool :=
  all_of (λ c, (0 <? ascii_Z c) && (ascii_Z c <? 128)) s.

Class Utf8Laws `{Platform} : Prop := {
  utf8_ascii : ∀ s, ascii_text s = true → g_utf8_validate s = true;
}.

(** ** Every message that fits is encoded *)

(** The bytes of fields in a frame. *)
Definition body_size (l : list (string * string)) : Z :=
  foldr (λ f acc, 10 + size f.1 + size f.2 + acc) 0 l.

Lemma body_size_nonneg l : 0 ≤ body_size l.
Proof.
  induction l as [|f l IH]; simpl; [done|]. pose proof (size_nonneg f.1). pose proof (size_nonneg f.2). lia.
Qed.

Lemma encode_fields_total l sz acc :
  sz + body_size (filter (λ kv, envelope_key kv.1 = false) l) ≤ kMaxFrameSize →
  encode_fields l sz acc = Some (sz + body_size (filter (λ kv, envelope_key kv.1 = false) l),
    acc ++ ((λ kv, mkField kv.1 kv.2) <$> filter (λ kv, envelope_key kv.1 = false) l)).
Proof.
  revert sz acc. induction l as [|[k v] l IH]; simpl; intros sz acc Hl.
  { rewrite app_nil_r, Z.add_0_r. done. }
  rewrite filter_cons in Hl |- *. simpl in *. destruct (envelope_key k) eqn:Ek.
  - rewrite decide_False in Hl |- * by done. by apply IH.
  - rewrite decide_True in Hl |- * by done. simpl in *.
    pose proof (body_size_nonneg (filter (λ kv, envelope_key kv.1 = false) l)).
    destruct (Z.gtb_spec (sz + (10 + size k + size v)) kMaxFrameSize); [lia|].
    rewrite IH by lia. rewrite <- app_assoc. do 2 f_equal. lia.
Qed.

Section encode.
Context `{Platform} `{!PlatformLaws} `{!Utf8Laws} `{Parcel} `{!ParcelLaws}.

Lemma key_char_ascii c : key_char c = true → (0 <? ascii_Z c) && (ascii_Z c <? 128) = true.
Proof.
  unfold key_char. rewrite isalnum_spec. unfold ascii_letter, is_digit.
  repeat case_bool_decide; subst; try reflexivity; lia.
Qed.

Lemma ascii_text_nul s : ascii_text s = true → has_char nul s = false.
Proof.
  intros Hs. apply has_char_false. revert Hs. apply all_of_impl. intros c Hc.
  apply bool_decide_eq_true_2. intros ->. done.
Qed.

(** The checks of the writer on a field that [ValidField] accepts. *)
Lemma ValidField_written k v : ValidField k v = true → Field_Valid (mkField k v) = true.
Proof.
  unfold ValidField, Field_Valid, ValidString. destruct (_ || _) eqn:Hg; [done|]. intros Hk.
  rewrite !orb_false_iff in Hg. destruct Hg as [[[[He Hs] Hv] Hn] Hu]. simpl.
  assert (Ht : ascii_text k = true) by (eapply all_of_impl; [apply key_char_ascii|done]).
  rewrite (utf8_ascii k), (ascii_text_nul k), Hn by done. apply negb_false_iff in Hu. rewrite Hu.
  unfold kMaxValueSize in Hv. apply empty_false in He.
  assert (size k ≠ 0) by (intros ?%size_0; done). pose proof (size_nonneg k).
  destruct (Z.leb_spec (size k) 128); [|lia]. destruct (Z.ltb_spec (size k) 1); [lia|].
  destruct (Z.leb_spec (size v) 8192); [done|lia].
Qed.

Lemma Field_WriteToParcel_total f data :
  Field_Valid f = true → size data + (10 + size f.(key) + size f.(value)) ≤ 65536 →
  Field_WriteToParcel f data = Some (data +:+ field_image f).
Proof.
  intros Hf Hs. unfold Field_WriteToParcel. rewrite Hf. unfold Field_Valid in Hf.
  destruct (ValidString (key f) 128) eqn:Hk; [|done]. simpl in *. destruct (size (key f) <? 1); [done|].
  destruct (ValidString (value f) 8192) eqn:Hv; [|done]. pose proof (size_nonneg (key f)).
  pose proof (size_nonneg (value f)). pose proof (size_nonneg data).
  unfold Writer_String, Room. rewrite Hk. assert ((size data <=? 65536) &&
    (4 + size (key f) + 1 <=? 65536 - size data) = true) as -> by lia. cbn [mbind option_bind andb].
  rewrite Hv, size_app, size_string. assert ((size data + (5 + size (key f)) <=? 65536) &&
    (4 + size (value f) + 1 <=? 65536 - (size data + (5 + size (key f)))) = true) as -> by lia.
  simpl. unfold field_image. by rewrite app_assoc_s.
Qed.

Lemma size_field_image f : size (field_image f) = 10 + size f.(key) + size f.(value).
Proof. unfold field_image. rewrite size_app, !size_string. lia. Qed.

Lemma write_fields_total l data :
  Forall (λ kv, ValidField kv.1 kv.2 = true) l → size data + body_size l ≤ 65536 →
  write_fields ((λ kv, mkField kv.1 kv.2) <$> l) data =
    Some (data +:+ fields_image ((λ kv, mkField kv.1 kv.2) <$> l)) ∧
  size (fields_image ((λ kv, mkField kv.1 kv.2) <$> l)) = body_size l.
Proof.
  intros Hl. revert data. induction Hl as [|[k v] l Hf Hl IH]; intros data Hs.
  { simpl. by rewrite app_nil_r_s. }
  rewrite fmap_cons. cbn [write_fields fields_image body_size foldr fst snd] in *. fold (body_size l) in *. pose proof (body_size_nonneg l).
  rewrite Field_WriteToParcel_total by (try (by apply ValidField_written); simpl; lia).
  cbn [mbind option_bind].
  destruct (IH (data +:+ field_image (mkField k v))) as [-> Hsz].
  { rewrite size_app, size_field_image. simpl. lia. }
  rewrite size_app, size_field_image, Hsz, app_assoc_s. simpl. split; [done|lia].
Qed.

Lemma Envelope_WriteToParcel_total ver kd c m st l :
  ValidString m 128 = true → Z.of_nat (length l) ≤ 256 →
  Forall (λ kv, ValidField kv.1 kv.2 = true) l → 29 + size m + body_size l ≤ 65536 →
  let e := mkEnvelope ver kd c m st ((λ kv, mkField kv.1 kv.2) <$> l) in
  Envelope_WriteToParcel e "" = Some (envelope_image e) ∧
  size (envelope_image e) = 29 + size m + body_size l.
Proof.
  intros Hm Hc Hl Hs e. pose proof (body_size_nonneg l). pose proof (size_nonneg m).
  assert (Hv : Envelope_Valid e = true).
  { unfold Envelope_Valid, e. cbn [method fields]. rewrite Hm, length_fmap. cbn [negb].
    destruct (Z.gtb_spec (Z.of_nat (length l)) 256); [lia|]. apply forallb_forall.
    intros f Hf%list_elem_of_In. apply list_elem_of_fmap in Hf as ([k v] & -> & Hkv).
    rewrite Forall_forall in Hl. apply ValidField_written, (Hl _ Hkv). }
  unfold Envelope_WriteToParcel. rewrite Hv.
  unfold Writer_U32, Writer_U64, Writer_I32, Writer_String, Room, e.
  cbn [version kind correlation method status fields negb]. rewrite Hm.
  assert (Hsz : ∀ a b n, size a = b → 0 ≤ b → 0 ≤ n → b + n ≤ 65536 →
    (size a <=? 65536) && (n <=? 65536 - size a) = true) by (intros; lia).
  assert (Hw := write_fields_total l (("" +:+ put_u32 ver +:+ put_u32 kd +:+ put_u64 c +:+ put_string m +:+
    put_i32 st) +:+ put_u32 (u32 (Z.of_nat (length ((λ kv, mkField kv.1 kv.2) <$> l)))))).
  rewrite (Hsz "" 0) by (done || lia). cbn [mbind option_bind].
  rewrite (Hsz _ 4) by (rewrite ?size_app, ?size_u32; done || lia). cbn [mbind option_bind].
  rewrite (Hsz _ 8) by (rewrite ?size_app, ?size_u32; done || lia). cbn [mbind option_bind andb].
  rewrite (Hsz _ 16) by (rewrite ?size_app, ?size_u32, ?size_u64; done || lia).
  cbn [mbind option_bind].
  rewrite (Hsz _ (21 + size m)) by (rewrite ?size_app, ?size_u32, ?size_u64, ?size_string; change (size "") with 0; lia).
  cbn [mbind option_bind].
  rewrite (Hsz _ (25 + size m)) by (rewrite ?size_app, ?size_u32, ?size_u64, ?size_string, ?size_i32;
    change (size "") with 0; lia).
  cbn [mbind option_bind].
  rewrite !app_assoc_s in *.
  destruct Hw as [-> Hfs]; [done| |].
  { rewrite ?size_app, ?size_u32, ?size_u64, ?size_string, ?size_i32. change (size "") with 0. lia. }
  unfold envelope_image. simpl. rewrite !size_app, !size_u32, size_u64, size_string, size_i32, Hfs.
  rewrite ?app_nil_s, ?app_assoc_s. split; [done|lia].
Qed.
End encode.

(** ** Requests *)

Lemma body_size_perm l1 l2 : l1 ≡ₚ l2 → body_size l1 = body_size l2.
Proof. induction 1; simpl; lia. Qed.

(** The bytes of the frame of a request, without its length. *)
Definition request_size (m : Message) : Z := 29 + size (Get m "method") + body_size (body_items m).

(** A request as an application hands it over: the envelope's own fields are
    left to the library, the method is not one of the daemon's, and there is
    room for two fields more. *)
Record request_ok `{Platform} (m : Message) : Prop := mk_request_ok {
  ro_valid : ∀ k v, m !! k = Some v → ValidField k v = true;
  ro_envelope : m !! "v" = None ∧ m !! "id" = None ∧ m !! "status" = None;
  ro_method : Get m "method" ≠ "" ∧ size (Get m "method") ≤ 128 ∧ method_kind (Get m "method") = 1;
  ro_room : msize m ≤ kMaxFields - 2;
}.

(** The request with its envelope. *)
Definition on_wire (n : Z) (m : Message) : Message := <["id" := to_string n]> (<["v" := "1"]> m).

Lemma on_wire_body n m : m !! "v" = None → m !! "id" = None →
  body_size (body_items (on_wire n m)) = body_size (body_items m).
Proof.
  intros Hv Hid. apply body_size_perm. assert (Hnd : ∀ m, NoDup (body_items m)).
  { intros m'. apply NoDup_filter. eapply NoDup_fmap_1, items_NoDup. }
  apply NoDup_Permutation; [done..|]. intros [k v]. unfold body_items, on_wire.
  rewrite !list_elem_of_filter, !elem_of_items. simpl.
  destruct (decide (k = "id")) as [->|]; [by split; intros []|].
  destruct (decide (k = "v")) as [->|]; [by split; intros []|].
  by rewrite !lookup_insert_ne by done.
Qed.

Lemma on_wire_Get n m k : k ≠ "id" → k ≠ "v" → Get (on_wire n m) k = Get m k.
Proof. intros. unfold on_wire. by rewrite !Get_insert_ne by done. Qed.

Lemma on_wire_size n m : m !! "v" = None → m !! "id" = None → msize (on_wire n m) = msize m + 2.
Proof.
  intros Hv Hid. unfold msize, on_wire.
  rewrite !map_size_insert_None by (rewrite ?lookup_insert_ne; done). lia.
Qed.

Section requests.
Context `{Platform} `{!PlatformLaws} `{!Utf8Laws} `{Parcel} `{!ParcelLaws}.

(** A key of letters, digits and underscores. *)
Definition plain_key (k : string) : bool :=
  negb (empty k) && (size k <=? 128) &&
  all_of (λ c, ascii_letter c || is_digit c || bool_decide (c = "_"%char)) k.

Lemma plain_key_ok k : plain_key k = true → empty k = false ∧ size k ≤ 128 ∧ all_of key_char k = true.
Proof.
  unfold plain_key. rewrite !andb_true_iff, negb_true_iff, Z.leb_le. intros [[? ?] Ha].
  split_and!; [done..|]. revert Ha. apply all_of_impl. intros c. unfold key_char. rewrite isalnum_spec.
  intros [->| ->]%orb_true_iff; [done|]. by rewrite orb_true_r.
Qed.

(** A short decimal is a value every field may have. *)
Lemma digits_ascii s : all_of is_digit s = true → ascii_text s = true.
Proof. apply all_of_impl. unfold is_digit. intros c. lia. Qed.

Lemma ascii_value k v : plain_key k = true →
  ascii_text v = true → size v ≤ kMaxValueSize → ValidField k v = true.
Proof.
  intros (He & Hk & Hc)%plain_key_ok Ha Hv. unfold ValidField. rewrite He, (utf8_ascii v), (ascii_text_nul v), Hc by done.
  destruct (Z.gtb_spec (size k) 128); [lia|]. destruct (Z.gtb_spec (size v) kMaxValueSize); [lia|done].
Qed.

Lemma number_value k n : plain_key k = true →
  0 ≤ n ≤ int64_max → ValidField k (to_string n) = true.
Proof.
  intros Hk Hn. unfold int64_max in Hn. rewrite to_string_nonneg by lia. apply ascii_value; try done.
  - apply digits_ascii. by destruct (digits_spec n) as (_ & ? & _); [lia|].
  - pose proof (digits_length n 20 ltac:(simpl; lia) ltac:(lia)). unfold size, kMaxValueSize. lia.
Qed.

Lemma on_wire_valid n m : request_ok m → 0 < n ≤ int64_max →
  ∀ k v, on_wire n m !! k = Some v → ValidField k v = true.
Proof.
  intros Hm Hn k v. unfold on_wire. rewrite !lookup_insert_Some.
  intros [[<- <-]|[_ [[<- <-]|[_ Hk]]]]; [apply number_value; done || lia|by apply ascii_value|].
  by eapply ro_valid.
Qed.

(** A request is encoded whenever its frame fits. *)
Lemma Encode_request n m : request_ok m → 0 < n ≤ int64_max → request_size m ≤ kMaxFrameSize →
  is_Some (Encode (on_wire n m)).
Proof.
  intros Hm Hn Hs. pose proof (on_wire_valid n m Hm Hn) as Hval.
  destruct Hm as [Hv (Hv1 & Hid & Hst) (Hne & Hlen & Hkd) Hroom].
  unfold Encode. rewrite on_wire_size by done.
  rewrite (bool_decide_eq_false_2 (on_wire n m = ∅)) by apply insert_non_empty.
  destruct (Z.gtb_spec (msize m + 2) kMaxFields); [lia|].
  assert (Hgv : Get (on_wire n m) "v" = "1") by (unfold on_wire; by rewrite Get_insert_ne, Get_insert).
  rewrite Hgv. change (false || false || negb (eqs "1" "1")) with false. cbv iota.
  rewrite (proj2 (forallb_forall _ _)).
  2: { intros [k v] Hk%list_elem_of_In%elem_of_items. by apply Hval. }
  cbn [negb]. rewrite (on_wire_Get n m "method") by done. apply empty_false in Hne as Hne'. rewrite Hne'.
  destruct (Z.gtb_spec (size (Get m "method")) 128); [lia|]. rewrite Hkd. cbn [orb].
  assert (Hgid : Get (on_wire n m) "id" = to_string n) by apply Get_insert.
  rewrite Hgid, ParseNumber_to_string by (unfold in_int64, int64_min, int64_max in *; lia).
  destruct (Z.ltb_spec n 0); [lia|]. destruct (Z.eqb_spec n 0); [lia|]. cbn [orb andb negb Z.eqb Pos.eqb].
  assert (has (on_wire n m) "status" = false) as ->.
  { unfold has, on_wire. rewrite !lookup_insert_ne by done. rewrite Hst. done. }
  cbn [mbind option_bind]. fold (body_items (on_wire n m)).
  assert (Hb : 29 + size (Get m "method") + body_size (body_items (on_wire n m)) ≤ kMaxFrameSize)
    by (by rewrite on_wire_body).
  rewrite encode_fields_total by exact Hb. fold (body_items (on_wire n m)). cbn [mbind option_bind app].
  pose proof (body_items_length (on_wire n m) [] (NoDup_nil_2) ltac:(set_solver)) as Hcount.
  rewrite on_wire_size in Hcount by done. unfold kMaxFields in *.
  destruct (Envelope_WriteToParcel_total 1 1 n (Get m "method") 0 (body_items (on_wire n m))) as [Hw Hsz].
  - pose proof (Hv _ _ (Get_nonempty _ _ Hne)) as Hf%ValidField_written. unfold Field_Valid in Hf. simpl in Hf.
    destruct (ValidString "method" 128 ) ; [|done]. simpl in Hf.
    destruct (ValidString (Get m "method") 8192) eqn:Hvs; [|done]. unfold ValidString in *.
    destruct (Z.leb_spec (size (Get m "method")) 128); [|lia]. by destruct (size (Get m "method") <=? 8192).
  - simpl in Hcount. lia.
  - apply Forall_forall. intros [k v] Hk. apply Hval. unfold body_items in Hk.
    apply list_elem_of_filter in Hk as [_ Hk]. by apply elem_of_items.
  - done.
  - rewrite Hw. cbn [mbind option_bind]. rewrite Hsz, Z.eqb_refl. by eexists.
Qed.

(** What the daemon decodes is the request with its envelope. *)
Lemma Decode_request n m frame : request_ok m → 0 < n ≤ int64_max → Encode (on_wire n m) = Some frame →
  ∃ body, frame = frame_header (size body) +:+ body ∧ frame_size frame = size body ∧
    size body ≤ kMaxFrameSize ∧ Decode body = Some (on_wire n m).
Proof.
  intros Hm Hn He. destruct (Decode_frame _ _ He) as (body & ? & ? & ? & Hd).
  exists body. split_and!; try done. rewrite Hd. f_equal. unfold canonical.
  rewrite (on_wire_Get n m "method") by done. destruct (ro_method _ Hm) as (_ & _ & ->). cbn [Z.eqb Pos.eqb].
  assert (MsgNumber (on_wire n m) "id" 0 = n) as ->.
  { unfold MsgNumber. replace (Get (on_wire n m) "id") with (to_string n) by (symmetry; apply Get_insert).
    by rewrite ParseNumber_to_string by (unfold in_int64, int64_min, int64_max in *; lia). }
  unfold on_wire. by rewrite insert_insert_eq.
Qed.
End requests.

(** ** Builders *)

Import api.

Inductive builder_call :=
| BSet (key value : option string)
| BSetInt64 (key : option string) (value : Z)
| BSetCheckMode (mode : Z)
| BAddRequirement (definition operation scope purpose recipient : option string).

Section builders.
Context `{Platform}.

Definition builder_step (call : builder_call) (params : option Message) : Z * option Message :=
  match call with
  | BSet key value => consent_params_set params key value
  | BSetInt64 key value => consent_params_set_int64 params key value
  | BSetCheckMode mode => consent_params_set_check_mode params mode
  | BAddRequirement definition operation scope purpose recipient =>
      consent_params_add_requirement params definition operation scope purpose recipient
  end.

(** A builder after calls that may have failed. *)
Definition build (calls : list builder_call) : option Message :=
  foldl (λ params call, (builder_step call params).2) (consent_params_create true).2 calls.

(** No field of a builder is one of the library or of the daemon. *)
Record builder_ok (m : Message) : Prop := mk_builder_ok {
  bu_fields : ∀ k v, m !! k = Some v → Reserved k = false ∧ ValidField k v = true;
  bu_size : msize m ≤ kMaxFields - 3;
}.

(** A call changes a builder into one that is well formed, and a failed call
    does not change it. *)
Definition builds (params : option Message) (r : Z * option Message) : Prop :=
  (r.1 ≠ 0 → r.2 = params) ∧ ∀ m, params = Some m → builder_ok m → ∃ m', r.2 = Some m' ∧ builder_ok m'.

Lemma builds_same params status : builds params (status, params).
Proof. split; [done|]. intros m ->. eauto. Qed.

Lemma msize_insert_le {A} (m : gmap string A) k v :
  msize (<[k := v]> m) = msize m + if bool_decide (is_Some (m !! k)) then 0 else 1.
Proof.
  unfold msize. rewrite map_size_insert. destruct (m !! k); simpl; lia.
Qed.

(** What a call of [consent_params_set] that succeeded did. *)
Lemma consent_params_set_ok params k v params' :
  consent_params_set params k v = (0, params') →
  ∃ m key value, params = Some m ∧ k = Some key ∧ v = Some value ∧ params' = Some (<[key := value]> m) ∧
    Reserved key = false ∧ ValidField key value = true ∧ (m !! key = None → msize m < kMaxFields - 3).
Proof.
  unfold consent_params_set. destruct params as [m|], k as [key|], v as [value|]; try done.
  destruct (Reserved key) eqn:Hr; [done|]. destruct (ValidField key value) eqn:Hv; [|done]. cbn [negb orb].
  destruct (negb (has m key) && _) eqn:Hb; [done|]. intros [= <-].
  exists m, key, value. split_and!; try done. intros Hk. unfold has in Hb. rewrite Hk in Hb. simpl in Hb. lia.
Qed.

Lemma builds_set params k v : builds params (consent_params_set params k v).
Proof.
  destruct (consent_params_set params k v) as [status params'] eqn:Hs. destruct (decide (status = 0)) as [->|].
  - split; [done|]. apply consent_params_set_ok in Hs as (m & key & value & -> & -> & -> & -> & Hr & Hv & Hroom).
    intros ? [= <-] [Hf Hsz]. eexists. split; [done|]. constructor.
    + intros k' v' [[<- <-]|[_ ?]]%lookup_insert_Some; [done|]. by apply Hf.
    + rewrite msize_insert_le. case_bool_decide as Hin; [lia|]. apply eq_None_not_Some in Hin.
      specialize (Hroom Hin). lia.
  - unfold consent_params_set in Hs. destruct params as [m|], k as [key|], v as [value|];
      repeat case_match; simplify_eq; first [apply builds_same|done].
Qed.

Lemma set_fields_ok l params : ∀ m, params = Some m → builder_ok m →
  ∃ m', (set_fields params l).2 = Some m' ∧ builder_ok m'.
Proof.
  revert params. induction l as [|[k v] l IH]; intros params m -> Hm; [eauto|]. cbn [set_fields].
  destruct (builds_set (Some m) (Some k) (Some v)) as [_ Hb]. destruct (Hb m eq_refl Hm) as (m' & Hm' & Hok).
  destruct (consent_params_set _ _ _) as [status p]. simpl in Hm'. subst p.
  destruct (status =? 0); cbn [negb]; [by eapply IH|eauto].
Qed.

Lemma builds_add params d o s p r : builds params (consent_params_add_requirement params d o s p r).
Proof.
  unfold consent_params_add_requirement.
  destruct params as [m|], d as [d|], o as [o|], s as [s|], p as [p|], r as [r|]; try apply builds_same.
  destruct (_ || _); [apply builds_same|]. destruct (_ || _); [apply builds_same|].
  pose proof (set_fields_ok (requirement_fields ("r" +:+ to_string (MsgNumber m "count" 0) +:+ ".") d o s p r)
    (Some m) m eq_refl) as Hset.
  destruct (set_fields _ _) as [status updated]. destruct (status =? 0); [|apply builds_same]. cbn [negb].
  pose proof (builds_set updated (Some "count") (Some (to_string (MsgNumber m "count" 0 + 1)))) as [_ Hb].
  unfold consent_params_set_int64. destruct (consent_params_set _ _ _) as [status2 updated2]. simpl in *.
  destruct (Z.eqb_spec status2 0) as [->|]; [|apply builds_same]. split; [done|].
  intros ? [= <-] Hm. destruct (Hset Hm) as (m' & -> & Hm'). by eapply Hb.
Qed.

Lemma builds_step call params : builds params (builder_step call params).
Proof.
  destruct call; simpl; [apply builds_set..| |apply builds_add].
  unfold consent_params_set_check_mode. case_match; [apply builds_same|apply builds_set].
Qed.

Lemma build_ok calls : ∃ m, build calls = Some m ∧ builder_ok m.
Proof.
  unfold build. assert (H0 : ∃ m, (consent_params_create true).2 = Some m ∧ builder_ok m).
  { exists ∅. split; [done|]. constructor; [by intros ?? ?%lookup_empty_Some|done]. }
  revert H0. generalize (consent_params_create true).2. induction calls as [|c calls IH]; intros p Hp; [done|].
  apply IH. destruct Hp as (m & -> & Hm). destruct (builds_step c (Some m)) as [_ Hb]. by eapply Hb.
Qed.

Lemma builder_ok_reserved m k : builder_ok m → Reserved k = true → m !! k = None.
Proof.
  intros [Hf _] Hk. destruct (m !! k) eqn:E; [|done]. apply Hf in E as [? _]. congruence.
Qed.
End builders.

(** ** From the application to the daemon *)

(** The methods of the functions that pass a builder on as it is. *)
Definition api_methods : list string :=
  ["request"; "check"; "result"; "cancel"; "prompt"; "respond"; "session_open"; "session_heartbeat";
   "session_suspend"; "session_resume"; "session_close"; "session_state"; "data_register"; "data_derived";
   "data_release"; "cleanup"; "cleanup_list"; "revoke"].

Section admission.
Context `{Platform} `{Parcel} `{ClientEnv}.

(** What an operation of a handle was admitted for. *)
Definition admitted_for (message : Message) (id : Z) (s : State) : Prop :=
  (operation id s).(op_message) = message ∧ (operation id s).(op_remote_id) = "".

Lemma Admit_for message timeout asynchronous callback s :
  (Admit message timeout asynchronous callback s).2.1 = 0 →
  let r := Admit message timeout asynchronous callback s in admitted_for message r.2.2 r.1.
Proof.
  cbv zeta. unfold Admit. c_run. destruct (Z.eqb_spec (admission_status message (set_tick (S (tick s)) s)) 0);
    cbn [negb]; [|done].
  rewrite !c_bind. destruct (cache_lookup _ _) as [s1 cached]. intros _. cbn [fst snd].
  unfold insert_operation, Wake, admitted_for, operation. c_run.
  destruct asynchronous, cached; c_run; simpl; by rewrite lookup_insert_eq.
Qed.

Lemma Call_for current dispatching message timeout s s' id :
  Client.Call current true dispatching message timeout s = (s', (0, id)) → admitted_for message id s'.
Proof.
  unfold Client.Call. destruct (_ || _ || _); [done|]. destruct (_ && _); [done|]. rewrite c_bind.
  pose proof (Admit_for message timeout false None s) as Ha. cbv zeta in Ha.
  destruct (Admit _ _ _ _ s) as [s1 [status id1]]. simpl in *. rewrite c_bind.
  destruct (Z.eqb_spec status 0) as [->|]; [|by intros [= ? ?]]. intros [= <- <-]. by apply Ha.
Qed.

Lemma Submit_for current owner message callback s s' id :
  Client.Submit current owner message callback true s = (s', (0, id)) → admitted_for message id s'.
Proof.
  unfold Client.Submit. destruct (_ || _); [done|].
  pose proof (Admit_for message kMaximumWaitMs true callback s) as Ha. cbv zeta in Ha.
  intros Heq. rewrite Heq in Ha. by apply Ha.
Qed.

(** What is sent for an operation that has no answer yet. *)
Lemma wire_message_for message id s n : admitted_for message id s →
  wire_message (operation id s) (to_string n) = on_wire n message.
Proof. intros [Hm Hr]. unfold wire_message. by rewrite Hm, Hr. Qed.
End admission.

Section faithful.
Context `{Platform} `{!PlatformLaws} `{!Utf8Laws} `{Parcel} `{!ParcelLaws} `{ClientEnv} `{offline.Os}.

Lemma method_value method : method ∈ api_methods →
  plain_key method = true ∧ ascii_text method = true ∧ size method ≤ 128 ∧ method_kind method = 1 ∧ method ≠ "".
Proof.
  intros Hm. repeat (apply elem_of_cons in Hm as [->|Hm]; [by vm_compute|]). by apply elem_of_nil in Hm.
Qed.

(** The request of a builder is one that can be sent. *)
Lemma builder_request m method : builder_ok m → method ∈ api_methods → request_ok (<["method" := method]> m).
Proof.
  intros Hm (_ & Ha & Hs & Hk & Hne)%method_value. constructor.
  - intros k v [[<- <-]|[_ Hkv]]%lookup_insert_Some; [|by apply (bu_fields m Hm)].
    apply ascii_value; [done..|]. unfold kMaxValueSize. lia.
  - split_and!; rewrite lookup_insert_ne by done; by apply builder_ok_reserved.
  - by rewrite Get_insert.
  - rewrite msize_insert_le, builder_ok_reserved by done. simpl. destruct Hm. lia.
Qed.

(** C20: the daemon gets exactly what the application built.  Whatever calls,
    successful or not, an application makes on a builder, and to whichever of
    the functions of the C API with one of the eighteen methods of
    [api_methods] it passes the builder (all that send a request but those
    that register, update or remove a package), the operation the handle
    admits carries the builder's fields and the function's method, and its
    frame, sent with any wire identifier, decodes at the daemon to those
    fields, the method, the identifier and the version and nothing else; no
    field that the library or the daemon reserves for itself can be among
    them.  The only requests that cannot be encoded are those whose frame
    would exceed 65536 bytes. *)
Theorem api_request_faithful calls params method c timeout callback s s' id n :
  build calls = Some params → method ∈ api_methods → 0 < n ≤ int64_max →
  Call (Some Online) c method (Some params) timeout true s = (s', (0, id)) ∨
    Submit (Some Online) c method (Some params) callback true s = (s', (0, id)) →
  let request := <["method" := method]> params in
  wire_message (operation id s') (to_string n) = on_wire n request ∧
  match Encode (wire_message (operation id s') (to_string n)) with
  | Some frame => ∃ body, frame = frame_header (size body) +:+ body ∧ frame_size frame = size body ∧
                    Decode body = Some (on_wire n request)
  | None => kMaxFrameSize < request_size request
  end ∧
  (∀ k, Reserved k = true → k ∉ ["v"; "id"; "method"] → on_wire n request !! k = None).
Proof.
  intros Hb Hm Hn Hcall request. destruct (build_ok calls) as (m & Hm' & Hok). simplify_eq.
  pose proof (builder_request _ method Hok Hm) as Hreq. fold request in Hreq.
  assert (Ha : admitted_for request id s').
  { destruct Hcall as [Hc|Hc].
    - change (Client.Call c.(current) true c.(dispatching) request timeout s = (s', (0, id))) in Hc.
      by eapply Call_for.
    - destruct callback as [f|]; [|done].
      change (Client.Submit c.(current) c.(owner) request (Some f) true s = (s', (0, id))) in Hc.
      by eapply Submit_for. }
  rewrite (wire_message_for _ _ _ n Ha). split; [done|]. split.
  - destruct (Encode (on_wire n request)) as [frame|] eqn:He.
    + destruct (Decode_request n request frame Hreq Hn He) as (body & ? & ? & _ & ?). by exists body.
    + destruct (Z.lt_ge_cases kMaxFrameSize (request_size request)) as [|Hle]; [done|].
      destruct (Encode_request n request Hreq Hn Hle) as [? Hs]. by rewrite He in Hs.
  - intros k Hk Hne. unfold on_wire, request. rewrite !not_elem_of_cons in Hne. destruct Hne as (?&?&?&_).
    rewrite !lookup_insert_ne by done. by apply builder_ok_reserved.
Qed.
End faithful.

(** ** Requirements *)

(** One requirement as an application adds it. *)
Record requirement := mkRequirement {
  rq_definition : string; rq_operation : string; rq_scope : string; rq_purpose : string;
  rq_recipient : string;
}.

Definition rq_fields (r : requirement) : list (string * string) :=
  [("definition", r.(rq_definition)); ("operation", r.(rq_operation)); ("scope", r.(rq_scope));
   ("purpose", r.(rq_purpose)); ("recipient", r.(rq_recipient))].

Lemma row_key_inj i j f g : 0 ≤ i → 0 ≤ j → row_key i f = row_key j g → i = j ∧ f = g.
Proof.
  intros Hi Hj. unfold row_key. rewrite !app_cons_s. intros [= Heq]. rewrite !app_nil_s in Heq.
  rewrite !to_string_nonneg in Heq by done.
  assert (Hf : ∀ n s, 0 ≤ n → find_char "." (digits n +:+ String "." s) = Some (String.length (digits n))).
  { intros n s Hn. by rewrite find_char_app by (by apply digits_no_char). }
  assert (Hl : String.length (digits i) = String.length (digits j)).
  { pose proof (Hf i f Hi) as H1. rewrite Heq, Hf in H1 by done. congruence. }
  apply app_inj_len in Heq as [Hd [= Hr]]; [|done]. split; [by apply digits_inj|done].
Qed.

Lemma row_key_count i f : row_key i f ≠ "count".
Proof. done. Qed.

(** The fields of a row, on top of a builder. *)
Definition with_row (c : Z) (r : requirement) (m : Message) : Message :=
  foldl (λ m kv, <[row_key c kv.1 := kv.2]> m) m (rq_fields r).

Lemma with_row_field c r m f v : (f, v) ∈ rq_fields r → with_row c r m !! row_key c f = Some v.
Proof.
  intros Hf. unfold with_row. simpl in *. unfold rq_fields in Hf.
  repeat (apply elem_of_cons in Hf as [[= -> ->]|Hf];
    [repeat (rewrite lookup_insert_ne by (unfold row_key; intros ?%app_inj_l%app_inj_l%app_inj_l; done));
     apply lookup_insert_eq|]).
  by apply elem_of_nil in Hf.
Qed.

Lemma with_row_other c r m k : (∀ f, k ≠ row_key c f) → with_row c r m !! k = m !! k.
Proof. intros Hk. unfold with_row. simpl. by rewrite !lookup_insert_ne by (intros E; by apply (Hk _ (eq_sym E))). Qed.

Section requirements.
Context `{Platform}.

Definition add_requirement (r : requirement) (params : option Message) : Z * option Message :=
  consent_params_add_requirement params (Some r.(rq_definition)) (Some r.(rq_operation))
    (Some r.(rq_scope)) (Some r.(rq_purpose)) (Some r.(rq_recipient)).

(** Adding requirements in order; [None] when one is refused. *)
Fixpoint add_requirements (rs : list requirement) (params : option Message) : option Message :=
  match rs with
  | [] => params
  | r :: rs' =>
      match add_requirement r params with
      | (status, params') => if status =? 0 then add_requirements rs' params' else None
      end
  end.

Lemma set_fields_zero l m p : set_fields (Some m) l = (0, p) →
  p = Some (foldl (λ m kv, <[kv.1 := kv.2]> m) m l).
Proof.
  revert m. induction l as [|[k v] l IH]; intros m; cbn [set_fields]; [by intros [= <-]|].
  destruct (consent_params_set _ _ _) as [status p'] eqn:Hs.
  destruct (Z.eqb_spec status 0) as [->|]; cbn [negb]; [|by intros [= ? ?]].
  apply consent_params_set_ok in Hs as (? & ? & ? & [= <-] & [= <-] & [= <-] & -> & _). apply IH.
Qed.

Lemma add_requirement_ok r m p : add_requirement r (Some m) = (0, p) →
  let c := MsgNumber m "count" 0 in
  0 ≤ c < kMaxRequirements ∧ p = Some (<["count" := to_string (c + 1)]> (with_row c r m)).
Proof.
  unfold add_requirement, consent_params_add_requirement. destruct (_ || _); [done|].
  destruct (_ || _) eqn:Hc; [done|]. apply orb_false_iff in Hc as [Hc1 Hc2].
  destruct (set_fields _ _) as [status updated] eqn:Hs.
  destruct (Z.eqb_spec status 0) as [->|]; cbn [negb]; [|by intros [= ? ?]].
  apply set_fields_zero in Hs. unfold consent_params_set_int64.
  destruct (consent_params_set _ _ _) as [status2 updated2] eqn:Hn. intros [= -> <-]. simpl in *.
  apply consent_params_set_ok in Hn as (m' & ? & ? & -> & [= <-] & [= <-] & -> & _).
  split; [lia|]. injection Hs as ->. unfold with_row, row_key. simpl. by rewrite !app_assoc_s.
Qed.
End requirements.

(** The rows of requirements numbered from [c] on. *)
Definition rows_from (c : Z) (rs : list requirement) (m : Message) : Prop :=
  ∀ i r f v, rs !! i = Some r → (f, v) ∈ rq_fields r → m !! row_key (c + Z.of_nat i) f = Some v.

Section delivered.
Context `{Platform} `{!PlatformLaws} `{!Utf8Laws} `{Parcel} `{!ParcelLaws}.

Lemma MsgNumber_count c (m : Message) : 0 ≤ c ≤ int64_max →
  MsgNumber (<["count" := to_string c]> m) "count" 0 = c.
Proof.
  intros Hc. unfold MsgNumber. rewrite Get_insert, ParseNumber_to_string; [done|].
  unfold in_int64, int64_min, int64_max in *. lia.
Qed.

Lemma add_requirements_spec rs m params :
  add_requirements rs (Some m) = Some params →
  let c := MsgNumber m "count" 0 in
  (rs ≠ [] → 0 ≤ c ∧ c + Z.of_nat (length rs) ≤ kMaxRequirements ∧
             params !! "count" = Some (to_string (c + Z.of_nat (length rs)))) ∧
  rows_from c rs params ∧
  (∀ k, k ≠ "count" → (∀ i f, c ≤ i → k ≠ row_key i f) → params !! k = m !! k).
Proof.
  revert m. induction rs as [|r rs IH]; intros m; cbn [add_requirements]; cbv zeta.
  { intros [= <-]. split_and!; [done|intros ????; by rewrite lookup_nil|done]. }
  destruct (add_requirement r (Some m)) as [status p] eqn:Ha.
  destruct (Z.eqb_spec status 0) as [->|]; [|done].
  apply add_requirement_ok in Ha as [Hc ->]. set (c := MsgNumber m "count" 0) in *. intros Hrs.
  pose proof (IH _ Hrs) as HI. cbv zeta in HI. unfold kMaxRequirements in *.
  rewrite MsgNumber_count in HI by (unfold int64_max; lia). destruct HI as (Hcount & Hrows & Hrest).
  assert (Hrow : ∀ f v, (f, v) ∈ rq_fields r → params !! row_key c f = Some v).
  { intros f v Hf. rewrite Hrest by (try done; intros i g ? [? _]%row_key_inj; lia).
    rewrite lookup_insert_ne by done. by apply with_row_field. }
  split_and!.
  - intros _. destruct rs as [|r' rs].
    + simpl in Hrs. injection Hrs as <-. rewrite lookup_insert_eq. simpl. split_and!; [lia..|done].
    + destruct (Hcount ltac:(done)) as (_ & Hle & ->). cbn [length] in *. split_and!; [lia..|].
      do 2 f_equal. lia.
  - intros [|i] r' f v Hi Hf; simpl in Hi.
    + simplify_eq. rewrite Z.add_0_r. by apply Hrow.
    + replace (c + Z.of_nat (S i)) with (c + 1 + Z.of_nat i) by lia. by eapply Hrows.
  - intros k Hk Hne. rewrite Hrest by (try done; intros i f Hi; apply Hne; lia).
    rewrite lookup_insert_ne by done. apply with_row_other. intros f. apply Hne. lia.
Qed.

Lemma add_requirements_ok rs m params :
  builder_ok m → add_requirements rs (Some m) = Some params → builder_ok params.
Proof.
  revert m. induction rs as [|r rs IH]; intros m Hm; cbn [add_requirements]; [by intros [= <-]|].
  destruct (builds_add (Some m) (Some r.(rq_definition)) (Some r.(rq_operation)) (Some r.(rq_scope))
    (Some r.(rq_purpose)) (Some r.(rq_recipient))) as [_ Hb]. fold (add_requirement r (Some m)) in Hb.
  destruct (add_requirement r (Some m)) as [status p]. destruct (status =? 0); [|done].
  destruct (Hb m eq_refl Hm) as (m' & ? & Hm'). simpl in *. subst p. by apply IH.
Qed.

(** C21: the requirements an application adds are the ones the daemon checks.
    When [consent_params_add_requirement] accepts requirements in order on a
    builder without any, at most 16 are accepted, and in whatever request the
    builder is then sent, the daemon reads their number as the count it
    iterates over, and as the fields of row [i] exactly those of the [i]-th
    requirement; every other field of the builder is unchanged.  A requirement
    that is refused leaves the builder as it was. *)
Theorem requirements_delivered rs m params method n frame :
  builder_ok m → m !! "count" = None → rs ≠ [] → add_requirements rs (Some m) = Some params →
  method ∈ api_methods → 0 < n ≤ int64_max →
  Encode (on_wire n (<["method" := method]> params)) = Some frame →
  ∃ body request, frame = frame_header (size body) +:+ body ∧ Decode body = Some request ∧
    (length rs ≤ 16)%nat ∧ Number request "count" 0 1 16 = Ret (Z.of_nat (length rs)) ∧
    (∀ i r, rs !! i = Some r →
       row_get request (Z.of_nat i) "definition" = r.(rq_definition) ∧
       row_get request (Z.of_nat i) "operation" = r.(rq_operation) ∧
       row_get request (Z.of_nat i) "scope" = r.(rq_scope) ∧
       row_get request (Z.of_nat i) "purpose" = r.(rq_purpose) ∧
       row_get request (Z.of_nat i) "recipient" = r.(rq_recipient)) ∧
    (∀ k, k ∉ ["v"; "id"; "method"; "count"] → (∀ i f, 0 ≤ i → k ≠ row_key i f) → request !! k = m !! k) ∧
    (∀ r p, (add_requirement r (Some p)).1 ≠ 0 → (add_requirement r (Some p)).2 = Some p).
Proof.
  intros Hm Hnone Hne Hadd Hmeth Hn He.
  pose proof (add_requirements_ok rs m params Hm Hadd) as Hok.
  pose proof (builder_request params method Hok Hmeth) as Hreq.
  destruct (Decode_request n _ frame Hreq Hn He) as (body & Hf & _ & _ & Hd).
  destruct (add_requirements_spec rs m params Hadd) as (Hcount & Hrows & Hrest).
  assert (Hz : MsgNumber m "count" 0 = 0) by (unfold MsgNumber, Get, GetOr; by rewrite Hnone).
  rewrite Hz in *. destruct (Hcount Hne) as (_ & Hle & Hc). unfold kMaxRequirements in *.
  exists body, (on_wire n (<["method" := method]> params)).
  assert (Hget : ∀ k, k ∉ ["v"; "id"; "method"] → on_wire n (<["method" := method]> params) !! k = params !! k).
  { intros k Hk. rewrite !not_elem_of_cons in Hk. destruct Hk as (?&?&?&_). unfold on_wire.
    by rewrite !lookup_insert_ne by done. }
  split_and!; [done|done|lia| | | |].
  - unfold Number. rewrite Hget, Hc by (by rewrite !not_elem_of_cons; split_and!; try apply not_elem_of_nil).
    apply Integer_digits; [|unfold int64_max; lia]. destruct rs; simpl in *; [done|lia].
  - intros i r Hi. assert (Hrow : ∀ f v, (f, v) ∈ rq_fields r →
      row_get (on_wire n (<["method" := method]> params)) (Z.of_nat i) f = v).
    { intros f v Hfv. apply Get_lookup. rewrite Hget; [by eapply (Hrows i)|].
      rewrite !not_elem_of_cons. split_and!; try done. apply not_elem_of_nil. }
    split_and!; apply Hrow; unfold rq_fields; set_solver.
  - intros k Hk Hrk. rewrite !not_elem_of_cons in Hk. destruct Hk as (?&?&?&?&_).
    rewrite Hget, Hrest by (try done; rewrite !not_elem_of_cons; split_and!; try done; apply not_elem_of_nil). done.
  - intros r p. by apply (builds_add (Some p)).
Qed.
End delivered.

(** ** Registrations *)

Section registrations.
Context `{Platform} `{!PlatformLaws} `{!Utf8Laws} `{Parcel} `{!ParcelLaws} `{ClientEnv} `{offline.Os}.

Lemma Encode_too_many m : kMaxFields < msize m → Encode m = None.
Proof. intros Hm. unfold Encode. destruct (Z.gtb_spec (msize m) kMaxFields); [|lia]. by rewrite orb_true_r. Qed.

(** Fields that the library adds to a builder. *)
Lemma extended_request m (added : Message) :
  builder_ok m → (∀ k v, added !! k = Some v → ValidField k v = true ∧ k ∉ ["v"; "id"; "status"]) →
  added !! "method" = Some "register" ∨ added !! "method" = Some "unregister" →
  ∀ request, (∀ k v, request !! k = Some v → added !! k = Some v ∨ m !! k = Some v) →
  request !! "method" = added !! "method" → msize request ≤ kMaxFields - 2 → request_ok request.
Proof.
  intros Hm Hadd Hmeth request Hreq Heq Hsz.
  assert (Habs : ∀ k, k ∈ ["v"; "id"; "status"] → request !! k = None).
  { intros k Hk. destruct (request !! k) as [v|] eqn:E; [|done].
    apply Hreq in E as [E|E]; [by apply Hadd in E as [_ ?]|]. apply (bu_fields m Hm) in E as [Hr _].
    repeat (apply elem_of_cons in Hk as [->|Hk]; [done|]). by apply elem_of_nil in Hk. }
  constructor; [|split_and!; apply Habs; set_solver| |done].
  - intros k v [E|E]%Hreq; [by apply Hadd|by apply (bu_fields m Hm)].
  - rewrite <- Heq in Hmeth. by destruct Hmeth as [->%Get_lookup | ->%Get_lookup].
Qed.

Lemma plain_value k v : k ∈ ["package"; "app"] → ValidField k v = true → ValidField k v = true ∧ k ∉ ["v"; "id"; "status"].
Proof. intros Hk Hv. split; [done|]. set_solver. Qed.

Lemma register_request m package app : builder_ok m → ValidField "package" package = true →
  ValidField "app" app = true → msize (register_message m package app) ≤ kMaxFields - 2 →
  request_ok (register_message m package app).
Proof.
  intros Hm Hp Ha. apply (extended_request m
    (<["app" := app]> (<["package" := package]> (<["method" := "register"]> ∅))));
    [done| |by left| |by unfold register_message; simplify_map_eq].
  - intros k v. rewrite !lookup_insert_Some, lookup_empty.
    intros [[<- <-]|[_ [[<- <-]|[_ [[<- <-]|[_ [=]]]]]]]; (split; [try done|set_solver]). by apply ascii_value.
  - intros k v. unfold register_message. rewrite !lookup_insert_Some. tauto.
Qed.

Lemma unregister_request m package : builder_ok m → ValidField "package" package = true →
  msize (unregister_message m package) ≤ kMaxFields - 2 → request_ok (unregister_message m package).
Proof.
  intros Hm Hp. apply (extended_request m (<["package" := package]> (<["method" := "unregister"]> ∅)));
    [done| |by right| |by unfold unregister_message; simplify_map_eq].
  - intros k v. rewrite !lookup_insert_Some, lookup_empty.
    intros [[<- <-]|[_ [[<- <-]|[_ [=]]]]]; (split; [try done|set_solver]). by apply ascii_value.
  - intros k v. unfold unregister_message. rewrite lookup_delete_Some, !lookup_insert_Some. tauto.
Qed.

(** What the daemon gets of a request, or why it gets nothing. *)
Definition sent_as (n : Z) (request : Message) (wire : Message) : Prop :=
  wire = on_wire n request ∧
  match Encode wire with
  | Some frame => ∃ body, frame = frame_header (size body) +:+ body ∧ Decode body = Some (on_wire n request)
  | None => kMaxFrameSize < request_size request ∨ kMaxFields - 2 < msize request
  end.

Lemma sent_as_request n request : (msize request ≤ kMaxFields - 2 → request_ok request) →
  request !! "v" = None → request !! "id" = None → 0 < n ≤ int64_max → sent_as n request (on_wire n request).
Proof.
  intros Hok Hv Hid Hn. split; [done|].
  destruct (Z.lt_ge_cases (kMaxFields - 2) (msize request)) as [Hmany|Hroom].
  { rewrite Encode_too_many; [by right|]. rewrite on_wire_size by done. lia. }
  specialize (Hok Hroom). destruct (Encode (on_wire n request)) as [frame|] eqn:He.
  - destruct (Decode_request n request frame Hok Hn He) as (body & ? & _ & _ & ?). by exists body.
  - destruct (Z.lt_ge_cases kMaxFrameSize (request_size request)) as [|Hle]; [by left|].
    destruct (Encode_request n request Hok Hn Hle) as [? Hs]. by rewrite He in Hs.
Qed.

(** A registration or the removal of a package on an online handle names
    exactly the package and the application of its arguments, whatever the
    builder says about them; a removal names no application.  It reaches the
    daemon unless the frame is too large or the builder leaves no room for the
    fields of the library. *)
Theorem registrations_faithful calls params c package app w w' id n :
  build calls = Some params → 0 < n ≤ int64_max →
  (consent_register (Some Online) c (Some package) (Some app) (Some params) w = (w', offline.Done (0, id)) →
   sent_as n (register_message params package app) (wire_message (operation id w'.1) (to_string n)) ∧
   w'.2 = w.2) ∧
  (consent_unregister (Some Online) c (Some package) (Some params) w.1 = (w'.1, (0, id)) →
   sent_as n (unregister_message params package) (wire_message (operation id w'.1) (to_string n)) ∧
   unregister_message params package !! "app" = None).
Proof.
  intros Hb Hn. destruct (build_ok calls) as (m & Hm' & Hok). simplify_eq. split.
  - unfold consent_register, Register. cbn [negb].
    destruct (_ || _) eqn:Hg; [done|]. rewrite !orb_false_iff, !negb_false_iff in Hg.
    destruct Hg as [[[_ _] Hp] Ha]. unfold on_handle.
    destruct (Client.Call _ _ _ _ _ _) as [s1 r] eqn:Hc. intros [= <- ->]. split; [|done]. cbn [fst].
    apply Call_for in Hc. rewrite (wire_message_for _ _ _ n Hc).
    apply sent_as_request; [by apply register_request|..|done];
      unfold register_message; rewrite !lookup_insert_ne by done; by apply builder_ok_reserved.
  - unfold consent_unregister. cbn [OnlineStatus]. change (negb (0 =? 0)) with false. cbv iota.
    destruct (_ || _) eqn:Hg; [done|]. rewrite orb_false_iff, negb_false_iff in Hg. destruct Hg as [_ Hp].
    intros Hc%Call_for. rewrite (wire_message_for _ _ _ n Hc).
    split; [|apply lookup_delete_eq].
    apply sent_as_request; [by apply unregister_request|..|done];
      unfold unregister_message; rewrite lookup_delete_ne, !lookup_insert_ne by done; by apply builder_ok_reserved.
Qed.
End registrations.

(** ** Results *)

(** The indices of a result enumerate its entries, each once and in key order,
    as the lookup by key gives them. *)
Theorem result_enumerates `{Platform} (values : Message) :
  (∀ i, 0 ≤ i < consent_result_size (Some values) →
     ∃ k v, consent_result_get_at (Some values) i true true = (0, Some (k, v)) ∧
            consent_result_get (Some values) (Some k) = Some v) ∧
  (∀ k v, consent_result_get (Some values) (Some k) = Some v →
     ∃ i, 0 ≤ i < consent_result_size (Some values) ∧
          consent_result_get_at (Some values) i true true = (0, Some (k, v))) ∧
  (∀ i j k v v', 0 ≤ i → 0 ≤ j → consent_result_get_at (Some values) i true true = (0, Some (k, v)) →
     consent_result_get_at (Some values) j true true = (0, Some (k, v')) → i = j).
Proof.
  assert (Hlen : msize values = Z.of_nat (length (items values))).
  { unfold msize. by rewrite <- length_map_to_list, (items_perm values). }
  assert (Hat : ∀ i k v, 0 ≤ i → consent_result_get_at (Some values) i true true = (0, Some (k, v)) ↔
    items values !! Z.to_nat i = Some (k, v)).
  { intros i k v Hi. unfold consent_result_get_at. destruct (Z.geb_spec i (msize values)).
    - rewrite lookup_ge_None_2 by lia. done.
    - split; [by intros [= ->]|by intros ->]. }
  unfold consent_result_get, consent_result_size. split_and!.
  - intros i Hi. destruct (lookup_lt_is_Some_2 (items values) (Z.to_nat i)) as [[k v] Hkv]; [lia|].
    exists k, v. rewrite Hat by lia. split; [done|]. apply elem_of_items. by eapply list_elem_of_lookup_2.
  - intros k v Hk%elem_of_items. apply list_elem_of_lookup in Hk as [i Hi].
    apply lookup_lt_Some in Hi as Hl. exists (Z.of_nat i). rewrite Hat, Nat2Z.id by lia. split; [lia|done].
  - intros i j k v v' Hi Hj. rewrite !Hat by done. intros H1 H2.
    pose proof (items_NoDup values) as Hnd.
    assert (Z.to_nat i = Z.to_nat j); [|lia].
    eapply (NoDup_lookup (items values).*1 _ _ k); [done| |]; rewrite list_lookup_fmap, ?H1, ?H2; done.
Qed.

(** A decision is known exactly when the result names it; the value 1 is
    returned for ALLOWED alone. *)
Theorem decision_exact `{Platform} (values : Message) :
  (consent_result_get_decision (Some values) = 1 ↔ values !! "decision" = Some "ALLOWED") ∧
  (consent_result_get_decision (Some values) = CONSENT_DECISION_UNKNOWN ↔
     ∀ d, values !! "decision" = Some d → d ∉ decisions).
Proof.
  unfold consent_result_get_decision, consent_result_get, CONSENT_DECISION_UNKNOWN.
  destruct (values !! "decision") as [d|]; [|naive_solver]. simpl.
  unfold decisions. rewrite ?not_elem_of_cons. split.
  - repeat (case_match; str_hyps); split; congruence || naive_solver.
  - repeat (case_match; str_hyps; [split; [done|intros Hd; specialize (Hd _ eq_refl); set_solver]|]).
    split; [|done]. intros _ d' [= <-]. set_solver.
Qed.
