(* ===== verification/ApiWitnesses.v ===== *)
(** * A concrete application

    A handle is opened on a system whose socket belongs to the daemon, and
    refused on one where another process answers; an application builds a
    request with two requirements and submits it.  The theorems of Connect and
    ApiSpec are applied to these runs. *)
From S2P Require Import Prelude Strings Platform Message Wire Packing Offline OfflineWitnesses Grants.
From S2P Require Import ClientState Client ClientWitnesses Connect Api ApiSpec.
From Stdlib Require Import Ascii.
Import api.

#[local] Existing Instance reference_platform_laws.
#[local] Existing Instance reference_parcel_laws.
#[local] Existing Instance quiet_os.

#[local] Instance reference_utf8 : Utf8Laws.
Proof. constructor. intros s Hs. exact Hs. Qed.

(** ** Opening a handle *)

Definition stat_of (mode gid ino : Z) : stat_result :=
  StatOk (mk_file_stat 1 ino mode 0 1 0 0 0 gid).

(** 040755, 040775 and 0140770. *)
Definition daemon_lstat (path : string) : stat_result :=
  if eqs path "/" then stat_of 16877 0 2
  else if eqs path "/run" then stat_of 16893 44 3
  else stat_of 49656 0 9.

Definition bound_address : sockaddr_un * Z :=
  (mkSockaddr AF_UNIX (CONSENT_SOCKET_PATH +:+ String nul ""), 2 + size CONSENT_SOCKET_PATH + 1).

(** A system in which process [pid] listens. *)
Definition system (pid : Z) : Endpoint := {|
  ep_lstat _ := daemon_lstat;
  ep_system_share _ := Some 44;
  ep_socket _ := true;
  ep_connect n := ConnectPending;
  ep_ready _ := true;
  ep_check_connect _ := true;
  ep_peercred _ := Some (mkUcred pid 0);
  ep_peername _ := Some bound_address;
  ep_peersec _ := Some CONSENT_SERVER_SMACK_LABEL;
  ep_thread _ := true;
|}.

(** The daemon's socket is accepted and [hello] waits to be sent; a process
    that took its place, although it is root, is not. *)
Example connect_daemon :
  let r := @Connect _ (system 1) true true true (created 0) in
  (r.2, (r.1).(running), (operation 1 r.1).(op_message)) = ((0, 1, true), true, hello).
Proof. vm_compute. reflexivity. Qed.

(** Trust in the path and the peer can be established: with the daemon's
    socket, [Connect] takes the branch that opens the handle. *)
Lemma Connect_trusted_witness :
  ∃ snapshot found made checked, (0 ≤ found < made)%nat ∧ (made ≤ checked)%nat ∧
    @trusted_path (system 1) snapshot 0 found ∧ @established (system 1) (S found) made ∧
    @trusted_peer (system 1) snapshot made checked.
Proof.
  destruct (@Connect_trusted _ _ _ (system 1) true true true 0)
    as [(snapshot & found & made & checked & H1 & H2 & H3 & H4 & H5 & _)|(_ & H1 & _)].
  - exists snapshot, found, made, checked. exact (conj H1 (conj H2 (conj H3 (conj H4 H5)))).
  - exfalso. apply H1. vm_compute. reflexivity.
Defined.

Example connect_impostor :
  let r := @Connect _ (system 412) true true true (created 0) in
  (r.2, (r.1).(running), base.size (r.1).(heap)) = ((CONSENT_ERROR_PERMISSION_DENIED, 0, true), false, 0%nat).
Proof. vm_compute. reflexivity. Qed.

(** Two threads race for the last place; the one whose exchange fails sees the
    limit and is refused, and a place that is released can be taken again. *)
Definition race : list budget_event :=
  mjoin (replicate 15 [BReserve 1; BTurn 1 true; BTurn 1 false]) ++
  [BReserve 1; BReserve 2; BTurn 1 false; BTurn 2 false; BTurn 2 false].

Example client_budget_race :
  let b := budget_run 100 race (mkBudget 0 ∅ 0) in
  let b' := budget_run 100 (race ++ [BRelease 1; BTurn 1 false; BReserve 2; BTurn 2 false]) (mkBudget 0 ∅ 0) in
  (b.(counted_), b.(word), b'.(counted_), base.size b'.(threads)) = (16, 100 * 2 ^ 32 + 16, 16, 0%nat).
Proof. vm_compute. reflexivity. Qed.

Lemma client_budget_witness :
  let b := budget_run 100 race (mkBudget 0 ∅ 0) in
  b.(counted_) + releasing b.(threads) ≤ 16 ∧ counted_handles 100 b.(word) = 16.
Proof.
  intros b. assert (Hp : a_process 100) by (vm_compute; split; reflexivity).
  assert (Hs : budget_start 100 0) by (split; [vm_compute; split; [discriminate|reflexivity]|discriminate]).
  split; [apply (client_budget 100 0 race Hp Hs)|vm_compute; reflexivity].
Defined.

(** ** A request *)

Definition camera : requirement := mkRequirement "camera" "read" "front" "video_call" "".
Definition contacts : requirement := mkRequirement "contacts" "read" "" "video_call" "peer".

(** The second call names a field of the daemon and is refused. *)
Definition built_calls : list builder_call :=
  [BSet (Some "subject") (Some "alice"); BSet (Some "_peer") (Some "root");
   BAddRequirement (Some "camera") (Some "read") (Some "front") (Some "video_call") (Some "");
   BSetCheckMode 1; BSetInt64 (Some "deadline_ms") 60000].

Definition app_thread : caller := mkCaller true true false.

Definition built_params : Message := default ∅ (build built_calls).

Definition submitted : State * (Z * Z) :=
  consent_request_async (Some Online) app_thread (Some built_params) (Some 7) true (connected 0).

Lemma api_request_faithful_witness :
  submitted.2 = (0, 1) ∧
  Get built_params "r0.scope" = "front" ∧ built_params !! "_peer" = None ∧
  wire_message (operation 1 submitted.1) (to_string 5) = on_wire 5 (<["method" := "request"]> built_params).
Proof.
  assert (Hb : build built_calls = Some built_params) by (vm_compute; reflexivity).
  assert (Hs : submitted.2 = (0, 1)) by (vm_compute; reflexivity).
  assert (Hc : Submit (Some Online) app_thread "request" (Some built_params) (Some 7) true (connected 0) =
               (submitted.1, (0, 1))) by (rewrite <- Hs; apply surjective_pairing).
  assert (Hm : "request" ∈ api_methods) by (apply list_elem_of_In; left; reflexivity).
  assert (Hn : 0 < 5 ≤ int64_max) by (split; [reflexivity|discriminate]).
  destruct (api_request_faithful built_calls built_params "request" app_thread 0 (Some 7) (connected 0)
    submitted.1 1 5 Hb Hm Hn (or_intror Hc)) as [Hw _].
  split; [exact Hs|]. split; [vm_compute; reflexivity|]. split; [vm_compute; reflexivity|exact Hw].
Defined.

(** ** Requirements *)

Definition subject_params : Message := <["subject" := "alice"]> ∅.

Definition two_params : Message := default ∅ (add_requirements [camera; contacts] (Some subject_params)).

Definition two_frame : string := default "" (Encode (on_wire 3 (<["method" := "check"]> two_params))).

Lemma requirements_delivered_witness :
  ∃ body request, two_frame = frame_header (size body) +:+ body ∧ Decode body = Some request ∧
    Number request "count" 0 1 16 = Ret 2 ∧ row_get request 1 "recipient" = "peer".
Proof.
  assert (Hok : builder_ok subject_params).
  { constructor; [|vm_compute; discriminate]. intros k v Hk. unfold subject_params in Hk.
    apply lookup_insert_Some in Hk as [[<- <-]|[_ Hk]]; [vm_compute; split; reflexivity|].
    rewrite lookup_empty in Hk. discriminate. }
  assert (Hnone : subject_params !! "count" = None) by (vm_compute; reflexivity).
  assert (Hadd : add_requirements [camera; contacts] (Some subject_params) = Some two_params)
    by (vm_compute; reflexivity).
  assert (Hm : "check" ∈ api_methods) by (apply list_elem_of_In; right; left; reflexivity).
  assert (Hn : 0 < 3 ≤ int64_max) by (split; [reflexivity|discriminate]).
  assert (He : Encode (on_wire 3 (<["method" := "check"]> two_params)) = Some two_frame)
    by (vm_compute; reflexivity).
  destruct (requirements_delivered [camera; contacts] subject_params two_params "check" 3 two_frame Hok Hnone
    ltac:(discriminate) Hadd Hm Hn He) as (body & request & Hf & Hd & _ & Hc & Hr & _).
  exists body, request. split; [exact Hf|]. split; [exact Hd|]. split; [exact Hc|].
  apply (Hr 1%nat contacts). reflexivity.
Defined.

(** A builder without room for the fields that a registration adds is not
    sent: the 253 fields it may hold leave place for the method and the
    envelope, not for the package and the application as well. *)
Definition full_params : Message :=
  default ∅ (build (map (λ i, BSet (Some ("f" +:+ to_string i)) (Some "")) (seqZ 0 254))).

Example full_builder :
  msize full_params = 253 ∧
  (is_Some (Encode (on_wire 1 (<["method" := "request"]> full_params)))) ∧
  Encode (on_wire 1 (register_message full_params "org.example" "org.example.app")) = None.
Proof. vm_compute. split; [reflexivity|]. split; [eexists; reflexivity|reflexivity]. Qed.
