(* ===== verification/ProfileConfig.v ===== *)
(** * The profile configuration (src/consentd/profile_config.cc,
    src/consentd/server.cc: LoadProfiles)

    The strict reader of profiles.conf.  A scan over the lines refuses
    repeated groups and keys, which [GKeyFile] would merge; then the loaded
    key file must have exactly the expected keys.  The product build is
    modelled, in which the fixture mode is refused.  What the reader uses of
    GLib beyond [Inventory] is the class [KeyText]. *)
From S2P Require Import Prelude Strings Platform Message Packing Identity ProfileState.
From Stdlib Require Import Ascii.

Class KeyText := {
  (** [g_strstrip]. *)
  g_strstrip : string → string;
  (** [g_key_file_get_keys]; no keys when the group is absent. *)
  g_key_file_get_keys : KeyFile → string → list string;
}.

(** [ProfileConfig]. *)
Record ProfileConfig := mkProfileConfig {
  fixture : bool;
  session_uid : Z;
  bindings : list ProfileBinding;
}.

(** ** The scan *)

(** The groups and the keys seen so far and the group of the current line. *)
Record scan := mkScan {
  sc_sections : gset string;
  sc_names : gset (string * string);
  sc_group : string;
}.

Section config.
Context `{Platform} `{Inventory} `{KeyText}.

(** One line; [None] refuses the file. *)
Definition scan_line (line : string) (s : scan) : option scan :=
  let trimmed := g_strstrip line in
  if empty trimmed || front_is "#" trimmed || front_is ";" trimmed then Some s
  else if front_is "[" trimmed then
    let n := String.length trimmed in
    if (size trimmed <? 3) || negb (back_is "]" trimmed) then None
    else
      let group := substr 1 (n - 2) trimmed in
      if bool_decide (group ∈ s.(sc_sections)) then None
      else Some (mkScan ({[group]} ∪ s.(sc_sections)) s.(sc_names) group)
  else
    match find_char "=" trimmed with
    | None => None
    | Some n =>
        if empty s.(sc_group) then None
        else
          let name := (s.(sc_group), g_strstrip (take_str n trimmed)) in
          if bool_decide (name ∈ s.(sc_names)) then None
          else Some (mkScan s.(sc_sections) ({[name]} ∪ s.(sc_names)) s.(sc_group))
    end.

(** The [std::getline] loop. *)
Fixpoint scan_lines (fuel : nat) (data : string) (s : scan) : option scan :=
  match fuel with
  | O => None
  | S fuel' =>
      if empty data then Some s
      else
        let (line, rest) := getline data in
        s ← scan_line line s;
        scan_lines fuel' rest s
  end.

(** ** The key file *)

Definition exact_keys (file : KeyFile) (group : string) (expected : gset string) : bool :=
  let keys := g_key_file_get_keys file group in
  (Z.of_nat (length keys) =? Z.of_nat (base.size expected)) && bool_decide (list_to_set keys = expected).

(** [String]. *)
Definition read_string (file : KeyFile) (group key : string) : option string := file.(kf_string) group key.

Definition read_binding (file : KeyFile) (group : string) : option ProfileBinding :=
  if negb (starts_with "binding " group) ||
     negb (exact_keys file group {["subject"; "subsession"; "profile"]})
  then None
  else
    subject ← read_string file group "subject";
    user ← read_string file group "subsession";
    profile ← read_string file group "profile";
    Some (mkBinding subject user profile).

Fixpoint read_bindings (file : KeyFile) (groups : list string) : option (list ProfileBinding) :=
  match groups with
  | [] => Some []
  | group :: groups' =>
      if eqs group "authority" then read_bindings file groups'
      else
        binding ← read_binding file group;
        rest ← read_bindings file groups';
        Some (binding :: rest)
  end.

Definition read_uid (file : KeyFile) : option Z :=
  uid ← read_string file "authority" "session_uid";
  number ← ParseNumber uid;
  if (number <=? 0) || (number >? int32_max) || negb (eqs uid (to_string number)) then None
  else Some number.

(** The checks on the loaded file. *)
Definition read_config (file : KeyFile) : option ProfileConfig :=
  if negb (exact_keys file "authority" {["mode"; "session_uid"]}) then None
  else
    mode ← read_string file "authority" "mode";
    if negb (eqs mode "sessiond") && negb (eqs mode "fixture") then None
    else
      uid ← read_uid file;
      let count := Z.of_nat (length file.(kf_groups)) in
      if (count <? 2) || (count >? 65) then None
      else
        bindings ← read_bindings file file.(kf_groups);
        Some (mkProfileConfig (eqs mode "fixture") uid bindings).

Definition ReadProfileConfig (file : list string) : option ProfileConfig :=
  match inv_fs.(fs_read) file with
  | inl _ => None
  | inr data =>
      if size data >? 16384 then None
      else if has_char nul data then None
      else
        _ ← scan_lines (S (String.length data)) data (mkScan ∅ ∅ "");
        file ← g_key_file_load data;
        read_config file
  end.

(** ** LoadProfiles *)

Definition CONSENT_AUTHORITY_DIR : string := "/opt/var/lib/consent-authority".
Definition profiles_path : string := CONSENT_AUTHORITY_DIR +:+ "/profiles.conf".

(** [lstat] of a path of the inventory. *)
Definition path_parts : list string := ["opt"; "var"; "lib"; "consent-authority"; "profiles.conf"].

(** Whether the daemon starts, with the profile state and the session account;
    the state is unchanged without a configuration file. *)
Definition LoadProfiles (s : ProfileState) : bool * ProfileState * Z :=
  match inv_fs.(fs_stat) path_parts with
  | StatErrno e => (e =? ENOENT, s, 0)
  | StatOk _ =>
      match OpenProtected inv_fs profiles_path false with
      | None => (false, s, 0)
      | Some (file, _) =>
          match ReadProfileConfig file with
          | None => (false, s, 0)
          | Some config =>
              if config.(fixture) then (false, s, 0)
              else
                let '(success, s') := Configure config.(bindings) s in
                if negb success then (false, s', 0) else (true, s', config.(session_uid))
          end
      end
  end.
End config.

(** ** Well-formed profile states *)

Section typed.
Context `{Platform}.

Record binding_ok (b : ProfileBinding) : Prop := {
  bo_subject : Identifier b.(b_subject) = true;
  bo_profile : Identifier b.(b_profile) = true;
  bo_user : b.(b_user) = "" ∨ Identifier b.(b_user) = true;
  bo_size : size b.(b_user) < 20;
}.

Definition profile_key (b : ProfileBinding) : string * string := (b.(b_subject), b.(b_profile)).
Definition user_key (b : ProfileBinding) : string * string := (b.(b_subject), b.(b_user)).

Record bindings_ok (l : list ProfileBinding) : Prop := {
  bs_each : Forall binding_ok l;
  bs_count : (1 ≤ length l ≤ 64)%nat;
  bs_profiles : NoDup (profile_key <$> l);
  bs_users : NoDup (user_key <$> l);
}.

Lemma configure_loop_ok l profiles users : configure_loop l profiles users = true →
  Forall binding_ok l ∧ NoDup (profile_key <$> l) ∧ NoDup (user_key <$> l) ∧
  Forall (λ b, (profile_key b ∉ profiles) ∧ user_key b ∉ users) l.
Proof.
  revert profiles users. induction l as [|b l IH]; intros profiles users Hl; simpl in *.
  { split_and!; constructor. }
  destruct (_ || _ || _ || _ || _ || _) eqn:E; [done|]. bool_hyps.
  destruct (IH _ _ Hl) as (Hok & Hp & Hu & Hf). rewrite Forall_forall in Hf. split_and!.
  - constructor; [|done]. constructor; try done; [|rewrite Z.geb_leb in *; lia].
    destruct (empty (b_user b)) eqn:Ee; [left; by apply empty_true|right]. simpl in *. by apply negb_false_iff.
  - constructor; [|done]. intros Hin. apply list_elem_of_fmap in Hin as (b' & E & Hin).
    destruct (Hf _ Hin) as [Hn _]. apply Hn. rewrite <- E. set_solver.
  - constructor; [|done]. intros Hin. apply list_elem_of_fmap in Hin as (b' & E & Hin).
    destruct (Hf _ Hin) as [_ Hn]. apply Hn. rewrite <- E. set_solver.
  - constructor; [done|]. apply Forall_forall. intros b' Hin. destruct (Hf _ Hin). set_solver.
Qed.

Lemma Configure_ok l s s' : Configure l s = (true, s') → bindings_ok l ∧ s'.(ps_bindings) = l ∧
  s'.(ps_enabled) = true ∧ s'.(ps_ready) = s.(ps_ready) ∧ s.(ps_enabled) = false.
Proof.
  unfold Configure. destruct (_ || _ || _) eqn:E; [done|]. bool_hyps.
  destruct (configure_loop l ∅ ∅) eqn:Ec; [|done]. intros [= <-]. simpl.
  destruct (configure_loop_ok _ _ _ Ec) as (? & ? & ? & _). split_and!; try done. constructor; try done.
  rewrite Z.gtb_ltb in H1. apply Z.ltb_ge in H1. destruct l; [done|]. cbn [length] in *. lia.
Qed.

(** [Check] lets pass exactly the active profile. *)
Lemma Check_allows s subject profile : s.(ps_enabled) = true →
  (Check s subject profile = 0) ↔ s.(ps_ready) = true ∧
    ∃ i b, list_find (λ b, profile_key b = (subject, profile)) s.(ps_bindings) = Some (i, b) ∧
      b.(b_user) = s.(ps_active_user).
Proof.
  intros He. unfold Check. rewrite He. simpl.
  assert (Hl : ∀ l, (check_loop l s subject profile = 0) ↔ ps_ready s = true ∧
    ∃ i b, list_find (λ b, profile_key b = (subject, profile)) l = Some (i, b) ∧ b_user b = ps_active_user s).
  { induction l as [|b l IH]; simpl; [split; [done|naive_solver]|].
    destruct (decide (profile_key b = (subject, profile))) as [E|E].
    - injection E as <- <-. rewrite !eqs_refl. simpl. destruct (ps_ready s); simpl; [|split; [done|naive_solver]].
      destruct (eqs _ _) eqn:Eu; [apply eqs_true in Eu; split; [eauto 10|done]|].
      apply eqs_false in Eu. split; [done|]. intros (_ & i & b' & [= <- <-] & ?). done.
    - destruct (eqs _ _ && eqs _ _) eqn:Eb.
      { bool_hyps. apply eqs_true in H0, H1. destruct E. unfold profile_key. congruence. }
      rewrite IH. destruct (list_find _ l) as [[i b']|]; simpl; [|naive_solver].
      split; intros (? & j & x & Hx & ?); (split; [done|]); injection Hx as <- <-; eauto. }
  apply Hl.
Qed.
End typed.

(** ** What LoadProfiles accepts *)

Section loaded.
Context `{Platform} `{Inventory} `{KeyText}.

Lemma ReadProfileConfig_uid file config :
  ReadProfileConfig file = Some config → 1 ≤ config.(session_uid) ≤ int32_max.
Proof.
  unfold ReadProfileConfig. destruct (fs_read _ _) as [|data]; [done|]. destruct (_ >? _); [done|].
  destruct (has_char _ _); [done|]. destruct (scan_lines _ _ _); [|done]. simpl.
  destruct (g_key_file_load data) as [kf|]; [|done]. simpl. unfold read_config, read_uid.
  destruct (negb _); [done|]. destruct (read_string kf _ "mode") as [mode|]; [|done]. simpl.
  destruct (_ && _); [done|]. destruct (read_string kf _ _) as [u|]; [|done]. simpl.
  destruct (ParseNumber u) as [n|]; [|done]. simpl.
  destruct ((n <=? 0) || (n >? int32_max) || negb (eqs u (to_string n))) eqn:En; [done|]. simpl.
  destruct ((_ <? 2) || _); [done|]. destruct (read_bindings _ _); [|done]. intros [= <-]. simpl. bool_hyps.
  rewrite Z.gtb_ltb in *. lia.
Qed.

Lemma LoadProfiles_ok s uid : LoadProfiles profile_initial = (true, s, uid) →
  (s = profile_initial ∧ inv_fs.(fs_stat) path_parts = StatErrno ENOENT) ∨
  (bindings_ok s.(ps_bindings) ∧ s.(ps_enabled) = true ∧ s.(ps_ready) = false ∧ 1 ≤ uid ≤ int32_max ∧
   s = (Configure s.(ps_bindings) profile_initial).2).
Proof.
  unfold LoadProfiles. destruct (fs_stat _ _) as [e|st] eqn:Est.
  { intros [= He <- _]. left. apply Z.eqb_eq in He as ->. done. }
  destruct (OpenProtected _ _ _) as [[file ?]|]; [|done].
  destruct (ReadProfileConfig file) as [config|] eqn:Ec; [|done]. destruct (fixture config); [done|].
  destruct (Configure _ _) as [success s'] eqn:Econf. destruct success; [|done]. intros [= <- <-]. right.
  destruct (Configure_ok _ _ _ Econf) as (? & Hb & ? & ? & _). rewrite Hb. pose proof (ReadProfileConfig_uid _ _ Ec).
  split_and!; try done; try lia. by rewrite Econf.
Qed.
End loaded.
