(* ===== verification/Authority.v ===== *)
(** * The profile authority (src/consentd/profile_authority.cc)

    The daemon's D-Bus client of the session service.  It verifies that the
    two names of the service have one owner, registers with it, follows the
    user switches and removals it announces, and drives the shared
    [ProfileState]: it fences the state when anything is uncertain and
    activates a user after the service has named it and the repository has
    committed a barrier (src/consentd/server.cc, [Server::StartProfiles]).

    All callbacks run on the main context, one at a time; barriers run on the
    database thread, which fences the state when one fails.  Each access to
    the state therefore first lets the database thread run any number of
    barriers ([sync]).  Continuations of the source are data: the request of a
    call, the completion of a barrier, the work of a timer.  GLib delivers
    callbacks of watches, subscriptions and handlers only while they are
    registered, and the owner of a name is not empty.  Allocation failures are
    not represented. *)
From S2P Require Import Prelude Strings Platform Message Packing ProfileState.

Definition kManager : string := "org.tizen.sessiond".
Definition kReady : string := "org.tizen.sessiond.fully_ready".
Definition kPath : string := "/org/tizen/sessiond".
Definition kInterface : string := "org.tizen.sessiond.subsession.Manager".

(** ** Continuations *)

Inductive timer := TConnect | TStart | TLose.

(** A method call and, with it, what its reply continues with. *)
Inductive request :=
| SwitchUserWait
| RemoveUserWait
| GetCurrentUser (initial removal : bool)
| RemoveUserDone (user : string)
| SwitchUserDone (id : Z).

Record Call := mkCall { call_generation : Z; call_owner : string; call_request : request }.

(** The completion of a barrier of [Lose], [Read] or [Signal]. *)
Inductive Done :=
| DLose (generation incarnation : Z)
| DRead (generation : Z) (current : string)
| DRemove (generation : Z) (removed : string)
| DSwitch (generation : Z) (id : Z).

(** ** Observations *)

Inductive answer := AInitial | ASwitch | ARemoval.

Inductive obs :=
| OFence
| OLost
| OStop
| OStarted (id : Z) (previous next : string)
| OCompleted (id : Z)
| OAcked (id : Z)
| ORemoving (user : string)
| OBarrier (retire : bool) (removed : string)
| OCall (r : request)
| OAnswer (a : answer) (user : string)
| OActivate (user : string).

(** ** State *)

(** The members of [ProfileAuthority::Impl]. *)
Record Impl := mkImpl {
  injected_ : bool;
  stopping_ : bool;
  connecting_ : bool;
  incarnation_ : Z;
  initialized_ : bool;
  synchronized_ : bool;
  barrier_done_ : bool;
  acknowledged_ : bool;
  completed_ : bool;
  (** Whether the pointers are set. *)
  connection_ : bool;
  cancel_ : bool;
  connect_cancel_ : bool;
  (** The two name watches, which are set and cleared together. *)
  watches_ : bool;
  signal_ : bool;
  closed_ : bool;
  timer_ : option timer;
  owner_ : string;
  ready_owner_ : string;
  active_ : string;
  pending_ : Z;
  previous_ : string;
  next_ : string;
}.

Definition set_injected_ (v : bool) (i : Impl) : Impl :=
  mkImpl v i.(stopping_) i.(connecting_) i.(incarnation_) i.(initialized_) i.(synchronized_)
    i.(barrier_done_) i.(acknowledged_) i.(completed_) i.(connection_) i.(cancel_)
    i.(connect_cancel_) i.(watches_) i.(signal_) i.(closed_) i.(timer_) i.(owner_)
    i.(ready_owner_) i.(active_) i.(pending_) i.(previous_) i.(next_).
Definition set_stopping_ (v : bool) (i : Impl) : Impl :=
  mkImpl i.(injected_) v i.(connecting_) i.(incarnation_) i.(initialized_) i.(synchronized_)
    i.(barrier_done_) i.(acknowledged_) i.(completed_) i.(connection_) i.(cancel_)
    i.(connect_cancel_) i.(watches_) i.(signal_) i.(closed_) i.(timer_) i.(owner_)
    i.(ready_owner_) i.(active_) i.(pending_) i.(previous_) i.(next_).
Definition set_connecting_ (v : bool) (i : Impl) : Impl :=
  mkImpl i.(injected_) i.(stopping_) v i.(incarnation_) i.(initialized_) i.(synchronized_)
    i.(barrier_done_) i.(acknowledged_) i.(completed_) i.(connection_) i.(cancel_)
    i.(connect_cancel_) i.(watches_) i.(signal_) i.(closed_) i.(timer_) i.(owner_)
    i.(ready_owner_) i.(active_) i.(pending_) i.(previous_) i.(next_).
Definition set_incarnation_ (v : Z) (i : Impl) : Impl :=
  mkImpl i.(injected_) i.(stopping_) i.(connecting_) v i.(initialized_) i.(synchronized_)
    i.(barrier_done_) i.(acknowledged_) i.(completed_) i.(connection_) i.(cancel_)
    i.(connect_cancel_) i.(watches_) i.(signal_) i.(closed_) i.(timer_) i.(owner_)
    i.(ready_owner_) i.(active_) i.(pending_) i.(previous_) i.(next_).
Definition set_initialized_ (v : bool) (i : Impl) : Impl :=
  mkImpl i.(injected_) i.(stopping_) i.(connecting_) i.(incarnation_) v i.(synchronized_)
    i.(barrier_done_) i.(acknowledged_) i.(completed_) i.(connection_) i.(cancel_)
    i.(connect_cancel_) i.(watches_) i.(signal_) i.(closed_) i.(timer_) i.(owner_)
    i.(ready_owner_) i.(active_) i.(pending_) i.(previous_) i.(next_).
Definition set_synchronized_ (v : bool) (i : Impl) : Impl :=
  mkImpl i.(injected_) i.(stopping_) i.(connecting_) i.(incarnation_) i.(initialized_) v
    i.(barrier_done_) i.(acknowledged_) i.(completed_) i.(connection_) i.(cancel_)
    i.(connect_cancel_) i.(watches_) i.(signal_) i.(closed_) i.(timer_) i.(owner_)
    i.(ready_owner_) i.(active_) i.(pending_) i.(previous_) i.(next_).
Definition set_barrier_done_ (v : bool) (i : Impl) : Impl :=
  mkImpl i.(injected_) i.(stopping_) i.(connecting_) i.(incarnation_) i.(initialized_)
    i.(synchronized_) v i.(acknowledged_) i.(completed_) i.(connection_) i.(cancel_)
    i.(connect_cancel_) i.(watches_) i.(signal_) i.(closed_) i.(timer_) i.(owner_)
    i.(ready_owner_) i.(active_) i.(pending_) i.(previous_) i.(next_).
Definition set_acknowledged_ (v : bool) (i : Impl) : Impl :=
  mkImpl i.(injected_) i.(stopping_) i.(connecting_) i.(incarnation_) i.(initialized_)
    i.(synchronized_) i.(barrier_done_) v i.(completed_) i.(connection_) i.(cancel_)
    i.(connect_cancel_) i.(watches_) i.(signal_) i.(closed_) i.(timer_) i.(owner_)
    i.(ready_owner_) i.(active_) i.(pending_) i.(previous_) i.(next_).
Definition set_completed_ (v : bool) (i : Impl) : Impl :=
  mkImpl i.(injected_) i.(stopping_) i.(connecting_) i.(incarnation_) i.(initialized_)
    i.(synchronized_) i.(barrier_done_) i.(acknowledged_) v i.(connection_) i.(cancel_)
    i.(connect_cancel_) i.(watches_) i.(signal_) i.(closed_) i.(timer_) i.(owner_)
    i.(ready_owner_) i.(active_) i.(pending_) i.(previous_) i.(next_).
Definition set_connection_ (v : bool) (i : Impl) : Impl :=
  mkImpl i.(injected_) i.(stopping_) i.(connecting_) i.(incarnation_) i.(initialized_)
    i.(synchronized_) i.(barrier_done_) i.(acknowledged_) i.(completed_) v i.(cancel_)
    i.(connect_cancel_) i.(watches_) i.(signal_) i.(closed_) i.(timer_) i.(owner_)
    i.(ready_owner_) i.(active_) i.(pending_) i.(previous_) i.(next_).
Definition set_cancel_ (v : bool) (i : Impl) : Impl :=
  mkImpl i.(injected_) i.(stopping_) i.(connecting_) i.(incarnation_) i.(initialized_)
    i.(synchronized_) i.(barrier_done_) i.(acknowledged_) i.(completed_) i.(connection_) v
    i.(connect_cancel_) i.(watches_) i.(signal_) i.(closed_) i.(timer_) i.(owner_)
    i.(ready_owner_) i.(active_) i.(pending_) i.(previous_) i.(next_).
Definition set_connect_cancel_ (v : bool) (i : Impl) : Impl :=
  mkImpl i.(injected_) i.(stopping_) i.(connecting_) i.(incarnation_) i.(initialized_)
    i.(synchronized_) i.(barrier_done_) i.(acknowledged_) i.(completed_) i.(connection_)
    i.(cancel_) v i.(watches_) i.(signal_) i.(closed_) i.(timer_) i.(owner_) i.(ready_owner_)
    i.(active_) i.(pending_) i.(previous_) i.(next_).
Definition set_watches_ (v : bool) (i : Impl) : Impl :=
  mkImpl i.(injected_) i.(stopping_) i.(connecting_) i.(incarnation_) i.(initialized_)
    i.(synchronized_) i.(barrier_done_) i.(acknowledged_) i.(completed_) i.(connection_)
    i.(cancel_) i.(connect_cancel_) v i.(signal_) i.(closed_) i.(timer_) i.(owner_)
    i.(ready_owner_) i.(active_) i.(pending_) i.(previous_) i.(next_).
Definition set_signal_ (v : bool) (i : Impl) : Impl :=
  mkImpl i.(injected_) i.(stopping_) i.(connecting_) i.(incarnation_) i.(initialized_)
    i.(synchronized_) i.(barrier_done_) i.(acknowledged_) i.(completed_) i.(connection_)
    i.(cancel_) i.(connect_cancel_) i.(watches_) v i.(closed_) i.(timer_) i.(owner_)
    i.(ready_owner_) i.(active_) i.(pending_) i.(previous_) i.(next_).
Definition set_closed_ (v : bool) (i : Impl) : Impl :=
  mkImpl i.(injected_) i.(stopping_) i.(connecting_) i.(incarnation_) i.(initialized_)
    i.(synchronized_) i.(barrier_done_) i.(acknowledged_) i.(completed_) i.(connection_)
    i.(cancel_) i.(connect_cancel_) i.(watches_) i.(signal_) v i.(timer_) i.(owner_)
    i.(ready_owner_) i.(active_) i.(pending_) i.(previous_) i.(next_).
Definition set_timer_ (v : option timer) (i : Impl) : Impl :=
  mkImpl i.(injected_) i.(stopping_) i.(connecting_) i.(incarnation_) i.(initialized_)
    i.(synchronized_) i.(barrier_done_) i.(acknowledged_) i.(completed_) i.(connection_)
    i.(cancel_) i.(connect_cancel_) i.(watches_) i.(signal_) i.(closed_) v i.(owner_)
    i.(ready_owner_) i.(active_) i.(pending_) i.(previous_) i.(next_).
Definition set_owner_ (v : string) (i : Impl) : Impl :=
  mkImpl i.(injected_) i.(stopping_) i.(connecting_) i.(incarnation_) i.(initialized_)
    i.(synchronized_) i.(barrier_done_) i.(acknowledged_) i.(completed_) i.(connection_)
    i.(cancel_) i.(connect_cancel_) i.(watches_) i.(signal_) i.(closed_) i.(timer_) v
    i.(ready_owner_) i.(active_) i.(pending_) i.(previous_) i.(next_).
Definition set_ready_owner_ (v : string) (i : Impl) : Impl :=
  mkImpl i.(injected_) i.(stopping_) i.(connecting_) i.(incarnation_) i.(initialized_)
    i.(synchronized_) i.(barrier_done_) i.(acknowledged_) i.(completed_) i.(connection_)
    i.(cancel_) i.(connect_cancel_) i.(watches_) i.(signal_) i.(closed_) i.(timer_) i.(owner_) v
    i.(active_) i.(pending_) i.(previous_) i.(next_).
Definition set_active_ (v : string) (i : Impl) : Impl :=
  mkImpl i.(injected_) i.(stopping_) i.(connecting_) i.(incarnation_) i.(initialized_)
    i.(synchronized_) i.(barrier_done_) i.(acknowledged_) i.(completed_) i.(connection_)
    i.(cancel_) i.(connect_cancel_) i.(watches_) i.(signal_) i.(closed_) i.(timer_) i.(owner_)
    i.(ready_owner_) v i.(pending_) i.(previous_) i.(next_).
Definition set_pending_ (v : Z) (i : Impl) : Impl :=
  mkImpl i.(injected_) i.(stopping_) i.(connecting_) i.(incarnation_) i.(initialized_)
    i.(synchronized_) i.(barrier_done_) i.(acknowledged_) i.(completed_) i.(connection_)
    i.(cancel_) i.(connect_cancel_) i.(watches_) i.(signal_) i.(closed_) i.(timer_) i.(owner_)
    i.(ready_owner_) i.(active_) v i.(previous_) i.(next_).
Definition set_previous_ (v : string) (i : Impl) : Impl :=
  mkImpl i.(injected_) i.(stopping_) i.(connecting_) i.(incarnation_) i.(initialized_)
    i.(synchronized_) i.(barrier_done_) i.(acknowledged_) i.(completed_) i.(connection_)
    i.(cancel_) i.(connect_cancel_) i.(watches_) i.(signal_) i.(closed_) i.(timer_) i.(owner_)
    i.(ready_owner_) i.(active_) i.(pending_) v i.(next_).
Definition set_next_ (v : string) (i : Impl) : Impl :=
  mkImpl i.(injected_) i.(stopping_) i.(connecting_) i.(incarnation_) i.(initialized_)
    i.(synchronized_) i.(barrier_done_) i.(acknowledged_) i.(completed_) i.(connection_)
    i.(cancel_) i.(connect_cancel_) i.(watches_) i.(signal_) i.(closed_) i.(timer_) i.(owner_)
    i.(ready_owner_) i.(active_) i.(pending_) i.(previous_) v.

(** The authority with everything that is under way. *)
Record Authority := mkAuthority {
  impl : Impl;
  profiles : ProfileState;
  (** Unfinished connection attempts, by their [incarnation]. *)
  connects : list Z;
  calls : list Call;
  (** Barriers that wait for the database thread, with their [retire] and [removed]. *)
  jobs : list (bool * string * Done);
  (** Completions posted to the main context. *)
  posted : list (Done * bool);
  (** What was observed so far, oldest first. *)
  trace : list obs;
  au_tick : nat;
}.

Definition set_impl (v : Impl) (s : Authority) : Authority :=
  mkAuthority v s.(profiles) s.(connects) s.(calls) s.(jobs) s.(posted) s.(trace) s.(au_tick).
Definition set_profiles (v : ProfileState) (s : Authority) : Authority :=
  mkAuthority s.(impl) v s.(connects) s.(calls) s.(jobs) s.(posted) s.(trace) s.(au_tick).
Definition set_connects (v : list Z) (s : Authority) : Authority :=
  mkAuthority s.(impl) s.(profiles) v s.(calls) s.(jobs) s.(posted) s.(trace) s.(au_tick).
Definition set_calls (v : list Call) (s : Authority) : Authority :=
  mkAuthority s.(impl) s.(profiles) s.(connects) v s.(jobs) s.(posted) s.(trace) s.(au_tick).
Definition set_jobs (v : list (bool * string * Done)) (s : Authority) : Authority :=
  mkAuthority s.(impl) s.(profiles) s.(connects) s.(calls) v s.(posted) s.(trace) s.(au_tick).
Definition set_posted (v : list (Done * bool)) (s : Authority) : Authority :=
  mkAuthority s.(impl) s.(profiles) s.(connects) s.(calls) s.(jobs) v s.(trace) s.(au_tick).
Definition set_trace (v : list obs) (s : Authority) : Authority :=
  mkAuthority s.(impl) s.(profiles) s.(connects) s.(calls) s.(jobs) s.(posted) v s.(au_tick).
Definition set_au_tick (v : nat) (s : Authority) : Authority :=
  mkAuthority s.(impl) s.(profiles) s.(connects) s.(calls) s.(jobs) s.(posted) s.(trace) v.

(** Arguments of a signal, by their type: [(is)], [(ixss)] or another. *)
Inductive variant :=
| VRemove (uid : Z) (user : string)
| VSwitch (uid id : Z) (previous next : string)
| VOther.

Class AuthorityEnv := {
  (** The session account of the configuration. *)
  uid_ : Z;
  (** [g_dbus_address_get_for_bus_sync]. *)
  au_address : nat → bool;
  (** The server is not stopping and [Submit] takes the job. *)
  au_submit : nat → bool;
  (** The results of the barriers that the database thread runs before an
      access to the profile state. *)
  au_jobs : nat → list bool;
}.

Definition U (X : Type) : Type := Authority → Authority * X.

#[export] Instance U_ret : MRet U := λ X x s, (s, x).
#[export] Instance U_bind : MBind U := λ X Y k m s, let '(s', x) := m s in k x s'.

Definition getU : U Authority := λ s, (s, s).
Definition modU (f : Authority → Authority) : U () := λ s, (f s, ()).
Definition member : U Impl := λ s, (s, s.(impl)).
Definition assign (f : Impl → Impl) : U () := modU (λ s, set_impl (f s.(impl)) s).
Definition emit (o : obs) : U () := modU (λ s, set_trace (s.(trace) ++ [o]) s).
Definition observe_ {X} (f : nat → X) : U X := λ s, (set_au_tick (S s.(au_tick)) s, f s.(au_tick)).

Fixpoint eachU {X} (l : list X) (body : X → U ()) : U () :=
  match l with
  | [] => mret ()
  | x :: l' => body x;; eachU l' body
  end.

(** ** The profile state and the database thread *)

(** [ProfileState::Fence] on the shared state. *)
Definition fence_state : U Z :=
  s ← getU;
  modU (set_profiles (Fence s.(profiles)).2);; emit OFence;; mret (Fence s.(profiles)).1.

(** The database thread runs the first barrier, which commits or fails. *)
Definition run_barrier (success : bool) : U () :=
  s ← getU;
  match s.(jobs) with
  | [] => mret ()
  | (retire, removed, done) :: rest =>
      modU (set_jobs rest);;
      (if success then emit (OBarrier retire removed) else fence_state;; mret ());;
      modU (λ s, set_posted (s.(posted) ++ [(done, success)]) s)
  end.

Section authority.
Context `{Platform} `{AuthorityEnv}.

(** An acquisition of the profile state's mutex on the main context. *)
Definition sync : U () := results ← observe_ au_jobs; eachU results run_barrier.

Definition Generation : U Z := sync;; s ← getU; mret s.(profiles).(ps_generation).

Definition FenceProfile : U Z := sync;; fence_state.

Definition ActivateProfile (generation : Z) (user : string) : U bool :=
  sync;;
  s ← getU;
  let '(success, p) := Activate generation user s.(profiles) in
  modU (set_profiles p);;
  (if success then emit (OActivate user) else mret ());;
  mret success.

Definition Known (user : string) : U bool :=
  s ← getU; mret (existsb (λ binding, eqs binding.(b_user) user) s.(profiles).(ps_bindings)).

(** ** Resources of the authority *)

Definition ClearTimer : U () := assign (set_timer_ None).
Definition ArmTimer (work : timer) : U () := ClearTimer;; assign (set_timer_ (Some work)).
Definition CancelCalls : U () := assign (set_cancel_ false).
Definition Unwatch : U () := assign (λ i, set_watches_ false (set_signal_ false (set_closed_ false i))).

Definition Watch : U () :=
  i ← member;
  if i.(stopping_) || i.(watches_) then mret ()
  else assign (λ i, set_watches_ true (set_closed_ true i)).

(** The barrier of [StartProfiles]: the job is submitted, or the state is
    fenced and the completion runs at once with a failure. *)
Definition barrier_ (retire : bool) (removed : string) (done : Done) (refused : U ()) : U () :=
  accepted ← observe_ au_submit;
  if (accepted : bool) then modU (λ s, set_jobs (s.(jobs) ++ [(retire, removed, done)]) s)
  else FenceProfile;; refused.

(** The completion of the barrier of [Lose]. *)
Definition lose_done (generation incarnation : Z) (success : bool) : U () :=
  i ← member;
  if i.(stopping_) || negb success || negb (i.(incarnation_) =? incarnation) then mret ()
  else
    current ← Generation;
    if current =? generation then ArmTimer TStart else mret ().

Definition Lose : U () :=
  i ← member;
  if i.(stopping_) then mret ()
  else
    ClearTimer;;
    assign (λ i, set_connect_cancel_ false (set_connecting_ false
      (set_incarnation_ (u64 (i.(incarnation_) + 1)) i)));;
    FenceProfile;;
    emit OLost;;
    assign (λ i, set_barrier_done_ false (set_pending_ 0 (set_synchronized_ false
      (set_initialized_ false i))));;
    CancelCalls;;
    Unwatch;;
    assign (λ i, set_ready_owner_ "" (set_owner_ "" i));;
    assign (λ i, if i.(injected_) then i else set_connection_ false i);;
    generation ← Generation;
    i ← member;
    barrier_ true "" (DLose generation i.(incarnation_)) (lose_done generation i.(incarnation_) false).

Definition Stop : U () :=
  i ← member;
  if i.(stopping_) then mret ()
  else
    assign (λ i, set_stopping_ true (set_incarnation_ (u64 (i.(incarnation_) + 1)) i));;
    FenceProfile;;
    emit OStop;;
    ClearTimer;;
    assign (set_connect_cancel_ false);;
    CancelCalls;;
    Unwatch.

Definition Start : U () :=
  i ← member;
  if i.(stopping_) || i.(connecting_) || i.(watches_) then mret ()
  else if i.(connection_) then Watch
  else
    address ← observe_ au_address;
    if negb (address : bool) then Lose
    else
      assign (λ i, set_connect_cancel_ true (set_connecting_ true i));;
      i ← member;
      modU (λ s, set_connects (s.(connects) ++ [i.(incarnation_)]) s);;
      ArmTimer TConnect.

(** ** Calls and barriers *)

Definition Method (r : request) : U () :=
  generation ← Generation;
  i ← member;
  emit (OCall r);;
  modU (λ s, set_calls (s.(calls) ++ [mkCall generation i.(owner_) r]) s).

Definition Read (initial removal : bool) : U () := Method (GetCurrentUser initial removal).

(** The completion of the barrier of [Read]. *)
Definition read_done (generation : Z) (current : string) (success : bool) : U () :=
  i ← member;
  if i.(stopping_) || negb success then mret ()
  else
    activated ← ActivateProfile generation current;
    if (activated : bool) then
      assign (λ i, set_pending_ 0 (set_synchronized_ true (set_active_ current i)));;
      ClearTimer
    else mret ().

(** The completion of the barrier of a removal. *)
Definition remove_done (generation : Z) (removed : string) (success : bool) : U () :=
  i ← member;
  if i.(stopping_) || negb success then mret ()
  else
    current ← Generation;
    if negb (generation =? current) then mret () else Method (RemoveUserDone removed).

(** The completion of the barrier of a switch. *)
Definition switch_done (generation id : Z) (success : bool) : U () :=
  i ← member;
  if i.(stopping_) then mret ()
  else
    current ← Generation;
    if negb (generation =? current) then mret ()
    else if negb success then Lose
    else assign (set_barrier_done_ true);; Method (SwitchUserDone id).

Definition finish (done : Done) (success : bool) : U () :=
  match done with
  | DLose generation incarnation => lose_done generation incarnation success
  | DRead generation current => read_done generation current success
  | DRemove generation removed => remove_done generation removed success
  | DSwitch generation id => switch_done generation id success
  end.

Definition answer_kind (initial removal : bool) : answer :=
  if initial then AInitial else if removal then ARemoval else ASwitch.

(** The reply of [GetCurrentUser]. *)
Definition current_user (initial removal : bool) (user : string) : U () :=
  i ← member;
  known ← Known user;
  if (size user >=? 20) || negb known ||
     (negb initial && negb removal && (negb (eqs i.(next_) user) || negb i.(barrier_done_))) ||
     (removal && negb (eqs i.(active_) user))
  then Lose
  else
    generation ← Generation;
    emit (OAnswer (answer_kind initial removal) user);;
    barrier_ initial "" (DRead generation user) (read_done generation user false).

Definition continue_ (r : request) (reply : string) : U () :=
  match r with
  | SwitchUserWait => Method RemoveUserWait
  | RemoveUserWait => Read true false
  | GetCurrentUser initial removal => current_user initial removal reply
  | RemoveUserDone _ => Read false true
  | SwitchUserDone id =>
      assign (set_acknowledged_ true);; emit (OAcked id);;
      i ← member;
      if i.(completed_) then Read false false else mret ()
  end.

Definition OnMethodFinished (c : Call) (reply : option string) : U () :=
  i ← member;
  if i.(stopping_) then mret ()
  else
    generation ← Generation;
    if negb (c.(call_generation) =? generation) || negb (eqs c.(call_owner) i.(owner_)) ||
       negb (eqs i.(owner_) i.(ready_owner_))
    then mret ()
    else
      match reply with
      | Some value => continue_ c.(call_request) value
      | None => Lose
      end.

(** ** Names and signals *)

Definition Initialize : U () :=
  i ← member;
  if i.(initialized_) || empty i.(owner_) || empty i.(ready_owner_) then mret ()
  else if negb (eqs i.(owner_) i.(ready_owner_)) then Lose
  else
    assign (set_initialized_ true);;
    FenceProfile;;
    assign (λ i, set_signal_ true (set_cancel_ true i));;
    Method SwitchUserWait.

Definition OnConnectFinished (incarnation : Z) (connected : bool) : U () :=
  i ← member;
  if negb (incarnation =? i.(incarnation_)) then mret ()
  else
    assign (λ i, set_connect_cancel_ false (set_connecting_ false i));;
    ClearTimer;;
    i ← member;
    if i.(stopping_) then mret ()
    else if connected then assign (set_connection_ true);; Watch
    else Lose.

Definition OnNameAppeared (name owner : string) : U () :=
  i ← member;
  if i.(stopping_) then mret ()
  else
    let slot := if eqs name kReady then i.(ready_owner_) else i.(owner_) in
    if negb (empty slot) && negb (eqs slot owner) then Lose
    else
      assign (if eqs name kReady then set_ready_owner_ owner else set_owner_ owner);;
      Initialize.

Definition OnNameVanished : U () :=
  i ← member;
  if negb i.(stopping_) && (negb (empty i.(owner_)) || negb (empty i.(ready_owner_)))
  then Lose else mret ().

Definition OnClosed : U () := Lose.

Definition remove_started (uid : Z) (user : string) : U () :=
  if negb (uid =? uid_) then mret ()
  else
    i ← member;
    if negb i.(synchronized_) then Lose
    else
      known ← Known user;
      if negb known || (size user >=? 20) then Lose
      else
        FenceProfile;;
        emit (ORemoving user);;
        generation ← Generation;
        barrier_ false user (DRemove generation user) (remove_done generation user false).

Definition switch_completed (id : Z) (previous next : string) : U () :=
  i ← member;
  if negb (i.(pending_) =? id) || negb (eqs i.(previous_) previous) || negb (eqs i.(next_) next) ||
     negb i.(barrier_done_)
  then Lose
  else
    assign (set_completed_ true);;
    emit (OCompleted id);;
    if i.(acknowledged_) then Read false false else mret ().

Definition switch_started (id : Z) (previous next : string) : U () :=
  generation ← FenceProfile;
  i ← member;
  if negb (i.(pending_) =? 0) || negb (eqs i.(active_) previous) then Lose
  else
    assign (λ i, set_pending_ id (set_previous_ previous (set_next_ next
      (set_barrier_done_ false (set_acknowledged_ false (set_completed_ false i))))));;
    emit (OStarted id previous next);;
    ArmTimer TLose;;
    barrier_ false "" (DSwitch generation id) (switch_done generation id false).

Definition Signal (name : string) (params : variant) : U () :=
  if eqs name "RemoveUserStarted" then
    match params with VRemove uid user => remove_started uid user | _ => Lose end
  else
    let started := eqs name "SwitchUserStarted" in
    if negb started && negb (eqs name "SwitchUserCompleted") then mret ()
    else
      match params with
      | VSwitch uid id previous next =>
          if negb (uid =? uid_) then mret ()
          else
            i ← member;
            if negb i.(synchronized_) then Lose
            else
              known_previous ← Known previous;
              known_next ← Known next;
              if (id <=? 0) || (size previous >=? 20) || (size next >=? 20) ||
                 negb known_previous || negb known_next
              then Lose
              else if started then switch_started id previous next
              else switch_completed id previous next
      | _ => Lose
      end.

Definition OnSignal (sender path interface name : string) (params : variant) : U () :=
  i ← member;
  if negb i.(stopping_) && eqs i.(owner_) sender && eqs path kPath && eqs interface kInterface
  then Signal name params else mret ().

(** A connection attempt that the timer cancels ends like any other, with
    [OnConnectFinished]. *)
Definition OnTimer (work : timer) : U () :=
  match work with
  | TConnect => mret ()
  | TStart => Start
  | TLose => Lose
  end.

(** ** Steps *)

Inductive event :=
| EvStart
| EvStop
| EvTimer
| EvConnect (n : nat) (connected : bool)
| EvCall (n : nat) (reply : option string)
| EvPosted
| EvDropped (n : nat)
| EvBarrier (success : bool)
| EvAppeared (ready : bool) (owner : string)
| EvVanished
| EvClosed
| EvSignal (sender path interface name : string) (params : variant).

Definition handle (e : event) : U () :=
  s ← getU;
  match e with
  | EvStart => if s.(profiles).(ps_enabled) then Start else mret ()
  | EvStop => Stop
  | EvTimer =>
      match s.(impl).(timer_) with
      | Some work => ClearTimer;; OnTimer work
      | None => mret ()
      end
  | EvConnect n connected =>
      match s.(connects) !! n with
      | Some incarnation =>
          modU (set_connects (delete n s.(connects)));; OnConnectFinished incarnation connected
      | None => mret ()
      end
  | EvCall n reply =>
      match s.(calls) !! n with
      | Some c => modU (set_calls (delete n s.(calls)));; OnMethodFinished c reply
      | None => mret ()
      end
  | EvPosted =>
      match s.(posted) with
      | (done, success) :: rest => modU (set_posted rest);; finish done success
      | [] => mret ()
      end
  (* [Post] to the main context has failed for this completion, which is lost *)
  | EvDropped n => modU (set_posted (delete n s.(posted)))
  | EvBarrier success => run_barrier success
  | EvAppeared ready owner =>
      if s.(impl).(watches_) && negb (empty owner)
      then OnNameAppeared (if ready then kReady else kManager) owner else mret ()
  | EvVanished => if s.(impl).(watches_) then OnNameVanished else mret ()
  | EvClosed => if s.(impl).(closed_) then OnClosed else mret ()
  | EvSignal sender path interface name params =>
      if s.(impl).(signal_) then OnSignal sender path interface name params else mret ()
  end.

Definition step (e : event) (s : Authority) : Authority := (handle e s).1.

Definition run (events : list event) (s : Authority) : Authority := foldl (λ s e, step e s) s events.

Definition new_impl : Impl :=
  mkImpl false false false 1 false false false false false false false false false false false None
    "" "" "" 0 "" "".

(** The authority as [Server::StartProfiles] creates it, after [LoadProfiles]
    configured the bindings. *)
Definition created (bindings : list ProfileBinding) (n : nat) : Authority :=
  mkAuthority new_impl (Configure bindings profile_initial).2 [] [] [] [] [] n.
End authority.
