(* ===== verification/AuthoritySpec.v ===== *)
(** * What the profile authority promises

    The protocol of profile switches as an automaton over the observations of
    the authority, and the simulation that shows that every run of
    [Authority] follows it. *)
From S2P Require Import Prelude Strings Platform Message Packing ProfileState Authority.

(** ** The protocol *)

(** A switch that the session service has announced. *)
Record Switch := mkSwitch {
  sw_id : Z;
  sw_next : string;
  (** No fence since it was announced. *)
  sw_fresh : bool;
  (** A barrier was committed after it was announced. *)
  sw_committed : bool;
  (** The daemon has agreed to it, and the service has replied. *)
  sw_told : bool;
  sw_acked : bool;
  (** The service has reported its end. *)
  sw_completed : bool;
  (** A profile was activated since. *)
  sw_over : bool;
}.

Record Spec := mkSpec {
  sp_stopped : bool;
  (** The authority has followed the service without a gap since an activation. *)
  sp_linked : bool;
  sp_open : option string;
  sp_last : string;
  sp_switch : option Switch;
  (** The users that the service has named since the last fence, and whether a barrier was
      committed since then. *)
  sp_answers : list (answer * string * bool);
  (** The users whom a barrier has named since their removal was announced; a
      barrier without a removal names the empty user, who has no approvals. *)
  sp_retired : list string;
}.

Definition spec_initial : Spec := mkSpec false false None "" None [] [].

Definition unfresh (w : Switch) : Switch :=
  mkSwitch w.(sw_id) w.(sw_next) false w.(sw_committed) w.(sw_told) w.(sw_acked) w.(sw_completed) w.(sw_over).
Definition commit_switch (w : Switch) : Switch :=
  mkSwitch w.(sw_id) w.(sw_next) w.(sw_fresh) (w.(sw_fresh) || w.(sw_committed)) w.(sw_told) w.(sw_acked)
    w.(sw_completed) w.(sw_over).
Definition tell_switch (w : Switch) : Switch :=
  mkSwitch w.(sw_id) w.(sw_next) w.(sw_fresh) w.(sw_committed) true w.(sw_acked) w.(sw_completed) w.(sw_over).
Definition ack_switch (w : Switch) : Switch :=
  mkSwitch w.(sw_id) w.(sw_next) w.(sw_fresh) w.(sw_committed) w.(sw_told) true w.(sw_completed) w.(sw_over).
Definition complete_switch (w : Switch) : Switch :=
  mkSwitch w.(sw_id) w.(sw_next) w.(sw_fresh) w.(sw_committed) w.(sw_told) w.(sw_acked) true w.(sw_over).
Definition end_switch (w : Switch) : Switch :=
  mkSwitch w.(sw_id) w.(sw_next) w.(sw_fresh) w.(sw_committed) w.(sw_told) w.(sw_acked) w.(sw_completed) true.

(** After a gap only a barrier that retires all approvals admits an answer. *)
Definition commit_answer (retire : bool) (a : answer * string * bool) : answer * string * bool :=
  let '(kind, user, committed) := a in
  (kind, user, committed || match kind with AInitial => retire | _ => true end).

Definition switch_allows (user : string) (w : Switch) : bool :=
  eqs w.(sw_next) user && w.(sw_committed) && w.(sw_told) && w.(sw_acked) && w.(sw_completed).

Definition answer_allowed (kind : answer) (user : string) (p : Spec) : bool :=
  match kind with
  | AInitial => true
  | ARemoval => p.(sp_linked) && eqs p.(sp_last) user
  | ASwitch => p.(sp_linked) && match p.(sp_switch) with Some w => switch_allows user w | None => false end
  end.

Section spec.
(** The users of the bindings. *)
Context (known : string → bool).

(** [None] when the protocol does not allow the observation. *)
Definition spec_step (p : Spec) (o : obs) : option Spec :=
  let '(mkSpec stopped linked open last switch answers retired) := p in
  match o with
  | OFence => Some (mkSpec stopped linked None last (unfresh <$> switch) [] retired)
  | OLost => Some (mkSpec stopped false open last None answers [])
  | OStop => if bool_decide (open = None) then Some (mkSpec true linked open last switch answers retired) else None
  | OStarted id previous next =>
      if negb stopped && linked && bool_decide (open = None) && eqs last previous && (0 <? id) &&
         known previous && known next &&
         match switch with Some w => w.(sw_over) | None => true end
      then Some (mkSpec stopped linked open last
                   (Some (mkSwitch id next true false false false false false)) answers retired)
      else None
  | OCompleted id =>
      match switch with
      | Some w =>
          if (w.(sw_id) =? id) && w.(sw_committed) && negb w.(sw_over)
          then Some (mkSpec stopped linked open last (Some (complete_switch w)) answers retired)
          else None
      | None => None
      end
  | OAcked id =>
      match switch with
      | Some w =>
          if (w.(sw_id) =? id) && w.(sw_told)
          then Some (mkSpec stopped linked open last (Some (ack_switch w)) answers retired)
          else None
      | None => None
      end
  | ORemoving user =>
      if linked && bool_decide (open = None)
      then Some (mkSpec stopped linked open last switch answers
                   (filter (λ u, eqs u user = false) retired))
      else None
  | OBarrier retire removed =>
      Some (mkSpec stopped linked open last (commit_switch <$> switch)
              (commit_answer retire <$> answers)
              (removed :: retired))
  | OCall (SwitchUserDone id) =>
      match switch with
      | Some w =>
          if (w.(sw_id) =? id) && w.(sw_committed) && negb w.(sw_over) && bool_decide (open = None) &&
             negb stopped
          then Some (mkSpec stopped linked open last (Some (tell_switch w)) answers retired)
          else None
      | None => None
      end
  | OCall (RemoveUserDone user) =>
      if existsb (eqs user) retired && negb stopped then Some p else None
  | OCall _ => if negb stopped then Some p else None
  | OAnswer kind user =>
      if negb stopped && known user && answer_allowed kind user p
      then Some (mkSpec stopped linked open last switch (answers ++ [(kind, user, false)]) retired)
      else None
  | OActivate user =>
      if negb stopped && existsb (λ a, eqs a.1.2 user && a.2) answers
      then Some (mkSpec stopped true (Some user) user (end_switch <$> switch) answers retired)
      else None
  end.

Definition spec_run (t : list obs) : option Spec :=
  foldl (λ p o, p ≫= λ p, spec_step p o) (Some spec_initial) t.

Lemma spec_run_snoc t o : spec_run (t ++ [o]) = spec_run t ≫= λ p, spec_step p o.
Proof. unfold spec_run. by rewrite foldl_app. Qed.
End spec.

(** ** The simulation *)

Definition fences (t : list obs) : Z := count_rows (λ o, match o with OFence => true | _ => false end) t.

Definition done_generation (d : Done) : option Z :=
  match d with
  | DLose _ _ => None
  | DRead g _ | DRemove g _ | DSwitch g _ => Some g
  end.

(** A switch at the stage the members record. *)
Record switch_ok (i : Impl) (p : Spec) (w : Switch) : Prop := {
  wo_pending : i.(pending_) = if w.(sw_over) then 0 else w.(sw_id);
  wo_positive : 0 < w.(sw_id);
  wo_next : i.(next_) = w.(sw_next);
  wo_done : i.(barrier_done_) = true → w.(sw_committed) = true;
  wo_acked : i.(acknowledged_) = true → w.(sw_acked) = true ∧ w.(sw_told) = true;
  wo_completed : i.(completed_) = true → w.(sw_completed) = true;
  wo_linked : p.(sp_linked) = true;
}.

(** The members and the protocol agree. *)
Record main_ok (i : Impl) (ps : ProfileState) (p : Spec) : Prop := {
  mo_stopped : p.(sp_stopped) = i.(stopping_);
  mo_linked : p.(sp_linked) = i.(synchronized_);
  mo_last : p.(sp_last) = i.(active_);
  mo_open : p.(sp_open) = if ps.(ps_ready) then Some ps.(ps_active_user) else None;
  mo_ready : ps.(ps_ready) = true →
    i.(synchronized_) = true ∧ i.(stopping_) = false ∧ ps.(ps_active_user) = i.(active_);
  mo_linked_init : i.(synchronized_) = true → i.(initialized_) = true;
  mo_init : i.(initialized_) = true → i.(owner_) = i.(ready_owner_) ∧ i.(owner_) ≠ "";
  mo_switch : match p.(sp_switch) with
              | None => i.(pending_) = 0 ∧ i.(barrier_done_) = false
              | Some w => switch_ok i p w
              end;
}.

(** What a call of the current generation relies on. *)
Definition call_ok (i : Impl) (p : Spec) (r : request) : Prop :=
  i.(initialized_) = true ∧
  match r with
  | SwitchUserWait | RemoveUserWait => True
  | GetCurrentUser initial removal =>
      initial = false → i.(synchronized_) = true ∧
        (removal = false → i.(acknowledged_) = true ∧ i.(completed_) = true ∧ is_Some p.(sp_switch))
  | RemoveUserDone _ => i.(synchronized_) = true
  | SwitchUserDone id =>
      i.(synchronized_) = true ∧ ∃ w, p.(sp_switch) = Some w ∧ w.(sw_id) = id ∧ w.(sw_told) = true
  end.

(** What a barrier of the current generation relies on; [committed] when it
    has been committed. *)
Definition done_ok (i : Impl) (ps : ProfileState) (p : Spec) (retire : bool) (removed : string)
    (committed : bool) (d : Done) : Prop :=
  i.(initialized_) = true ∧
  match d with
  | DLose _ _ => True
  | DRead _ user =>
      ∃ kind c, (kind, user, c) ∈ p.(sp_answers) ∧ (kind = AInitial → retire = true) ∧
        (committed = true → c = true)
  | DRemove _ user =>
      i.(synchronized_) = true ∧ removed = user ∧
      (committed = true → user ∈ p.(sp_retired))
  | DSwitch _ id =>
      i.(synchronized_) = true ∧ i.(barrier_done_) = false ∧ ps.(ps_ready) = false ∧
      ∃ w, p.(sp_switch) = Some w ∧ w.(sw_id) = id ∧ w.(sw_over) = false ∧
        (w.(sw_fresh) = true ∨ w.(sw_committed) = true) ∧ (committed = true → w.(sw_committed) = true)
  end.

Definition current (s : Authority) : Z := s.(profiles).(ps_generation).

(** The completions under way, in the order of their barriers. *)
Definition dones (s : Authority) : list Done := (fst <$> s.(posted)) ++ (snd <$> s.(jobs)).

Definition at_generation (g : Z) (d : Done) : Prop := done_generation d = Some g.
#[export] Instance at_generation_dec g d : Decision (at_generation g d).
Proof. unfold at_generation. apply _. Defined.

(** Nothing of the current generation is under way. *)
Definition quiet (s : Authority) : Prop :=
  Forall (λ c, c.(call_generation) ≠ current s) s.(calls) ∧
  Forall (λ d, ¬ at_generation (current s) d) (dones s).

(** No barrier of a switch of the current generation is under way. *)
Definition calm (s : Authority) : Prop := ∀ id, DSwitch (current s) id ∉ dones s.

Definition known_user (bindings : list ProfileBinding) (user : string) : bool :=
  existsb (λ binding, eqs binding.(b_user) user) bindings.

(** The state was configured with these bindings. *)
Definition configured_with (bindings : list ProfileBinding) (ps : ProfileState) : Prop :=
  ps.(ps_bindings) = bindings ∧ ps.(ps_enabled) = negb (bool_decide (bindings = [])).

Section simulation.
Context (bindings : list ProfileBinding).

Definition call_rel (s : Authority) (p : Spec) (c : Call) : Prop :=
  c.(call_generation) ≤ current s ∧
  (c.(call_generation) = current s →
   c.(call_owner) = s.(impl).(owner_) ∧ call_ok s.(impl) p c.(call_request)).

Definition done_rel (s : Authority) (p : Spec) (retire : bool) (removed : string) (committed : bool)
    (d : Done) : Prop :=
  match done_generation d with
  | None => True
  | Some g => g ≤ current s ∧ (g = current s → done_ok s.(impl) s.(profiles) p retire removed committed d)
  end.

Definition posted_rel (s : Authority) (p : Spec) (e : Done * bool) : Prop :=
  if e.2 then ∃ retire removed, done_rel s p retire removed true e.1
  else match done_generation e.1 with None => True | Some g => g < current s end.

Record rel (s : Authority) (p : Spec) : Prop := {
  re_bindings : configured_with bindings s.(profiles);
  re_gen : 0 ≤ current s ≤ 1 + fences s.(trace);
  re_run : spec_run (known_user bindings) s.(trace) = Some p;
  re_main : main_ok s.(impl) s.(profiles) p;
  re_calls : Forall (call_rel s p) s.(calls);
  re_jobs : Forall (λ j, done_rel s p j.1.1 j.1.2 false j.2) s.(jobs);
  re_posted : Forall (posted_rel s p) s.(posted);
  re_alone : ∀ id, DSwitch (current s) id ∈ dones s →
    filter (at_generation (current s)) (dones s) = [DSwitch (current s) id] ∧
    Forall (λ c, c.(call_generation) ≠ current s) s.(calls);
}.

(** ** What the database thread leaves alone *)

Definition switch_le (w w' : Switch) : Prop :=
  w'.(sw_id) = w.(sw_id) ∧ w'.(sw_next) = w.(sw_next) ∧ w'.(sw_told) = w.(sw_told) ∧
  w'.(sw_acked) = w.(sw_acked) ∧ w'.(sw_completed) = w.(sw_completed) ∧ w'.(sw_over) = w.(sw_over) ∧
  (w.(sw_committed) = true → w'.(sw_committed) = true).

Record db_le (s : Authority) (p : Spec) (s' : Authority) (p' : Spec) : Prop := {
  dl_impl : s'.(impl) = s.(impl);
  dl_calls : s'.(calls) = s.(calls);
  dl_dones : dones s' = dones s;
  dl_bindings : s'.(profiles).(ps_bindings) = s.(profiles).(ps_bindings);
  dl_gen : current s ≤ current s';
  dl_ready : s'.(profiles) = s.(profiles) ∨ (current s < current s' ∧ s'.(profiles).(ps_ready) = false);
  dl_switch : option_Forall2 switch_le p.(sp_switch) p'.(sp_switch);
  dl_fresh : current s' = current s → ∀ w w', p.(sp_switch) = Some w → p'.(sp_switch) = Some w' →
    w'.(sw_fresh) = w.(sw_fresh);
  dl_answers : current s' = current s → ∀ k u c, (k, u, c) ∈ p.(sp_answers) →
    ∃ c', (k, u, c') ∈ p'.(sp_answers) ∧ (c = true → c' = true);
  dl_retired : ∀ u, u ∈ p.(sp_retired) → u ∈ p'.(sp_retired);
}.
End simulation.
