(* ===== verification/AuthorityInv.v ===== *)
(** * The profile authority follows its protocol

    Preservation of the simulation [AuthoritySpec.rel] by the database thread
    and by every callback of the main context. *)
From S2P Require Import Prelude Strings Platform Message Packing ProfileState Authority AuthoritySpec.

(** ** Counting fences *)

Lemma fences_snoc t o : fences (t ++ [o]) = fences t + match o with OFence => 1 | _ => 0 end.
Proof.
  unfold fences, count_rows. rewrite filter_app, length_app. destruct o; simpl; lia.
Qed.

Lemma fences_nonneg t : 0 ≤ fences t.
Proof. unfold fences, count_rows. lia. Qed.

(** The counter of fences has not wrapped around. *)
Definition bounded (s : Authority) : Prop := 1 + fences s.(trace) < 2 ^ 64.

(** ** A program logic for callbacks *)

(** The trace only loses no fence. *)
Definition mono {X} (m : U X) : Prop := ∀ s, fences s.(trace) ≤ fences (m s).1.(trace).

Lemma mono_bounded {X} (m : U X) s : mono m → bounded (m s).1 → bounded s.
Proof. unfold bounded. intros Hm. specialize (Hm s). lia. Qed.

Definition wp {X} (m : U X) (Q : X → Authority → Prop) (s : Authority) : Prop :=
  bounded (m s).1 → Q (m s).2 (m s).1.

Create HintDb mono discriminated.

Lemma mono_ret {X} (x : X) : mono (mret x).
Proof. intros s. simpl. lia. Qed.
Lemma mono_bind {X Y} (m : U X) (k : X → U Y) : mono m → (∀ x, mono (k x)) → mono (m ≫= k).
Proof.
  intros Hm Hk s. unfold mbind, U_bind. specialize (Hm s). destruct (m s) as [s1 x]. specialize (Hk x s1).
  simpl in *. lia.
Qed.
Lemma mono_getU : mono getU.
Proof. intros s. simpl. lia. Qed.
Lemma mono_member : mono member.
Proof. intros s. simpl. lia. Qed.
Lemma mono_assign f : mono (assign f).
Proof. intros s. simpl. lia. Qed.
Lemma mono_emit o : mono (emit o).
Proof. intros s. simpl. rewrite fences_snoc. destruct o; lia. Qed.
Lemma mono_observe {X} (f : nat → X) : mono (observe_ f).
Proof. intros s. simpl. lia. Qed.
Lemma mono_modU f : (∀ s, (f s).(trace) = s.(trace)) → mono (modU f).
Proof. intros Hf s. simpl. rewrite Hf. lia. Qed.
Lemma mono_each {X} (l : list X) body : (∀ x, mono (body x)) → mono (eachU l body).
Proof. intros Hb. induction l; [apply mono_ret|]. simpl. apply mono_bind; auto. Qed.

#[export] Hint Resolve mono_ret mono_getU mono_member mono_assign mono_emit mono_observe
  mono_each : mono.
#[export] Hint Extern 1 (mono (modU _)) => apply mono_modU; intros; reflexivity : mono.

(** Prove [mono] of a body by its syntax. *)
Ltac mono_tac :=
  repeat first
    [ match goal with
      | |- mono (_ ≫= _) => apply mono_bind; [|intros ?]
      | |- mono (if ?b then _ else _) => destruct b
      | |- mono (match ?x with _ => _ end) => destruct x
      end
    | solve [eauto 3 with mono] ].

Lemma mono_fence_state : mono fence_state.
Proof. unfold fence_state. mono_tac. Qed.
#[export] Hint Resolve mono_fence_state : mono.

Lemma mono_run_barrier b : mono (run_barrier b).
Proof. unfold run_barrier. mono_tac. Qed.
#[export] Hint Resolve mono_run_barrier : mono.

Lemma wpU_ret {X} (x : X) Q s : Q x s → wp (mret x) Q s.
Proof. by intros ? ?. Qed.
Lemma wpU_bind {X Y} (m : U X) (k : X → U Y) Q s :
  (∀ x, mono (k x)) → wp m (λ x s', wp (k x) Q s') s → wp (m ≫= k) Q s.
Proof.
  intros Hk. unfold wp, mbind, U_bind. destruct (m s) as [s1 x] eqn:E. simpl. intros Hm Hb.
  apply Hm; [|done]. by eapply (mono_bounded (k x)).
Qed.
Lemma wpU_mono {X} (m : U X) (Q Q' : X → Authority → Prop) s :
  wp m Q s → (∀ x s', Q x s' → Q' x s') → wp m Q' s.
Proof. unfold wp. auto. Qed.
Lemma wp_member Q s : Q s.(impl) s → wp member Q s.
Proof. by intros ? ?. Qed.
Lemma wp_getU Q s : Q s s → wp getU Q s.
Proof. by intros ? ?. Qed.
Lemma wp_modU f Q s : Q () (f s) → wp (modU f) Q s.
Proof. by intros ? ?. Qed.
Lemma wp_assign f Q s : Q () (set_impl (f s.(impl)) s) → wp (assign f) Q s.
Proof. by intros ? ?. Qed.
Lemma wp_emit o Q s : Q () (set_trace (s.(trace) ++ [o]) s) → wp (emit o) Q s.
Proof. by intros ? ?. Qed.
Lemma wp_observe {X} (f : nat → X) Q s :
  (∀ x, Q x (set_au_tick (S s.(au_tick)) s)) → wp (observe_ f) Q s.
Proof. intros HQ ?. apply HQ. Qed.

(** ** Steps of the database thread *)

Section database.
Context (bindings : list ProfileBinding).
#[local] Abbreviation rel := (rel bindings).

Lemma option_Forall2_l {X Y} (R : X → Y → Prop) x m :
  option_Forall2 R (Some x) m → ∃ y, m = Some y ∧ R x y.
Proof. inversion 1; subst. eauto. Qed.

Lemma db_le_refl s p : db_le s p s p.
Proof.
  constructor; try done; [auto|apply option_Forall2_refl; by intros ?| |eauto].
  intros _ w w' Hw Hw'. congruence.
Qed.

Lemma db_le_tick s p n : db_le s p (set_au_tick n s) p.
Proof. destruct (db_le_refl s p). by constructor. Qed.

Lemma rel_tick s p n : rel s p → rel (set_au_tick n s) p.
Proof. intros []. by constructor. Qed.

Lemma db_le_trans s1 p1 s2 p2 s3 p3 : db_le s1 p1 s2 p2 → db_le s2 p2 s3 p3 → db_le s1 p1 s3 p3.
Proof.
  intros [Hi1 Hc1 Hd1 Hb1 Hg1 Hr1 Hs1 Hf1 Ha1 Ht1] [Hi2 Hc2 Hd2 Hb2 Hg2 Hr2 Hs2 Hf2 Ha2 Ht2].
  constructor; try congruence; [lia| | | | |auto].
  - destruct Hr1 as [E1|[? Hr1]], Hr2 as [E2|[? Hr2]]; unfold current in *;
      [left; congruence|right; rewrite <- E1; auto|right; rewrite E2; auto|right; split; [lia|auto]].
  - destruct Hs1 as [w1 w2 Hw1|]; inversion Hs2 as [? w3 Hw2|]; subst; constructor.
    unfold switch_le in *. destruct Hw1 as (?&?&?&?&?&?&?), Hw2 as (?&?&?&?&?&?&?).
    split_and!; try congruence. auto.
  - intros Hg w w' Hw Hw'. rewrite Hw in Hs1. apply option_Forall2_l in Hs1 as (w2 & Hw2 & _).
    rewrite (Hf2 ltac:(lia) w2 w' Hw2 Hw'). by apply (Hf1 ltac:(lia)).
  - intros Hg k u c Hin. destruct (Ha1 ltac:(lia) _ _ _ Hin) as (c2 & Hin2 & ?).
    destruct (Ha2 ltac:(lia) _ _ _ Hin2) as (c3 & Hin3 & ?). exists c3. auto.
Qed.

Lemma call_ok_le s p s' p' r : db_le s p s' p' → call_ok s.(impl) p r → call_ok s'.(impl) p' r.
Proof.
  intros [Hi _ _ _ _ _ Hs _ _ _]. unfold call_ok. rewrite Hi. intros [? Hr]. split; [done|].
  destruct r as [| |initial removal|u|id]; try done.
  - intros Hin. destruct (Hr Hin) as [? Hr']. split; [done|]. intros Hre. destruct (Hr' Hre) as (?&?&[w Hw]).
    split_and!; try done. rewrite Hw in Hs. apply option_Forall2_l in Hs as (w' & ? & _). eauto.
  - destruct Hr as (? & w & Hw & ? & ?). split; [done|]. rewrite Hw in Hs.
    apply option_Forall2_l in Hs as (w' & Hw' & Hle). exists w'. destruct Hle as (?&?&?&?).
    split_and!; congruence.
Qed.

Lemma done_ok_le s p s' p' a b c d : db_le s p s' p' → current s' = current s →
  done_ok s.(impl) s.(profiles) p a b c d → done_ok s'.(impl) s'.(profiles) p' a b c d.
Proof.
  intros [Hi _ _ _ _ Hrd Hs Hf Ha Ht] Hg. unfold done_ok. rewrite Hi. intros [? Hd]. split; [done|].
  assert (Hp : s'.(profiles) = s.(profiles)) by (destruct Hrd as [?|[? _]]; [done|lia]).
  destruct d as [|g u|g u|g id]; [done| | |].
  - destruct Hd as (k & c0 & Hin & Hk & Hc). destruct (Ha Hg _ _ _ Hin) as (c' & ? & ?).
    exists k, c'. split_and!; auto.
  - destruct Hd as (? & ? & Hc). split_and!; try done. intros Hcm. destruct (Hc Hcm); auto.
  - destruct Hd as (? & ? & Hrdy & w & Hw & ? & ? & Hfr & Hc). rewrite Hp. split_and!; try done.
    rewrite Hw in Hs. apply option_Forall2_l in Hs as (w' & Hw' & Hle). exists w'.
    pose proof (Hf Hg w w' Hw Hw') as Hfresh. destruct Hle as (?&?&?&?&?&?&Hcm).
    split_and!; [done|congruence|congruence| |auto]. rewrite Hfresh. destruct Hfr; auto.
Qed.

(** The parts of [rel] that speak of what is under way survive a step of the
    database thread that changes no list of the main context. *)
Lemma rel_items_le s p s' p' : db_le s p s' p' → rel s p →
  Forall (call_rel s' p') s'.(calls) ∧
  (∀ a b c d, done_rel s p a b c d → done_rel s' p' a b c d) ∧
  (∀ id, DSwitch (current s') id ∈ dones s' →
    filter (at_generation (current s')) (dones s') = [DSwitch (current s') id] ∧
    Forall (λ c, c.(call_generation) ≠ current s') s'.(calls)).
Proof.
  intros Hle []. pose proof Hle as [Hi Hc Hd Hb Hg _ _ _ _ _]. split_and!.
  - rewrite Hc. eapply Forall_impl; [done|]. intros c [? Hok]. split; [lia|]. intros Hcg.
    assert (current s' = current s) by lia. destruct Hok as [? Hok]; [lia|].
    rewrite Hi. split; [done|]. rewrite <- Hi. by eapply call_ok_le.
  - intros a b c d. unfold done_rel. destruct (done_generation d) as [g|]; [|done]. intros [? Hok].
    split; [lia|]. intros ?. eapply done_ok_le; [done|lia|]. apply Hok. lia.
  - intros id Hin. rewrite Hd in Hin |- *. rewrite Hc.
    assert (E : current s' = current s).
    { destruct (decide (current s' = current s)) as [|Hne]; [done|]. exfalso.
      unfold dones in Hin. apply elem_of_app in Hin as [Hin|Hin].
      - apply list_elem_of_fmap in Hin as ([d ok] & Hd' & Hin). simpl in Hd'. subst d.
        rewrite Forall_forall in re_posted. specialize (re_posted _ Hin). unfold posted_rel, done_rel in re_posted.
        cbn in re_posted. destruct ok; [destruct re_posted as (? & ? & ? & _)|]; lia.
      - apply list_elem_of_fmap in Hin as ([[a b] d] & Hd' & Hin). simpl in Hd'. subst d.
        rewrite Forall_forall in re_jobs. specialize (re_jobs _ Hin). cbn in re_jobs. lia. }
    rewrite E in Hin |- *. by apply re_alone.
Qed.

Lemma posted_rel_le s p s' p' e : db_le s p s' p' →
  (∀ a b c d, done_rel s p a b c d → done_rel s' p' a b c d) → posted_rel s p e → posted_rel s' p' e.
Proof.
  intros [_ _ _ _ Hg _ _ _ _ _] Hd. unfold posted_rel. destruct e as [d []]; simpl.
  - intros (a & b & ?). exists a, b. auto.
  - destruct (done_generation d); [lia|done].
Qed.

(** The state after a fence. *)
Definition fenced (s : Authority) : Authority :=
  set_trace (s.(trace) ++ [OFence]) (set_profiles (Fence s.(profiles)).2 s).

Definition spec_fenced (p : Spec) : Spec :=
  mkSpec p.(sp_stopped) p.(sp_linked) None p.(sp_last) (unfresh <$> p.(sp_switch)) [] p.(sp_retired).

Lemma main_ok_fenced i ps p : main_ok i ps p → main_ok i (Fence ps).2 (spec_fenced p).
Proof.
  intros []. constructor; try done. cbn [sp_switch spec_fenced]. destruct (sp_switch p) as [w|]; [|done].
  destruct mo_switch as []. by constructor.
Qed.

Lemma current_fenced s p : rel s p → bounded (fenced s) → current (fenced s) = current s + 1.
Proof.
  intros [_ Hg _ _ _ _ _ _] Hb. unfold current in *. cbn. apply u64_id. unfold bounded in Hb.
  cbn in Hb. rewrite fences_snoc in Hb. lia.
Qed.

Lemma fenced_le s p : rel s p → bounded (fenced s) → db_le s p (fenced s) (spec_fenced p).
Proof.
  intros Hr Hb. pose proof (current_fenced _ _ Hr Hb). constructor; try done; [lia|right; split; [lia|done]| | | ].
  - cbn. destruct (sp_switch p); constructor. unfold switch_le. cbn. tauto.
  - lia.
  - lia.
Qed.

Lemma spec_step_fence known p : spec_step known p OFence = Some (spec_fenced p).
Proof. by destruct p. Qed.

Lemma rel_fenced s p : rel s p → bounded (fenced s) → rel (fenced s) (spec_fenced p).
Proof.
  intros Hr Hb. pose proof (fenced_le _ _ Hr Hb) as Hle. pose proof (current_fenced _ _ Hr Hb) as Hc.
  destruct (rel_items_le _ _ _ _ Hle Hr) as (? & Hd & ?). destruct Hr. constructor; try done.
  - rewrite Hc. cbn. rewrite fences_snoc. lia.
  - change (trace (fenced s)) with (trace s ++ [OFence]). rewrite spec_run_snoc, re_run. apply spec_step_fence.
  - by apply main_ok_fenced.
  - cbn. eapply Forall_impl; [done|]. auto.
  - cbn. eapply Forall_impl; [done|]. intros e. by eapply posted_rel_le.
Qed.

Lemma done_at_le s p d g : rel s p → d ∈ dones s → done_generation d = Some g → g ≤ current s.
Proof.
  intros [] Hin Hg. unfold dones in Hin. apply elem_of_app in Hin as [Hin|Hin].
  - apply list_elem_of_fmap in Hin as ([d' ok] & -> & Hin). rewrite Forall_forall in re_posted.
    specialize (re_posted _ Hin). unfold posted_rel, done_rel in re_posted. simpl in re_posted, Hg.
    rewrite Hg in re_posted. destruct ok; [destruct re_posted as (? & ? & ? & _)|]; lia.
  - apply list_elem_of_fmap in Hin as ([[a b] d'] & -> & Hin). rewrite Forall_forall in re_jobs.
    specialize (re_jobs _ Hin). unfold done_rel in re_jobs. simpl in re_jobs, Hg. rewrite Hg in re_jobs. lia.
Qed.

Lemma quiet_later s p s' p' : rel s p → db_le s p s' p' → current s < current s' → quiet s'.
Proof.
  intros Hr [_ Hc Hd _ _ _ _ _ _ _] Hlt. unfold quiet. rewrite Hc, Hd. split.
  - destruct Hr. eapply Forall_impl; [done|]. intros c [? _]. lia.
  - apply Forall_forall. intros d Hin Hat. apply (done_at_le _ _ _ _ Hr Hin) in Hat. lia.
Qed.

Lemma quiet_le s p s' p' : rel s p → db_le s p s' p' → quiet s → quiet s'.
Proof.
  intros Hr Hle Hq. destruct (decide (current s' = current s)) as [E|E].
  - destruct Hle as [_ Hc Hd _ _ _ _ _ _ _]. unfold quiet. by rewrite Hc, Hd, E.
  - eapply quiet_later; [done..|]. destruct Hle. lia.
Qed.

Lemma quiet_calm s : quiet s → calm s.
Proof.
  intros [_ Hd] id Hin. rewrite Forall_forall in Hd. by apply (Hd _ Hin).
Qed.

Lemma calm_le s p s' p' : rel s p → db_le s p s' p' → calm s → calm s'.
Proof.
  intros Hr Hle Hq. destruct (decide (current s' = current s)) as [E|E].
  - destruct Hle as [_ _ Hd _ _ _ _ _ _ _]. unfold calm. by rewrite Hd, E.
  - apply quiet_calm. eapply quiet_later; [done..|]. destruct Hle. lia.
Qed.

(** A barrier is committed. *)
Definition committed (retire : bool) (removed : string) (d : Done) (rest : list (bool * string * Done))
    (s : Authority) : Authority :=
  set_posted (s.(posted) ++ [(d, true)]) (set_trace (s.(trace) ++ [OBarrier retire removed])
    (set_jobs rest s)).

Definition spec_committed (retire : bool) (removed : string) (p : Spec) : Spec :=
  mkSpec p.(sp_stopped) p.(sp_linked) p.(sp_open) p.(sp_last) (commit_switch <$> p.(sp_switch))
    (commit_answer retire <$> p.(sp_answers))
    (removed :: p.(sp_retired)).

Lemma committed_le s p retire removed d rest : s.(jobs) = (retire, removed, d) :: rest →
  db_le s p (committed retire removed d rest s) (spec_committed retire removed p).
Proof.
  intros Hj. constructor; try done; [|by left| | | |].
  - unfold dones. cbn. rewrite Hj, fmap_app. cbn. by rewrite <- app_assoc.
  - cbn. destruct (sp_switch p); constructor. unfold switch_le. cbn. split_and!; try done. intros ->. by rewrite orb_true_r.
  - intros _ w w' Hw. cbn. rewrite Hw. cbn. by intros [= <-].
  - intros _ k u c Hin. eexists. split.
    + cbn. apply list_elem_of_fmap. exists (k, u, c). split; [reflexivity|done].
    + by intros ->.
  - intros u Hin. by right.
Qed.

Lemma done_committed s p retire removed d rest : s.(jobs) = (retire, removed, d) :: rest →
  done_rel s p retire removed false d →
  done_rel (committed retire removed d rest s) (spec_committed retire removed p) retire removed true d.
Proof.
  intros Hj. pose proof (committed_le s p _ _ _ _ Hj) as Hle. unfold done_rel.
  destruct (done_generation d) as [g|]; [|done]. intros [? Hok]. split; [done|]. intros Hg.
  specialize (Hok Hg). destruct Hok as [? Hok]. split; [done|]. destruct d as [|g' u|g' u|g' id]; [done| | |].
  - destruct Hok as (k & c & Hin & Hk & _). exists k, true. split_and!; try done. cbn.
    apply list_elem_of_fmap. exists (k, u, c). split; [|done]. cbn. destruct k; [rewrite Hk by done|..]; by rewrite orb_true_r.
  - destruct Hok as (? & -> & _). split_and!; try done. intros _. cbn. by left.
  - destruct Hok as (? & ? & ? & w & Hw & ? & ? & Hf & _). split_and!; try done. exists (commit_switch w). cbn.
    rewrite Hw. split_and!; try done; [destruct Hf as [->| ->]; [by left|right; by rewrite orb_true_r]|].
    intros _. destruct Hf as [->| ->]; [done|by rewrite orb_true_r].
Qed.

Lemma spec_step_barrier known p retire removed :
  spec_step known p (OBarrier retire removed) = Some (spec_committed retire removed p).
Proof. by destruct p. Qed.

Lemma main_ok_committed i ps p retire removed :
  main_ok i ps p → main_ok i ps (spec_committed retire removed p).
Proof.
  intros []. constructor; try done. cbn [sp_switch spec_committed]. destruct (sp_switch p) as [w|]; [|done].
  destruct mo_switch as []. constructor; try done. intros Hb. cbn. rewrite wo_done by done. by rewrite orb_true_r.
Qed.

Lemma rel_committed s p retire removed d rest : s.(jobs) = (retire, removed, d) :: rest → rel s p →
  rel (committed retire removed d rest s) (spec_committed retire removed p).
Proof.
  intros Hj Hr. pose proof (committed_le s p _ _ _ _ Hj) as Hle.
  destruct (rel_items_le _ _ _ _ Hle Hr) as (? & Hd & ?). destruct Hr. constructor; try done.
  - cbn. rewrite fences_snoc. unfold current in *. cbn. lia.
  - change (trace (committed retire removed d rest s)) with (trace s ++ [OBarrier retire removed]).
    rewrite spec_run_snoc, re_run. apply spec_step_barrier.
  - by apply main_ok_committed.
  - cbn. rewrite Hj in re_jobs. inversion re_jobs; subst. eapply Forall_impl; [done|]. auto.
  - cbn. apply Forall_app. split; [eapply Forall_impl; [done|]; intros e; by eapply posted_rel_le|].
    apply Forall_singleton. rewrite Hj in re_jobs. inversion re_jobs; subst. exists retire, removed.
    by apply done_committed.
Qed.

(** A barrier fails: the state is fenced and the completion is stale. *)
Definition failed (d : Done) (rest : list (bool * string * Done)) (s : Authority) : Authority :=
  set_posted (s.(posted) ++ [(d, false)]) (set_jobs rest s).

Lemma failed_le s p a b d rest : s.(jobs) = (a, b, d) :: rest → db_le s p (failed d rest s) p.
Proof.
  intros Hj. destruct (db_le_refl s p). constructor; try done.
  unfold dones. cbn. rewrite Hj, fmap_app. cbn. by rewrite <- app_assoc.
Qed.

Lemma rel_failed s p a b d rest : s.(jobs) = (a, b, d) :: rest → rel s p →
  match done_generation d with None => True | Some g => g < current s end → rel (failed d rest s) p.
Proof.
  intros Hj Hr Hg. pose proof (failed_le s p _ _ _ _ Hj) as Hle.
  destruct (rel_items_le _ _ _ _ Hle Hr) as (? & Hd & ?). destruct Hr. constructor; try done.
  - cbn. rewrite Hj in re_jobs. by inversion re_jobs.
  - cbn. apply Forall_app. split; [done|]. by apply Forall_singleton.
Qed.

Lemma wp_run_barrier b s p : rel s p →
  wp (run_barrier b) (λ _ s', ∃ p', rel s' p' ∧ db_le s p s' p') s.
Proof.
  intros Hr Hb. unfold run_barrier in *. cbn in Hb |- *. unfold mbind, U_bind in *. cbn in Hb |- *.
  destruct (jobs s) as [|[[retire removed] d] rest] eqn:Hj; cbn in *; [eauto using db_le_refl|].
  destruct b; cbn in *.
  - exists (spec_committed retire removed p). split; [by apply rel_committed|by apply committed_le].
  - assert (Hbf : bounded (fenced s)) by done. pose proof (fenced_le _ _ Hr Hbf) as Hle.
    pose proof (rel_fenced _ _ Hr Hbf) as Hrf. pose proof (current_fenced _ _ Hr Hbf) as Hcf.
    exists (spec_fenced p). split.
    + apply (rel_failed (fenced s) _ retire removed); [done..|].
      destruct (done_generation d) as [g|] eqn:Hg; [|done].
      assert (g ≤ current s); [|lia]. eapply done_at_le; [done| |done]. unfold dones. rewrite Hj. set_solver.
    + eapply db_le_trans; [done|]. by apply (failed_le (fenced s) _ retire removed).
Qed.

Lemma wp_each_barrier l s p : rel s p →
  wp (eachU l run_barrier) (λ _ s', ∃ p', rel s' p' ∧ db_le s p s' p') s.
Proof.
  revert s p. induction l as [|b l IH]; intros s p Hr; [intros _; eauto using db_le_refl|].
  apply wpU_bind; [eauto with mono|]. eapply wpU_mono; [by apply wp_run_barrier|].
  intros _ s1 (p1 & Hr1 & Hle1). eapply wpU_mono; [by apply (IH _ p1)|].
  intros _ s2 (p2 & ? & ?). eauto using db_le_trans.
Qed.
End database.

(** ** Callbacks of the main context *)

Section main.
Context `{Platform} `{AuthorityEnv} (bindings : list ProfileBinding).
#[local] Abbreviation rel := (rel bindings).

Lemma mono_sync : mono sync.
Proof. unfold sync. mono_tac. Qed.
#[local] Hint Resolve mono_sync : mono.

Lemma mono_Generation : mono Generation.
Proof. unfold Generation. mono_tac. Qed.
Lemma mono_FenceProfile : mono FenceProfile.
Proof. unfold FenceProfile. mono_tac. Qed.
#[local] Hint Resolve mono_Generation mono_FenceProfile : mono.

Lemma mono_ActivateProfile g u : mono (ActivateProfile g u).
Proof. unfold ActivateProfile. mono_tac. Qed.
Lemma mono_Known u : mono (Known u).
Proof. unfold Known. mono_tac. Qed.
Lemma mono_ClearTimer : mono ClearTimer.
Proof. unfold ClearTimer. mono_tac. Qed.
Lemma mono_ArmTimer w : mono (ArmTimer w).
Proof. unfold ArmTimer, ClearTimer. mono_tac. Qed.
#[local] Hint Resolve mono_ActivateProfile mono_Known mono_ClearTimer mono_ArmTimer : mono.
Lemma mono_CancelCalls : mono CancelCalls.
Proof. unfold CancelCalls. mono_tac. Qed.
Lemma mono_Unwatch : mono Unwatch.
Proof. unfold Unwatch. mono_tac. Qed.
Lemma mono_Watch : mono Watch.
Proof. unfold Watch. mono_tac. Qed.
Lemma mono_barrier a b d m : mono m → mono (barrier_ a b d m).
Proof. intros. unfold barrier_. mono_tac. Qed.
Lemma mono_lose_done g i b : mono (lose_done g i b).
Proof. unfold lose_done. mono_tac. Qed.
#[local] Hint Resolve mono_CancelCalls mono_Unwatch mono_Watch mono_barrier mono_lose_done : mono.
Lemma mono_Lose : mono Lose.
Proof. unfold Lose. mono_tac. Qed.
Lemma mono_Stop : mono Stop.
Proof. unfold Stop. mono_tac. Qed.
Lemma mono_Method r : mono (Method r).
Proof. unfold Method. mono_tac. Qed.
#[local] Hint Resolve mono_Lose mono_Stop mono_Method : mono.
Lemma mono_Start : mono Start.
Proof. unfold Start. mono_tac. Qed.
Lemma mono_Read a b : mono (Read a b).
Proof. unfold Read. mono_tac. Qed.
Lemma mono_read_done g u b : mono (read_done g u b).
Proof. unfold read_done. mono_tac. Qed.
Lemma mono_remove_done g u b : mono (remove_done g u b).
Proof. unfold remove_done. mono_tac. Qed.
Lemma mono_switch_done g u b : mono (switch_done g u b).
Proof. unfold switch_done. mono_tac. Qed.
#[local] Hint Resolve mono_Start mono_Read mono_read_done mono_remove_done mono_switch_done : mono.
Lemma mono_Initialize : mono Initialize.
Proof. unfold Initialize. mono_tac. Qed.
Lemma mono_current_user a b u : mono (current_user a b u).
Proof. unfold current_user. mono_tac. Qed.
#[local] Hint Resolve mono_Initialize mono_current_user : mono.
Lemma mono_continue r u : mono (continue_ r u).
Proof. unfold continue_. mono_tac. Qed.
Lemma mono_switch_started i u v : mono (switch_started i u v).
Proof. unfold switch_started. mono_tac. Qed.
Lemma mono_switch_completed i u v : mono (switch_completed i u v).
Proof. unfold switch_completed. mono_tac. Qed.
Lemma mono_remove_started i u : mono (remove_started i u).
Proof. unfold remove_started. mono_tac. Qed.
#[local] Hint Resolve mono_continue mono_switch_started mono_switch_completed mono_remove_started : mono.
Lemma mono_Signal n v : mono (Signal n v).
Proof. unfold Signal. mono_tac. Qed.
#[local] Hint Resolve mono_Signal : mono.

(** *** Accesses to the profile state *)

Lemma wp_sync Q s p : rel s p → (∀ s' p', rel s' p' → db_le s p s' p' → Q () s') → wp sync Q s.
Proof.
  intros Hr HQ. unfold sync. apply wpU_bind; [intros; mono_tac|]. apply wp_observe. intros l.
  eapply wpU_mono; [apply wp_each_barrier; by apply rel_tick|].
  intros [] s' (p' & ? & ?). eapply HQ; [done|]. eapply db_le_trans; [apply db_le_tick|done].
Qed.

Lemma wp_Generation Q s p : rel s p →
  (∀ s' p', rel s' p' → db_le s p s' p' → Q (current s') s') → wp Generation Q s.
Proof.
  intros Hr HQ. unfold Generation. apply wpU_bind; [intros; mono_tac|]. eapply wp_sync; [done|].
  intros s' p' ? ?. apply wpU_bind; [intros; mono_tac|]. apply wp_getU, wpU_ret. eauto.
Qed.

Lemma wp_fence_state Q s p : rel s p →
  (∀ s' p', rel s' p' → db_le s p s' p' → quiet s' → s'.(profiles).(ps_ready) = false →
    s'.(impl) = s.(impl) → Q (current s') s') → wp fence_state Q s.
Proof.
  intros Hr HQ Hb. change ((fence_state s).1) with (fenced s) in *.
  change ((fence_state s).2) with (current (fenced s)).
  pose proof (fenced_le _ _ _ Hr Hb) as Hle. apply (HQ _ (spec_fenced p)); [by apply rel_fenced|done| |done|done].
  eapply quiet_later; [done..|]. rewrite (current_fenced _ _ _ Hr Hb). lia.
Qed.

Lemma wp_FenceProfile Q s p : rel s p →
  (∀ s' p', rel s' p' → db_le s p s' p' → quiet s' → s'.(profiles).(ps_ready) = false →
    s'.(impl) = s.(impl) → Q (current s') s') → wp FenceProfile Q s.
Proof.
  intros Hr HQ. unfold FenceProfile. apply wpU_bind; [intros; mono_tac|]. eapply wp_sync; [done|].
  intros s1 p1 Hr1 Hle1. eapply wp_fence_state; [done|]. intros s2 p2 Hr2 Hle2 Hq2 Hd2 Hi2.
  apply (HQ s2 p2); [done|by eapply db_le_trans|done|done|]. rewrite Hi2. apply Hle1.
Qed.

(** *** Changes of the members *)

(** The members that the relation speaks of. *)
Definition view (i : Impl) :=
  (i.(stopping_), i.(initialized_), i.(synchronized_), i.(barrier_done_), i.(acknowledged_),
   i.(completed_), i.(owner_), i.(ready_owner_), i.(active_), i.(pending_), i.(next_)).

Lemma rel_calls_ext s p s' p' : current s' = current s → s'.(calls) = s.(calls) →
  s'.(impl).(owner_) = s.(impl).(owner_) ∨ quiet s →
  (∀ r, call_ok s.(impl) p r → call_ok s'.(impl) p' r) ∨ quiet s →
  Forall (call_rel s p) s.(calls) → Forall (call_rel s' p') s'.(calls).
Proof.
  intros Hg Hc Ho Hr Hf. rewrite Hc. apply Forall_forall. intros c Hin. rewrite Forall_forall in Hf.
  destruct (Hf c Hin) as [? Hok]. unfold call_rel. rewrite Hg. split; [done|]. intros E.
  destruct (Hok E). assert (¬ quiet s).
  { intros [Hq _]. rewrite Forall_forall in Hq. by apply (Hq c). }
  destruct Ho as [Ho|]; [|done]. destruct Hr as [Hr|]; [|done]. rewrite Ho. auto.
Qed.

Lemma done_in_jobs s j : j ∈ s.(jobs) → j.2 ∈ dones s.
Proof. intros. unfold dones. apply elem_of_app. right. apply list_elem_of_fmap. eauto. Qed.
Lemma done_in_posted s e : e ∈ s.(posted) → e.1 ∈ dones s.
Proof. intros. unfold dones. apply elem_of_app. left. apply list_elem_of_fmap. eauto. Qed.

(** A change of the members with an observation that keeps what the items
    under way rely on. *)
Lemma rel_change s p i' ps' t' p' :
  rel s p →
  let s' := set_trace t' (set_profiles ps' (set_impl i' s)) in
  configured_with bindings ps' → ps'.(ps_generation) = current s →
  spec_run (known_user bindings) t' = Some p' → fences s.(trace) ≤ fences t' →
  main_ok i' ps' p' →
  (i'.(owner_) = s.(impl).(owner_) ∧ (∀ r, call_ok s.(impl) p r → call_ok i' p' r) ∧
   (∀ a b c d, d ∈ dones s → at_generation (current s) d →
      done_ok s.(impl) s.(profiles) p a b c d → done_ok i' ps' p' a b c d)) ∨ quiet s →
  rel s' p'.
Proof.
  intros [] s' Hb Hg Ht Hf Hm Hok.
  assert (Hdone : ∀ a b c d, d ∈ dones s → done_rel s p a b c d → done_rel s' p' a b c d).
  { intros a b c d Hin. unfold done_rel. destruct (done_generation d) as [g|] eqn:Hgd; [|done].
    change (current s') with (ps_generation ps'). rewrite Hg. intros [? Hd]. split; [done|]. intros E.
    destruct Hok as [(_ & _ & Hok)|[_ Hq]].
    - apply Hok; [done|by unfold at_generation; rewrite Hgd, E|auto].
    - rewrite Forall_forall in Hq. destruct (Hq d Hin). unfold at_generation. by rewrite Hgd, E. }
  constructor; try done.
  - change (current s') with (ps_generation ps'). rewrite Hg. cbn. lia.
  - eapply rel_calls_ext; [done..| | |done]; [destruct Hok as [(? & _)|]; auto|].
    destruct Hok as [(_ & ? & _)|]; auto.
  - apply Forall_forall. intros j Hin. rewrite Forall_forall in re_jobs. apply Hdone; [by apply done_in_jobs|].
    by apply re_jobs.
  - apply Forall_forall. intros e Hin. rewrite Forall_forall in re_posted. specialize (re_posted e Hin).
    unfold posted_rel in *. destruct (e.2).
    + destruct re_posted as (a & b & ?). exists a, b. apply Hdone; [by apply done_in_posted|done].
    + change (current s') with (ps_generation ps'). rewrite Hg. done.
  - change (current s') with (ps_generation ps'). rewrite Hg. done.
Qed.

Lemma rel_assign s p i' : rel s p → view i' = view s.(impl) → rel (set_impl i' s) p.
Proof.
  intros Hr Hv. unfold view in Hv. injection Hv as H1 H2 H3 H4 H5 H6 H7 H8 H9 H10 H11.
  assert (Hs : set_impl i' s = set_trace s.(trace) (set_profiles s.(profiles) (set_impl i' s))) by done.
  rewrite Hs. destruct Hr as [? ? ? Hm ? ? ? ?]. eapply rel_change; [by constructor|done..| |].
  - destruct Hm. constructor; rewrite ?H1, ?H2, ?H3, ?H4, ?H5, ?H6, ?H7, ?H8, ?H9, ?H10, ?H11; try done.
    destruct (sp_switch p) as [w|]; [|done]. destruct mo_switch. constructor;
      rewrite ?H1, ?H2, ?H3, ?H4, ?H5, ?H6, ?H7, ?H8, ?H9, ?H10, ?H11; done.
  - left. split_and!; [done| |].
    + intros r. unfold call_ok. by rewrite H2, H3, H5, H6.
    + intros a b c d _ _. unfold done_ok. by rewrite H2, H3, H4.
Qed.

(** *** New calls and barriers *)

Lemma dones_push s j : dones (set_jobs (s.(jobs) ++ [j]) s) = dones s ++ [j.2].
Proof. unfold dones. cbn. by rewrite fmap_app, app_assoc. Qed.

Lemma rel_push_job s p a b d : rel s p → done_rel s p a b false d →
  match d with DLose _ _ => True | DSwitch g _ => g = current s ∧ quiet s | _ => calm s end →
  rel (set_jobs (s.(jobs) ++ [(a, b, d)]) s) p.
Proof.
  intros [] Hd Hc. constructor; try done.
  - cbn. apply Forall_app. split; [done|]. by apply Forall_singleton.
  - rewrite dones_push. change (current (set_jobs _ s)) with (current s). cbn [calls set_jobs snd].
    intros id Hin. rewrite filter_app. apply elem_of_app in Hin as [Hin|Hin].
    + destruct d as [| | |g id']; try (by destruct (Hc id Hin)).
      * destruct (re_alone id Hin) as [-> ?].
        split; [|done]. by rewrite app_nil_r.
      * destruct Hc as [_ Hq%quiet_calm]. by destruct (Hq id).
    + apply list_elem_of_singleton in Hin. subst d. destruct Hc as [_ [Hqc Hqd]].
      rewrite filter_cons_True by done. split; [|done].
      assert (filter (at_generation (current s)) (dones s) = []) as ->; [|done].
      apply elem_of_nil_inv. intros x [Hat Hx]%list_elem_of_filter. rewrite Forall_forall in Hqd.
      by apply (Hqd x).
Qed.

Lemma rel_push_call s p c : rel s p → calm s → call_rel s p c →
  rel (set_calls (s.(calls) ++ [c]) s) p.
Proof.
  intros [] Hcalm Hc. constructor; try done.
  - cbn. apply Forall_app. split; [done|]. by apply Forall_singleton.
  - intros id Hin. by destruct (Hcalm id).
Qed.

Definition ok (s : Authority) : Prop := ∃ p, rel s p.

Lemma wp_barrier a b d m s p : rel s p → done_rel s p a b false d → mono m →
  match d with DLose _ _ => True | DSwitch g _ => g = current s ∧ quiet s | _ => calm s end →
  (∀ s' p', rel s' p' → wp m (λ _ s', ok s') s') → wp (barrier_ a b d m) (λ _ s', ok s') s.
Proof.
  intros Hr Hd Hmono Hc Hm. unfold barrier_. apply wpU_bind; [intros; mono_tac|].
  apply wp_observe. intros accepted. apply (rel_tick _ _ _ (S (au_tick s))) in Hr.
  destruct accepted; [apply wp_modU; exists p; by apply rel_push_job|].
  apply wpU_bind; [intros; mono_tac|]. eapply wp_FenceProfile; [done|]. intros s1 p1 Hr1 _ _ _ _.
  by eapply Hm.
Qed.

Lemma wp_lose_refused g i s p : rel s p → wp (lose_done g i false) (λ _ s', ok s') s.
Proof.
  intros Hr. unfold lose_done. apply wpU_bind; [intros; mono_tac|]. apply wp_member.
  rewrite orb_true_r. apply wpU_ret. by exists p.
Qed.

(** *** Losing and stopping *)

Lemma spec_step_lost known p : spec_step known p OLost =
  Some (mkSpec p.(sp_stopped) false p.(sp_open) p.(sp_last) None p.(sp_answers) []).
Proof. by destruct p. Qed.

(** The members after [Lose] has reset them. *)
Lemma rel_lost s p i' : rel s p → quiet s → s.(profiles).(ps_ready) = false →
  i'.(stopping_) = s.(impl).(stopping_) → i'.(active_) = s.(impl).(active_) →
  i'.(initialized_) = false → i'.(synchronized_) = false → i'.(pending_) = 0 → i'.(barrier_done_) = false →
  ok (set_impl i' (set_trace (s.(trace) ++ [OLost]) s)).
Proof.
  intros Hr Hq Hd H1 H2 H3 H4 H5 H6. eexists. pose proof Hr as [? ? Ht Hm ? ? ? ?].
  apply (rel_change s p i' s.(profiles) (s.(trace) ++ [OLost])); [done..| | | |by right].
  - rewrite spec_run_snoc, Ht. apply spec_step_lost.
  - rewrite fences_snoc. lia.
  - destruct Hm. constructor; cbn; rewrite ?H1, ?H2, ?H3, ?H4; try done. by rewrite Hd.
Qed.

Lemma wp_Lose s p : rel s p → wp Lose (λ _ s', ok s') s.
Proof.
  intros Hr. unfold Lose. apply wpU_bind; [intros; mono_tac|]. apply wp_member.
  destruct (stopping_ (impl s)); [apply wpU_ret; by exists p|].
  apply wpU_bind; [intros; mono_tac|]. unfold ClearTimer. apply wp_assign.
  apply wpU_bind; [intros; mono_tac|]. apply wp_assign.
  match goal with |- wp _ _ ?x => assert (Hr1 : rel x p) by (by repeat apply rel_assign) end.
  apply wpU_bind; [intros; mono_tac|]. eapply wp_FenceProfile; [exact Hr1|].
  intros s2 p2 Hr2 _ Hq2 Hd2 _. clear Hr1.
  apply wpU_bind; [intros; mono_tac|]. apply wp_emit.
  do 4 (apply wpU_bind; [intros; mono_tac|]; apply wp_assign).
  apply wpU_bind; [intros; mono_tac|]. apply wp_assign.
  match goal with |- wp _ _ ?x => assert (Hok : ok x) end.
  { apply (rel_lost s2 p2); try done; cbn; by destruct (injected_ (impl s2)). }
  destruct Hok as [p3 Hr3]. apply wpU_bind; [intros; mono_tac|]. eapply wp_Generation; [exact Hr3|].
  intros s4 p4 Hr4 _. apply wpU_bind; [intros; mono_tac|]. apply wp_member.
  eapply wp_barrier; [done|done|mono_tac|done|]. intros. by eapply wp_lose_refused.
Qed.

(** The database thread does not look at the members. *)
Lemma run_barrier_impl i b s : run_barrier b (set_impl i s) = (set_impl i (run_barrier b s).1, ()).
Proof.
  unfold run_barrier, mbind, U_bind. cbn. destruct (jobs s) as [|[[retire removed] d] rest]; [done|].
  by destruct b.
Qed.

Lemma each_barrier_impl i l s :
  eachU l run_barrier (set_impl i s) = (set_impl i (eachU l run_barrier s).1, ()).
Proof.
  revert s. induction l as [|b l IH]; intros s; [done|]. cbn [eachU]. unfold mbind, U_bind.
  rewrite run_barrier_impl. destruct (run_barrier b s) as [s1 []]. apply IH.
Qed.

Lemma FenceProfile_impl i s :
  FenceProfile (set_impl i s) = (set_impl i (FenceProfile s).1, (FenceProfile s).2).
Proof.
  unfold FenceProfile, sync, mbind, U_bind. cbn [observe_].
  change (set_au_tick (S (au_tick (set_impl i s))) (set_impl i s))
    with (set_impl i (set_au_tick (S (au_tick s)) s)).
  cbn [au_tick set_impl]. rewrite each_barrier_impl.
  by destruct (eachU (au_jobs (au_tick s)) run_barrier (set_au_tick (S (au_tick s)) s)) as [s1 []].
Qed.

Lemma wp_FenceProfile_impl Q i s :
  wp FenceProfile (λ g s', Q g (set_impl i s')) s → wp FenceProfile Q (set_impl i s).
Proof. unfold wp. by rewrite FenceProfile_impl. Qed.

Lemma rel_stopped s p i' : rel s p → quiet s → s.(profiles).(ps_ready) = false →
  i'.(stopping_) = true → i'.(active_) = s.(impl).(active_) →
  i'.(initialized_) = s.(impl).(initialized_) → i'.(synchronized_) = s.(impl).(synchronized_) →
  i'.(pending_) = s.(impl).(pending_) → i'.(barrier_done_) = s.(impl).(barrier_done_) →
  i'.(acknowledged_) = s.(impl).(acknowledged_) → i'.(completed_) = s.(impl).(completed_) →
  i'.(next_) = s.(impl).(next_) → i'.(owner_) = s.(impl).(owner_) →
  i'.(ready_owner_) = s.(impl).(ready_owner_) →
  ok (set_impl i' (set_trace (s.(trace) ++ [OStop]) s)).
Proof.
  intros Hr Hq Hd H1 H2 H3 H4 H5 H6 H7 H8 H9 H10 H11. pose proof Hr as [? ? Ht Hm ? ? ? ?].
  assert (Hopen : p.(sp_open) = None) by (rewrite (mo_open _ _ _ Hm); by rewrite Hd).
  exists (mkSpec true p.(sp_linked) p.(sp_open) p.(sp_last) p.(sp_switch) p.(sp_answers) p.(sp_retired)).
  apply (rel_change s p i' s.(profiles) (s.(trace) ++ [OStop])); [done..| | | |by right].
  - rewrite spec_run_snoc, Ht. destruct p. simpl in *. by subst.
  - rewrite fences_snoc. lia.
  - destruct Hm. constructor; cbn; rewrite ?H1, ?H2, ?H3, ?H4, ?H5, ?H6, ?H10, ?H11; try done; [by rewrite Hd|].
    destruct (sp_switch p) as [w|]; [|done]. destruct mo_switch. constructor;
      rewrite ?H5, ?H6, ?H7, ?H8, ?H9; done.
Qed.

Lemma wp_Stop s p : rel s p → wp Stop (λ _ s', ok s') s.
Proof.
  intros Hr. unfold Stop. apply wpU_bind; [intros; mono_tac|]. apply wp_member.
  destruct (stopping_ (impl s)); [apply wpU_ret; by exists p|].
  apply wpU_bind; [intros; mono_tac|]. apply wp_assign.
  apply wpU_bind; [intros; mono_tac|]. apply wp_FenceProfile_impl. eapply wp_FenceProfile; [done|].
  intros s2 p2 Hr2 _ Hq2 Hd2 Hi2. apply wpU_bind; [intros; mono_tac|]. apply wp_emit.
  do 3 (apply wpU_bind; [intros; mono_tac|]; apply wp_assign). apply wp_assign.
  apply (rel_stopped s2 p2); try done; cbn; by rewrite Hi2.
Qed.

(** *** Calls *)

(** The call may be made. *)
Definition sendable (i : Impl) (ps : ProfileState) (p : Spec) (r : request) : Prop :=
  i.(stopping_) = false ∧ i.(initialized_) = true ∧
  match r with
  | SwitchUserWait | RemoveUserWait => True
  | GetCurrentUser initial removal =>
      initial = false → i.(synchronized_) = true ∧
        (removal = false → i.(acknowledged_) = true ∧ i.(completed_) = true ∧ is_Some p.(sp_switch))
  | RemoveUserDone u => i.(synchronized_) = true ∧ u ∈ p.(sp_retired)
  | SwitchUserDone id =>
      i.(synchronized_) = true ∧ ps.(ps_ready) = false ∧
      ∃ w, p.(sp_switch) = Some w ∧ w.(sw_id) = id ∧ w.(sw_over) = false ∧ w.(sw_committed) = true
  end.

Lemma sendable_le s p s' p' r : db_le s p s' p' →
  sendable s.(impl) s.(profiles) p r → sendable s'.(impl) s'.(profiles) p' r.
Proof.
  intros Hle (H1 & H2 & Hr). pose proof Hle as [Hi _ _ _ _ Hp Hs _ _ Ht]. unfold sendable. rewrite Hi.
  split_and!; [done..|]. destruct r as [| |initial removal|u|id]; try done.
  - intros Hin. destruct (Hr Hin) as [? Hr']. split; [done|]. intros Hre. destruct (Hr' Hre) as (?&?&[w Hw]).
    split_and!; try done. rewrite Hw in Hs. apply option_Forall2_l in Hs as (w' & ? & _). eauto.
  - destruct Hr; auto.
  - destruct Hr as (? & Hrd & w & Hw & ? & ? & ?). rewrite Hw in Hs. apply option_Forall2_l in Hs as (w' & Hw' & Hws).
    split_and!; [done| |].
    + destruct Hp as [-> | [_ ?]]; done.
    + exists w'. destruct Hws as (?&?&?&?&?&?&?). split_and!; [done|congruence|congruence|auto].
Qed.

Definition tell (r : request) (p : Spec) : Spec :=
  match r with
  | SwitchUserDone _ =>
      mkSpec p.(sp_stopped) p.(sp_linked) p.(sp_open) p.(sp_last) (tell_switch <$> p.(sp_switch))
        p.(sp_answers) p.(sp_retired)
  | _ => p
  end.

Lemma spec_step_call known i ps p r : main_ok i ps p → sendable i ps p r →
  spec_step known p (OCall r) = Some (tell r p).
Proof.
  intros [] (Hst & _ & Hr). rewrite Hst in mo_stopped.
  destruct p as [stopped linked open last switch answers retired]. simpl in *. subst stopped.
  destruct r as [| | |u|id]; try done.
  - destruct Hr as [_ Hin]. assert (existsb (eqs u) retired = true) as ->; [|done].
    apply existsb_exists. exists u. split; [by apply list_elem_of_In|apply eqs_refl].
  - destruct Hr as (_ & Hrd & w & -> & <- & -> & ->). rewrite Hrd in mo_open. subst open.
    rewrite Z.eqb_refl. done.
Qed.

Lemma main_ok_tell i ps p r : main_ok i ps p → main_ok i ps (tell r p).
Proof.
  intros Hm. destruct r; try done. destruct Hm. constructor; try done. cbn [sp_switch tell].
  destruct (sp_switch p) as [w|]; [|done]. destruct mo_switch. constructor; try done. cbn. tauto.
Qed.

Lemma call_ok_tell i p r r' : call_ok i p r' → call_ok i (tell r p) r'.
Proof.
  destruct r; try done. unfold call_ok. intros [? Hr]. split; [done|].
  destruct r' as [| |initial removal|u|id']; try done; cbn.
  - intros Hin. destruct (Hr Hin) as [? Hr']. split; [done|]. intros Hre. destruct (Hr' Hre) as (?&?&[w ->]). eauto.
  - destruct Hr as (? & w & -> & ? & ?). split; [done|]. by exists (tell_switch w).
Qed.

Lemma done_ok_tell i ps p r a b c d : done_ok i ps p a b c d → done_ok i ps (tell r p) a b c d.
Proof.
  destruct r; try done. unfold done_ok. intros [? Hd]. split; [done|]. destruct d; try done.
  destruct Hd as (? & ? & ? & w & Hw & ? & ? & ? & ?). split_and!; try done. exists (tell_switch w). cbn.
  rewrite Hw. split_and!; done.
Qed.

Lemma sendable_call i ps p r : sendable i ps p r → call_ok i (tell r p) r.
Proof.
  intros (_ & ? & Hr). split; [done|]. destruct r as [| | |u|id]; try done.
  - by destruct Hr.
  - destruct Hr as (? & _ & w & Hw & ? & _). split; [done|]. exists (tell_switch w). cbn. by rewrite Hw.
Qed.

Lemma wp_Method r s p : rel s p → calm s → sendable s.(impl) s.(profiles) p r →
  wp (Method r) (λ _ s', ok s') s.
Proof.
  intros Hr Hc Hs. unfold Method. apply wpU_bind; [intros; mono_tac|]. eapply wp_Generation; [done|].
  intros s1 p1 Hr1 Hle. apply (calm_le _ _ _ _ _ Hr Hle) in Hc. apply (sendable_le _ _ _ _ _ Hle) in Hs.
  apply wpU_bind; [intros; mono_tac|]. apply wp_member. apply wpU_bind; [intros; mono_tac|].
  apply wp_emit. apply wp_modU. exists (tell r p1).
  assert (Hr2 : rel (set_trace (s1.(trace) ++ [OCall r]) s1) (tell r p1)).
  { pose proof Hr1 as [? ? Ht Hm ? ? ? ?].
    apply (rel_change s1 p1 s1.(impl) s1.(profiles) (s1.(trace) ++ [OCall r])); [done..| | | |left].
    - rewrite spec_run_snoc, Ht. by eapply spec_step_call.
    - rewrite fences_snoc. lia.
    - by apply main_ok_tell.
    - split_and!; [done|intros r'; by eapply call_ok_tell|intros; by apply done_ok_tell]. }
  apply (rel_push_call _ _ _ Hr2 Hc). split; [done|]. intros _. split; [done|]. by eapply sendable_call.
Qed.

(** *** Completions *)

Lemma rel_pop_call s p n c : rel s p → s.(calls) !! n = Some c →
  rel (set_calls (delete n s.(calls)) s) p ∧ call_rel s p c ∧ (c.(call_generation) = current s → calm s).
Proof.
  intros [] Hn. assert (Hin : c ∈ s.(calls)) by (by eapply list_elem_of_lookup_2). split_and!.
  - assert (Hsub : ∀ P, Forall P s.(calls) → Forall P (delete n s.(calls))).
    { intros P HP. rewrite !Forall_forall in *. intros x Hx. apply HP.
      by eapply sublist_subseteq; [apply sublist_delete|]. }
    constructor; try done; [by apply Hsub|]. intros id Hid. destruct (re_alone id Hid). split; [done|].
    by apply Hsub.
  - rewrite Forall_forall in re_calls. auto.
  - intros Hg id Hid. destruct (re_alone id Hid) as [_ Hno]. rewrite Forall_forall in Hno. by apply (Hno c).
Qed.

Lemma rel_pop_posted s p d b rest : rel s p → s.(posted) = (d, b) :: rest →
  rel (set_posted rest s) p ∧ posted_rel s p (d, b) ∧
  (at_generation (current s) d → calm (set_posted rest s)).
Proof.
  intros [] Hp. assert (Hd : dones s = d :: dones (set_posted rest s)) by (unfold dones; by rewrite Hp).
  assert (Hno : at_generation (current s) d → calm (set_posted rest s)).
  { intros Hat id Hin. change (current (set_posted rest s)) with (current s) in Hin.
    destruct (re_alone id) as [Hf _]; [rewrite Hd; by right|]. rewrite Hd, filter_cons_True in Hf by done.
    injection Hf as _ Hf. apply (elem_of_nil (DSwitch (current s) id)). rewrite <- Hf.
    apply list_elem_of_filter. done. }
  rewrite Hp in re_posted. inversion re_posted; subst. split_and!; [|done|done]. constructor; try done.
  intros id Hin. change (current (set_posted rest s)) with (current s) in *.
  destruct (re_alone id) as [Hf ?]; [rewrite Hd; by right|]. split; [|done]. rewrite Hd in Hf.
  destruct (decide (at_generation (current s) d)) as [Hat|Hat].
  - by destruct (Hno Hat id).
  - by rewrite filter_cons_False in Hf.
Qed.

(** A completion of the current generation has been committed. *)
Lemma posted_current s p d b g : posted_rel s p (d, b) → done_generation d = Some g → g = current s →
  b = true ∧ ∃ retire removed, done_ok s.(impl) s.(profiles) p retire removed true d.
Proof.
  intros Hp Hg ->. unfold posted_rel, done_rel in Hp. cbn in Hp. rewrite Hg in Hp. destruct b; [|lia].
  destruct Hp as (retire & removed & _ & Hok). split; [done|]. exists retire, removed. auto.
Qed.

Lemma posted_le s p d b g : posted_rel s p (d, b) → done_generation d = Some g → g ≤ current s.
Proof.
  intros Hp Hg. unfold posted_rel, done_rel in Hp. cbn in Hp. rewrite Hg in Hp.
  destruct b; [destruct Hp as (? & ? & ? & _)|]; lia.
Qed.

Definition spec_activated (user : string) (p : Spec) : Spec :=
  mkSpec p.(sp_stopped) true (Some user) user (end_switch <$> p.(sp_switch)) p.(sp_answers) p.(sp_retired).

Lemma spec_step_activate known p user : p.(sp_stopped) = false → (∃ k, (k, user, true) ∈ p.(sp_answers)) →
  spec_step known p (OActivate user) = Some (spec_activated user p).
Proof.
  destruct p as [stopped linked open last switch answers retired]. simpl. intros -> [k Hin]. simpl.
  assert (existsb (λ a : answer * string * bool, eqs a.1.2 user && a.2) answers = true) as ->; [|done].
  apply existsb_exists. exists (k, user, true). split; [by apply list_elem_of_In|]. simpl. by rewrite eqs_refl.
Qed.

(** The members and the state after an activation. *)
Lemma rel_activated s p user i' ps' : rel s p → calm s →
  s.(impl).(stopping_) = false → s.(impl).(initialized_) = true → (∃ k, (k, user, true) ∈ p.(sp_answers)) →
  ps' = mkProfileState s.(profiles).(ps_bindings) user true s.(profiles).(ps_enabled) s.(profiles).(ps_generation) →
  view i' = view (set_pending_ 0 (set_synchronized_ true (set_active_ user s.(impl)))) →
  rel (set_trace (s.(trace) ++ [OActivate user]) (set_profiles ps' (set_impl i' s))) (spec_activated user p).
Proof.
  intros Hr Hc Hst Hin Ha -> Hv. unfold view in Hv. cbn in Hv.
  injection Hv as H1 H2 H3 H4 H5 H6 H7 H8 H9 H10 H11. pose proof Hr as [? ? Ht Hm ? ? ? ?].
  apply (rel_change s p); [done..| | | |left].
  - rewrite spec_run_snoc, Ht. apply spec_step_activate; [|done]. destruct Hm. congruence.
  - rewrite fences_snoc. lia.
  - destruct Hm. constructor; cbn; rewrite ?H1, ?H2, ?H3, ?H7, ?H8, ?H9; try done.
    destruct (sp_switch p) as [w|]; cbn; [|destruct mo_switch; split; congruence].
    destruct mo_switch. constructor; cbn; rewrite ?H4, ?H5, ?H6, ?H10, ?H11; done.
  - split_and!; [done| |].
    + intros r. unfold call_ok. rewrite H2, H3, H5, H6. cbn. intros [? Hk]. split; [done|].
      destruct r as [| |initial removal|u|id]; try done.
      * intros Hi. destruct (Hk Hi) as [_ Hk']. split; [done|]. intros Hre.
        destruct (Hk' Hre) as (? & ? & [w ->]). split_and!; eauto.
      * destruct Hk as (_ & w & -> & ? & ?). split; [done|]. by exists (end_switch w).
    + intros a b c d Hd Hat. unfold done_ok. rewrite H2, H3. intros [? Hk]. split; [done|].
      destruct d as [|g u|g u|g id]; try done; [naive_solver|].
      exfalso. unfold at_generation in Hat. cbn in Hat. injection Hat as ->. by destruct (Hc id).
Qed.

Lemma set_profiles_id s : set_profiles s.(profiles) s = s.
Proof. by destruct s. Qed.

Lemma wp_read_done g u b s p : rel s p → posted_rel s p (DRead g u, b) →
  (g = current s → calm s) → wp (read_done g u b) (λ _ s', ok s') s.
Proof.
  intros Hr Hp Hc. unfold read_done. apply wpU_bind; [intros; mono_tac|]. apply wp_member.
  destruct (stopping_ (impl s)) eqn:Hst; [apply wpU_ret; by exists p|]. destruct b; [|apply wpU_ret; by exists p].
  cbn [orb negb]. unfold ActivateProfile. apply wpU_bind; [intros; mono_tac|].
  apply wpU_bind; [intros; mono_tac|]. eapply wp_sync; [done|]. intros s1 p1 Hr1 Hle.
  apply wpU_bind; [intros; mono_tac|]. apply wp_getU.
  destruct (Activate g u (profiles s1)) as [okb ps'] eqn:Hact. apply wpU_bind; [intros; mono_tac|]. apply wp_modU.
  unfold Activate in Hact. destruct (negb (ps_enabled (profiles s1)) || negb (g =? ps_generation (profiles s1))) eqn:E1.
  { injection Hact as <- <-. apply wpU_bind; [intros; mono_tac|]. rewrite set_profiles_id.
    apply wpU_ret, wpU_ret, wpU_ret. by exists p1. }
  destruct (negb (existsb _ _)); injection Hact as <- <-.
  { apply wpU_bind; [intros; mono_tac|]. rewrite set_profiles_id.
    apply wpU_ret, wpU_ret, wpU_ret. by exists p1. }
  bool_hyps. apply Z.eqb_eq in H2. assert (Hg : g = current s).
  { pose proof (posted_le _ _ _ _ _ Hp eq_refl). pose proof (dl_gen _ _ _ _ Hle). unfold current in *. lia. }
  destruct (posted_current _ _ _ _ _ Hp eq_refl Hg) as (_ & retire & removed & Hok).
  assert (Hcur : current s1 = current s) by (unfold current in *; congruence).
  apply (done_ok_le _ _ _ _ _ _ _ _ Hle Hcur) in Hok as (Hinit & k & c & Hin & _ & Hcm).
  rewrite (Hcm eq_refl) in Hin. apply wpU_bind; [intros; mono_tac|]. apply wp_emit. apply wpU_ret.
  cbv iota. apply wpU_bind; [intros; mono_tac|]. apply wp_assign. apply wp_assign.
  exists (spec_activated u p1).
  apply (rel_activated s1 p1 u (set_timer_ None (set_pending_ 0 (set_synchronized_ true (set_active_ u s1.(impl))))));
    try done.
  - eapply calm_le; [exact Hr|done|auto].
  - by rewrite (dl_impl _ _ _ _ Hle).
  - by exists k.
Qed.

Lemma wp_remove_done g u b s p : rel s p → posted_rel s p (DRemove g u, b) →
  (g = current s → calm s) → wp (remove_done g u b) (λ _ s', ok s') s.
Proof.
  intros Hr Hp Hc. unfold remove_done. apply wpU_bind; [intros; mono_tac|]. apply wp_member.
  destruct (stopping_ (impl s)) eqn:Hst; [apply wpU_ret; by exists p|]. destruct b; [|apply wpU_ret; by exists p].
  cbn [orb negb]. apply wpU_bind; [intros; mono_tac|]. eapply wp_Generation; [done|]. intros s1 p1 Hr1 Hle.
  destruct (g =? current s1) eqn:E; [|apply wpU_ret; by exists p1]. apply Z.eqb_eq in E. cbn [negb].
  assert (Hg : g = current s).
  { pose proof (posted_le _ _ _ _ _ Hp eq_refl). pose proof (dl_gen _ _ _ _ Hle). lia. }
  destruct (posted_current _ _ _ _ _ Hp eq_refl Hg) as (_ & retire & removed & Hok).
  apply (done_ok_le _ _ _ _ _ _ _ _ Hle ltac:(lia)) in Hok as (Hinit & Hsy & _ & Hcm).
  apply (wp_Method _ _ p1); [done| |].
  - eapply calm_le; [exact Hr|done|auto].
  - split_and!; [by rewrite (dl_impl _ _ _ _ Hle)|done|done|auto].
Qed.

Lemma wp_switch_done g id b s p : rel s p → posted_rel s p (DSwitch g id, b) →
  (g = current s → calm s) → wp (switch_done g id b) (λ _ s', ok s') s.
Proof.
  intros Hr Hp Hc. unfold switch_done. apply wpU_bind; [intros; mono_tac|]. apply wp_member.
  destruct (stopping_ (impl s)) eqn:Hst; [apply wpU_ret; by exists p|].
  apply wpU_bind; [intros; mono_tac|]. eapply wp_Generation; [done|]. intros s1 p1 Hr1 Hle.
  destruct (g =? current s1) eqn:E; [|apply wpU_ret; by exists p1]. apply Z.eqb_eq in E. cbn [negb].
  assert (Hg : g = current s).
  { pose proof (posted_le _ _ _ _ _ Hp eq_refl). pose proof (dl_gen _ _ _ _ Hle). lia. }
  destruct (posted_current _ _ _ _ _ Hp eq_refl Hg) as (-> & retire & removed & Hok). cbn [negb].
  apply (done_ok_le _ _ _ _ _ _ _ _ Hle ltac:(lia)) in Hok as (Hinit & Hsy & Hbd & Hrd & w & Hw & Hid & Hov & _ & Hcm).
  assert (Hcalm : calm s1) by (eapply calm_le; [exact Hr|done|auto]).
  assert (Hst1 : stopping_ (impl s1) = false) by (by rewrite (dl_impl _ _ _ _ Hle)).
  apply wpU_bind; [intros; mono_tac|]. apply wp_assign.
  apply (wp_Method _ _ p1); [|done|].
  - pose proof Hr1 as [? ? Ht Hm ? ? ? ?].
    assert (Hs : set_impl (set_barrier_done_ true s1.(impl)) s1 =
      set_trace s1.(trace) (set_profiles s1.(profiles) (set_impl (set_barrier_done_ true s1.(impl)) s1))) by done.
    rewrite Hs. apply (rel_change s1 p1); [done..| |left].
    + destruct Hm. constructor; cbn; try done. rewrite Hw in mo_switch |- *. destruct mo_switch.
      constructor; cbn; auto.
    + split_and!; [done|done|]. intros a b c d Hd Hat. unfold done_ok. cbn. intros [? Hk]. split; [done|].
      destruct d as [|g' u|g' u|g' id']; try done. exfalso. unfold at_generation in Hat. cbn in Hat.
      injection Hat as ->. by destruct (Hcalm id').
  - split_and!; cbn; try done. exists w. auto.
Qed.

Lemma wp_lose_done g i b s p : rel s p → wp (lose_done g i b) (λ _ s', ok s') s.
Proof.
  intros Hr. unfold lose_done. apply wpU_bind; [intros; mono_tac|]. apply wp_member.
  destruct (_ || _ || _); [apply wpU_ret; by exists p|]. apply wpU_bind; [intros; mono_tac|].
  eapply wp_Generation; [done|]. intros s1 p1 Hr1 _. destruct (_ =? _); [|apply wpU_ret; by exists p1].
  unfold ArmTimer. apply wpU_bind; [intros; mono_tac|]. apply wp_assign. apply wp_assign. exists p1.
  by repeat apply rel_assign.
Qed.

(** A completion that runs at once because its barrier was refused. *)
Lemma wp_read_refused g u s p : rel s p → wp (read_done g u false) (λ _ s', ok s') s.
Proof.
  intros Hr. unfold read_done. apply wpU_bind; [intros; mono_tac|]. apply wp_member. rewrite orb_true_r.
  apply wpU_ret. by exists p.
Qed.
Lemma wp_remove_refused g u s p : rel s p → wp (remove_done g u false) (λ _ s', ok s') s.
Proof.
  intros Hr. unfold remove_done. apply wpU_bind; [intros; mono_tac|]. apply wp_member. rewrite orb_true_r.
  apply wpU_ret. by exists p.
Qed.
Lemma wp_switch_refused g id s p : rel s p → wp (switch_done g id false) (λ _ s', ok s') s.
Proof.
  intros Hr. unfold switch_done. apply wpU_bind; [intros; mono_tac|]. apply wp_member.
  destruct (stopping_ (impl s)); [apply wpU_ret; by exists p|]. apply wpU_bind; [intros; mono_tac|].
  eapply wp_Generation; [done|]. intros s1 p1 Hr1 _. destruct (negb _); [apply wpU_ret; by exists p1|].
  by eapply wp_Lose.
Qed.

(** *** Replies *)

Lemma spec_step_answer p k u : p.(sp_stopped) = false → known_user bindings u = true →
  answer_allowed k u p = true →
  spec_step (known_user bindings) p (OAnswer k u) =
  Some (mkSpec p.(sp_stopped) p.(sp_linked) p.(sp_open) p.(sp_last) p.(sp_switch)
          (p.(sp_answers) ++ [(k, u, false)]) p.(sp_retired)).
Proof.
  destruct p as [stopped linked open last switch answers retired]. simpl. intros -> -> ->. done.
Qed.

Lemma rel_answer s p k u : rel s p → s.(impl).(stopping_) = false → known_user bindings u = true →
  answer_allowed k u p = true →
  ∃ p', rel (set_trace (s.(trace) ++ [OAnswer k u]) s) p' ∧ (k, u, false) ∈ p'.(sp_answers).
Proof.
  intros Hr Hst Hk Ha. pose proof Hr as [? ? Ht Hm ? ? ? ?].
  assert (Hsp : p.(sp_stopped) = false) by (destruct Hm; congruence).
  eexists. split; [apply (rel_change s p s.(impl) s.(profiles) (s.(trace) ++ [OAnswer k u])); [done..| | | |left]|].
  - rewrite spec_run_snoc, Ht. by apply spec_step_answer.
  - rewrite fences_snoc. lia.
  - destruct Hm. constructor; try done. cbn [sp_switch]. destruct (sp_switch p) as [w|]; [|done].
    destruct mo_switch. by constructor.
  - split_and!; [done..|]. intros a b c d _ _. unfold done_ok. intros [? Hd]. split; [done|].
    destruct d; try done. destruct Hd as (k' & c' & Hin & ?). exists k', c'. split; [|done]. cbn. set_solver +Hin.
  - cbn. set_solver +.
Qed.

Lemma wp_Known Q u s p : rel s p → Q (known_user bindings u) s → wp (Known u) Q s.
Proof.
  intros [[Hb _] _ _ _ _ _ _ _] HQ. unfold Known. apply wpU_bind; [intros; mono_tac|]. apply wp_getU, wpU_ret.
  by rewrite Hb.
Qed.

Lemma wp_current_user initial removal u s p : rel s p → calm s → s.(impl).(stopping_) = false →
  call_ok s.(impl) p (GetCurrentUser initial removal) →
  wp (current_user initial removal u) (λ _ s', ok s') s.
Proof.
  intros Hr Hc Hst [Hinit Hcall]. unfold current_user. apply wpU_bind; [intros; mono_tac|]. apply wp_member.
  apply wpU_bind; [intros; mono_tac|]. eapply wp_Known; [done|].
  destruct (_ || _ || _ || _) eqn:E; [by eapply wp_Lose|]. bool_hyps.
  apply wpU_bind; [intros; mono_tac|]. eapply wp_Generation; [done|]. intros s1 p1 Hr1 Hle.
  assert (Hi : s1.(impl) = s.(impl)) by apply Hle.
  assert (Hall : answer_allowed (answer_kind initial removal) u p1 = true).
  { pose proof Hr1 as [_ _ _ Hm _ _ _ _]. destruct Hm. rewrite Hi in *.
    assert (Hl : initial = false → sp_linked p1 = true) by (intros Hf; destruct (Hcall Hf); congruence).
    destruct initial; [done|]. specialize (Hcall eq_refl). destruct removal; cbn [answer_kind answer_allowed].
    - simpl in *. bool_hyps. rewrite Hl, mo_last by done. done.
    - destruct Hcall as [_ Hcall]. destruct (Hcall eq_refl) as (Ha & Hcp & [w Hw]).
      pose proof (dl_switch _ _ _ _ Hle) as Hs. rewrite Hw in Hs. apply option_Forall2_l in Hs as (w' & Hw' & _).
      rewrite Hl, Hw' by done. rewrite Hw' in mo_switch. destruct mo_switch. simpl in *. bool_hyps.
      unfold switch_allows. rewrite wo_done, wo_completed by done. destruct (wo_acked Ha) as [-> ->].
      rewrite <- wo_next. by rewrite !andb_true_r. }
  destruct (rel_answer s1 p1 (answer_kind initial removal) u Hr1) as (p2 & Hr2 & Hin2); [by rewrite Hi|done|done|].
  apply wpU_bind; [intros; mono_tac|]. apply wp_emit.
  eapply wp_barrier; [done| |mono_tac| |].
  - split; [done|]. intros _. split; [cbn; by rewrite Hi|]. exists (answer_kind initial removal), false.
    split_and!; [done| |done]. by destruct initial, removal.
  - change (calm s1). eapply calm_le; [exact Hr|done|done].
  - intros. by eapply wp_read_refused.
Qed.

(** The service has replied to the daemon's agreement. *)
Lemma rel_acked s p id w : rel s p → p.(sp_switch) = Some w → w.(sw_id) = id → w.(sw_told) = true →
  rel (set_trace (s.(trace) ++ [OAcked id]) (set_impl (set_acknowledged_ true s.(impl)) s))
    (mkSpec p.(sp_stopped) p.(sp_linked) p.(sp_open) p.(sp_last) (Some (ack_switch w)) p.(sp_answers)
       p.(sp_retired)).
Proof.
  intros Hr Hw Hid Ht. pose proof Hr as [? ? Htr Hm ? ? ? ?].
  apply (rel_change s p (set_acknowledged_ true s.(impl)) s.(profiles) (s.(trace) ++ [OAcked id]));
    [done..| | | |left].
  - rewrite spec_run_snoc, Htr. destruct p. simpl in *. subst. by rewrite Z.eqb_refl, Ht.
  - rewrite fences_snoc. lia.
  - destruct Hm. constructor; try done. cbn [sp_switch]. rewrite Hw in mo_switch. destruct mo_switch. by constructor.
  - split_and!; [done| |].
    + intros r. unfold call_ok. cbn. intros [? Hk]. split; [done|]. destruct r; try done.
      * intros Hi. destruct (Hk Hi) as [? Hk']. split; [done|]. intros Hre. destruct (Hk' Hre) as (? & ? & _). eauto.
      * destruct Hk as (? & w' & Hw' & ? & ?). split; [done|]. exists (ack_switch w'). split_and!; try done. congruence.
    + intros a b c d _ _. unfold done_ok. cbn. intros [? Hd]. split; [done|]. destruct d; try done.
      destruct Hd as (? & ? & ? & w' & Hw' & ? & ? & ? & ?). split_and!; try done. exists (ack_switch w').
      split_and!; try done. congruence.
Qed.

Lemma wp_continue r u s p : rel s p → calm s → s.(impl).(stopping_) = false → call_ok s.(impl) p r →
  wp (continue_ r u) (λ _ s', ok s') s.
Proof.
  intros Hr Hc Hst Hok. destruct r as [| |initial removal|v|id]; cbn [continue_].
  - apply (wp_Method _ _ p); [done..|]. destruct Hok. by split_and!.
  - apply (wp_Method _ _ p); [done..|]. destruct Hok. by split_and!.
  - by eapply wp_current_user.
  - apply (wp_Method _ _ p); [done..|]. destruct Hok. by split_and!.
  - destruct Hok as (Hinit & Hsy & w & Hw & Hid & Ht). apply wpU_bind; [intros; mono_tac|]. apply wp_assign.
    apply wpU_bind; [intros; mono_tac|]. apply wp_emit. pose proof (rel_acked _ _ _ _ Hr Hw Hid Ht) as Hr1.
    apply wpU_bind; [intros; mono_tac|]. apply wp_member. cbn.
    destruct (completed_ (impl s)) eqn:Hcp; [|apply wpU_ret; by eexists].
    eapply wp_Method; [exact Hr1|done|]. split_and!; cbn; eauto.
Qed.

Lemma wp_OnMethodFinished c reply s p : rel s p → call_rel s p c →
  (c.(call_generation) = current s → calm s) → wp (OnMethodFinished c reply) (λ _ s', ok s') s.
Proof.
  intros Hr [Hg Hok] Hc. unfold OnMethodFinished. apply wpU_bind; [intros; mono_tac|]. apply wp_member.
  destruct (stopping_ (impl s)) eqn:Hst; [apply wpU_ret; by exists p|].
  apply wpU_bind; [intros; mono_tac|]. eapply wp_Generation; [done|]. intros s1 p1 Hr1 Hle.
  destruct (_ || _ || _) eqn:E; [apply wpU_ret; by exists p1|]. bool_hyps. apply Z.eqb_eq in H1.
  assert (Hcur : call_generation c = current s) by (pose proof (dl_gen _ _ _ _ Hle); lia).
  destruct reply as [v|]; [|by eapply wp_Lose]. destruct (Hok Hcur) as [_ Hcall].
  apply (wp_continue _ _ _ p1); [done| | |by eapply call_ok_le].
  - eapply calm_le; [exact Hr|done|auto].
  - by rewrite (dl_impl _ _ _ _ Hle).
Qed.

(** *** Names, connections and signals *)

Lemma wp_Initialize s p : rel s p → s.(impl).(stopping_) = false → wp Initialize (λ _ s', ok s') s.
Proof.
  intros Hr Hst. unfold Initialize. apply wpU_bind; [intros; mono_tac|]. apply wp_member.
  destruct (_ || _ || _) eqn:E; [apply wpU_ret; by exists p|]. bool_hyps.
  destruct (eqs _ _) eqn:Ho; [|by eapply wp_Lose]. cbn [negb]. apply eqs_true in Ho.
  assert (Hr1 : rel (set_impl (set_initialized_ true s.(impl)) s) p).
  { pose proof Hr as [? ? Htr Hm ? ? ? ?].
    assert (Hs : set_impl (set_initialized_ true s.(impl)) s =
      set_trace s.(trace) (set_profiles s.(profiles) (set_impl (set_initialized_ true s.(impl)) s))) by done.
    rewrite Hs. apply (rel_change s p); [done..| |left].
    - destruct Hm. constructor; cbn; try done.
      + split; [done|]. intros Hown. rewrite Hown in *. done.
      + destruct (sp_switch p) as [w|]; [|done]. destruct mo_switch. by constructor.
    - split_and!; [done| |].
      + intros r. unfold call_ok. by intros [_ Hk].
      + intros a b c d _ _. unfold done_ok. by intros [_ Hk]. }
  apply wpU_bind; [intros; mono_tac|]. apply wp_assign. apply wpU_bind; [intros; mono_tac|].
  eapply wp_FenceProfile; [exact Hr1|]. intros s2 p2 Hr2 _ Hq2 _ Hi2.
  apply wpU_bind; [intros; mono_tac|]. apply wp_assign.
  apply (wp_Method _ _ p2); [by apply rel_assign|by apply (quiet_calm s2)|].
  cbn. rewrite Hi2. by split_and!.
Qed.

Lemma wp_OnNameAppeared name owner s p : rel s p → owner ≠ "" →
  wp (OnNameAppeared name owner) (λ _ s', ok s') s.
Proof.
  intros Hr Hne. unfold OnNameAppeared. apply wpU_bind; [intros; mono_tac|]. apply wp_member.
  destruct (stopping_ (impl s)) eqn:Hst; [apply wpU_ret; by exists p|].
  set (slot := if eqs name kReady then _ else _).
  destruct (negb (empty slot) && negb (eqs slot owner)) eqn:E; [by eapply wp_Lose|].
  set (f := if eqs name kReady then set_ready_owner_ owner else set_owner_ owner).
  assert (Hr1 : rel (set_impl (f s.(impl)) s) p).
  { destruct (initialized_ (impl s)) eqn:Hinit.
    - apply rel_assign; [done|]. pose proof Hr as [? ? Htr Hm ? ? ? ?].
      destruct (mo_init _ _ _ Hm Hinit) as [Heq Hnon].
      assert (Hslot : slot = owner).
      { assert (empty slot = false) as Hemp.
        { apply not_true_is_false. intros Hx%empty_true. subst slot. destruct (eqs name kReady); congruence. }
        rewrite Hemp in E. cbn in E. apply negb_false_iff, eqs_true in E. done. }
      unfold view, f, slot in *. destruct (eqs name kReady); cbn; congruence.
    - pose proof Hr as [? ? Htr Hm ? ? ? ?].
      assert (Hs : set_impl (f s.(impl)) s =
        set_trace s.(trace) (set_profiles s.(profiles) (set_impl (f s.(impl)) s))) by done.
      rewrite Hs.
      apply (rel_change s p); [done..| |right].
      + unfold f. destruct Hm, (eqs name kReady); constructor; cbn; try done;
          try (intros; congruence);
          (destruct (sp_switch p) as [w|]; [|done]; destruct mo_switch; by constructor).
      + split; apply Forall_forall.
        * intros c Hin Hg. rewrite Forall_forall in re_calls. destruct (re_calls _ Hin) as [_ Hk].
          destruct (Hk Hg) as [_ [? _]]. congruence.
        * intros d Hin Hat. unfold dones in Hin. apply elem_of_app in Hin as [Hin|Hin];
            apply list_elem_of_fmap in Hin as (e & -> & Hin).
          -- rewrite Forall_forall in re_posted. destruct e as [d b].
             destruct (posted_current _ _ _ _ _ (re_posted _ Hin) Hat eq_refl) as (_ & ? & ? & ? & _). congruence.
          -- rewrite Forall_forall in re_jobs. specialize (re_jobs _ Hin). unfold done_rel in re_jobs.
             rewrite Hat in re_jobs. destruct re_jobs as [_ Hk]. destruct (Hk eq_refl). congruence. }
  apply wpU_bind; [intros; mono_tac|]. apply wp_assign. apply (wp_Initialize _ p); [done|].
  unfold f. cbn. by destruct (eqs name kReady).
Qed.

Lemma rel_removing s p u : rel s p → quiet s → s.(profiles).(ps_ready) = false →
  s.(impl).(synchronized_) = true → ok (set_trace (s.(trace) ++ [ORemoving u]) s).
Proof.
  intros Hr Hq Hd Hsy. pose proof Hr as [? ? Htr Hm ? ? ? ?].
  exists (mkSpec p.(sp_stopped) p.(sp_linked) p.(sp_open) p.(sp_last) p.(sp_switch) p.(sp_answers)
            (filter (λ v, eqs v u = false) p.(sp_retired))).
  apply (rel_change s p s.(impl) s.(profiles) (s.(trace) ++ [ORemoving u])); [done..| | | |by right].
  - rewrite spec_run_snoc, Htr. destruct Hm. rewrite Hd in mo_open. destruct p. simpl in *. subst.
    by rewrite Hsy.
  - rewrite fences_snoc. lia.
  - destruct Hm. constructor; try done. cbn [sp_switch]. destruct (sp_switch p) as [w|]; [|done].
    destruct mo_switch. by constructor.
Qed.

Lemma wp_remove_started uid u s p : rel s p → wp (remove_started uid u) (λ _ s', ok s') s.
Proof.
  intros Hr. unfold remove_started. destruct (negb _); [apply wpU_ret; by exists p|].
  apply wpU_bind; [intros; mono_tac|]. apply wp_member.
  destruct (synchronized_ (impl s)) eqn:Hsy; [|by eapply wp_Lose]. cbn [negb].
  apply wpU_bind; [intros; mono_tac|]. eapply wp_Known; [done|].
  destruct (_ || _) eqn:E; [by eapply wp_Lose|].
  apply wpU_bind; [intros; mono_tac|]. eapply wp_FenceProfile; [done|]. intros s1 p1 Hr1 _ Hq1 Hd1 Hi1.
  apply wpU_bind; [intros; mono_tac|]. apply wp_emit.
  destruct (rel_removing s1 p1 u Hr1 Hq1 Hd1) as [p2 Hr2]; [by rewrite Hi1|].
  apply wpU_bind; [intros; mono_tac|]. eapply wp_Generation; [exact Hr2|]. intros s3 p3 Hr3 Hle3.
  pose proof (quiet_le _ _ _ _ _ Hr2 Hle3 Hq1) as Hq3.
  assert (Hi3 : s3.(impl) = s.(impl)) by (rewrite (dl_impl _ _ _ _ Hle3); exact Hi1).
  eapply wp_barrier; [done| |mono_tac|by apply quiet_calm|intros; by eapply wp_remove_refused].
  split; [done|]. intros _. assert (Hsy3 : s3.(impl).(synchronized_) = true) by (by rewrite Hi3).
  split_and!; [|done..]. destruct Hr3 as [_ _ _ [] _ _ _ _]. auto.
Qed.

Lemma rel_completed s p id w : rel s p → p.(sp_switch) = Some w → w.(sw_id) = id →
  w.(sw_committed) = true → w.(sw_over) = false →
  rel (set_trace (s.(trace) ++ [OCompleted id]) (set_impl (set_completed_ true s.(impl)) s))
    (mkSpec p.(sp_stopped) p.(sp_linked) p.(sp_open) p.(sp_last) (Some (complete_switch w)) p.(sp_answers)
       p.(sp_retired)).
Proof.
  intros Hr Hw Hid Hc Ho. pose proof Hr as [? ? Htr Hm ? ? ? ?].
  apply (rel_change s p (set_completed_ true s.(impl)) s.(profiles) (s.(trace) ++ [OCompleted id]));
    [done..| | | |left].
  - rewrite spec_run_snoc, Htr. destruct p. simpl in *. subst. by rewrite Z.eqb_refl, Hc, Ho.
  - rewrite fences_snoc. lia.
  - destruct Hm. constructor; try done. cbn [sp_switch]. rewrite Hw in mo_switch. destruct mo_switch. by constructor.
  - split_and!; [done| |].
    + intros r. unfold call_ok. cbn. intros [? Hk]. split; [done|]. destruct r; try done.
      * intros Hi. destruct (Hk Hi) as [? Hk']. split; [done|]. intros Hre. destruct (Hk' Hre) as (? & ? & _). eauto.
      * destruct Hk as (? & w' & Hw' & ? & ?). split; [done|]. exists (complete_switch w').
        split_and!; try done. congruence.
    + intros a b c d _ _. unfold done_ok. cbn. intros [? Hd]. split; [done|]. destruct d; try done.
      destruct Hd as (? & ? & ? & w' & Hw' & ? & ? & ? & ?). split_and!; try done. exists (complete_switch w').
      split_and!; try done. congruence.
Qed.

Lemma wp_switch_completed id u v s p : rel s p → 0 < id → s.(impl).(stopping_) = false →
  s.(impl).(synchronized_) = true → wp (switch_completed id u v) (λ _ s', ok s') s.
Proof.
  intros Hr Hid Hst Hsy. unfold switch_completed. apply wpU_bind; [intros; mono_tac|]. apply wp_member.
  destruct (_ || _ || _ || _) eqn:E; [by eapply wp_Lose|]. bool_hyps. apply Z.eqb_eq in H1.
  pose proof Hr as [_ _ _ Hm _ _ _ _]. pose proof (mo_switch _ _ _ Hm) as Hsw.
  destruct (sp_switch p) as [w|] eqn:Hw; [|destruct Hsw; lia].
  pose proof (wo_pending _ _ _ Hsw) as Hp. destruct (sw_over w) eqn:Hov; [lia|].
  pose proof (rel_completed s p id w Hr Hw) as Hr1.
  specialize (Hr1 ltac:(congruence) (wo_done _ _ _ Hsw H2) Hov).
  apply wpU_bind; [intros; mono_tac|]. apply wp_assign. apply wpU_bind; [intros; mono_tac|]. apply wp_emit.
  destruct (acknowledged_ (impl s)) eqn:Ha; [|apply wpU_ret; by eexists].
  eapply wp_Method; [exact Hr1| |].
  - intros id' Hin. change (DSwitch (current s) id' ∈ dones s) in Hin.
    assert (Hbd : s.(impl).(barrier_done_) = false); [|congruence].
    destruct Hr as [_ _ _ _ _ Hj Hpo _]. unfold dones in Hin.
    apply elem_of_app in Hin as [Hin|Hin]; apply list_elem_of_fmap in Hin as (e & He & Hin).
    + rewrite Forall_forall in Hpo. destruct e as [d b]. simpl in He. subst d.
      destruct (posted_current _ _ _ _ _ (Hpo _ Hin) eq_refl eq_refl) as (_ & ? & ? & _ & _ & ? & _). done.
    + rewrite Forall_forall in Hj. specialize (Hj _ Hin). unfold done_rel in Hj. rewrite <- He in Hj.
      cbn in Hj. destruct Hj as [_ Hk]. destruct (Hk eq_refl) as (_ & _ & ? & _). done.
  - pose proof (mo_linked_init _ _ _ Hm Hsy). split_and!; cbn; eauto.
Qed.

Lemma rel_started s p id u v i' : rel s p → quiet s → s.(profiles).(ps_ready) = false →
  s.(impl).(stopping_) = false → s.(impl).(synchronized_) = true → 0 < id →
  known_user bindings u = true → known_user bindings v = true →
  s.(impl).(pending_) = 0 → s.(impl).(active_) = u →
  view i' = view (set_pending_ id (set_next_ v (set_barrier_done_ false
    (set_acknowledged_ false (set_completed_ false s.(impl)))))) →
  rel (set_impl i' (set_trace (s.(trace) ++ [OStarted id u v]) s))
    (mkSpec p.(sp_stopped) p.(sp_linked) p.(sp_open) p.(sp_last)
       (Some (mkSwitch id v true false false false false false)) p.(sp_answers) p.(sp_retired)).
Proof.
  intros Hr Hq Hd Hst Hsy Hid Hu Hv Hp Ha Hvw. pose proof Hr as [? ? Htr Hm ? ? ? ?].
  unfold view in Hvw. cbn in Hvw. injection Hvw as V1 V2 V3 V4 V5 V6 V7 V8 V9 V10 V11.
  apply (rel_change s p i' s.(profiles) (s.(trace) ++ [OStarted id u v])); [done..| | | |by right].
  - rewrite spec_run_snoc, Htr. destruct Hm. rewrite Hd in mo_open. rewrite Hsy in mo_linked.
    rewrite Hst in mo_stopped. rewrite Ha in mo_last. destruct p. simpl in *. subst. rewrite Hu, Hv, eqs_refl.
    apply Z.ltb_lt in Hid as Hid'. rewrite Hid'. simpl.
    destruct sp_switch as [w|]; [|done]. pose proof (wo_pending _ _ _ mo_switch) as Hpw.
    pose proof (wo_positive _ _ _ mo_switch). destruct (sw_over w); [done|lia].
  - rewrite fences_snoc. lia.
  - destruct Hm. constructor; cbn; rewrite ?V1, ?V2, ?V3, ?V7, ?V8, ?V9; try done.
    constructor; cbn; rewrite ?V4, ?V5, ?V6; try done. congruence.
Qed.

Lemma wp_switch_started id u v s p : rel s p → 0 < id → s.(impl).(stopping_) = false →
  s.(impl).(synchronized_) = true → known_user bindings u = true → known_user bindings v = true →
  wp (switch_started id u v) (λ _ s', ok s') s.
Proof.
  intros Hr Hid Hst Hsy Hu Hv. unfold switch_started. apply wpU_bind; [intros; mono_tac|].
  eapply wp_FenceProfile; [done|]. intros s1 p1 Hr1 _ Hq1 Hd1 Hi1.
  apply wpU_bind; [intros; mono_tac|]. apply wp_member. destruct (_ || _) eqn:E; [by eapply wp_Lose|].
  bool_hyps. apply Z.eqb_eq in H1. apply eqs_true in H2.
  apply wpU_bind; [intros; mono_tac|]. apply wp_assign. apply wpU_bind; [intros; mono_tac|]. apply wp_emit.
  unfold ArmTimer, ClearTimer. apply wpU_bind; [intros; mono_tac|].
  apply wpU_bind; [intros; mono_tac|]. apply wp_assign. apply wp_assign.
  cbn [impl set_impl set_trace trace].
  match goal with |- wp ?m ?Q (set_impl ?j _) =>
    set (i' := j); change (wp m Q (set_impl i' (set_trace (s1.(trace) ++ [OStarted id u v]) s1))) end.
  assert (Hvw : view i' = view (set_pending_ id (set_next_ v (set_barrier_done_ false
    (set_acknowledged_ false (set_completed_ false s1.(impl))))))) by reflexivity.
  pose proof (rel_started s1 p1 id u v i' Hr1 Hq1 Hd1 ltac:(by rewrite Hi1) ltac:(by rewrite Hi1)
    Hid Hu Hv H1 H2 Hvw) as Hr2.
  assert (V2 : i'.(initialized_) = s1.(impl).(initialized_)) by reflexivity.
  assert (V3 : i'.(synchronized_) = s1.(impl).(synchronized_)) by reflexivity.
  assert (V4 : i'.(barrier_done_) = false) by reflexivity. clearbody i'.
  apply (wp_barrier _ _ _ _ _ _ Hr2); [|mono_tac|split; [reflexivity|exact Hq1]|intros; by eapply wp_switch_refused].
  split; [reflexivity|]. intros _. unfold done_ok. cbn [impl set_impl set_trace profiles].
  rewrite V2, V3, V4, Hi1. split; [destruct Hr as [_ _ _ [] _ _ _ _]; auto|].
  split_and!; [done..|]. eexists. split_and!; [reflexivity|reflexivity|reflexivity|by left|done].
Qed.

Lemma wp_Signal name params s p : rel s p → s.(impl).(stopping_) = false →
  wp (Signal name params) (λ _ s', ok s') s.
Proof.
  intros Hr Hst. unfold Signal. destruct (eqs name "RemoveUserStarted").
  { destruct params; [by eapply wp_remove_started|by eapply wp_Lose..]. }
  destruct (negb _ && negb _); [apply wpU_ret; by exists p|].
  destruct params as [|uid id u v|]; [by eapply wp_Lose| |by eapply wp_Lose].
  destruct (negb _); [apply wpU_ret; by exists p|]. apply wpU_bind; [intros; mono_tac|]. apply wp_member.
  destruct (synchronized_ (impl s)) eqn:Hsy; [|by eapply wp_Lose]. cbn [negb].
  do 2 (apply wpU_bind; [intros; mono_tac|]; eapply wp_Known; [done|]).
  destruct (_ || _ || _ || _ || _) eqn:E; [by eapply wp_Lose|]. bool_hyps. apply Z.leb_gt in H1.
  destruct (eqs name "SwitchUserStarted"); [by eapply wp_switch_started|by eapply wp_switch_completed].
Qed.

Lemma wp_Watch s p : rel s p → wp Watch (λ _ s', ok s') s.
Proof.
  intros Hr. unfold Watch. apply wpU_bind; [intros; mono_tac|]. apply wp_member.
  destruct (_ || _); [apply wpU_ret; by exists p|]. apply wp_assign. exists p. by apply rel_assign.
Qed.

Lemma wp_Start s p : rel s p → wp Start (λ _ s', ok s') s.
Proof.
  intros Hr. unfold Start. apply wpU_bind; [intros; mono_tac|]. apply wp_member.
  destruct (_ || _ || _); [apply wpU_ret; by exists p|]. destruct (connection_ _); [by eapply wp_Watch|].
  apply wpU_bind; [intros; mono_tac|]. apply wp_observe. intros a.
  apply (rel_tick _ _ _ (S (au_tick s))) in Hr. destruct a; [|by eapply wp_Lose]. cbn [negb].
  apply wpU_bind; [intros; mono_tac|]. apply wp_assign. apply wpU_bind; [intros; mono_tac|]. apply wp_member.
  apply wpU_bind; [intros; mono_tac|]. apply wp_modU. unfold ArmTimer, ClearTimer.
  apply wpU_bind; [intros; mono_tac|]. apply wp_assign. apply wp_assign. exists p.
  apply rel_assign; [|done]. apply rel_assign; [|done].
  match goal with |- rel (set_connects _ ?x) _ => assert (Hx : rel x p) by (by apply rel_assign) end.
  destruct Hx. by constructor.
Qed.

Lemma wp_OnConnectFinished n b s p : rel s p → wp (OnConnectFinished n b) (λ _ s', ok s') s.
Proof.
  intros Hr. unfold OnConnectFinished. apply wpU_bind; [intros; mono_tac|]. apply wp_member.
  destruct (negb _); [apply wpU_ret; by exists p|].
  apply wpU_bind; [intros; mono_tac|]. apply wp_assign. apply wpU_bind; [intros; mono_tac|]. apply wp_assign.
  match goal with |- wp _ _ ?x => assert (Hr1 : rel x p) by (by repeat apply rel_assign) end.
  apply wpU_bind; [intros; mono_tac|]. apply wp_member. destruct (stopping_ _); [apply wpU_ret; by exists p|].
  destruct b; [|by eapply wp_Lose]. apply wpU_bind; [intros; mono_tac|]. apply wp_assign.
  eapply wp_Watch. by apply rel_assign.
Qed.

(** A list whose only element that satisfies [P] is [x] still has it when
    another element is taken out. *)
Lemma filter_alone {A} (P : A → Prop) `{!∀ y, Decision (P y)} (x y : A) l1 l2 :
  filter P (l1 ++ y :: l2) = [x] → x ∈ l1 ++ l2 → P x → filter P (l1 ++ l2) = [x].
Proof.
  rewrite !filter_app, filter_cons. intros Hf Hin Hx. destruct (decide (P y)) as [Hy|]; [|done].
  assert (Hx' : x ∈ filter P (l1 ++ l2)) by (by apply list_elem_of_filter).
  rewrite filter_app in Hx'. apply (f_equal length) in Hf. rewrite length_app in Hf. simpl in Hf.
  apply list_elem_of_split in Hx' as (a & b & Hab). apply (f_equal length) in Hab.
  rewrite !length_app in Hab. simpl in Hab. lia.
Qed.

(** A completion is lost. *)
Lemma rel_drop_posted n s p : rel s p → rel (set_posted (delete n s.(posted)) s) p.
Proof.
  destruct (posted s !! n) as [[d b]|] eqn:Hn.
  2: { apply lookup_ge_None in Hn. rewrite delete_take_drop, take_ge, drop_ge, app_nil_r by lia. by intros []. }
  intros []. pose proof (take_drop_middle _ _ _ Hn) as Hsplit. rewrite <- Hsplit in re_posted.
  rewrite delete_take_drop. set (s' := set_posted _ s).
  assert (Hd : dones s = (take n (posted s)).*1 ++ d :: ((drop (S n) (posted s)).*1 ++ (jobs s).*2)).
  { unfold dones. rewrite <- Hsplit at 1. rewrite fmap_app. simpl. by rewrite <- app_assoc. }
  assert (Hd' : dones s' = (take n (posted s)).*1 ++ (drop (S n) (posted s)).*1 ++ (jobs s).*2).
  { unfold dones, s'. simpl. by rewrite fmap_app, <- app_assoc. }
  apply Forall_app in re_posted as [Hp1 [_ Hp2]%Forall_cons]. constructor; try done.
  - by apply Forall_app_2.
  - change (current s') with (current s). rewrite Hd'. intros id Hin.
    destruct (re_alone id) as [Hf Hc]; [rewrite Hd; set_solver|]. split; [|done].
    rewrite Hd in Hf. by eapply filter_alone.
Qed.

(** *** Steps *)

Lemma wp_finish d b s p : rel s p → posted_rel s p (d, b) → (at_generation (current s) d → calm s) →
  wp (finish d b) (λ _ s', ok s') s.
Proof.
  intros Hr Hp Hc. destruct d; cbn [finish].
  - by eapply wp_lose_done.
  - eapply wp_read_done; [done..|]. intros ->. by apply Hc.
  - eapply wp_remove_done; [done..|]. intros ->. by apply Hc.
  - eapply wp_switch_done; [done..|]. intros ->. by apply Hc.
Qed.

Lemma wp_handle e s p : rel s p → wp (handle e) (λ _ s', ok s') s.
Proof.
  intros Hr. unfold handle, OnNameVanished, OnClosed, OnSignal. apply wpU_bind.
  { intros s0. destruct e; mono_tac; try (unfold OnTimer, OnConnectFinished, OnMethodFinished, finish, OnNameAppeared; mono_tac). }
  apply wp_getU. assert (Hend : wp (mret ()) (λ _ s', ok s') s) by (apply wpU_ret; by exists p).
  destruct e as [| | |n b|n reply| |n|b|ready owner| | |sender path interface name params].
  - destruct (ps_enabled _); [by eapply wp_Start|done].
  - by eapply wp_Stop.
  - destruct (timer_ (impl s)) as [w|]; [|done].
    apply wpU_bind; [intros; destruct w; cbn [OnTimer]; mono_tac|]. apply wp_assign.
    assert (Hr1 : rel (set_impl (set_timer_ None s.(impl)) s) p) by (by apply rel_assign).
    destruct w; cbn [OnTimer]; [apply wpU_ret; by exists p|by eapply wp_Start|by eapply wp_Lose].
  - destruct (connects s !! n) as [i|]; [|done].
    apply wpU_bind; [intros; unfold OnConnectFinished; mono_tac|]. apply wp_modU.
    eapply wp_OnConnectFinished. destruct Hr. by constructor.
  - destruct (calls s !! n) as [c|] eqn:Hn; [|done]. destruct (rel_pop_call _ _ _ _ Hr Hn) as (Hr1 & Hc & Hcalm).
    apply wpU_bind; [intros; unfold OnMethodFinished; mono_tac|]. apply wp_modU. by eapply wp_OnMethodFinished.
  - destruct (posted s) as [|[d b] rest] eqn:Hp; [done|]. destruct (rel_pop_posted _ _ _ _ _ Hr Hp) as (Hr1 & Hc & Hcalm).
    apply wpU_bind; [intros; destruct d; cbn [finish]; mono_tac|]. apply wp_modU. by eapply wp_finish.
  - apply wp_modU. exists p. by apply rel_drop_posted.
  - eapply wpU_mono; [by eapply wp_run_barrier|]. intros _ s' (p' & ? & _). by exists p'.
  - destruct (_ && _) eqn:E; [|done]. bool_hyps. eapply wp_OnNameAppeared; [done|]. by intros ->.
  - destruct (watches_ _); [|done]. apply wpU_bind; [intros; mono_tac|]. apply wp_member.
    destruct (_ && _); [by eapply wp_Lose|done].
  - destruct (closed_ _); [by eapply wp_Lose|done].
  - destruct (signal_ _); [|done]. apply wpU_bind; [intros; mono_tac|]. apply wp_member.
    destruct (_ && _) eqn:E; [|done]. bool_hyps. by eapply wp_Signal.
Qed.

End main.
