(* ===== verification/AuthorityTheorems.v ===== *)
(** * The profile authority: theorems

    What every run of the authority that follows the protocol of
    [AuthoritySpec] guarantees about its order of events, and the theorems on
    all runs. *)
From S2P Require Import Prelude Strings Platform Message Packing ProfileState Authority AuthoritySpec.
From S2P Require Import AuthorityInv Identity ProfileConfig.

(** ** Traces *)

Definition no_fence (t : list obs) : Prop := OFence ∉ t.
Definition no_activation (t : list obs) : Prop := ∀ u, OActivate u ∉ t.

(** The service has announced a switch to [user], a barrier was committed, the
    daemon has agreed and got a reply, and the service has reported the end. *)
Definition switched (user : string) (t : list obs) : Prop :=
  ∃ id previous a b retire removed, t = a ++ OStarted id previous user :: b ∧
    OBarrier retire removed ∈ b ∧ OCall (SwitchUserDone id) ∈ b ∧ OAcked id ∈ b ∧ OCompleted id ∈ b.

(** The service has named [user] and a barrier was committed since, without a
    fence in between; after a gap the barrier retired all approvals. *)
Definition named (user : string) (t : list obs) : Prop :=
  ∃ kind a b retire removed c, t = a ++ OAnswer kind user :: b ++ OBarrier retire removed :: c ∧
    no_fence b ∧ no_fence c ∧ (kind = AInitial → retire = true) ∧ (kind = ASwitch → switched user a).

Record answer_fact (t : list obs) (kind : answer) (user : string) (committed : bool) : Prop := {
  af_named : if committed then named user t
             else ∃ a b, t = a ++ OAnswer kind user :: b ∧ no_fence b ∧ (kind = ASwitch → switched user a);
}.

Record switch_fact (t : list obs) (w : Switch) : Prop := {
  sf_started : ∃ previous a b, t = a ++ OStarted w.(sw_id) previous w.(sw_next) :: b ∧
    (w.(sw_committed) = true → ∃ retire removed, OBarrier retire removed ∈ b) ∧
    (w.(sw_told) = true → OCall (SwitchUserDone w.(sw_id)) ∈ b) ∧
    (w.(sw_acked) = true → OAcked w.(sw_id) ∈ b) ∧
    (w.(sw_completed) = true → OCompleted w.(sw_id) ∈ b) ∧
    (w.(sw_over) = false → no_activation b);
}.

Record spec_facts (t : list obs) (p : Spec) : Prop := {
  sf_answers : ∀ kind user c, (kind, user, c) ∈ p.(sp_answers) → answer_fact t kind user c;
  sf_open : ∀ user, p.(sp_open) = Some user →
    ∃ a b, t = a ++ OActivate user :: b ∧ named user a ∧ no_fence b;
  sf_switch : ∀ w, p.(sp_switch) = Some w → switch_fact t w;
  sf_retired : ∀ user, user ∈ p.(sp_retired) →
    ∃ a retire b, t = a ++ OBarrier retire user :: b ∧ ORemoving user ∉ b;
}.

(** ** Extending a trace *)

(** What a switch has reached only grows, by the observation that concerns it. *)
Lemma switch_fact_grow t o w w' : switch_fact t w →
  w'.(sw_id) = w.(sw_id) → w'.(sw_next) = w.(sw_next) →
  (w'.(sw_over) = false → w.(sw_over) = false ∧ ∀ u, o ≠ OActivate u) →
  (w'.(sw_committed) = true → w.(sw_committed) = true ∨ ∃ r rm, o = OBarrier r rm) →
  (w'.(sw_told) = true → w.(sw_told) = true ∨ o = OCall (SwitchUserDone w.(sw_id))) →
  (w'.(sw_acked) = true → w.(sw_acked) = true ∨ o = OAcked w.(sw_id)) →
  (w'.(sw_completed) = true → w.(sw_completed) = true ∨ o = OCompleted w.(sw_id)) →
  switch_fact (t ++ [o]) w'.
Proof.
  intros [(previous & a & b & -> & Fc & Ft & Fa & Fcp & Fov)] Hid Hnx Hov Hc Ht Ha Hcp. constructor.
  rewrite Hid, Hnx. exists previous, a, (b ++ [o]). rewrite <- app_assoc. split; [done|]. split_and!.
  - intros Hx. destruct (Hc Hx) as [(r & rm & ?)%Fc|(r & rm & ->)]; exists r, rm; set_solver.
  - intros Hx. destruct (Ht Hx) as [?%Ft| ->]; set_solver.
  - intros Hx. destruct (Ha Hx) as [?%Fa| ->]; set_solver.
  - intros Hx. destruct (Hcp Hx) as [?%Fcp| ->]; set_solver.
  - intros Hx u Hin. destruct (Hov Hx) as [Ho Hne]. apply elem_of_app in Hin as [Hin|Hin]; [by eapply Fov|].
    apply list_elem_of_singleton in Hin. by destruct (Hne u).
Qed.

Lemma switch_fact_snoc t o w : (∀ u, o ≠ OActivate u) → switch_fact t w → switch_fact (t ++ [o]) w.
Proof. intros. eapply switch_fact_grow; eauto. Qed.

Lemma switch_allows_switched t user w : switch_fact t w → switch_allows user w = true → switched user t.
Proof.
  intros [(previous & a & b & -> & Fc & Ft & Fa & Fcp & Fov)]. unfold switch_allows. intros Hw. bool_hyps.
  apply eqs_true in H as <-. destruct (Fc H3) as (r & rm & ?).
  exists w.(sw_id), previous, a, b, r, rm. split_and!; auto.
Qed.

Lemma no_fence_snoc t o : o ≠ OFence → no_fence t → no_fence (t ++ [o]).
Proof. unfold no_fence. set_solver. Qed.

Lemma named_snoc user t o : o ≠ OFence → named user t → named user (t ++ [o]).
Proof.
  intros Ho (k & a & b & r & rm & c & -> & ? & ? & ? & ?). exists k, a, b, r, rm, (c ++ [o]).
  split_and!; try done; [|by apply no_fence_snoc]. rewrite <- !app_assoc. simpl. by rewrite <- app_assoc.
Qed.

Lemma answer_fact_snoc t o k user c : o ≠ OFence → answer_fact t k user c → answer_fact (t ++ [o]) k user c.
Proof.
  intros Ho [Hn]. constructor. destruct c; [by apply named_snoc|].
  destruct Hn as (a & b & -> & ? & ?). exists a, (b ++ [o]). rewrite <- app_assoc.
  split_and!; [done|by apply no_fence_snoc|done].
Qed.

(** A barrier is committed after the answer. *)
Lemma answer_fact_commit t k user c retire removed : answer_fact t k user c →
  answer_fact (t ++ [OBarrier retire removed]) k user
    (c || match k with AInitial => retire | _ => true end).
Proof.
  intros Ha. destruct c; [by apply answer_fact_snoc|]. simpl.
  destruct (match k with AInitial => retire | _ => true end) eqn:E; [|by apply answer_fact_snoc].
  destruct Ha as [(a & b & -> & Hb & Hs)]. constructor. exists k, a, b, retire, removed, [].
  rewrite <- app_assoc. split_and!; [done|done|unfold no_fence; set_solver| |done]. by intros ->.
Qed.

Lemma open_snoc user t o : o ≠ OFence →
  (∃ a b, t = a ++ OActivate user :: b ∧ named user a ∧ no_fence b) →
  ∃ a b, t ++ [o] = a ++ OActivate user :: b ∧ named user a ∧ no_fence b.
Proof.
  intros Ho (a & b & -> & ? & ?). exists a, (b ++ [o]). rewrite <- app_assoc.
  split_and!; [done|done|by apply no_fence_snoc].
Qed.

Lemma retired_snoc user t o : o ≠ ORemoving user →
  (∃ a retire b, t = a ++ OBarrier retire user :: b ∧ ORemoving user ∉ b) →
  ∃ a retire b, t ++ [o] = a ++ OBarrier retire user :: b ∧ ORemoving user ∉ b.
Proof.
  intros Ho (a & r & b & -> & ?). exists a, r, (b ++ [o]). rewrite <- app_assoc. split; [done|]. set_solver.
Qed.

Section facts.
Context (known : string → bool).

Lemma spec_facts_step t p o p' : spec_facts t p → spec_step known p o = Some p' → spec_facts (t ++ [o]) p'.
Proof.
  intros [Fa Fo Fs Fr] Hs. destruct p as [stopped linked open last switch answers retired]. simpl in *.
  destruct o as [| | |id u v|id|id|u|retire removed|r|k u|u]; simpl in Hs.
  - injection Hs as <-. constructor; simpl; [set_solver|done| |].
    + intros w Hw. destruct switch as [w0|]; [|done]. injection Hw as <-.
      eapply switch_fact_grow; [by apply Fs|..]; try done; auto.
    + intros u Hu. apply retired_snoc; [done|auto].
  - injection Hs as <-. constructor; simpl; [|auto using open_snoc|done|set_solver].
    intros k u c Hin. apply answer_fact_snoc; auto.
  - destruct (bool_decide _) eqn:E; [|done]. injection Hs as <-.
    constructor; simpl; auto using answer_fact_snoc, open_snoc, switch_fact_snoc, retired_snoc.
  - destruct (_ && _) eqn:E; [|done]. injection Hs as <-.
    constructor; simpl; auto using answer_fact_snoc, open_snoc, retired_snoc.
    intros w [= <-]. constructor. exists u, t, []. split_and!; simpl; try done. intros _ ?. set_solver.
  - destruct switch as [w|]; [|done]. destruct (_ && _) eqn:E; [|done]. injection Hs as <-. bool_hyps.
    apply Z.eqb_eq in H as Hid.
    constructor; simpl; auto using answer_fact_snoc, open_snoc, retired_snoc.
    intros w' [= <-]. eapply switch_fact_grow; [by apply Fs|..]; simpl; auto. intros _. right. by rewrite Hid.
  - destruct switch as [w|]; [|done]. destruct (_ && _) eqn:E; [|done]. injection Hs as <-. bool_hyps.
    apply Z.eqb_eq in H as Hid.
    constructor; simpl; auto using answer_fact_snoc, open_snoc, retired_snoc.
    intros w' [= <-]. eapply switch_fact_grow; [by apply Fs|..]; simpl; auto. intros _. right. by rewrite Hid.
  - destruct (_ && _) eqn:E; [|done]. injection Hs as <-.
    constructor; simpl; auto using answer_fact_snoc, open_snoc, switch_fact_snoc.
    intros v [Hv Hin]%list_elem_of_filter. apply retired_snoc; [|auto]. intros [= <-].
    by rewrite eqs_refl in Hv.
  - injection Hs as <-. constructor; simpl; auto using open_snoc.
    + intros k u c Hin. apply list_elem_of_fmap in Hin as ([[k' u'] c'] & [= -> -> ->] & Hin).
      by apply answer_fact_commit, Fa.
    + intros w Hw. destruct switch as [w0|]; [|done]. injection Hw as <-.
      eapply switch_fact_grow; [by apply Fs|..]; simpl; auto. eauto.
    + intros u Hu.
      apply elem_of_cons in Hu as [-> |Hu]; [|by apply retired_snoc; auto].
      exists t, retire, []. split; [done|]. set_solver.
  - assert (Hsame : p' = mkSpec stopped linked open last switch answers retired →
      spec_facts (t ++ [OCall r]) p').
    { intros ->. constructor; simpl; auto using answer_fact_snoc, open_snoc, switch_fact_snoc, retired_snoc. }
    destruct r as [| |initial removal|v|id].
    1-3: destruct (negb stopped); [apply Hsame; congruence|done].
    { destruct (_ && negb stopped); [apply Hsame; congruence|done]. }
    destruct switch as [w|]; [|done]. destruct (_ && _) eqn:E; [|done]. injection Hs as <-. bool_hyps.
    apply Z.eqb_eq in H as Hid.
    constructor; simpl; auto using answer_fact_snoc, open_snoc, retired_snoc.
    intros w' [= <-]. eapply switch_fact_grow; [by apply Fs|..]; simpl; auto. intros _. right. by rewrite Hid.
  - destruct (_ && _) eqn:E; [|done]. injection Hs as <-. bool_hyps.
    constructor; simpl; auto using open_snoc, switch_fact_snoc, retired_snoc.
    intros k' u' c Hin. apply elem_of_app in Hin as [Hin|Hin]; [by apply answer_fact_snoc; auto|].
    apply list_elem_of_singleton in Hin as [= -> -> ->]. constructor. exists t, [].
    split_and!; [done|unfold no_fence; set_solver|]. intros ->. simpl in *. bool_hyps.
    destruct switch as [w|]; [|done]. by eapply switch_allows_switched; [apply Fs|].
  - destruct (_ && _) eqn:E; [|done]. injection Hs as <-. bool_hyps.
    constructor; simpl; auto using answer_fact_snoc, retired_snoc.
    + intros u' [= <-]. exists t, []. split_and!; [done| |unfold no_fence; set_solver].
      apply existsb_exists in H0 as ([[k u'] c] & Hin & Hx). simpl in Hx. bool_hyps. apply eqs_true in H0 as ->.
      subst c. apply list_elem_of_In in Hin. by destruct (Fa _ _ _ Hin).
    + intros w Hw. destruct switch as [w0|]; [|done]. injection Hw as <-.
      eapply switch_fact_grow; [by apply Fs|..]; simpl; auto. done.
Qed.

Lemma spec_facts_run t p : spec_run known t = Some p → spec_facts t p.
Proof.
  revert p. induction t as [|o t IH] using rev_ind; intros p Hr.
  - injection Hr as <-. constructor; simpl; set_solver.
  - rewrite spec_run_snoc in Hr. destruct (spec_run known t) as [p0|] eqn:E; [|done]. simpl in Hr.
    by eapply spec_facts_step; [apply IH|].
Qed.

(** A prefix of an accepted trace is accepted. *)
Lemma spec_run_prefix t1 t2 : is_Some (spec_run known (t1 ++ t2)) → is_Some (spec_run known t1).
Proof.
  induction t2 as [|o t2 IH] using rev_ind; [by rewrite app_nil_r|]. rewrite app_assoc, spec_run_snoc.
  intros Hs. apply IH. destruct (spec_run known (t1 ++ t2)); [done|]. by destruct Hs.
Qed.

Lemma spec_run_at t1 o t2 : is_Some (spec_run known (t1 ++ o :: t2)) →
  ∃ p, spec_run known t1 = Some p ∧ is_Some (spec_step known p o).
Proof.
  intros Hs. replace (t1 ++ o :: t2) with ((t1 ++ [o]) ++ t2) in Hs by (by rewrite <- app_assoc).
  apply spec_run_prefix in Hs. rewrite spec_run_snoc in Hs.
  destruct (spec_run known t1) as [p|]; [by exists p|by destruct Hs].
Qed.
End facts.

(** ** All runs *)

Section theorems.
Context `{Platform} `{AuthorityEnv}.

Definition configured (bindings : list ProfileBinding) : list ProfileBinding :=
  (Configure bindings profile_initial).2.(ps_bindings).

Lemma created_rel bindings n : rel (configured bindings) (created bindings n) spec_initial.
Proof.
  assert (Hps : (Configure bindings profile_initial).2 = profile_initial ∨
                (Configure bindings profile_initial).2 = mkProfileState bindings "" false true 1 ∧ bindings ≠ []).
  { unfold Configure. destruct (_ || _ || _) eqn:E; [by left|]. bool_hyps.
    destruct (negb _); [by left|by right]. }
  assert (Hcf : configured_with (configured bindings) (Configure bindings profile_initial).2).
  { unfold configured, configured_with. destruct Hps as [-> | [-> ?]]; [done|]. by rewrite bool_decide_eq_false_2. }
  unfold created, configured in *. revert Hcf. destruct Hps as [-> | [-> _]]; intros Hcf;
    constructor; try done; simpl; try (unfold current; simpl; lia);
    try (by constructor); try (intros id Hin; by inversion Hin).
Qed.

Lemma mono_handle e : mono (handle e).
Proof.
  unfold handle, OnNameVanished, OnClosed, OnSignal, OnTimer, OnConnectFinished, OnMethodFinished, finish,
    OnNameAppeared.
  apply mono_bind; [mono_tac|]. intros s.
  pose proof mono_Lose. pose proof mono_Stop. pose proof mono_Start. pose proof mono_Watch.
  pose proof mono_Initialize. pose proof mono_Generation. pose proof mono_ClearTimer.
  pose proof mono_lose_done. pose proof mono_read_done. pose proof mono_remove_done.
  pose proof mono_switch_done. pose proof mono_continue. pose proof mono_Signal.
  destruct e; mono_tac.
Qed.

Lemma run_rel bindings n events : bounded (run events (created bindings n)) →
  ok (configured bindings) (run events (created bindings n)).
Proof.
  induction events as [|e events IH] using rev_ind; intros Hb; [eexists; apply created_rel|].
  unfold run in *. rewrite foldl_app in *. simpl in *. unfold step in *.
  destruct IH as [p Hr]; [by eapply mono_bounded; [apply mono_handle|]|].
  by apply (wp_handle _ _ _ _ Hr).
Qed.

(** C11: every run of the authority follows the protocol.  Whatever the session
    service sends, in whatever order callbacks, timers and barriers run, which
    barriers fail or are refused, and however the database thread interleaves,
    the observations of the run are accepted by the automaton [spec_step]. *)
Theorem authority_refines bindings n events :
  let s := run events (created bindings n) in
  1 + fences s.(trace) < 2 ^ 64 →
  is_Some (spec_run (known_user (configured bindings)) s.(trace)).
Proof. intros s Hb. destruct (run_rel _ _ _ Hb) as [p []]. by exists p. Qed.

(** C12: an active profile has been verified.  Whenever the profile state is
    ready, the authority is not stopping, the two names of the service have
    the same owner, the active user is the one it follows, and since the last
    fence the service has named this user, a barrier was committed after that
    answer and then the user was activated; the barrier has retired all
    approvals if there was a gap before, and if the user was reached by a
    switch, the switch was announced, a barrier was committed, the daemon has
    agreed and got the reply, and the end was reported, before the answer. *)
Theorem authority_ready bindings n events :
  let s := run events (created bindings n) in
  1 + fences s.(trace) < 2 ^ 64 → s.(profiles).(ps_ready) = true →
  s.(impl).(stopping_) = false ∧ s.(impl).(owner_) = s.(impl).(ready_owner_) ∧ s.(impl).(owner_) ≠ "" ∧
  s.(profiles).(ps_active_user) = s.(impl).(active_) ∧
  ∃ a b, s.(trace) = a ++ OActivate s.(impl).(active_) :: b ∧ named s.(impl).(active_) a ∧ no_fence b.
Proof.
  intros s Hb Hrd. destruct (run_rel _ _ _ Hb) as [p Hr]. fold s in Hr. pose proof Hr as [_ _ Ht Hm _ _ _ _].
  destruct Hm as [_ _ _ Hopen Hready Hli Hinit _]. destruct (Hready Hrd) as (Hsy & Hst & Hact).
  destruct (Hinit (Hli Hsy)). split_and!; try done. rewrite Hrd, Hact in Hopen.
  by apply (sf_open _ _ (spec_facts_run _ _ _ Ht)).
Qed.

(** C13: the daemon agrees only to what it has carried out.  When it tells the
    service that a switch may proceed, the switch was announced, a barrier was
    committed since, no profile was activated since, and no profile is active;
    when it tells that the removal of a user may proceed, a barrier for that
    user, which retires the approvals of the user, was committed since the
    removal was last announced.  (The barrier of the empty user, who has no
    approvals, is like one that removes nobody.) *)
Theorem authority_acknowledges bindings n events a r b :
  let s := run events (created bindings n) in
  1 + fences s.(trace) < 2 ^ 64 → s.(trace) = a ++ OCall r :: b →
  match r with
  | SwitchUserDone id =>
      (∃ previous next t u retire removed, a = t ++ OStarted id previous next :: u ∧
         OBarrier retire removed ∈ u ∧ no_activation u) ∧
      ∃ p, spec_run (known_user (configured bindings)) a = Some p ∧ p.(sp_open) = None
  | RemoveUserDone user =>
      ∃ t retire u, a = t ++ OBarrier retire user :: u ∧ ORemoving user ∉ u
  | _ => True
  end.
Proof.
  intros s Hb Ht. destruct (run_rel _ _ _ Hb) as [p Hr]. fold s in Hr. pose proof Hr as [_ _ Hrun _ _ _ _ _].
  destruct (spec_run_at (known_user (configured bindings)) a (OCall r) b) as (p0 & Hp0 & Hs); [rewrite <- Ht; eauto|].
  pose proof (spec_facts_run _ _ _ Hp0) as [_ _ Fs Fr].
  destruct p0 as [stopped linked open last switch answers retired]. simpl in *.
  destruct r as [| | |user|id]; try done.
  - simpl in Hs.
    destruct (existsb (eqs user) retired) eqn:Hex; [|by destruct Hs].
    apply existsb_exists in Hex as (v & Hin & Hv). apply eqs_true in Hv as <-. apply list_elem_of_In in Hin. auto.
  - destruct switch as [w|]; [|by destruct Hs]. destruct (_ && _) eqn:E; [|by destruct Hs]. bool_hyps.
    apply Z.eqb_eq in H1 as <-. destruct (Fs w eq_refl) as [(previous & t & u & -> & Hc & _ & _ & _ & Hov)].
    destruct (Hc ltac:(done)) as (retire & removed & ?). split; [|by eexists].
    exists previous, w.(sw_next), t, u, retire, removed. auto.
Qed.

(** C14: the profile state is well typed.  When the daemon starts with a profile
    configuration, then in every later state the bindings are the configured
    ones, at most 64, each with well-formed names, no two for the same profile
    or the same user of a subject; an active user is one of theirs; and an
    operation passes the check exactly when its subject and profile are bound
    to the active user of a ready state. *)
Theorem profiles_typed `{Inventory} `{KeyText} s0 uid events n :
  LoadProfiles profile_initial = (true, s0, uid) → s0.(ps_enabled) = true →
  let s := run events (created s0.(ps_bindings) n) in
  1 + fences s.(trace) < 2 ^ 64 →
  s.(profiles).(ps_bindings) = s0.(ps_bindings) ∧ bindings_ok s0.(ps_bindings) ∧ 1 ≤ uid ≤ int32_max ∧
  (s.(profiles).(ps_ready) = true → ∃ b, b ∈ s0.(ps_bindings) ∧ b.(b_user) = s.(profiles).(ps_active_user)) ∧
  ∀ subject profile, (Check s.(profiles) subject profile = 0) ↔
    s.(profiles).(ps_ready) = true ∧ ∃ b, b ∈ s0.(ps_bindings) ∧ b.(b_subject) = subject ∧
      b.(b_profile) = profile ∧ b.(b_user) = s.(profiles).(ps_active_user).
Proof.
  intros Hload Hen s Hb. destruct (LoadProfiles_ok _ _ Hload) as [[-> _]|(Hok & _ & _ & Huid & Hs0)]; [done|].
  destruct (run_rel _ _ _ Hb) as [p Hr]. fold s in Hr. pose proof Hr as [[Hbi Hene] _ Ht Hm _ _ _ _].
  assert (Hcf : configured s0.(ps_bindings) = s0.(ps_bindings)) by (unfold configured; by rewrite <- Hs0).
  rewrite Hcf in *. assert (Hen' : ps_enabled (profiles s) = true).
  { rewrite Hene. destruct Hok as [_ Hc _ _]. destruct (ps_bindings s0); [simpl in Hc; lia|done]. }
  split_and!; try done; try lia.
  - intros Hrd. destruct Hm as [_ _ _ Hopen _ _ _ _]. rewrite Hrd in Hopen.
    destruct (sf_open _ _ (spec_facts_run _ _ _ Ht) _ Hopen) as (a & b & Et & Hn & _).
    destruct Hn as (k & a1 & b1 & r & rm & c1 & -> & _).
    destruct (spec_run_at (known_user (ps_bindings s0)) a1 (OAnswer k (ps_active_user (profiles s)))
      (b1 ++ OBarrier r rm :: c1 ++ OActivate (ps_active_user (profiles s)) :: b)) as (p0 & _ & Hs).
    { exists p. rewrite <- Ht, Et. f_equal. rewrite <- !app_assoc. simpl. by rewrite <- !app_assoc. }
    destruct p0. simpl in Hs. destruct (_ && _) eqn:E; [|by destruct Hs]. bool_hyps.
    unfold known_user in *. apply existsb_exists in H5 as (x & Hin & Hx). apply eqs_true in Hx.
    exists x. split; [by apply list_elem_of_In|done].
  - intros subject profile. rewrite (Check_allows _ _ _ Hen'), Hbi. split; intros [? Hx]; (split; [done|]).
    + destruct Hx as (i & x & Hf & ?). apply list_find_Some in Hf as (Hx & [= <- <-] & _).
      exists x. split; [by eapply list_elem_of_lookup_2|done].
    + destruct Hx as (x & Hin & <- & <- & ?).
      destruct (list_find_elem_of (λ b, profile_key b = (b_subject x, b_profile x)) (ps_bindings s0) x) as [[i y] Hf]; [done..|].
      exists i, y. split; [done|]. apply list_find_Some in Hf as (Hy & Hk & _).
      assert (y = x) as ->; [|done]. apply list_elem_of_lookup_2 in Hy.
      by eapply (key_inj profile_key); [apply Hok| | |].
Qed.
End theorems.
