(* ===== verification/AuthorityWitnesses.v ===== *)
(** * Runs of the profile authority

    A concrete environment, a run through start and user switch, the theorems
    applied to it, and three runs that show where the code differs from the
    guide to the profile authority (docs/guides/15-profile-authority.en.md). *)
From S2P Require Import Prelude Strings Platform Message Packing Identity ProfileState ProfileConfig.
From S2P Require Import Authority AuthoritySpec AuthorityInv AuthorityTheorems.

#[export] Existing Instance reference_platform.

(** Every job is accepted; barriers run only as events. *)
#[export] Instance calm_env : AuthorityEnv := {|
  uid_ := 5001;
  au_address := λ _, true;
  au_submit := λ _, true;
  au_jobs := λ _, [];
|}.

Definition demo_bindings : list ProfileBinding :=
  [mkBinding "owner" "alice" "home"; mkBinding "owner" "bob" "work"; mkBinding "owner" "" "guest"].

Definition service : string := ":1.7".
Definition signal (name : string) (params : variant) : event :=
  EvSignal service kPath kInterface name params.

(** Connect, verify the owner, register, read the user, commit, activate. *)
Definition starting : list event :=
  [EvStart; EvConnect 0 true; EvAppeared false service; EvAppeared true service;
   EvCall 0 (Some ""); EvCall 0 (Some ""); EvCall 0 (Some "alice"); EvBarrier true; EvPosted].

(** The service announces a switch, the daemon agrees and gets the reply. *)
Definition agreeing : list event :=
  starting ++ [signal "SwitchUserStarted" (VSwitch 5001 7 "alice" "bob"); EvBarrier true; EvPosted;
               EvCall 0 (Some "")].

(** The service reports the end and names the user. *)
Definition switching : list event :=
  agreeing ++ [signal "SwitchUserCompleted" (VSwitch 5001 7 "alice" "bob"); EvCall 0 (Some "bob");
               EvBarrier true; EvPosted].

#[local] Abbreviation after events := (run events (created demo_bindings 0)).

Lemma bounded_demo events : (fences (after events).(trace) <? 100) = true →
  1 + fences (after events).(trace) < 2 ^ 64.
Proof. intros Hb%Z.ltb_lt. lia. Qed.

Lemma authority_refines_witness :
  (after switching).(profiles).(ps_active_user) = "bob" ∧
  is_Some (spec_run (known_user (configured demo_bindings)) (after switching).(trace)).
Proof.
  split; [vm_compute; reflexivity|].
  apply (authority_refines demo_bindings 0 switching). apply bounded_demo. vm_compute. reflexivity.
Defined.

Lemma authority_ready_witness :
  (after switching).(impl).(owner_) = (after switching).(impl).(ready_owner_) ∧
  ∃ a b, (after switching).(trace) = a ++ OActivate (after switching).(impl).(active_) :: b ∧
    named (after switching).(impl).(active_) a ∧ no_fence b.
Proof.
  assert (Hb : 1 + fences (after switching).(trace) < 2 ^ 64)
    by (apply bounded_demo; vm_compute; reflexivity).
  assert (Hr : (after switching).(profiles).(ps_ready) = true) by (vm_compute; reflexivity).
  destruct (authority_ready demo_bindings 0 switching Hb Hr) as (_ & Ho & _ & _ & Ht). split; [exact Ho|exact Ht].
Defined.

Lemma authority_acknowledges_witness :
  ∃ a b, (after agreeing).(trace) = a ++ OCall (SwitchUserDone 7) :: b ∧
  ∃ p, spec_run (known_user (configured demo_bindings)) a = Some p ∧ p.(sp_open) = None.
Proof.
  assert (Hb : 1 + fences (after agreeing).(trace) < 2 ^ 64)
    by (apply bounded_demo; vm_compute; reflexivity).
  assert (Ht : (after agreeing).(trace) = take 10 (after agreeing).(trace) ++
    OCall (SwitchUserDone 7) :: drop 11 (after agreeing).(trace)) by (vm_compute; reflexivity).
  eexists _, _. split; [exact Ht|].
  exact (proj2 (authority_acknowledges demo_bindings 0 agreeing _ _ _ Hb Ht)).
Defined.

(** ** A configuration *)

(** The groups and keys of a profiles.conf with two bindings. *)
Definition demo_groups : list (string * list (string * string)) :=
  [("authority", [("mode", "sessiond"); ("session_uid", "5001")]);
   ("binding one", [("subject", "owner"); ("subsession", "alice"); ("profile", "home")]);
   ("binding two", [("subject", "owner"); ("subsession", "bob"); ("profile", "work")])].

Definition demo_keys (g : string) : list (string * string) :=
  default [] (snd <$> find_row (λ e, eqs e.1 g) demo_groups).

Definition demo_config : KeyFile := {|
  kf_groups := fst <$> demo_groups;
  kf_string g k := snd <$> find_row (λ e, eqs e.1 k) (demo_keys g);
  kf_list _ _ := None;
|}.

Definition config_text : string :=
  foldr (λ g s, "[" +:+ g.1 +:+ "]" +:+ String newline "" +:+
    foldr (λ e s, e.1 +:+ "=" +:+ e.2 +:+ String newline s) s g.2) "" demo_groups.

#[local] Instance demo_profiles : Inventory := {|
  inv_fs := {|
    fs_open _ _ := None;
    fs_stat _ := StatOk (mk_file_stat 7 30 33152 0 1 200 0 0 0);
    fs_read _ := inr config_text;
    fs_close _ := None;
  |};
  g_key_file_load _ := Some demo_config;
  pkgmgr_pkgid _ := None;
|}.

#[local] Instance demo_text : KeyText := {|
  g_strstrip s := s;
  g_key_file_get_keys _ g := fst <$> demo_keys g;
|}.

#[local] Abbreviation loaded := ((LoadProfiles profile_initial).1.2).

Lemma profiles_typed_witness :
  bindings_ok loaded.(ps_bindings) ∧
  ∀ subject profile, Check (run switching (created loaded.(ps_bindings) 0)).(profiles) subject profile = 0 ↔
    (run switching (created loaded.(ps_bindings) 0)).(profiles).(ps_ready) = true ∧
    ∃ b, b ∈ loaded.(ps_bindings) ∧ b.(b_subject) = subject ∧ b.(b_profile) = profile ∧
      b.(b_user) = (run switching (created loaded.(ps_bindings) 0)).(profiles).(ps_active_user).
Proof.
  assert (Hl : LoadProfiles profile_initial = (true, loaded, 5001)) by (vm_compute; reflexivity).
  assert (He : loaded.(ps_enabled) = true) by (vm_compute; reflexivity).
  assert (Hb : 1 + fences (run switching (created loaded.(ps_bindings) 0)).(trace) < 2 ^ 64)
    by (apply Z.ltb_lt; vm_compute; reflexivity).
  destruct (profiles_typed loaded 5001 switching 0 Hl He Hb) as (_ & Hbs & _ & _ & Hc). split; [exact Hbs|exact Hc].
Defined.

(** ** Differences from the guide *)

(** The daemon has agreed to the switch to [bob] and the service has not
    reported its end; the removal of another user lets it activate [alice]
    again. *)
Definition reopening : list event :=
  agreeing ++ [signal "RemoveUserStarted" (VRemove 5001 "bob"); EvBarrier true; EvPosted;
               EvCall 0 (Some ""); EvCall 0 (Some "alice"); EvBarrier true; EvPosted].

Example removal_reopens_switch :
  drop 8 (after reopening).(trace) =
    [OStarted 7 "alice" "bob"; OBarrier false ""; OCall (SwitchUserDone 7); OAcked 7;
     OFence; ORemoving "bob"; OBarrier false "bob"; OCall (RemoveUserDone "bob");
     OCall (GetCurrentUser false true); OAnswer ARemoval "alice"; OBarrier false "";
     OActivate "alice"].
Proof. vm_compute. reflexivity. Qed.

(** The removal of the user with the empty name is agreed to although no
    barrier has retired the approvals of any user. *)
Definition removing_guest : list event :=
  starting ++ [signal "RemoveUserStarted" (VRemove 5001 ""); EvBarrier true; EvPosted].

Example empty_removal_keeps_approvals :
  drop 7 (after removing_guest).(trace) =
    [OFence; ORemoving ""; OBarrier false ""; OCall (RemoveUserDone "")].
Proof. vm_compute. reflexivity. Qed.

(** A failed barrier after the connection was lost leaves nothing that would
    ever connect again: only a new start or a stop changes the authority. *)
Definition losing : list event := starting ++ [EvClosed; EvBarrier false; EvPosted].

Lemma lost_for_good e : e ≠ EvStart → e ≠ EvStop → step e (after losing) = after losing.
Proof.
  assert (Hs : ∃ i ps t n, after losing = mkAuthority i ps [] [] [] [] t n ∧
    i.(timer_) = None ∧ i.(watches_) = false ∧ i.(signal_) = false ∧ i.(closed_) = false)
    by (eexists _, _, _, _; vm_compute; done).
  destruct Hs as (i & ps & t & n & -> & Ht & Hw & Hsg & Hc). intros Hne1 Hne2.
  destruct e; try done; unfold step, handle, mbind, U_bind; cbn; rewrite ?Ht, ?Hw, ?Hsg, ?Hc; done.
Qed.
