(* ===== verification/Recovery.v ===== *)
(** * The bootstrap receipt (src/common/recovery_state.cc)

    A small text file of the authority directory records how far the first
    start of the daemon has come, so that lost data is never mistaken for a
    first start.  The file is read and replaced by runs over the disk of
    [Offline], in which every system call may fail or be where the process is
    killed. *)
From S2P Require Import Prelude Strings Platform Message Wire Packing Localization Registration.
From S2P Require Import Identity Offline OfflineSpec.
From Stdlib Require Import Ascii.
Import offline.

(** ** The receipt *)

Inductive Phase := kAbsent | kFresh | kClaimed | kInitialized | kRecoveryRequired | kInvalid.

#[export] Instance Phase_eq_dec : EqDecision Phase.
Proof. solve_decision. Defined.

Inductive Boot := kReject | kFirst | kExisting | kRecoverDatabase.

Record Receipt := mkReceipt { phase : Phase; unit_ : string; invocation : string; nonce : string }.

Definition no_receipt : Receipt := mkReceipt kAbsent "" "" "".

Definition kName : string := "bootstrap.receipt".
Definition kLimit : Z := 4096.

Definition Name (p : Phase) : option string :=
  match p with
  | kFresh => Some "FRESH_UNCLAIMED"
  | kClaimed => Some "FRESH_CLAIMED"
  | kInitialized => Some "INITIALIZED"
  | kRecoveryRequired => Some "RECOVERY_REQUIRED"
  | _ => None
  end.

Definition HexId (value : string) (width : Z) : bool :=
  if negb (size value =? width) then false else all_of hex_lower value.

Definition Assess (p : Phase) (registry database ticket : bool) : Boot :=
  if bool_decide (p = kClaimed) && ticket && negb registry && negb database then kFirst
  else if negb (bool_decide (p = kInitialized)) then kReject
  else if negb registry then kReject
  else if database then kExisting else kRecoverDatabase.

(** ** Reading the text *)

Definition receipt_prefix : string := "schema=1" +:+ String newline "phase=".

(** The phase whose name was found; the loop over the four names. *)
Definition parse_phase (name : string) : Phase :=
  foldl (λ found p, if bool_decide (Name p = Some name) then p else found) kAbsent
    [kFresh; kClaimed; kInitialized; kRecoveryRequired].

(** [data.find(key, at) == at], then the bytes up to the end of the line. *)
Definition parse_line (key rest : string) : option (string * string) :=
  if negb (starts_with key rest) then None
  else
    let rest := drop_str (String.length key) rest in
    n ← find_char newline rest;
    Some (take_str n rest, drop_str (S n) rest).

Definition unit_valid (u : string) : bool :=
  negb (empty u) && (size u <=? 128) && negb (has_char newline u) && negb (has_char "/" u) &&
  negb (has_char "=" u).

(** The last checks of [Parse], which [WriteReceipt] repeats. *)
Definition receipt_valid (r : Receipt) : bool :=
  unit_valid r.(unit_) &&
  (if bool_decide (r.(phase) = kClaimed) then HexId r.(invocation) 32 && HexId r.(nonce) 32
   else empty r.(invocation) && empty r.(nonce)).

Definition Parse (data : string) : option Receipt :=
  '(name, rest) ← parse_line receipt_prefix data;
  let p := parse_phase name in
  if bool_decide (p = kAbsent) then None
  else
    '(u, rest) ← parse_line "unit=" rest;
    '(i, rest) ← parse_line "invocation=" rest;
    if negb (starts_with "nonce=" rest) || negb (back_is newline data) then None
    else
      let nonce_ := take_str (String.length rest - 7) (drop_str 6 rest) in
      let r := mkReceipt p u i nonce_ in
      if receipt_valid r then Some r else None.

(** ** Writing the text *)

Definition receipt_text (r : Receipt) (name : string) : string :=
  receipt_prefix +:+ name +:+ String newline ("unit=" +:+ r.(unit_) +:+
    String newline ("invocation=" +:+ r.(invocation) +:+
    String newline ("nonce=" +:+ r.(nonce) +:+ String newline ""))).

(** ** System calls of the tools *)

Definition chown (user group : Z) (st : file_stat) : file_stat :=
  mk_file_stat st.(st_dev) st.(st_ino) st.(st_mode) user st.(st_nlink) st.(st_size) st.(st_mtim_sec)
    st.(st_mtim_nsec) group.

(** The bits that [(st_mode & 07777)] keeps. *)
Definition permissions (st : file_stat) : Z := Z.land st.(st_mode) 4095.

(** [/dev/urandom]. *)
Class Random := { os_random : nat → string }.

(** ["%02x"] of the bytes. *)
Fixpoint hex_bytes (s : string) : string :=
  match s with
  | EmptyString => ""
  | String c s' => String (hex_char (ascii_Z c / 16)) (String (hex_char (ascii_Z c mod 16)) (hex_bytes s'))
  end.

Section recovery.
Context `{Os} `{Random}.

Definition fchown (p : path) (user group : Z) : F (option Z) := sys_do (alter (on_stat (chown user group)) p).
Definition fchmod (p : path) (mode : Z) : F (option Z) := sys_do (alter (on_stat (set_mode mode)) p).

(** The message of [std::runtime_error] is only printed. *)
Definition refused : Z := 1.

Definition need (r : option Z) : F () := Require (bool_decide (r = None)) refused.

(** [fchown(...) == 0 && fchmod(...) == 0]. *)
Definition own (p : path) (user group mode : Z) : F () :=
  r ← fchown p user group;
  need r;;
  r ← fchmod p mode;
  need r.

Definition fsync (p : path) : F () := r ← sys; need r.

(** ** ReadReceipt *)

Definition receipt_stat (group : Z) (st : file_stat) : bool :=
  S_ISREG st.(st_mode) && (st.(st_uid) =? 0) && (st.(st_gid) =? group) && (permissions st =? 416) &&
  (st.(st_nlink) =? 1) && (0 <? st.(st_size)) && (st.(st_size) <=? kLimit).

(** [None] is [false]; an absent file is read as [no_receipt]. *)
Definition ReadReceipt (authority : path) (group : Z) : F (option Receipt) :=
  r ← openat authority kName false;
  match r with
  | Some e => mret (if e =? ENOENT then Some no_receipt else None)
  | None =>
      st ← fstat (authority ++ [kName]);
      match st with
      | None => mret None
      | Some st =>
          if negb (receipt_stat group st) then mret None
          else
            r ← sys;
            n ← look (authority ++ [kName]);
            let data := content n in
            if negb (bool_decide (r = None)) || (size data <? st.(st_size)) then mret None
            else
              r ← sys;
              if negb (bool_decide (r = None)) || (st.(st_size) <? size data) then mret None
              else mret (Parse data)
      end
  end.

(** ** WriteReceipt *)

Definition receipt_temporary (bytes : string) : string := ".bootstrap-" +:+ hex_bytes bytes.

Definition random_bytes (count : nat) : F string := λ d, (d, Done (take_str count (os_random d.(clock)))).

(** From the new file to the synchronized directory. *)
Definition write_file (authority : path) (temporary : string) (group : Z) (data : string) : F bool :=
  own (authority ++ [temporary]) 0 group 416;;
  write_loop (String.length data) (authority ++ [temporary]) data;;
  fsync (authority ++ [temporary]);;
  r ← renameat authority temporary kName;
  need r;;
  fsync authority;;
  mret true.

Definition WriteReceipt (authority : path) (group : Z) (receipt : Receipt) : F bool :=
  match Name receipt.(phase) with
  | None => mret false
  | Some name =>
      if negb (receipt_valid receipt) then mret false
      else
        let data := receipt_text receipt name in
        opened ← sys;
        if negb (bool_decide (opened = None)) then mret false
        else
          bytes ← random_bytes 4;
          r ← sys;
          if negb (bool_decide (r = None)) then mret false
          else
            let temporary := receipt_temporary bytes in
            made ← create_at authority temporary;
            match made with
            | Some _ => mret false
            | None =>
                ok ← try (write_file authority temporary group data) (λ _, mret false);
                if ok : bool then mret true
                else unlinkat authority temporary;; mret false
            end
  end.
End recovery.

(** ** The text of a receipt *)

Lemma parse_line_Some key rest v rest' :
  parse_line key rest = Some (v, rest') ↔ rest = key +:+ v +:+ String newline rest' ∧ has_char newline v = false.
Proof.
  unfold parse_line, has_char. split.
  - destruct (starts_with key rest) eqn:Hs; [|done]. apply starts_with_true in Hs as [s ->]. simpl.
    rewrite drop_str_app. intros Hl. apply bind_Some in Hl as (n & Hn & [= <- <-]).
    apply find_char_Some in Hn as (Hs & Hall & _). by rewrite Hs at 1; rewrite Hall.
  - intros [-> Hall%negb_false_iff]. rewrite starts_with_app. cbn [negb]. rewrite drop_str_app, find_char_app by done.
    cbn [mbind option_bind]. by rewrite take_str_app, drop_str_app_S.
Qed.

Lemma parse_phase_Name name p : p ≠ kAbsent → parse_phase name = p ↔ Name p = Some name.
Proof.
  intros Hp. unfold parse_phase. simpl. split.
  - intros <-. repeat case_bool_decide; simplify_eq/=; try done.
  - intros Hn. destruct p; simplify_eq/=; reflexivity.
Qed.

Lemma back_is_snoc c s : back_is c s = true → s = take_str (String.length s - 1) s +:+ String c "".
Proof.
  induction s as [|d s IH]; [done|]. destruct s as [|e s]; simpl.
  - intros Hb%bool_decide_eq_true. by subst.
  - intros Hb. specialize (IH Hb). simpl in IH. rewrite Nat.sub_0_r in IH. rewrite app_cons_s. by rewrite IH at 1.
Qed.

Lemma no_char_hex c s n : hex_lower c = false → HexId s n = true → has_char c s = false.
Proof.
  intros Hc. unfold HexId, has_char. destruct (negb _); [done|]. intros Hs. apply negb_false_iff.
  eapply all_of_impl; [|exact Hs]. intros d Hd. apply bool_decide_eq_true. intros ->. congruence.
Qed.

Lemma receipt_valid_lines r : receipt_valid r = true →
  has_char newline r.(unit_) = false ∧ has_char newline r.(invocation) = false.
Proof.
  unfold receipt_valid, unit_valid. intros Hv. bool_hyps. split; [done|]. destruct (bool_decide _).
  - bool_hyps. by eapply no_char_hex.
  - bool_hyps. match goal with Hi : empty (invocation r) = true |- _ => apply empty_true in Hi; by rewrite Hi end.
Qed.

Lemma back_is_append c a b : b ≠ "" → back_is c (a +:+ b) = back_is c b.
Proof. destruct b as [|d b]; [done|]. intros _. apply back_is_app. Qed.

(** A text ends like its last line. *)
Lemma receipt_back name u i x :
  back_is newline (receipt_prefix +:+ name +:+ String newline ("unit=" +:+ u +:+ String newline
    ("invocation=" +:+ i +:+ String newline ("nonce=" +:+ x)))) = back_is newline ("nonce=" +:+ x).
Proof.
  assert (Hn : ∀ a b d, a +:+ String d b ≠ "") by (by intros []).
  rewrite back_is_append, back_is_app by apply Hn.
  etrans; [apply (back_is_append _ (String newline "unit=")), Hn|]. rewrite back_is_app.
  etrans; [apply (back_is_append _ (String newline "invocation=")), Hn|]. rewrite back_is_app.
  by apply (back_is_append _ (String newline "")).
Qed.

(** A text is accepted as a receipt exactly when it is what [WriteReceipt]
    prints for a valid receipt. *)
Lemma Parse_canonical data r :
  Parse data = Some r ↔ ∃ name, Name r.(phase) = Some name ∧ receipt_valid r = true ∧ data = receipt_text r name.
Proof.
  unfold Parse. split.
  - intros Hp. apply bind_Some in Hp as ([name rest] & Hl & Hp). apply parse_line_Some in Hl as [Hdata _].
    case_bool_decide as Hab; [done|].
    apply bind_Some in Hp as ([u rest1] & Hl & Hp). apply parse_line_Some in Hl as [-> _].
    apply bind_Some in Hp as ([i rest2] & Hl & Hp). apply parse_line_Some in Hl as [-> _].
    destruct (negb (starts_with _ _) || _) eqn:Hn; [done|]. bool_hyps.
    destruct (receipt_valid _) eqn:Hv; [|done]. injection Hp as <-. exists name.
    split_and!; [by apply parse_phase_Name|done|].
    match goal with Hs : starts_with _ rest2 = true |- _ => apply starts_with_true in Hs as [x ->] end.
    subst data. rewrite receipt_back in *. destruct x as [|d x]; [done|].
    rewrite back_is_app in *.
    match goal with Hb : back_is _ _ = true |- _ => apply back_is_snoc in Hb; rewrite Hb at 1 end.
    unfold receipt_text. cbn [unit_ invocation nonce]. do 3 f_equal.
  - intros (name & Hn & Hv & ->). destruct (receipt_valid_lines r Hv) as [Hu Hi].
    assert (Hne : r.(phase) ≠ kAbsent) by (intros E; by rewrite E in Hn).
    assert (Hnn : has_char newline name = false) by (destruct r.(phase); simplify_eq/=; reflexivity).
    unfold receipt_text.
    rewrite (proj2 (parse_line_Some _ _ _ _) (conj eq_refl Hnn)). cbn [mbind option_bind].
    rewrite (proj2 (parse_phase_Name name _ Hne) Hn), bool_decide_eq_false_2 by done.
    rewrite (proj2 (parse_line_Some _ _ _ _) (conj eq_refl Hu)). cbn [mbind option_bind].
    rewrite (proj2 (parse_line_Some _ _ _ _) (conj eq_refl Hi)). cbn [mbind option_bind].
    rewrite receipt_back, starts_with_app, !back_is_append by (done || by destruct r.(nonce)).
    cbn [negb orb]. rewrite (drop_str_app "nonce="), !length_app_s. simpl.
    replace (_ - _)%nat with (String.length r.(nonce)) by lia. rewrite take_str_app.
    destruct r. simpl in *. by rewrite Hv.
Qed.

(** ** What reading and writing do *)

(** The receipt that a directory holds; [None] is one that is refused. *)
Definition stored_receipt (authority : path) (t : disk_tree) : option Receipt :=
  match t !! (authority ++ [kName]) with
  | None => Some no_receipt
  | Some (NFile _ data) => Parse data
  | Some _ => None
  end.

Section spec.
Context `{Os} `{Random}.
Implicit Types (t : disk_tree) (authority : path) (r : Receipt).

Lemma reader_need (r0 : option Z) : reader (need r0) (λ _ _, r0 = None).
Proof. eapply reader_weaken; [by apply reader_Require|]. by intros [] t Hr%bool_decide_eq_true. Qed.

Lemma wp_random k t (Q : string → disk_tree → Prop) E K : (∀ b, Q b t) → wp (random_bytes k) Q E K t.
Proof. intros HQ n. apply HQ. Qed.

Lemma reader_fsync p : reader (fsync p) (λ _ _, True).
Proof.
  eapply reader_bind; [apply reader_sys|]. intros r0. eapply reader_weaken; [apply reader_need|done].
Qed.

Lemma reader_ReadReceipt `{!OsLaws} authority group :
  reader (ReadReceipt authority group) (λ o t, ∀ r, o = Some r → stored_receipt authority t = Some r ∧
    (r.(phase) ≠ kAbsent → ∃ st data, t !! (authority ++ [kName]) = Some (NFile st data) ∧
       receipt_stat group st = true)).
Proof.
  unfold ReadReceipt, stored_receipt. eapply reader_bind; [apply reader_openat_absent|]. intros [e|].
  { eapply reader_weaken; [apply reader_ret|]. intros o t -> Ha r Hr.
    destruct (e =? ENOENT) eqn:He; [|done]. apply Z.eqb_eq in He as ->. injection Hr as <-.
    destruct Ha as [Ha _]. by rewrite Ha. }
  eapply reader_bind; [apply reader_fstat|]. intros [st|]; [|eapply reader_weaken; [apply reader_ret|by intros o t ->]].
  destruct (receipt_stat group st) eqn:Hst; [|eapply reader_weaken; [apply reader_ret|by intros o t ->]]. cbn [negb].
  eapply reader_bind; [apply reader_sys|]. intros r0. eapply reader_bind; [apply reader_look|]. intros n.
  destruct (_ || _); [eapply reader_weaken; [apply reader_ret|by intros o t ->]|].
  eapply reader_bind; [apply reader_sys|]. intros r1.
  destruct (_ || _); [eapply reader_weaken; [apply reader_ret|by intros o t ->]|].
  eapply reader_weaken; [apply reader_ret|]. intros o t -> _ -> _ Hs _ r Hr.
  destruct (Hs st eq_refl) as (n & Hn & Hns). rewrite Hn in *.
  destruct n as [st'|st' data|]; [|by injection Hns as ->; eauto 6|done].
  simpl in Hr. done.
Qed.

(** The receipt of [authority] is the old one or [r] in full; besides it only
    temporary files may differ. *)
Definition rewritten authority r (t0 t : disk_tree) : Prop :=
  (∀ q, q ≠ authority ++ [kName] → (∀ b, q ≠ authority ++ [receipt_temporary b]) → t !! q = t0 !! q) ∧
  (t !! (authority ++ [kName]) = t0 !! (authority ++ [kName]) ∨
   ∃ st name, Name r.(phase) = Some name ∧ receipt_valid r = true ∧
     t !! (authority ++ [kName]) = Some (NFile st (receipt_text r name))).

(** The new receipt, with the attributes that reading it requires. *)
Definition in_place authority group r (t0 t : disk_tree) : Prop :=
  rewritten authority r t0 t ∧ ∃ st name, Name r.(phase) = Some name ∧ receipt_valid r = true ∧
    t !! (authority ++ [kName]) = Some (NFile st (receipt_text r name)) ∧ receipt_stat group st = true ∧
    st.(st_size) = size (receipt_text r name).

Lemma temporary_ne b : receipt_temporary b ≠ kName.
Proof. done. Qed.

Lemma rewritten_only authority r b t0 t : only_at (authority ++ [receipt_temporary b]) t0 t → rewritten authority r t0 t.
Proof.
  intros Ho. split; [intros q _ Hq; by apply Ho|left]. apply Ho. intros E%app_inj_tail. destruct E. by eapply temporary_ne.
Qed.

(** The attributes of the file under construction. *)
Definition drafted (group : Z) (data : string) (st : file_stat) : Prop :=
  S_ISREG st.(st_mode) = true ∧ st.(st_uid) = 0 ∧ st.(st_gid) = group ∧ permissions st = 416 ∧
  st.(st_nlink) = 1 ∧ st.(st_size) = size data.

Definition drafts (p : path) (group : Z) (data : string) (t0 t : disk_tree) : Prop :=
  only_at p t0 t ∧ ∃ st, t !! p = Some (NFile st data) ∧ drafted group data st.

Lemma new_file_mode : Z.land (Z.lor 32768 (Z.land 384 (Z.lnot os_umask))) 61440 = 32768.
Proof.
  rewrite Z.land_lor_distr_l, <- Z.land_assoc, (Z.land_comm (Z.lnot _)), Z.land_assoc. reflexivity.
Qed.

Lemma drafts_append p group bytes chunk t0 t :
  drafts p group bytes t0 t → drafts p group (bytes +:+ chunk) t0 (alter (append_bytes chunk) p t).
Proof.
  intros (Ho & st & Hst & Hd). split; [by apply only_at_alter|]. rewrite lookup_alter_eq, Hst. simpl.
  eexists. split; [done|]. destruct Hd as (? & ? & ? & ? & ? & ?). by split_and!.
Qed.

Lemma wp_own (J : disk_tree → Prop) p user group mode t (Q : () → disk_tree → Prop) E K :
  J t → (∀ t', J t' → K t') → (∀ s t', error s → J t' → E s t') → J (alter (on_stat (chown user group)) p t) →
  J (alter (on_stat (set_mode mode)) p (alter (on_stat (chown user group)) p t)) →
  Q () (alter (on_stat (set_mode mode)) p (alter (on_stat (chown user group)) p t)) →
  wp (own p user group mode) Q E K t.
Proof.
  intros Ht HK HE H1 H2 HQ. unfold own. apply wp_bind, wp_sys_do; [by apply HK|intros e|].
  { apply wp_bind, reader_need; [by apply HK|auto|done]. }
  apply wp_bind, reader_need; [by apply HK|auto|]. intros [] _.
  apply wp_bind, wp_sys_do; [by apply HK|intros e|].
  { apply reader_need; [by apply HK|auto|done]. }
  apply reader_need; [by apply HK|auto|]. by intros [] _.
Qed.

Lemma wp_write_file authority b group data t (Q : bool → disk_tree → Prop) E K :
  let tmp : path := authority ++ [receipt_temporary b] in
  (∀ t', only_at tmp t t' → K t') → (∀ s t', error s → only_at tmp t t' → E s t') →
  (∀ t', (∃ st, drafted group data st ∧ t' !! (authority ++ [kName]) = Some (NFile st data)) →
     (∀ q, q ≠ authority ++ [kName] → q ≠ tmp → t' !! q = t !! q) → K t' ∧ (∀ s, error s → E s t') ∧ Q true t') →
  (∃ st, t !! tmp = Some (NFile st "") ∧ Z.land st.(st_mode) 61440 = 32768 ∧ st.(st_nlink) = 1 ∧ st.(st_size) = 0) →
  wp (write_file authority (receipt_temporary b) group data) Q E K t.
Proof.
  intros tmp HK HE HQ (st & Hst & Hm & Hl & Hz). unfold write_file. fold tmp.
  set (t1 := alter (on_stat (set_mode 416)) tmp (alter (on_stat (chown 0 group)) tmp t)).
  assert (Ht1 : drafts tmp group "" t t1).
  { split; [by apply only_at_alter, only_at_alter|]. unfold t1. rewrite !lookup_alter_eq, Hst. simpl.
    eexists. split; [done|]. unfold drafted, S_ISREG, permissions. simpl. by rewrite Hm. }
  apply wp_bind, (wp_own (only_at tmp t)); [done|by apply HK|by apply HE|by apply only_at_alter|by apply Ht1|].
  apply wp_bind, (wp_write_loop (λ d t', drafts tmp group d t t') _ tmp data "");
    [intros; by apply drafts_append|intros d t' [? _]; by apply HK|intros s d t' Hs [? _]; by apply HE| |done|exact Ht1].
  intros t2 Ht2. rewrite app_nil_s in Ht2. destruct Ht2 as (Ho2 & st2 & Hst2 & Hd2).
  apply wp_bind, reader_fsync; [by apply HK|auto|]. intros [] _.
  apply wp_bind, wp_sys_do; [by apply HK|intros e; apply wp_bind, reader_need; [by apply HK|auto|done]|].
  assert (Hne : tmp ≠ authority ++ [kName]) by (intros E0%app_inj_tail; destruct E0; by eapply temporary_ne).
  destruct (HQ (rename_node tmp (authority ++ [kName]) t2)) as (HK3 & HE3 & HQ3).
  { exists st2. split; [done|]. unfold rename_node. by rewrite Hst2, lookup_insert_eq. }
  { intros q Hq Hqt. unfold rename_node. rewrite Hst2, lookup_insert_ne, lookup_delete_ne by done. by apply Ho2. }
  apply wp_bind, reader_need; [done|done|]. intros [] _. apply wp_bind, reader_fsync; [done|done|]. intros [] _.
  by apply wp_ret.
Qed.

Lemma receipt_text_size r name : Name r.(phase) = Some name → receipt_valid r = true →
  0 < size (receipt_text r name) ≤ kLimit.
Proof.
  intros Hn Hv. unfold receipt_text, kLimit. rewrite !size_app, !size_cons, !size_app, !size_cons, !size_app, !size_cons, !size_app.
  assert (size name ≤ 20) by (destruct r.(phase); simplify_eq/=; done).
  assert (size r.(unit_) ≤ 128 ∧ size r.(invocation) ≤ 32 ∧ size r.(nonce) ≤ 32).
  { unfold receipt_valid, unit_valid, HexId in Hv. bool_hyps. destruct (bool_decide _); bool_hyps.
    - destruct (size r.(invocation) =? 32) eqn:?, (size r.(nonce) =? 32) eqn:?; simpl in *; try done. lia.
    - str_hyps. repeat match goal with Hx : _ = "" |- _ => rewrite Hx end. change (size "") with 0. lia. }
  pose proof (size_nonneg r.(unit_)). pose proof (size_nonneg r.(invocation)). pose proof (size_nonneg r.(nonce)).
  pose proof (size_nonneg name).
  change (size receipt_prefix) with 15. change (size "nonce=") with 6.
  change (size (String newline "")) with 1. change (size "") with 0. lia.
Qed.

Lemma drafted_stat group r name st : Name r.(phase) = Some name → receipt_valid r = true →
  drafted group (receipt_text r name) st → receipt_stat group st = true.
Proof.
  intros Hn Hv (Hr & Hu & Hg & Hp & Hl & Hs). pose proof (receipt_text_size r name Hn Hv).
  unfold receipt_stat. rewrite Hr, Hp, Hl, Hs, Hu, Hg. rewrite !andb_true_iff. repeat split; lia.
Qed.

Lemma wp_WriteReceipt authority group r t (Q : bool → disk_tree → Prop) E K :
  (∀ t', rewritten authority r t t' → K t' ∧ Q false t') → (∀ t', in_place authority group r t t' → Q true t') →
  wp (WriteReceipt authority group r) Q E K t.
Proof.
  intros HF HT. assert (Hsame : rewritten authority r t t) by (split; [done|by left]). unfold WriteReceipt.
  destruct (Name r.(phase)) as [name|] eqn:Hn; [|by apply wp_ret, HF].
  destruct (receipt_valid r) eqn:Hv; [|by apply wp_ret, HF]. cbn [negb].
  apply wp_bind, wp_sys; [by apply HF|]. intros [e|]; [by apply wp_ret, HF|]. rewrite bool_decide_eq_true_2 by done.
  cbn [negb]. apply wp_bind, wp_random. intros b. apply wp_bind, wp_sys; [by apply HF|].
  intros [e|]; [by apply wp_ret, HF|]. rewrite bool_decide_eq_true_2 by done. cbn [negb].
  set (tmp := authority ++ [receipt_temporary b]).
  assert (Hstop : ∀ t', rewritten authority r t t' →
    wp (unlinkat authority (receipt_temporary b);; mret false) Q E K t').
  { intros t' Ht'. apply wp_bind, wp_sys_do; [by apply HF|intros e; by apply wp_ret, HF|].
    apply wp_ret, HF. destruct Ht' as [Ho Hr]. rewrite <- (lookup_delete_ne t' tmp) in Hr.
    2: { intros E0%app_inj_tail. destruct E0. by eapply temporary_ne. }
    split; [|exact Hr]. intros q Hq Hqt. rewrite lookup_delete_ne by (intros <-; by eapply Hqt). by apply Ho. }
  apply wp_bind. unfold create_at. apply wp_bind, wp_look. fold tmp. destruct (t !! tmp) as [n0|] eqn:Ht0.
  { cbv beta iota. apply wp_bind, wp_sys; [by apply HF|]. intros r0. by apply wp_ret, wp_ret, HF. }
  cbv beta iota. apply wp_sys_do; [by apply HF|intros e; by apply wp_ret, HF|].
  set (t1 := <[tmp := _]> t). assert (Ho1 : only_at tmp t t1) by (by apply only_at_insert).
  assert (Hon : ∀ t', only_at tmp t1 t' → rewritten authority r t t').
  { intros t' Ht'. eapply rewritten_only. intros q Hq. by rewrite Ht', Ho1 by done. }
  apply wp_bind, wp_try, (wp_write_file authority b group (receipt_text r name) t1).
  - intros t' Ht'. by apply HF, Hon.
  - intros s t' _ Ht'. apply wp_ret. by apply Hstop, Hon.
  - intros t' (st & Hd & Hst) Hoth.
    assert (Hrw : rewritten authority r t t').
    { split; [|right; by eexists _, _]. intros q Hq Hqt. rewrite Hoth, Ho1; [done|by apply Hqt|done|by apply Hqt]. }
    split_and!; [by apply HF|intros s _; apply wp_ret; by apply Hstop|]. apply wp_ret, HT. split; [done|].
    eexists _, _. split_and!; [done..|by eapply drafted_stat|apply Hd].
  - eexists. split; [apply lookup_insert_eq|]. simpl. by rewrite new_file_mode.
Qed.

(** Calls that all succeed. *)
Definition calm : Prop := ∀ n, os_next n = SysOk.

Lemma calm_sys n t : calm → sys (mkDisk t n) = (mkDisk t (S n), Done None).
Proof. intros Hc. unfold sys. simpl. by rewrite Hc. Qed.

Lemma calm_read authority group t st data n : calm →
  t !! (authority ++ [kName]) = Some (NFile st data) → receipt_stat group st = true → st.(st_size) = size data →
  (ReadReceipt authority group (mkDisk t n)).2 = Done (Parse data).
Proof.
  intros Hc Ht Hst Hz. unfold ReadReceipt, openat, fstat, look, mbind, F_bind, mret, F_ret.
  rewrite calm_sys by done. cbn [tree]. rewrite Ht, calm_sys by done. cbn [tree]. rewrite Ht. cbn [mbind option_bind node_stat].
  rewrite Hst. cbn [negb]. rewrite calm_sys by done. cbn [tree]. rewrite Ht. cbn [content].
  rewrite bool_decide_eq_true_2, Hz, Z.ltb_irrefl by done. cbn [negb orb]. rewrite calm_sys by done.
  by rewrite bool_decide_eq_true_2.
Qed.

End spec.

(** ** Theorems *)

(** The replacement of a receipt is atomic.  Wherever [WriteReceipt] ends,
    killed at any system call included, it does not throw, nothing but the
    receipt and temporary files has changed, and the directory holds the
    receipt it held or the new one; when it returned [true] it is the new one,
    which a later reading by the same group returns if its calls succeed. *)
Theorem WriteReceipt_atomic `{Os} `{Random} authority group r t n d e :
  WriteReceipt authority group r (mkDisk t n) = (d, e) →
  (∀ q, q ≠ authority ++ [kName] → (∀ b, q ≠ authority ++ [receipt_temporary b]) → d.(tree) !! q = t !! q) ∧
  (stored_receipt authority d.(tree) = stored_receipt authority t ∨
   stored_receipt authority d.(tree) = Some r) ∧
  (∀ s, e ≠ Failed s) ∧
  (e = Done true → stored_receipt authority d.(tree) = Some r ∧
     ∀ (os : Os) m, @calm os → (@ReadReceipt os authority group (mkDisk d.(tree) m)).2 = Done (Some r)).
Proof.
  intros Hw.
  assert (Hst : ∀ t', rewritten authority r t t' →
    (∀ q, q ≠ authority ++ [kName] → (∀ b, q ≠ authority ++ [receipt_temporary b]) → t' !! q = t !! q) ∧
    (stored_receipt authority t' = stored_receipt authority t ∨ stored_receipt authority t' = Some r)).
  { intros t' [Ho Hr]. split; [done|]. unfold stored_receipt. destruct Hr as [-> | (st & name & Hn & Hv & ->)]; [by left|].
    right. apply Parse_canonical. eauto. }
  pose proof (wp_WriteReceipt authority group r t
    (λ b t', (b = false → rewritten authority r t t') ∧ (b = true → in_place authority group r t t'))
    (λ _ _, False) (rewritten authority r t)) as Hwp.
  specialize (Hwp ltac:(by intros; split) ltac:(by intros; split) n). rewrite Hw in Hwp.
  destruct e as [b|s|]; [|done|by destruct (Hst _ Hwp)].
  destruct b; [|destruct Hwp as [Hwp _]; by destruct (Hst _ (Hwp eq_refl))].
  destruct Hwp as [_ Hwp]. destruct (Hwp eq_refl) as [Hrw (st & name & Hn & Hv & Hf & Hs & Hz)].
  destruct (Hst _ Hrw) as [Ho Hor]. assert (Hp : Parse (receipt_text r name) = Some r) by (apply Parse_canonical; eauto).
  split_and!; [done|done|done|]. intros _. unfold stored_receipt. rewrite Hf. split; [done|].
  intros os m Hc. rewrite <- Hp. by eapply calm_read.
Qed.
