(* ===== verification/Storage.v ===== *)
(** * The storage helper (src/tools/storage_prepare.cc)

    The command that the package and the service unit run as root: it creates
    the receipt of a fresh installation, prepares the two directories before
    every start of the daemon, migrates a first release and completes the
    first start.  Runs are over the disk of [Offline]; the product build is
    modelled.  [std::runtime_error] is a failure, whose text is only printed.
    Labels ([fsetxattr]) and locks ([flock]) are system calls that succeed or
    fail.  What the helper asks of the system is the class [Host]; a path given
    to [lstat] has no symbolic link among its ancestors. *)
From S2P Require Import Prelude Strings Platform Message Wire Packing Localization Registration.
From S2P Require Import Identity ProfileConfig Offline OfflineSpec Recovery.
From Stdlib Require Import Ascii.
Import offline.

(** ** Other processes *)

(** A child whose output is polled: whether it could be started, the bytes
    and the end seen at each attempt, what is read after its end, and its exit
    code if it exited. *)
Record Child := mkChild {
  ch_started : bool;
  ch_poll : nat → string * bool;
  ch_rest : list string;
  ch_status : option Z;
}.

Class Host := {
  (** [sd_pid_get_unit(0)]. *)
  host_unit : option string;
  (** [getenv("INVOCATION_ID")]. *)
  host_invocation : option string;
  (** [getpwnam]: user and group. *)
  host_account : option (Z * Z);
  (** [uname]: the machine. *)
  host_machine : option string;
  host_rpm : Child;
  host_systemctl : Child;
}.

(** The polling loop from attempt [i] on: the output and whether the end of
    the child was seen. *)
Fixpoint child_poll (attempts : nat) (limit : Z) (c : Child) (i : nat) (output : string) : string * bool :=
  match attempts with
  | O => (output, false)
  | S attempts' =>
      let '(bytes, exited) := c.(ch_poll) i in
      let output := output +:+ bytes in
      if size output >? limit then (output, false)
      else if exited then (output, true)
      else child_poll attempts' limit c (S i) output
  end.

(** The reads after the end of the child. *)
Fixpoint child_drain (limit : Z) (chunks : list string) (output : string) : string :=
  match chunks with
  | [] => output
  | bytes :: chunks' =>
      if empty bytes then output
      else
        let output := output +:+ bytes in
        if size output <=? limit then child_drain limit chunks' output else output
  end.

Definition CONSENT_STATE_DIR : string := "/opt/var/lib/consentd".
Definition CONSENT_SERVICE_UNIT : string := "consentd.service".
Definition CONSENT_MIGRATION_ANCHOR : string := "/etc/consent/bootstrap-upgrade-7".
Definition CONSENT_RPM_NAME : string := "consentd".

(** [isspace] and the fields that [>>] extracts. *)
Definition is_space (c : ascii) : bool :=
  bool_decide (c = " "%char) || ((9 <=? ascii_Z c) && (ascii_Z c <=? 13)).

Fixpoint fields_loop (s word : string) : list string :=
  match s with
  | EmptyString => if empty word then [] else [word]
  | String c s' =>
      if is_space c then (if empty word then id else cons word) (fields_loop s' "")
      else fields_loop s' (word +:+ String c "")
  end.

Definition fields (line : string) : list string := fields_loop line "".

(** The lines of the query: how often each release is installed. *)
Fixpoint rpm_lines (fuel : nat) (machine data : string) (old_count new_count : Z) : option (Z * Z) :=
  match fuel with
  | O => None
  | S fuel' =>
      if empty data then Some (old_count, new_count)
      else
        let (line, rest) := getline data in
        match fields line with
        | [name; version; arch] =>
            if negb (eqs name CONSENT_RPM_NAME) || negb (eqs arch machine) then None
            else if eqs version "0.1.0-7" then rpm_lines fuel' machine rest (old_count + 1) new_count
            else if eqs version "0.1.0-8" then rpm_lines fuel' machine rest old_count (new_count + 1)
            else None
        | _ => None
        end
  end.

Section processes.
Context `{Host}.

Definition RpmUpgradePair : bool :=
  let c := host_rpm in
  if negb c.(ch_started) then false
  else
    let '(output, exited) := child_poll 40 256 c 0 "" in
    if negb exited then false
    else
      let output := child_drain 256 c.(ch_rest) output in
      if negb (bool_decide (c.(ch_status) = Some 0)) || (size output >? 256) then false
      else
        match host_machine with
        | None => false
        | Some machine =>
            match rpm_lines (S (String.length output)) machine output 0 0 with
            | Some (old_count, new_count) => (old_count =? 1) && (new_count =? 1)
            | None => false
            end
        end.

Definition Stopped : bool :=
  let c := host_systemctl in
  if negb c.(ch_started) then false
  else
    let '(output, finished) := child_poll 60 32 c 0 "" in
    finished && bool_decide (c.(ch_status) = Some 0) && eqs output ("0" +:+ String newline "").

Definition InUnit (unit : string) : bool := bool_decide (host_unit = Some unit).
End processes.

(** ** Files *)

(** A descriptor is [None] when it is not open. *)
Record Entry := mkEntry { en_name : string; en_fd : option path; en_identity : file_stat }.

Definition no_stat : file_stat := mk_file_stat 0 0 0 0 0 0 0 0 0.
Definition link_stat : file_stat := mk_file_stat 0 0 41471 0 1 0 0 0 0.

(** [q] is below the directory [p]. *)
Definition below (p q : path) : bool := bool_decide (take (length p) q = p ∧ q ≠ p).

(** A new directory is empty. *)
Definition add_directory (p : path) (st : file_stat) (t : disk_tree) : disk_tree :=
  <[p := NDir st]> (filter (λ e, below p e.1 = false) t).

Definition StateName (name : string) : bool :=
  if eqs name "definitions.registry" || starts_with ".registry-" name then true
  else existsb (λ prefix, eqs name prefix || starts_with (prefix +:+ ".retired-") name)
         ["consent.db"; "consent.db-journal"; "consent.db-wal"; "consent.db-shm"].

(** The components of a normalized absolute path. *)
Fixpoint split_loop (s word : string) : path :=
  match s with
  | EmptyString => [word]
  | String c s' => if bool_decide (c = "/"%char) then word :: split_loop s' "" else split_loop s' (word +:+ String c "")
  end.

Definition split_path (s : string) : path := split_loop (drop_str 1 s) "".

Section storage.
Context `{Os} `{Random} `{Host}.

Definition must (condition : bool) : F () := Require condition refused.

Definition Label (p : path) : F () := r ← sys; need r.

(** [mkdirat(dir, name, 0700)]. *)
Definition make_directory (dir : path) (name : string) : F (option Z) :=
  n ← look (dir ++ [name]);
  match n with
  | Some _ => r ← sys; mret (Some (default EEXIST r))
  | None => sys_do (add_directory (dir ++ [name]) (new_stat 16384 448))
  end.

(** [openat] with [O_CREAT | O_EXCL]. *)
Definition create_file (dir : path) (name : string) (mode : Z) : F (option Z) :=
  n ← look (dir ++ [name]);
  match n with
  | Some _ => r ← sys; mret (Some (default EEXIST r))
  | None => sys_do (<[dir ++ [name] := NFile (new_stat 32768 mode) ""]>)
  end.

(** [lstat] and [fstatat(..., AT_SYMLINK_NOFOLLOW)]: the attributes or [errno]. *)
Definition lstat (p : path) : F (Z + file_stat) :=
  r ← sys;
  match r with
  | Some e => mret (inl e)
  | None =>
      n ← look p;
      mret match n with None => inl ENOENT | Some n => inr (default link_stat (node_stat n)) end
  end.

Definition absent (r : Z + file_stat) : bool := bool_decide (r = inl ENOENT).

(** *** Directory *)

Definition directory_valid (st : file_stat) (last : bool) (permitted_owner : Z) : bool :=
  ((st.(st_uid) =? 0) || (last && (st.(st_uid) =? permitted_owner))) && (Z.land st.(st_mode) 18 =? 0).

(** Open one component: whether it was created. *)
Definition open_directory (parent : path) (name : string) (create : bool) : F bool :=
  r ← openat parent name true;
  match r with
  | None => mret false
  | Some e =>
      if (e =? ENOENT) && create then
        made ← make_directory parent name;
        need made;;
        r ← openat parent name true;
        need r;;
        mret true
      else fail refused
  end.

(** The loop on the bytes of the path from [offset] on. *)
Fixpoint directory_loop (fuel : nat) (parent : path) (rest : string) (permitted_owner : Z) (create : bool)
    (group mode : Z) : F path :=
  match fuel with
  | O => fail refused
  | S fuel' =>
      if empty rest then fail refused
      else
        let end_ := find_char "/" rest in
        let last := bool_decide (end_ = None) in
        let name := match end_ with None => rest | Some n => take_str n rest end in
        let child := parent ++ [name] in
        must (negb (empty name) && negb (eqs name ".") && negb (eqs name ".."));;
        created ← open_directory parent name (create && last);
        st ← fstat child;
        let st := default no_stat st in
        must (S_ISDIR st.(st_mode));;
        must (directory_valid st last permitted_owner);;
        (if created : bool then own child 0 group mode;; Label child else mret ());;
        match end_ with
        | None => fsync child;; fsync parent;; mret child
        | Some n =>
            r ← sys;
            need r;;
            directory_loop fuel' child (drop_str (S n) rest) permitted_owner create group mode
        end
  end.

Definition Directory (p : string) (permitted_owner : Z) (create : bool) (group mode : Z) : F path :=
  must (negb (empty p) && front_is "/" p && negb (back_is "/" p));;
  r ← sys;
  need r;;
  directory_loop (String.length p) [] (drop_str 1 p) permitted_owner create group mode.

(** *** Entries *)

Definition file_valid (st : file_stat) (selected forbidden : Z) : bool :=
  S_ISREG st.(st_mode) && (st.(st_nlink) =? 1) && ((st.(st_uid) =? 0) || (st.(st_uid) =? selected)) &&
  (Z.land st.(st_mode) forbidden =? 0).

Definition File (dir : path) (name : string) (selected forbidden : Z) (optional : bool) : F Entry :=
  r ← openat dir name false;
  match r with
  | Some e => if optional && (e =? ENOENT) then mret (mkEntry name None no_stat) else fail refused
  | None =>
      st ← fstat (dir ++ [name]);
      match st with
      | None => fail refused
      | Some st => must (file_valid st selected forbidden);; mret (mkEntry name (Some (dir ++ [name])) st)
      end
  end.

Definition SameEntry (dir : path) (entry : Entry) : F () :=
  r ← lstat (dir ++ [entry.(en_name)]);
  must match r with
       | inl _ => false
       | inr st => (st.(st_dev) =? entry.(en_identity).(st_dev)) &&
                   (st.(st_ino) =? entry.(en_identity).(st_ino)) && S_ISREG st.(st_mode) && (st.(st_nlink) =? 1)
       end.

Definition Ownership (entry : Entry) (user group mode : Z) : F () :=
  match entry.(en_fd) with
  | None => fail refused
  | Some p => own p user group mode;; Label p;; fsync p
  end.

Definition Lock (dir : path) (name : string) (group mode : Z) : F path :=
  made ← create_file dir name mode;
  r ← match made with
      | Some e => if e =? EEXIST then openat dir name false else mret (Some e)
      | None => mret None
      end;
  need r;;
  st ← fstat (dir ++ [name]);
  let st := default no_stat st in
  must (S_ISREG st.(st_mode) && (st.(st_uid) =? 0) && (st.(st_nlink) =? 1) && (Z.land st.(st_mode) 95 =? 0));;
  r ← sys;
  need r;;
  (if bool_decide (made = None) || negb (st.(st_gid) =? group) || negb (Z.land st.(st_mode) 511 =? mode)
   then own (dir ++ [name]) 0 group mode else mret ());;
  Label (dir ++ [name]);;
  fsync (dir ++ [name]);;
  fsync dir;;
  mret (dir ++ [name]).

Definition Contents (entry : Entry) : F string :=
  let count := entry.(en_identity).(st_size) in
  must ((0 <? count) && (count <=? 1048576));;
  r ← sys;
  need r;;
  n ← look (default [] entry.(en_fd));
  must (count <=? size (content n));;
  mret (take_str (Z.to_nat count) (content n)).

(** *** PrepareRegistrations *)

Fixpoint registration_entries (dir : path) (names : list string) (bytes records : Z) (entries : list Entry)
  : F (list Entry) :=
  r ← sys;
  need r;;
  match names with
  | [] => mret entries
  | name :: names' =>
      let record := RegistrationName name in
      must (record || PendingRegistrationName name);;
      must (Z.of_nat (length entries) <? kMaxRegistrationEntries);;
      entry ← File dir name 0 3679 false;
      let count := entry.(en_identity).(st_size) in
      must ((0 <=? count) && (count <=? kMaxRegistrationFileBytes));;
      let bytes := bytes + count in
      let records := records + (if record then 1 else 0) in
      must ((bytes <=? kMaxRegistrationBytes) && (records <=? kMaxRegistrations));;
      registration_entries dir names' bytes records (entries ++ [entry])
  end.

Fixpoint adopt (dir : path) (entries : list Entry) (user group mode : Z) : F () :=
  match entries with
  | [] => mret ()
  | entry :: entries' =>
      SameEntry dir entry;;
      Ownership entry user group mode;;
      adopt dir entries' user group mode
  end.

Definition PrepareRegistrations (authority : path) (group : Z) : F () :=
  let dir := authority ++ [kRegistrationDirectory] in
  r ← openat authority kRegistrationDirectory true;
  match r with
  | Some e => if e =? ENOENT then mret () else fail refused
  | None =>
      st ← fstat dir;
      let st := default no_stat st in
      must (S_ISDIR st.(st_mode) && (st.(st_uid) =? 0) && (Z.land st.(st_mode) 23 =? 0));;
      r ← sys;
      need r;;
      names ← readdir_names dir;
      entries ← registration_entries dir names 0 0 [];
      adopt dir entries 0 group 416;;
      own dir 0 group 488;;
      Label dir;;
      fsync dir;;
      fsync authority
  end.

(** *** The pair and the receipt *)

(** Whether the attributes are right and whether the file is present. *)
Definition PairFile (dir : path) (name : string) (user group : Z) : F (bool * bool) :=
  r ← lstat (dir ++ [name]);
  match r with
  | inl e => must (e =? ENOENT);; mret (true, false)
  | inr st => mret (S_ISREG st.(st_mode) && (st.(st_uid) =? user) && (st.(st_gid) =? group) &&
                    (permissions st =? 384) && (st.(st_nlink) =? 1), true)
  end.

(** [None] is [false]. *)
Definition Pair (state : path) (user group : Z) : F (option (bool * bool)) :=
  '(valid, registry) ← PairFile state "definitions.registry" user group;
  if negb valid then mret None
  else
    '(valid, database) ← PairFile state "consent.db" user group;
    mret (if valid : bool then Some (registry, database) else None).

Definition RandomId : F string :=
  r ← sys;
  need r;;
  bytes ← random_bytes 16;
  r ← sys;
  need r;;
  mret (hex_bytes bytes).

Definition ProtectReceipt (authority : path) (group : Z) : F () :=
  entry ← File authority kName 0 95 false;
  let st := entry.(en_identity) in
  must ((st.(st_uid) =? 0) && (st.(st_gid) =? group) && (permissions st =? 416));;
  Label (authority ++ [kName]);;
  fsync (authority ++ [kName]);;
  fsync authority.

Definition PersistReceipt (authority : path) (group : Z) (receipt : Receipt) : F () :=
  ok ← WriteReceipt authority group receipt;
  must ok;;
  ProtectReceipt authority group.

(** [ReadReceipt] that must succeed. *)
Definition the_receipt (authority : path) (group : Z) : F Receipt :=
  r ← ReadReceipt authority group;
  match r with None => fail refused | Some receipt => mret receipt end.

Definition the_pair (state : path) (user group : Z) : F (bool * bool) :=
  r ← Pair state user group;
  match r with None => fail refused | Some found => mret found end.

Definition BootstrapPreflight (authority state : path) (user group : Z) : F () :=
  must (InUnit CONSENT_SERVICE_UNIT);;
  '(registry, database) ← the_pair state user group;
  receipt ← the_receipt authority group;
  must (negb (bool_decide (receipt.(phase) = kAbsent)));;
  must (eqs receipt.(unit_) CONSENT_SERVICE_UNIT);;
  if bool_decide (receipt.(phase) = kFresh) then
    must (negb registry && negb database);;
    match host_invocation with
    | None => fail refused
    | Some invocation =>
        must (HexId invocation 32);;
        nonce ← RandomId;
        PersistReceipt authority group (mkReceipt kClaimed receipt.(unit_) invocation nonce)
    end
  else
    must registry;;
    must (bool_decide (receipt.(phase) = kInitialized));;
    ProtectReceipt authority group.

(** *** Prepare *)

(** The receipt allows a preparation, and the state directory agrees with it. *)
Definition prior_receipt (authority : path) (group : Z) (state_path : string) : F () :=
  prior ← the_receipt authority group;
  must (negb (bool_decide (prior.(phase) = kAbsent)) && negb (bool_decide (prior.(phase) = kClaimed)) &&
        negb (bool_decide (prior.(phase) = kRecoveryRequired)) && negb (bool_decide (prior.(phase) = kInvalid)));;
  observed ← lstat (split_path state_path);
  if bool_decide (prior.(phase) = kFresh) then must (absent observed)
  else must match observed with inl _ => false | inr st => S_ISDIR st.(st_mode) end.

Fixpoint state_entries (state : path) (names : list string) (user : Z) (entries : list Entry) : F (list Entry) :=
  r ← sys;
  need r;;
  match names with
  | [] => mret entries
  | name :: names' =>
      if eqs name "installations.conf" || eqs name "installations.lock" then
        state_entries state names' user entries
      else
        must (StateName name);;
        entry ← File state name user 127 false;
        state_entries state names' user (entries ++ [entry])
  end.

(** The move of the inventory out of the state directory. *)
Definition move_authority (authority state : path) (old_authority new_authority : Entry) (group : Z) : F () :=
  match old_authority.(en_fd), new_authority.(en_fd) with
  | Some _, Some _ =>
      a ← Contents old_authority;
      b ← Contents new_authority;
      must (eqs a b);;
      SameEntry state old_authority;;
      SameEntry authority new_authority;;
      Ownership new_authority 0 group 416;;
      r ← unlinkat state "installations.conf";
      need r;;
      fsync authority;;
      fsync state
  | Some _, None =>
      SameEntry state old_authority;;
      Ownership old_authority 0 group 416;;
      r ← sys_do (rename_node (state ++ ["installations.conf"]) (authority ++ ["installations.conf"]));
      need r;;
      fsync authority;;
      fsync state
  | None, Some _ =>
      SameEntry authority new_authority;;
      Ownership new_authority 0 group 416
  | None, None => mret ()
  end.

Definition lock_legacy (old_lock : Entry) : F () :=
  match old_lock.(en_fd) with
  | None => mret ()
  | Some _ => r ← sys; need r
  end.

Definition retire_lock (state : path) (old_lock : Entry) : F () :=
  match old_lock.(en_fd) with
  | None => mret ()
  | Some _ => SameEntry state old_lock;; r ← unlinkat state "installations.lock"; need r
  end.

(** From the inventory of both directories to their ownership. *)
Definition prepare_state (authority state : path) (user group : Z) : F () :=
  st ← fstat state;
  must (bool_decide (is_Some st));;
  let state_identity := default no_stat st in
  old_authority ← File state "installations.conf" 0 95 true;
  new_authority ← File authority "installations.conf" 0 95 true;
  must (bool_decide (old_authority.(en_fd) = None) || (state_identity.(st_uid) =? 0));;
  old_lock ← File state "installations.lock" 0 127 true;
  lock_legacy old_lock;;
  Lock authority "installations.lock" group 384;;
  PrepareRegistrations authority group;;
  r ← sys;
  need r;;
  names ← readdir_names state;
  entries ← state_entries state names user [];
  move_authority authority state old_authority new_authority group;;
  adopt state entries user group 384;;
  retire_lock state old_lock;;
  Label authority;;
  Label state;;
  own authority 0 group 488;;
  fsync authority;;
  own state user group 448;;
  fsync state.

Definition Prepare (state_path authority_path : string) (user group : Z) (bootstrap : bool) : F () :=
  must ((os_geteuid =? 0) && negb (user =? 0));;
  must (negb (eqs state_path authority_path));;
  authority ← Directory authority_path 0 true group 488;
  Lock authority "lifecycle.lock" group 416;;
  (if bootstrap then prior_receipt authority group state_path else mret ());;
  state ← Directory state_path user true 0 448;
  prepare_state authority state user group;;
  if bootstrap then BootstrapPreflight authority state user group else mret ().

(** *** FirstInstall *)

(** The parent and the leaf of an absolute path. *)
Definition split_leaf (p : string) : option (string * string) :=
  slash ← rfind_char "/" p;
  if (0 <? Z.of_nat slash) && (Z.of_nat slash + 1 <? size p)
  then Some (take_str slash p, drop_str (S slash) p) else None.

Definition FirstInstall (state_path authority_path : string) (group : Z) : F () :=
  info ← lstat (split_path state_path);
  must (absent info);;
  match split_leaf authority_path with
  | None => fail refused
  | Some (parent_path, leaf) =>
      parent ← Directory parent_path 0 false 0 0;
      must (negb (eqs leaf ".") && negb (eqs leaf ".."));;
      r ← make_directory parent leaf;
      need r;;
      r ← openat parent leaf true;
      need r;;
      let authority := parent ++ [leaf] in
      own authority 0 group 488;;
      fsync authority;;
      fsync parent;;
      info ← lstat (split_path state_path);
      must (absent info);;
      ok ← WriteReceipt authority group (mkReceipt kFresh CONSENT_SERVICE_UNIT "" "");
      must ok
  end.

(** *** MigrateRelease7 *)

Definition anchor_record : string := "schema=1" +:+ String newline ("from=0.1.0-7" +:+ String newline "").

Definition MigrationAnchor : F () :=
  match split_leaf CONSENT_MIGRATION_ANCHOR with
  | None => fail refused
  | Some (parent_path, leaf) =>
      parent ← Directory parent_path 0 false 0 0;
      r ← create_file parent leaf 384;
      need r;;
      r ← sys_do (alter (append_bytes anchor_record) (parent ++ [leaf]));
      need r;;
      fsync (parent ++ [leaf]);;
      fsync parent
  end.

Definition lock_valid (st : file_stat) (group : Z) : bool :=
  S_ISREG st.(st_mode) && (st.(st_uid) =? 0) && (st.(st_gid) =? group) && (permissions st =? 416) &&
  (st.(st_nlink) =? 1).

(** The pair of the first release, when there is a state directory. *)
Definition migration_pair (state_path : string) (user group : Z) : F (bool * bool) :=
  info ← lstat (split_path state_path);
  must (match info with inr _ => true | inl e => e =? ENOENT end);;
  match info with
  | inl _ => mret (false, false)
  | inr _ => state ← Directory state_path user false 0 448; the_pair state user group
  end.

Definition MigrateRelease7 (state_path authority_path : string) (user group : Z) (fixture : bool) : F () :=
  authority ← Directory authority_path 0 false group 488;
  r ← openat authority "lifecycle.lock" false;
  need r;;
  st ← fstat (authority ++ ["lifecycle.lock"]);
  must match st with None => false | Some st => lock_valid st group end;;
  r ← sys;
  need r;;
  receipt ← the_receipt authority group;
  if bool_decide (receipt.(phase) = kInitialized) then must (eqs receipt.(unit_) CONSENT_SERVICE_UNIT)
  else
    must (bool_decide (receipt.(phase) = kAbsent));;
    must (fixture || RpmUpgradePair);;
    '(registry, database) ← migration_pair state_path user group;
    must (registry && database);;
    MigrationAnchor;;
    ok ← WriteReceipt authority group
           (mkReceipt (if registry && database then kInitialized else kRecoveryRequired)
              CONSENT_SERVICE_UNIT receipt.(invocation) receipt.(nonce));
    must ok.

(** *** CompleteBootstrap *)

Definition CompleteBootstrap (state_path authority_path : string) (user group : Z) : F () :=
  must (InUnit CONSENT_SERVICE_UNIT);;
  authority ← Directory authority_path 0 false group 488;
  state ← Directory state_path user false 0 448;
  receipt ← the_receipt authority group;
  must (eqs receipt.(unit_) CONSENT_SERVICE_UNIT);;
  if bool_decide (receipt.(phase) = kInitialized) then ProtectReceipt authority group
  else
    must (bool_decide (receipt.(phase) = kClaimed) && bool_decide (host_invocation = Some receipt.(invocation)));;
    '(registry, database) ← the_pair state user group;
    must (registry && database);;
    PersistReceipt authority group (mkReceipt kInitialized receipt.(unit_) "" "").

(** *** main *)

Definition image_flag : string := "--image-root=".

(** The first installation, of this system or of an image. *)
Definition first_install (image_root : option string) (group : Z) : F () :=
  match image_root with
  | None => FirstInstall CONSENT_STATE_DIR CONSENT_AUTHORITY_DIR group
  | Some root =>
      must ((1 <? size root) && front_is "/" root && negb (back_is "/" root));;
      Directory root 0 false 0 0;;
      FirstInstall (root +:+ CONSENT_STATE_DIR) (root +:+ CONSENT_AUTHORITY_DIR) group
  end.

Inductive command := First (image_root : option string) | Complete | Migrate | Run_.

(** The command of the arguments behind the program's name. *)
Definition parse_command (args : list string) : option command :=
  match args with
  | [] => Some Run_
  | [a] =>
      if eqs a "--first-install" then Some (First None)
      else if eqs a "--complete" then Some Complete
      else if eqs a "--migrate-release7" then Some Migrate else None
  | [a; b] =>
      if eqs a "--first-install" && starts_with image_flag b
      then Some (First (Some (drop_str (String.length image_flag) b))) else None
  | _ => None
  end.

Definition command_run (c : command) (user group : Z) : F () :=
  match c with
  | First image_root => first_install image_root group
  | Complete => CompleteBootstrap CONSENT_STATE_DIR CONSENT_AUTHORITY_DIR user group
  | Migrate => must Stopped;; MigrateRelease7 CONSENT_STATE_DIR CONSENT_AUTHORITY_DIR user group false
  | Run_ => must Stopped;; Prepare CONSENT_STATE_DIR CONSENT_AUTHORITY_DIR user group true
  end.

(** The exit code. *)
Definition main (args : list string) : F Z :=
  try (
    must (os_geteuid =? 0);;
    match parse_command args with
    | None => fail refused
    | Some c =>
        match host_account with
        | None => fail refused
        | Some (user, group) =>
            must (negb (user =? 0));;
            command_run c user group;;
            mret 0
        end
    end)
  (λ _, mret 1).
End storage.
