(* ===== verification/StorageSpec.v ===== *)
(** * What the storage helper keeps

    A calculus for runs of the helper that keep a relation to the disk they
    started on, whether they return, refuse or are killed: [safe].  The
    operations that only change attributes, create files and directories or
    read are proved safe once, for every relation that allows the changes at
    the paths they touch. *)
From S2P Require Import Prelude Strings Platform Message Wire Packing Localization Registration.
From S2P Require Import Identity ProfileConfig Offline OfflineSpec Recovery Storage.
From Stdlib Require Import Ascii.
Import offline.

(** ** Paths *)

Lemma split_loop_word s word :
  split_loop s word = match find_char "/" s with
                      | None => [word +:+ s]
                      | Some n => (word +:+ take_str n s) :: split_loop (drop_str (S n) s) ""
                      end.
Proof.
  revert word. induction s as [|c s IH]; intros word; simpl; [by rewrite app_nil_r_s|].
  case_bool_decide; [by rewrite app_nil_r_s|]. rewrite IH.
  destruct (find_char "/" s) as [n|]; simpl; by rewrite app_assoc_s.
Qed.

Lemma below_app p x q : below p (p ++ x :: q) = true.
Proof.
  apply bool_decide_eq_true. split; [apply take_app_length|]. intros E. apply (f_equal length) in E.
  rewrite length_app in E. simpl in E. lia.
Qed.

Lemma below_Some p q : below p q = true ↔ ∃ x l, q = p ++ x :: l.
Proof.
  split; [|intros (x & l & ->); apply below_app]. intros [Ht Hne]%bool_decide_eq_true.
  destruct (drop (length p) q) as [|x l] eqn:Hd.
  - exfalso. apply Hne. rewrite <- (take_drop (length p) q), Ht, Hd. apply app_nil_r.
  - exists x, l. by rewrite <- (take_drop (length p) q), Ht, Hd at 1.
Qed.

Lemma lookup_add_directory p st (t : disk_tree) q :
  add_directory p st t !! q = if bool_decide (q = p) then Some (NDir st) else if below p q then None else t !! q.
Proof.
  unfold add_directory. case_bool_decide as Hq; [subst; apply lookup_insert_eq|]. rewrite lookup_insert_ne by done.
  destruct (below p q) eqn:Hb.
  - apply map_lookup_filter_None. right. intros n _. simpl. congruence.
  - destruct (t !! q) as [n|] eqn:Hn; [by apply map_lookup_filter_Some|]. apply map_lookup_filter_None. by left.
Qed.

(** ** Readers *)

Section readers.
Context `{Os} `{!OsLaws} `{Random} `{Host}.

Lemma reader_must c : reader (must c) (λ _ _, c = true).
Proof. by apply reader_Require. Qed.

Lemma reader_Label p : reader (Label p) (λ _ _, True).
Proof. apply reader_fsync. Qed.

Lemma reader_lstat p :
  reader (lstat p) (λ r t, (r = inl ENOENT → t !! p = None) ∧
    ∀ st, r = inr st → ∃ n, t !! p = Some n ∧ st = default link_stat (node_stat n)).
Proof.
  unfold lstat. eapply (reader_bind _ _ (λ r _, r ≠ Some ENOENT)).
  - intros t Q E K HK HE HQ n. unfold sys. simpl. destruct (os_next n) as [|e|] eqn:Hn; simpl; [by apply HQ| |done].
    apply HQ. intros [= ->]. by apply errno_real in Hn as [].
  - intros [e|]; simpl.
    + eapply reader_weaken; [apply reader_ret|]. intros a t -> Hne. split; [|done]. intros [= ->]. done.
    + eapply reader_bind; [apply reader_look|]. intros n.
      eapply reader_weaken; [apply reader_ret|]. intros a t -> -> _. destruct (t !! p) as [n|]; [|done].
      split; [done|]. intros st [= <-]. eauto.
Qed.

Lemma reader_File dir name selected forbidden optional :
  reader (File dir name selected forbidden optional)
    (λ e t, e.(en_name) = name ∧ (e.(en_fd) = None → t !! (dir ++ [name]) = None) ∧
       (e.(en_fd) = None ∨ e.(en_fd) = Some (dir ++ [name]) ∧
          ∃ n, t !! (dir ++ [name]) = Some n ∧ node_stat n = Some e.(en_identity)) ∧
       (optional = false → is_Some e.(en_fd))).
Proof.
  unfold File. eapply reader_bind; [apply reader_openat_absent|]. intros [e|].
  - destruct (optional && (e =? ENOENT)) eqn:Ho; [|eapply reader_weaken; [by apply reader_fail|done]].
    bool_hyps. apply Z.eqb_eq in H4 as ->. eapply reader_weaken; [apply reader_ret|].
    intros a t -> [Ha _]. simpl. split_and!; [done|auto|by left|by subst].
  - eapply reader_bind; [apply reader_fstat|]. intros [st|]; [|eapply reader_weaken; [by apply reader_fail|done]].
    eapply reader_bind; [apply reader_must|]. intros [].
    eapply reader_weaken; [apply reader_ret|]. intros a t -> _ Hst _. simpl.
    split_and!; [done|done| |eauto]. right. eauto.
Qed.

Lemma reader_SameEntry dir e : reader (SameEntry dir e) (λ _ _, True).
Proof.
  unfold SameEntry. eapply reader_bind; [apply reader_lstat|]. intros r.
  eapply reader_weaken; [apply reader_must|done].
Qed.

Lemma reader_Contents e p :
  e.(en_fd) = Some p → reader (Contents e) (λ s t, s = take_str (Z.to_nat e.(en_identity).(st_size)) (content (t !! p)) ∧
    e.(en_identity).(st_size) ≤ size (content (t !! p))).
Proof.
  intros Hp. unfold Contents. rewrite Hp. simpl. eapply reader_bind; [apply reader_must|]. intros [].
  eapply reader_bind; [apply reader_sys|]. intros r. eapply reader_bind; [apply reader_need|]. intros [].
  eapply reader_bind; [apply reader_look|]. intros n. eapply reader_bind; [apply reader_must|]. intros [].
  eapply reader_weaken; [apply reader_ret|]. intros a t -> Hz -> _ _ _. split; [done|lia].
Qed.

(** A file of the pair is there, with the attributes that the daemon gave it. *)
Definition pair_file (p : path) (user group : Z) (t : disk_tree) : Prop :=
  ∃ n st, t !! p = Some n ∧ node_stat n = Some st ∧ S_ISREG st.(st_mode) = true ∧ st.(st_uid) = user ∧
    st.(st_gid) = group ∧ permissions st = 384 ∧ st.(st_nlink) = 1.

Definition pair_state (p : path) (user group : Z) (present : bool) (t : disk_tree) : Prop :=
  if present then pair_file p user group t else t !! p = None.

Lemma reader_PairFile dir name user group :
  reader (PairFile dir name user group) (λ r t, r.1 = true → pair_state (dir ++ [name]) user group r.2 t).
Proof.
  unfold PairFile. eapply reader_bind; [apply reader_lstat|]. intros [e|st].
  - eapply reader_bind; [apply reader_must|]. intros []. eapply reader_weaken; [apply reader_ret|].
    intros a t -> He%Z.eqb_eq [Ha _] _. subst e. by apply Ha.
  - eapply reader_weaken; [apply reader_ret|]. intros a t -> [_ Ha] Hv. simpl in Hv. bool_hyps.
    destruct (Ha st eq_refl) as (n & Hn & Hst). simpl. exists n, st.
    destruct (node_stat n) as [st'|]; simpl in Hst; subst st; [|by vm_compute in H3].
    split_and!; try done; by apply Z.eqb_eq.
Qed.

Lemma reader_the_pair state user group :
  reader (the_pair state user group) (λ r t,
    pair_state (state ++ ["definitions.registry"]) user group r.1 t ∧
    pair_state (state ++ ["consent.db"]) user group r.2 t).
Proof.
  unfold the_pair, Pair. eapply (reader_bind _ _ (λ o t, ∀ r, o = Some r →
    pair_state (state ++ ["definitions.registry"]) user group r.1 t ∧
    pair_state (state ++ ["consent.db"]) user group r.2 t)).
  - eapply reader_bind; [apply reader_PairFile|]. intros [[] registry]; simpl.
    + eapply reader_bind; [apply reader_PairFile|]. intros [[] database]; simpl;
        (eapply reader_weaken; [apply reader_ret|]); intros a t -> H2' H1' r; [|done]. intros [= <-]. auto.
    + eapply reader_weaken; [apply reader_ret|]. by intros a t ->.
  - intros [r|]; [|eapply reader_weaken; [by apply reader_fail|done]].
    eapply reader_weaken; [apply reader_ret|]. intros a t -> Hr. by apply Hr.
Qed.

Lemma reader_the_receipt authority group :
  reader (the_receipt authority group) (λ r t, stored_receipt authority t = Some r).
Proof.
  unfold the_receipt. eapply reader_bind; [apply reader_ReadReceipt|].
  intros [r|]; [|eapply reader_weaken; [by apply reader_fail|done]].
  eapply reader_weaken; [apply reader_ret|]. intros a t -> Hr. by apply Hr.
Qed.

Lemma reader_ProtectReceipt authority group : reader (ProtectReceipt authority group) (λ _ _, True).
Proof.
  unfold ProtectReceipt. eapply reader_bind; [apply reader_File|]. intros e.
  eapply reader_bind; [apply reader_must|]. intros []. eapply reader_bind; [apply reader_Label|]. intros [].
  eapply reader_bind; [apply reader_fsync|]. intros []. eapply reader_weaken; [apply reader_fsync|done].
Qed.

Lemma reader_RandomId : reader RandomId (λ _ _, True).
Proof.
  unfold RandomId. eapply reader_bind; [apply reader_sys|]. intros r.
  eapply reader_bind; [apply reader_need|]. intros []. eapply (reader_bind _ _ (λ _ _, True)).
  { intros t Q E K HK HE HQ. apply wp_random. auto. }
  intros b. eapply reader_bind; [apply reader_sys|]. intros r'. eapply reader_bind; [apply reader_need|]. intros [].
  eapply reader_weaken; [apply reader_ret|done].
Qed.
End readers.

(** ** Safe runs *)

Create HintDb safes discriminated.

Section safe.
Context `{Os} `{!OsLaws} `{Random} `{Host}.
(** The relation that is kept, and the paths at which attributes may change,
    files may appear, and directories may appear. *)
Variable R : disk_tree → disk_tree → Prop.
Context `{!PreOrder R}.
Variables S N D : path → Prop.
Hypothesis R_stat : ∀ p f t, S p → R t (alter (on_stat f) p t).
Hypothesis R_file : ∀ p st t, N p → t !! p = None → R t (<[p := NFile st ""]> t).
Hypothesis R_directory : ∀ p st t, D p → t !! p = None → R t (add_directory p st t).

Definition safe {A} (m : F A) (I : A → Prop) : Prop :=
  ∀ t0 t Q E K, R t0 t → (∀ t', R t0 t' → K t') → (∀ s t', R t0 t' → E s t') →
    (∀ a t', R t0 t' → I a → Q a t') → wp m Q E K t.

Lemma safe_reader {A} (m : F A) I J : reader m I → (∀ a t, I a t → J a) → safe m J.
Proof. intros Hm HI t0 t Q E K Ht HK HE HQ. apply Hm; [by apply HK|auto|]. intros a Ha. apply HQ; [done|]. by eapply HI. Qed.

Lemma safe_weaken {A} (m : F A) I J : safe m I → (∀ a, I a → J a) → safe m J.
Proof. intros Hm HI t0 t Q E K Ht HK HE HQ. eapply Hm; eauto. Qed.

Lemma safe_bind {A B} (m : F A) (k : A → F B) I J : safe m I → (∀ a, I a → safe (k a) J) → safe (m ≫= k) J.
Proof.
  intros Hm Hk t0 t Q E K Ht HK HE HQ. apply wp_bind. eapply Hm; [exact Ht|done|done|].
  intros a t' Ht' Ha. by eapply Hk.
Qed.

Lemma safe_ret {A} (a : A) : safe (mret a) (λ b, b = a).
Proof. intros t0 t Q E K Ht HK HE HQ. by apply wp_ret, HQ. Qed.

Lemma safe_fail {A} s (I : A → Prop) : safe (fail s) I.
Proof. intros t0 t Q E K Ht HK HE HQ. by apply wp_fail, HE. Qed.

Lemma safe_sys_do f : (∀ t, R t (f t)) → safe (sys_do f) (λ _, True).
Proof. intros Hf t0 t Q E K Ht HK HE HQ. apply wp_sys_do; auto. apply HQ; [|done]. by etrans. Qed.

Lemma safe_need r : safe (need r) (λ _, r = None).
Proof. eapply safe_reader; [apply reader_need|done]. Qed.

Lemma safe_must c : safe (must c) (λ _, c = true).
Proof. eapply safe_reader; [apply reader_must|done]. Qed.

Lemma safe_own p user group mode : S p → safe (own p user group mode) (λ _, True).
Proof.
  intros Hp. unfold own, fchown, fchmod.
  eapply safe_bind; [apply safe_sys_do; intros; by apply R_stat|]. intros r _. cbv beta.
  eapply safe_bind; [apply safe_need|]. intros [] _. cbv beta.
  eapply safe_bind; [apply safe_sys_do; intros; by apply R_stat|]. intros r' _. cbv beta.
  eapply safe_weaken; [apply safe_need|done].
Qed.

Lemma safe_create dir name mode : N (dir ++ [name]) → safe (create_file dir name mode) (λ _, True).
Proof.
  intros Hn t0 t Q E K Ht HK HE HQ. unfold create_file. apply wp_bind, wp_look.
  destruct (t !! (dir ++ [name])) eqn:Hl; cbv beta iota.
  - apply wp_bind, wp_sys; [by apply HK|]. intros r. by apply wp_ret, HQ.
  - apply wp_sys_do; [by apply HK|intros e; by apply HQ|]. apply HQ; [|done]. etrans; [exact Ht|]. by apply R_file.
Qed.

Lemma safe_make dir name : D (dir ++ [name]) → safe (make_directory dir name) (λ _, True).
Proof.
  intros Hn t0 t Q E K Ht HK HE HQ. unfold make_directory. apply wp_bind, wp_look.
  destruct (t !! (dir ++ [name])) eqn:Hl; cbv beta iota.
  - apply wp_bind, wp_sys; [by apply HK|]. intros r. by apply wp_ret, HQ.
  - apply wp_sys_do; [by apply HK|intros e; by apply HQ|]. apply HQ; [|done]. etrans; [exact Ht|]. by apply R_directory.
Qed.

Lemma safe_sys : safe sys (λ _, True).
Proof. eapply safe_reader; [apply reader_sys|done]. Qed.
Lemma safe_fsync p : safe (fsync p) (λ _, True).
Proof. eapply safe_reader; [apply reader_fsync|done]. Qed.
Lemma safe_Label p : safe (Label p) (λ _, True).
Proof. apply safe_fsync. Qed.
Lemma safe_openat dir name b : safe (openat dir name b) (λ _, True).
Proof. eapply safe_reader; [apply reader_openat|done]. Qed.
Lemma safe_fstat p : safe (fstat p) (λ _, True).
Proof. eapply safe_reader; [apply reader_fstat|done]. Qed.
Lemma safe_lstat p : safe (lstat p) (λ _, True).
Proof. eapply safe_reader; [apply reader_lstat|done]. Qed.
Lemma safe_SameEntry dir e : safe (SameEntry dir e) (λ _, True).
Proof. eapply safe_reader; [apply reader_SameEntry|done]. Qed.
Lemma safe_File dir name a b c :
  safe (File dir name a b c) (λ e, e.(en_name) = name ∧ (e.(en_fd) = None ∨ e.(en_fd) = Some (dir ++ [name]))).
Proof. eapply safe_reader; [apply reader_File|]. naive_solver. Qed.

Lemma safe_names dir : safe (readdir_names dir) (λ _, True).
Proof. intros t0 t Q E K Ht HK HE HQ n. by apply HQ. Qed.

Lemma safe_Contents e p : e.(en_fd) = Some p → safe (Contents e) (λ _, True).
Proof. intros He. eapply safe_reader; [by eapply reader_Contents|done]. Qed.
End safe.

#[export] Hint Resolve safe_sys safe_fsync safe_Label safe_openat safe_fstat safe_lstat safe_SameEntry safe_need
  safe_must safe_names safe_fail safe_Contents : safes.

(** Go through the binds with the lemmas of the database. *)
Ltac safe_steps :=
  repeat (eapply safe_bind; [solve [eauto with safes typeclass_instances]|intros ? ?; cbv beta]).
Ltac safe_end := eapply safe_weaken; [solve [eauto using safe_ret with safes typeclass_instances]|done].

(** ** The operations *)

Section operations.
Context `{Os} `{!OsLaws} `{Random} `{Host}.
Variable R : disk_tree → disk_tree → Prop.
Context `{!PreOrder R}.
Variables S N D : path → Prop.
Hypothesis R_stat : ∀ p f t, S p → R t (alter (on_stat f) p t).
Hypothesis R_file : ∀ p st t, N p → t !! p = None → R t (<[p := NFile st ""]> t).
Hypothesis R_directory : ∀ p st t, D p → t !! p = None → R t (add_directory p st t).

Let own_safe := safe_own R S R_stat.
Let create_safe := safe_create R N R_file.
Let make_safe := safe_make R D R_directory.

Lemma safe_open_directory parent name create :
  (create = true → D (parent ++ [name])) → safe R (open_directory parent name create) (λ b, b = true → create = true).
Proof.
  intros Hd. unfold open_directory. safe_steps. destruct a as [e|]; [|eapply safe_weaken; [apply safe_ret|by intros b ->]].
  destruct (_ && create) eqn:Hc; [|apply safe_fail]. bool_hyps. subst.
  eapply safe_bind; [apply make_safe; auto|]. intros made _. safe_steps. eapply safe_weaken; [apply safe_ret|done].
Qed.

Lemma safe_directory_loop fuel parent rest owner create group mode :
  (create = true → D (parent ++ split_loop rest "") ∧ S (parent ++ split_loop rest "")) →
  safe R (directory_loop fuel parent rest owner create group mode) (λ p, p = parent ++ split_loop rest "").
Proof.
  revert parent rest. induction fuel as [|fuel IH]; intros parent rest Hd; cbn [directory_loop]; [apply safe_fail|].
  destruct (empty rest); [apply safe_fail|]. rewrite split_loop_word in *.
  destruct (find_char "/" rest) as [n|] eqn:Hf.
  - rewrite bool_decide_eq_false_2, andb_false_r by done. eapply safe_bind; [apply safe_must|]. intros [] _.
    eapply safe_bind; [by apply safe_open_directory|]. intros created Hc. cbv beta in *.
    destruct created; [by discriminate Hc|]. safe_steps.
    eapply safe_bind; [apply safe_ret|]. intros ? _. safe_steps.
    eapply safe_weaken; [apply IH|].
    + rewrite <- app_assoc. exact Hd.
    + intros p ->. by rewrite <- app_assoc.
  - rewrite bool_decide_eq_true_2, andb_true_r by done. eapply safe_bind; [apply safe_must|]. intros [] _.
    eapply safe_bind; [apply safe_open_directory; apply Hd|]. intros created Hc. cbv beta in *. safe_steps.
    eapply (safe_bind R _ _ (λ _, True)).
    { destruct created; [|safe_end]. eapply safe_bind; [apply own_safe; by apply Hd, Hc|]. intros [] _. apply safe_Label. }
    intros [] _. safe_steps. apply safe_ret.
Qed.

Lemma safe_Directory p owner create group mode :
  (create = true → D (split_path p) ∧ S (split_path p)) →
  safe R (Directory p owner create group mode) (λ q, q = split_path p).
Proof. intros Hd. unfold Directory. safe_steps. by apply safe_directory_loop. Qed.

Lemma safe_Lock dir name group mode :
  N (dir ++ [name]) → S (dir ++ [name]) → safe R (Lock dir name group mode) (λ _, True).
Proof.
  intros Hn Hs. unfold Lock. eapply safe_bind; [by apply create_safe|]. intros made _.
  eapply (safe_bind R _ _ (λ _, True)).
  { destruct made as [e|]; [destruct (e =? EEXIST); [apply safe_openat|]|]; safe_end. }
  intros r _. safe_steps. eapply (safe_bind R _ _ (λ _, True)).
  { destruct (_ || _ || _); [by apply own_safe|safe_end]. }
  intros [] _. safe_steps. safe_end.
Qed.

(** The descriptors of entries at which attributes may change. *)
Definition adoptable (e : Entry) : Prop := ∀ p, e.(en_fd) = Some p → S p.

Lemma safe_Ownership e user group mode : adoptable e → safe R (Ownership e user group mode) (λ _, True).
Proof.
  intros He. unfold Ownership. destruct e.(en_fd) as [p|] eqn:Hp; [|apply safe_fail].
  eapply safe_bind; [apply own_safe; by apply He|]. intros [] _. safe_steps. safe_end.
Qed.

Lemma safe_adopt dir entries user group mode :
  Forall adoptable entries → safe R (adopt dir entries user group mode) (λ _, True).
Proof.
  induction 1 as [|e entries He Hes IH]; cbn [adopt]; [safe_end|]. safe_steps.
  eapply safe_bind; [by apply safe_Ownership|]. by intros [] _.
Qed.

Lemma safe_registration_entries dir names bytes records entries :
  (∀ name, S (dir ++ [name])) → Forall adoptable entries →
  safe R (registration_entries dir names bytes records entries) (Forall adoptable).
Proof.
  intros Hs. revert bytes records entries. induction names as [|name names IH]; intros bytes records entries He;
    cbn [registration_entries]; safe_steps; [eapply safe_weaken; [apply safe_ret|by intros ? ->]|].
  eapply safe_bind; [apply safe_File|]. intros e [_ Hfd]. safe_steps. apply IH, Forall_app. split; [done|]. apply Forall_singleton.
  intros p Hp. destruct Hfd as [Hfd|Hfd]; rewrite Hp in Hfd; simplify_eq. apply Hs.
Qed.

Lemma safe_PrepareRegistrations authority group :
  S (authority ++ [kRegistrationDirectory]) →
  (∀ name, S ((authority ++ [kRegistrationDirectory]) ++ [name])) →
  safe R (PrepareRegistrations authority group) (λ _, True).
Proof.
  intros Hd Hs. unfold PrepareRegistrations. safe_steps. destruct a as [e|].
  { destruct (e =? ENOENT); [safe_end|apply safe_fail]. }
  safe_steps. eapply safe_bind; [by apply safe_registration_entries|]. intros entries He.
  eapply safe_bind; [by apply safe_adopt|]. intros [] _. eapply safe_bind; [by apply own_safe|]. intros [] _.
  safe_steps. safe_end.
Qed.

Lemma safe_state_entries state names user entries :
  (∀ name, StateName name = true → S (state ++ [name])) → Forall adoptable entries →
  safe R (state_entries state names user entries) (Forall adoptable).
Proof.
  intros Hs. revert entries. induction names as [|name names IH]; intros entries He;
    cbn [state_entries]; safe_steps; [eapply safe_weaken; [apply safe_ret|by intros ? ->]|].
  destruct (_ || _); [by apply IH|]. eapply safe_bind; [apply safe_must|]. intros [] Hn. cbv beta in Hn.
  eapply safe_bind; [apply safe_File|]. intros e [_ Hfd]. apply IH, Forall_app. split; [done|]. apply Forall_singleton.
  intros p Hp. destruct Hfd as [Hfd|Hfd]; rewrite Hp in Hfd; simplify_eq. by apply Hs.
Qed.
End operations.

(** ** Runs of known ends *)

Lemma wp_and {A} (m : F A) Q Q' E E' K K' t :
  wp m Q E K t → wp m Q' E' K' t →
  wp m (λ a t', Q a t' ∧ Q' a t') (λ s t', E s t' ∧ E' s t') (λ t', K t' ∧ K' t') t.
Proof. intros H1 H2 n. specialize (H1 n). specialize (H2 n). by destruct (m _) as [d [a|s|]]. Qed.

Lemma safe_wp `{Os} (R : disk_tree → disk_tree → Prop) `{!PreOrder R} {A} (m : F A) I t :
  safe R m I → wp m (λ a t', R t t' ∧ I a) (λ _ t', R t t') (R t) t.
Proof. intros Hm. by eapply Hm. Qed.

(** A directory that was opened is one. *)
Definition is_directory (p : path) (t : disk_tree) : Prop := ∃ st, t !! p = Some (NDir st).

Section opened.
Context `{Os} `{!OsLaws} `{Random} `{Host}.

Lemma reader_opened dir name : reader (openat dir name true) (λ r t, r = None → is_directory (dir ++ [name]) t).
Proof.
  unfold openat. eapply reader_bind; [apply reader_sys|]. intros [e|]; simpl.
  - eapply reader_weaken; [apply reader_ret|]. by intros a t ->.
  - eapply reader_bind; [apply reader_look|]. intros n.
    eapply reader_weaken; [apply reader_ret|]. intros a t -> -> _ Hn. destruct (t !! _) as [[]|] eqn:E; try done.
    by eexists.
Qed.

Lemma is_directory_stat p q f t : is_directory p t → is_directory p (alter (on_stat f) q t).
Proof.
  intros [st Hst]. destruct (decide (p = q)) as [-> |Hne].
  - exists (f st). by rewrite lookup_alter_eq, Hst.
  - exists st. by rewrite lookup_alter_ne.
Qed.

#[local] Instance keeps_preorder p : PreOrder (λ t t', is_directory p t → is_directory p t').
Proof. split; [by intros t|]. intros a b c H1' H2' ?. auto. Qed.

(** From the opening of a component on it stays a directory. *)
Lemma wp_directory_loop fuel parent rest owner create group mode t :
  wp (directory_loop fuel parent rest owner create group mode) is_directory (λ _ _, True) (λ _, True) t.
Proof.
  revert parent rest t. induction fuel as [|fuel IH]; intros parent rest t; cbn [directory_loop]; [by apply wp_fail|].
  destruct (empty rest); [by apply wp_fail|]. apply wp_bind, reader_must; [done..|]. intros [] _.
  set (name := match find_char "/" rest with None => rest | Some n => _ end). set (child := parent ++ [name]).
  apply wp_bind. eapply (wp_mono _ (λ _ t', is_directory child t') _ (λ _ _, True) _ (λ _, True)); [|intros created t1 Ht1|done|done].
  { unfold open_directory. apply wp_bind, reader_opened; [done..|]. intros [e|] Ho; [|by apply wp_ret, Ho].
    destruct (_ && _); [|by apply wp_fail]. apply wp_bind.
    eapply (wp_mono _ (λ _ _, True) _ (λ _ _, True) _ (λ _, True)); [|intros made t1 _|done|done].
    { intros n. by destruct (make_directory _ _ _) as [d []]. }
    apply wp_bind, reader_need; [done..|]. intros [] _. apply wp_bind, reader_opened; [done..|]. intros r Hr.
    apply wp_bind, reader_need; [done..|]. intros [] ->. by apply wp_ret, Hr. }
  apply wp_bind, reader_fstat; [done..|]. intros st _. apply wp_bind, reader_must; [done..|]. intros [] _.
  apply wp_bind, reader_must; [done..|]. intros [] _. apply wp_bind.
  eapply (wp_mono _ (λ _ t', is_directory child t') _ (λ _ _, True) _ (λ _, True)); [|intros [] t2 Ht2|done|done].
  { destruct created; [|by apply wp_ret].
    eapply (safe_bind (λ t t', is_directory child t → is_directory child t') _ _ (λ _, True) (λ _, True));
      [eapply (safe_own _ (λ _, True)); [intros p f t' _; by apply is_directory_stat|done]|
       intros [] _; apply safe_Label|intros Hx; exact Hx|done|done|]. intros [] t' Ht' _. by apply Ht'. }
  destruct (find_char "/" rest) as [n|].
  - apply wp_bind, reader_sys; [done..|]. intros r _. apply wp_bind, reader_need; [done..|]. intros [] _. apply IH.
  - apply wp_bind, reader_fsync; [done..|]. intros [] _. apply wp_bind, reader_fsync; [done..|]. intros [] _.
    by apply wp_ret.
Qed.

Lemma wp_Directory p owner create group mode t :
  wp (Directory p owner create group mode) is_directory (λ _ _, True) (λ _, True) t.
Proof.
  unfold Directory. apply wp_bind, reader_must; [done..|]. intros [] _. apply wp_bind, reader_sys; [done..|]. intros r _.
  apply wp_bind, reader_need; [done..|]. intros [] _. apply wp_directory_loop.
Qed.
End opened.
