(* ===== verification/StoragePhases.v ===== *)
(** * The receipt only moves forward

    Every run of the storage helper, with any arguments and ended by success,
    refusal or a kill at any system call, leaves the receipt of the system as
    it was or moves it along one edge of the life cycle: absent, fresh,
    claimed by one invocation, initialized. *)
From S2P Require Import Prelude Strings Platform Message Wire Packing Localization Registration.
From S2P Require Import Identity ProfileConfig Offline OfflineSpec Recovery Storage StorageSpec.
From Stdlib Require Import Ascii.
Import offline.

Definition authority_dir : path := ["opt"; "var"; "lib"; "consent-authority"].
Definition state_dir : path := ["opt"; "var"; "lib"; "consentd"].
Definition receipt_path : path := authority_dir ++ [kName].

Lemma authority_split : split_path CONSENT_AUTHORITY_DIR = authority_dir.
Proof. reflexivity. Qed.

Lemma state_split : split_path CONSENT_STATE_DIR = state_dir.
Proof. reflexivity. Qed.

Lemma receipt_path_ne : receipt_path ≠ authority_dir.
Proof. done. Qed.

#[local] Opaque authority_dir state_dir.

(** The receipt of the system: absent without an authority directory, [None]
    when it is refused. *)
Definition receipt_state (t : disk_tree) : option Receipt :=
  match t !! authority_dir with
  | Some (NDir _) => stored_receipt authority_dir t
  | _ => Some no_receipt
  end.

Definition fresh : Receipt := mkReceipt kFresh CONSENT_SERVICE_UNIT "" "".
Definition claimed (i nonce : string) : Receipt := mkReceipt kClaimed CONSENT_SERVICE_UNIT i nonce.
Definition initialized : Receipt := mkReceipt kInitialized CONSENT_SERVICE_UNIT "" "".

Definition pair_absent (t : disk_tree) : Prop :=
  t !! (state_dir ++ ["definitions.registry"]) = None ∧ t !! (state_dir ++ ["consent.db"]) = None.

Definition pair_present (user group : Z) (t : disk_tree) : Prop :=
  pair_file (state_dir ++ ["definitions.registry"]) user group t ∧
  pair_file (state_dir ++ ["consent.db"]) user group t.

(** The life cycle of the receipt: what one run of the helper with the
    arguments [args] may do to it.  Each edge belongs to one command. *)
Inductive receipt_step `{Host} (args : list string) (t t' : disk_tree) : Prop :=
| rs_same : receipt_state t' = receipt_state t → receipt_step args t t'
| rs_fresh :
    head args = Some "--first-install" →
    receipt_state t = Some no_receipt → receipt_state t' = Some fresh → receipt_step args t t'
| rs_claim i nonce :
    args = [] →
    receipt_state t = Some fresh → host_invocation = Some i → pair_absent t' →
    receipt_state t' = Some (claimed i nonce) → receipt_step args t t'
| rs_complete i nonce user group :
    args = ["--complete"] →
    receipt_state t = Some (claimed i nonce) → host_invocation = Some i → host_account = Some (user, group) →
    pair_present user group t' → receipt_state t' = Some initialized → receipt_step args t t'
| rs_migrate user group :
    args = ["--migrate-release7"] →
    receipt_state t = Some no_receipt → host_account = Some (user, group) →
    pair_present user group t' → receipt_state t' = Some initialized → receipt_step args t t'.

(** ** Changes that do not matter *)

(** The receipt is the same, and the directory is still there. *)
Definition calmly (t t' : disk_tree) : Prop :=
  receipt_state t' = receipt_state t ∧ (is_directory authority_dir t → is_directory authority_dir t').

#[export] Instance calmly_preorder : PreOrder calmly.
Proof. split; [by intros t|]. intros a b c [H1 H2] [H3 H4]. split; [by rewrite H3, H1|auto]. Qed.

Lemma calmly_same t t' : t' !! authority_dir = t !! authority_dir → t' !! receipt_path = t !! receipt_path → calmly t t'.
Proof.
  intros Ha Hr. unfold calmly, receipt_state, stored_receipt, is_directory. fold receipt_path. by rewrite Ha, Hr.
Qed.

Lemma calmly_stat p f t : calmly t (alter (on_stat f) p t).
Proof.
  split; [|by apply is_directory_stat]. unfold receipt_state, stored_receipt. fold receipt_path.
  destruct (decide (p = authority_dir)) as [-> |Ha].
  - rewrite lookup_alter_eq, (lookup_alter_ne _ _ _ receipt_path) by done. by destruct (t !! authority_dir) as [[]|].
  - rewrite (lookup_alter_ne _ _ _ authority_dir) by done. destruct (decide (p = receipt_path)) as [-> |Hr].
    + rewrite lookup_alter_eq. by destruct (t !! receipt_path) as [[]|].
    + by rewrite lookup_alter_ne.
Qed.

Lemma calmly_file p st t : p ≠ receipt_path → t !! p = None → calmly t (<[p := NFile st ""]> t).
Proof.
  intros Hp Hn. destruct (decide (p = authority_dir)) as [-> |Ha]; [|by apply calmly_same; rewrite lookup_insert_ne].
  split; [|by intros [st' Hst]; rewrite Hn in Hst]. unfold receipt_state. by rewrite lookup_insert_eq, Hn.
Qed.

(** A directory that is not above the authority directory. *)
Definition aside (p : path) : Prop := below p authority_dir = false ∧ p ≠ receipt_path.

Lemma calmly_directory p st t : aside p → t !! p = None → calmly t (add_directory p st t).
Proof.
  intros [Hb Hr] Hn. destruct (decide (p = authority_dir)) as [-> |Ha].
  - split; [|by intros [st' Hst]; rewrite Hn in Hst]. unfold receipt_state, stored_receipt. fold receipt_path.
    rewrite !lookup_add_directory, Hn. by rewrite bool_decide_eq_true_2.
  - apply calmly_same; rewrite lookup_add_directory, bool_decide_eq_false_2 by done; [by rewrite Hb|].
    destruct (below p receipt_path) eqn:Hbr; [|done]. apply below_Some in Hbr as (x & l & E).
    destruct l as [|y l _] using rev_ind.
    + apply app_inj_tail in E as [E _]. by rewrite E in Ha.
    + rewrite app_comm_cons, app_assoc in E. apply app_inj_tail in E as [E _]. by rewrite E, below_app in Hb.
Qed.

Lemma calmly_delete p t : p ≠ authority_dir → p ≠ receipt_path → calmly t (delete p t).
Proof. intros Ha Hr. by apply calmly_same; rewrite lookup_delete_ne. Qed.

Lemma calmly_rename p q t : p ≠ authority_dir → p ≠ receipt_path → q ≠ authority_dir → q ≠ receipt_path →
  calmly t (rename_node p q t).
Proof.
  intros. unfold rename_node. destruct (t !! p); [|done].
  by apply calmly_same; rewrite lookup_insert_ne, lookup_delete_ne.
Qed.

Lemma calmly_rewritten authority r t t' : authority ≠ authority_dir → rewritten authority r t t' → calmly t t'.
Proof.
  intros Ha [Ho _]. apply calmly_same; apply Ho.
  - intros E. change authority_dir with (["opt"; "var"; "lib"] ++ ["consent-authority"]) in E.
    by apply app_inj_tail in E as [_ E].
  - intros b E. change authority_dir with (["opt"; "var"; "lib"] ++ ["consent-authority"]) in E.
    by apply app_inj_tail in E as [_ E].
  - intros E. by apply app_inj_tail in E as [E _].
  - intros b E. by apply app_inj_tail in E as [E _].
Qed.

(** What a replaced receipt of the system is. *)
Lemma rewritten_state r t t' : is_directory authority_dir t → rewritten authority_dir r t t' →
  receipt_state t' = receipt_state t ∨ receipt_state t' = Some r.
Proof.
  intros [st Hst] [Ho Hr]. assert (Ha : t' !! authority_dir = t !! authority_dir) by (apply Ho; done).
  unfold receipt_state, stored_receipt. rewrite Ha, Hst. destruct Hr as [-> | (st' & name & Hn & Hv & ->)]; [by left|].
  right. apply Parse_canonical. eauto.
Qed.

Lemma rewritten_elsewhere r t t' p : rewritten authority_dir r t t' →
  take 4 p ≠ authority_dir → t' !! p = t !! p.
Proof. intros [Ho _] Hp. apply Ho; [intros ->|intros b ->]; by apply Hp. Qed.

(** ** The commands *)

Lemma stored_valid authority t r : stored_receipt authority t = Some r → r = no_receipt ∨ receipt_valid r = true.
Proof.
  unfold stored_receipt. destruct (_ !! _) as [[]|]; [done| |done|].
  - intros (name & _ & Hv & _)%Parse_canonical. by right.
  - intros [= <-]. by left.
Qed.

Lemma stored_unclaimed authority t r p : stored_receipt authority t = Some r → r.(phase) = p → p ≠ kAbsent → p ≠ kClaimed →
  r = mkReceipt p r.(unit_) "" "".
Proof.
  intros Hs Hp Ha Hc. destruct (stored_valid _ _ _ Hs) as [-> |Hv]; [by rewrite <- Hp in Ha|].
  unfold receipt_valid in Hv. rewrite bool_decide_eq_false_2 in Hv by congruence. str_hyps.
  destruct r. simpl in *. by subst.
Qed.

Section phases.
Context `{Os} `{!OsLaws} `{Random} `{Host}.
Variable args : list string.

Definition steps {A} (m : F A) (t : disk_tree) : Prop :=
  wp m (λ _, receipt_step args t) (λ _, receipt_step args t) (receipt_step args t) t.

Lemma calmly_step t t' : calmly t t' → receipt_step args t t'.
Proof. intros [Hr _]. by apply rs_same. Qed.

Lemma step_calmly t0 t t' : calmly t0 t → receipt_step args t t' → receipt_step args t0 t'.
Proof.
  intros [Hr _] []; rewrite Hr in *; [by apply rs_same; congruence|by apply rs_fresh|by eapply rs_claim|
    by eapply rs_complete|by eapply rs_migrate].
Qed.

Lemma steps_bind {A B} (m : F A) (k : A → F B) I t :
  safe calmly m I → (∀ a t', calmly t t' → I a → steps (k a) t') → steps (m ≫= k) t.
Proof.
  intros Hm Hk. apply wp_bind. eapply (Hm t t); [done|by apply calmly_step|intros; by apply calmly_step|].
  intros a t' Ht' Ha. eapply wp_mono; [by apply Hk|..]; simpl; eauto using step_calmly.
Qed.

Lemma steps_safe {A} (m : F A) I t : safe calmly m I → steps m t.
Proof. intros Hm. eapply (Hm t t); [done|by apply calmly_step|intros; by apply calmly_step|intros; by apply calmly_step]. Qed.

(** A reading, whose result is known to describe the disk. *)
Lemma steps_read {A B} (m : F A) (k : A → F B) I t :
  reader m I → (∀ a, I a t → steps (k a) t) → steps (m ≫= k) t.
Proof. intros Hm Hk. apply wp_bind, Hm; [by apply rs_same|intros; by apply rs_same|]. intros a Ha. by apply Hk. Qed.

(** A directory of the system. *)
Lemma steps_Directory {B} p owner create group mode (k : path → F B) t :
  (create = true → aside (split_path p)) →
  (∀ t', calmly t t' → is_directory (split_path p) t' → steps (k (split_path p)) t') →
  steps (Directory p owner create group mode ≫= k) t.
Proof.
  intros Hd Hk. assert (Hs : safe calmly (Directory p owner create group mode) (λ q, q = split_path p)).
  { eapply (safe_Directory calmly (λ _, True) aside); [intros; by apply calmly_stat|intros; by apply calmly_directory|auto]. }
  apply wp_bind. eapply wp_mono; [apply wp_and; [exact (safe_wp calmly _ _ t Hs)|apply wp_Directory]|..].
  - intros a t' [[Ht' ->] Hdir]. eapply wp_mono; [by apply Hk|..]; simpl; eauto using step_calmly.
  - intros s t' [Ht' _]. by apply calmly_step.
  - intros t' [Ht' _]. by apply calmly_step.
Qed.

Lemma phases_own p user group mode : safe calmly (own p user group mode) (λ _, True).
Proof. eapply (safe_own calmly (λ _, True)); [intros; by apply calmly_stat|done]. Qed.

Lemma phases_Lock dir name group mode : dir ++ [name] ≠ receipt_path → safe calmly (Lock dir name group mode) (λ _, True).
Proof.
  intros Hne. eapply (safe_Lock calmly (λ _, True) (λ p, p ≠ receipt_path));
    [intros; by apply calmly_stat|intros; by apply calmly_file|done|done].
Qed.

Lemma phases_Ownership e user group mode : safe calmly (Ownership e user group mode) (λ _, True).
Proof. eapply (safe_Ownership calmly (λ _, True)); [intros; by apply calmly_stat|by intros p]. Qed.

Lemma phases_adopt dir entries user group mode : safe calmly (adopt dir entries user group mode) (λ _, True).
Proof.
  eapply (safe_adopt calmly (λ _, True)); [intros; by apply calmly_stat|]. apply Forall_true. by intros e p.
Qed.

Lemma phases_create dir name mode : dir ++ [name] ≠ receipt_path → safe calmly (create_file dir name mode) (λ _, True).
Proof. intros Hne. eapply (safe_create calmly (λ p, p ≠ receipt_path)); [intros; by apply calmly_file|done]. Qed.

Lemma phases_registrations authority group : safe calmly (PrepareRegistrations authority group) (λ _, True).
Proof. eapply (safe_PrepareRegistrations calmly (λ _, True)); [intros; by apply calmly_stat|done|done]. Qed.

Lemma phases_entries state names user : safe calmly (state_entries state names user []) (λ _, True).
Proof.
  eapply safe_weaken; [eapply (safe_state_entries calmly (λ _, True)); [done|constructor]|done].
Qed.

Hint Resolve phases_own phases_Lock phases_Ownership phases_adopt phases_create phases_registrations phases_entries
  safe_File : safes.

Lemma phases_move old_authority new_authority group :
  safe calmly (move_authority authority_dir state_dir old_authority new_authority group) (λ _, True).
Proof.
  assert (Hdel : safe calmly (unlinkat state_dir "installations.conf") (λ _, True))
    by (apply safe_sys_do; [apply _|intros; by apply calmly_delete]).
  assert (Hren : safe calmly (sys_do (rename_node (state_dir ++ ["installations.conf"])
    (authority_dir ++ ["installations.conf"]))) (λ _, True))
    by (apply safe_sys_do; [apply _|intros; by apply calmly_rename]).
  unfold move_authority. destruct old_authority.(en_fd) as [p|] eqn:Hp, new_authority.(en_fd) as [q|] eqn:Hq;
    safe_steps; safe_end.
Qed.

Lemma phases_lock_legacy e : safe calmly (lock_legacy e) (λ _, True).
Proof. unfold lock_legacy. destruct e.(en_fd); safe_steps; safe_end. Qed.

Lemma phases_retire_lock e : safe calmly (retire_lock state_dir e) (λ _, True).
Proof.
  assert (Hdel : safe calmly (unlinkat state_dir "installations.lock") (λ _, True))
    by (apply safe_sys_do; [apply _|intros; by apply calmly_delete]).
  unfold retire_lock. destruct e.(en_fd); safe_steps; safe_end.
Qed.

Hint Resolve phases_lock_legacy phases_retire_lock phases_move : safes.

Lemma phases_prepare user group : safe calmly (prepare_state authority_dir state_dir user group) (λ _, True).
Proof.
  unfold prepare_state. safe_steps. safe_end.
Qed.

(** *** Claiming a fresh receipt *)

Lemma receipt_state_dir t : is_directory authority_dir t → receipt_state t = stored_receipt authority_dir t.
Proof. intros [st Hst]. unfold receipt_state. by rewrite Hst. Qed.

(** The receipt is replaced by [r]: allowed when [r] is next. *)
Lemma steps_write group r t :
  is_directory authority_dir t →
  (∀ t', rewritten authority_dir r t t' → receipt_state t' = Some r → receipt_step args t t') →
  wp (WriteReceipt authority_dir group r) (λ _, receipt_step args t) (λ _, receipt_step args t) (receipt_step args t) t.
Proof.
  intros Hd Hs. assert (Hall : ∀ t', rewritten authority_dir r t t' → receipt_step args t t').
  { intros t' Ht'. destruct (rewritten_state r t t' Hd Ht'); [by apply rs_same|by apply Hs]. }
  apply wp_WriteReceipt; [by intros; split; apply Hall|]. intros t' [Ht' _]. by apply Hall.
Qed.

Lemma step_trailing {A} (m : F A) I t t' : reader m I → receipt_step args t t' →
  wp m (λ _, receipt_step args t) (λ _, receipt_step args t) (receipt_step args t) t'.
Proof. intros Hm Ht. by apply Hm. Qed.

Lemma steps_persist group r t :
  is_directory authority_dir t →
  (∀ t', rewritten authority_dir r t t' → receipt_state t' = Some r → receipt_step args t t') →
  steps (PersistReceipt authority_dir group r) t.
Proof.
  intros Hd Hs. apply wp_bind. eapply wp_mono; [by apply steps_write|..]; [|done|done].
  intros ok t' Ht'. eapply (step_trailing _ (λ _ _, True)); [|done]. eapply reader_bind; [apply reader_must|]. intros [].
  eapply reader_weaken; [apply reader_ProtectReceipt|done].
Qed.

Lemma rewritten_pair r t t' user group name present : rewritten authority_dir r t t' →
  pair_state (state_dir ++ [name]) user group present t → pair_state (state_dir ++ [name]) user group present t'.
Proof.
  intros Hr. unfold pair_state, pair_file. rewrite (rewritten_elsewhere r t t' _ Hr); [done|]. done.
Qed.

Lemma steps_preflight user group t :
  args = [] → is_directory authority_dir t → steps (BootstrapPreflight authority_dir state_dir user group) t.
Proof.
  intros Hargs Hd. unfold BootstrapPreflight. eapply steps_read; [apply reader_must|]. intros [] _.
  eapply steps_read; [apply reader_the_pair|]. intros [registry database] [Hreg Hdb]. simpl in Hreg, Hdb.
  eapply steps_read; [apply reader_the_receipt|]. intros r Hr. eapply steps_read; [apply reader_must|]. intros [] _.
  eapply steps_read; [apply reader_must|]. intros [] Hu. apply eqs_true in Hu. case_bool_decide as Hp.
  - eapply steps_read; [apply reader_must|]. intros [] Hpair. bool_hyps. subst registry database.
    destruct host_invocation as [i|] eqn:Hi; [|apply steps_safe with (λ _, True); apply safe_fail].
    eapply steps_read; [apply reader_must|]. intros [] Hx. eapply steps_read; [apply reader_RandomId|]. intros nonce _.
    apply steps_persist; [done|]. intros t' Hw Ht'. rewrite Hu in *. eapply rs_claim; [exact Hargs| |done| |exact Ht'].
    + rewrite receipt_state_dir, Hr by done. f_equal. rewrite (stored_unclaimed _ _ _ _ Hr Hp), Hu; done.
    + split; [exact (rewritten_pair _ _ _ user group _ false Hw Hreg)|exact (rewritten_pair _ _ _ user group _ false Hw Hdb)].
  - eapply steps_read; [apply reader_must|]. intros [] _. eapply steps_read; [apply reader_must|]. intros [] _.
    eapply steps_safe, safe_reader; [apply reader_ProtectReceipt|by instantiate (1 := λ _, True)].
Qed.

Hint Resolve phases_prepare : safes.

(** A safe run at the end or in the middle. *)
Ltac steps_safe := eapply (steps_bind _ _ _); [solve [eauto with safes typeclass_instances]|intros ? ? ? ?].

Lemma authority_entry name : name ≠ kName → authority_dir ++ [name] ≠ receipt_path.
Proof. intros Hne E. by apply app_inj_tail in E as [_ E]. Qed.

Lemma steps_calm {A} t0 (m : F A) t : calmly t0 t → steps m t →
  wp m (λ _, receipt_step args t0) (λ _, receipt_step args t0) (receipt_step args t0) t.
Proof. intros Hc Hm. eapply wp_mono; [exact Hm|..]; simpl; eauto using step_calmly. Qed.

Lemma aside_authority : aside authority_dir.
Proof. split; [|done]. reflexivity. Qed.

Lemma aside_state : aside state_dir.
Proof. split; [|done]. reflexivity. Qed.

Lemma phases_prior authority group state_path : safe calmly (prior_receipt authority group state_path) (λ _, True).
Proof.
  unfold prior_receipt. eapply (safe_bind _ _ _ (λ _, True)); [eapply safe_reader; [apply reader_the_receipt|done]|].
  intros r _. safe_steps. destruct (bool_decide (r.(phase) = kFresh)); safe_end.
Qed.

Lemma steps_Prepare user group t : args = [] →
  steps (Prepare CONSENT_STATE_DIR CONSENT_AUTHORITY_DIR user group true) t.
Proof.
  intros Hargs. unfold Prepare. eapply steps_read; [apply reader_must|]. intros [] _. eapply steps_read; [apply reader_must|]. intros [] _.
  apply steps_Directory; [intros _; apply aside_authority|]. rewrite authority_split. intros t1 _ Hd1.
  eapply steps_bind; [by apply phases_Lock, authority_entry|]. intros _ t2 [_ Hd2] _. specialize (Hd2 Hd1).
  eapply steps_bind; [apply phases_prior|]. intros [] t3 [_ Hd3] _. specialize (Hd3 Hd2).
  apply steps_Directory; [intros _; apply aside_state|]. rewrite state_split. intros t4 [_ Hd4] _. specialize (Hd4 Hd3).
  eapply steps_bind; [apply phases_prepare|]. intros [] t5 [_ Hd5] _. apply steps_preflight; auto.
Qed.

Lemma steps_Complete user group t : args = ["--complete"] → host_account = Some (user, group) →
  steps (CompleteBootstrap CONSENT_STATE_DIR CONSENT_AUTHORITY_DIR user group) t.
Proof.
  intros Hargs Hacc. unfold CompleteBootstrap. eapply steps_read; [apply reader_must|]. intros [] _.
  apply steps_Directory; [done|]. rewrite authority_split. intros t1 _ Hd1.
  apply steps_Directory; [done|]. rewrite state_split. intros t2 [_ Hd2] _. specialize (Hd2 Hd1).
  eapply steps_read; [apply reader_the_receipt|]. intros r Hr. eapply steps_read; [apply reader_must|]. intros [] Hu.
  apply eqs_true in Hu. case_bool_decide as Hp.
  { eapply steps_safe, safe_reader; [apply reader_ProtectReceipt|by instantiate (1 := λ _, True)]. }
  eapply steps_read; [apply reader_must|]. intros [] Hc. bool_hyps.
  eapply steps_read; [apply reader_the_pair|]. intros [registry database] [Hreg Hdb]. simpl in Hreg, Hdb.
  eapply steps_read; [apply reader_must|]. intros [] Hpair. bool_hyps. subst registry database.
  apply steps_persist; [done|]. intros t' Hw Ht'. rewrite Hu in *.
  eapply (rs_complete _ _ _ r.(invocation) r.(nonce)); [exact Hargs| |done|exact Hacc| |exact Ht'].
  - rewrite receipt_state_dir, Hr by done. f_equal. destruct r. simpl in *. by subst.
  - split; [exact (rewritten_pair _ _ _ user group _ true Hw Hreg)|exact (rewritten_pair _ _ _ user group _ true Hw Hdb)].
Qed.

Definition anchor : path := ["etc"; "consent"; "bootstrap-upgrade-7"].

#[local] Instance only_at_preorder p : PreOrder (only_at p).
Proof. split; [by intros t q|]. intros a b c H1' H2' q Hq. by rewrite H2', H1'. Qed.

Lemma safe_anchor : safe (only_at anchor) MigrationAnchor (λ _, True).
Proof.
  unfold MigrationAnchor. replace (split_leaf CONSENT_MIGRATION_ANCHOR) with (Some ("/etc/consent", "bootstrap-upgrade-7"))
    by reflexivity.
  eapply safe_bind; [by eapply (safe_Directory (only_at anchor) (λ _, False) (λ _, False))|]. intros p ->.
  change (split_path "/etc/consent") with ["etc"; "consent"].
  eapply safe_bind; [eapply (safe_create (only_at anchor) (λ p, p = anchor)); [|done]|].
  { intros p st t -> _. by apply only_at_insert. }
  intros r _. safe_steps. eapply safe_bind; [apply safe_sys_do; [apply _|intros t; by apply only_at_alter]|].
  intros r' _. safe_steps. safe_end.
Qed.

Lemma only_anchor_calmly t t' : only_at anchor t t' → calmly t t'.
Proof. intros Ho. apply calmly_same; apply Ho; done. Qed.

Lemma only_anchor_pair t t' user group name present : only_at anchor t t' →
  pair_state (state_dir ++ [name]) user group present t → pair_state (state_dir ++ [name]) user group present t'.
Proof. intros Ho. unfold pair_state, pair_file. by rewrite Ho. Qed.

Lemma wp_migration_pair user group t :
  wp (migration_pair CONSENT_STATE_DIR user group)
    (λ r t', calmly t t' ∧ (r = (true, true) → pair_present user group t')) (λ _, calmly t) (calmly t) t.
Proof.
  unfold migration_pair. apply wp_bind, reader_lstat; [done..|]. intros info _.
  apply wp_bind, reader_must; [done..|]. intros [] _. destruct info as [e|st]; [by apply wp_ret|].
  apply wp_bind. eapply (safe_Directory calmly (λ _, True) aside);
    [intros; by apply calmly_stat|intros; by apply calmly_directory|done|done|done|done|].
  intros p t' Ht' ->. rewrite state_split. apply reader_the_pair; [done..|].
  intros r [Hreg Hdb]. split; [done|]. intros ->. done.
Qed.

Lemma steps_Migrate user group t : args = ["--migrate-release7"] → host_account = Some (user, group) →
  steps (MigrateRelease7 CONSENT_STATE_DIR CONSENT_AUTHORITY_DIR user group false) t.
Proof.
  intros Hargs Hacc. unfold MigrateRelease7. apply steps_Directory; [done|]. rewrite authority_split. intros t1 _ Hd1.
  eapply steps_read; [apply reader_openat|]. intros r0 _. eapply steps_read; [apply reader_need|]. intros [] _.
  eapply steps_read; [apply reader_fstat|]. intros st _. eapply steps_read; [apply reader_must|]. intros [] _.
  eapply steps_read; [apply reader_sys|]. intros r1 _. eapply steps_read; [apply reader_need|]. intros [] _.
  eapply steps_read; [apply reader_the_receipt|]. intros r Hr. case_bool_decide as Hp.
  { eapply steps_safe, safe_must. }
  eapply steps_read; [apply reader_must|]. intros [] Ha. apply bool_decide_eq_true in Ha.
  eapply steps_read; [apply reader_must|]. intros [] _.
  assert (Hn : r = no_receipt).
  { destruct (stored_valid _ _ _ Hr) as [|Hv]; [done|]. unfold stored_receipt in Hr.
    destruct (t1 !! _) as [[]|]; simplify_eq/=. apply Parse_canonical in Hr as (name & Hn & _). by rewrite Ha in Hn. }
  subst r. assert (Hs : receipt_state t1 = Some no_receipt) by (by rewrite receipt_state_dir).
  apply wp_bind. eapply wp_mono; [apply wp_migration_pair|..]; [|intros; by apply calmly_step|intros; by apply calmly_step].
  intros [registry database] t2 [Ht2 Hpair]. apply (steps_calm t1); [done|].
  eapply steps_read; [apply reader_must|]. intros [] Hb. bool_hyps. subst registry database. specialize (Hpair eq_refl).
  assert (Hd2 : is_directory authority_dir t2) by (by apply Ht2).
  apply wp_bind. eapply wp_mono; [exact (safe_wp (only_at anchor) _ _ t2 safe_anchor)|..];
    [|intros; by apply calmly_step, only_anchor_calmly|intros; by apply calmly_step, only_anchor_calmly].
  intros [] t3 [Ht3 _]. pose proof (only_anchor_calmly _ _ Ht3) as Hc3.
  apply (steps_calm t2); [done|].
  apply wp_bind. eapply wp_mono; [apply steps_write; [by apply Hc3|]|..]; [|intros ok t' Hst|done|done].
  - intros t' Hw Ht'. eapply rs_migrate; [exact Hargs| |exact Hacc| |exact Ht'].
    + rewrite (proj1 Hc3), (proj1 Ht2). exact Hs.
    + destruct Hpair as [Hreg Hdb]. split; eapply (rewritten_pair _ _ _ user group _ true Hw), (only_anchor_pair _ _ _ _ _ true Ht3); done.
  - eapply (step_trailing _ (λ _ _, True)); [|done]. eapply reader_weaken; [apply reader_must|done].
Qed.

(** *** The first installation *)

Lemma phases_write_aside a group r : a ≠ authority_dir → safe calmly (WriteReceipt a group r) (λ _, True).
Proof.
  intros Ha t0 t Q E K Ht HK HE HQ. apply wp_WriteReceipt.
  - intros t' Hw. assert (calmly t0 t') by (etrans; [exact Ht|by eapply calmly_rewritten]). auto.
  - intros t' [Hw _]. assert (calmly t0 t') by (etrans; [exact Ht|by eapply calmly_rewritten]). auto.
Qed.

Lemma aside_install q : aside (q ++ ["consent-authority"]).
Proof.
  split.
  - destruct (below _ _) eqn:Hb; [|done]. apply below_Some in Hb as (x & l & E).
    change authority_dir with ["opt"; "var"; "lib"; "consent-authority"] in E.
    destruct q as [|? [|? [|? [|? q]]]]; [by simplify_eq/=..|].
    apply (f_equal length) in E. rewrite !length_app in E. simpl in E. lia.
  - intros E. by apply app_inj_tail in E as [_ E].
Qed.

Lemma steps_FirstInstall state_path authority_path parent group t : head args = Some "--first-install" →
  split_leaf authority_path = Some (parent, "consent-authority") → steps (FirstInstall state_path authority_path group) t.
Proof.
  intros Hargs Hl. unfold FirstInstall. rewrite Hl. eapply steps_read; [apply reader_lstat|]. intros info _.
  eapply steps_read; [apply reader_must|]. intros [] _. apply steps_Directory; [done|]. intros t1 _ _.
  set (a := split_path parent ++ ["consent-authority"]).
  eapply steps_read; [apply reader_must|]. intros [] _.
  assert (Hmake : safe calmly (make_directory (split_path parent) "consent-authority") (λ _, True)).
  { eapply (safe_make calmly aside); [intros; by apply calmly_directory|apply aside_install]. }
  destruct (decide (a = authority_dir)) as [Ha|Ha].
  - apply wp_bind. unfold make_directory. apply wp_bind, wp_look. fold a. destruct (t1 !! a) as [n|] eqn:Hn; cbv beta iota.
    { apply wp_bind, wp_sys; [by apply rs_same|]. intros r. apply wp_ret. by apply (steps_read _ _ _ _ (reader_need _)). }
    assert (Hno : receipt_state t1 = Some no_receipt) by (unfold receipt_state; by rewrite <- Ha, Hn).
    apply wp_sys_do; [by apply rs_same|intros e; by apply (steps_read _ _ _ _ (reader_need _))|].
    set (t2 := add_directory a _ t1). assert (Hc2 : calmly t1 t2) by (apply calmly_directory; [apply aside_install|done]).
    apply (steps_calm t1); [done|]. eapply steps_read; [apply reader_need|]. intros [] _.
    eapply steps_read; [apply reader_opened|]. intros r Hd. eapply steps_read; [apply reader_need|]. intros [] ->.
    specialize (Hd eq_refl). fold a in Hd. rewrite Ha in *.
    eapply steps_bind; [apply phases_own|]. intros [] t3 [Hr3 Hd3] _. specialize (Hd3 Hd).
    eapply steps_read; [apply reader_fsync|]. intros [] _. eapply steps_read; [apply reader_fsync|]. intros [] _.
    eapply steps_read; [apply reader_lstat|]. intros info' _. eapply steps_read; [apply reader_must|]. intros [] _.
    apply wp_bind. eapply wp_mono; [apply steps_write; [done|]|..]; [|intros ok t' Hst|done|done].
    + intros t' Hw Ht'. apply rs_fresh; [done| |done]. by rewrite Hr3, (proj1 Hc2).
    + eapply (step_trailing _ (λ _ _, True)); [|done]. eapply reader_weaken; [apply reader_must|done].
  - pose proof (phases_write_aside a group fresh Ha) as Hw. apply steps_safe with (λ _, True). fold a fresh.
    safe_steps. safe_end.
Qed.

Lemma rfind_char_last c a b : has_char c b = false → rfind_char c (a +:+ String c b) = Some (String.length a).
Proof.
  intros Hb. assert (Hn : rfind_char c b = None).
  { induction b as [|d b IH]; [done|]. unfold has_char in *. simpl in *. apply negb_false_iff in Hb. bool_hyps.
    rewrite IH by (by apply negb_false_iff). by rewrite bool_decide_eq_false_2. }
  induction a as [|d a IH].
  - rewrite app_nil_s. simpl. by rewrite Hn, bool_decide_eq_true_2.
  - rewrite app_cons_s. simpl. by rewrite IH.
Qed.

Lemma split_leaf_app p leaf : p ≠ "" → leaf ≠ "" → has_char "/" leaf = false →
  split_leaf (p +:+ String "/" leaf) = Some (p, leaf).
Proof.
  intros Hp Hl Hn. unfold split_leaf. rewrite rfind_char_last by done. cbn [mbind option_bind].
  assert (0 < size p) by (destruct p; [done|rewrite size_cons; pose proof (size_nonneg p); lia]).
  assert (0 < size leaf) by (destruct leaf; [done|rewrite size_cons; pose proof (size_nonneg leaf); lia]).
  rewrite size_app, size_cons. fold (size p). rewrite (proj2 (Z.ltb_lt 0 (size p))), (proj2 (Z.ltb_lt (size p + 1) _)) by lia.
  cbn [andb]. by rewrite take_str_app, drop_str_app_S.
Qed.

Lemma steps_install image_root group t : head args = Some "--first-install" →
  steps (first_install image_root group) t.
Proof.
  intros Hargs. unfold first_install. destruct image_root as [root|].
  - eapply steps_read; [apply reader_must|]. intros [] Hroot. apply steps_Directory; [done|]. intros t' _ _.
    eapply (steps_FirstInstall _ _ (root +:+ "/opt/var/lib")); [done|].
    rewrite <- (split_leaf_app (root +:+ "/opt/var/lib") "consent-authority"); [|by destruct root|done|done].
    by rewrite app_assoc_s.
  - by apply (steps_FirstInstall _ _ "/opt/var/lib").
Qed.

(** The arguments of each command. *)
Lemma parse_command_args c : parse_command args = Some c →
  match c with
  | First _ => head args = Some "--first-install"
  | Complete => args = ["--complete"]
  | Migrate => args = ["--migrate-release7"]
  | Run_ => args = []
  end.
Proof.
  unfold parse_command. destruct args as [|a [|b [|? ?]]]; [by intros [= <-]| | |done].
  - destruct (eqs a "--first-install") eqn:E1; [intros [= <-]; str_hyps; by subst|].
    destruct (eqs a "--complete") eqn:E2; [intros [= <-]; str_hyps; by subst|].
    destruct (eqs a "--migrate-release7") eqn:E3; intros [= <-]. str_hyps. by subst.
  - destruct (_ && _) eqn:E; intros [= <-]. bool_hyps. str_hyps. by subst.
Qed.

Lemma steps_main t : steps (main args) t.
Proof.
  unfold main. apply wp_try.
  eapply (wp_mono _ (λ _, receipt_step args t) _ (λ _, receipt_step args t) _ (receipt_step args t));
    [|done|intros s t' Ht'; by apply wp_ret|done].
  change (steps (must (os_geteuid =? 0);;
    match parse_command args with
    | None => fail refused
    | Some c => match host_account with
                | None => fail refused
                | Some (user, group) => must (negb (user =? 0));; command_run c user group;; mret 0
                end
    end) t).
  eapply steps_read; [apply reader_must|]. intros [] _.
  assert (Hfail : ∀ A s, steps (fail s : F A) t) by (intros A s; apply steps_safe with (λ _, True); apply safe_fail).
  destruct (parse_command args) as [c|] eqn:Hc; [|apply Hfail]. destruct host_account as [[user group]|] eqn:Hacc; [|apply Hfail].
  eapply steps_read; [apply reader_must|]. intros [] _. apply wp_bind.
  eapply (wp_mono _ (λ _, receipt_step args t) _ (λ _, receipt_step args t) _ (receipt_step args t));
    [|intros [] t' Ht'; by apply wp_ret|done|done].
  apply parse_command_args in Hc.
  destruct c; cbn [command_run]; [by apply steps_install|by apply steps_Complete|..];
    (eapply steps_read; [apply reader_must|]; intros [] _); [by apply steps_Migrate|by apply steps_Prepare].
Qed.
End phases.

Lemma try_handled {A} (m : F A) a d d' s : try m (λ _, mret a) d ≠ (d', Failed s).
Proof. unfold try. by destruct (m d) as [? []]. Qed.

(** The run as a whole, wherever it ends. *)
Lemma helper_receipt_step `{Os} `{!OsLaws} `{Random} `{Host} args t n d e :
  main args (mkDisk t n) = (d, e) → receipt_step args t d.(tree).
Proof. intros Hm. pose proof (steps_main args t n) as Hs. rewrite Hm in Hs. by destruct e. Qed.

(** ** The theorem *)

(** C24: the receipt only moves forward.  Whatever arguments the storage helper
    is run with and wherever it ends, by success, by a refusal or killed at
    any system call, it does not throw, and the receipt of the system is
    unchanged or has made one step of its life cycle, along the edge of the
    command it was run with: absent to fresh by [--first-install]; fresh to
    claimed by the invocation of the service, with no data present, by a run
    without arguments; claimed to initialized by [--complete] of the same
    invocation, with both files of the data in place; or absent to initialized
    by [--migrate-release7], with both files of the data in place. *)
Theorem helper_phases `{Os} `{!OsLaws} `{Random} `{Host} args t n d e :
  main args (mkDisk t n) = (d, e) → receipt_step args t d.(tree) ∧ ∀ s, e ≠ Failed s.
Proof.
  intros Hm. split.
  - by eapply helper_receipt_step.
  - intros s ->. by apply try_handled in Hm.
Qed.
