(* ===== verification/Bootstrap.v ===== *)
(** * The bootstrap gate (src/consentd/bootstrap.cc)

    Before it opens its data the daemon checks that it is the main process of
    its unit and that the receipt and the files of the data agree.  The
    manager's answers are the class [Manager]; the text of an error is only
    logged.  At the end the gate is put together with the storage helper: over
    any sequence of helper runs, starts and other activity, only one
    invocation of the service ever starts without data. *)
From S2P Require Import Prelude Strings Platform Message Wire Packing Localization Registration.
From S2P Require Import Identity ProfileConfig Offline OfflineSpec Recovery Storage StorageSpec StoragePhases.
From Stdlib Require Import Ascii.
Import offline.

(** ** The main process of the unit *)

Inductive read_result := ReadBytes (bytes : string) | ReadEnd | ReadAgain | ReadError (errno : Z).
Inductive wait_result := WaitExited | WaitRunning | WaitError (errno : Z).

(** One turn of the query loop: whether [poll] failed, what [read] and
    [waitpid] returned. *)
Record turn := mkTurn { tu_poll : option Z; tu_read : read_result; tu_wait : wait_result }.

Class Manager := {
  (** [sd_pid_get_cgroup(0)]. *)
  mg_cgroup : option string;
  (** Whether the pipes and the child could be made. *)
  mg_started : bool;
  (** The turns until the deadline. *)
  mg_turns : list turn;
  (** The reads after the end of the child, and its exit code if it exited. *)
  mg_rest : list string;
  mg_status : option Z;
  (** [getegid()]. *)
  mg_getegid : Z;
}.

(** The query loop: the output and whether the end of the child was seen. *)
Fixpoint query_loop (turns : list turn) (output : string) (output_eof : bool) : string * bool :=
  match turns with
  | [] => (output, false)
  | turn :: turns' =>
      match turn.(tu_poll) with
      | Some _ => (output, false)
      | None =>
          let waited (output : string) (output_eof : bool) :=
            match turn.(tu_wait) with
            | WaitExited => (output, true)
            | WaitError _ => (output, false)
            | WaitRunning => query_loop turns' output output_eof
            end in
          if output_eof then waited output true
          else
            match turn.(tu_read) with
            | ReadError _ => (output, false)
            | ReadBytes bytes =>
                let output := output +:+ bytes in
                if size output >? 32 then (output, false) else waited output false
            | ReadEnd => if size output >? 32 then (output, false) else waited output true
            | ReadAgain => if size output >? 32 then (output, false) else waited output false
            end
      end
  end.

Section bootstrap.
Context `{Os} `{Host} `{Manager}.

Definition MainPid : bool :=
  if negb mg_started then false
  else
    let '(output, exited) := query_loop mg_turns "" false in
    if negb exited then false
    else if negb (bool_decide (mg_status = Some 0)) then false
    else eqs (child_drain 32 mg_rest output) (to_string os_getpid +:+ String newline "").

(** [value.compare(value.size() - suffix.size(), suffix.size(), suffix) == 0]. *)
Definition ends_with (suffix value : string) : bool :=
  (String.length suffix <=? String.length value)%nat &&
  eqs (drop_str (String.length value - String.length suffix) value) suffix.

Definition ManagerIdentity (unit : string) : bool :=
  match host_unit, mg_cgroup with
  | Some actual_unit, Some cgroup =>
      eqs unit actual_unit && ends_with ("/" +:+ unit) cgroup && MainPid
  | _, _ => false
  end.

(** ** The gate *)

(** The attributes are right, and whether the file is present; [None] is
    [false]. *)
Definition FilePresent (dir : path) (name : string) : F (option bool) :=
  r ← lstat (dir ++ [name]);
  mret match r with
       | inl e => if e =? ENOENT then Some false else None
       | inr st =>
           if S_ISREG st.(st_mode) && (st.(st_uid) =? os_geteuid) && (st.(st_gid) =? mg_getegid) &&
              (permissions st =? 384) && (st.(st_nlink) =? 1)
           then Some true else None
       end.

(** The disk as [OpenProtected] sees it. *)
Definition disk_fs (t : disk_tree) : FileSystem := {|
  fs_open directory p :=
    match t !! p with
    | None => Some ENOENT
    | Some NLink => Some ELOOP
    | Some (NFile _ _) => if directory then Some ENOTDIR else None
    | Some (NDir _) => None
    end;
  fs_stat p := match t !! p ≫= node_stat with Some st => StatOk st | None => StatErrno ENOENT end;
  fs_read p := inr (content (t !! p));
  fs_close _ := None;
|}.

Definition whole_disk : F disk_tree := λ d, (d, Done d.(tree)).

(** [OpenProtected], any call of which may fail. *)
Definition open_protected (p : string) (directory : bool) : F (option path) :=
  r ← sys;
  t ← whole_disk;
  mret match r with
       | Some _ => None
       | None => fst <$> OpenProtected (disk_fs t) p directory
       end.

Definition ticket (r : Receipt) : bool :=
  bool_decide (r.(phase) = kClaimed) && bool_decide (host_invocation = Some r.(invocation)) && HexId r.(nonce) 32.

(** The state directory is open, or not. *)
Definition CheckBootstrap (authority_path : string) (state : option path) (unit : string) : F bool :=
  if negb (ManagerIdentity unit) then mret false
  else
    authority ← open_protected authority_path true;
    match authority, state with
    | Some authority, Some state =>
        r ← ReadReceipt authority mg_getegid;
        match r with
        | None => mret false
        | Some receipt =>
            if negb (eqs receipt.(unit_) unit) then mret false
            else
              registry ← FilePresent state "definitions.registry";
              match registry with
              | None => mret false
              | Some registry =>
                  database ← FilePresent state "consent.db";
                  match database with
                  | None => mret false
                  | Some database =>
                      mret match Assess receipt.(phase) registry database (ticket receipt) with
                           | kReject => false
                           | _ => true
                           end
                  end
              end
        end
    | _, _ => mret false
    end.
End bootstrap.

(** ** What the gate lets through *)

Lemma split_join parts dir fs directory st : protected_from fs dir parts directory st →
  split_loop (join_path parts) "" = parts.
Proof.
  revert dir. induction parts as [|part parts IH]; intros dir Hp; [destruct Hp|]. rewrite split_loop_word.
  destruct parts as [|part' parts].
  - destruct Hp as [Hno _]. simpl. apply has_char_false, find_char_None in Hno. by rewrite Hno.
  - destruct Hp as (Hno & _ & Hp). change (join_path (part :: part' :: parts)) with
      (part +:+ String "/" (join_path (part' :: parts))).
    rewrite find_char_app by (by apply has_char_false). rewrite take_str_app, drop_str_app_S, app_nil_s.
    by rewrite (IH _ Hp).
Qed.

Lemma OpenProtected_split t p parts st : OpenProtected (disk_fs t) p true = Some (parts, st) →
  parts = split_path p ∧ is_directory parts t.
Proof.
  intros Ho. pose proof Ho as [-> Hp]%OpenProtected_iff. split; [symmetry; by eapply split_join|].
  apply OpenProtected_spec in Ho as (_ & _ & _ & _ & _ & (Hopen & _) & _). simpl in Hopen. unfold is_directory.
  destruct (t !! parts) as [[]|]; try done. eauto.
Qed.

Section gate.
Context `{Os} `{!OsLaws} `{Host} `{Manager}.

Lemma reader_FilePresent dir name :
  reader (FilePresent dir name) (λ o t, ∀ b, o = Some b → pair_state (dir ++ [name]) os_geteuid mg_getegid b t).
Proof.
  unfold FilePresent. eapply reader_bind; [apply reader_lstat|]. intros [e|st].
  - eapply reader_weaken; [apply reader_ret|]. intros o t -> [Ha _] b. destruct (e =? ENOENT) eqn:He; [|done].
    intros [= <-]. apply Z.eqb_eq in He as ->. by apply Ha.
  - eapply reader_weaken; [apply reader_ret|]. intros o t -> [_ Ha] b. destruct (_ && _) eqn:Hv; [|done].
    intros [= <-]. bool_hyps. destruct (Ha st eq_refl) as (n & Hn & Hst). simpl. exists n, st.
    destruct (node_stat n) as [st'|]; simpl in Hst; subst st; [|by match goal with Hx : S_ISREG _ = true |- _ => vm_compute in Hx end].
    split_and!; try done; by apply Z.eqb_eq.
Qed.

Lemma reader_open_protected p :
  reader (open_protected p true) (λ o t, ∀ q, o = Some q → q = split_path p ∧ is_directory q t).
Proof.
  unfold open_protected. eapply reader_bind; [apply reader_sys|]. intros r.
  eapply (reader_bind _ _ (λ a t, a = t)); [by intros t Q E K HK HE HQ n; apply HQ|]. intros t0.
  eapply reader_weaken; [apply reader_ret|]. intros o t -> -> _ q. destruct r as [e|]; [done|].
  destruct (OpenProtected (disk_fs t) p true) as [[parts st]|] eqn:Ho; [|done]. intros [= <-].
  by eapply OpenProtected_split.
Qed.

(** What holds when the daemon may open its data: existing data with an
    initialized receipt, or none with a receipt claimed for this invocation. *)
Definition may_start (t : disk_tree) : Prop :=
  ∃ r, receipt_state t = Some r ∧ r.(unit_) = CONSENT_SERVICE_UNIT ∧
    (r.(phase) = kInitialized ∧ pair_file (state_dir ++ ["definitions.registry"]) os_geteuid mg_getegid t ∨
     r.(phase) = kClaimed ∧ host_invocation = Some r.(invocation) ∧ pair_absent t).

Lemma reader_CheckBootstrap state :
  reader (CheckBootstrap CONSENT_AUTHORITY_DIR state CONSENT_SERVICE_UNIT)
    (λ b t, b = true → state = Some state_dir → may_start t).
Proof.
  assert (Hno : ∀ J, reader (mret false) (λ b t, J t → b = true → state = Some state_dir → may_start t)).
  { intros J. eapply reader_weaken; [apply reader_ret|]. by intros b t ->. }
  unfold CheckBootstrap. destruct (ManagerIdentity CONSENT_SERVICE_UNIT); cbn [negb].
  2: { eapply reader_weaken; [apply reader_ret|]. by intros b t ->. }
  eapply reader_bind; [apply reader_open_protected|]. intros [a|]; [|apply Hno]. destruct state as [state|]; [|apply Hno].
  eapply reader_bind; [apply reader_ReadReceipt|]. intros [r|]; [|eapply reader_weaken; [apply reader_ret|by intros b t ->]].
  destruct (eqs r.(unit_) _) eqn:Hu; cbn [negb]; [|eapply reader_weaken; [apply reader_ret|by intros b t ->]].
  eapply reader_bind; [apply reader_FilePresent|]. intros [registry|]; [|eapply reader_weaken; [apply reader_ret|by intros b t ->]].
  eapply reader_bind; [apply reader_FilePresent|]. intros [database|]; [|eapply reader_weaken; [apply reader_ret|by intros b t ->]].
  eapply reader_weaken; [apply reader_ret|]. intros b t -> Hdb Hreg Hr Hq Hb [= ->].
  destruct (Hq a eq_refl) as [-> Hd]. destruct (Hr r eq_refl) as [Hst _].
  rewrite authority_split in *. exists r. split; [by rewrite receipt_state_dir|]. apply eqs_true in Hu. split; [done|].
  specialize (Hdb _ eq_refl). specialize (Hreg _ eq_refl). unfold Assess in Hb.
  destruct (_ && ticket r && negb registry && negb database) eqn:Hfirst.
  - bool_hyps. subst registry database. unfold ticket in *. bool_hyps. right. by split_and!.
  - destruct (bool_decide (r.(phase) = kInitialized)) eqn:Hi; [|done]. bool_hyps. destruct registry; [|done]. by left.
Qed.
End gate.

(** ** The life of a system *)

(** What happens to the disk between two observations: a run of the helper, a
    start of the daemon that passes the gate, with the invocation and whether
    there was data, or any change outside the authority directory. *)
Inductive activity := AHelper | AStart (invocation : option string) (data : bool) | AOther.

Definition has_data (t : disk_tree) : bool :=
  negb (bool_decide (t !! (state_dir ++ ["definitions.registry"]) = None) &&
        bool_decide (t !! (state_dir ++ ["consent.db"]) = None)).

Inductive world_step (t : disk_tree) : activity → disk_tree → Prop :=
| ws_helper (os : Os) (laws : OsLaws) (rnd : Random) (host : Host) args n d e :
    main args (mkDisk t n) = (d, e) → world_step t AHelper d.(tree)
| ws_start (os : Os) (laws : OsLaws) (host : Host) (manager : Manager) n d :
    CheckBootstrap CONSENT_AUTHORITY_DIR (Some state_dir) CONSENT_SERVICE_UNIT (mkDisk t n) = (d, Done true) →
    world_step t (AStart host_invocation (has_data t)) t
| ws_other t' :
    (∀ q, take (length authority_dir) q = authority_dir → t' !! q = t !! q) → world_step t AOther t'.

Inductive world_run : disk_tree → list activity → disk_tree → Prop :=
| wr_done t : world_run t [] t
| wr_step t a t' l t'' : world_step t a t' → world_run t' l t'' → world_run t (a :: l) t''.

(** The first start belongs to the invocation [i]. *)
Definition taken (i : option string) (t : disk_tree) : Prop :=
  ∃ r, receipt_state t = Some r ∧ (r.(phase) = kInitialized ∨ r.(phase) = kClaimed ∧ i = Some r.(invocation)).

Lemma same_authority t t' : (∀ q, take (length authority_dir) q = authority_dir → t' !! q = t !! q) → calmly t t'.
Proof. intros Hq. apply calmly_same; by apply Hq. Qed.

Lemma taken_step i t a t' : taken i t → world_step t a t' → taken i t'.
Proof.
  intros (r & Hr & Hp) [os laws rnd host args n d e Hm| |t1 Ho]; [|by exists r|].
  - apply helper_receipt_step in Hm as Hs.
    destruct Hs as [Hs|_ Hs _|j nonce _ Hs _ _ _|j nonce user group _ Hs _ _ _ Ht|user group _ Hs _ _ Ht].
    + exists r. by rewrite Hs.
    + rewrite Hr in Hs. injection Hs as ->. by destruct Hp as [|[]].
    + rewrite Hr in Hs. injection Hs as ->. by destruct Hp as [|[]].
    + exists initialized. auto.
    + exists initialized. auto.
  - destruct (same_authority _ _ Ho) as [Hs _]. exists r. by rewrite Hs.
Qed.

(** A start without data is the claimed one. *)
Lemma start_first t i t' : world_step t (AStart i false) t' → t' = t ∧ ∃ r, receipt_state t = Some r ∧
  r.(phase) = kClaimed ∧ i = Some r.(invocation).
Proof.
  intros Hs. inversion Hs as [|os laws host manager n d Hc Hi Hd|]; subst. split; [done|].
  apply (reader_run _ _ _ _ _ (reader_CheckBootstrap _)) in Hc as [_ Hc]. destruct (Hc eq_refl eq_refl) as (r & Hr & _ & Hcase).
  exists r. split; [done|]. destruct Hcase as [[_ (n' & st & Hn & _)]|(Hp & Hinv & _)]; [|done].
  cbn [tree] in Hn. exfalso. match goal with Hx : has_data _ = false |- _ => unfold has_data in Hx; by rewrite Hn in Hx end.
Qed.

(** A start with data is after the initialization, for which no invocation
    can be first any more. *)
Lemma start_taken t i b t' : world_step t (AStart i b) t' → taken (if b then None else i) t'.
Proof.
  intros Hs. inversion Hs as [|os laws host manager n d Hc Hi Hd|]; subst.
  apply (reader_run _ _ _ _ _ (reader_CheckBootstrap _)) in Hc as [_ Hc]. destruct (Hc eq_refl eq_refl) as (r & Hr & _ & Hcase).
  exists r. split; [done|]. destruct Hcase as [[Hp _]|(Hp & Hinv & Hn1 & Hn2)]; [auto|]. right. cbn [tree] in Hn1, Hn2.
  unfold has_data. rewrite Hn1, Hn2. by rewrite !bool_decide_eq_true_2.
Qed.

Lemma taken_run i t l t' j : taken i t → world_run t l t' → AStart j false ∈ l → j = i.
Proof.
  intros Ht Hr. revert Ht. induction Hr as [t|t a t1 l t2 Hs Hr IH]; intros Ht; [by intros ?%not_elem_of_nil|].
  intros [<- |Hin]%elem_of_cons; [|eauto using taken_step].
  apply start_first in Hs as (_ & r & Hr1 & Hp & ->). destruct Ht as (r' & Hr' & Hcase). rewrite Hr1 in Hr'.
  injection Hr' as <-. destruct Hcase as [Hi|[_ Hi]]; congruence.
Qed.

Lemma world_run_app t l1 l2 t' : world_run t (l1 ++ l2) t' → ∃ t1, world_run t l1 t1 ∧ world_run t1 l2 t'.
Proof.
  revert t. induction l1 as [|a l1 IH]; intros t Hr; [exists t; split; [constructor|done]|].
  inversion Hr as [|? ? t1 ? ? Hs Hr']; subst. destruct (IH _ Hr') as (t2 & Hr1 & Hr2). exists t2.
  split; [by econstructor|done].
Qed.

(** C23: data is created once.  Whatever the order of helper runs, starts and
    other activity, wherever the helper is killed and whatever it is called
    with, all starts of the daemon without data that pass the gate belong to
    one invocation of the service, and after a start with data there is no
    start without. *)
Theorem first_start_once t l1 i b l2 j l3 t' :
  world_run t (l1 ++ AStart i b :: l2 ++ AStart j false :: l3) t' → b = false ∧ j = i.
Proof.
  intros Hr. apply world_run_app in Hr as (t1 & _ & Hr). inversion Hr as [|? ? t2 ? ? Hs Hr2]; subst.
  pose proof (start_taken _ _ _ _ Hs) as Ht. pose proof (taken_run _ _ _ _ j Ht Hr2 ltac:(set_solver)) as Hj.
  destruct b; [|done]. subst j. apply world_run_app in Hr2 as (t3 & _ & Hr3).
  inversion Hr3 as [|? ? t4 ? ? Hs3 _]; subst. by apply start_first in Hs3 as (_ & r & _ & _ & ?).
Qed.
