(* ===== verification/BootstrapWitnesses.v ===== *)
(** * A first start

    A disk with the system directories, on which the storage helper installs,
    is prepared for the first start, and the daemon starts; the theorems on
    the receipt applied to this run. *)
From S2P Require Import Prelude Strings Platform Message Wire Packing Localization Registration.
From S2P Require Import Identity ProfileConfig Offline OfflineSpec Recovery Storage StorageSpec StoragePhases.
From S2P Require Import Bootstrap.
Import offline.

(** Every system call succeeds. *)
#[local] Instance calm_os : Os := {|
  os_next _ := SysOk;
  os_written _ := 16%nat;
  os_order _ l := l;
  os_uuid _ := "";
  os_getuid := 0;
  os_geteuid := 0;
  os_getpid := 77;
  os_thread := 1;
  os_umask := 18;
|}.

#[local] Instance calm_laws : OsLaws.
Proof. split; [done|done]. Qed.

#[local] Instance demo_random : Random := {| os_random _ := "0123456789abcdef" |}.

Definition service_run : string := "00112233445566778899aabbccddeeff".

Definition no_child : Child := mkChild false (λ _, ("", false)) [] None.

#[local] Instance demo_host : Host := {|
  host_unit := Some CONSENT_SERVICE_UNIT;
  host_invocation := Some service_run;
  host_account := Some (301, 301);
  host_machine := Some "armv7l";
  host_rpm := no_child;
  host_systemctl := mkChild true (λ _, ("0" +:+ String newline "", true)) [] (Some 0);
|}.

#[local] Instance demo_manager : Manager := {|
  mg_cgroup := Some "/system.slice/consentd.service";
  mg_started := true;
  mg_turns := [mkTurn None (ReadBytes ("77" +:+ String newline "")) WaitExited];
  mg_rest := [];
  mg_status := Some 0;
  mg_getegid := 301;
|}.

Definition root_directory : node := NDir (mk_file_stat 7 2 16877 0 2 4096 0 0 0).

Definition bare_disk : disk_tree :=
  list_to_map [(["opt"], root_directory); (["opt"; "var"], root_directory); (["opt"; "var"; "lib"], root_directory)].

#[local] Abbreviation helper args t := ((main args (mkDisk t 0)).1.(tree)).
#[local] Abbreviation installed := (helper ["--first-install"] bare_disk).
#[local] Abbreviation prepared := (helper [] installed).

Example installed_fresh : receipt_state installed = Some fresh.
Proof. vm_compute. reflexivity. Qed.

Example prepared_claimed :
  receipt_state prepared = Some (claimed service_run (hex_bytes "0123456789abcdef")).
Proof. vm_compute. reflexivity. Qed.

Lemma WriteReceipt_atomic_witness :
  let run := WriteReceipt authority_dir 301 initialized (mkDisk prepared 0) in
  run.2 = Done true ∧ stored_receipt authority_dir run.1.(tree) = Some initialized.
Proof.
  intros run. assert (Hd : run.2 = Done true) by (vm_compute; reflexivity). split; [exact Hd|].
  destruct (WriteReceipt_atomic authority_dir 301 initialized prepared 0 run.1 run.2) as (_ & _ & _ & Hw).
  - apply surjective_pairing.
  - exact (proj1 (Hw Hd)).
Defined.

Lemma helper_phases_witness : receipt_step [] installed prepared.
Proof.
  apply (helper_phases [] installed 0 (main [] (mkDisk installed 0)).1 (main [] (mkDisk installed 0)).2).
  apply surjective_pairing.
Defined.

Definition gate (t : disk_tree) : Disk * fate bool :=
  CheckBootstrap CONSENT_AUTHORITY_DIR (Some state_dir) CONSENT_SERVICE_UNIT (mkDisk t 0).

Lemma start_step t : (gate t).2 = Done true → has_data t = false → world_step t (AStart (Some service_run) false) t.
Proof.
  intros Hg <-. apply (ws_start t calm_os calm_laws demo_host demo_manager 0 (gate t).1).
  apply injective_projections; [reflexivity|exact Hg].
Qed.

(** The gate lets the first start through. *)
Lemma first_start : world_step prepared (AStart (Some service_run) false) prepared.
Proof. apply start_step; vm_compute; reflexivity. Qed.

Lemma helper_step args t : world_step t AHelper (helper args t).
Proof. eapply (ws_helper _ calm_os calm_laws demo_random demo_host args 0). apply surjective_pairing. Qed.

Lemma first_start_once_witness :
  let i := Some service_run in
  world_run bare_disk ([AHelper; AHelper] ++ AStart i false :: [] ++ AStart i false :: []) prepared ∧ i = i.
Proof.
  intros i.
  assert (Hr : world_run bare_disk ([AHelper; AHelper] ++ AStart i false :: [] ++ AStart i false :: []) prepared).
  { econstructor; [apply (helper_step ["--first-install"])|]. econstructor; [apply (helper_step [])|].
    econstructor; [exact first_start|]. econstructor; [exact first_start|]. constructor. }
  split; [exact Hr|]. exact (proj2 (first_start_once _ _ _ _ _ _ _ _ Hr)).
Defined.
