(* ===== verification/Installer.v ===== *)
(** * The installation authority tool (src/tools/installation_authority.cc)

    The installer tells the tool, as root, that a package is being installed,
    which applications it has, that it is installed and that it was removed.
    The tool keeps the inventory that the daemon reads ([Identity]) in a key
    file of the authority directory and replaces it atomically.  GLib's key
    files are the class [KeyFiles]; the commands and the system calls around
    them are the code's, over the disk of [Offline].  The product build is
    modelled, without [CONSENT_TEST_BUILD]; messages on the standard error
    are not represented. *)
From S2P Require Import Prelude Strings Platform Message Wire Packing Localization Registration.
From S2P Require Import Identity Offline OfflineSpec Recovery Storage.
From Stdlib Require Import Ascii.
Import offline.

(** ** GLib's key files *)

Class KeyFiles := {
  GKeyFile : Type;
  (** What [g_key_file_get_groups] and [g_key_file_get_string] report. *)
  key_view : GKeyFile → KeyFile;
  g_key_file_new : GKeyFile;
  g_key_file_load_from_data : string → option GKeyFile;
  g_key_file_set_string : GKeyFile → string → string → string → GKeyFile;
  g_key_file_to_data : GKeyFile → option string;
}.

(** [g_uuid_string_random()]; every call draws a value of its own. *)
Definition random_uuid `{Os} : F string := λ d, (mkDisk d.(tree) (S d.(clock)), Done (os_uuid d.(clock))).

Module installer.
Section installer.
Context `{Platform} `{KeyFiles}.

Definition identifier_byte (value : ascii) : bool :=
  negb (negb (g_ascii_isalnum value) && negb (bool_decide (value = "."%char)) &&
        negb (bool_decide (value = "_"%char)) && negb (bool_decide (value = "-"%char))).

Definition Identifier (text : string) : bool :=
  if empty text || (size text >? 255) then false else all_of identifier_byte text.

Definition Get (file : GKeyFile) (group key : string) : string :=
  default "" ((key_view file).(kf_string) group key).

Definition Set_ (file : GKeyFile) (group key value : string) : GKeyFile :=
  g_key_file_set_string file group key value.

Definition groups (file : GKeyFile) : list string := (key_view file).(kf_groups).

(** ** Apply *)

(** What the command line asks for. *)
Record Request := mkRequest {
  command : string; package : string; app : string; operation : string; expected : string;
}.

Definition key (package : string) : string := "package " +:+ package.
Definition operation_key (operation : string) : string := "operation " +:+ operation.

Definition fingerprint (rq : Request) : string :=
  rq.(command) +:+ "|" +:+ rq.(package) +:+ "|" +:+ rq.(app) +:+ "|" +:+ rq.(expected).

(** The loop that retires the applications of a package. *)
Definition set_removed (file : GKeyFile) (l : list string) (package : string) : GKeyFile :=
  foldl (λ file group,
    if eqs (Get file group "package") package then Set_ file group "state" "removed" else file) file l.

(** The loop that activates the pending applications of a generation, with
    the number of them. *)
Definition set_active (file : GKeyFile) (l : list string) (package current : string) : GKeyFile * Z :=
  foldl (λ '(file, apps) group,
    if eqs (Get file group "package") package && eqs (Get file group "generation") current &&
       eqs (Get file group "state") "pending"
    then (Set_ file group "state" "active", apps + 1) else (file, apps)) (file, 0) l.

(** The four commands: the new file and [*result], or [ok = false]. *)
Definition apply_begin (file : GKeyFile) (rq : Request) (uuid : string) : GKeyFile * string :=
  let l := groups file in
  let file := Set_ file (key rq.(package)) "generation" uuid in
  let file := Set_ file (key rq.(package)) "state" "pending" in
  (set_removed file l rq.(package), uuid).

Definition apply_attach (file : GKeyFile) (rq : Request) (current : string) : option (GKeyFile * string) :=
  let owner := Get file rq.(app) "package" in
  if negb (empty owner) && negb (eqs owner rq.(package)) then None
  else
    let file := Set_ file rq.(app) "package" rq.(package) in
    let file := Set_ file rq.(app) "generation" current in
    let file := Set_ file rq.(app) "state" "pending" in
    Some (file, current).

Definition apply_commit (file : GKeyFile) (rq : Request) (current : string) : option (GKeyFile * string) :=
  let '(file, apps) := set_active file (groups file) rq.(package) current in
  if apps =? 0 then None else Some (Set_ file (key rq.(package)) "state" "active", current).

Definition apply_remove (file : GKeyFile) (rq : Request) (current : string) : GKeyFile * string :=
  let l := groups file in
  let file := Set_ file (key rq.(package)) "state" "removed" in
  (set_removed file l rq.(package), current).

(** The record of a finished operation. *)
Definition record_operation (file : GKeyFile) (rq : Request) (result : string) : GKeyFile :=
  let file := Set_ file "authority" "schema" "1" in
  let file := Set_ file (operation_key rq.(operation)) "fingerprint" (fingerprint rq) in
  Set_ file (operation_key rq.(operation)) "generation" result.

(** [None] is [false]; [uuid] is the generation that [begin] draws. *)
Definition Apply (file : GKeyFile) (rq : Request) (uuid : string) : option (GKeyFile * string) :=
  let previous := Get file (operation_key rq.(operation)) "fingerprint" in
  if negb (empty previous) then
    if negb (eqs previous (fingerprint rq)) then None
    else Some (file, Get file (operation_key rq.(operation)) "generation")
  else if Z.of_nat (length (groups file)) >=? 4096 then None
  else
    let current := Get file (key rq.(package)) "generation" in
    let state := Get file (key rq.(package)) "state" in
    let ok := eqs current rq.(expected) || (empty current && eqs rq.(expected) "absent") in
    '(file, result) ←
      (if eqs rq.(command) "begin" && ok then Some (apply_begin file rq uuid)
       else if eqs rq.(command) "attach" && ok && eqs state "pending" then apply_attach file rq current
       else if eqs rq.(command) "commit" && ok && eqs state "pending" then apply_commit file rq current
       else if eqs rq.(command) "remove" && ok && negb (empty current) then Some (apply_remove file rq current)
       else None);
    Some (record_operation file rq result, result).

(** ** The command line *)

Definition image_option : string := "--image-root".

(** [argv] from [argv[1]] on: the image root, if one is given, and the
    request; [None] is exit status 2. *)
Definition parse_arguments (args : list string) : option (option string * Request) :=
  let image := match args with a :: _ => eqs a image_option | [] => false end in
  let rest := if image then drop 2 args else args in
  let root := if image then args !! 1%nat else None in
  '(command_, package_, app_, operation_, expected_) ←
    (match rest with
     | [c; p; o; e] => if eqs c "attach" then None else Some (c, p, "", o, e)
     | [c; p; a; o; e] => if eqs c "attach" then Some (c, p, a, o, e) else None
     | _ => None
     end);
  if negb (eqs command_ "begin") && negb (eqs command_ "attach") && negb (eqs command_ "commit") &&
     negb (eqs command_ "remove")
  then None
  else if negb (Identifier package_) || (eqs command_ "attach" && negb (Identifier app_)) ||
          negb (Identifier operation_) || negb (Identifier expected_)
  then None
  else Some (root, mkRequest command_ package_ app_ operation_ expected_).

(** ** Files *)

Context `{Os}.

Definition CONSENT_AUTHORITY_DIR : string := "/opt/var/lib/consent-authority".
Definition inventory_name : string := "installations.conf".
Definition inventory_limit : Z := 1048576.

(** The loop of [OpenDirectory] on the bytes of the path from [offset] on;
    [None] is [-1].  A component takes at least one byte. *)
Fixpoint open_components (fuel : nat) (dir : path) (rest : string) : F (option path) :=
  match fuel with
  | O => mret None
  | S fuel' =>
      if empty rest then mret (Some dir)
      else
        let end_ := find_char "/" rest in
        let component := match end_ with None => rest | Some n => take_str n rest end in
        r ← openat dir component true;
        if negb (bool_decide (r = None)) then mret None
        else
          st ← fstat (dir ++ [component]);
          if negb match st with Some st => (st.(st_uid) =? 0) && (Z.land st.(st_mode) 18 =? 0) | None => false end
          then mret None
          else
            match end_ with
            | None => mret (Some (dir ++ [component]))
            | Some n => open_components fuel' (dir ++ [component]) (drop_str (S n) rest)
            end
  end.

Definition OpenDirectory : F (option path) :=
  r ← sys;
  if negb (bool_decide (r = None)) then mret None
  else open_components (String.length CONSENT_AUTHORITY_DIR) [] (drop_str 1 CONSENT_AUTHORITY_DIR).

(** *** Persist *)

Definition temporary (uuid : string) : string := ".installations-" +:+ uuid.

(** The attributes of the new file. *)
Definition new_group (image : bool) (previous : option file_stat) (directory : file_stat) : Z :=
  if image then match previous with Some st => st.(st_gid) | None => 0 end else directory.(st_gid).
Definition new_mode (image : bool) (previous : option file_stat) : Z :=
  if image then match previous with Some st => Z.land st.(st_mode) 511 | None => 384 end else 416.

(** From the attributes of the new file to its [fsync]. *)
Definition fill (dir : path) (name data : string) (image : bool) (previous : option file_stat) : F () :=
  info ← fstat dir;
  match info with
  | None => fail refused
  | Some info =>
      own (dir ++ [name]) 0 (new_group image previous info) (new_mode image previous);;
      (if image then mret () else r ← sys; need r);;
      write_loop (String.length data) (dir ++ [name]) data;;
      fsync (dir ++ [name])
  end.

(** [ok = ok && call == 0]. *)
Definition and_then (ok : bool) (call : F (option Z)) : F bool :=
  if ok then r ← call; mret (bool_decide (r = None)) else mret false.

(** The new file, created, filled and closed. *)
Definition draft (dir : path) (name data : string) (image : bool) (previous : option file_stat) : F bool :=
  made ← create_at dir name;
  ok ← try (need made;; fill dir name data image previous;; mret true) (λ _, mret false);
  closed ← (if bool_decide (made = None) then r ← sys; mret (bool_decide (r = None)) else mret true);
  mret (ok && closed).

Definition Persist (dir : path) (file : GKeyFile) (image : bool) (previous : option file_stat) : F bool :=
  match g_key_file_to_data file with
  | None => mret false
  | Some data =>
      if size data >? inventory_limit then mret false
      else
        uuid ← random_uuid;
        let name := temporary uuid in
        ok ← draft dir name data image previous;
        ok ← and_then ok (renameat dir name inventory_name);
        ok ← and_then ok sys;
        if ok : bool then mret true else unlinkat dir name;; mret false
  end.

(** *** The inventory file *)

Definition previous_valid (image : bool) (st : file_stat) : bool :=
  (st.(st_uid) =? 0) && (Z.land st.(st_mode) 23 =? 0) && (st.(st_nlink) =? 1) && S_ISREG st.(st_mode) &&
  (st.(st_size) <=? inventory_limit) &&
  (if image then (permissions st =? 384) || (permissions st =? 416) else true).

(** The loaded file and the attributes it had; [None] is [ok = false]. *)
Definition read_inventory (dir : path) (image : bool) : F (option (GKeyFile * option file_stat)) :=
  r ← openat dir inventory_name false;
  match r with
  | Some e => mret (if e =? ENOENT then Some (g_key_file_new, None) else None)
  | None =>
      st ← fstat (dir ++ [inventory_name]);
      match st with
      | None => mret None
      | Some st =>
          if negb (previous_valid image st) then mret None
          else
            r ← sys;
            n ← look (dir ++ [inventory_name]);
            match n with
            | Some (NFile _ data) =>
                if negb (bool_decide (r = None)) || (size data >? inventory_limit) then mret None
                else
                  match g_key_file_load_from_data data with
                  | None => mret None
                  | Some file =>
                      mret (if eqs (Get file "authority" "schema") "1" then Some (file, Some st) else None)
                  end
            | _ => mret None
            end
      end
  end.

(** *** The locks *)

(** The shared lock of a tool that is not working on an image. *)
Definition lifecycle_valid (st dir : file_stat) : bool :=
  (st.(st_uid) =? 0) && S_ISREG st.(st_mode) && (st.(st_nlink) =? 1) && (st.(st_gid) =? dir.(st_gid)) &&
  (Z.land st.(st_mode) 511 =? 416).

Definition take_lifecycle (dir : path) : F bool :=
  r ← openat dir lifecycle_name false;
  if negb (bool_decide (r = None)) then mret false
  else
    r ← sys;
    if negb (bool_decide (r = None)) then mret false
    else
      info ← fstat dir;
      st ← fstat (dir ++ [lifecycle_name]);
      mret match info, st with
           | Some info, Some st => lifecycle_valid st info
           | _, _ => false
           end.

Definition lock_name : string := "installations.lock".

(** [openat] with [O_CREAT | O_RDWR] and mode 0600. *)
Definition open_or_create (dir : path) (name : string) : F (option Z) :=
  n ← look (dir ++ [name]);
  match n with
  | None => sys_do (<[dir ++ [name] := NFile (new_stat 32768 384) ""]>)
  | Some _ => open_rw dir name
  end.

Definition lock_file_valid (st : file_stat) : bool :=
  (st.(st_uid) =? 0) && S_ISREG st.(st_mode) && (Z.land st.(st_mode) 63 =? 0) && (st.(st_nlink) =? 1).

Definition take_lock (dir : path) : F bool :=
  r ← open_or_create dir lock_name;
  if negb (bool_decide (r = None)) then mret false
  else
    st ← fstat (dir ++ [lock_name]);
    if negb match st with Some st => lock_file_valid st | None => false end then mret false
    else r ← sys; mret (bool_decide (r = None)).

(** ** main *)

(** Under the locks: the exit status and what is printed. *)
Definition update (dir : path) (rq : Request) (image : bool) : F (Z * string) :=
  read ← read_inventory dir image;
  match read with
  | None => mret (1, "")
  | Some (file, previous) =>
      uuid ← random_uuid;
      match Apply file rq uuid with
      | None => mret (1, "")
      | Some (file, result) =>
          ok ← Persist dir file image previous;
          mret (if ok : bool then (0, result) else (1, ""))
      end
  end.

(** The authority directory: the system's, or the one of an image. *)
Definition open_authority (root : option string) : F (option path) :=
  match root with
  | None => OpenDirectory
  | Some root =>
      opened ← Open (mkImageRoot None false 0 0) root CONSENT_AUTHORITY_DIR;
      if opened.2 <? 0 then mret None
      else
        r ← sys;
        mret (if bool_decide (r = None) then opened.1.(ir_directory) else None)
  end.

Definition main (args : list string) : F (Z * string) :=
  if negb (os_geteuid =? 0) then mret (2, "")
  else
    match parse_arguments args with
    | None => mret (2, "")
    | Some (root, rq) =>
        directory ← open_authority root;
        match directory with
        | None => mret (1, "")
        | Some dir =>
            let image := bool_decide (root ≠ None) in
            lifecycle ← (if image then mret true else take_lifecycle dir);
            if negb lifecycle then mret (1, "")
            else
              locked ← take_lock dir;
              if negb locked then mret (1, "") else update dir rq image
        end
    end.
End installer.
End installer.
