(* ===== verification/InstallerSpec.v ===== *)
(** * What the installation inventory means

    The abstract inventory: packages with a generation and a state, the
    applications attached to them and the operations already performed.
    [perform] is the contract of the four commands; [Apply] implements it on
    every key file that represents an abstract inventory, and the daemon
    reads such a key file as it is meant. *)
From S2P Require Import Prelude Strings Platform Message Wire Packing Localization Registration.
From S2P Require Import Identity Offline OfflineSpec Recovery Storage Installer.
From Stdlib Require Import Ascii.
Import installer.

(** ** Documented behaviour of GLib *)

(** Bytes that a key file stores as they are. *)
Definition plain_byte (c : ascii) : bool :=
  ascii_letter c || is_digit c || bool_decide (c = "."%char) || bool_decide (c = "_"%char) ||
  bool_decide (c = "-"%char) || bool_decide (c = "|"%char) || bool_decide (c = " "%char).

Definition plain (s : string) : bool := all_of plain_byte s.

(** Names of groups and of keys that GLib accepts. *)
Definition group_name (s : string) : bool := negb (empty s) && plain s.
Definition key_name (s : string) : bool :=
  negb (empty s) && all_of (λ c, plain_byte c && bool_decide (c ≠ " "%char)) s.

Definition writable `{KeyFiles} (f : GKeyFile) (group : string) : Prop := group ∈ groups f ∨ group_name group = true.

Class KeyFilesLaws `{KeyFiles} : Prop := {
  groups_new : groups g_key_file_new = [];
  (** A string is found in a group of the file only. *)
  string_group : ∀ f g k v, (key_view f).(kf_string) g k = Some v → g ∈ groups f;
  (** Setting a string changes this string, and adds the group if needed. *)
  set_string : ∀ f g k v g' k', writable f g → key_name k = true → plain v = true →
    (key_view (g_key_file_set_string f g k v)).(kf_string) g' k' =
    if bool_decide (g' = g ∧ k' = k) then Some v else (key_view f).(kf_string) g' k';
  set_groups : ∀ f g k v, writable f g → key_name k = true → plain v = true →
    groups (g_key_file_set_string f g k v) ≡ₚ
    if bool_decide (g ∈ groups f) then groups f else g :: groups f;
  (** What is written is read back; a C string has no zero byte. *)
  data_load : ∀ f s, g_key_file_to_data f = Some s → ∃ f', g_key_file_load_from_data s = Some f' ∧
    (∀ g k, (key_view f').(kf_string) g k = (key_view f).(kf_string) g k) ∧ groups f' ≡ₚ groups f;
  data_text : ∀ f s, g_key_file_to_data f = Some s → has_char nul s = false ∧ (groups f ≠ [] → s ≠ "");
}.

(** The form of a UUID: 36 lower-case hexadecimal digits and hyphens. *)
Definition uuid_form (s : string) : bool :=
  (size s =? 36) && all_of (λ c, offline.hex_lower c || bool_decide (c = "-"%char)) s.

Class UuidLaws `{offline.Os} : Prop := { uuid_text : ∀ n, uuid_form (offline.os_uuid n) = true }.

(** ** The abstract inventory *)

Inductive Status := Pending | Active | Removed.

#[export] Instance Status_eq_dec : EqDecision Status.
Proof. solve_decision. Defined.

Record Package := mkPackage { pk_generation : string; pk_state : Status }.
Record App := mkApp { ap_package : string; ap_generation : string; ap_state : Status }.

#[export] Instance Package_eq_dec : EqDecision Package.
Proof. solve_decision. Defined.
#[export] Instance App_eq_dec : EqDecision App.
Proof. solve_decision. Defined.

Inductive Command := Begin | Attach (app : string) | Commit | Remove.

#[export] Instance Command_eq_dec : EqDecision Command.
Proof. solve_decision. Defined.

(** A command for a package in the generation the caller has seen. *)
Record Order := mkOrder { or_command : Command; or_package : string; or_expected : string }.

#[export] Instance Order_eq_dec : EqDecision Order.
Proof. solve_decision. Defined.

Record Inventory_ := mkInventory {
  packages : gmap string Package;
  apps : gmap string App;
  operations : gmap string (Order * string);
}.

Definition no_inventory : Inventory_ := mkInventory ∅ ∅ ∅.

Definition retire (package : string) (a : App) : App :=
  if bool_decide (a.(ap_package) = package) then mkApp a.(ap_package) a.(ap_generation) Removed else a.

Definition activate (package generation : string) (a : App) : App :=
  if bool_decide (a = mkApp package generation Pending) then mkApp package generation Active else a.

(** The generation the caller expects is the current one. *)
Definition expects (s : Inventory_) (o : Order) : bool :=
  match s.(packages) !! o.(or_package) with
  | None => eqs o.(or_expected) "absent"
  | Some k => eqs k.(pk_generation) o.(or_expected)
  end.

Definition begun (uuid package : string) (s : Inventory_) : Inventory_ :=
  mkInventory (<[package := mkPackage uuid Pending]> s.(packages)) (retire package <$> s.(apps)) s.(operations).
Definition attached (app package generation : string) (s : Inventory_) : Inventory_ :=
  mkInventory s.(packages) (<[app := mkApp package generation Pending]> s.(apps)) s.(operations).
Definition committed (package generation : string) (s : Inventory_) : Inventory_ :=
  mkInventory (<[package := mkPackage generation Active]> s.(packages))
    (activate package generation <$> s.(apps)) s.(operations).
Definition removed (package generation : string) (s : Inventory_) : Inventory_ :=
  mkInventory (<[package := mkPackage generation Removed]> s.(packages)) (retire package <$> s.(apps)) s.(operations).
Definition recorded (operation : string) (o : Order) (result : string) (s : Inventory_) : Inventory_ :=
  mkInventory s.(packages) s.(apps) (<[operation := (o, result)]> s.(operations)).

(** An application belongs to one package for ever. *)
Definition attachable (app package : string) (s : Inventory_) : bool :=
  match s.(apps) !! app with None => true | Some a => eqs a.(ap_package) package end.

Definition awaited (package generation : string) (s : Inventory_) : bool :=
  bool_decide (map_Exists (λ _ a, a = mkApp package generation Pending) s.(apps)).

(** One command: the generation it is about and the new inventory. *)
Definition change (o : Order) (uuid : string) (s : Inventory_) : option (string * Inventory_) :=
  if negb (expects s o) then None
  else
    match o.(or_command), s.(packages) !! o.(or_package) with
    | Begin, _ => Some (uuid, begun uuid o.(or_package) s)
    | Attach app, Some (mkPackage g Pending) =>
        if attachable app o.(or_package) s then Some (g, attached app o.(or_package) g s) else None
    | Commit, Some (mkPackage g Pending) =>
        if awaited o.(or_package) g s then Some (g, committed o.(or_package) g s) else None
    | Remove, Some k => Some (k.(pk_generation), removed o.(or_package) k.(pk_generation) s)
    | _, _ => None
    end.

(** A named operation is performed once; repeating it reports its result. *)
Definition perform (full : bool) (operation : string) (o : Order) (uuid : string) (s : Inventory_)
  : option (string * Inventory_) :=
  match s.(operations) !! operation with
  | Some (o', result) => if bool_decide (o' = o) then Some (result, s) else None
  | None =>
      if full then None
      else '(result, s') ← change o uuid s; Some (result, recorded operation o result s')
  end.

Definition step (s s' : Inventory_) : Prop :=
  ∃ full operation o uuid result, uuid_form uuid = true ∧ perform full operation o uuid s = Some (result, s').

(** ** Consistency *)

(** An application that is not removed has the generation and the state of
    its package. *)
Definition consistent (s : Inventory_) : Prop :=
  ∀ app a, s.(apps) !! app = Some a → a.(ap_state) ≠ Removed →
    s.(packages) !! a.(ap_package) = Some (mkPackage a.(ap_generation) a.(ap_state)).

Lemma lookup_retire p s app a :
  (retire p <$> s.(apps)) !! app = Some a → a.(ap_state) ≠ Removed →
  a.(ap_package) ≠ p ∧ s.(apps) !! app = Some a.
Proof.
  rewrite lookup_fmap. intros (b & Hb & ->)%fmap_Some. unfold retire. by case_bool_decide.
Qed.

Lemma change_consistent o uuid s result s' :
  change o uuid s = Some (result, s') → consistent s → consistent s'.
Proof.
  intros Hc Hs. unfold change in Hc. destruct (expects s o); [|done]. simpl in Hc.
  destruct o.(or_command) as [|app| |]; destruct (s.(packages) !! o.(or_package)) as [[g []]|] eqn:Hp; simplify_eq/=;
    repeat case_match; simplify_eq/=; intros x a Ha Hn; simpl in *.
  all: try (apply lookup_retire in Ha as [Hne Ha]; [|done]; rewrite lookup_insert_ne by done; by eapply Hs).
  - destruct (decide (x = app)) as [-> |Hx].
    + rewrite lookup_insert_eq in Ha. by injection Ha as <-.
    + rewrite lookup_insert_ne in Ha by done. by eapply Hs.
  - rewrite lookup_fmap in Ha. apply fmap_Some in Ha as (b & Hb & ->). unfold activate in *. case_bool_decide as Hw.
    + simpl. by rewrite lookup_insert_eq.
    + destruct (decide (b.(ap_package) = o.(or_package))) as [Heq|Hne].
      * pose proof (Hs _ _ Hb Hn) as Hk. rewrite Heq, Hp in Hk. injection Hk as Hg Hst. exfalso. apply Hw.
        destruct b. by simplify_eq/=.
      * rewrite lookup_insert_ne by done. by eapply Hs.
Qed.

Lemma step_consistent s s' : step s s' → consistent s → consistent s'.
Proof.
  intros (full & op & o & uuid & result & _ & Hp) Hs. unfold perform in Hp.
  destruct (s.(operations) !! op) as [[o' r]|]; [case_bool_decide; by simplify_eq|]. destruct full; [done|].
  apply bind_Some in Hp as ([r s1] & Hc & [= <- <-]). intros x a. apply (change_consistent _ _ _ _ _ Hc Hs).
Qed.

Lemma steps_consistent s : rtc step no_inventory s → consistent s.
Proof.
  intros Hr. assert (H0 : consistent no_inventory) by done. revert H0.
  induction Hr as [|s s' s'' Hs _ IH]; [done|]. intros H0. apply IH. by eapply step_consistent.
Qed.

(** ** Key files that represent an inventory *)

Definition status_name (s : Status) : string :=
  match s with Pending => "pending" | Active => "active" | Removed => "removed" end.

Definition command_name (c : Command) : string :=
  match c with Begin => "begin" | Attach _ => "attach" | Commit => "commit" | Remove => "remove" end.

Definition command_app (c : Command) : string := match c with Attach app => app | _ => "" end.

(** The request of the command line for an order. *)
Definition request (operation : string) (o : Order) : Request :=
  mkRequest (command_name o.(or_command)) o.(or_package) (command_app o.(or_command)) operation o.(or_expected).

Section represents.
Context `{Platform} `{KeyFiles}.
Implicit Types (f : GKeyFile) (s : Inventory_).

Definition valid_order (o : Order) : Prop :=
  Identifier o.(or_package) = true ∧ Identifier o.(or_expected) = true ∧
  match o.(or_command) with Attach app => Identifier app = true | _ => True end.

Record well_formed s : Prop := {
  wf_package : ∀ p k, s.(packages) !! p = Some k → Identifier p = true ∧ uuid_form k.(pk_generation) = true;
  wf_app : ∀ g a, s.(apps) !! g = Some a →
    Identifier g = true ∧ Identifier a.(ap_package) = true ∧ uuid_form a.(ap_generation) = true;
  wf_operation : ∀ op o r, s.(operations) !! op = Some (o, r) →
    Identifier op = true ∧ valid_order o ∧ uuid_form r = true;
}.

(** The groups of an inventory. *)
Inductive known_group s : string → Prop :=
| kg_authority : known_group s "authority"
| kg_package p : is_Some (s.(packages) !! p) → known_group s (key p)
| kg_operation op : is_Some (s.(operations) !! op) → known_group s (operation_key op)
| kg_app g : is_Some (s.(apps) !! g) → known_group s g.

Record represents f s : Prop := {
  rp_package : ∀ p, Identifier p = true →
    Get f (key p) "generation" = from_option pk_generation "" (s.(packages) !! p) ∧
    Get f (key p) "state" = from_option (λ k, status_name k.(pk_state)) "" (s.(packages) !! p);
  rp_owner : ∀ g, Get f g "package" = from_option ap_package "" (s.(apps) !! g);
  rp_app : ∀ g a, s.(apps) !! g = Some a →
    Get f g "generation" = a.(ap_generation) ∧ Get f g "state" = status_name a.(ap_state);
  rp_operation : ∀ op, Identifier op = true →
    Get f (operation_key op) "fingerprint" =
      from_option (λ r, fingerprint (request op r.1)) "" (s.(operations) !! op) ∧
    Get f (operation_key op) "generation" = from_option snd "" (s.(operations) !! op);
  rp_group : ∀ g, g ∈ groups f → known_group s g;
}.
End represents.

(** ** Text *)

Section text.
Context `{Platform} `{!PlatformLaws}.

Lemma identifier_byte_plain c :
  identifier_byte c = true → plain_byte c = true ∧ c ≠ "|"%char ∧ c ≠ " "%char.
Proof.
  unfold identifier_byte, plain_byte. rewrite isalnum_spec. intros Hc. split.
  - rewrite negb_true_iff in Hc. destruct (ascii_letter c || is_digit c); [done|]. simpl in *.
    repeat case_bool_decide; done.
  - split; intros ->; by vm_compute in Hc.
Qed.

Lemma Identifier_all s : Identifier s = true → s ≠ "" ∧ size s ≤ 255 ∧ all_of identifier_byte s = true.
Proof.
  unfold Identifier. destruct (empty s || _) eqn:He; [done|]. intros Hs. str_hyps. split_and!; [done|lia|done].
Qed.

Lemma Identifier_plain s : Identifier s = true → plain s = true.
Proof.
  intros (_ & _ & Hs)%Identifier_all. eapply all_of_impl; [|exact Hs]. by intros c [Hc _]%identifier_byte_plain.
Qed.

Lemma Identifier_bar s : Identifier s = true → has_char "|" s = false.
Proof.
  intros (_ & _ & Hs)%Identifier_all. apply negb_false_iff. eapply all_of_impl; [|exact Hs].
  intros c Hc%identifier_byte_plain. apply bool_decide_eq_true. naive_solver.
Qed.

Lemma Identifier_key s p : Identifier s = true → s ≠ key p ∧ s ≠ operation_key p.
Proof.
  intros (_ & _ & Hs)%Identifier_all.
  assert (Hb : all_of (λ c, bool_decide (c ≠ " "%char)) s = true).
  { eapply all_of_impl; [|exact Hs]. intros c Hc%identifier_byte_plain. apply bool_decide_eq_true. naive_solver. }
  split; intros ->; unfold key, operation_key in Hb; by rewrite all_of_app in Hb.
Qed.

Lemma Identifier_group s : Identifier s = true → group_name s = true.
Proof.
  intros Hs. pose proof (Identifier_plain s Hs) as Hp. apply Identifier_all in Hs as (Hne & _).
  unfold group_name. rewrite Hp, andb_true_r. by destruct s.
Qed.

Lemma uuid_plain u : uuid_form u = true → plain u = true ∧ u ≠ "" ∧ size u = 36.
Proof.
  unfold uuid_form. intros Hu. bool_hyps. split_and!; [|by intros ->|by apply Z.eqb_eq].
  eapply all_of_impl; [|eassumption]. intros c. cbv beta. unfold plain_byte, offline.hex_lower, ascii_letter.
  intros Hc. apply orb_true_iff in Hc as [[Hc|Hc]%orb_true_iff|Hc].
  - by rewrite Hc, orb_true_r.
  - bool_hyps. rewrite !orb_true_iff, !andb_true_iff, !Z.leb_le in *. left. left. left. left. left. left. right. lia.
  - by rewrite Hc, !orb_true_r.
Qed.

Lemma split_bar a b a' b' :
  has_char "|" a = false → has_char "|" a' = false →
  a +:+ "|" +:+ b = a' +:+ "|" +:+ b' → a = a' ∧ b = b'.
Proof.
  intros Ha%negb_false_iff Ha'%negb_false_iff He. change ("|" +:+ b) with (String "|" b) in He.
  change ("|" +:+ b') with (String "|" b') in He.
  pose proof (find_char_app "|" a b Ha) as H1. rewrite He, (find_char_app "|" a' b' Ha') in H1. injection H1 as H1.
  apply app_inj_len in He as [-> He]; [|done]. by injection He.
Qed.

(** Different orders have different fingerprints. *)
Lemma fingerprint_inj op o op' o' : valid_order o → valid_order o' →
  fingerprint (request op o) = fingerprint (request op' o') → o = o'.
Proof.
  intros Ho Ho'. pose proof (proj1 Ho). pose proof (proj1 Ho'). unfold fingerprint. simpl.
  assert (Hc : ∀ c, has_char "|" (command_name c) = false) by (by intros []).
  assert (Hb : ∀ x, valid_order x → has_char "|" (command_app x.(or_command)) = false).
  { intros x (_ & _ & Hx). destruct x.(or_command); [done|by apply Identifier_bar|done|done]. }
  intros He. apply split_bar in He as [E1 He]; [|by apply Hc..].
  apply split_bar in He as [E2 He]; [|by apply Identifier_bar..].
  apply split_bar in He as [E3 E4]; [|by apply Hb..].
  destruct o as [c p e], o' as [c' p' e']. simpl in *. subst. f_equal. destruct c, c'; naive_solver.
Qed.

Lemma fingerprint_nonempty rq : fingerprint rq ≠ "".
Proof. unfold fingerprint. by destruct rq.(command). Qed.
End text.
