(* ===== verification/InstallerRefine.v ===== *)
(** * The commands of the tool implement the abstract inventory

    What a sequence of [g_key_file_set_string] calls leaves in a key file,
    command by command, and that [Apply] on a key file that represents an
    inventory does what [perform] does, or refuses when [perform] refuses. *)
From S2P Require Import Prelude Strings Platform Message Wire Packing Localization Registration.
From S2P Require Import Identity Offline OfflineSpec Recovery Storage Installer InstallerSpec.
From Stdlib Require Import Ascii.
Import installer.

Section edits.
Context `{Platform} `{!PlatformLaws} `{KeyFiles} `{!KeyFilesLaws}.
Implicit Types (f : GKeyFile) (s : Inventory_) (l : list string).

Lemma Get_Set f g k v g' k' : writable f g → key_name k = true → plain v = true →
  Get (Set_ f g k v) g' k' = if bool_decide (g' = g ∧ k' = k) then v else Get f g' k'.
Proof. intros. unfold Get, Set_. rewrite set_string by done. by case_bool_decide. Qed.

Lemma elem_groups_Set f g k v x : writable f g → key_name k = true → plain v = true →
  x ∈ groups (Set_ f g k v) ↔ x = g ∨ x ∈ groups f.
Proof. intros. unfold Set_. rewrite set_groups by done. case_bool_decide; set_solver. Qed.

Lemma Get_group f g k : Get f g k ≠ "" → g ∈ groups f.
Proof. unfold Get. destruct (kf_string _ g k) eqn:Hg; [|done]. intros _. by eapply string_group. Qed.

(** The groups only grow. *)
Lemma writable_Set f g k v x : writable f g → key_name k = true → plain v = true →
  writable f x → writable (Set_ f g k v) x.
Proof. intros ??? [Hx|Hx]; [left; apply elem_groups_Set; auto|by right]. Qed.

Lemma set_removed_spec l f p : (∀ g, g ∈ l → g ∈ groups f) →
  (∀ g k, Get (set_removed f l p) g k =
     if bool_decide (k = "state" ∧ g ∈ l ∧ Get f g "package" = p) then "removed" else Get f g k) ∧
  groups (set_removed f l p) ≡ₚ groups f.
Proof.
  revert f. induction l as [|x l IH]; intros f Hl; simpl.
  { split; [|done]. intros g k. rewrite bool_decide_eq_false_2; [done|]. set_solver. }
  destruct (eqs (Get f x "package") p) eqn:Hx; str_hyps.
  - assert (Hw : writable f x) by (left; apply Hl; set_solver).
    destruct (IH (Set_ f x "state" "removed")) as [IHg IHm].
    { intros g Hg. apply elem_groups_Set; [done..|]. right. apply Hl. set_solver. }
    split.
    + intros g k. fold (set_removed (Set_ f x "state" "removed") l p). rewrite IHg, !Get_Set by done.
      repeat case_bool_decide; destruct_and?; subst; try done; exfalso; set_solver.
    + fold (set_removed (Set_ f x "state" "removed") l p). rewrite IHm. unfold Set_. rewrite set_groups by done.
      rewrite bool_decide_eq_true_2; [done|]. apply Hl. set_solver.
  - destruct (IH f) as [IHg IHm]; [set_solver|]. split; [|apply IHm]. intros g k.
    fold (set_removed f l p). rewrite IHg. repeat case_bool_decide; destruct_and?; subst; try done; exfalso; set_solver.
Qed.

(** A group that [commit] activates. *)
Definition ready f (p c : string) (g : string) : Prop :=
  Get f g "package" = p ∧ Get f g "generation" = c ∧ Get f g "state" = "pending".

#[export] Instance ready_dec f p c g : Decision (ready f p c g).
Proof. unfold ready. apply _. Defined.

Lemma ready_Set f x p c g : writable f x →
  ready (Set_ f x "state" "active") p c g ↔ g ≠ x ∧ ready f p c g.
Proof.
  intros Hw. unfold ready. rewrite !Get_Set by done. repeat case_bool_decide; naive_solver.
Qed.

Lemma set_active_spec l f p c n : (∀ g, g ∈ l → g ∈ groups f) → 0 ≤ n →
  let r := foldl (λ '(file, apps) group,
    if eqs (Get file group "package") p && eqs (Get file group "generation") c &&
       eqs (Get file group "state") "pending"
    then (Set_ file group "state" "active", apps + 1) else (file, apps)) (f, n) l in
  (∀ g k, Get r.1 g k = if bool_decide (k = "state" ∧ g ∈ l ∧ ready f p c g) then "active" else Get f g k) ∧
  (∀ g, g ∈ groups r.1 ↔ g ∈ groups f) ∧ n ≤ r.2 ∧ (r.2 = n ↔ ∀ g, g ∈ l → ¬ ready f p c g).
Proof.
  revert f n. induction l as [|x l IH]; intros f n Hl Hn; cbn [foldl].
  { simpl. split_and!; [|done|lia|set_solver]. intros g k. rewrite bool_decide_eq_false_2; [done|]. set_solver. }
  destruct (_ && _ && _) eqn:Hx; str_hyps.
  - assert (Hw : writable f x) by (left; apply Hl; set_solver).
    assert (Hr : ready f p c x) by (by split_and!).
    destruct (IH (Set_ f x "state" "active") (n + 1)) as (IHg & IHm & IHn & IHz); [|lia|].
    { intros g Hg. apply elem_groups_Set; [done..|]. right. apply Hl. set_solver. }
    cbv zeta. split_and!.
    + intros g k. rewrite IHg, Get_Set by done. pose proof (ready_Set f x p c g Hw) as Hs.
      destruct (decide (k = "state")) as [-> |Hk]; [|by rewrite !bool_decide_eq_false_2 by tauto].
      destruct (decide (g = x)) as [-> |Hg].
      * rewrite (bool_decide_eq_true_2 (x = x ∧ _)) by done.
        rewrite (bool_decide_eq_true_2 (_ ∧ x ∈ x :: l ∧ _)) by (split_and!; [done|left|done]). by case_bool_decide.
      * rewrite (bool_decide_eq_false_2 (g = x ∧ _)) by tauto.
        erewrite (bool_decide_ext (_ ∧ g ∈ l ∧ _)); [done|]. rewrite elem_of_cons. tauto.
    + intros g. rewrite IHm, (elem_groups_Set f x "state" "active" g) by done. split; [intros [-> |?]; [apply Hl; set_solver|done]|by right].
    + lia.
    + split; [lia|]. intros Hno. exfalso. apply (Hno x); [set_solver|done].
  - assert (Hr : ¬ ready f p c x).
    { intros (E1 & E2 & E3). rewrite E1, E2, E3, !eqs_refl in Hx. done. }
    destruct (IH f n) as (IHg & IHm & IHn & IHz); [set_solver|done|]. cbv zeta. split_and!; [|done|done|].
    + intros g k. rewrite IHg. erewrite (bool_decide_ext (_ ∧ g ∈ l ∧ _)); [done|]. rewrite elem_of_cons.
      split; [tauto|]. by intros (? & [-> |?] & ?).
    + rewrite IHz. set_solver.
Qed.

(** ** Names of groups *)

Lemma package_key_inj p q : key p = key q → p = q.
Proof. apply app_inj_l. Qed.

Lemma operation_key_inj p q : operation_key p = operation_key q → p = q.
Proof. apply app_inj_l. Qed.

Lemma key_operation p op : key p ≠ operation_key op.
Proof. done. Qed.

Lemma plain_key p : Identifier p = true → group_name (key p) = true.
Proof. intros Hp%Identifier_plain. unfold group_name, plain, key. rewrite all_of_app. by rewrite !andb_true_iff. Qed.

Lemma plain_operation p : Identifier p = true → group_name (operation_key p) = true.
Proof. intros Hp%Identifier_plain. unfold group_name, plain, operation_key. rewrite all_of_app. by rewrite !andb_true_iff. Qed.

Lemma plain_fingerprint op o : valid_order o → plain (fingerprint (request op o)) = true.
Proof.
  intros (Hp%Identifier_plain & He%Identifier_plain & Ha). unfold plain, fingerprint in *. simpl.
  rewrite !all_of_app, Hp, He. destruct o.(or_command); try done. apply Identifier_plain in Ha. unfold plain in Ha. simpl.
  by rewrite Ha.
Qed.

(** An application is not named like a group of another kind. *)
Lemma no_app_key s p : well_formed s → s.(apps) !! key p = None ∧ s.(apps) !! operation_key p = None.
Proof.
  intros Hs. split; (destruct (s.(apps) !! _) as [a|] eqn:Ha; [exfalso|done]);
    apply (wf_app s Hs) in Ha as [Ha _]; by destruct (Identifier_key _ p Ha).
Qed.

Lemma known_group_mono s s' g :
  (∀ x, is_Some (s.(packages) !! x) → is_Some (s'.(packages) !! x)) →
  (∀ x, is_Some (s.(apps) !! x) → is_Some (s'.(apps) !! x)) →
  (∀ x, is_Some (s.(operations) !! x) → is_Some (s'.(operations) !! x)) → known_group s g → known_group s' g.
Proof.
  intros Hp Ha Ho [|p Hx|op Hx|x Hx].
  - apply kg_authority.
  - by apply kg_package, Hp.
  - by apply kg_operation, Ho.
  - by apply kg_app, Ha.
Qed.

Lemma is_Some_insert {A} (m : gmap string A) k v x : is_Some (m !! x) → is_Some (<[k:=v]> m !! x).
Proof. intros Hx. destruct (decide (x = k)) as [-> |]; [by rewrite lookup_insert_eq|by rewrite lookup_insert_ne]. Qed.

(** ** record_operation *)

Lemma represents_record f s op o r :
  represents f s → well_formed s → valid_order o → Identifier op = true → uuid_form r = true →
  represents (record_operation f (request op o) r) (recorded op o r s).
Proof.
  intros Hf Hs Ho Hop Hr. pose proof (plain_operation op Hop) as Hpo. pose proof (plain_fingerprint op o Ho) as Hpf.
  destruct (uuid_plain r Hr) as [Hpr _]. unfold record_operation. cbn [operation request].
  set (f1 := Set_ f "authority" "schema" "1"). set (f2 := Set_ f1 (operation_key op) "fingerprint" _).
  assert (HG1 : ∀ g k, Get f1 g k = if bool_decide (g = "authority" ∧ k = "schema") then "1" else Get f g k).
  { intros. apply Get_Set; [by right|done|done]. }
  assert (HG2 : ∀ g k, Get (Set_ f2 (operation_key op) "generation" r) g k =
    if bool_decide (g = operation_key op ∧ k = "generation") then r
    else if bool_decide (g = operation_key op ∧ k = "fingerprint") then fingerprint (request op o) else Get f1 g k).
  { intros. rewrite Get_Set by (done || by right). unfold f2. by rewrite Get_Set by (done || by right). }
  assert (Hother : ∀ g k, k ≠ "schema" → g ≠ operation_key op → Get (Set_ f2 (operation_key op) "generation" r) g k = Get f g k).
  { intros g k Hk Hg. rewrite HG2, HG1. by repeat case_bool_decide; destruct_and?. }
  split; simpl.
  - intros p Hp. rewrite !Hother by done. by apply Hf.
  - intros g. rewrite HG2, HG1, !bool_decide_eq_false_2 by naive_solver. apply Hf.
  - intros g a Ha. pose proof (wf_app s Hs g a Ha) as [Hg _]. destruct (Identifier_key g op Hg).
    rewrite !Hother by done. by apply Hf.
  - intros op' Hop'. destruct (decide (op' = op)) as [-> |Hne].
    + rewrite !HG2, lookup_insert_eq. rewrite bool_decide_eq_false_2, bool_decide_eq_true_2 by naive_solver.
      by rewrite bool_decide_eq_true_2.
    + rewrite lookup_insert_ne by done. rewrite !Hother by (done || by intros E%operation_key_inj). by apply Hf.
  - intros g Hg. unfold f2, f1 in Hg. rewrite !elem_groups_Set in Hg by (done || by right).
    assert (Hk : is_Some (<[op:=(o, r)]> s.(operations) !! op)) by (by rewrite lookup_insert_eq).
    destruct Hg as [-> |[-> |[-> |Hg]]]; [by apply kg_operation|by apply kg_operation|apply kg_authority|].
    eapply known_group_mono; [..|by apply Hf]; [done|done|]. intros x. apply is_Some_insert.
Qed.

(** ** The commands *)

(** The package is changed, then its applications are retired. *)
Lemma represents_retired f f2 s p k :
  represents f s → well_formed s → Identifier p = true →
  (∀ g x, g ≠ key p → Get f2 g x = Get f g x) → Get f2 (key p) "package" = Get f (key p) "package" →
  Get f2 (key p) "generation" = k.(pk_generation) → Get f2 (key p) "state" = status_name k.(pk_state) →
  (∀ g, g ∈ groups f2 ↔ g = key p ∨ g ∈ groups f) →
  represents (set_removed f2 (groups f) p)
    (mkInventory (<[p := k]> s.(packages)) (retire p <$> s.(apps)) s.(operations)).
Proof.
  intros Hf Hs Hp Hother Hpk Hgen Hst Hgroups. destruct (Identifier_all p Hp) as (Hpe & _).
  destruct (set_removed_spec (groups f) f2 p) as [HG HM]; [intros g Hg; apply Hgroups; by right|].
  assert (Hown : ∀ g, Get f2 g "package" = from_option ap_package "" (s.(apps) !! g)).
  { intros g. rewrite <- (rp_owner f s Hf g). destruct (decide (g = key p)) as [-> |]; [done|by apply Hother]. }
  assert (HG' : ∀ g x, s.(apps) !! g = None ∨ x ≠ "state" → Get (set_removed f2 (groups f) p) g x = Get f2 g x).
  { intros g x Hx. rewrite HG, bool_decide_eq_false_2; [done|]. rewrite Hown. intros (-> & _ & E).
    destruct Hx as [Hx|Hx]; [|done]. rewrite Hx in E. by subst p. }
  split; simpl.
  - intros q Hq. destruct (no_app_key s q Hs) as [Hn _]. rewrite !HG' by auto.
    destruct (decide (q = p)) as [-> |Hne]; [by rewrite lookup_insert_eq|].
    rewrite lookup_insert_ne by done. rewrite !Hother by (by intros E%package_key_inj). by apply Hf.
  - intros g. rewrite HG', Hown, lookup_fmap by auto. destruct (s.(apps) !! g) as [a|]; [|done]. simpl. unfold retire.
    by case_bool_decide.
  - intros g a. rewrite lookup_fmap. intros (b & Hb & ->)%fmap_Some. pose proof (wf_app s Hs g b Hb) as (Hg & _).
    destruct (Identifier_key g p Hg) as [Hgp _]. pose proof (rp_app f s Hf g b Hb) as [Hg1 Hg2].
    rewrite (HG' g "generation"), HG, Hown, Hb, !Hother by auto. simpl. unfold retire.
    destruct (decide (b.(ap_package) = p)) as [E|E].
    + rewrite !(bool_decide_eq_true_2 (b.(ap_package) = p)) by done.
      rewrite bool_decide_eq_true_2; [done|]. split_and!; [done| |done].
      apply (Get_group f g "package"). rewrite (rp_owner f s Hf g), Hb. simpl. by rewrite E.
    + by rewrite !bool_decide_eq_false_2 by tauto.
  - intros op Hop. destruct (no_app_key s op Hs) as [_ Hn]. rewrite !HG', !Hother by first [done|auto]. by apply Hf.
  - intros g. rewrite HM, Hgroups. intros [-> |Hg].
    + apply kg_package. simpl. by rewrite lookup_insert_eq.
    + eapply known_group_mono; [..|by apply (rp_group f s Hf)]; [intros x; apply is_Some_insert| |done].
      intros x. simpl. by rewrite lookup_fmap, fmap_is_Some.
Qed.

Lemma represents_begin f s op o uuid :
  represents f s → well_formed s → valid_order o → uuid_form uuid = true →
  represents (apply_begin f (request op o) uuid).1 (begun uuid o.(or_package) s).
Proof.
  intros Hf Hs (Hp & _) [Hu _]%uuid_plain. pose proof (plain_key _ Hp) as Hk. unfold apply_begin. simpl.
  apply (represents_retired f); [done|done|done|..];
    try (intros g x Hg; rewrite !Get_Set by (done || by right); by rewrite !bool_decide_eq_false_2 by tauto).
  - by rewrite !Get_Set, !bool_decide_eq_false_2 by (done || (by right) || naive_solver).
  - rewrite Get_Set, bool_decide_eq_false_2 by (done || (by right) || naive_solver).
    by rewrite Get_Set, bool_decide_eq_true_2 by (done || by right).
  - by rewrite Get_Set, bool_decide_eq_true_2 by (done || by right).
  - intros g. rewrite !elem_groups_Set by (done || by right). tauto.
Qed.

Lemma represents_remove f s op o g :
  represents f s → well_formed s → valid_order o →
  (∃ st, s.(packages) !! o.(or_package) = Some (mkPackage g st)) →
  represents (apply_remove f (request op o) g).1 (removed o.(or_package) g s).
Proof.
  intros Hf Hs (Hp & _) [st Hst]. pose proof (plain_key _ Hp) as Hk. unfold apply_remove. simpl.
  pose proof (rp_package f s Hf _ Hp) as [Hg _]. rewrite Hst in Hg. simpl in Hg.
  apply (represents_retired f); [done|done|done|..];
    try (intros g' x Hx; rewrite !Get_Set by (done || by right); by rewrite !bool_decide_eq_false_2 by tauto).
  - by rewrite Get_Set, bool_decide_eq_false_2 by (done || (by right) || naive_solver).
  - by rewrite Get_Set, bool_decide_eq_false_2 by (done || (by right) || naive_solver).
  - by rewrite Get_Set, bool_decide_eq_true_2 by (done || by right).
  - intros g'. by rewrite !elem_groups_Set by (done || by right).
Qed.

Lemma represents_attach f s op o x g :
  represents f s → well_formed s → valid_order o → o.(or_command) = Attach x → uuid_form g = true →
  apply_attach f (request op o) g =
    if attachable x o.(or_package) s then Some ((default (f, g) (apply_attach f (request op o) g)).1, g) else None.
Proof.
  intros Hf Hs Ho Hc Hg. unfold apply_attach, attachable. simpl. rewrite Hc. simpl. rewrite (rp_owner f s Hf x).
  destruct (s.(apps) !! x) as [a|] eqn:Ha; simpl; [|done].
  pose proof (wf_app s Hs x a Ha) as (_ & (Hne & _)%Identifier_all & _).
  rewrite (proj2 (empty_false _)) by done. simpl. by destruct (eqs _ _).
Qed.

Lemma represents_attached f s op o x g :
  represents f s → well_formed s → valid_order o → o.(or_command) = Attach x → uuid_form g = true →
  attachable x o.(or_package) s = true →
  represents (default (f, g) (apply_attach f (request op o) g)).1 (attached x o.(or_package) g s).
Proof.
  intros Hf Hs (Hp & _ & Hx) Hc Hg Ha. rewrite Hc in Hx. pose proof (Identifier_group _ Hx) as Hpx.
  pose proof (Identifier_plain _ Hp) as Hpp. pose proof (uuid_plain g Hg) as [Hpg _].
  unfold apply_attach. cbn [app request or_command]. rewrite Hc. cbn [command_app package].
  match goal with |- context [if ?b then _ else _] => assert (Hb : b = false) end.
  { rewrite (rp_owner f s Hf x). unfold attachable in Ha. destruct (s.(apps) !! x) as [a|]; [|done]. simpl in *. rewrite Ha.
    apply andb_false_r. }
  rewrite Hb. cbn [default fst].
  set (f3 := Set_ _ x "state" "pending").
  assert (HG : ∀ g' k, Get f3 g' k =
    if bool_decide (g' = x ∧ k = "state") then "pending" else if bool_decide (g' = x ∧ k = "generation") then g
    else if bool_decide (g' = x ∧ k = "package") then o.(or_package) else Get f g' k).
  { intros. unfold f3. by rewrite !Get_Set by (done || by right). }
  assert (Hother : ∀ g' k, g' ≠ x → Get f3 g' k = Get f g' k).
  { intros. by rewrite HG, !bool_decide_eq_false_2 by tauto. }
  split; simpl.
  - intros p Hpi. destruct (Identifier_key x p Hx). rewrite !Hother by done. by apply Hf.
  - intros g'. destruct (decide (g' = x)) as [-> |Hne].
    + rewrite HG, lookup_insert_eq, !bool_decide_eq_false_2, bool_decide_eq_true_2 by naive_solver. done.
    + rewrite lookup_insert_ne, Hother by done. by apply Hf.
  - intros g' a'. destruct (decide (g' = x)) as [-> |Hne].
    + rewrite lookup_insert_eq. intros [= <-]. rewrite !HG. simpl.
      rewrite (bool_decide_eq_false_2 (x = x ∧ "generation" = "state")), !bool_decide_eq_true_2 by naive_solver. done.
    + rewrite lookup_insert_ne, !Hother by done. by apply Hf.
  - intros op' Hop. destruct (Identifier_key x op' Hx). rewrite !Hother by done. by apply Hf.
  - intros g' Hg'. unfold f3 in Hg'. rewrite !elem_groups_Set in Hg' by (done || by right).
    destruct Hg' as [-> |[-> |[-> |Hg']]]; [by apply kg_app; simpl; rewrite lookup_insert_eq..|].
    eapply known_group_mono; [..|by apply (rp_group f s Hf)]; [done|intros y; apply is_Some_insert|done].
Qed.

Lemma status_name_inj a b : status_name a = status_name b → a = b.
Proof. by destruct a, b. Qed.

(** The groups that [commit] activates are the waiting applications. *)
Lemma ready_iff f s p g x : represents f s → Identifier p = true →
  ready f p g x ↔ s.(apps) !! x = Some (mkApp p g Pending).
Proof.
  intros Hf (Hp & _)%Identifier_all. unfold ready. split.
  - intros (E1 & E2 & E3). rewrite (rp_owner f s Hf x) in E1. destruct (s.(apps) !! x) as [a|] eqn:Ha; [|by subst p].
    destruct (rp_app f s Hf x a Ha) as [Hg Hst]. rewrite E2 in Hg. rewrite E3 in Hst.
    change "pending" with (status_name Pending) in Hst. apply status_name_inj in Hst. destruct a. simpl in *. by subst.
  - intros Ha. rewrite (rp_owner f s Hf x), Ha. by destruct (rp_app f s Hf x _ Ha) as [-> ->].
Qed.

(** The package becomes active with the applications that wait for it. *)
Lemma represents_activated f f' s p g st :
  represents f s → well_formed s → Identifier p = true → s.(packages) !! p = Some (mkPackage g st) →
  (∀ x k, Get f' x k = if bool_decide (x = key p ∧ k = "state") then "active"
     else if bool_decide (k = "state" ∧ s.(apps) !! x = Some (mkApp p g Pending)) then "active" else Get f x k) →
  (∀ x, x ∈ groups f' → x = key p ∨ x ∈ groups f) → represents f' (committed p g s).
Proof.
  intros Hf Hs Hp Hpk HG HM.
  assert (HGo : ∀ x k, k ≠ "state" ∨ x ≠ key p ∧ s.(apps) !! x = None → Get f' x k = Get f x k).
  { intros x k Hk. rewrite HG, !bool_decide_eq_false_2; [done|..]; [|tauto].
    intros [-> E]. destruct Hk as [Hk|[_ Hk]]; congruence. }
  split; simpl.
  - intros q Hq. destruct (no_app_key s q Hs) as [Hn _]. rewrite (HGo _ "generation") by (by left).
    destruct (decide (q = p)) as [-> |Hne].
    + rewrite lookup_insert_eq. destruct (rp_package f s Hf _ Hp) as [-> _]. rewrite Hpk, HG.
      by rewrite bool_decide_eq_true_2.
    + rewrite lookup_insert_ne by done. assert (key q ≠ key p) by (by intros E%package_key_inj).
      rewrite HGo by auto. by apply Hf.
  - intros x. rewrite lookup_fmap, HGo, (rp_owner f s Hf x) by (by left).
    destruct (s.(apps) !! x) as [a|]; [|done]. simpl. unfold activate. case_bool_decide; by subst.
  - intros x a. rewrite lookup_fmap. intros (b & Hb & ->)%fmap_Some. pose proof (wf_app s Hs x b Hb) as (Hx & _).
    destruct (Identifier_key x p Hx) as [Hxk _]. destruct (rp_app f s Hf x b Hb) as [Hg1 Hg2].
    rewrite HGo, HG, bool_decide_eq_false_2, Hb by (tauto || by left). unfold activate.
    destruct (decide (b = mkApp p g Pending)) as [-> |Hne].
    + by rewrite !bool_decide_eq_true_2.
    + rewrite (bool_decide_eq_false_2 (b = _)) by done. by rewrite bool_decide_eq_false_2 by naive_solver.
  - intros op' Hop. destruct (no_app_key s op' Hs) as [_ Hn]. rewrite !HGo by (by left). by apply Hf.
  - intros x [-> |Hx]%HM; [apply kg_package; simpl; by rewrite lookup_insert_eq|].
    eapply known_group_mono; [..|by apply (rp_group f s Hf)]; [intros y; apply is_Some_insert| |done].
    intros y. simpl. by rewrite lookup_fmap, fmap_is_Some.
Qed.

Lemma represents_commit f s op o g :
  represents f s → well_formed s → valid_order o → s.(packages) !! o.(or_package) = Some (mkPackage g Pending) →
  if awaited o.(or_package) g s
  then ∃ f', apply_commit f (request op o) g = Some (f', g) ∧ represents f' (committed o.(or_package) g s)
  else apply_commit f (request op o) g = None.
Proof.
  intros Hf Hs (Hp & _) Hpk. unfold apply_commit, set_active, awaited. cbn [package request].
  destruct (set_active_spec (groups f) f o.(or_package) g 0) as (HG & HM & _ & Hz); [done|done|].
  destruct (foldl _ _ _) as [f1 n]. simpl in *.
  assert (Hready : ∀ x, ready f o.(or_package) g x → x ∈ groups f).
  { intros x (E & _). apply (Get_group f x "package"). rewrite E. apply (Identifier_all _ Hp). }
  case_bool_decide as Haw.
  - assert (Hn : n ≠ 0).
    { intros E. destruct Haw as (x & a & Ha & ->). apply (ready_iff f s _ _ _ Hf Hp) in Ha.
      by apply (proj1 Hz E x (Hready x Ha)). }
    apply Z.eqb_neq in Hn as ->. eexists. split; [done|]. pose proof (plain_key _ Hp) as Hpl.
    apply (represents_activated f _ _ _ _ Pending); [done..| |].
    + intros x k. rewrite Get_Set, HG by (done || by right). case_bool_decide; [done|].
      erewrite bool_decide_ext; [done|]. rewrite <- (ready_iff f s) by done. naive_solver.
    + intros x. rewrite elem_groups_Set by (done || by right). by rewrite HM.
  - assert (Hn : n = 0).
    { apply Hz. intros x _ Hx. apply (ready_iff f s _ _ _ Hf Hp) in Hx. apply Haw. by eexists _, _. }
    by subst n.
Qed.

(** ** Apply *)

Lemma well_formed_packages s k p m ops :
  well_formed s → Identifier p = true → uuid_form k.(pk_generation) = true →
  (∀ g a, m !! g = Some a → Identifier g = true ∧ Identifier a.(ap_package) = true ∧ uuid_form a.(ap_generation) = true) →
  ops = s.(operations) → well_formed (mkInventory (<[p := k]> s.(packages)) m ops).
Proof.
  intros Hs Hp Hk Hm ->. split; simpl; [|exact Hm|by apply Hs]. intros q x [[<- <-]|[_ Hx]]%lookup_insert_Some; [done|].
  by apply (wf_package s Hs).
Qed.

Lemma change_wf o uuid s r s' :
  change o uuid s = Some (r, s') → well_formed s → valid_order o → uuid_form uuid = true →
  well_formed s' ∧ uuid_form r = true ∧ s'.(operations) = s.(operations).
Proof.
  intros Hc Hs (Hp & _ & Hx) Hu. unfold change in Hc. destruct (expects s o); [|done]. simpl in Hc.
  assert (Hret : ∀ h : App → App, (∀ a, (h a).(ap_package) = a.(ap_package) ∧ (h a).(ap_generation) = a.(ap_generation)) →
    ∀ g a, (h <$> s.(apps)) !! g = Some a →
    Identifier g = true ∧ Identifier a.(ap_package) = true ∧ uuid_form a.(ap_generation) = true).
  { intros h Hh g a. rewrite lookup_fmap. intros (b & Hb & ->)%fmap_Some. destruct (Hh b) as [-> ->].
    by apply (wf_app s Hs). }
  assert (Hr : ∀ p a, (retire p a).(ap_package) = a.(ap_package) ∧ (retire p a).(ap_generation) = a.(ap_generation)).
  { intros p a. unfold retire. by case_bool_decide. }
  assert (Ha : ∀ p g a, (activate p g a).(ap_package) = a.(ap_package) ∧ (activate p g a).(ap_generation) = a.(ap_generation)).
  { intros p g a. unfold activate. case_bool_decide; by subst. }
  assert (Hg : ∀ k, s.(packages) !! o.(or_package) = Some k → uuid_form k.(pk_generation) = true).
  { intros k Hk. apply (wf_package s Hs _ _ Hk). }
  destruct o.(or_command) as [|x| |].
  - injection Hc as <- <-. split_and!; [|done|done]. apply well_formed_packages; [done|done|done|by apply Hret|done].
  - destruct (s.(packages) !! _) as [[g []]|] eqn:Hk; [|done..]. destruct (attachable _ _ _); [|done].
    injection Hc as <- <-. specialize (Hg _ eq_refl). simpl in Hg. split_and!; [|done|done].
    split; simpl; [by apply Hs| |by apply Hs]. intros y a [[<- <-]|[_ Ha']]%lookup_insert_Some; [done|]. by apply (wf_app s Hs).
  - destruct (s.(packages) !! _) as [[g []]|] eqn:Hk; [|done..]. destruct (awaited _ _ _); [|done].
    injection Hc as <- <-. specialize (Hg _ eq_refl). split_and!; [|done|done]. apply well_formed_packages; [done|done|done|by apply Hret|done].
  - destruct (s.(packages) !! _) as [k|] eqn:Hk; [|done]. injection Hc as <- <-. specialize (Hg _ eq_refl).
    split_and!; [|done|done]. apply well_formed_packages; [done|done|done|by apply Hret|done].
Qed.

(** The command that [Apply] selects, after the checks that all share. *)
Definition selected f (rq : Request) (uuid : string) : option (GKeyFile * string) :=
  let current := Get f (key rq.(package)) "generation" in
  let state := Get f (key rq.(package)) "state" in
  let ok := eqs current rq.(expected) || (empty current && eqs rq.(expected) "absent") in
  if eqs rq.(command) "begin" && ok then Some (apply_begin f rq uuid)
  else if eqs rq.(command) "attach" && ok && eqs state "pending" then apply_attach f rq current
  else if eqs rq.(command) "commit" && ok && eqs state "pending" then apply_commit f rq current
  else if eqs rq.(command) "remove" && ok && negb (empty current) then Some (apply_remove f rq current)
  else None.

Lemma selected_refines f s op o uuid :
  represents f s → well_formed s → valid_order o → uuid_form uuid = true →
  match change o uuid s with
  | Some (r, s') => ∃ f', selected f (request op o) uuid = Some (f', r) ∧ represents f' s'
  | None => selected f (request op o) uuid = None
  end.
Proof.
  intros Hf Hs Ho Hu. pose proof Ho as (Hp & He & _). destruct (rp_package f s Hf _ Hp) as [Hg Hst].
  unfold selected, change. cbn [package expected command request].
  assert (Hok : eqs (Get f (key o.(or_package)) "generation") o.(or_expected) ||
    (empty (Get f (key o.(or_package)) "generation") && eqs o.(or_expected) "absent") = expects s o).
  { rewrite Hg. unfold expects. destruct (s.(packages) !! o.(or_package)) as [k|] eqn:Hk; simpl.
    - pose proof (wf_package s Hs _ _ Hk) as [_ (_ & Hne & _)%uuid_plain]. rewrite (proj2 (empty_false _)) by done.
      by rewrite orb_false_r.
    - apply Identifier_all in He as [He _]. by rewrite (proj2 (eqs_false _ _)). }
  rewrite Hok. destruct (expects s o); [|by rewrite !andb_false_r].
  rewrite Hg, Hst. destruct (s.(packages) !! o.(or_package)) as [[g st]|] eqn:Hk; simpl.
  - pose proof (wf_package s Hs _ _ Hk) as [_ Hug]. simpl in Hug. destruct (uuid_plain g Hug) as (_ & Hne & _).
    destruct o.(or_command) as [|x| |] eqn:Hc; simpl.
    + eexists. split; [done|]. by apply represents_begin.
    + destruct st; [|done..]. simpl. rewrite (represents_attach f s op o x g) by done.
      destruct (attachable x _ s) eqn:Hat; [|done]. eexists. split; [done|]. by apply represents_attached.
    + destruct st; [|done..]. simpl. pose proof (represents_commit f s op o g Hf Hs Ho Hk) as Hcm.
      by destruct (awaited _ _ _).
    + rewrite (proj2 (empty_false _)) by done. simpl. eexists. split; [done|]. apply represents_remove; eauto.
  - destruct o.(or_command) as [|x| |] eqn:Hc; simpl; [|done..]. eexists. split; [done|]. by apply represents_begin.
Qed.

Definition schema f : string := Get f "authority" "schema".

Lemma record_schema f op o r : Identifier op = true → valid_order o → uuid_form r = true →
  schema (record_operation f (request op o) r) = "1".
Proof.
  intros Hop Ho [Hr _]%uuid_plain. unfold schema, record_operation. pose proof (plain_fingerprint op o Ho).
  pose proof (plain_operation op Hop). cbn [operation request].
  rewrite Get_Set, bool_decide_eq_false_2 by (done || (by right) || by intros []).
  rewrite Get_Set, bool_decide_eq_false_2 by (done || (by right) || by intros []).
  by rewrite Get_Set, bool_decide_eq_true_2 by (done || by right).
Qed.

(** The simulation. *)
Lemma Apply_simulates f s op o uuid :
  represents f s → well_formed s → valid_order o → Identifier op = true → uuid_form uuid = true →
  (s = no_inventory ∨ schema f = "1") →
  match perform (Z.of_nat (length (groups f)) >=? 4096) op o uuid s with
  | Some (r, s') => ∃ f', Apply f (request op o) uuid = Some (f', r) ∧ represents f' s' ∧ well_formed s' ∧ schema f' = "1"
  | None => Apply f (request op o) uuid = None
  end.
Proof.
  intros Hf Hs Ho Hop Hu Hsch. unfold perform, Apply. cbn [operation request].
  destruct (rp_operation f s Hf op Hop) as [Hfp Hgen]. rewrite Hfp, Hgen.
  destruct (s.(operations) !! op) as [[o' r]|] eqn:Hprev; cbn [from_option fst snd].
  - pose proof (wf_operation s Hs _ _ _ Hprev) as (_ & Ho' & _).
    rewrite (proj2 (empty_false _)) by apply fingerprint_nonempty. cbn [negb].
    case_bool_decide as E.
    + subst o'. rewrite eqs_refl. cbn [negb]. eexists. split_and!; [done..|]. destruct Hsch as [-> |Hsch]; done.
    + rewrite (proj2 (eqs_false _ _)); [done|]. by intros E'%fingerprint_inj.
  - cbn [empty negb]. destruct (_ >=? _); [done|]. fold (selected f (request op o) uuid). pose proof (selected_refines f s op o uuid Hf Hs Ho Hu) as Hsel.
    destruct (change o uuid s) as [[r s']|] eqn:Hc; cbn [mbind option_bind].
    + destruct Hsel as (f' & -> & Hf'). destruct (change_wf _ _ _ _ _ Hc Hs Ho Hu) as (Hs' & Hr & Hops). cbn [mbind option_bind].
      eexists. split_and!; [done|by apply represents_record| |by apply record_schema].
      split; simpl; [by apply Hs'|by apply Hs'|]. intros op' o' r' [[<- [= <- <-]]|[_ Hx]]%lookup_insert_Some; [done|].
      by apply (wf_operation s' Hs').
    + by rewrite Hsel.
Qed.
End edits.
