(* ===== verification/InstallerRuns.v ===== *)
(** * Runs of the installation authority tool

    Every run of the tool on any image, ended by success, refusal or a kill
    at any system call, leaves each inventory as it was or performs one
    operation on it in full; what the daemon reads is the abstract
    inventory. *)
From S2P Require Import Prelude Strings Platform Message Wire Packing Localization Registration.
From S2P Require Import Identity Offline OfflineSpec Recovery Storage StorageSpec Installer InstallerSpec InstallerRefine.
From Stdlib Require Import Ascii.
Import offline installer.

Definition conf (dir : path) : path := dir ++ [inventory_name].

(** No inventory has changed. *)
Definition steady (t t' : disk_tree) : Prop := ∀ dir, t' !! conf dir = t !! conf dir.

#[export] Instance steady_preorder : PreOrder steady.
Proof. split; [by intros t dir|]. intros a b c Hab Hbc dir. by rewrite Hbc, Hab. Qed.

Lemma conf_ne dir dir' name : name ≠ inventory_name → conf dir ≠ dir' ++ [name].
Proof. intros Hn E. apply app_inj_tail in E as [_ E]. congruence. Qed.

Lemma steady_only_at dir name t t' : name ≠ inventory_name → only_at (dir ++ [name]) t t' → steady t t'.
Proof. intros Hn Ho dir'. apply Ho. by apply conf_ne. Qed.

Create HintDb quiet discriminated.

Section quiet.
Context `{Platform} `{Os}.
Implicit Types (t : disk_tree) (dir : path).

(** Changes at other names are steady. *)
Lemma safe_insert dir name n : name ≠ inventory_name → safe steady (sys_do (<[dir ++ [name] := n]>)) (λ _, True).
Proof.
  intros Hn. apply safe_sys_do; [apply _|]. intros t. eapply steady_only_at; [done|]. by apply only_at_insert.
Qed.

Lemma safe_metadata dir name mode : name ≠ inventory_name → safe steady (set_metadata (dir ++ [name]) mode) (λ _, True).
Proof.
  intros Hn. unfold set_metadata.
  assert (Hs : ∀ f, safe steady (sys_do (alter (on_stat f) (dir ++ [name]))) (λ _, True)).
  { intros f. apply safe_sys_do; [apply _|]. intros t. eapply steady_only_at; [done|]. by apply only_at_alter. }
  eapply safe_bind; [apply Hs|]. intros [e|] _; [|apply Hs]. safe_end.
Qed.

Lemma safe_new dir name n : name ≠ inventory_name →
  safe steady (x ← look (dir ++ [name]);
               match x with
               | Some _ => r ← sys; mret (Some (default EEXIST r))
               | None => sys_do (<[dir ++ [name] := n]>)
               end) (λ _, True).
Proof.
  intros Hn. eapply (safe_bind _ _ _ (λ _, True)); [eapply safe_reader; [apply reader_look|done]|]. intros [x|] _.
  - eapply safe_bind; [apply safe_sys|]. intros r _. safe_end.
  - by apply safe_insert.
Qed.

Lemma safe_of_reader {A} (m : F A) I : reader m I → safe steady m (λ _, True).
Proof. intros Hm. by eapply safe_reader. Qed.

Lemma safe_Require c s : safe steady (Require c s) (λ _, True).
Proof. intros t0 t Q E K Ht HK HE HQ. apply wp_Require; auto. Qed.

Hint Resolve safe_Require safe_of_reader reader_openat reader_RequireSystem reader_ProtectedDirectory reader_Sync reader_fstat
  reader_sys reader_ProtectedFile reader_components reader_open_rw : quiet.

Ltac quiet_steps :=
  repeat (eapply safe_bind; [solve [eauto with quiet]|intros ? _; cbv beta]).

Lemma safe_enter dir name create : (create = true → name ≠ inventory_name) → safe steady (enter dir name create) (λ b, b = true → create = true).
Proof.
  intros Hn. unfold enter. quiet_steps. destruct a as [e|]; [|eapply safe_weaken; [apply safe_ret|by intros b ->]].
  destruct (_ && create) eqn:Hc; [|apply safe_fail]. bool_hyps. subst. eapply safe_bind; [apply safe_new; auto|].
  intros made _. quiet_steps. safe_end.
Qed.

Lemma safe_descend current l create : (create = true → inventory_name ∉ l) →
  safe steady (descend_loop current l create) (λ _, True).
Proof.
  revert current. induction l as [|c l IH]; intros current Hl; cbn [descend_loop]; [safe_end|].
  assert (Hc : create = true → c ≠ inventory_name) by set_solver.
  eapply safe_bind; [by apply safe_enter|]. intros created Hcr. quiet_steps.
  eapply (safe_bind _ _ _ (λ _, True)).
  { destruct created; [|safe_end]. eapply safe_bind; [apply safe_metadata; auto|].
    intros r _. quiet_steps. eauto with quiet. }
  intros [] _. eapply (safe_bind _ _ _ (λ _, True)).
  { destruct (create && _); [|safe_end]. quiet_steps.
    apply safe_Require. }
  intros [] _. eapply (safe_bind _ _ _ (λ _, True)).
  { destruct create; [eauto with quiet|safe_end]. }
  intros [] _. apply IH. set_solver.
Qed.

Lemma safe_Descend parent l create : (create = true → inventory_name ∉ l) →
  safe steady (Descend parent l create) (λ _, True).
Proof. intros Hl. unfold Descend. quiet_steps. by apply safe_descend. Qed.

Lemma safe_open_root root image_root :
  safe steady (open_root root image_root CONSENT_AUTHORITY_DIR) (λ _, True).
Proof.
  unfold open_root. do 3 (eapply safe_bind; [solve [eauto with quiet]|intros ? _; cbv beta]).
  eapply safe_bind; [eapply safe_reader; [apply reader_components|intros ? ? Hx; exact Hx]|]. intros l Hl.
  assert (Hn : inventory_name ∉ l).
  { assert (El : l = ["opt"; "var"; "lib"; "consent-authority"]) by (vm_compute in Hl; by injection Hl).
    rewrite El. by apply (bool_decide_unpack _). }
  quiet_steps. eapply safe_bind; [by apply safe_Descend|]. intros image _.
  eapply safe_bind; [by apply safe_Descend|]. intros dir _. quiet_steps.
  eapply safe_bind; [by apply safe_new|]. intros made _. eapply (safe_bind _ _ _ (λ _, True)).
  { destruct made as [e|]; [destruct (e =? EEXIST); [by eapply safe_of_reader, reader_open_rw|]|];
      safe_end. }
  intros r _. quiet_steps. eapply (safe_bind _ _ _ (λ _, True)).
  { case_bool_decide; [|safe_end].
    eapply safe_bind; [by apply safe_metadata|]. intros r' _. eauto with quiet. }
  intros [] _. quiet_steps. safe_end.
Qed.

Lemma safe_Open root image_root : safe steady (Open root image_root CONSENT_AUTHORITY_DIR) (λ _, True).
Proof.
  intros t0 t Q E K Ht HK HE HQ. unfold Open. apply wp_try, wp_bind, (safe_open_root _ _ t0); [done|done|..].
  - intros s t' Ht'. by apply wp_ret, HQ.
  - intros p t' Ht' _. by apply wp_ret, HQ.
Qed.

Lemma safe_open_components fuel dir rest : safe steady (open_components fuel dir rest) (λ _, True).
Proof.
  revert dir rest. induction fuel as [|fuel IH]; intros dir rest; cbn [open_components];
    [safe_end|].
  destruct (empty rest); [safe_end|]. quiet_steps.
  destruct (negb _); [safe_end|]. quiet_steps.
  destruct (negb _); [safe_end|].
  destruct (find_char "/" rest); [apply IH|safe_end].
Qed.

Lemma safe_open_authority root : safe steady (open_authority root) (λ _, True).
Proof.
  destruct root as [root|]; cbn [open_authority].
  - eapply safe_bind; [apply safe_Open|]. intros opened _. destruct (_ <? _); [safe_end|].
    quiet_steps. safe_end.
  - unfold OpenDirectory. quiet_steps. destruct (negb _); [safe_end|].
    apply safe_open_components.
Qed.

Lemma safe_take_lifecycle dir : safe steady (take_lifecycle dir) (λ _, True).
Proof.
  unfold take_lifecycle. quiet_steps. destruct (negb _); [safe_end|]. quiet_steps.
  destruct (negb _); [safe_end|]. quiet_steps. safe_end.
Qed.

Lemma safe_take_lock dir : safe steady (take_lock dir) (λ _, True).
Proof.
  unfold take_lock. eapply (safe_bind _ _ _ (λ _, True)).
  { unfold open_or_create. eapply (safe_bind _ _ _ (λ _, True)); [by eapply safe_of_reader, reader_look|].
    intros [n|] _; [by eapply safe_of_reader, reader_open_rw|by apply safe_insert]. }
  intros r _. destruct (negb _); [safe_end|]. quiet_steps.
  destruct (negb _); [safe_end|]. quiet_steps. safe_end.
Qed.
End quiet.

(** ** The inventory file *)

Section update.
Context `{Platform} `{KeyFiles} `{Os} `{!OsLaws}.
Implicit Types (t : disk_tree) (dir : path) (f : GKeyFile).

(** The key file that a run works on. *)
Definition loaded dir t f : Prop :=
  (t !! conf dir = None ∧ f = g_key_file_new) ∨
  (∃ st data, t !! conf dir = Some (NFile st data) ∧ g_key_file_load_from_data data = Some f ∧ schema f = "1").

Lemma reader_read_inventory dir image :
  reader (read_inventory dir image) (λ o t, ∀ f previous, o = Some (f, previous) → loaded dir t f).
Proof.
  unfold read_inventory. eapply reader_bind; [apply reader_openat_absent|]. intros [e|].
  { eapply reader_weaken; [apply reader_ret|]. intros o t -> [Ha _] f previous Ho.
    destruct (e =? ENOENT) eqn:He; [|done]. apply Z.eqb_eq in He as ->. injection Ho as <- <-. left. by split; [apply Ha|]. }
  assert (Hnone : reader (mret None : F (option (GKeyFile * option file_stat)))
    (λ o t, ∀ f previous, o = Some (f, previous) → loaded dir t f)).
  { eapply reader_weaken; [apply reader_ret|]. by intros o t ->. }
  eapply (reader_bind _ _ (λ _ _, True)); [eapply reader_weaken; [apply reader_fstat|done]|].
  intros [st|]; [|eapply reader_weaken; [apply Hnone|auto]].
  destruct (negb _); [eapply reader_weaken; [apply Hnone|auto]|].
  eapply reader_bind; [apply reader_sys|]. intros r. eapply reader_bind; [apply reader_look|].
  intros [[|st' data|]|]; try (eapply reader_weaken; [apply Hnone|auto]).
  destruct (_ || _); [eapply reader_weaken; [apply Hnone|auto]|].
  destruct (g_key_file_load_from_data data) as [f|] eqn:Hf; [|eapply reader_weaken; [apply Hnone|auto]].
  eapply reader_weaken; [apply reader_ret|]. intros o t -> Hn _ _ _ f' previous Ho.
  destruct (eqs _ _) eqn:Hs; [|done]. injection Ho as <- <-. apply eqs_true in Hs. right. eauto.
Qed.

Lemma wp_uuid t (Q : string → disk_tree → Prop) E K : (∀ n, Q (os_uuid n) t) → wp random_uuid Q E K t.
Proof. intros HQ n. apply HQ. Qed.

(** The new inventory is complete under its name. *)
Definition replaced dir (data : string) t t' : Prop :=
  (∀ dir', dir' ≠ dir → t' !! conf dir' = t !! conf dir') ∧ ∃ st, t' !! conf dir = Some (NFile st data).

Lemma conf_inj dir dir' : conf dir = conf dir' → dir = dir'.
Proof. intros E. by apply app_inj_tail in E as [E _]. Qed.

Lemma temporary_name_ne u : temporary u ≠ inventory_name.
Proof. done. Qed.

Lemma placed_replaced dir u data t0 t :
  placed (dir ++ [temporary u]) (conf dir) data t0 t → replaced dir data t0 t.
Proof.
  intros [Ho Hst]. split; [|done]. intros dir' Hne. apply Ho; [by apply conf_ne|]. by intros E%conf_inj.
Qed.

Lemma replaced_only dir u data t0 t t' :
  replaced dir data t0 t → only_at (dir ++ [temporary u]) t t' → replaced dir data t0 t'.
Proof.
  intros [Ho [st Hst]] Hat.
  assert (Hs : steady t t') by (eapply steady_only_at; [by apply temporary_name_ne|done]).
  split; [intros dir' Hne; by rewrite Hs, Ho|]. exists st. by rewrite Hs.
Qed.

Lemma wp_fill dir u data image previous t0 t (Q : () → disk_tree → Prop) E K :
  let tmp : path := dir ++ [temporary u] in
  holds tmp "" t0 t → (∀ b t', holds tmp b t0 t' → K t' ∧ ∀ s, E s t') → (∀ t', holds tmp data t0 t' → Q () t') →
  wp (fill dir (temporary u) data image previous) Q E K t.
Proof.
  intros tmp Ht HKE HQ. assert (HK : ∀ b t', holds tmp b t0 t' → K t') by (intros b t' Hh; by apply (HKE b)).
  assert (HE : ∀ b s t', holds tmp b t0 t' → E s t') by (intros b s t' Hh; by apply (HKE b)).
  unfold fill. apply wp_bind, reader_fstat; [by eapply HK|eauto|]. intros [info|] _; [|by eapply wp_fail, HE].
  fold tmp. apply wp_bind, (wp_own (holds tmp "" t0)); [done|by apply HK|intros; by eapply HE|by apply holds_stat|..].
  { by apply holds_stat, holds_stat. }
  set (t1 := alter _ tmp (alter _ tmp t)). assert (Ht1 : holds tmp "" t0 t1) by (by apply holds_stat, holds_stat).
  assert (Hrest : wp (write_loop (String.length data) tmp data;; fsync tmp) Q E K t1).
  { apply wp_bind, (wp_write_loop (λ b t', holds tmp b t0 t') _ tmp data "");
      [intros; by apply holds_append|by apply HK|intros; by eapply HE| |done|exact Ht1].
    intros t2 Ht2. rewrite app_nil_s in Ht2. apply reader_fsync; [by eapply HK|eauto|]. intros [] _. by apply HQ. }
  apply wp_bind. destruct image; [by apply wp_ret|]. apply wp_bind, reader_sys; [by eapply HK|eauto|]. intros r _.
  apply reader_need; [by eapply HK|eauto|done].
Qed.

(** The file is filled or only the temporary name has changed. *)
Lemma wp_draft dir u data image previous t (Q : bool → disk_tree → Prop) E K :
  let tmp : path := dir ++ [temporary u] in
  (∀ t', only_at tmp t t' → K t' ∧ Q false t') → (∀ t', holds tmp data t t' → Q true t') →
  wp (draft dir (temporary u) data image previous) Q E K t.
Proof.
  intros tmp Hat Hfull. assert (Hrefl : only_at tmp t t) by done. unfold draft, create_at. apply wp_bind, wp_bind, wp_look.
  fold tmp. destruct (t !! tmp) as [n|] eqn:Htmp; cbv beta iota.
  { apply wp_bind, wp_sys; [by apply Hat|]. intros r. apply wp_ret, wp_bind, wp_try, wp_bind, reader_need;
      [by apply Hat| |done]. intros s _. apply wp_ret, wp_bind. cbn. apply wp_ret, wp_ret. by apply Hat. }
  assert (Hend : ∀ made, made ≠ None → ∀ t', only_at tmp t t' →
    wp (ok ← try (need made;; fill dir (temporary u) data image previous;; mret true) (λ _, mret false);
        closed ← (if bool_decide (made = None) then r ← sys; mret (bool_decide (r = None)) else mret true);
        mret (ok && closed)) Q E K t').
  { intros made Hm t' Ht'. apply wp_bind, wp_try, wp_bind, reader_need; [by apply Hat| |done]. intros s _.
    apply wp_ret, wp_bind. rewrite bool_decide_eq_false_2 by done. apply wp_ret, wp_ret. by apply Hat. }
  apply wp_sys_do; [by apply Hat|intros e; by apply Hend|]. set (t1 := <[tmp:=_]> t).
  assert (Ht1 : holds tmp "" t t1) by (split; [by apply only_at_insert|]; exists (new_stat 32768 384); apply lookup_insert_eq).
  assert (Hclose : ∀ ok t', only_at tmp t t' → (ok = true → holds tmp data t t') →
    wp (closed ← (r ← sys; mret (bool_decide (r = None))); mret (ok && closed)) Q E K t').
  { intros ok t' Ho Hok. apply wp_bind, wp_bind, wp_sys; [by apply Hat|]. intros r. apply wp_ret, wp_ret.
    destruct ok; [|by apply Hat]. destruct (bool_decide _); [by apply Hfull, Hok|by apply Hat]. }
  apply wp_bind, wp_try, wp_bind, reader_need; [by apply Hat, Ht1| |].
  { intros s _. apply wp_ret, Hclose; [by apply Ht1|done]. }
  intros [] _. apply wp_bind, (wp_fill dir u data image previous t); [done| |].
  - intros b t' [Ho _]. split; [by apply Hat|]. intros s. by apply wp_ret, Hclose.
  - intros t' Ht'. apply wp_ret, Hclose; [by apply Ht'|done].
Qed.

Lemma wp_Persist dir f image previous t (Q : bool → disk_tree → Prop) E K :
  (∀ t', steady t t' → K t' ∧ Q false t') →
  (∀ t' data, g_key_file_to_data f = Some data → replaced dir data t t' → K t' ∧ ∀ b, Q b t') →
  wp (Persist dir f image previous) Q E K t.
Proof.
  intros Hs Hr. assert (Hrefl : steady t t) by done. unfold Persist.
  destruct (g_key_file_to_data f) as [data|]; [|by apply wp_ret, Hs]. destruct (_ >? _); [by apply wp_ret, Hs|].
  apply wp_bind, wp_uuid. intros n. set (u := os_uuid n). set (tmp := dir ++ [temporary u]).
  assert (Hat : ∀ t', only_at tmp t t' → steady t t') by (intros t'; apply steady_only_at, temporary_name_ne).
  assert (Hun : ∀ t', only_at tmp t t' → wp (unlinkat dir (temporary u);; mret false) Q E K t').
  { intros t' Ho. apply wp_bind, wp_sys_do; [by apply Hs, Hat|intros e; by apply wp_ret, Hs, Hat|].
    apply wp_ret, Hs, Hat. by apply only_at_delete. }
  assert (Hun' : ∀ t', replaced dir data t t' → wp (unlinkat dir (temporary u);; mret false) Q E K t').
  { intros t' Ht'. apply wp_bind, wp_sys_do; [by apply (Hr t' data)|intros e; by apply wp_ret, (Hr t' data)|].
    apply wp_ret, (Hr _ data); [done|]. eapply (replaced_only dir u); [done|]. by apply only_at_delete. }
  apply wp_bind, wp_draft.
  - intros t' Ho. split; [by apply Hs, Hat|]. unfold and_then. apply wp_bind, wp_ret, wp_bind, wp_ret. by apply Hun.
  - intros t' Hh. unfold and_then. apply wp_bind, wp_bind, wp_sys_do; [apply Hs, Hat, Hh| |].
    { intros e. apply wp_ret, wp_bind. rewrite bool_decide_eq_false_2 by done. apply wp_ret, Hun, Hh. }
    apply wp_ret. apply (holds_rename _ (conf dir)) in Hh; [|intros E0; symmetry in E0; by apply conf_ne in E0].
    apply placed_replaced in Hh. set (t2 := rename_node _ _ t') in *.
    rewrite bool_decide_eq_true_2 by done. apply wp_bind, wp_bind, wp_sys; [by apply (Hr t2 data)|]. intros r.
    apply wp_ret. destruct (bool_decide _); [by apply wp_ret, (Hr t2 data)|by apply Hun'].
Qed.
End update.

(** ** A run *)

Section run.
Context `{Platform} `{!PlatformLaws} `{KeyFiles} `{!KeyFilesLaws} `{Os} `{!OsLaws} `{!UuidLaws}.
Implicit Types (t : disk_tree) (dir : path) (f : GKeyFile) (s : Inventory_).

(** A request was applied to the inventory of a directory and the result is
    in place. *)
Definition applied dir rq (out : string) t t' : Prop :=
  ∃ f f' n data, loaded dir t f ∧ Apply f rq (os_uuid n) = Some (f', out) ∧
    g_key_file_to_data f' = Some data ∧ replaced dir data t t'.

(** What a run for a request may leave. *)
Definition outcome_of rq t t' : Prop := steady t t' ∨ ∃ dir out, applied dir rq out t t'.

Lemma applied_from dir rq out t0 t t' : steady t0 t → applied dir rq out t t' → applied dir rq out t0 t'.
Proof.
  intros Hs (f & f' & n & data & Hl & Ha & Hd & Ho & Hst). exists f, f', n, data. split_and!; [|done|done|].
  - unfold loaded in *. by rewrite <- (Hs dir).
  - split; [|done]. intros dir' Hne. by rewrite Ho, Hs.
Qed.

Lemma wp_update dir rq image t0 t : steady t0 t →
  wp (update dir rq image)
    (λ r t', outcome_of rq t0 t' ∧ (r.1 = 0 → applied dir rq r.2 t0 t')) (λ _ t', outcome_of rq t0 t')
    (outcome_of rq t0) t.
Proof.
  intros Ht. unfold update. assert (Hq : ∀ t', steady t t' → outcome_of rq t0 t') by (intros; left; by etrans).
  apply wp_bind, reader_read_inventory; [by apply Hq|by intros; apply Hq|].
  intros [[f previous]|] Hl; [|apply wp_ret; split; [by apply Hq|done]]. specialize (Hl _ _ eq_refl).
  apply wp_bind, wp_uuid. intros n. destruct (Apply f rq (os_uuid n)) as [[f' out]|] eqn:Ha;
    [|apply wp_ret; split; [by apply Hq|done]].
  apply wp_bind, wp_Persist.
  - intros t' Hs. split; [by apply Hq|]. apply wp_ret. split; [by apply Hq|done].
  - intros t' data Hd Hr. assert (Hap : applied dir rq out t0 t').
    { eapply applied_from; [exact Ht|]. by exists f, f', n, data. }
    assert (Ho : outcome_of rq t0 t') by (right; eauto). split; [done|].
    intros b. apply wp_ret. split; [done|]. by destruct b.
Qed.

Lemma wp_main args t :
  wp (main args)
    (λ r t', (steady t t' ∨ ∃ root rq, parse_arguments args = Some (root, rq) ∧ outcome_of rq t t') ∧
       (r.1 = 0 → ∃ root rq dir, parse_arguments args = Some (root, rq) ∧ applied dir rq r.2 t t'))
    (λ _ t', steady t t' ∨ ∃ root rq, parse_arguments args = Some (root, rq) ∧ outcome_of rq t t')
    (λ t', steady t t' ∨ ∃ root rq, parse_arguments args = Some (root, rq) ∧ outcome_of rq t t') t.
Proof.
  unfold main. destruct (negb _); [apply wp_ret; split; [by left|done]|].
  destruct (parse_arguments args) as [[root rq]|] eqn:Hp; [|apply wp_ret; split; [by left|done]].
  apply wp_bind, (safe_open_authority root t); [done|by left|by left|]. intros [dir|] t1 Ht1 _;
    [|apply wp_ret; split; [by left|done]].
  apply wp_bind. eapply (safe_weaken steady _ (λ _, True) (λ _, True)); [|done|exact Ht1|by left|by left|].
  { case_bool_decide; [safe_end|apply safe_take_lifecycle]. }
  intros lifecycle t2 Ht2 _. destruct (negb _); [apply wp_ret; split; [by left|done]|].
  apply wp_bind, (safe_take_lock dir t); [done|by left|by left|]. intros locked t3 Ht3 _.
  destruct (negb _); [apply wp_ret; split; [by left|done]|].
  eapply wp_mono; [by apply wp_update| | |]; cbv beta.
  - intros r t' [Ho H0']. split; [right; eauto|]. intros E. exists root, rq, dir. auto.
  - intros _ t' Ho. right. eauto.
  - intros t' Ho. right. eauto.
Qed.

(** ** The abstract inventory on the disk *)

(** The inventory that a directory holds: none without the file. *)
Definition on_disk dir t s : Prop :=
  match t !! conf dir with
  | Some (NFile _ data) =>
      ∃ f, g_key_file_load_from_data data = Some f ∧ represents f s ∧ well_formed s ∧ schema f = "1" ∧
        data ≠ "" ∧ has_char nul data = false
  | _ => s = no_inventory
  end.

Lemma represents_new : represents g_key_file_new no_inventory.
Proof.
  assert (Hg : ∀ g k, Get g_key_file_new g k = "").
  { intros g k. destruct (decide (Get g_key_file_new g k = "")) as [|Hne]; [done|].
    apply Get_group in Hne. rewrite groups_new in Hne. by apply not_elem_of_nil in Hne. }
  split; simpl; try done.
  intros g. rewrite groups_new. by intros ?%not_elem_of_nil.
Qed.

Lemma no_inventory_wf : well_formed no_inventory.
Proof. by split. Qed.

Lemma represents_same f f' s :
  (∀ g k, (key_view f').(kf_string) g k = (key_view f).(kf_string) g k) → groups f' ≡ₚ groups f →
  represents f s → represents f' s ∧ schema f' = schema f.
Proof.
  intros Hv Hg Hf. assert (HG : ∀ g k, Get f' g k = Get f g k) by (intros; unfold Get; by rewrite Hv).
  split; [|apply HG]. destruct Hf as [H1' H2' H3' H4' H5'].
  split; intros; rewrite ?HG; auto. apply H5'. by rewrite <- Hg.
Qed.

Lemma parse_arguments_valid args root rq :
  parse_arguments args = Some (root, rq) → ∃ op o, rq = request op o ∧ valid_order o ∧ Identifier op = true.
Proof.
  unfold parse_arguments. intros Hp. apply bind_Some in Hp as ([[[[c p] a] op] e] & Hshape & Hp).
  destruct (negb (eqs c "begin") && _ && _ && _) eqn:Hc; [done|].
  destruct (_ || _ || _ || _) eqn:Hi in Hp; [done|]. injection Hp as _ <-. bool_hyps.
  assert (Ha : eqs c "attach" = true → Identifier a = true).
  { intros E. rewrite E in *. simpl in *. by bool_hyps. }
  assert (Hna : eqs c "attach" = false → a = "").
  { intros E. repeat case_match; simplify_eq; congruence. }
  exists op. destruct (eqs c "attach") eqn:Hat.
  - exists (mkOrder (Attach a) p e). specialize (Ha eq_refl). apply eqs_true in Hat as ->. by split; [|split].
  - rewrite (Hna eq_refl). destruct (eqs c "begin") eqn:Hb; [apply eqs_true in Hb as ->; by exists (mkOrder Begin p e)|].
    destruct (eqs c "commit") eqn:Hcm; [apply eqs_true in Hcm as ->; by exists (mkOrder Commit p e)|].
    destruct (eqs c "remove") eqn:Hr; [apply eqs_true in Hr as ->; by exists (mkOrder Remove p e)|done].
Qed.

(** One request on one directory. *)
Lemma applied_step dir op o out t t' s :
  on_disk dir t s → valid_order o → Identifier op = true → applied dir (request op o) out t t' →
  ∃ s', step s s' ∧ on_disk dir t' s' ∧ s'.(operations) !! op = Some (o, out).
Proof.
  intros Hd Ho Hop (f & f' & n & data & Hl & Ha & Hdata & _ & st & Hst).
  assert (Hf : represents f s ∧ well_formed s ∧ (s = no_inventory ∨ schema f = "1")).
  { unfold on_disk in Hd. destruct Hl as [[Hn ->] | (st' & bytes & Hb & Hload & Hsch)].
    - rewrite Hn in Hd. subst s. split_and!; [apply represents_new|apply no_inventory_wf|by left].
    - rewrite Hb in Hd. destruct Hd as (f0 & Hload' & Hr & Hw & Hs0 & _). simplify_eq. auto. }
  destruct Hf as (Hf & Hw & Hs). pose proof (uuid_text n) as Hu.
  pose proof (Apply_simulates f s op o (os_uuid n) Hf Hw Ho Hop Hu Hs) as Hsim.
  destruct (perform _ op o _ s) as [[r s']|] eqn:Hp; [|congruence].
  destruct Hsim as (f1 & Ha' & Hf1 & Hw1 & Hs1). rewrite Ha in Ha'. injection Ha' as <- <-.
  exists s'. split_and!.
  - by eexists _, op, o, (os_uuid n), out.
  - unfold on_disk. rewrite Hst. destruct (data_load f' data Hdata) as (f2 & Hload & Hv & Hg).
    destruct (represents_same f' f2 s' Hv Hg Hf1) as [Hf2 Hs2]. exists f2. rewrite Hs2.
    destruct (data_text f' data Hdata) as [Hnul Hne]. split_and!; [done..| |done]. apply Hne. intros E.
    assert (Hin : "authority" ∈ groups f') by (apply (Get_group f' "authority" "schema"); unfold schema in Hs1; by rewrite Hs1).
    rewrite E in Hin. by apply not_elem_of_nil in Hin.
  - unfold perform in Hp. destruct (s.(operations) !! op) as [[o' r]|] eqn:Hprev.
    + case_bool_decide; [|done]. by injection Hp as -> ->; subst.
    + destruct (_ >=? _); [done|]. apply bind_Some in Hp as ([r s1] & Hc & [= <- <-]). apply lookup_insert_eq.
Qed.

(** The tool was run with some arguments, to its end or until it was killed. *)
Definition tool_run t t' : Prop := ∃ args n d' r, main args (mkDisk t n) = (d', r) ∧ d'.(tree) = t'.

Lemma run_step dir t t' s : tool_run t t' → on_disk dir t s → ∃ s', on_disk dir t' s' ∧ (s' = s ∨ step s s').
Proof.
  intros (args & n & d' & r & Hrun & <-) Hd. pose proof (wp_main args t n) as Hwp. rewrite Hrun in Hwp.
  assert (Ho : steady t d'.(tree) ∨ ∃ root rq, parse_arguments args = Some (root, rq) ∧ outcome_of rq t d'.(tree)).
  { by destruct r as [x|x|]; [apply Hwp|..]. }
  assert (Hsame : d'.(tree) !! conf dir = t !! conf dir → on_disk dir d'.(tree) s) by (intros E; unfold on_disk; by rewrite E).
  destruct Ho as [Hs | (root & rq & Hp & [Hs | (dir' & out & Ha)])]; [exists s; auto..|].
  destruct (parse_arguments_valid _ _ _ Hp) as (op & o & -> & Hv & Hop).
  destruct (decide (dir = dir')) as [<- |Hne].
  - destruct (applied_step _ _ _ _ _ _ _ Hd Hv Hop Ha) as (s' & Hst & Hd' & _). eauto.
  - exists s. split; [|by left]. apply Hsame. destruct Ha as (_ & _ & _ & data & _ & _ & _ & Ho & _). by apply Ho.
Qed.

Lemma runs_on_disk t0 t : (∀ dir, t0 !! conf dir = None) → rtc tool_run t0 t →
  ∀ dir, ∃ s, on_disk dir t s ∧ rtc step no_inventory s.
Proof.
  intros Hno Hr. assert (Hi : ∀ dir, ∃ s, on_disk dir t0 s ∧ rtc step no_inventory s).
  { intros dir. exists no_inventory. unfold on_disk. by rewrite Hno. }
  clear Hno. revert Hi. induction Hr as [|t1 t2 t3 Hrun _ IH]; [done|]. intros Hi. apply IH. intros dir.
  destruct (Hi dir) as (s & Hd & Hs). destruct (run_step dir _ _ s Hrun Hd) as (s' & Hd' & [-> |Hst]); [eauto|].
  exists s'. split; [done|]. by eapply rtc_r.
Qed.
End run.
