(* ===== verification/InstallerTheorems.v ===== *)
(** * The installer's inventory, from the commands to the daemon

    The runs of the tool from a system without an inventory implement the
    abstract inventory, and the daemon validates an installation against the
    file exactly when the abstract inventory has it active.  The number of
    groups is the exception: the tool writes up to 4097, the daemon's offline
    reading accepts 4096. *)
From S2P Require Import Prelude Strings Platform Message Wire Packing Localization Registration.
From S2P Require Import Identity Offline OfflineSpec Recovery Storage StorageSpec Installer InstallerSpec InstallerRefine.
From S2P Require Import InstallerRuns.
From Stdlib Require Import Ascii.
Import offline installer.

(** ** The daemon's reading *)

(** The daemon and the tool use the same library. *)
Class SameGlib `{KeyFiles} `{Inventory} : Prop := {
  same_load : ∀ data : string, g_key_file_load data = key_view <$> g_key_file_load_from_data data;
}.

Section reading.
Context `{Platform} `{!PlatformLaws} `{KeyFiles} `{!KeyFilesLaws} `{Inventory}.
Implicit Types (f : GKeyFile) (s : Inventory_).

Lemma uuid_generation u : uuid_form u = true → negb (empty u) && (size u <=? 128) = true.
Proof. intros (_ & Hne & Hs)%uuid_plain. rewrite (proj2 (empty_false _)) by done. rewrite Hs. done. Qed.

Lemma status_valid st : installation_state (status_name st) = true.
Proof. by destruct st. Qed.

Lemma size_key p : size (key p) = 8 + size p.
Proof. apply size_app. Qed.

Lemma size_operation_key p : size (operation_key p) = 10 + size p.
Proof. apply size_app. Qed.

Lemma size_identifier x : Identifier x = true → 0 < size x ≤ 255.
Proof.
  intros (Hne & Hx & _)%Identifier_all. split; [|done]. destruct x as [|c x]; [done|]. rewrite size_cons.
  pose proof (size_nonneg x). lia.
Qed.

(** Every group of an inventory is well formed for the daemon. *)
Lemma known_group_valid f s g :
  represents f s → well_formed s → known_group s g → group_valid (key_view f) g = true.
Proof.
  intros Hf Hs [|p [k Hk]|op [[o r] Hop]|x [a Ha]]; unfold group_valid, KeyValue; [done|..].
  - pose proof (wf_package s Hs p k Hk) as [Hp Hg%uuid_generation]. destruct (rp_package f s Hf p Hp) as [E1 E2].
    unfold Get in E1, E2. rewrite E1, E2, Hk. cbn [from_option]. rewrite Hg, status_valid.
    pose proof (size_identifier p Hp). rewrite !andb_true_l, size_key.
    change (eqs (key p) "authority") with false. change (starts_with "operation " (key p)) with false.
    change (starts_with "package " (key p)) with (starts_with "package " ("package " +:+ p)). rewrite starts_with_app.
    cbv iota. apply andb_true_iff. split; [apply Z.gtb_lt|apply Z.leb_le]; lia.
  - pose proof (wf_operation s Hs op o r Hop) as (Hi & _ & Hg%uuid_generation).
    destruct (rp_operation f s Hf op Hi) as [E1 E2]. unfold Get in E1, E2. rewrite E1, E2, Hop. cbn [from_option snd].
    rewrite Hg. pose proof (size_identifier op Hi). rewrite size_operation_key.
    change (eqs (operation_key op) "authority") with false.
    change (starts_with "operation " (operation_key op)) with (starts_with "operation " ("operation " +:+ op)).
    rewrite starts_with_app. cbv iota. rewrite (proj2 (empty_false _)) by apply fingerprint_nonempty.
    rewrite andb_true_l, andb_true_r. apply Z.gtb_lt. lia.
  - pose proof (wf_app s Hs x a Ha) as (Hx & Hp & Hg%uuid_generation). destruct (rp_app f s Hf x a Ha) as [E1 E2].
    pose proof (rp_owner f s Hf x) as E3. unfold Get in E1, E2, E3. rewrite E1, E2, E3, Ha. cbn [from_option].
    destruct (eqs x "authority"); [done|]. rewrite Hg, status_valid.
    assert (Hno : ∀ q, q = "operation " ∨ q = "package " → starts_with q x = false).
    { intros q Hq. apply not_true_iff_false. intros [y ->]%starts_with_true.
      destruct (Identifier_key _ y Hx) as [N1 N2]. destruct Hq as [-> | ->]; done. }
    rewrite !Hno by auto. pose proof (size_identifier x Hx). pose proof (size_identifier _ Hp).
    apply Identifier_all in Hx as [Hx _]. apply Identifier_all in Hp as [Hp _].
    rewrite !(proj2 (empty_false _)) by done. cbn [negb andb].
    rewrite !andb_true_iff. split_and!; [|done|]; apply Z.leb_le; lia.
Qed.

(** The file that the tool has written is accepted, if it is not too long. *)
Lemma parse_written `{!SameGlib} data f s :
  g_key_file_load_from_data data = Some f → data ≠ "" → has_char nul data = false →
  represents f s → well_formed s → schema f = "1" → (length (groups f) ≤ 4096)%nat →
  parse_authority data = inr (key_view f).
Proof.
  intros Hl Hne Hnul Hf Hs Hsch Hlen. unfold parse_authority. rewrite Hnul, (proj2 (empty_false _)) by done.
  cbn [orb]. rewrite same_load, Hl. cbn [fmap option_fmap option_map]. unfold KeyValue.
  change (default "" _) with (schema f). rewrite Hsch, eqs_refl. cbn [negb].
  rewrite (proj2 (Z.leb_le _ _)) by (unfold groups in Hlen; lia). cbn [andb].
  assert (Hall : forallb (group_valid (key_view f)) (kf_groups (key_view f)) = true) by
    (apply forallb_forall; intros g Hg; apply (known_group_valid f s); [done|done|]; apply (rp_group f s Hf);
     by apply list_elem_of_In).
  by rewrite Hall.
Qed.

(** A group of the inventory with its fields passes the check on its shape. *)
Lemma offline_group_zero f g generation state :
  Get f g "generation" = generation → Get f g "state" = status_name state → uuid_form generation = true →
  offline_group (key_view f) g = 0.
Proof.
  intros Hg Hs Hu. destruct (uuid_plain generation Hu) as (_ & Hne & Hsz). unfold offline_group, KeyValue.
  assert (Hin : g ∈ groups f) by (apply (Get_group f g "generation"); by rewrite Hg).
  rewrite bool_decide_eq_true_2 by done. unfold Get in Hg, Hs. rewrite Hg, Hs, status_valid.
  rewrite (proj2 (empty_false _)) by done. rewrite Hsz. done.
Qed.

(** What [ValidateOfflineInstallation] finds in an inventory it has read. *)
Lemma validate_read f s p x g :
  ReadOfflineAuthority = inr (key_view f) → represents f s → well_formed s → consistent s →
  Identifier p = true → Identifier x = true →
  ValidateOfflineInstallation p x g = 0 ↔ s.(apps) !! x = Some (mkApp p g Active) ∧ pkgmgr_pkgid x = Some p.
Proof.
  intros Hread Hf Hs Hc Hp Hx. unfold ValidateOfflineInstallation. rewrite Hread.
  destruct (size_identifier p Hp) as [_ Hp2%Z.leb_le]. destruct (size_identifier x Hx) as [_ Hx2%Z.leb_le].
  rewrite Z.leb_antisym, <- Z.gtb_ltb in Hp2, Hx2. apply negb_true_iff in Hp2, Hx2.
  pose proof (Identifier_all p Hp) as [Hp1 _]. pose proof (Identifier_all x Hx) as [Hx1 _].
  rewrite Hp2, Hx2, !(proj2 (empty_false _)) by done. cbn [orb]. cbv zeta.
  fold (key p). change (KeyValue (key_view f)) with (Get f). pose proof (rp_owner f s Hf x) as Hown.
  destruct (rp_package f s Hf p Hp) as [Hpg Hps]. split.
  - destruct (empty g || _); [done|]. destruct (negb (offline_group _ (key p) =? 0)) eqn:E1.
    { intros E. by rewrite E in E1. }
    destruct (negb (offline_group _ x =? 0)) eqn:E2; [intros E; by rewrite E in E2|].
    destruct (empty (Get f x "package") || _) eqn:E3; [done|].
    destruct (_ || _ || _ || _ || _) eqn:E4; [done|]. destruct (pkgmgr_pkgid x) as [actual|]; [|done].
    destruct (eqs p actual) eqn:E5; [|done]. intros _. str_hyps. subst actual.
    destruct (s.(apps) !! x) as [a|] eqn:Ha; [|by rewrite Hown in *].
    destruct (rp_app f s Hf x a Ha) as [Hag Has]. split; [|done]. f_equal. destruct a as [ap ag ast]. simpl in *.
    change "active" with (status_name Active) in *.
    assert (ast = Active) by (apply status_name_inj; congruence). congruence.
  - intros [Ha Hpk]. pose proof (Hc x _ Ha ltac:(done)) as Hk. simpl in Hk.
    pose proof (wf_app s Hs x _ Ha) as (_ & _ & Hu). simpl in Hu. destruct (uuid_plain g Hu) as (_ & Hne & Hsz).
    destruct (rp_app f s Hf x _ Ha) as [Hag Has]. rewrite Hk in Hpg, Hps. rewrite Ha in Hown. simpl in *.
    rewrite (offline_group_zero f (key p) g Active), (offline_group_zero f x g Active) by done.
    rewrite Hown, Hpg, Hps, Hag, Has, Hpk, Hsz, Hp2, !(proj2 (empty_false _)), !eqs_refl by done. done.
Qed.

(** ** The number of groups *)

(** A package that is begun for the first time adds two groups. *)
Lemma begin_groups f s op p uuid :
  represents f s → well_formed s → Identifier p = true → Identifier op = true → uuid_form uuid = true →
  schema f = "1" → s.(packages) !! p = None → s.(operations) !! op = None → (length (groups f) < 4096)%nat →
  ∃ f', Apply f (request op (mkOrder Begin p "absent")) uuid = Some (f', uuid) ∧
    (key p ∉ groups f → operation_key op ∉ groups f → groups f' ≡ₚ operation_key op :: key p :: groups f).
Proof.
  intros Hf Hs Hp Hop Hu Hsch Hpk Hops Hlen. destruct (uuid_plain uuid Hu) as (Hpu & _).
  set (o := mkOrder Begin p "absent"). assert (Habs : Identifier "absent" = true).
  { unfold Identifier. simpl. unfold identifier_byte. by rewrite !isalnum_spec. }
  assert (Ho : valid_order o) by done.
  destruct (rp_operation f s Hf op Hop) as [Hfp _]. destruct (rp_package f s Hf p Hp) as [Hg _].
  pose proof (plain_key p Hp). pose proof (plain_operation op Hop). pose proof (plain_fingerprint op o Ho).
  rewrite Hops in Hfp. rewrite Hpk in Hg. simpl in Hfp, Hg.
  exists (record_operation (apply_begin f (request op o) uuid).1 (request op o) uuid). split.
  - unfold Apply. cbn [operation request package expected command]. rewrite Hfp. cbn [empty negb].
    rewrite Z.geb_leb, (proj2 (Z.leb_gt _ _)) by lia. unfold o. cbn [or_package or_expected or_command command_name].
    rewrite Hg. cbn [empty eqs negb andb orb]. rewrite !eqs_refl, orb_true_r. done.
  - intros Hnk Hno. unfold record_operation, apply_begin. cbn [operation request package or_package o fst].
    set (f1 := Set_ f (key p) "generation" uuid). set (f2 := Set_ f1 (key p) "state" "pending").
    destruct (set_removed_spec (groups f) f2 p) as [_ HM].
    { intros g Hgr. unfold f2, f1. rewrite !elem_groups_Set by (done || by right). auto. }
    assert (H2' : groups f2 ≡ₚ key p :: groups f).
    { unfold f2, f1, Set_. rewrite set_groups by (done || by right). rewrite bool_decide_eq_true_2.
      - rewrite set_groups by (done || by right). by rewrite bool_decide_eq_false_2.
      - apply (elem_groups_Set f); [by right|done|done|by left]. }
    set (f3 := set_removed f2 (groups f) p) in *. rewrite H2' in HM.
    assert (Hauth : "authority" ∈ groups f) by
      (apply (Get_group f "authority" "schema"); unfold schema in Hsch; by rewrite Hsch).
    set (f4 := Set_ f3 "authority" "schema" "1"). set (f5 := Set_ f4 (operation_key op) "fingerprint" _).
    assert (H4' : groups f4 ≡ₚ key p :: groups f).
    { unfold f4, Set_. rewrite set_groups by (done || by right). rewrite bool_decide_eq_true_2; [done|].
      rewrite HM. by right. }
    assert (H5' : groups f5 ≡ₚ operation_key op :: key p :: groups f).
    { unfold f5, Set_. rewrite set_groups by (done || by right). rewrite bool_decide_eq_false_2; [by rewrite H4'|].
      rewrite H4'. by intros [E|?]%elem_of_cons. }
    unfold Set_. rewrite set_groups by (done || by right). rewrite bool_decide_eq_true_2; [done|]. rewrite H5'. by left.
Qed.

(** The daemon refuses a file with more groups than it counts to. *)
Lemma parse_overfull `{!SameGlib} data f :
  g_key_file_load_from_data data = Some f → (4096 < length (groups f))%nat → parse_authority data = inl (- EINVAL).
Proof.
  intros Hl Hlen. unfold parse_authority. destruct (_ || _); [done|]. rewrite same_load, Hl.
  cbn [fmap option_fmap option_map]. destruct (negb _); [done|].
  rewrite (proj2 (Z.leb_gt _ _)); [done|]. unfold groups in Hlen. lia.
Qed.

(** The tool accepts a file with 4095 groups and writes one with 4097, which
    the daemon then refuses to read offline. *)
Theorem tool_outgrows_daemon `{!SameGlib} f s op p uuid :
  represents f s → well_formed s → Identifier p = true → Identifier op = true → uuid_form uuid = true →
  schema f = "1" → key p ∉ groups f → operation_key op ∉ groups f → length (groups f) = 4095%nat →
  ∃ f', Apply f (request op (mkOrder Begin p "absent")) uuid = Some (f', uuid) ∧
    ∀ data, g_key_file_to_data f' = Some data → parse_authority data = inl (- EINVAL).
Proof.
  intros Hf Hs Hp Hop Hu Hsch Hnk Hno Hlen.
  assert (Hpk : s.(packages) !! p = None).
  { destruct (s.(packages) !! p) as [k|] eqn:Hk; [|done]. destruct Hnk. destruct (rp_package f s Hf p Hp) as [Hg _].
    apply (Get_group f _ "generation"). rewrite Hg, Hk. simpl. pose proof (wf_package s Hs _ _ Hk) as [_ Hug].
    apply (uuid_plain _ Hug). }
  assert (Hops : s.(operations) !! op = None).
  { destruct (s.(operations) !! op) as [[o r]|] eqn:Hk; [|done]. destruct Hno.
    destruct (rp_operation f s Hf op Hop) as [Hg _]. apply (Get_group f _ "fingerprint"). rewrite Hg, Hk. simpl.
    apply fingerprint_nonempty. }
  destruct (begin_groups f s op p uuid) as (f' & Ha & Hg); [done..|lia|]. exists f'. split; [done|].
  intros data Hd. destruct (data_load f' data Hd) as (f'' & Hl & _ & Hg'). apply (parse_overfull data f''); [done|].
  rewrite Hg', (Hg Hnk Hno). simpl. lia.
Qed.
End reading.

(** ** Theorems *)

Section theorems.
Context `{Platform} `{!PlatformLaws} `{KeyFiles} `{!KeyFilesLaws}.

(** C25: the tool implements the abstract inventory whatever happens to its
    runs.  On a system without inventories, after any sequence of runs with
    any arguments, each ended by success, refusal or a kill at any system
    call, the inventory of every directory is the result of whole operations
    of the contract [perform] in sequence, and it is consistent: an
    application that is not removed has the generation and the state of its
    package.  A further run that exits with 0 has its operation recorded in
    the inventory on the disk, with the generation that it prints. *)
Theorem installer_refines `{!Os} `{!OsLaws} `{!UuidLaws} t0 t :
  (∀ dir, t0 !! conf dir = None) → rtc tool_run t0 t →
  (∀ dir, ∃ s, on_disk dir t s ∧ rtc step no_inventory s ∧ consistent s) ∧
  (∀ args n d' out, main args (mkDisk t n) = (d', Done (0, out)) →
     ∃ root dir op o s, parse_arguments args = Some (root, request op o) ∧ on_disk dir d'.(tree) s ∧
       rtc step no_inventory s ∧ s.(operations) !! op = Some (o, out)).
Proof.
  intros H0' Hr. pose proof (runs_on_disk t0 t H0' Hr) as Hall.
  split.
  - intros dir. destruct (Hall dir) as (s & Hd & Hs). exists s. split_and!; [done..|]. by apply steps_consistent.
  - intros args n d' out Hrun. pose proof (wp_main args t n) as Hwp. rewrite Hrun in Hwp.
    destruct Hwp as [_ Hok]. destruct (Hok eq_refl) as (root & rq & dir & Hp & Ha). simpl in Ha.
    destruct (parse_arguments_valid _ _ _ Hp) as (op & o & -> & Hv & Hop). destruct (Hall dir) as (s & Hd & Hs).
    destruct (applied_step _ _ _ _ _ _ _ Hd Hv Hop Ha) as (s' & Hst & Hd' & Hops).
    exists root, dir, op, o, s'. split_and!; [done..| |done]. by eapply rtc_r.
Qed.

(** C26: the daemon and the installer agree.  When the daemon reads an
    inventory that the tool has written, with at most 4096 groups, it accepts
    the file, and it validates an installation exactly when the abstract
    inventory has the application active in this package and generation and
    the package manager names the same package. *)
Theorem installation_agreement `{!Inventory} `{!SameGlib} dir (t : disk_tree) st data s p x g :
  t !! conf dir = Some (NFile st data) → on_disk dir t s → consistent s →
  (∀ f, g_key_file_load_from_data data = Some f → length (groups f) ≤ 4096)%nat →
  ReadOfflineAuthority = parse_authority data → Identifier p = true → Identifier x = true →
  CheckOfflineAuthority = 0 ∧
  (ValidateOfflineInstallation p x g = 0 ↔ s.(apps) !! x = Some (mkApp p g Active) ∧ pkgmgr_pkgid x = Some p).
Proof.
  intros Ht Hd Hc Hlen Hread Hp Hx. unfold on_disk in Hd. rewrite Ht in Hd.
  destruct Hd as (f & Hl & Hf & Hs & Hsch & Hne & Hnul).
  rewrite (parse_written data f s) in Hread by auto. split; [unfold CheckOfflineAuthority; by rewrite Hread|].
  by apply (validate_read f).
Qed.
End theorems.
