(* ===== verification/InstallerWitnesses.v ===== *)
(** * An installation

    Key files as lists of groups, with an encoding that is read back, and the
    tool that begins, attaches and commits an installation on a small disk;
    the theorems on the inventory applied to these runs. *)
From S2P Require Import Prelude Strings Platform Message Wire Packing Localization Registration.
From S2P Require Import Identity Offline OfflineSpec Recovery Storage StorageSpec Installer InstallerSpec InstallerRefine.
From S2P Require Import InstallerRuns InstallerTheorems.
From Stdlib Require Import Ascii.
Import offline installer.

(** ** Key files as lists *)

Definition group_list : Type := list (string * list (string * string)).

Fixpoint find_key {A} (k : string) (l : list (string * A)) : option A :=
  match l with [] => None | (k', v) :: l' => if bool_decide (k = k') then Some v else find_key k l' end.

Fixpoint put_key {A} (k : string) (h : option A → A) (l : list (string * A)) : list (string * A) :=
  match l with
  | [] => [(k, h None)]
  | (k', v) :: l' => if bool_decide (k = k') then (k, h (Some v)) :: l' else (k', v) :: put_key k h l'
  end.

Fixpoint bits (p : positive) : string :=
  match p with xH => "." | xO q => String "0" (bits q) | xI q => String "1" (bits q) end.

Fixpoint read_bits (s : string) : positive :=
  match s with
  | String "0" s' => xO (read_bits s')
  | String "1" s' => xI (read_bits s')
  | _ => xH
  end.

Definition list_view (l : group_list) : KeyFile :=
  mkKeyFile l.*1 (λ g k, find_key g l ≫= find_key k) (λ _ _, None).

#[local] Instance list_files : KeyFiles := {|
  GKeyFile := group_list;
  key_view := list_view;
  g_key_file_new := [];
  g_key_file_load_from_data s := decode (read_bits s);
  g_key_file_set_string l g k v := put_key g (λ old, put_key k (λ _, v) (default [] old)) l;
  g_key_file_to_data l := Some (bits (encode l));
|}.

Lemma find_put {A} k (h : option A → A) l k' :
  find_key k' (put_key k h l) = if bool_decide (k' = k) then Some (h (find_key k l)) else find_key k' l.
Proof.
  induction l as [|[x v] l IH]; simpl.
  - by case_bool_decide.
  - destruct (decide (k = x)) as [-> |Hx].
    + rewrite (bool_decide_eq_true_2 (x = x)) by done. simpl. by case_bool_decide.
    + rewrite (bool_decide_eq_false_2 (k = x)) by done. simpl. rewrite IH.
      repeat case_bool_decide; congruence.
Qed.

Lemma find_elem {A} k (l : list (string * A)) v : find_key k l = Some v → k ∈ l.*1.
Proof.
  induction l as [|[x w] l IH]; [done|]. simpl. case_bool_decide; [subst; intros; by left|]. intros Hf. right. auto.
Qed.

Lemma put_keys {A} k (h : option A → A) l :
  (put_key k h l).*1 ≡ₚ if bool_decide (k ∈ l.*1) then l.*1 else k :: l.*1.
Proof.
  induction l as [|[x v] l IH]; simpl; [done|]. destruct (decide (k = x)) as [-> |Hx].
  - rewrite (bool_decide_eq_true_2 (x = x)), bool_decide_eq_true_2; [done|by left|done].
  - rewrite (bool_decide_eq_false_2 (k = x)) by done. simpl. rewrite IH.
    destruct (decide (k ∈ l.*1)) as [Hin|Hin].
    + rewrite !bool_decide_eq_true_2; [done|by right|done].
    + rewrite !bool_decide_eq_false_2; [constructor|by intros [|]%elem_of_cons|done].
Qed.

Lemma read_bits_inv p : read_bits (bits p) = p.
Proof. induction p as [p IH|p IH|]; simpl; by rewrite ?IH. Qed.

Lemma bits_text p : has_char nul (bits p) = false ∧ bits p ≠ "".
Proof. split; [|by destruct p]. unfold has_char. apply negb_false_iff. by induction p. Qed.

#[local] Instance list_laws : KeyFilesLaws.
Proof.
  split.
  - done.
  - intros f g k v. simpl. intros (l & Hl & _)%bind_Some. by eapply find_elem.
  - intros f g k v g' k' _ _ _. simpl. rewrite find_put. destruct (decide (g' = g)) as [-> |Hg].
    + rewrite (bool_decide_eq_true_2 (g = g)) by done. simpl. rewrite find_put.
      destruct (decide (k' = k)) as [-> |Hk]; [by rewrite !bool_decide_eq_true_2|].
      rewrite !bool_decide_eq_false_2 by tauto. by destruct (find_key g f).
    + by rewrite !bool_decide_eq_false_2 by tauto.
  - intros f g k v _ _ _. apply put_keys.
  - intros f s [= <-]. exists f. simpl. rewrite read_bits_inv, decode_encode. done.
  - intros f s [= <-]. by destruct (bits_text (encode f)).
Qed.

(** ** The runs *)

Definition demo_uuid : string := "0f1e2d3c-0000-4000-8000-0123456789ab".

#[local] Instance calm_os : Os := {|
  os_next _ := SysOk;
  os_written _ := (64 * 1024)%nat;
  os_order _ l := l;
  os_uuid _ := demo_uuid;
  os_getuid := 0;
  os_geteuid := 0;
  os_getpid := 77;
  os_thread := 1;
  os_umask := 18;
|}.

#[local] Instance calm_laws : OsLaws.
Proof. split; [done|done]. Qed.

#[local] Instance demo_uuids : UuidLaws.
Proof. split. intros n. vm_compute. reflexivity. Qed.

#[local] Instance demo_platform : Platform := reference_platform.

Definition root_dir : node := NDir (mk_file_stat 7 2 16877 0 2 4096 0 0 0).
Definition authority_node : node := NDir (mk_file_stat 7 3 16872 0 2 4096 0 0 301).
Definition authority : path := ["opt"; "var"; "lib"; "consent-authority"].

Definition prepared_disk : disk_tree :=
  list_to_map [(["opt"], root_dir); (["opt"; "var"], root_dir); (["opt"; "var"; "lib"], root_dir);
    (authority, authority_node);
    (authority ++ ["lifecycle.lock"], NFile (mk_file_stat 7 4 33184 0 1 0 0 0 301) "")].

#[local] Abbreviation tool args t := (main args (mkDisk t 0)).
#[local] Abbreviation begun_disk := (tool ["begin"; "org.shop"; "op-1"; "absent"] prepared_disk).1.(tree).
#[local] Abbreviation attached_disk := (tool ["attach"; "org.shop"; "org.shop.app"; "op-2"; demo_uuid] begun_disk).1.(tree).
#[local] Abbreviation commit_args := ["commit"; "org.shop"; "op-3"; demo_uuid].
#[local] Abbreviation committed_disk := (tool commit_args attached_disk).1.(tree).

Example tool_begins : (tool ["begin"; "org.shop"; "op-1"; "absent"] prepared_disk).2 = Done (0, demo_uuid).
Proof. vm_compute. reflexivity. Qed.

Example tool_commits : (tool commit_args attached_disk).2 = Done (0, demo_uuid).
Proof. vm_compute. reflexivity. Qed.

(** The same operation again prints the same generation; another request
    under its name is refused. *)
Example tool_repeats :
  (tool commit_args committed_disk).2 = Done (0, demo_uuid) ∧
  (tool ["remove"; "org.shop"; "op-3"; demo_uuid] committed_disk).2 = Done (1, "").
Proof. split; vm_compute; reflexivity. Qed.

#[local] Instance demo_laws : PlatformLaws := reference_platform_laws.

Lemma prepared_empty dir : prepared_disk !! conf dir = None.
Proof.
  apply not_elem_of_list_to_map. intros Hin. simpl in Hin.
  repeat (apply elem_of_cons in Hin as [E|Hin];
    [apply (f_equal last) in E; unfold conf in E; rewrite last_snoc in E; by injection E|]).
  by apply not_elem_of_nil in Hin.
Qed.

Lemma tool_runs args (t : disk_tree) : tool_run t (tool args t).1.(tree).
Proof. exists args, 0%nat, (tool args t).1, (tool args t).2. split; [apply surjective_pairing|done]. Qed.

Lemma attached_reached : rtc tool_run prepared_disk attached_disk.
Proof. eapply rtc_l; [apply tool_runs|]. apply rtc_once, tool_runs. Qed.

Lemma committed_reached : rtc tool_run prepared_disk committed_disk.
Proof. eapply rtc_r; [apply attached_reached|apply tool_runs]. Qed.

Lemma installer_refines_witness :
  (∃ s, on_disk authority attached_disk s ∧ rtc step no_inventory s ∧ consistent s) ∧
  ∃ root dir op o s, parse_arguments commit_args = Some (root, request op o) ∧ on_disk dir committed_disk s ∧
    rtc step no_inventory s ∧ s.(operations) !! op = Some (o, demo_uuid).
Proof.
  destruct (installer_refines prepared_disk attached_disk prepared_empty attached_reached) as [Hs Hr].
  split; [exact (Hs authority)|]. apply (Hr commit_args 0%nat (tool commit_args attached_disk).1 demo_uuid).
  rewrite <- tool_commits. apply surjective_pairing.
Defined.

(** ** The daemon *)

Definition inventory_bytes (t : disk_tree) : string := content (t !! conf authority).

(** A daemon that reads some bytes as its inventory. *)
Definition reading_fs (data : string) : FileSystem := mkFileSystem
  (λ _ _, None) (λ _, StatOk (mk_file_stat 7 5 33184 0 1 64 0 0 301)) (λ _, inr data) (λ _, None).

#[local] Instance reading_daemon (data : string) : Inventory := {|
  inv_fs := reading_fs data;
  g_key_file_load s := key_view <$> g_key_file_load_from_data s;
  pkgmgr_pkgid _ := Some "org.shop";
|}.

#[local] Instance daemon_same data : @SameGlib _ (reading_daemon data).
Proof. by split. Qed.

Lemma daemon_reads data : size data ≤ 1048576 →
  @ReadOfflineAuthority (reading_daemon data) = @parse_authority (reading_daemon data) data.
Proof.
  intros Hs. unfold ReadOfflineAuthority. cbn [inv_fs reading_daemon].
  change (rfind_char "/" CONSENT_INSTALLATIONS) with (Some 30%nat). cbv beta iota.
  change (OpenProtected (reading_fs data) _ true) with
    (Some (authority, mk_file_stat 7 5 33184 0 1 64 0 0 301)). cbv beta iota.
  cbn [fs_open fs_stat fs_read fs_close reading_fs]. cbn -[parse_authority size Z.gtb].
  assert (Hz : (size data >? 1048576) = false) by (rewrite Z.gtb_ltb; by apply Z.ltb_ge). by rewrite Hz.
Qed.

(** What the daemon decides about the application on the final disk. *)
Example daemon_validates :
  @ValidateOfflineInstallation (reading_daemon (inventory_bytes committed_disk)) "org.shop" "org.shop.app" demo_uuid = 0.
Proof. vm_compute. reflexivity. Qed.

(** The number of groups of the final inventory. *)
Example committed_groups :
  bool_decide (size (inventory_bytes committed_disk) ≤ 1048576) &&
  match g_key_file_load_from_data (inventory_bytes committed_disk) with
  | Some f => (length (groups f) <=? 4096)%nat
  | None => false
  end = true.
Proof. vm_compute. reflexivity. Qed.

Definition has_inventory (t : disk_tree) : bool :=
  match t !! conf authority with Some (NFile _ _) => true | _ => false end.

Lemma inventory_file (t : disk_tree) : has_inventory t = true → ∃ st, t !! conf authority = Some (NFile st (inventory_bytes t)).
Proof. unfold has_inventory, inventory_bytes. destruct (t !! conf authority) as [[]|]; try done. intros _. simpl. eauto. Qed.

Example committed_file : has_inventory committed_disk = true.
Proof. vm_compute. reflexivity. Qed.

Lemma installation_agreement_witness :
  ∃ s, on_disk authority committed_disk s ∧
    @CheckOfflineAuthority (reading_daemon (inventory_bytes committed_disk)) = 0 ∧
    s.(apps) !! "org.shop.app" = Some (mkApp "org.shop" demo_uuid Active).
Proof.
  destruct (runs_on_disk prepared_disk committed_disk prepared_empty committed_reached authority) as (s & Hd & Hr).
  destruct (inventory_file committed_disk committed_file) as [st Hst]. pose proof committed_groups as Hg. apply andb_true_iff in Hg as [Hz Hg].
  apply bool_decide_eq_true in Hz.
  exists s. split; [exact Hd|].
  destruct (@installation_agreement _ _ _ _ (reading_daemon (inventory_bytes committed_disk))
    (daemon_same (inventory_bytes committed_disk)) authority committed_disk st (inventory_bytes committed_disk) s
    "org.shop" "org.shop.app" demo_uuid Hst Hd (steps_consistent s Hr)) as [Hc Hv].
  - intros f Hf. rewrite Hf in Hg. by apply Nat.leb_le.
  - by apply daemon_reads.
  - vm_compute. reflexivity.
  - vm_compute. reflexivity.
  - split; [exact Hc|]. by apply (proj1 Hv daemon_validates).
Defined.
