(* ===== verification/Startup.v ===== *)
(** * The start of the daemon (src/consentd/server.cc: Run)

    Before any thread exists [Run] loads the role file and the profile
    configuration, takes the shared lifecycle lock, checks the state directory
    and passes the bootstrap gate.  The first job of the database thread opens
    the repository and reconciles the image builder's registrations; only if
    it succeeds does the listener start.  The preflight runs over the disk of
    [Offline], the job is a repository program, and what follows is a run of
    [Server]. *)
From S2P Require Import Prelude Strings Platform Message Wire Packing Localization Registration.
From S2P Require Import Identity ProfileState ProfileConfig Offline OfflineSpec Recovery Storage StorageSpec.
From S2P Require Import StoragePhases Bootstrap Store Exec Logic Database Lifecycle Repository Server ServerInv.
From Stdlib Require Import Ascii.

Definition CONSENT_ROLE_CONFIG : string := "/etc/consent/roles.conf".

(** [static_cast<int>] of a 64-bit number. *)
Definition to_int (z : Z) : Z := (z + 2 ^ 31) mod 2 ^ 32 - 2 ^ 31.

(** ** The preflight *)

Section preflight.
Import offline.
Context `{Platform} `{Os} `{Host} `{Manager} `{Inventory} `{KeyText}.

Definition lifecycle_path : string := CONSENT_AUTHORITY_DIR +:+ "/lifecycle.lock".

(** The state directory below protected ancestors, owned by the service. *)
Definition state_valid (st : file_stat) : bool :=
  (st.(st_uid) =? os_geteuid) && (Z.land st.(st_mode) 511 =? 448).

Definition open_state : F (option path) :=
  let state_path := CONSENT_STATE_DIR in
  match rfind_char "/" state_path with
  | None => mret None
  | Some slash =>
      let leaf := drop_str (S slash) state_path in
      if (slash =? 0)%nat || empty leaf || eqs leaf "." || eqs leaf ".." then mret None
      else
        parent ← open_protected (take_str slash state_path) true;
        match parent with
        | None => mret None
        | Some parent =>
            r ← openat parent leaf true;
            match r with
            | Some _ => mret None
            | None =>
                st ← fstat (parent ++ [leaf]);
                mret match st with
                     | Some st => if state_valid st then Some (parent ++ [leaf]) else None
                     | None => None
                     end
            end
        end
  end.

(** The checks of [Run] before the socket is touched: whether they pass. *)
Definition preflight (profiles : ProfileState) : F bool :=
  if negb (Load CONSENT_ROLE_CONFIG).1 then mret false
  else if negb (LoadProfiles profiles).1.1 then mret false
  else
    lock ← open_protected lifecycle_path false;
    match lock with
    | None => mret false
    | Some _ =>
        r ← sys;
        if negb (bool_decide (r = None)) then mret false
        else
          state ← open_state;
          match state with
          | None => mret false
          | Some state => CheckBootstrap CONSENT_AUTHORITY_DIR (Some state) CONSENT_SERVICE_UNIT
          end
    end.
End preflight.

(** ** The startup job *)

Section job.
Context `{Platform} `{Env}.

(** [OfflineReconciliation]: the flag is set until the guard goes. *)
Definition reconciliation {A} (on : bool) (m : M A) : M A :=
  if on then
    previous ← gets offline_import_;
    modify (set_offline_import_ true);;
    r ← catch m (λ f, modify (set_offline_import_ previous);; lift (Throw f));
    modify (set_offline_import_ previous);;
    mret r
  else m.

(** The status a reconciled record is given. *)
Definition import_status (reply : Message) : Z := to_int (MsgNumber reply "status" kStorage).

(** The loop over the registrations: whether all were reconciled or deferred. *)
Fixpoint reconcile (records : list Message) : M bool :=
  match records with
  | [] => mret true
  | record :: records' =>
      result ← ImportOfflineRegistration record;
      let status := import_status result in
      if status =? - ESTALE then reconcile records'
      else if negb (status =? 0) then mret false
      else reconcile records'
  end.

(** [loaded] is what [LoadRegistrations] returned, [None] for an error;
    [authority] is [CheckOfflineAuthority()].  The snapshot, if the daemon is
    ready. *)
Definition open_repository (loaded : option (list Message)) (authority : Z) : M (option Message) :=
  match loaded with
  | None => mret None
  | Some registrations =>
      let any := negb (bool_decide (registrations = [])) in
      reconciliation any (
        if any && negb (authority =? 0) && negb (authority =? - ESTALE) then mret None
        else
          opened ← Open;
          if negb opened then mret None
          else
            ok ← reconcile registrations;
            if (ok : bool) then snapshot ← Snapshot; mret (Some snapshot) else mret None)
  end.

Definition startup_job (loaded : option (list Message)) (authority : Z) : M (option Message) :=
  catch (open_repository loaded authority) (λ _, mret None).
End job.

(** ** Run *)

Section run.
Context `{Platform} `{!Parcel} `{Env} `{offline.Os} `{Host} `{Manager} `{Inventory} `{KeyText} `{IoEnv}.

(** The callback that the job posts to the main thread; [notified] says
    whether [sd_notify] succeeded.  The exit status and the server. *)
Definition on_started (ready : option Message) (notified : bool) (s : Server) : Z * Server :=
  match ready with
  | None => (1, Server.Stop s)
  | Some snapshot =>
      if s.(s_stopping) then (0, s)
      else
        let s := (Post (PublishWork snapshot) s).1 in
        if notified then (0, s) else (1, Server.Stop s)
  end.

(** What [LoadRegistrations] gives the job; [None] when the process is killed
    there. *)
Definition load_result (r : offline.fate (list Message)) : option (option (list Message)) :=
  match r with offline.Done l => Some (Some l) | offline.Failed _ => Some None | offline.Killed => None end.

(** A turn of a thread, with [exit_status_]: the emergency source sets it. *)
Definition exit_step (x : Z * Server) (e : event) : Z * Server :=
  (match e with EvEmergency => if x.2.(s_emergency) then 1 else x.1 | _ => x.1 end, step e x.2).

Definition run_exit (x : Z * Server) (l : list event) : Z * Server := foldl exit_step x l.

(** A life of the daemon on a disk: [None] when it ends before its threads
    start, else [exit_status_] and the server after some turns of its
    threads.  [listening] says whether the listener and the parser pool could
    be made, [early] whether a signal stopped it during the startup. *)
Definition Run (profiles : ProfileState) (d : offline.Disk) (w : World) (listening early notified : bool) (l : list event)
  : option (Z * Server) :=
  match preflight profiles d with
  | (d, offline.Done true) =>
      _ ← guard (listening = true);
      loaded ← load_result (offline.LoadRegistrations CONSENT_AUTHORITY_DIR d).2;
      let '(w, ready) := startup_job loaded CheckOfflineAuthority w in
      let s := if early then Server.Stop (started w) else started w in
      Some (run_exit (on_started (match ready with Ret r => r | Throw _ => None end) notified s) l)
  | _ => None
  end.
End run.

(** ** The gate *)

Section gate.
Import offline.
Context `{Platform} `{Os} `{!OsLaws} `{Host} `{Manager} `{Inventory} `{KeyText}.

Lemma reader_open_any p directory : reader (open_protected p directory) (λ _ _, True).
Proof.
  unfold open_protected. eapply reader_bind; [apply reader_sys|]. intros r.
  eapply (reader_bind _ _ (λ _ _, True)); [by intros t Q E K HK HE HQ n; apply HQ|]. intros t0.
  eapply reader_weaken; [apply reader_ret|done].
Qed.

(** The state directory is there and belongs to the service alone. *)
Definition state_ready (t : disk_tree) : Prop :=
  ∃ st, t !! state_dir = Some (NDir st) ∧ st.(st_uid) = os_geteuid ∧ Z.land st.(st_mode) 511 = 448.

Lemma reader_open_state : reader open_state (λ o t, ∀ p, o = Some p → p = state_dir ∧ state_ready t).
Proof.
  unfold open_state. change (rfind_char "/" CONSENT_STATE_DIR) with (Some 12%nat). cbv beta iota.
  change (drop_str 13 CONSENT_STATE_DIR) with "consentd". change (take_str 12 CONSENT_STATE_DIR) with "/opt/var/lib".
  cbn [Nat.eqb empty eqs orb]. change (eqs "consentd" "." || eqs "consentd" "..") with false.
  assert (Hno : reader (mret None : F (option path)) (λ o t, ∀ p, o = Some p → p = state_dir ∧ state_ready t)).
  { eapply reader_weaken; [apply reader_ret|by intros o t ->]. }
  change (eqs "consentd" ".") with false. change (eqs "consentd" "..") with false. cbv beta iota.
  eapply reader_bind; [apply reader_open_protected|].
  intros [parent|]; [|eapply reader_weaken; [apply Hno|auto]].
  eapply reader_bind; [apply reader_opened|]. intros [e|]; [eapply reader_weaken; [apply Hno|auto]|].
  eapply reader_bind; [apply reader_fstat|]. intros st. eapply reader_weaken; [apply reader_ret|].
  intros o t -> Hst Hdir Hpar p. destruct st as [st|]; [|done]. destruct (state_valid st) eqn:Hv; [|done].
  intros [= <-]. destruct (Hpar _ eq_refl) as [-> _]. unfold state_ready.
  change (split_path "/opt/var/lib" ++ ["consentd"]) with state_dir in *. split; [done|].
  destruct (Hdir eq_refl) as [st' Hd]. destruct (Hst st eq_refl) as (n & Hn & Hs). rewrite Hd in Hn. injection Hn as <-.
  injection Hs as ->. unfold state_valid in Hv. bool_hyps. exists st. split_and!; [done|by apply Z.eqb_eq..].
Qed.

(** What the preflight lets through. *)
Lemma reader_preflight profiles :
  reader (preflight profiles) (λ b t, b = true → may_start t ∧ state_ready t).
Proof.
  assert (Hno : reader (mret false) (λ b t, b = true → may_start t ∧ state_ready t)).
  { eapply reader_weaken; [apply reader_ret|by intros b t ->]. }
  unfold preflight. destruct (negb _); [done|]. destruct (negb _); [done|].
  eapply reader_bind; [apply reader_open_any|]. intros [lock|]; [|eapply reader_weaken; [apply Hno|auto]].
  eapply reader_bind; [apply reader_sys|]. intros r. destruct (negb _); [eapply reader_weaken; [apply Hno|auto]|].
  eapply reader_bind; [apply reader_open_state|]. intros [state|]; [|eapply reader_weaken; [apply Hno|auto]].
  eapply reader_weaken; [apply reader_CheckBootstrap|]. intros b t Hb Hs _ _ Hb'.
  destruct (Hs _ eq_refl) as [-> Hst]. split; [by apply Hb|done].
Qed.
End gate.

(** ** The job *)

Section job_spec.
Context `{Platform} `{Env}.

(** Every record was reconciled, or deferred because its installation is not
    active. *)
Inductive settled : World → list Message → World → Prop :=
| settled_nil w : settled w [] w
| settled_cons w record result w' records w'' :
    ImportOfflineRegistration record w = (w', Ret result) →
    import_status result = 0 ∨ import_status result = - ESTALE →
    settled w' records w'' → settled w (record :: records) w''.

Lemma reconcile_settled records w w' : reconcile records w = (w', Ret true) → settled w records w'.
Proof.
  revert w. induction records as [|record records IH]; intros w; cbn [reconcile].
  { intros [= <-]. constructor. }
  unfold mbind, M_bind. destruct (ImportOfflineRegistration record w) as [w1 [result|f]] eqn:Hi; [|done].
  destruct (_ =? - ESTALE) eqn:Hst; [|destruct (_ =? 0) eqn:H0'; [|done]]; intros Hr;
    (eapply settled_cons; [exact Hi| |by apply IH]); [right|left]; by apply Z.eqb_eq.
Qed.

(** The state in which the repository is opened, and the one that is served:
    the guard sets the flag when there is anything to import, and resets it. *)
Definition importing (records : list Message) (w : World) : World :=
  if bool_decide (records = []) then w else set_offline_import_ true w.
Definition imported (records : list Message) (before w : World) : World :=
  if bool_decide (records = []) then w else set_offline_import_ before.(offline_import_) w.

Lemma reconciliation_Ret {A} records (m : M A) w w' a :
  reconciliation (negb (bool_decide (records = []))) m w = (w', Ret a) →
  ∃ w3, m (importing records w) = (w3, Ret a) ∧ w' = imported records w w3.
Proof.
  unfold reconciliation, importing, imported. destruct (bool_decide (records = [])); simpl.
  { intros Hm. by exists w'. }
  unfold mbind, M_bind, catch, gets, modify. simpl.
  destruct (m (set_offline_import_ true w)) as [w2 [b|f]] eqn:Hm; simpl; [|done]. intros [= <- <-]. eauto.
Qed.

(** The daemon is ready only with all registrations settled and a snapshot of
    the open database. *)
Lemma startup_ready loaded authority w w' snapshot :
  startup_job loaded authority w = (w', Ret (Some snapshot)) →
  ∃ records w1 w2 w3, loaded = Some records ∧ (records = [] ∨ authority = 0 ∨ authority = - ESTALE) ∧
    Open (importing records w) = (w1, Ret true) ∧ settled w1 records w2 ∧
    Snapshot w2 = (w3, Ret snapshot) ∧ w' = imported records w w3.
Proof.
  unfold startup_job, catch. destruct (open_repository loaded authority w) as [wx [r|f]] eqn:Ho; [|done].
  intros [= -> ->]. unfold open_repository in Ho. destruct loaded as [records|]; [|done].
  cbv zeta in Ho. apply reconciliation_Ret in Ho as (w3 & Ho & ->).
  destruct (negb (bool_decide (records = [])) && _ && _) eqn:Ha; [done|].
  unfold mbind, M_bind in Ho. destruct (Open (importing records w)) as [w1 [[]|f]] eqn:Hop; [|done|done]. simpl in Ho.
  destruct (reconcile records w1) as [w2 [[]|f]] eqn:Hr; [|done|done].
  destruct (Snapshot w2) as [w4 [sn|f]] eqn:Hs; [|done]. injection Ho as -> ->.
  exists records, w1, w2, w3. split_and!; [done| |done|by apply reconcile_settled|done|done].
  destruct (decide (records = [])) as [Hn|Hn]; [by left|right]. rewrite bool_decide_eq_false_2 in Ha by done. simpl in Ha.
  destruct (authority =? 0) eqn:E0; [left; by apply Z.eqb_eq|right]. destruct (authority =? - ESTALE) eqn:E1; [|done].
  by apply Z.eqb_eq.
Qed.

Section adopted.
Context (adopted : ∀ n, wf (env_content n)).

Hint Resolve evolves_Open evolves_Snapshot evolves_Import : consent.

Lemma evolves_reconcile records : evolves (keeps wf) (reconcile records).
Proof. induction records as [|record records IH]; cbn [reconcile]; solve_evolves. Qed.

Hint Resolve evolves_reconcile : consent.

Lemma evolves_startup loaded authority : evolves (keeps wf) (startup_job loaded authority).
Proof. unfold startup_job, open_repository, reconciliation. solve_evolves. Qed.
End adopted.
End job_spec.

(** ** A life of the daemon *)

Section life.
Context `{Platform} `{!Parcel} `{Env} `{offline.Os} `{!offline.OsLaws} `{Host} `{Manager} `{Inventory} `{KeyText}.
Context `{IoEnv} `{!IoLaws}.

(** A stopping server that never had a client. *)
Record idle (s : Server) : Prop := {
  id_stopping : s.(s_stopping) = true;
  id_conns : s.(s_conns) = ∅;
  id_clients : s.(s_clients) = ∅;
  id_next : s.(s_next_client) = 0;
  id_parse : s.(s_parse) = [];
  id_posted : s.(s_posted) = [];
  id_db : Forall (λ j, j = JobShutdown) s.(s_db);
}.

Lemma idle_Stop s : idle s → idle (Server.Stop s).
Proof. intros Hs. unfold Server.Stop. by rewrite (id_stopping s Hs). Qed.

Lemma idle_connection id s : idle s → connection id s = closed_connection new_connection.
Proof. intros Hs. unfold connection. by rewrite (id_conns s Hs), lookup_empty. Qed.

Lemma idle_step e s : idle s → idle (step e s).
Proof.
  intros Hs. pose proof Hs as [Hst Hc Hcl Hn Hp Hpo Hdb]. destruct e; cbn [step].
  - unfold incoming. by rewrite Hst.
  - by rewrite idle_connection.
  - by rewrite idle_connection.
  - by rewrite idle_connection.
  - by rewrite Hpo.
  - by rewrite Hp.
  - destruct (s_db s) as [|j l]; [done|]. apply Forall_cons in Hdb as [-> Hdb]. simpl. split; simpl; done.
  - by rewrite Hst.
  - by rewrite Hst.
  - by apply idle_Stop.
  - destruct (s_emergency s); [|done]. apply idle_Stop. by split.
  - destruct (s_stop_io s); [|done]. unfold StopIo. rewrite io_getS. unfold client_ids.
    cbn [s_clients set_s_stop_io]. rewrite Hcl, elements_empty. split; simpl; try done.
    apply Forall_app. split; [done|by apply Forall_singleton].
Qed.

Lemma idle_run s l : idle s → idle (run_events s l).
Proof.
  unfold run_events. revert s. induction l as [|e l IH]; intros s Hs; [done|]. simpl. by apply IH, idle_step.
Qed.

Lemma idle_started w : idle (Server.Stop (started w)).
Proof. by split. Qed.

(** The turns leave the exit status alone once it is 1. *)
Lemma run_exit_server x l : (run_exit x l).2 = run_events x.2 l.
Proof. unfold run_exit, run_events. revert x. induction l as [|e l IH]; intros x; [done|]. simpl. apply IH. Qed.

Lemma run_exit_failed s l : (run_exit (1, s) l).1 = 1.
Proof.
  unfold run_exit. revert s. induction l as [|e l IH]; intros s; [done|]. cbn [foldl].
  replace (exit_step (1, s) e) with (1, step e s); [apply IH|].
  unfold exit_step. simpl. destruct e; try done. by destruct (s_emergency s).
Qed.

Lemma inv_on_started ready notified s : inv s → inv (on_started ready notified s).2.
Proof.
  intros Hs. unfold on_started. destruct ready as [snapshot|]; [|by apply inv_Stop].
  destruct (s_stopping s); [done|]. destruct notified; [by apply inv_Post|by apply inv_Stop, inv_Post].
Qed.

(** The server that the startup leaves behind, which has no client yet. *)
Record ready_server (w : World) (early notified : bool) (snapshot : Message) (s : Server) : Prop := {
  rs_world : s.(s_world) = w;
  rs_conns : s.(s_conns) = ∅;
  rs_clients : s.(s_clients) = ∅;
  rs_posted : s.(s_posted) = if early then [] else [PublishWork snapshot];
  rs_stopping : s.(s_stopping) = early || negb notified;
  rs_db : s.(s_db) = [];
}.

Lemma on_started_ready w early notified snapshot :
  ready_server w early notified snapshot
    (on_started (Some snapshot) notified (if early then Server.Stop (started w) else started w)).2.
Proof. by destruct early, notified; split. Qed.

(** C6: a life of the daemon, from its process to any turn of its threads.  On
    every disk whose data the daemon itself has written, a daemon that gets
    as far as starting its threads found a receipt that lets it start, data
    or a first start of this very invocation, and its state directory; and
    under every later interleaving the database is well formed.  Either the
    spool was readable, the installation inventory was not malformed if it
    was needed, this process's repository was opened, every registration of
    the image builder was imported, in order, or deferred because its
    installation is not active, and the threads serve exactly the database
    that resulted, starting without a client and with the snapshot taken of
    it, and afterwards change it by nothing but repository calls; or the
    daemon never has a client and its exit status is 1. *)
Theorem daemon_life profiles (d : offline.Disk) w listening early notified l status s :
  (∀ n, wf (env_content n)) → wf (w_db w) → Run profiles d w listening early notified l = Some (status, s) →
  may_start d.(offline.tree) ∧ state_ready d.(offline.tree) ∧ wf (w_db s.(s_world)) ∧
  ((∃ d' records w1 w2 w3 snapshot s0 calls,
     (offline.LoadRegistrations CONSENT_AUTHORITY_DIR d').2 = offline.Done records ∧
     d'.(offline.tree) = d.(offline.tree) ∧
     (records = [] ∨ CheckOfflineAuthority = 0 ∨ CheckOfflineAuthority = - ESTALE) ∧
     Open (importing records w) = (w1, Ret true) ∧ settled w1 records w2 ∧
     Snapshot w2 = (w3, Ret snapshot) ∧
     ready_server (imported records w w3) early notified snapshot s0 ∧
     s = run_events s0 l ∧ s.(s_world) = performs (imported records w w3) calls) ∨
   status = 1 ∧ s.(s_next_client) = 0 ∧ s.(s_conns) = ∅).
Proof.
  intros Hc Hw Hrun. unfold Run in Hrun. destruct (preflight profiles d) as [d1 [[]|st|]] eqn:Hp; try done.
  apply (reader_run _ _ _ _ _ (reader_preflight profiles)) in Hp as [Ht Hgate]. destruct (Hgate eq_refl) as [Hm Hs].
  split; [done|]. split; [done|]. apply bind_Some in Hrun as (_ & _ & Hrun). apply bind_Some in Hrun as (loaded & Hl & Hrun).
  pose proof (evolves_startup Hc loaded CheckOfflineAuthority w) as (Hwf & _).
  destruct (startup_job loaded CheckOfflineAuthority w) as [w' r] eqn:Hj. specialize (Hwf Hw). simpl in Hwf.
  set (s0 := if early then Server.Stop (started w') else started w') in *.
  assert (Hi0 : inv s0) by (unfold s0; destruct early; [apply inv_Stop|]; by apply inv_started).
  set (ready := match r with Ret r => r | Throw _ => None end) in *.
  injection Hrun as Hrun. pose proof (run_exit_server (on_started ready notified s0) l) as Hs1.
  rewrite Hrun in Hs1. simpl in Hs1. subst s.
  split; [apply (in_world _ _ _ (inv_run_events Hc _ l (inv_on_started ready notified s0 Hi0)))|].
  destruct ready as [snapshot|] eqn:Hready.
  - left. assert (r = Ret (Some snapshot)) as -> by (destruct r as [[]|]; unfold ready in Hready; congruence).
    destruct (startup_ready _ _ _ _ _ Hj) as (records & w1 & w2 & w3 & -> & Ha & Hop & Hset & Hsn & ->).
    destruct (run_events_calls (on_started (Some snapshot) notified s0).2 l) as [calls Hcalls].
    pose proof (on_started_ready (imported records w w3) early notified snapshot) as Hrs. fold s0 in Hrs.
    rewrite (rs_world _ _ _ _ _ Hrs) in Hcalls.
    exists d1, records, w1, w2, w3, snapshot, (on_started (Some snapshot) notified s0).2, calls.
    split_and!; [|done..].
    destruct (offline.LoadRegistrations CONSENT_AUTHORITY_DIR d1).2; simpl in Hl; congruence.
  - right. assert (Hidle : idle (Server.Stop s0)).
    { unfold s0. destruct early; [apply idle_Stop|]; apply idle_started. }
    apply (idle_run _ l) in Hidle. pose proof (run_exit_failed (Server.Stop s0) l) as Hst. simpl in Hrun.
    rewrite Hrun in Hst. destruct Hidle. done.
Qed.
End life.
