(* ===== verification/StartupWitnesses.v ===== *)
(** * A start of the daemon

    The daemon starts on the disk that the storage helper has prepared, for
    the first time, and admits a client. *)
From S2P Require Import Prelude Strings Platform Message Wire Packing Localization Registration.
From S2P Require Import Identity ProfileState ProfileConfig Offline OfflineSpec Recovery Storage StorageSpec.
From S2P Require Import StoragePhases Bootstrap BootstrapWitnesses Store Exec Logic Database Lifecycle Repository.
From S2P Require Import Server ServerInv Scenario ServerScenario Startup.
From Stdlib Require Import Ascii.

(** The helper's runs were root's; the daemon has its own account. *)
Definition installed_tree : offline.disk_tree :=
  (@Storage.main BootstrapWitnesses.calm_os demo_random demo_host ["--first-install"]
     (offline.mkDisk bare_disk 0)).1.(offline.tree).
Definition prepared_tree : offline.disk_tree :=
  <[[] := root_directory]>
    (@Storage.main BootstrapWitnesses.calm_os demo_random demo_host [] (offline.mkDisk installed_tree 0)).1.(offline.tree).

#[local] Instance daemon_os : offline.Os := {|
  offline.os_next _ := offline.SysOk;
  offline.os_written _ := 16%nat;
  offline.os_order _ l := l;
  offline.os_uuid _ := "";
  offline.os_getuid := 301;
  offline.os_geteuid := 301;
  offline.os_getpid := 77;
  offline.os_thread := 1;
  offline.os_umask := 18;
|}.

#[local] Instance daemon_laws : offline.OsLaws.
Proof. split; done. Qed.

#[local] Existing Instance demo_host.
#[local] Existing Instance demo_manager.

(** The role file, and no profile configuration. *)
#[local] Instance daemon_files : Inventory := {|
  inv_fs := {|
    fs_open _ _ := None;
    fs_stat p :=
      if bool_decide (p = path_parts) then StatErrno ENOENT
      else if bool_decide (p = ["etc"; "consent"; "roles.conf"]) then StatOk policy_stat
      else if bool_decide (p = ["usr"; "agent"]) then StatOk agent_stat else StatOk directory_stat;
    fs_read _ := inr "policy";
    fs_close _ := None;
  |};
  g_key_file_load _ := Some demo_policy;
  pkgmgr_pkgid _ := None;
|}.

#[local] Instance daemon_text : KeyText := {| g_strstrip s := s; g_key_file_get_keys _ _ := [] |}.

#[local] Instance daemon_io : IoEnv := {|
  io_time n := 1000 * Z.of_nat n;
  io_send _ _ _ := SendBlocked;
  io_recv _ _ := RecvBlocked;
  io_kernel _ _ := demo_kernel;
  io_rules := (Load CONSENT_ROLE_CONFIG).2;
  io_generation _ := 0;
  io_push _ := true;
|}.

#[local] Instance daemon_io_laws : IoLaws.
Proof. split; done. Qed.

#[local] Abbreviation life := (Run profile_initial (offline.mkDisk prepared_tree 0) boot true false true [EvIncoming; EvIo; EvIo]).

(** The daemon runs and one client is connected. *)
Example daemon_runs :
  match life with
  | Some (status, s) => bool_decide (status = 0) && (s.(s_next_client) =? 1) && bool_decide (1 ∈ s.(s_clients))
  | None => false
  end = true.
Proof. vm_compute. reflexivity. Qed.

Lemma daemon_content n : wf (env_content n).
Proof. exact wf_empty. Qed.

Lemma daemon_life_witness :
  match life with
  | Some (status, s) =>
      may_start prepared_tree ∧ state_ready prepared_tree ∧ wf (w_db s.(s_world)) ∧ s.(s_next_client) = 1
  | None => False
  end.
Proof.
  pose proof daemon_runs as Hr. destruct life as [[status s]|] eqn:Hl; [|discriminate Hr].
  apply andb_true_iff in Hr as [Hr _]. apply andb_true_iff in Hr as [_ Hn]. apply Z.eqb_eq in Hn.
  destruct (daemon_life profile_initial (offline.mkDisk prepared_tree 0) boot true false true [EvIncoming; EvIo; EvIo] status s
    daemon_content wf_empty Hl) as (Hm & Hs & Hw & _).
  split; [exact Hm|]. split; [exact Hs|]. split; [exact Hw|exact Hn].
Defined.
